(* ===== verification/_CoqProject ===== *)
-Q . S2P
Prelude.v
Hardfork.v
Blake2.v
Bytecode.v
State.v
Database.v
WarmAddresses.v
Precompile.v
PrecompileLaws.v
JournalEntry.v
JournalInner.v
JournalLoads.v
JournalView.v
JournalRevert.v
JournalExec.v
Gas.v
I256.v
InstructionResult.v
Stack.v
SharedMemory.v
FrameStack.v
Interpreter.v
Env.v
Host.v
Context.v
Validation.v
Frame.v
PreExecution.v
PostExecution.v
Macros.v
Words.v
Instructions.v
HostInstructions.v
Opcode.v
InstructionTable.v
Handler.v
Fees.v
InterpreterLogic.v
InterpreterRules.v
InterpreterSafety.v
HostSafety.v
ContractSafety.v
RunSafety.v
InstructionSpecs.v
ContextLaws.v
BundleAccount.v
BundleAccountLaws.v
BundleState.v
BundleStateLaws.v
BundleChangeset.v
CacheState.v
StateDb.v
CacheAccountLaws.v
StateLaws.v
CacheDB.v
CacheDBLaws.v
Bal.v
BalLaws.v
BalMerge.v
FastLz.v
TxBuilder.v
OpTypes.v
L1Block.v
OpHandler.v
OpLaws.v
OpDeposit.v
OpExample.v
ExecApi.v
Inspector.v
InspectorLaws.v
OpInspect.v
InspectorExample.v
PreBlock.v
PreBlockLaws.v
RocksStore.v
RocksStoreLaws.v
