(* ===== verification/Prelude.v ===== *)
(** * A verification of revm's execution core

    revm is an implementation of the Ethereum virtual machine.  A transaction
    is executed by a stack of call frames; each frame is run by the
    _interpreter_, which reads the bytecode of a contract, computes on a stack
    and a memory, pays gas, and asks a _host_ for everything outside the frame:
    block and transaction data, balances, storage, code.  The host is backed by
    the _journal_, which caches accounts and slots over a database, tracks which
    of them are warm, and logs every change so that a frame that fails can be
    undone.  A frame ends in an action: a result, or a new frame to run.  The
    _handler_ validates the transaction, charges its sender, runs the loop over
    the frames and settles the gas.  Its output is committed to a database: the
    _state_ collects the changes of the transactions of a block into transitions
    and those of the blocks into a bundle that can be reverted and written out,
    and a _block access list_ records who wrote what, so that the transactions of
    a block can be executed independently.  _Inspectors_ watch the execution
    through hooks, and another handler executes the transactions of an
    _Optimism_ rollup, which also pay for their data on the layer below.

    This library translates that core from the sources under [src/crates] into
    executable definitions and proves what makes it correct.

    ** Conventions

    - A machine integer is a [Z] with its width written out ([wrap],
      [checked_add], [saturating_add], ... below); [u8], [u64] and [u256] say
      that a number is in range.  Addresses and hashes are [Z] too.  [usize] is
      64 bits wide.
    - A function that can panic, or read outside its buffer, returns an
      [option] and gives [None] there.  [Result] is [result].  A method with
      [&mut self] returns the new value.
    - Maps are [gmap]s; a [Vec] is a list, with the last element last.
    - The shared memory buffer of all frames is one list of bytes that is
      passed along, because the frames of a transaction really share it.
    - Code outside the repository is a class parameter: [Keccak] (the hash,
      with the law that it is 32 bytes long), [BitVec] (the bit vector of the
      [bitvec] crate, with the law that a bit that was set is read back,
      instantiated by [Lsb0BitVec]), [Database] (the state below the journal,
      with the law that its answers are in range, instantiated by [EmptyDB]),
      [Crypto] (the curves and hashes behind the precompiles), [VecGrow] (how
      far [Vec::reserve] grows), [CreateAddress] (the addresses of created
      contracts) and [AuthorizationTr] (signed authorizations).
    - Debug assertions are modelled where a violation would also break the
      release build ([set_action] twice, an instruction pointer outside of the
      code, a read outside of the memory); overflow follows the release build.

    ** The parts

    - [Prelude] (this file): machine integers, results, byte strings, and the
      shared tactics and hint databases.
    - [Hardfork]: [primitives/src/hardfork.rs].
    - [Bytecode]: the [bytecode] crate: [analyze_legacy] (the jump table and the
      padding), [Eip7702Bytecode], [Bytecode].
    - [State]: the [state] crate: [AccountInfo], [Account] and its status bits,
      [EvmStorageSlot].  [Database]: the [Database] trait and [EmptyDB].
    - [WarmAddresses], [JournalEntry], [JournalInner]: the journal,
      [context/src/journal/{warm_addresses,inner}.rs] and
      [context/interface/src/journaled_state/{entry,account}.rs], with every
      operation of [JournalInner] on the state.
      - [JournalLoads]: what loads, stores and code changes answer.
      - [JournalView]: what an operation can observe of a state ([view]): the
        information, the warmth and the slots of an account, whether it has
        been loaded or would be read from the database.
      - [JournalRevert]: each operation leaves entries that undo it up to the
        view.
      - [JournalExec]: the executions of a frame as an inductive relation over
        the operations, and the theorems on checkpoints.
    - [Gas]: [interpreter/src/gas.rs] and [gas/{calc,constants}.rs].
    - [I256]: [instructions/i256.rs].  [InstructionResult]:
      [instruction_result.rs].  [Stack]: [interpreter/stack.rs], with the
      word-wise writes of [push_slice_] into the raw buffer.  [SharedMemory]:
      [interpreter/shared_memory.rs].
    - [Interpreter]: [interpreter.rs], [interpreter/ext_bytecode.rs],
      [interpreter_action.rs] and its inputs.  [Host]: the [Host] trait as a
      class, its laws, [DummyHost].
    - [Macros]: [instructions/macros.rs] as a monad with early return;
      [Instructions] and [HostInstructions]: one definition per instruction of
      [instructions/{arithmetic,bitwise,stack,control,memory,system}.rs] and
      [instructions/{host,block_info,tx_info,contract}.rs].
    - [Opcode]: [bytecode/src/opcode.rs].  [InstructionTable]:
      [instructions.rs], [Interpreter::step] and [Interpreter::run_plain].
    - [Precompile], [Blake2]: the [precompile] crate: the contracts, the tables
      of the forks, and the portable and the AVX2 BLAKE2 compression.
      [PrecompileLaws]: their theorems.
    - [Env]: the block, the configuration and the transaction
      ([context/src/{block,cfg,tx}.rs] and [context/interface/src]).
      [Context]: [context/src/{context,journal,local}.rs], with [Host]
      implemented by the journal.  [FrameStack]: the pool of frames of
      [context/interface/src/local.rs].
    - [Validation], [Frame], [PreExecution], [PostExecution], [Handler]: the
      [handler] crate, one file per source file ([Frame] with
      [frame_data.rs] and [precompile_provider.rs], [Handler] with [evm.rs] and
      [execution.rs]).  [Handler.run] is the execution of a transaction.
    - [BundleAccount], [BundleState], [CacheState], [StateDb]: the states of
      [database/src/states]: the statuses and transitions of an account, the
      accounts of a bundle and their reverts; the bundle; the cache; the [State]
      database with its builder.
      - [BundleAccountLaws], [BundleStateLaws]: the _world_ a bundle stands for,
        and that updates change it as they should and reverts restore it.
        [BundleChangeset]: changesets and the extension of a bundle.
      - [CacheAccountLaws], [StateLaws]: [State] refines a plain world.
    - [CacheDB]: [database/src/in_memory_db.rs], with [DatabaseRef] and [Either]
      of [database/interface/src]; [CacheDBLaws]: its reads and commits.
    - [Bal]: the block access lists of [state/src/bal.rs] and [state/src/bal], and
      [BalDatabase] of [database/interface/src/bal.rs].  [BalLaws]: searching,
      building and replaying a list; [BalMerge]: merging lists and the wire format.
    - [PreBlock]: the state before a block ([context/src/block_states.rs]), the
      cache of a batch with its threads ([flatdb/src/mtcache.rs]) and the
      prefetched state ([flatdb/src/preblock_db_provider.rs]).  [PreBlockLaws]:
      interleavings and prefetching.
    - [RocksStore]: the [librocksdb] crate: the backend interface
      ([ethrex_storage/api]), RocksDB behind it, the keys, and [Store] with its
      commits of access lists ([store.rs]).  [RocksStoreLaws]: what a backend and
      the codecs promise, and that commits are right.
    - [TxBuilder]: the builder of transactions ([context/src/tx.rs]) and the
      transaction of a system call.  [ExecApi]: the traits [ExecuteEvm],
      [ExecuteCommitEvm] and [SystemCallEvm] of [handler/src/api.rs] and
      [system_call.rs] as classes with their provided methods, and their
      instances for the mainnet and the Optimism EVM.
    - [FastLz], [OpTypes], [L1Block], [OpHandler]: the [op-revm] crate:
      [fast_lz.rs] with the estimate of [transaction.rs]; the forks, the
      transaction, its builder, errors and results; [l1block.rs]; the
      precompiles, the handler and the interface.
      - [OpLaws]: the L1 cost, and the money of a transaction.  [OpDeposit]:
        what a failed deposit leaves behind.  [OpExample]: transactions run by
        evaluation.
    - [Inspector]: the [inspector] crate: the hooks, the inspectors, the
      instrumented loops ([handler.rs], [traits.rs]) and the interface.
      [OpInspect]: inspected Optimism transactions.  [InspectorLaws]: inspection
      does not disturb execution.  [InspectorExample]: inspected transactions.
    - [Words], [InterpreterLogic], [InterpreterRules]: the ranges of the word
      operations, a Hoare logic for the instruction monad, and one rule per
      macro.  [InterpreterSafety], [HostSafety], [ContractSafety]: one lemma per
      instruction.  [RunSafety]: the loop.  [InstructionSpecs]: what
      instructions compute.  [ContextLaws]: the [Context] keeps the laws of
      [Host].  [Fees]: the money of a transaction.

    ** What is proved

    - Execution is safe and ends ([RunSafety]): for every bytecode, gas limit
      and host that keeps its laws, [run_plain] on the default instruction table
      reaches an action without a panic and without a read outside the code,
      the stack or the memory, in at most [gas_limit + 1] steps; gas never
      grows, the output is bytes and the inputs of a new frame are well formed.
      With the [Context] as the host nothing is assumed of the host any more
      ([ContextLaws]): the journal over any database with answers in range
      never panics either.
    - A transaction is validated exactly by the listed rules of the EIPs, among
      which the code has none against the creation of contracts by blob and
      delegating transactions ([Validation]); the caller is charged the gas limit
      at the effective price, and what it is charged is what is reimbursed, paid to
      the beneficiary and burned ([Fees]).
    - Precompiles are found where the tables put them, report at most the gas
      they were given, and the AVX2 BLAKE2 equals the portable one
      ([PrecompileLaws], [Blake2]); the pool of frames is a stack
      ([FrameStack]).
    - Reverting restores ([JournalExec]): whatever a frame does, nested frames
      included, [checkpoint_revert] brings back everything a later operation can
      observe; so do the revert of a creation, its errors, and [discard_tx].
      These theorems, and the one about failed deposits, cover a journal in its
      first transaction only (transaction id 0, as after [new] or [finalize]): in
      later transactions of one journal the warmth of accounts is not restored
      ([load_account_cold_twice]).  They leave out payments that overflow the
      balance of the recipient, code set over code, whose revert the code gets
      wrong ([code_change_revert_empties]), and creations at addresses with storage
      in the database.
    - Frames do not share memory ([SharedMemory]): whatever a child frame does
      with the shared buffer, freeing it restores its caller's bytes; memory
      expansion is charged exactly.
    - The jump table holds exactly the [JUMPDEST]s at instruction boundaries,
      and the padding keeps the instruction pointer inside the code
      ([Bytecode]); [JUMP] goes to those and nowhere else.
    - The instructions compute what they should ([InstructionSpecs]): signed
      division, comparison, shifts, sign extension, bytes, memory; static frames
      cannot change state; calls obey the 63/64 rule and create no gas; the
      opcode tables agree with each other.
    - The stack refines lists ([Stack]), and the warm-address cache its
      specification ([WarmAddresses]); gas charging, refunds, the costs of
      stores, of [EXP] and of a transaction are the formulas of the protocol
      ([Gas]); codes and halt reasons survive their round trips.
    - The state between blocks is right ([StateLaws]): whatever is loaded,
      committed, paid and merged, for commits that are the output of executions
      ([commit_valid]) over a normal database ([world_normal]), reads answer from the plain world that the
      commits define, and after a merge the bundle holds that world over the
      database.  Reverting the latest block of a bundle restores the world before
      it ([BundleStateLaws]); a changeset turns the database into the world of
      the bundle, and extending a bundle by the next one adds its world
      ([BundleChangeset]).  [CacheDB] answers from its cache over its database
      and takes commits ([CacheDBLaws]).
    - A block can be replayed from its access list ([BalLaws]): the list built
      while executing it in order makes the reads of each transaction, over the
      state before the block, those of the sequential execution, for commits that
      do not merely read what an earlier one of the same index changed
      ([bal_commit_ok]); so does the merged list of a batch of blocks ([BalMerge]).
    - Inspection is transparent ([InspectorLaws], [OpInspect]): under an
      inspector that only watches, the instrumented run of a transaction panics,
      fails and succeeds exactly as the plain one, with the same result and
      state; [CountInspector] and the user of [GasInspector] are such inspectors,
      and so are pairs and alternatives of them; calls and creations are
      reported in balanced pairs.
    - A sequence of transactions runs in order up to the first that fails
      ([ExecApi]); [build_fill] agrees with [build] where that succeeds and
      gives, for a given type, a transaction that
      [build] accepts ([TxBuilder]).
    - On Optimism ([OpLaws], [OpDeposit], [FastLz]): what a transaction is
      charged is what its caller, the beneficiary and the three vaults get; the
      L1 cost since Fjord is the formula of the protocol; the compressed size is
      computed without a panic and is bounded; a deposit that fails leaves the
      state before it, with the nonce bumped and the mint paid.
    - The state of a batch is served right.  The threads that share an [MTCache]
      wait for the locks of its maps, whichever entries share a lock; under every
      interleaving that gives each of [n] threads a turn in [5 * n] rounds all reads
      have returned, with the answer of the latest state in memory that has one or
      else of the database, and the three ways to prefetch give one cache ([PreBlockLaws]); committing an access list makes the flat
      store read as the list says, and keeps the states in memory in agreement
      with it ([RocksStoreLaws]).
    - Where the code departs from its comments or from the protocol, a theorem
      shows it ([JournalLoads]: [load_account_cold_twice],
      [sload_skip_refuses_warm_slot], [code_change_revert_empties];
      [PrecompileLaws]: [Precompiles_get_mut_ignored]; [PreExecution]:
      [eip7702_parallel_order_matters]; [BundleChangeset]:
      [stale_slot_after_reverts], [extend_revert_loses_destroyed],
      [extend_state_size_drifts]; [StateLaws]: [touch_empty_loaded_lost];
      [CacheDBLaws]: [destroyed_storage_comes_back], [flatten_loses_storage],
      [missing_account_storage_hidden], [committed_code_stays]; [Validation]:
      [typed_creation_accepted];
      [BalMerge]: [same_index_write_lost], [merged_index_search_wrong],
      [remove_first_last_wrong]; [TxBuilder]: [build_fill_blobs_as_legacy];
      [OpTypes]: [op_build_fill_drops_envelope]; [OpExample]:
      [op_failed_tx_not_discarded], [free_envelope_mints]; [InspectorExample]:
      [selfdestruct_report_wrong]).

    ** Fuel

    [Interpreter_run_plain], [analyze_loop] and [binary_search_loop] take fuel.  One step of
    [run_plain] either ends the frame or costs at least one unit of gas, so the
    gas limit plus one is enough, which [interpreter_run_safe] proves; the
    analysis gets the length of the code and advances at least one byte a step;
    the search gets the length of the list and halves it.  The loops of
    [FastLz] get the length of the input and advance in each round
    ([flz_compress_len_bounded] proves that this is enough).  The loops over
    frames take [steps] and [fuel] from their caller: a theorem about them holds
    for any amount and tells running out of it apart from a result, and
    [inspect_run] uses exactly as much as [run].
    Memory sizes are bounded through gas: a limit below 2^55 keeps every offset
    below 2^64, and real gas limits are far below that.

    ** What is not modelled

    The libraries behind the precompiles; the getters and setters of the
    environments and the constructors of the [Context]; the builder of bundles
    for tests ([BundleBuilder]); serialization; the tracer that writes EIP-3155
    lines; the tuning, checkpoints and snapshots of RocksDB; the providers over
    [reth] and over an RPC client ([flatdb/src/libmdbx.rs], [libmdbx],
    [alloydb]), which are input and output; the test runners.  [rocksdb], the
    codecs of [reth_db] and its account are parameters of [RocksStore], with what
    they document as laws.  *)
From stdpp Require Import base numbers list option tactics gmap strings.
From Stdlib Require Import ZArith Lia.

Local Open Scope Z_scope.

(** * Machine integers

    Every unsigned Rust integer is a [Z] kept in its range; the operations
    below write out what the Rust methods of the same name do at the border
    of the range.  [w] is the width in bits. *)

Definition modulus (w : Z) : Z := 2 ^ w.
Definition in_range (w x : Z) : Prop := 0 <= x < modulus w.
Definition in_rangeb (w x : Z) : bool := (0 <=? x) && (x <? modulus w).

Abbreviation u8 := (in_range 8).
Abbreviation u64 := (in_range 64).
Abbreviation u256 := (in_range 256).

Definition wrap (w x : Z) : Z := x mod modulus w.
Definition wrapping_add (w x y : Z) : Z := wrap w (x + y).
Definition wrapping_sub (w x y : Z) : Z := wrap w (x - y).
Definition wrapping_mul (w x y : Z) : Z := wrap w (x * y).
Definition wrapping_neg (w x : Z) : Z := wrap w (- x).

Definition checked_add (w x y : Z) : option Z :=
  if x + y <? modulus w then Some (x + y) else None.
Definition checked_sub (x y : Z) : option Z :=
  if y <=? x then Some (x - y) else None.
Definition checked_mul (w x y : Z) : option Z :=
  if x * y <? modulus w then Some (x * y) else None.

Definition saturating_add (w x y : Z) : Z := Z.min (x + y) (modulus w - 1).
Definition saturating_sub (x y : Z) : Z := Z.max 0 (x - y).
Definition saturating_mul (w x y : Z) : Z := Z.min (x * y) (modulus w - 1).

(** Reading the bits of an unsigned [w]-bit integer as a signed one. *)
Definition signed (w x : Z) : Z := if x <? 2 ^ (w - 1) then x else x - modulus w.

#[global] Instance in_range_dec w x : Decision (in_range w x).
Proof. unfold in_range. apply _. Defined.

(** * Results and panics

    [result A E] is Rust's [Result<A, E>].  A computation that can panic (an
    [unwrap] of [None], an [expect], an out-of-bounds index) returns an
    [option], [None] standing for the panic. *)

Inductive result (A E : Type) : Type :=
| Ok (a : A)
| Err (e : E).
Arguments Ok {A E} a.
Arguments Err {A E} e.

Definition is_ok {A E} (r : result A E) : bool :=
  match r with Ok _ => true | Err _ => false end.

Definition map_err {A E F} (f : E -> F) (r : result A E) : result A F :=
  match r with Ok a => Ok a | Err e => Err (f e) end.

Definition map_ok {A B E} (f : A -> B) (r : result A E) : result B E :=
  match r with Ok a => Ok (f a) | Err e => Err e end.

(** [let? x := m in k] is Rust's [m.unwrap()] in a computation that may panic. *)
Notation "'let?' x ':=' m 'in' k" :=
  (match m with Some x => k | None => None end)
  (at level 10, x pattern, m at level 100, k at level 200).

(** [try! x := m in k] is Rust's [m?]: an error is returned at once. *)
Notation "'try!' x ':=' m 'in' k" :=
  (match m with Ok x => k | Err e => Err e end)
  (at level 10, x pattern, m at level 100, k at level 200).

(** [run! (x, s) := m in k] is [m?] of an operation that changes the state [s]
    and may also panic: an error is returned at once, with the state the
    operation left. *)
Notation "'run!' '(' x ',' s ')' ':=' m 'in' k" :=
  (match m with
   | Some (Ok x, s) => k
   | Some (Err e, s) => Some (Err e, s)
   | None => None
   end)
  (at level 10, x pattern, s name, m at level 100, k at level 200).

(** [m.map_err(f)] of such an operation. *)
Definition run_map_err {A E F S} (f : E -> F) (m : option (result A E * S)) : option (result A F * S) :=
  let? (r, s) := m in Some (map_err f r, s).

(** * Tactics *)

(** Case analysis on every boolean test and option match of the goal. *)
Ltac case_if :=
  repeat match goal with
  | |- context [if ?b then _ else _] => destruct b eqn:?
  end.

Ltac boolify :=
  repeat match goal with
  | H : (_ && _)%bool = true |- _ => apply andb_prop in H as [? ?]
  | H : (_ <? _) = true |- _ => apply Z.ltb_lt in H
  | H : (_ <? _) = false |- _ => apply Z.ltb_ge in H
  | H : (_ <=? _) = true |- _ => apply Z.leb_le in H
  | H : (_ <=? _) = false |- _ => apply Z.leb_gt in H
  | H : (_ =? _) = true |- _ => apply Z.eqb_eq in H
  | H : (_ =? _) = false |- _ => apply Z.eqb_neq in H
  | H : negb _ = true |- _ => apply negb_true_iff in H
  | H : negb _ = false |- _ => apply negb_false_iff in H
  end.

(** * Integer lemmas *)

Lemma modulus_pos w : 0 <= w -> 0 < modulus w.
Proof. intros. unfold modulus. by apply Z.pow_pos_nonneg. Qed.

Lemma wrap_range w x : 0 <= w -> in_range w (wrap w x).
Proof. intros. apply Z.mod_pos_bound, modulus_pos. done. Qed.

Lemma wrap_small w x : in_range w x -> wrap w x = x.
Proof. apply Z.mod_small. Qed.

Lemma wrap_idemp w x : 0 <= w -> wrap w (wrap w x) = wrap w x.
Proof. intros. apply wrap_small, wrap_range. done. Qed.

(** Undoing a wrapping subtraction by the wrapping addition of the same
    amount, and the other way round: the revert of a balance change. *)
Lemma wrapping_sub_add w x y :
  0 <= w -> in_range w x -> wrapping_add w (wrapping_sub w x y) y = x.
Proof.
  intros Hw Hx. unfold wrapping_add, wrapping_sub, wrap.
  pose proof (modulus_pos w Hw).
  rewrite Zplus_mod_idemp_l. replace (x - y + y) with x by lia. by apply Z.mod_small.
Qed.

Lemma wrapping_add_sub w x y :
  0 <= w -> in_range w x -> wrapping_sub w (wrapping_add w x y) y = x.
Proof.
  intros Hw Hx. unfold wrapping_add, wrapping_sub, wrap.
  pose proof (modulus_pos w Hw).
  rewrite Zminus_mod_idemp_l. replace (x + y - y) with x by lia. by apply Z.mod_small.
Qed.

Lemma wrapping_add_range w x y : 0 <= w -> in_range w (wrapping_add w x y).
Proof. apply wrap_range. Qed.
Lemma wrapping_sub_range w x y : 0 <= w -> in_range w (wrapping_sub w x y).
Proof. apply wrap_range. Qed.
Lemma wrapping_mul_range w x y : 0 <= w -> in_range w (wrapping_mul w x y).
Proof. apply wrap_range. Qed.

Lemma checked_add_spec w x y z :
  checked_add w x y = Some z <-> z = x + y /\ x + y < modulus w.
Proof. unfold checked_add. case_if; boolify; split; [intros [= <-]; lia | intros [-> ?]; f_equal; lia
  | done | lia]. Qed.

Lemma checked_sub_spec x y z :
  checked_sub x y = Some z <-> z = x - y /\ y <= x.
Proof. unfold checked_sub. case_if; boolify; split; [intros [= <-]; lia | intros [-> ?]; f_equal; lia
  | done | lia]. Qed.

Lemma checked_mul_spec w x y z :
  checked_mul w x y = Some z <-> z = x * y /\ x * y < modulus w.
Proof. unfold checked_mul. case_if; boolify; split; [intros [= <-]; lia | intros [-> ?]; f_equal; lia
  | done | lia]. Qed.

Lemma saturating_add_range w x y :
  0 <= w -> 0 <= x -> 0 <= y -> in_range w (saturating_add w x y).
Proof. intros ? ? ?. pose proof (modulus_pos w ltac:(done)). unfold in_range, saturating_add. lia. Qed.

Lemma signed_range w x :
  0 < w -> in_range w x -> - 2 ^ (w - 1) <= signed w x < 2 ^ (w - 1).
Proof.
  intros Hw [? ?]. unfold signed, modulus in *.
  replace (2 ^ w) with (2 * 2 ^ (w - 1)) in * by (rewrite <- Z.pow_succ_r by lia; f_equal; lia).
  case_if; boolify; lia.
Qed.

Lemma wrap_signed w x : 0 < w -> in_range w x -> wrap w (signed w x) = x.
Proof.
  intros Hw Hx. unfold signed. case_if; [by apply wrap_small|].
  unfold wrap. rewrite <- (Z.mod_small x (modulus w)) at 2 by done.
  replace (x - modulus w) with (x + (-1) * modulus w) by lia. by rewrite Z_mod_plus_full.
Qed.

(** Masking with a single bit. *)
Lemma land_pow2 x k : 0 <= k -> Z.land x (2 ^ k) = if Z.testbit x k then 2 ^ k else 0.
Proof.
  intros Hk. apply Z.bits_inj'. intros n Hn.
  rewrite Z.land_spec, Z.pow2_bits_eqb by done.
  destruct (Z.eqb_spec k n) as [->|Hne].
  - rewrite andb_true_r. destruct (Z.testbit x n); by rewrite ?Z.pow2_bits_true, ?Z.bits_0.
  - rewrite andb_false_r. destruct (Z.testbit x k); by rewrite ?Z.pow2_bits_false, ?Z.bits_0.
Qed.

Create HintDb word.
#[export] Hint Resolve wrap_range wrapping_add_range wrapping_sub_range
  wrapping_mul_range : word.
#[export] Hint Extern 1 (0 <= _) => lia : word.

(** * Byte strings

    A byte string is a list of bytes, each a [Z] in [0, 256).  [be_bytes n x]
    is the [n]-byte big-endian encoding of [x] ([to_be_bytes] of the Rust
    integers, the bytes of an [Address] or a [B256]) and [from_be_bytes] reads
    such an encoding back. *)

Fixpoint le_bytes (n : nat) (x : Z) : list Z :=
  match n with
  | O => []
  | S n => x mod 256 :: le_bytes n (x / 256)
  end.
Definition be_bytes (n : nat) (x : Z) : list Z := reverse (le_bytes n x).

Fixpoint from_le_bytes (l : list Z) : Z :=
  match l with
  | [] => 0
  | b :: l => b + 256 * from_le_bytes l
  end.
Definition from_be_bytes (l : list Z) : Z := from_le_bytes (reverse l).

Lemma length_le_bytes n x : length (le_bytes n x) = n.
Proof. revert x. induction n; intros; simpl; auto. Qed.

Lemma length_be_bytes n x : length (be_bytes n x) = n.
Proof. unfold be_bytes. by rewrite length_reverse, length_le_bytes. Qed.

Lemma from_le_bytes_range l :
  Forall u8 l -> 0 <= from_le_bytes l < 256 ^ Z.of_nat (length l).
Proof.
  induction 1 as [|b l Hb Hl IH]; [simpl; lia|].
  cbn [from_le_bytes length]. rewrite Nat2Z.inj_succ, Z.pow_succ_r by lia.
  unfold in_range, modulus in Hb. lia.
Qed.

Lemma from_be_bytes_range l :
  Forall u8 l -> 0 <= from_be_bytes l < 256 ^ Z.of_nat (length l).
Proof.
  intros. unfold from_be_bytes. rewrite <- length_reverse.
  apply from_le_bytes_range. by apply Forall_reverse.
Qed.

Lemma le_bytes_u8 n x : Forall u8 (le_bytes n x).
Proof.
  revert x. induction n; intros; simpl; constructor; auto.
  apply Z.mod_pos_bound. unfold modulus. lia.
Qed.

Lemma be_bytes_u8 n x : Forall u8 (be_bytes n x).
Proof. apply Forall_reverse, le_bytes_u8. Qed.

Lemma from_le_bytes_le_bytes n x : from_le_bytes (le_bytes n x) = x mod 256 ^ Z.of_nat n.
Proof.
  revert x. induction n as [|n IH]; intros x; [by rewrite Z.mod_1_r|].
  cbn [le_bytes from_le_bytes]. rewrite IH, Nat2Z.inj_succ, Z.pow_succ_r by lia.
  rewrite Z.rem_mul_r by lia. done.
Qed.

(** Decoding an encoding gives the integer back, reduced to [n] bytes. *)
Lemma from_be_bytes_be_bytes n x : from_be_bytes (be_bytes n x) = x mod 256 ^ Z.of_nat n.
Proof. unfold from_be_bytes, be_bytes. rewrite reverse_involutive. apply from_le_bytes_le_bytes. Qed.

Lemma le_bytes_from_le_bytes l : Forall u8 l -> le_bytes (length l) (from_le_bytes l) = l.
Proof.
  induction 1 as [|b l Hb Hl IH]; [done|]. unfold in_range, modulus in Hb.
  cbn [length le_bytes from_le_bytes]. f_equal.
  - rewrite Z.mul_comm, Z_mod_plus_full. by apply Z.mod_small.
  - rewrite Z.mul_comm, Z_div_plus_full, Z.div_small by lia. done.
Qed.

(** Encoding a decoded byte string gives the byte string back. *)
Lemma be_bytes_from_be_bytes l : Forall u8 l -> be_bytes (length l) (from_be_bytes l) = l.
Proof.
  intros. unfold be_bytes, from_be_bytes. rewrite <- (length_reverse l).
  rewrite le_bytes_from_le_bytes by (by apply Forall_reverse).
  apply reverse_involutive.
Qed.

(** Concatenated encodings. *)
Lemma from_le_bytes_app l1 l2 :
  from_le_bytes (l1 ++ l2) = from_le_bytes l1 + 256 ^ Z.of_nat (length l1) * from_le_bytes l2.
Proof.
  induction l1 as [|b l1 IH]; cbn -[Z.pow]; [lia|].
  rewrite IH. rewrite Nat2Z.inj_succ, Z.pow_succ_r by lia. lia.
Qed.

Lemma from_be_bytes_app l1 l2 :
  from_be_bytes (l1 ++ l2) = from_be_bytes l1 * 256 ^ Z.of_nat (length l2) + from_be_bytes l2.
Proof.
  unfold from_be_bytes. rewrite reverse_app, from_le_bytes_app, length_reverse. lia.
Qed.

(** * Hashing

    [keccak256] is the hash of a third-party crate: the development is
    parametric in it.  A [B256] is the integer its 32 bytes encode. *)
Class Keccak := keccak256 : list Z -> Z.
Class KeccakLaws `{Keccak} : Prop := keccak256_range bytes : in_range 256 (keccak256 bytes).
