(* ===== verification/Hardfork.v ===== *)
(** The hard forks of [crates/primitives/src/hardfork.rs].

    [SpecId] is the enum with its [u8] discriminants, [SpecId_is_enabled_in]
    the activation test every other component guards its behaviour with, and
    [SpecId_from_str] / [SpecId_to_str] the conversions from and to fork names. *)
From S2P Require Import Prelude.
From stdpp Require Import base numbers list option tactics strings.
From Stdlib Require Import ZArith Lia.

Local Open Scope Z_scope.

Inductive SpecId : Type :=
| FRONTIER
| FRONTIER_THAWING
| HOMESTEAD
| DAO_FORK
| TANGERINE
| SPURIOUS_DRAGON
| BYZANTIUM
| CONSTANTINOPLE
| PETERSBURG
| ISTANBUL
| MUIR_GLACIER
| BERLIN
| LONDON
| ARROW_GLACIER
| GRAY_GLACIER
| MERGE
| SHANGHAI
| CANCUN
| PRAGUE
| OSAKA
| AMSTERDAM.

#[global] Instance SpecId_eq_dec : EqDecision SpecId.
Proof. solve_decision. Defined.

(** The discriminant, [self as u8]. *)
Definition SpecId_as_u8 (s : SpecId) : Z :=
  match s with
  | FRONTIER => 0
  | FRONTIER_THAWING => 1
  | HOMESTEAD => 2
  | DAO_FORK => 3
  | TANGERINE => 4
  | SPURIOUS_DRAGON => 5
  | BYZANTIUM => 6
  | CONSTANTINOPLE => 7
  | PETERSBURG => 8
  | ISTANBUL => 9
  | MUIR_GLACIER => 10
  | BERLIN => 11
  | LONDON => 12
  | ARROW_GLACIER => 13
  | GRAY_GLACIER => 14
  | MERGE => 15
  | SHANGHAI => 16
  | CANCUN => 17
  | PRAGUE => 18
  | OSAKA => 19
  | AMSTERDAM => 20
  end.

Definition SpecId_try_from_u8 (spec_id : Z) : option SpecId :=
  nth_error
    [FRONTIER; FRONTIER_THAWING; HOMESTEAD; DAO_FORK; TANGERINE; SPURIOUS_DRAGON; BYZANTIUM; CONSTANTINOPLE; PETERSBURG; ISTANBUL; MUIR_GLACIER;
      BERLIN; LONDON; ARROW_GLACIER; GRAY_GLACIER; MERGE; SHANGHAI; CANCUN; PRAGUE; OSAKA; AMSTERDAM]
    (Z.to_nat spec_id).

Definition SpecId_default : SpecId := PRAGUE.

Definition SpecId_is_enabled_in (self other : SpecId) : bool :=
  SpecId_as_u8 other <=? SpecId_as_u8 self.

Definition name_FRONTIER : string := "Frontier".
Definition name_FRONTIER_THAWING : string := "Frontier Thawing".
Definition name_HOMESTEAD : string := "Homestead".
Definition name_DAO_FORK : string := "DAO Fork".
Definition name_TANGERINE : string := "Tangerine".
Definition name_SPURIOUS_DRAGON : string := "Spurious".
Definition name_BYZANTIUM : string := "Byzantium".
Definition name_CONSTANTINOPLE : string := "Constantinople".
Definition name_PETERSBURG : string := "Petersburg".
Definition name_ISTANBUL : string := "Istanbul".
Definition name_MUIR_GLACIER : string := "MuirGlacier".
Definition name_BERLIN : string := "Berlin".
Definition name_LONDON : string := "London".
Definition name_ARROW_GLACIER : string := "Arrow Glacier".
Definition name_GRAY_GLACIER : string := "Gray Glacier".
Definition name_MERGE : string := "Merge".
Definition name_SHANGHAI : string := "Shanghai".
Definition name_CANCUN : string := "Cancun".
Definition name_PRAGUE : string := "Prague".
Definition name_OSAKA : string := "Osaka".
Definition name_AMSTERDAM : string := "Amsterdam".
Definition name_LATEST : string := "Latest".

Inductive UnknownHardfork : Type := unknown_hardfork.

Definition SpecId_from_str (s : string) : result SpecId UnknownHardfork :=
  if String.eqb s name_FRONTIER then Ok FRONTIER
  else if String.eqb s name_FRONTIER_THAWING then Ok FRONTIER_THAWING
  else if String.eqb s name_HOMESTEAD then Ok HOMESTEAD
  else if String.eqb s name_DAO_FORK then Ok DAO_FORK
  else if String.eqb s name_TANGERINE then Ok TANGERINE
  else if String.eqb s name_SPURIOUS_DRAGON then Ok SPURIOUS_DRAGON
  else if String.eqb s name_BYZANTIUM then Ok BYZANTIUM
  else if String.eqb s name_CONSTANTINOPLE then Ok CONSTANTINOPLE
  else if String.eqb s name_PETERSBURG then Ok PETERSBURG
  else if String.eqb s name_ISTANBUL then Ok ISTANBUL
  else if String.eqb s name_MUIR_GLACIER then Ok MUIR_GLACIER
  else if String.eqb s name_BERLIN then Ok BERLIN
  else if String.eqb s name_LONDON then Ok LONDON
  else if String.eqb s name_ARROW_GLACIER then Ok ARROW_GLACIER
  else if String.eqb s name_GRAY_GLACIER then Ok GRAY_GLACIER
  else if String.eqb s name_MERGE then Ok MERGE
  else if String.eqb s name_SHANGHAI then Ok SHANGHAI
  else if String.eqb s name_CANCUN then Ok CANCUN
  else if String.eqb s name_PRAGUE then Ok PRAGUE
  else if String.eqb s name_OSAKA then Ok OSAKA
  else if String.eqb s name_AMSTERDAM then Ok AMSTERDAM
  else Err unknown_hardfork.

Definition SpecId_to_str (s : SpecId) : string :=
  match s with
  | FRONTIER => name_FRONTIER
  | FRONTIER_THAWING => name_FRONTIER_THAWING
  | HOMESTEAD => name_HOMESTEAD
  | DAO_FORK => name_DAO_FORK
  | TANGERINE => name_TANGERINE
  | SPURIOUS_DRAGON => name_SPURIOUS_DRAGON
  | BYZANTIUM => name_BYZANTIUM
  | CONSTANTINOPLE => name_CONSTANTINOPLE
  | PETERSBURG => name_PETERSBURG
  | ISTANBUL => name_ISTANBUL
  | MUIR_GLACIER => name_MUIR_GLACIER
  | BERLIN => name_BERLIN
  | LONDON => name_LONDON
  | ARROW_GLACIER => name_ARROW_GLACIER
  | GRAY_GLACIER => name_GRAY_GLACIER
  | MERGE => name_MERGE
  | SHANGHAI => name_SHANGHAI
  | CANCUN => name_CANCUN
  | PRAGUE => name_PRAGUE
  | OSAKA => name_OSAKA
  | AMSTERDAM => name_AMSTERDAM
  end.

(** * Properties *)

Lemma SpecId_as_u8_inj s t : SpecId_as_u8 s = SpecId_as_u8 t -> s = t.
Proof. destruct s, t; done. Qed.

Lemma SpecId_try_from_as_u8 s : SpecId_try_from_u8 (SpecId_as_u8 s) = Some s.
Proof. destruct s; done. Qed.

Lemma SpecId_is_enabled_in_refl s : SpecId_is_enabled_in s s = true.
Proof. unfold SpecId_is_enabled_in. lia. Qed.

(** A fork that enables a later one enables every earlier one. *)
Lemma SpecId_is_enabled_in_trans s t u :
  SpecId_is_enabled_in s t = true -> SpecId_is_enabled_in t u = true ->
  SpecId_is_enabled_in s u = true.
Proof. unfold SpecId_is_enabled_in. lia. Qed.

(** Printing a fork name and parsing it gives the fork back. *)
Lemma SpecId_from_to_str s : SpecId_from_str (SpecId_to_str s) = Ok s.
Proof. destruct s; done. Qed.
