(* ===== verification/Blake2.v ===== *)
(** The BLAKE2 compression function of [crates/precompile/src/blake2.rs], in
    the two versions the code has: the portable one ([algo]) and the one with
    AVX2 intrinsics ([avx2]), chosen at run time.  The theorem at the end says
    that the two compute the same function for every number of rounds.

    A [u64] is a [Z] in its range and a 256-bit vector is four of them, lane 0
    first.  The intrinsics of [core::arch] are written out lane by lane. *)
From S2P Require Import Prelude.
From stdpp Require Import base numbers list option tactics.
From Stdlib Require Import ZArith Lia.

Local Open Scope Z_scope.

(** * The portable version *)

Definition SIGMA : list (list nat) :=
  [[0; 1; 2; 3; 4; 5; 6; 7; 8; 9; 10; 11; 12; 13; 14; 15];
   [14; 10; 4; 8; 9; 15; 13; 6; 1; 12; 0; 2; 11; 7; 5; 3];
   [11; 8; 12; 0; 5; 2; 15; 13; 10; 14; 3; 6; 7; 1; 9; 4];
   [7; 9; 3; 1; 13; 12; 11; 14; 2; 6; 5; 10; 4; 0; 15; 8];
   [9; 0; 5; 7; 2; 4; 10; 15; 14; 1; 11; 12; 6; 8; 3; 13];
   [2; 12; 6; 10; 0; 11; 8; 3; 4; 13; 7; 5; 15; 14; 1; 9];
   [12; 5; 1; 15; 14; 13; 4; 10; 0; 7; 6; 3; 9; 2; 8; 11];
   [13; 11; 7; 14; 12; 1; 3; 9; 5; 0; 15; 4; 8; 6; 2; 10];
   [6; 15; 14; 9; 11; 3; 0; 8; 12; 2; 13; 7; 1; 4; 10; 5];
   [10; 2; 8; 4; 7; 6; 1; 5; 15; 11; 9; 14; 3; 12; 13; 0]]%nat.

Definition IV : list Z :=
  [0x6a09e667f3bcc908; 0xbb67ae8584caa73b; 0x3c6ef372fe94f82b; 0xa54ff53a5f1d36f1;
   0x510e527fade682d1; 0x9b05688c2b3e6c1f; 0x1f83d9abfb41bd6b; 0x5be0cd19137e2179].

(** [u64::rotate_right]. *)
Definition rotate_right (x n : Z) : Z := Z.lor (Z.shiftr x n) (wrap 64 (Z.shiftl x (64 - n))).

(** The arithmetic of [g] on the four words it reads. *)
Definition mix (va vb vc vd x y : Z) : Z * Z * Z * Z :=
  let va := wrapping_add 64 (wrapping_add 64 va vb) x in
  let vd := rotate_right (Z.lxor vd va) 32 in
  let vc := wrapping_add 64 vc vd in
  let vb := rotate_right (Z.lxor vb vc) 24 in
  let va := wrapping_add 64 (wrapping_add 64 va vb) y in
  let vd := rotate_right (Z.lxor vd va) 16 in
  let vc := wrapping_add 64 vc vd in
  let vb := rotate_right (Z.lxor vb vc) 63 in
  (va, vb, vc, vd).

(** [v[i]] of an array whose length is its type's. *)
Definition word (v : list Z) (i : nat) : Z := nth i v 0.

Definition g (v : list Z) (a b c d : nat) (x y : Z) : list Z :=
  let r := mix (word v a) (word v b) (word v c) (word v d) x y in
  <[d := r.2]> (<[c := r.1.2]> (<[b := r.1.1.2]> (<[a := r.1.1.1]> v))).

Definition round (v m : list Z) (r : nat) : list Z :=
  let s i := word m (nth i (nth (r mod 10) SIGMA []) 0%nat) in
  let v := g v 0 4 8 12 (s 0%nat) (s 1%nat) in
  let v := g v 1 5 9 13 (s 2%nat) (s 3%nat) in
  let v := g v 2 6 10 14 (s 4%nat) (s 5%nat) in
  let v := g v 3 7 11 15 (s 6%nat) (s 7%nat) in
  let v := g v 0 5 10 15 (s 8%nat) (s 9%nat) in
  let v := g v 1 6 11 12 (s 10%nat) (s 11%nat) in
  let v := g v 2 7 8 13 (s 12%nat) (s 13%nat) in
  g v 3 4 9 14 (s 14%nat) (s 15%nat).

(** [for i in start..start + n]. *)
Fixpoint rounds_from (v m : list Z) (start n : nat) {struct n} : list Z :=
  match n with O => v | S n => rounds_from (round v m start) m (S start) n end.

Definition u64_not (x : Z) : Z := Z.lxor x (modulus 64 - 1).

Definition compress (rounds : nat) (h m : list Z) (t : Z * Z) (f : bool) : list Z :=
  let v := h ++ IV in
  let v := <[12%nat := Z.lxor (word v 12) t.1]> v in
  let v := <[13%nat := Z.lxor (word v 13) t.2]> v in
  let v := if f then <[14%nat := u64_not (word v 14)]> v else v in
  let v := rounds_from v m 0 rounds in
  imap (fun i x => Z.lxor x (Z.lxor (word v i) (word v (i + 8)))) h.

(** * Vectors of four words and the intrinsics *)

Record m256 := mk256 { l0 : Z; l1 : Z; l2 : Z; l3 : Z }.

Definition map2 (f : Z -> Z -> Z) (a b : m256) : m256 :=
  mk256 (f (l0 a) (l0 b)) (f (l1 a) (l1 b)) (f (l2 a) (l2 b)) (f (l3 a) (l3 b)).
Definition map1 (f : Z -> Z) (a : m256) : m256 := mk256 (f (l0 a)) (f (l1 a)) (f (l2 a)) (f (l3 a)).
Definition lane (a : m256) (i : Z) : Z :=
  if i =? 0 then l0 a else if i =? 1 then l1 a else if i =? 2 then l2 a else l3 a.

Definition mm256_unpacklo_epi64 (a b : m256) : m256 := mk256 (l0 a) (l0 b) (l2 a) (l2 b).
Definition mm256_unpackhi_epi64 (a b : m256) : m256 := mk256 (l1 a) (l1 b) (l3 a) (l3 b).
(** [_mm256_alignr_epi8(a, b, 8)]: in each half, the words of [b] then [a]
    shifted down by one word. *)
Definition mm256_alignr_epi8_8 (a b : m256) : m256 := mk256 (l1 b) (l0 a) (l3 b) (l2 a).

(** A word from the low half of [x] and the high half of [y]. *)
Definition halves (x y : Z) : Z := Z.lor (Z.land x (2 ^ 32 - 1)) (Z.shiftl (Z.shiftr y 32) 32).
(** A word whose two halves are chosen from [a] or from [b]. *)
Definition blend_word (lo hi : bool) (a b : Z) : Z :=
  match lo, hi with
  | false, false => a
  | true, true => b
  | true, false => halves b a
  | false, true => halves a b
  end.
Definition mm256_blend_epi32 (a b : m256) (imm : Z) : m256 :=
  let w i := blend_word (Z.testbit imm (2 * i)) (Z.testbit imm (2 * i + 1)) (lane a i) (lane b i) in
  mk256 (w 0) (w 1) (w 2) (w 3).

Definition MM_SHUFFLE (z y x w : Z) : Z :=
  Z.lor (Z.lor (Z.lor (Z.shiftl z 6) (Z.shiftl y 4)) (Z.shiftl x 2)) w.
Definition mm256_permute4x64_epi64 (a : m256) (imm : Z) : m256 :=
  let w i := lane a (Z.land (Z.shiftr imm (2 * i)) 3) in mk256 (w 0) (w 1) (w 2) (w 3).
(** [_mm256_shuffle_epi32]: the 32-bit words of each half of the vector are
    chosen by [imm]; [base] is the first word of the half. *)
Definition shuffle_word (a : m256) (base c0 c1 : Z) : Z :=
  if (Z.even c0) && (c1 =? c0 + 1) then lane a (base + c0 / 2)
  else
    let part c := if Z.even c then Z.land (lane a (base + c / 2)) (2 ^ 32 - 1)
                  else Z.shiftr (lane a (base + c / 2)) 32 in
    Z.lor (part c0) (Z.shiftl (part c1) 32).
Definition mm256_shuffle_epi32 (a : m256) (imm : Z) : m256 :=
  let c i := Z.land (Z.shiftr imm (2 * i)) 3 in
  mk256 (shuffle_word a 0 (c 0) (c 1)) (shuffle_word a 0 (c 2) (c 3))
        (shuffle_word a 2 (c 0) (c 1)) (shuffle_word a 2 (c 2) (c 3)).

Definition simd_add : m256 -> m256 -> m256 := map2 (wrapping_add 64).
Definition simd_xor : m256 -> m256 -> m256 := map2 Z.lxor.
Definition mm256_or_si256 : m256 -> m256 -> m256 := map2 Z.lor.
Definition mm256_srli_epi64 (x : m256) (n : Z) : m256 := map1 (fun w => Z.shiftr w n) x.
Definition mm256_slli_epi64 (x : m256) (n : Z) : m256 := map1 (fun w => wrap 64 (Z.shiftl w n)) x.
Definition rot32 (x : m256) : m256 := mm256_or_si256 (mm256_srli_epi64 x 32) (mm256_slli_epi64 x (64 - 32)).
Definition rot24 (x : m256) : m256 := mm256_or_si256 (mm256_srli_epi64 x 24) (mm256_slli_epi64 x (64 - 24)).
Definition rot16 (x : m256) : m256 := mm256_or_si256 (mm256_srli_epi64 x 16) (mm256_slli_epi64 x (64 - 16)).
Definition rot63 (x : m256) : m256 := mm256_or_si256 (mm256_srli_epi64 x 63) (mm256_slli_epi64 x (64 - 63)).

(** The four rows [a], [b], [c], [d] of the state. *)
Abbreviation rows := (m256 * m256 * m256 * m256)%type.

Definition simd_g1 (s : rows) (m : m256) : rows :=
  let '(a, b, c, d) := s in
  let a := simd_add a m in
  let a := simd_add a b in
  let d := rot32 (simd_xor d a) in
  let c := simd_add c d in
  let b := rot24 (simd_xor b c) in
  (a, b, c, d).
Definition simd_g2 (s : rows) (m : m256) : rows :=
  let '(a, b, c, d) := s in
  let a := simd_add a m in
  let a := simd_add a b in
  let d := rot16 (simd_xor d a) in
  let c := simd_add c d in
  let b := rot63 (simd_xor b c) in
  (a, b, c, d).
Definition diagonalize (s : rows) : rows :=
  let '(a, b, c, d) := s in
  (mm256_permute4x64_epi64 a (MM_SHUFFLE 2 1 0 3), b, mm256_permute4x64_epi64 c (MM_SHUFFLE 0 3 2 1),
   mm256_permute4x64_epi64 d (MM_SHUFFLE 1 0 3 2)).
Definition undiagonalize (s : rows) : rows :=
  let '(a, b, c, d) := s in
  (mm256_permute4x64_epi64 a (MM_SHUFFLE 0 3 2 1), b, mm256_permute4x64_epi64 c (MM_SHUFFLE 2 1 0 3),
   mm256_permute4x64_epi64 d (MM_SHUFFLE 1 0 3 2)).

(** * The version with AVX2 *)

(** [_mm256_broadcastsi128_si256(loadu_128(chunk))] of the [i]-th pair of words
    of the block. *)
Definition load_pair (block : list Z) (i : nat) : m256 :=
  mk256 (word block (2 * i)) (word block (2 * i + 1)) (word block (2 * i)) (word block (2 * i + 1)).

(** The four message vectors that the [r]-th round of the unrolled loop
    gathers: [t0] and [t1] blended with mask [0xF0]. *)
Definition gather (r : nat) (block : list Z) : m256 * m256 * m256 * m256 :=
  let m0 := load_pair block 0 in let m1 := load_pair block 1 in
  let m2 := load_pair block 2 in let m3 := load_pair block 3 in
  let m4 := load_pair block 4 in let m5 := load_pair block 5 in
  let m6 := load_pair block 6 in let m7 := load_pair block 7 in
  let lo := mm256_unpacklo_epi64 in let hi := mm256_unpackhi_epi64 in
  let al := mm256_alignr_epi8_8 in let bl a b := mm256_blend_epi32 a b 0x33 in
  let sh a := mm256_shuffle_epi32 a (MM_SHUFFLE 1 0 3 2) in
  let b0 t0 t1 := mm256_blend_epi32 t0 t1 0xF0 in
  match r with
  | 0 => (b0 (lo m0 m1) (lo m2 m3), b0 (hi m0 m1) (hi m2 m3),
          b0 (lo m7 m4) (lo m5 m6), b0 (hi m7 m4) (hi m5 m6))
  | 1 => (b0 (lo m7 m2) (hi m4 m6), b0 (lo m5 m4) (al m3 m7),
          b0 (hi m2 m0) (bl m5 m0), b0 (al m6 m1) (bl m3 m1))
  | 2 => (b0 (al m6 m5) (hi m2 m7), b0 (lo m4 m0) (bl m6 m1),
          b0 (al m5 m4) (hi m1 m3), b0 (lo m2 m7) (bl m0 m3))
  | 3 => (b0 (hi m3 m1) (hi m6 m5), b0 (hi m4 m0) (lo m6 m7),
          b0 (al m1 m7) (sh m2), b0 (lo m4 m3) (lo m5 m0))
  | 4 => (b0 (hi m4 m2) (lo m1 m5), b0 (bl m3 m0) (bl m7 m2),
          b0 (al m7 m1) (al m3 m5), b0 (hi m6 m0) (lo m6 m4))
  | 5 => (b0 (lo m1 m3) (lo m0 m4), b0 (lo m6 m5) (hi m5 m1),
          b0 (al m2 m0) (hi m3 m7), b0 (hi m4 m6) (al m7 m2))
  | 6 => (b0 (bl m0 m6) (lo m7 m2), b0 (hi m2 m7) (al m5 m6),
          b0 (lo m4 m0) (bl m4 m3), b0 (hi m5 m3) (sh m1))
  | 7 => (b0 (hi m6 m3) (bl m1 m6), b0 (al m7 m5) (hi m0 m4),
          b0 (bl m2 m1) (al m4 m7), b0 (lo m5 m0) (lo m2 m3))
  | 8 => (b0 (lo m3 m7) (al m0 m5), b0 (hi m7 m4) (al m4 m1),
          b0 (lo m5 m6) (hi m6 m0), b0 (al m1 m2) (al m2 m3))
  | _ => (b0 (lo m5 m4) (hi m3 m0), b0 (lo m1 m2) (bl m2 m3),
          b0 (hi m6 m7) (hi m4 m1), b0 (bl m5 m0) (lo m7 m6))
  end%nat.

(** One round of the unrolled loop. *)
Definition simd_round (r : nat) (block : list Z) (s : rows) : rows :=
  let '(x1, x2, x3, x4) := gather r block in
  let s := simd_g2 (simd_g1 s x1) x2 in
  let s := diagonalize s in
  let s := simd_g2 (simd_g1 s x3) x4 in
  undiagonalize s.

(** The loop: [pos] is the place in the unrolled body of ten rounds, each of
    which starts with [if rounds == 0 { break; } rounds -= 1]. *)
Fixpoint simd_rounds (rounds pos : nat) (block : list Z) (s : rows) : rows :=
  match rounds with
  | O => s
  | S rounds => simd_rounds rounds ((pos + 1) mod 10) block (simd_round pos block s)
  end.

Definition loadu (ws : list Z) (i : nat) : m256 :=
  mk256 (word ws i) (word ws (i + 1)) (word ws (i + 2)) (word ws (i + 3)).
Definition storeu (a : m256) : list Z := [l0 a; l1 a; l2 a; l3 a].
Definition count_low (count : Z) : Z := wrap 64 count.
Definition count_high (count : Z) : Z := wrap 64 (Z.shiftr count 64).

Definition compress_block (rounds : nat) (block words : list Z) (count last_block last_node : Z) : list Z :=
  let a := loadu words 0 in
  let b := loadu words 4 in
  let c := loadu IV 0 in
  let flags := mk256 (count_low count) (count_high count) last_block last_node in
  let d := simd_xor (loadu IV 4) flags in
  let iv0 := a in
  let iv1 := b in
  let '(a, b, c, d) := simd_rounds rounds 0 block (a, b, c, d) in
  let a := simd_xor a c in
  let b := simd_xor b d in
  let a := simd_xor a iv0 in
  let b := simd_xor b iv1 in
  storeu a ++ storeu b.

(** The branch of [compress] taken when AVX2 is available. *)
Definition compress_avx2 (rounds : nat) (h m : list Z) (t : Z * Z) (f : bool) : list Z :=
  compress_block rounds m h (Z.lor (Z.shiftl t.2 64) t.1) (if f then modulus 64 - 1 else 0) 0.

(** * The two versions agree *)

Lemma wrapping_add_swap w x y z :
  wrapping_add w (wrapping_add w x y) z = wrapping_add w (wrapping_add w x z) y.
Proof. unfold wrapping_add, wrap. rewrite !Zplus_mod_idemp_l. f_equal. lia. Qed.

(** [mix] on each of the four columns. *)
Definition columns (f : Z * Z * Z * Z -> Z) (a b c d x y : m256) : m256 :=
  mk256 (f (mix (l0 a) (l0 b) (l0 c) (l0 d) (l0 x) (l0 y))) (f (mix (l1 a) (l1 b) (l1 c) (l1 d) (l1 x) (l1 y)))
        (f (mix (l2 a) (l2 b) (l2 c) (l2 d) (l2 x) (l2 y))) (f (mix (l3 a) (l3 b) (l3 c) (l3 d) (l3 x) (l3 y))).
Definition mix_columns (s : rows) (x y : m256) : rows :=
  let '(a, b, c, d) := s in
  (columns (fun p => p.1.1.1) a b c d x y, columns (fun p => p.1.1.2) a b c d x y,
   columns (fun p => p.1.2) a b c d x y, columns (fun p => p.2) a b c d x y).

(** Half of [mix], as a lane of [simd_g1] and [simd_g2] computes it. *)
Definition half_mix (r1 r2 va vb vc vd x : Z) : Z * Z * Z * Z :=
  let va := wrapping_add 64 (wrapping_add 64 va x) vb in
  let vd := rotate_right (Z.lxor vd va) r1 in
  let vc := wrapping_add 64 vc vd in
  let vb := rotate_right (Z.lxor vb vc) r2 in
  (va, vb, vc, vd).

Lemma half_mix_mix va vb vc vd x y :
  mix va vb vc vd x y =
  let '(va, vb, vc, vd) := half_mix 32 24 va vb vc vd x in half_mix 16 63 va vb vc vd y.
Proof. unfold mix, half_mix. cbv zeta. rewrite (wrapping_add_swap 64 va vb x). by rewrite wrapping_add_swap. Qed.

Definition half_columns (r1 r2 : Z) (s : rows) (x : m256) : rows :=
  let '(a, b, c, d) := s in
  let h i := half_mix r1 r2 (lane a i) (lane b i) (lane c i) (lane d i) (lane x i) in
  let row f := mk256 (f (h 0)) (f (h 1)) (f (h 2)) (f (h 3)) in
  (row (fun p => p.1.1.1), row (fun p => p.1.1.2), row (fun p => p.1.2), row (fun p => p.2)).

(** Computes the vector operations away and leaves the word operations. *)
Ltac lanes :=
  cbv [simd_g1 simd_g2 half_columns half_mix simd_add simd_xor rot32 rot24 rot16 rot63 mm256_or_si256
    mm256_srli_epi64 mm256_slli_epi64 map1 map2 lane l0 l1 l2 l3 rotate_right Z.eqb Pos.eqb fst snd].

Lemma simd_g1_columns s x : simd_g1 s x = half_columns 32 24 s x.
Proof. destruct s as [[[[] []] []] []], x. lanes. reflexivity. Qed.
Lemma simd_g2_columns s x : simd_g2 s x = half_columns 16 63 s x.
Proof. destruct s as [[[[] []] []] []], x. lanes. reflexivity. Qed.

Lemma simd_mix s x y : simd_g2 (simd_g1 s x) y = mix_columns s x y.
Proof.
  rewrite simd_g1_columns, simd_g2_columns. destruct s as [[[a b] c] d].
  unfold mix_columns, columns. rewrite !half_mix_mix. reflexivity.
Qed.

(** * Rounds *)

Definition flat (s : rows) : list Z :=
  let '(a, b, c, d) := s in storeu a ++ storeu b ++ storeu c ++ storeu d.

Lemma simd_round_columns r block s :
  simd_round r block s = let '(x1, x2, x3, x4) := gather r block in
    undiagonalize (mix_columns (diagonalize (mix_columns s x1 x2)) x3 x4).
Proof. unfold simd_round. destruct (gather r block) as [[[x1 x2] x3] x4]. by rewrite !simd_mix. Qed.

(** A round on the rows is a round on the array. *)
Lemma simd_round_flat r block s :
  (r < 10)%nat -> length block = 16%nat -> flat (simd_round r block s) = round (flat s) block r.
Proof.
  intros Hr Hb. do 16 (destruct block as [|? block]; [done|]). destruct block; [|done].
  rewrite simd_round_columns. destruct s as [[[[] []] []] []].
  do 10 (destruct r as [|r]; [cbv -[mix]; reflexivity|]). lia.
Qed.

Lemma round_mod v m r : round v m (r mod 10) = round v m r.
Proof. unfold round. by rewrite Nat.Div0.mod_mod. Qed.

Lemma simd_rounds_flat n start pos block s :
  length block = 16%nat -> pos = (start mod 10)%nat ->
  flat (simd_rounds n pos block s) = rounds_from (flat s) block start n.
Proof.
  intros Hb. revert start pos s. induction n as [|n IH]; intros start pos s Hp; [reflexivity|].
  cbn [simd_rounds rounds_from]. rewrite (IH (S start)).
  - rewrite simd_round_flat; [|rewrite Hp; apply Nat.mod_upper_bound; lia|exact Hb].
    by rewrite Hp, round_mod.
  - rewrite Hp, Nat.Div0.add_mod_idemp_l. f_equal. lia.
Qed.

Lemma count_parts t0 t1 : u64 t0 -> u64 t1 ->
  count_low (Z.lor (Z.shiftl t1 64) t0) = t0 /\ count_high (Z.lor (Z.shiftl t1 64) t0) = t1.
Proof.
  intros [? Hlt0] [? Hlt1]. unfold modulus in *.
  assert (Z.land (Z.shiftl t1 64) t0 = 0) as Hl.
  { rewrite <- (Z.mod_small t0 (2 ^ 64)), <- Z.land_ones by lia. apply Z.bits_inj'. intros n Hn.
    rewrite !Z.land_spec, Z.bits_0. destruct (Z.ltb_spec n 64).
    - by rewrite Z.shiftl_spec_low.
    - by rewrite Z.ones_spec_high, !andb_false_r by lia. }
  pose proof (Z.add_lor_land (Z.shiftl t1 64) t0) as Ha. rewrite Hl, Z.add_0_r, Z.shiftl_mul_pow2 in Ha by lia.
  rewrite Z.shiftl_mul_pow2, Ha by lia. unfold count_low, count_high, wrap, modulus.
  rewrite Z.shiftr_div_pow2, Z.add_comm, Z_mod_plus_full, Z_div_plus_full, (Z.div_small t0) by lia.
  split; apply Z.mod_small; lia.
Qed.

(** C31: the AVX2 version of the BLAKE2 compression function computes what the
    portable version computes, for every number of rounds, state, message
    block, offset counter and final-block flag: the gathered message vectors
    are the permutations of [SIGMA], the rotations of the rows line up the
    diagonals, and the lanes do the arithmetic of [g]. *)
Theorem blake2_avx2_correct rounds h m t f :
  length h = 8%nat -> length m = 16%nat -> u64 t.1 -> u64 t.2 ->
  compress_avx2 rounds h m t f = compress rounds h m t f.
Proof.
  intros Hh Hm Ht0 Ht1. destruct t as [t0 t1]. cbn [fst snd] in *.
  do 8 (destruct h as [|? h]; [done|]). destruct h; [|done].
  unfold compress_avx2, compress, compress_block. cbn [fst snd].
  destruct (count_parts t0 t1 Ht0 Ht1) as [-> ->].
  set (s0 := (loadu _ 0, _, _, _)). set (v0 := if f then _ else _).
  assert (flat s0 = v0) as Hflat by (unfold s0, v0; destruct f; reflexivity).
  pose proof (simd_rounds_flat rounds 0 0 m s0 Hm eq_refl) as Hr. rewrite Hflat in Hr. rewrite <- Hr.
  clear. destruct (simd_rounds rounds 0 m s0) as [[[[] []] []] []].
  cbv -[Z.lxor]. rewrite !(Z.lxor_comm (Z.lxor _ _)). reflexivity.
Qed.

(** Test vector 5 of EIP-152 (the hash of "abc"), on both versions. *)
Module Abc.
Definition h : list Z :=
  [0x6a09e667f2bdc948; 0xbb67ae8584caa73b; 0x3c6ef372fe94f82b; 0xa54ff53a5f1d36f1;
   0x510e527fade682d1; 0x9b05688c2b3e6c1f; 0x1f83d9abfb41bd6b; 0x5be0cd19137e2179].
Definition m : list Z := 0x636261 :: replicate 15 0.

Lemma blake2_avx2_correct_witness :
  compress_avx2 12 h m (3, 0) true = compress 12 h m (3, 0) true /\
  compress 12 h m (3, 0) true =
    [0x0d4d1c983fa580ba; 0xe9f6129fb697276a; 0xb7c45a68142f214c; 0xd1a2ffdb6fbb124b;
     0x2d79ab2a39c5877d; 0x95cc3345ded552c2; 0x5a92f1dba88ad318; 0x239900d4ed8623b9].
Proof.
  split; [apply (blake2_avx2_correct 12 h m (3, 0) true); [reflexivity|reflexivity|done|done]|].
  vm_compute. reflexivity.
Defined.
End Abc.
