(* ===== verification/Bytecode.v ===== *)
(** The bytecode of [crates/bytecode/src]: the jump table, the legacy
    analysis, EIP-7702 delegation designators and the [Bytecode] enum.

    Raw pointers into the code become indices ([nat]).  The bit vector of the
    [bitvec] crate is a parameter: a class [BitVec] with the one conversion the
    code uses ([into_vec]) and a class [BitVecLaws] with its documented [Lsb0]
    layout. *)
From S2P Require Import Prelude.
From stdpp Require Import base numbers list option tactics.
From Stdlib Require Import ZArith Lia.

Local Open Scope Z_scope.

(** * Jump tables ([legacy/jump_map.rs]) *)

(** [BitVec<u8, Lsb0>::into_vec]: the bytes that store the bits. *)
Class BitVec := into_vec : list bool -> list Z.

Class BitVecLaws `{BitVec} : Prop := {
  into_vec_len (bits : list bool) :
    (length bits <= 8 * length (into_vec bits))%nat;
  into_vec_bit (bits : list bool) (i : nat) :
    (i < length bits)%nat ->
    Z.testbit (nth (i / 8) (into_vec bits) 0) (Z.of_nat (i mod 8)) = nth i bits false }.

(** [table_ptr] caches the address of [table], so it is not a field of its own. *)
Record JumpTable := mkJumpTable { jt_len : nat; jt_table : list Z }.

(** [None] is the panic of the [assert!]. *)
Definition JumpTable_from_bytes (bytes : list Z) (bit_len : nat) : option JumpTable :=
  if (bit_len <=? length bytes * 8)%nat then Some (mkJumpTable bit_len bytes) else None.

Definition JumpTable_is_valid (self : JumpTable) (pc : nat) : bool :=
  (pc <? jt_len self)%nat &&
  negb (Z.land (nth (Nat.shiftr pc 3) (jt_table self) 0)
               (Z.shiftl 1 (Z.of_nat (Nat.land pc 7))) =? 0).

Section JumpTableNew.
Context `{BitVec}.

Definition JumpTable_new (jumps : list bool) : option JumpTable :=
  let bit_len := length jumps in
  JumpTable_from_bytes (into_vec jumps) bit_len.

Definition JumpTable_default : option JumpTable := JumpTable_new [].
End JumpTableNew.

(** * Legacy analysis ([legacy/analysis.rs]) *)

Definition STOP : Z := 0x00.
Definition JUMPDEST : Z := 0x5B.
Definition PUSH1 : Z := 0x60.

(** One turn of the [while iterator < end] loop per unit of fuel: the mutable
    locals [iterator], [opcode] and [jumps] are the arguments. *)
Fixpoint analyze_loop (fuel : nat) (bytecode : list Z) (iterator : nat)
    (opcode : Z) (jumps : list bool) : nat * Z * list bool :=
  match fuel with
  | O => (iterator, opcode, jumps)
  | S fuel =>
      if (iterator <? length bytecode)%nat then
        let opcode := nth iterator bytecode 0 in
        if opcode =? JUMPDEST then
          analyze_loop fuel bytecode (iterator + 1) opcode (<[iterator := true]> jumps)
        else
          let push_offset := wrapping_sub 8 opcode PUSH1 in
          if push_offset <? 32 then
            analyze_loop fuel bytecode (iterator + (Z.to_nat push_offset + 2)) opcode jumps
          else
            analyze_loop fuel bytecode (iterator + 1) opcode jumps
      else (iterator, opcode, jumps)
  end.

Section Analysis.
Context `{BitVec}.

(** [None] is the panic of [JumpTable::new]. *)
Definition analyze_legacy (bytecode : list Z) : option (JumpTable * list Z) :=
  if decide (bytecode = []) then
    let? jt := JumpTable_default in Some (jt, [STOP])
  else
    let '(iterator, opcode, jumps) :=
      analyze_loop (length bytecode) bytecode 0 0 (replicate (length bytecode) false) in
    let padding :=
      (iterator - length bytecode + (if negb (opcode =? STOP)%Z then 1 else 0))%nat in
    let bytecode := if (0 <? padding)%nat then bytecode ++ replicate padding 0 else bytecode in
    let? jt := JumpTable_new jumps in Some (jt, bytecode).
End Analysis.

(** * Analyzed legacy bytecode ([legacy/analyzed.rs], [legacy/raw.rs]) *)

Record LegacyAnalyzedBytecode := mkLegacyAnalyzedBytecode {
  lab_bytecode : list Z; lab_original_len : nat; lab_jump_table : JumpTable }.

(** The three [assert!]s of the constructor. *)
Definition LegacyAnalyzedBytecode_new (bytecode : list Z) (original_len : nat)
    (jump_table : JumpTable) : option LegacyAnalyzedBytecode :=
  if (original_len <=? length bytecode)%nat
     && (original_len <=? jt_len jump_table)%nat
     && bool_decide (bytecode <> [])
  then Some (mkLegacyAnalyzedBytecode bytecode original_len jump_table)
  else None.

Definition LegacyAnalyzedBytecode_original_bytes (self : LegacyAnalyzedBytecode) : list Z :=
  take (lab_original_len self) (lab_bytecode self).

Section Analyze.
Context `{BitVec}.

Definition LegacyAnalyzedBytecode_default : option LegacyAnalyzedBytecode :=
  let? jt := JumpTable_default in Some (mkLegacyAnalyzedBytecode [0] 0 jt).

Definition LegacyAnalyzedBytecode_analyze (bytecode : list Z) : option LegacyAnalyzedBytecode :=
  let original_len := length bytecode in
  let? (jump_table, padded_bytecode) := analyze_legacy bytecode in
  LegacyAnalyzedBytecode_new padded_bytecode original_len jump_table.
End Analyze.

(** * EIP-7702 bytecode ([eip7702.rs]) *)

Definition EIP7702_MAGIC_BYTES : list Z := [0xEF; 0x01].
Definition EIP7702_VERSION : Z := 0.

Record Eip7702Bytecode := mkEip7702Bytecode {
  delegated_address : Z; eip7702_version : Z; eip7702_raw : list Z }.

Inductive Eip7702DecodeError : Type := InvalidLength | InvalidMagic | UnsupportedVersion.

Definition Eip7702Bytecode_new_raw (raw : list Z) : result Eip7702Bytecode Eip7702DecodeError :=
  if negb (length raw =? 23)%nat then Err InvalidLength
  else if negb (bool_decide (take 2 raw = EIP7702_MAGIC_BYTES)) then Err InvalidMagic
  else if negb (nth 2 raw 0 =? EIP7702_VERSION) then Err UnsupportedVersion
  else Ok {| delegated_address := from_be_bytes (drop 3 raw);
             eip7702_version := nth 2 raw 0;
             eip7702_raw := raw |}.

Definition Eip7702Bytecode_new (address : Z) : Eip7702Bytecode :=
  let raw := EIP7702_MAGIC_BYTES in
  let raw := raw ++ [EIP7702_VERSION] in
  let raw := raw ++ be_bytes 20 address in
  {| delegated_address := address; eip7702_version := EIP7702_VERSION; eip7702_raw := raw |}.

(** * The bytecode enum ([bytecode.rs]) *)

Inductive Bytecode : Type :=
| Eip7702 (code : Eip7702Bytecode)
| LegacyAnalyzed (analyzed : LegacyAnalyzedBytecode).

Definition KECCAK_EMPTY : Z :=
  0xc5d2460186f7233c927e7db2dcc703c0e500b653ca82273b7bfad8045d85a470.

Definition Bytecode_bytecode (self : Bytecode) : list Z :=
  match self with
  | LegacyAnalyzed analyzed => lab_bytecode analyzed
  | Eip7702 code => eip7702_raw code
  end.

Definition Bytecode_original_bytes (self : Bytecode) : list Z :=
  match self with
  | LegacyAnalyzed analyzed => LegacyAnalyzedBytecode_original_bytes analyzed
  | Eip7702 code => eip7702_raw code
  end.

Definition Bytecode_len (self : Bytecode) : nat := length (Bytecode_original_bytes self).
Definition Bytecode_is_empty (self : Bytecode) : bool := (Bytecode_len self =? 0)%nat.
Definition Bytecode_is_eip7702 (self : Bytecode) : bool :=
  match self with Eip7702 _ => true | _ => false end.
Definition Bytecode_legacy_jump_table (self : Bytecode) : option JumpTable :=
  match self with LegacyAnalyzed analyzed => Some (lab_jump_table analyzed) | _ => None end.
Definition Bytecode_new_eip7702 (address : Z) : Bytecode := Eip7702 (Eip7702Bytecode_new address).

Definition Bytecode_hash_slow `{Keccak} (self : Bytecode) : Z :=
  if Bytecode_is_empty self then KECCAK_EMPTY else keccak256 (Bytecode_original_bytes self).

Section BytecodeNew.
Context `{BitVec}.

(** [Bytecode::new], which is also [Bytecode::default]. *)
Definition Bytecode_new : option Bytecode :=
  let? b := LegacyAnalyzedBytecode_default in Some (LegacyAnalyzed b).

(** The value of [Bytecode::default()]; [Bytecode_new_default] proves that the
    constructor does not panic and returns it. *)
Definition Bytecode_default : Bytecode :=
  LegacyAnalyzed (mkLegacyAnalyzedBytecode [0] 0 (mkJumpTable 0 (into_vec []))).

Lemma Bytecode_new_default : Bytecode_new = Some Bytecode_default.
Proof. done. Qed.

Definition Bytecode_new_legacy (raw : list Z) : option Bytecode :=
  let? b := LegacyAnalyzedBytecode_analyze raw in Some (LegacyAnalyzed b).

Definition Bytecode_new_raw_checked (bytes : list Z)
    : option (result Bytecode Eip7702DecodeError) :=
  if (2 <=? length bytes)%nat && bool_decide (take 2 bytes = EIP7702_MAGIC_BYTES) then
    match Eip7702Bytecode_new_raw bytes with
    | Ok eip7702 => Some (Ok (Eip7702 eip7702))
    | Err e => Some (Err e)
    end
  else
    let? b := Bytecode_new_legacy bytes in Some (Ok b).

(** [None] is the panic of [expect], on a malformed designator. *)
Definition Bytecode_new_raw (bytecode : list Z) : option Bytecode :=
  match Bytecode_new_raw_checked bytecode with
  | Some (Ok b) => Some b
  | _ => None
  end.
End BytecodeNew.

(** * Reference semantics of a code

    The size of an instruction with its immediate bytes, and the positions an
    execution reaches from [i] by skipping whole instructions. *)

Definition op_size (op : Z) : nat :=
  if (0x60 <=? op) && (op <=? 0x7f) then Z.to_nat (op - 0x60) + 2 else 1.

Inductive reach (code : list Z) : nat -> nat -> Prop :=
| reach_refl i : reach code i i
| reach_step i op k :
    code !! i = Some op -> reach code (i + op_size op) k -> reach code i k.

Definition instr_start (code : list Z) (k : nat) : Prop := reach code 0 k.

(** [pc] is a jump destination: a [JUMPDEST] that is not an immediate byte. *)
Definition is_jumpdest (code : list Z) (pc : nat) : Prop :=
  instr_start code pc /\ code !! pc = Some JUMPDEST.

(** * Lemmas of the analysis *)

Lemma op_size_pos op : (1 <= op_size op <= 33)%nat.
Proof. unfold op_size. case_if; boolify; lia. Qed.

Lemma reach_le code i k : reach code i k -> (i <= k)%nat.
Proof. induction 1 as [|i op k Hop Hr IH]; [done|]. pose proof (op_size_pos op). lia. Qed.

Lemma reach_inv code i k op :
  code !! i = Some op -> reach code i k -> k = i \/ reach code (i + op_size op) k.
Proof. intros Hop Hr. inversion Hr; simplify_eq; auto. Qed.

(** The step the loop takes is the size of the instruction it reads. *)
Lemma analyze_step_size op :
  u8 op ->
  op_size op =
    if op =? JUMPDEST then 1%nat
    else if wrapping_sub 8 op PUSH1 <? 32 then (Z.to_nat (wrapping_sub 8 op PUSH1) + 2)%nat
    else 1%nat.
Proof.
  intros [? ?]. unfold op_size, wrapping_sub, wrap, modulus, JUMPDEST, PUSH1 in *.
  change (2 ^ 8) with 256 in *.
  destruct (decide (0x60 <= op)).
  - rewrite (Z.mod_small (op - 0x60)) by lia.
    case_if; boolify; try lia; exfalso; lia.
  - replace ((op - 0x60) mod 256) with (op - 0x60 + 256)
      by (apply (Z.mod_unique _ _ (-1)); lia).
    case_if; boolify; lia.
Qed.

Lemma analyze_loop_S fuel code it op jumps b :
  u8 b -> code !! it = Some b ->
  analyze_loop (S fuel) code it op jumps =
  analyze_loop fuel code (it + op_size b) b
    (if b =? JUMPDEST then <[it := true]> jumps else jumps).
Proof.
  intros Hb Hit. pose proof (lookup_lt_Some _ _ _ Hit) as Hlt.
  cbn [analyze_loop]. rewrite (proj2 (Nat.ltb_lt it (length code)) Hlt).
  rewrite (nth_lookup_Some _ _ _ _ Hit), (analyze_step_size b) by done.
  case_if; done.
Qed.

Lemma analyze_loop_done fuel code it op jumps :
  (length code <= it)%nat -> analyze_loop fuel code it op jumps = (it, op, jumps).
Proof. intros Hge. apply Nat.ltb_ge in Hge. destruct fuel; cbn [analyze_loop]; [done|]. by rewrite Hge. Qed.

(** Induction over the turns of the loop. *)
Lemma analyze_loop_ind (P : nat -> Z -> list bool -> nat * Z * list bool -> Prop) code :
  Forall u8 code ->
  (forall it op jumps, (length code <= it)%nat -> P it op jumps (it, op, jumps)) ->
  (forall it op jumps b r, code !! it = Some b ->
     P (it + op_size b)%nat b (if b =? JUMPDEST then <[it := true]> jumps else jumps) r ->
     P it op jumps r) ->
  forall fuel it op jumps, (length code - it <= fuel)%nat ->
  P it op jumps (analyze_loop fuel code it op jumps).
Proof.
  intros Hu8 Hdone Hstep fuel. induction fuel as [|fuel IH]; intros it op jumps Hf.
  - apply Hdone. lia.
  - destruct (decide (length code <= it)%nat) as [Hge|Hlt].
    + rewrite analyze_loop_done by done. by apply Hdone.
    + destruct (lookup_lt_is_Some_2 code it) as [b Hb]; [lia|].
      pose proof (proj1 (Forall_lookup _ _) Hu8 _ _ Hb) as Hbu.
      rewrite (analyze_loop_S _ _ _ _ _ b) by done.
      apply (Hstep _ _ _ b); [done|]. apply IH. pose proof (op_size_pos b). lia.
Qed.

Lemma analyze_loop_jumps code fuel it op jumps :
  Forall u8 code -> (length code - it <= fuel)%nat -> length jumps = length code ->
  forall k, (k < length code)%nat ->
  (analyze_loop fuel code it op jumps).2 !! k = Some true <->
  jumps !! k = Some true \/ (reach code it k /\ code !! k = Some JUMPDEST).
Proof.
  intros Hu8 Hf.
  apply (analyze_loop_ind (fun it _ jumps r => length jumps = length code ->
    forall k, (k < length code)%nat -> r.2 !! k = Some true <->
    jumps !! k = Some true \/ (reach code it k /\ code !! k = Some JUMPDEST))); auto.
  - intros it' o js Hge _ k Hk. simpl. split; [by left|].
    intros [?|[Hr _]]; [done|]. apply reach_le in Hr. lia.
  - intros it' o js b r Hb IH Hjs k Hk. rewrite IH; [|case_if; by rewrite ?length_insert|done].
    assert (reach code it' k <-> k = it' \/ reach code (it' + op_size b) k) as Hreach.
    { split; [by apply reach_inv|]. intros [->|?]; [constructor|by econstructor]. }
    rewrite Hreach. destruct (b =? JUMPDEST) eqn:E; boolify.
    + destruct (decide (k = it')) as [->|Hne].
      * rewrite list_lookup_insert_eq by lia. subst b. naive_solver.
      * rewrite list_lookup_insert_ne by done. naive_solver.
    + split; [naive_solver|]. intros [?|[[->|?] ?]]; naive_solver.
Qed.

Lemma analyze_loop_length code fuel it op jumps :
  length (analyze_loop fuel code it op jumps).2 = length jumps.
Proof.
  revert it op jumps. induction fuel as [|fuel IH]; intros; cbn [analyze_loop]; [done|].
  case_if; rewrite ?IH, ?length_insert; done.
Qed.

(** The loop stops past the end of the code, and the instruction it stops
    after is the one every other instruction precedes. *)
Lemma analyze_loop_end code fuel it op jumps :
  Forall u8 code -> (length code - it <= fuel)%nat ->
  let '(it', op', _) := analyze_loop fuel code it op jumps in
  (length code <= it')%nat /\
  forall i b, reach code it i -> code !! i = Some b ->
    (i + op_size b < length code)%nat \/ (i + op_size b = it')%nat /\ b = op'.
Proof.
  intros Hu8 Hf.
  enough (let '(it', op', _) := analyze_loop fuel code it op jumps in
    (length code <= it')%nat /\ ((length code <= it)%nat -> it' = it /\ op' = op) /\
    forall i b, reach code it i -> code !! i = Some b ->
      (i + op_size b < length code)%nat \/ (i + op_size b = it')%nat /\ b = op')
    by (destruct (analyze_loop _ _ _ _ _) as [[??]?]; naive_solver).
  apply (analyze_loop_ind (fun it op _ r => let '(it', op', _) := r in
    (length code <= it')%nat /\ ((length code <= it)%nat -> it' = it /\ op' = op) /\
    forall i b, reach code it i -> code !! i = Some b ->
      (i + op_size b < length code)%nat \/ (i + op_size b = it')%nat /\ b = op')); auto.
  - intros it' op' js Hge. split_and!; [done..|]. intros i b Hr Hb.
    apply reach_le in Hr. apply lookup_lt_Some in Hb. lia.
  - intros it' op' js0 b [[it'' op''] js] Hb (Hge & Hsame & IH). split_and!; [done| |].
    { apply lookup_lt_Some in Hb. lia. }
    intros i b' Hr Hb'. destruct (reach_inv _ _ _ _ Hb Hr) as [->|Hr']; [|by apply IH].
    assert (b' = b) as -> by congruence.
    destruct (decide (it' + op_size b < length code)%nat); [by left|right].
    destruct Hsame as [-> ->]; [lia|done].
Qed.

(** The loop stops just after an instruction that starts inside the code. *)
Lemma analyze_loop_last code fuel it op jumps :
  Forall u8 code -> (length code - it <= fuel)%nat -> (it < length code)%nat ->
  let '(it', op', _) := analyze_loop fuel code it op jumps in
  exists i, code !! i = Some op' /\ (i + op_size op' = it')%nat.
Proof.
  intros Hu8 Hf.
  enough (let '(it', op', _) := analyze_loop fuel code it op jumps in
    ((length code <= it)%nat -> it' = it /\ op' = op) /\
    ((it < length code)%nat -> exists i, code !! i = Some op' /\ (i + op_size op' = it')%nat))
    by (destruct (analyze_loop _ _ _ _ _) as [[??]?]; naive_solver).
  apply (analyze_loop_ind (fun it op _ r => let '(it', op', _) := r in
    ((length code <= it)%nat -> it' = it /\ op' = op) /\
    ((it < length code)%nat -> exists i, code !! i = Some op' /\ (i + op_size op' = it')%nat)));
    auto; [naive_solver lia|].
  intros it' op' js b [[it'' op''] js'] Hb [Hsame IH]. pose proof (lookup_lt_Some _ _ _ Hb).
  split; [lia|]. intros _.
  destruct (decide (it' + op_size b < length code)%nat) as [Hlt|Hge]; [by apply IH|].
  destruct Hsame as [-> ->]; [lia|]. by exists it'.
Qed.

(** * Jump tables hold the bits they were made from *)

Lemma land_shiftl_one_nonzero x k :
  0 <= k -> negb (Z.land x (Z.shiftl 1 k) =? 0) = Z.testbit x k.
Proof.
  intros Hk. rewrite Z.shiftl_1_l, land_pow2 by done.
  pose proof (Z.pow_pos_nonneg 2 k). destruct (Z.testbit x k); [|done].
  apply negb_true_iff, Z.eqb_neq. lia.
Qed.

Lemma JumpTable_new_is_valid `{BitVecLaws} bits jt pc :
  JumpTable_new bits = Some jt ->
  jt_len jt = length bits /\ (JumpTable_is_valid jt pc = true <-> bits !! pc = Some true).
Proof.
  unfold JumpTable_new, JumpTable_from_bytes. case_if; [|done]. intros [= <-].
  split; [done|]. unfold JumpTable_is_valid; cbn [jt_len jt_table].
  rewrite land_shiftl_one_nonzero, Nat.shiftr_div_pow2 by lia.
  change 7%nat with (Nat.ones 3). rewrite Nat.land_ones. change (2 ^ 3)%nat with 8%nat.
  rewrite andb_true_iff, Nat.ltb_lt. split.
  - intros [Hlt Hbit]. rewrite into_vec_bit in Hbit by done.
    destruct (bits !! pc) as [b|] eqn:E.
    + by rewrite (nth_lookup_Some _ _ _ _ E) in Hbit; subst.
    + apply lookup_ge_None in E. lia.
  - intros E. pose proof (lookup_lt_Some _ _ _ E). split; [done|].
    rewrite into_vec_bit by done. by apply nth_lookup_Some.
Qed.

Lemma JumpTable_new_total `{BitVecLaws} bits : is_Some (JumpTable_new bits).
Proof.
  unfold JumpTable_new, JumpTable_from_bytes. pose proof (into_vec_len bits).
  destruct (Nat.leb_spec (length bits) (length (into_vec bits) * 8)); [done|lia].
Qed.

(** What the analysis of a nonempty code returns, in terms of its loop. *)
Lemma analyze_legacy_inv `{BitVecLaws} code :
  code <> [] -> Forall u8 code ->
  exists jt it op jumps, analyze_loop (length code) code 0 0 (replicate (length code) false) =
    (it, op, jumps) /\ JumpTable_new jumps = Some jt /\ (length code <= it)%nat /\ 
  analyze_legacy code =
    Some (jt, code ++ replicate (it - length code + (if op =? STOP then 0 else 1)) 0).
Proof.
  intros Hne Hu8. unfold analyze_legacy. rewrite decide_False by done.
  pose proof (analyze_loop_end code (length code) 0 0 (replicate (length code) false) Hu8) as Hend.
  destruct (analyze_loop _ _ _ _ _) as [[it op] jumps].
  destruct (JumpTable_new_total jumps) as [jt Hjt]. destruct Hend as [Hge _]; [lia|].
  exists jt, it, op, jumps. rewrite Hjt. split_and!; [done..|]. do 2 f_equal.
  destruct (op =? STOP); cbn [negb]; (case_match eqn:Hpad; [done|]); apply Nat.ltb_ge in Hpad.
  - replace (it - length code + 0)%nat with 0%nat by lia. by rewrite app_nil_r.
  - lia.
Qed.

(** * The theorems of the analysis *)

Section AnalysisCorrect.
Context `{BitVecLaws}.

Lemma analyze_legacy_jump_table_aux code jt padded pc :
  Forall u8 code -> analyze_legacy code = Some (jt, padded) ->
  JumpTable_is_valid jt pc = true <-> is_jumpdest code pc.
Proof.
  intros Hu8 Han. destruct (decide (code = [])) as [->|Hne].
  - unfold analyze_legacy, JumpTable_default in Han. rewrite decide_True in Han by done.
    destruct (JumpTable_new []) as [jt'|] eqn:E; simplify_eq.
    rewrite (proj2 (JumpTable_new_is_valid _ _ pc E)). split; [done|by intros [_ ?]].
  - destruct (analyze_legacy_inv code Hne Hu8) as (jt' & it & op & jumps & Hloop & Hjt & _ & Heq).
    rewrite Heq in Han. simplify_eq. rewrite (proj2 (JumpTable_new_is_valid _ _ pc Hjt)).
    pose proof (analyze_loop_jumps code (length code) 0 0 (replicate (length code) false)
      Hu8 ltac:(lia) (length_replicate _ _) pc) as Hj.
    pose proof (analyze_loop_length code (length code) 0 0 (replicate (length code) false)) as Hl.
    rewrite Hloop in Hj, Hl. cbn [snd] in Hj, Hl. rewrite length_replicate in Hl.
    unfold is_jumpdest, instr_start. split.
    + intros E. pose proof (lookup_lt_Some _ _ _ E).
      apply Hj in E as [E|E]; [|done|lia]. apply lookup_replicate in E as [? _]. done.
    + intros [Hr E]. apply Hj; [by apply lookup_lt_Some in E|]. by right.
Qed.

(** C19: the jump table of the analysis accepts exactly the jump destinations
    of the code: the [JUMPDEST] bytes at an instruction boundary. *)
Theorem analyze_legacy_jump_table code jt padded pc :
  Forall u8 code -> analyze_legacy code = Some (jt, padded) ->
  JumpTable_is_valid jt pc = true <-> is_jumpdest code pc.
Proof. apply analyze_legacy_jump_table_aux. Qed.

(** The padding [analyze_legacy] appends, and how far it reaches. *)
Lemma analyze_legacy_padding_aux code jt padded :
  Forall u8 code -> analyze_legacy code = Some (jt, padded) ->
  (exists n, (n <= 33)%nat /\ padded = code ++ replicate n 0) /\
  forall i op, instr_start code i -> code !! i = Some op -> op <> STOP ->
    (i + op_size op < length padded)%nat.
Proof.
  intros Hu8 Han. destruct (decide (code = [])) as [->|Hne].
  - unfold analyze_legacy, JumpTable_default in Han. rewrite decide_True in Han by done.
    destruct (JumpTable_new []); simplify_eq. split; [|done]. exists 1%nat. split; [lia|done].
  - destruct (analyze_legacy_inv code Hne Hu8) as (jt' & it & op & jumps & Hloop & _ & Hge & Heq).
    rewrite Heq in Han. simplify_eq.
    pose proof (analyze_loop_end code (length code) 0 0 (replicate (length code) false) Hu8) as Hend.
    rewrite Hloop in Hend. destruct Hend as [_ Hend]; [lia|]. split.
    + eexists. split; [|reflexivity].
      pose proof (analyze_loop_last code (length code) 0 0 (replicate (length code) false) Hu8)
        as Hlast.
      rewrite Hloop in Hlast. destruct Hlast as (i & Hi & Hit); [lia|by destruct code; [|simpl; lia]|].
      pose proof (op_size_pos op). pose proof (op_size_pos STOP). apply lookup_lt_Some in Hi.
      destruct (Z.eqb_spec op STOP); lia.
    + intros i b Hr Hb Hstop. rewrite length_app, length_replicate.
      destruct (Hend i b Hr Hb) as [?|[? ->]]; [lia|].
      destruct (Z.eqb_spec op STOP); [done|lia].
Qed.
(** The analyzed code is the original one followed by at most 33 zero
    bytes, and from every instruction of the original code other than a
    [STOP] the next instruction is inside the padded code: the interpreter's
    unchecked reads of opcodes and immediates stay in bounds. *)
Theorem analyze_legacy_padding code jt padded :
  Forall u8 code -> analyze_legacy code = Some (jt, padded) ->
  (exists n, (n <= 33)%nat /\ padded = code ++ replicate n 0) /\
  forall i op, instr_start code i -> code !! i = Some op -> op <> STOP ->
    (i + op_size op < length padded)%nat.
Proof. apply analyze_legacy_padding_aux. Qed.
End AnalysisCorrect.

(** * Round trips *)

Section RoundTrip.
Context `{BitVecLaws}.

Lemma analyze_legacy_total code : Forall u8 code -> is_Some (analyze_legacy code).
Proof.
  intros Hu8. destruct (decide (code = [])) as [->|Hne].
  - unfold analyze_legacy, JumpTable_default. rewrite decide_True by done.
    by destruct (JumpTable_new_total []) as [jt ->].
  - by destruct (analyze_legacy_inv code Hne Hu8) as (jt & it & op & jumps & _ & _ & _ & ->).
Qed.

Lemma analyze_legacy_jt_len code jt padded :
  Forall u8 code -> analyze_legacy code = Some (jt, padded) -> jt_len jt = length code.
Proof.
  intros Hu8 Han. destruct (decide (code = [])) as [->|Hne].
  - unfold analyze_legacy, JumpTable_default in Han. rewrite decide_True in Han by done.
    destruct (JumpTable_new []) as [jt'|] eqn:E; simplify_eq.
    by destruct (JumpTable_new_is_valid _ _ 0 E).
  - destruct (analyze_legacy_inv code Hne Hu8) as (jt' & it & op & jumps & Hloop & Hjt & _ & Heq).
    rewrite Heq in Han. simplify_eq.
    pose proof (analyze_loop_length code (length code) 0 0 (replicate (length code) false)) as Hl.
    rewrite Hloop, length_replicate in Hl. cbn [snd] in Hl.
    destruct (JumpTable_new_is_valid _ _ 0 Hjt) as [? _]. lia.
Qed.

(** Analyzing a byte string never panics, and the analyzed bytecode gives
    the original bytes back. *)
Theorem Bytecode_new_legacy_original_bytes raw :
  Forall u8 raw ->
  exists b, Bytecode_new_legacy raw = Some b /\ Bytecode_original_bytes b = raw
    /\ Bytecode_len b = length raw.
Proof.
  intros Hu8. unfold Bytecode_new_legacy, LegacyAnalyzedBytecode_analyze, LegacyAnalyzedBytecode_new.
  destruct (analyze_legacy_total raw Hu8) as [[jt padded] Han]. rewrite Han.
  destruct (analyze_legacy_padding_aux _ _ _ Hu8 Han) as [(n & _ & Hpad) _].
  pose proof (analyze_legacy_jt_len _ _ _ Hu8 Han) as Hjt.
  assert (padded <> []) as Hne.
  { intros ->. destruct raw; [|done]. unfold analyze_legacy in Han.
    rewrite decide_True in Han by done. destruct JumpTable_default; simplify_eq. }
  rewrite (proj2 (Nat.leb_le (length raw) (length padded)))
    by (rewrite Hpad, length_app; lia).
  rewrite (proj2 (Nat.leb_le _ _)) by lia. rewrite bool_decide_true by done. cbn [andb].
  eexists. split; [done|].
  unfold Bytecode_len; cbn. rewrite Hpad, take_app_length. done.
Qed.
End RoundTrip.

(** Decoding the raw bytes of a delegation designator gives the designator
    back, so an account delegated to [address] is read as delegated to
    [address]. *)
Theorem Eip7702Bytecode_roundtrip address :
  in_range 160 address ->
  Eip7702Bytecode_new_raw (eip7702_raw (Eip7702Bytecode_new address)) =
  Ok (Eip7702Bytecode_new address).
Proof.
  intros Ha. unfold Eip7702Bytecode_new, Eip7702Bytecode_new_raw; cbn [eip7702_raw].
  rewrite !length_app, length_be_bytes. cbn -[be_bytes from_be_bytes].
  rewrite drop_0, from_be_bytes_be_bytes, Z.mod_small by done. done.
Qed.

(** * A concrete bit vector

    The [Lsb0] layout, eight bits to a byte: it satisfies the laws the
    analysis assumes of the [bitvec] crate. *)

Definition byte_of_bits (bits : list bool) : Z :=
  let b i := Z.b2z (nth i bits false) in
  b 0%nat + 2 * (b 1%nat + 2 * (b 2%nat + 2 * (b 3%nat + 2 * (b 4%nat + 2 * (b 5%nat
    + 2 * (b 6%nat + 2 * b 7%nat)))))).

Definition lsb0_into_vec (bits : list bool) : list Z :=
  map (fun j => byte_of_bits (drop (8 * j) bits)) (seq 0 ((length bits + 7) / 8)).

Lemma byte_of_bits_testbit bits k :
  (k < 8)%nat -> Z.testbit (byte_of_bits bits) (Z.of_nat k) = nth k bits false.
Proof.
  intros Hk. unfold byte_of_bits.
  do 8 (destruct k as [|k]; [by repeat (destruct (nth _ bits false))|]). lia.
Qed.

#[export] Instance Lsb0BitVec : BitVec := lsb0_into_vec.
#[export] Instance Lsb0BitVecLaws : @BitVecLaws Lsb0BitVec.
Proof.
  split.
  - intros bits. unfold into_vec, Lsb0BitVec, lsb0_into_vec. rewrite length_map, length_seq.
    pose proof (Nat.div_mod_eq (length bits + 7) 8).
    pose proof (Nat.mod_upper_bound (length bits + 7) 8). lia.
  - intros bits i Hi. unfold into_vec, Lsb0BitVec, lsb0_into_vec.
    pose proof (Nat.div_mod_eq i 8). pose proof (Nat.mod_upper_bound i 8).
    assert (i / 8 < (length bits + 7) / 8)%nat as Hlt.
    { apply Nat.Div0.div_lt_upper_bound.
      pose proof (Nat.div_mod_eq (length bits + 7) 8).
      pose proof (Nat.mod_upper_bound (length bits + 7) 8). lia. }
    rewrite (nth_indep _ 0 (byte_of_bits (drop (8 * 0) bits))) by (rewrite length_map, length_seq; lia).
    rewrite (map_nth (fun j => byte_of_bits (drop (8 * j) bits))), seq_nth by done.
    rewrite byte_of_bits_testbit by lia. rewrite nth_skipn. f_equal. lia.
Qed.

(** The sample code of the analysis tests: [PUSH2 JUMPDEST 0x02 JUMPDEST]. *)
Definition sample_code : list Z := [0x61; 0x5B; 0x02; 0x5B].

Lemma sample_code_u8 : Forall u8 sample_code.
Proof. by apply (bool_decide_unpack _); vm_compute. Defined.

Lemma analyze_legacy_jump_table_witness :
  exists jt padded, analyze_legacy sample_code = Some (jt, padded) /\
    (JumpTable_is_valid jt 3 = true <-> is_jumpdest sample_code 3) /\
    JumpTable_is_valid jt 1 = false.
Proof.
  eexists _, _. split; [reflexivity|]. split; [|reflexivity].
  eapply analyze_legacy_jump_table; [apply sample_code_u8|reflexivity].
Defined.

Lemma analyze_legacy_padding_witness :
  exists jt padded, analyze_legacy sample_code = Some (jt, padded) /\
  (exists n, (n <= 33)%nat /\ padded = sample_code ++ replicate n 0) /\
  forall i op, instr_start sample_code i -> sample_code !! i = Some op -> op <> STOP ->
    (i + op_size op < length padded)%nat.
Proof.
  eexists _, _. split; [reflexivity|].
  eapply analyze_legacy_padding; [apply sample_code_u8|reflexivity].
Defined.

Lemma Bytecode_new_legacy_original_bytes_witness :
  exists b, Bytecode_new_legacy sample_code = Some b /\ Bytecode_original_bytes b = sample_code
    /\ Bytecode_len b = length sample_code.
Proof. apply Bytecode_new_legacy_original_bytes, sample_code_u8. Defined.

Lemma Eip7702Bytecode_roundtrip_witness :
  Eip7702Bytecode_new_raw (eip7702_raw (Eip7702Bytecode_new 0x1234)) =
  Ok (Eip7702Bytecode_new 0x1234).
Proof. apply Eip7702Bytecode_roundtrip. split; vm_compute; congruence. Defined.
