(* ===== verification/State.v ===== *)
(** Accounts and storage slots of [crates/state/src]: [AccountInfo]
    ([account_info.rs]), [AccountStatus], [Account] and [EvmStorageSlot]
    ([lib.rs]).

    Balances are 256-bit, nonces 64-bit; transaction ids are [usize] counters,
    here [nat].  [AccountStatus] is the [u8] of the [bitflags!] block with its
    insertion, removal and containment test. *)
From S2P Require Import Prelude Hardfork Bytecode.
From stdpp Require Import base numbers list option tactics gmap.
From Stdlib Require Import ZArith Lia.

Local Open Scope Z_scope.

(** * Account info *)

Record AccountInfo := mkAccountInfo {
  balance : Z; nonce : Z; code_hash : Z; storage_id : option nat; code : option Bytecode }.

Definition AccountInfo_default `{BitVec} : AccountInfo :=
  {| balance := 0; code_hash := KECCAK_EMPTY; storage_id := None;
     code := Some Bytecode_default; nonce := 0 |}.

(** [PartialEq for AccountInfo] ignores the cached code and the storage id. *)
Definition AccountInfo_eq (self other : AccountInfo) : bool :=
  (balance self =? balance other) && (nonce self =? nonce other)
  && (code_hash self =? code_hash other).

Definition AccountInfo_new (bal non hash : Z) (c : Bytecode) : AccountInfo :=
  {| balance := bal; nonce := non; code := Some c; code_hash := hash; storage_id := None |}.

Definition AccountInfo_set_balance (bal : Z) (self : AccountInfo) : AccountInfo :=
  mkAccountInfo bal (nonce self) (code_hash self) (storage_id self) (code self).
Definition AccountInfo_set_nonce (non : Z) (self : AccountInfo) : AccountInfo :=
  mkAccountInfo (balance self) non (code_hash self) (storage_id self) (code self).
Definition AccountInfo_set_code_hash (hash : Z) (self : AccountInfo) : AccountInfo :=
  mkAccountInfo (balance self) (nonce self) hash (storage_id self) None.
Definition AccountInfo_set_code `{Keccak} (c : Bytecode) (self : AccountInfo) : AccountInfo :=
  mkAccountInfo (balance self) (nonce self) (Bytecode_hash_slow c) (storage_id self) (Some c).
Definition AccountInfo_set_code_and_hash (c : Bytecode) (hash : Z) (self : AccountInfo) : AccountInfo :=
  mkAccountInfo (balance self) (nonce self) hash (storage_id self) (Some c).
Definition AccountInfo_copy_without_code (self : AccountInfo) : AccountInfo :=
  mkAccountInfo (balance self) (nonce self) (code_hash self) (storage_id self) None.
(** The direct assignment [info.code = c]. *)
Definition assign_code (c : option Bytecode) (self : AccountInfo) : AccountInfo :=
  mkAccountInfo (balance self) (nonce self) (code_hash self) (storage_id self) c.

Definition AccountInfo_is_empty_code_hash (self : AccountInfo) : bool :=
  code_hash self =? KECCAK_EMPTY.
Definition AccountInfo_is_empty (self : AccountInfo) : bool :=
  let code_empty := AccountInfo_is_empty_code_hash self || (code_hash self =? 0) in
  code_empty && (balance self =? 0) && (nonce self =? 0).
Definition AccountInfo_exists (self : AccountInfo) : bool := negb (AccountInfo_is_empty self).
Definition AccountInfo_has_no_code_and_nonce (self : AccountInfo) : bool :=
  AccountInfo_is_empty_code_hash self && (nonce self =? 0).
Definition AccountInfo_take_bytecode (self : AccountInfo) : option Bytecode * AccountInfo :=
  (code self, assign_code None self).

(** * Account status flags *)

Abbreviation AccountStatus := Z (only parsing).

Definition Created : AccountStatus := 0x01.
Definition SelfDestructed : AccountStatus := 0x02.
Definition Touched : AccountStatus := 0x04.
Definition LoadedAsNotExisting : AccountStatus := 0x08.
Definition Cold : AccountStatus := 0x10.
Definition SelfDestructedLocal : AccountStatus := 0x40.
Definition CreatedLocal : AccountStatus := 0x80.

Definition status_contains (s f : AccountStatus) : bool := Z.land s f =? f.
(** [|=] and [-=] of [bitflags]. *)
Definition status_insert (s f : AccountStatus) : AccountStatus := Z.lor s f.
Definition status_remove (s f : AccountStatus) : AccountStatus := Z.ldiff s f.
Definition status_empty : AccountStatus := 0.

(** * Storage slots *)

Record EvmStorageSlot := mkEvmStorageSlot {
  original_value : Z; present_value : Z; slot_transaction_id : nat; is_cold : bool }.

Definition EvmStorageSlot_new (original : Z) (transaction_id : nat) : EvmStorageSlot :=
  mkEvmStorageSlot original original transaction_id false.
Definition EvmStorageSlot_new_changed (original present : Z) (transaction_id : nat) : EvmStorageSlot :=
  mkEvmStorageSlot original present transaction_id false.
Definition EvmStorageSlot_is_changed (self : EvmStorageSlot) : bool :=
  negb (original_value self =? present_value self).
Definition EvmStorageSlot_mark_cold (self : EvmStorageSlot) : EvmStorageSlot :=
  mkEvmStorageSlot (original_value self) (present_value self) (slot_transaction_id self) true.
Definition EvmStorageSlot_is_cold_transaction_id (self : EvmStorageSlot) (transaction_id : nat) : bool :=
  negb (slot_transaction_id self =? transaction_id)%nat || is_cold self.
Definition EvmStorageSlot_mark_warm_with_transaction_id (self : EvmStorageSlot)
    (transaction_id : nat) : EvmStorageSlot * bool :=
  let cold := EvmStorageSlot_is_cold_transaction_id self transaction_id in
  let original := if cold then present_value self else original_value self in
  (mkEvmStorageSlot original (present_value self) transaction_id false, cold).
(** The assignment [slot.present_value = v]. *)
Definition assign_present_value (v : Z) (self : EvmStorageSlot) : EvmStorageSlot :=
  mkEvmStorageSlot (original_value self) v (slot_transaction_id self) (is_cold self).

(** * Accounts *)

Record Account := mkAccount {
  info : AccountInfo; original_info : AccountInfo; acc_transaction_id : nat;
  storage : gmap Z EvmStorageSlot; status : AccountStatus }.

(** The assignments to a field of an account. *)
Definition assign_info (i : AccountInfo) (self : Account) : Account :=
  mkAccount i (original_info self) (acc_transaction_id self) (storage self) (status self).
Definition assign_original_info (i : AccountInfo) (self : Account) : Account :=
  mkAccount (info self) i (acc_transaction_id self) (storage self) (status self).
Definition assign_storage (s : gmap Z EvmStorageSlot) (self : Account) : Account :=
  mkAccount (info self) (original_info self) (acc_transaction_id self) s (status self).
Definition assign_status (s : AccountStatus) (self : Account) : Account :=
  mkAccount (info self) (original_info self) (acc_transaction_id self) (storage self) s.
Definition assign_balance (v : Z) (self : Account) : Account :=
  assign_info (AccountInfo_set_balance v (info self)) self.
Definition assign_nonce (v : Z) (self : Account) : Account :=
  assign_info (AccountInfo_set_nonce v (info self)) self.

Definition Account_new_not_existing `{BitVec} (transaction_id : nat) : Account :=
  mkAccount AccountInfo_default AccountInfo_default transaction_id ∅ LoadedAsNotExisting.

(** [impl From<AccountInfo> for Account]. *)
Definition Account_from (i : AccountInfo) : Account := mkAccount i i 0 ∅ status_empty.

Definition Account_mark_selfdestruct (self : Account) : Account :=
  assign_status (status_insert (status self) SelfDestructed) self.
Definition Account_unmark_selfdestruct (self : Account) : Account :=
  assign_status (status_remove (status self) SelfDestructed) self.
Definition Account_is_selfdestructed (self : Account) : bool :=
  status_contains (status self) SelfDestructed.
Definition Account_mark_touch (self : Account) : Account :=
  assign_status (status_insert (status self) Touched) self.
Definition Account_unmark_touch (self : Account) : Account :=
  assign_status (status_remove (status self) Touched) self.
Definition Account_is_touched (self : Account) : bool := status_contains (status self) Touched.
Definition Account_mark_created (self : Account) : Account :=
  assign_status (status_insert (status self) Created) self.
Definition Account_unmark_created (self : Account) : Account :=
  assign_status (status_remove (status self) Created) self.
Definition Account_mark_cold (self : Account) : Account :=
  assign_status (status_insert (status self) Cold) self.
Definition Account_is_cold_transaction_id (self : Account) (transaction_id : nat) : bool :=
  negb (acc_transaction_id self =? transaction_id)%nat || status_contains (status self) Cold.
Definition Account_mark_warm_with_transaction_id (self : Account) (transaction_id : nat)
    : Account * bool :=
  let cold := Account_is_cold_transaction_id self transaction_id in
  (mkAccount (info self) (original_info self) transaction_id (storage self)
     (status_remove (status self) Cold), cold).
Definition Account_is_created_locally (self : Account) : bool :=
  status_contains (status self) CreatedLocal.
Definition Account_is_selfdestructed_locally (self : Account) : bool :=
  status_contains (status self) SelfDestructedLocal.
Definition Account_selfdestruct `{BitVec} (self : Account) : Account :=
  assign_info AccountInfo_default (assign_storage ∅ self).
Definition Account_mark_created_locally (self : Account) : Account * bool :=
  let s := status_insert (status self) CreatedLocal in
  let is_created_globaly := negb (status_contains s Created) in
  (assign_status (status_insert s Created) self, is_created_globaly).
Definition Account_unmark_created_locally (self : Account) : Account :=
  assign_status (status_remove (status self) CreatedLocal) self.
Definition Account_mark_selfdestructed_locally (self : Account) : Account * bool :=
  let s := status_insert (status self) SelfDestructedLocal in
  let is_global_selfdestructed := negb (status_contains s SelfDestructed) in
  (assign_status (status_insert s SelfDestructed) self, is_global_selfdestructed).
Definition Account_unmark_selfdestructed_locally (self : Account) : Account :=
  assign_status (status_remove (status self) SelfDestructedLocal) self.
Definition Account_is_loaded_as_not_existing (self : Account) : bool :=
  status_contains (status self) LoadedAsNotExisting.
Definition Account_is_loaded_as_not_existing_not_touched (self : Account) : bool :=
  Account_is_loaded_as_not_existing self && negb (Account_is_touched self).
Definition Account_is_created (self : Account) : bool := status_contains (status self) Created.
Definition Account_is_empty (self : Account) : bool := AccountInfo_is_empty (info self).
Definition Account_changed_storage_slots (self : Account) : gmap Z EvmStorageSlot :=
  filter (fun '(_, slot) => EvmStorageSlot_is_changed slot = true) (storage self).

Definition Account_state_clear_aware_is_empty (self : Account) (spec : SpecId) : bool :=
  if SpecId_is_enabled_in spec SPURIOUS_DRAGON then Account_is_empty self
  else Account_is_loaded_as_not_existing_not_touched self.

Definition Account_caller_initial_modification (self : Account) (new_balance : Z) (is_call : bool)
    : Account * Z :=
  let self := Account_mark_touch self in
  let self := if is_call then assign_nonce (saturating_add 64 (nonce (info self)) 1) self else self in
  (assign_balance new_balance self, balance (info self)).

(** * Flags

    The seven flags are distinct single bits, so inserting or removing one
    leaves the others as they are. *)

Definition is_flag (f : AccountStatus) : Prop := exists k, 0 <= k /\ f = 2 ^ k.

Lemma flag_Created : is_flag Created. Proof. by exists 0. Qed.
Lemma flag_SelfDestructed : is_flag SelfDestructed. Proof. by exists 1. Qed.
Lemma flag_Touched : is_flag Touched. Proof. by exists 2. Qed.
Lemma flag_LoadedAsNotExisting : is_flag LoadedAsNotExisting. Proof. by exists 3. Qed.
Lemma flag_Cold : is_flag Cold. Proof. by exists 4. Qed.
Lemma flag_SelfDestructedLocal : is_flag SelfDestructedLocal. Proof. by exists 6. Qed.
Lemma flag_CreatedLocal : is_flag CreatedLocal. Proof. by exists 7. Qed.

Create HintDb flags.
#[export] Hint Resolve flag_Created flag_SelfDestructed flag_Touched
  flag_LoadedAsNotExisting flag_Cold flag_SelfDestructedLocal flag_CreatedLocal : flags.

Lemma status_contains_bit s k : 0 <= k -> status_contains s (2 ^ k) = Z.testbit s k.
Proof.
  intros. unfold status_contains. rewrite land_pow2 by done.
  pose proof (Z.pow_pos_nonneg 2 k). destruct (Z.testbit s k); lia.
Qed.

Lemma pow2_eqb j k : 0 <= j -> 0 <= k -> (2 ^ j =? 2 ^ k) = (j =? k).
Proof.
  intros. destruct (Z.eqb_spec j k) as [->|Hne]; [lia|].
  apply Z.eqb_neq. intros E. apply Hne. by apply (Z.pow_inj_r 2) in E.
Qed.

Lemma status_contains_insert s f g :
  is_flag f -> is_flag g ->
  status_contains (status_insert s f) g = (f =? g) || status_contains s g.
Proof.
  intros (j & ? & ->) (k & ? & ->). rewrite !status_contains_bit, pow2_eqb by done.
  unfold status_insert. rewrite Z.lor_spec, Z.pow2_bits_eqb by done. apply orb_comm.
Qed.

Lemma status_contains_remove s f g :
  is_flag f -> is_flag g ->
  status_contains (status_remove s f) g = negb (f =? g) && status_contains s g.
Proof.
  intros (j & ? & ->) (k & ? & ->). rewrite !status_contains_bit, pow2_eqb by done.
  unfold status_remove. rewrite Z.ldiff_spec, Z.pow2_bits_eqb by done. apply andb_comm.
Qed.

Lemma status_contains_empty f : is_flag f -> status_contains status_empty f = false.
Proof. intros (k & ? & ->). by rewrite status_contains_bit, Z.bits_0. Qed.

Lemma status_contains_LoadedAsNotExisting f :
  is_flag f -> status_contains LoadedAsNotExisting f = (LoadedAsNotExisting =? f).
Proof.
  intros Hf. change LoadedAsNotExisting with (status_insert status_empty LoadedAsNotExisting) at 1.
  rewrite status_contains_insert, status_contains_empty by auto with flags. apply orb_false_r.
Qed.

Ltac flag_const f :=
  match f with
  | Created => idtac | SelfDestructed => idtac | Touched => idtac | LoadedAsNotExisting => idtac
  | Cold => idtac | SelfDestructedLocal => idtac | CreatedLocal => idtac
  end.

(** Normalizes the containment tests of a goal to tests on variables. *)
Ltac status_simpl :=
  unfold Account_is_selfdestructed, Account_is_touched, Account_is_created_locally,
    Account_is_selfdestructed_locally, Account_is_created, Account_is_loaded_as_not_existing,
    Account_mark_selfdestruct, Account_unmark_selfdestruct, Account_mark_touch,
    Account_unmark_touch, Account_mark_created, Account_unmark_created, Account_mark_cold,
    Account_unmark_created_locally, Account_unmark_selfdestructed_locally in *;
  cbn [assign_status assign_info assign_original_info assign_storage assign_balance assign_nonce
    info original_info acc_transaction_id storage status fst snd
    AccountInfo_set_balance AccountInfo_set_nonce AccountInfo_set_code_and_hash assign_code
    balance nonce code_hash storage_id code] in *;
  repeat first
    [ rewrite status_contains_insert by auto with flags
    | rewrite status_contains_remove by auto with flags
    | rewrite status_contains_empty by auto with flags
    | rewrite status_contains_LoadedAsNotExisting by auto with flags ];
  repeat match goal with
  | |- context [?f =? ?g] =>
      flag_const f; flag_const g;
      let b := eval vm_compute in (f =? g) in change (f =? g) with b
  end;
  cbn [negb andb orb].

(** Marking an account touched and unmarking it gives the flags back when it
    was not touched: the other six flags are untouched by the pair. *)
Lemma Account_unmark_mark_touch a f :
  is_flag f -> Account_is_touched a = false ->
  status_contains (status (Account_unmark_touch (Account_mark_touch a))) f
  = status_contains (status a) f.
Proof.
  intros Hf Ht. unfold Account_is_touched in Ht. status_simpl.
  destruct (Z.eqb_spec Touched f) as [<-|]; [by rewrite Ht|done].
Qed.

(** A slot warmed in a transaction is warm in it, keeps its value, and starts
    the transaction with the present value as its original value. *)
Lemma mark_warm_not_cold slot tx :
  let slot' := (EvmStorageSlot_mark_warm_with_transaction_id slot tx).1 in
  EvmStorageSlot_is_cold_transaction_id slot' tx = false /\
  present_value slot' = present_value slot /\
  (EvmStorageSlot_is_cold_transaction_id slot tx = true -> EvmStorageSlot_is_changed slot' = false).
Proof.
  unfold EvmStorageSlot_mark_warm_with_transaction_id, EvmStorageSlot_is_changed.
  cbn [fst present_value original_value]. unfold EvmStorageSlot_is_cold_transaction_id at 1.
  cbn. rewrite Nat.eqb_refl. split_and!; [done..|].
  intros ->. by rewrite Z.eqb_refl.
Qed.
