(* ===== verification/Database.v ===== *)
(** The database interface of [crates/database/interface/src]: the [Database]
    trait as a type class, the laws a caller relies on as a second class, and
    the [EmptyDB] implementation.

    The trait's methods take [&mut self], so every operation returns the
    database it leaves behind.  [DatabaseLaws] says what a read-only backend
    promises: its answers do not depend on the reads made before, and the
    accounts it holds are well formed. *)
From S2P Require Import Prelude Hardfork Bytecode State.
From stdpp Require Import base numbers list option tactics gmap.
From Stdlib Require Import ZArith Lia.

Local Open Scope Z_scope.

Class Database (DB E : Type) := {
  db_basic : DB -> Z -> result (option AccountInfo) E * DB;
  db_code_by_hash : DB -> Z -> result Bytecode E * DB;
  db_storage : DB -> Z -> Z -> result Z E * DB;
  db_block_hash : DB -> Z -> result Z E * DB }.

(** [DatabaseCommit]: takes the changes of a transaction; a commit may panic. *)
Class DatabaseCommit (DB : Type) := db_commit : DB -> gmap Z Account -> option DB.

(** Well-formed account data: a 256-bit balance and a 64-bit nonce. *)
Definition info_ok (i : AccountInfo) : Prop := u256 (balance i) /\ u64 (nonce i).

Class DatabaseLaws (DB E : Type) `{Database DB E} : Type := {
  same_db : DB -> DB -> Prop;
  same_db_equiv :: Equivalence same_db;
  db_basic_same d a : same_db (db_basic d a).2 d;
  db_code_same d h : same_db (db_code_by_hash d h).2 d;
  db_storage_same d a k : same_db (db_storage d a k).2 d;
  db_basic_ans d1 d2 a : same_db d1 d2 -> (db_basic d1 a).1 = (db_basic d2 a).1;
  db_storage_ans d1 d2 a k : same_db d1 d2 -> (db_storage d1 a k).1 = (db_storage d2 a k).1;
  db_basic_ok d a i : (db_basic d a).1 = Ok (Some i) -> info_ok i }.

(** * The empty database ([empty_db.rs])

    Reading it never fails ([EmptyDBTyped<Infallible>]) and never changes it.
    [u64_to_string] is [number.to_string().as_bytes()]; a [u64] has at most 20
    decimal digits, so a fuel of 20 prints all of them. *)

Fixpoint decimal_digits (fuel : nat) (n : Z) (acc : list Z) : list Z :=
  match fuel with
  | O => acc
  | S fuel =>
      let acc := 48 + n mod 10 :: acc in
      if n / 10 =? 0 then acc else decimal_digits fuel (n / 10) acc
  end.
Definition u64_to_string (n : Z) : list Z := decimal_digits 20 n [].

Inductive EmptyDB : Type := empty_db.

Section EmptyDB.
Context `{BitVec, Keccak}.

Definition EmptyDB_basic (_ : Z) : option AccountInfo := None.
Definition EmptyDB_code_by_hash (_ : Z) : Bytecode := Bytecode_default.
Definition EmptyDB_storage (_ _ : Z) : Z := 0.
Definition EmptyDB_block_hash (number : Z) : Z := keccak256 (u64_to_string number).

Definition EmptyDB_Database : Database EmptyDB Empty_set := {|
  db_basic d a := (Ok (EmptyDB_basic a), d);
  db_code_by_hash d h := (Ok (EmptyDB_code_by_hash h), d);
  db_storage d a k := (Ok (EmptyDB_storage a k), d);
  db_block_hash d n := (Ok (EmptyDB_block_hash n), d) |}.

(** The empty database keeps the promises of the interface. *)
#[local] Existing Instance EmptyDB_Database.
Definition EmptyDB_Laws : DatabaseLaws EmptyDB Empty_set.
Proof. refine {| same_db := eq |}; intros; by simplify_eq/=. Defined.
End EmptyDB.
