(* ===== verification/WarmAddresses.v ===== *)
(** The warm addresses of [crates/context/src/journal/warm_addresses.rs] and
    [short_address] of [crates/primitives/src/lib.rs].

    The short-address bit vector is a cache of the precompile set.  The file
    states what the cache must hold ([warm_ok]), that every operation keeps it,
    and that [WarmAddresses_is_warm], which reads the cache, decides the
    specification [warm_spec], which does not mention it. *)
From S2P Require Import Prelude.
From stdpp Require Import base numbers list option tactics gmap.
From Stdlib Require Import ZArith Lia.

Local Open Scope Z_scope.

Definition SHORT_ADDRESS_CAP : nat := 300.

Definition short_address (address : Z) : option nat :=
  let bytes := be_bytes 20 address in
  if forallb (fun b => b =? 0) (take 18 bytes) then
    let short_address := Z.to_nat (from_be_bytes (drop 18 bytes)) in
    if (short_address <? SHORT_ADDRESS_CAP)%nat then Some short_address else None
  else None.

Record WarmAddresses := mkWarmAddresses {
  precompile_set : gset Z;
  precompile_short_addresses : list bool;
  precompile_all_short_addresses : bool;
  coinbase : option Z;
  access_list : gmap Z (gset Z) }.

Definition WarmAddresses_new : WarmAddresses :=
  mkWarmAddresses ∅ (replicate SHORT_ADDRESS_CAP false) true None ∅.

(** One turn of the [for address in addresses.iter()] loop. *)
Definition add_short_address (address : Z) (acc : list bool * bool) : list bool * bool :=
  let '(bits, all_short_addresses) := acc in
  match short_address address with
  | Some short_address => (<[short_address := true]> bits, all_short_addresses)
  | None => (bits, false)
  end.

Definition WarmAddresses_set_precompile_addresses (addresses : gset Z) (self : WarmAddresses)
    : WarmAddresses :=
  let bits := replicate (length (precompile_short_addresses self)) false in
  let '(bits, all_short_addresses) := foldr add_short_address (bits, true) (elements addresses) in
  mkWarmAddresses addresses bits all_short_addresses (coinbase self) (access_list self).

Definition WarmAddresses_set_coinbase (address : Z) (self : WarmAddresses) : WarmAddresses :=
  mkWarmAddresses (precompile_set self) (precompile_short_addresses self)
    (precompile_all_short_addresses self) (Some address) (access_list self).

Definition WarmAddresses_set_access_list (al : gmap Z (gset Z)) (self : WarmAddresses) : WarmAddresses :=
  mkWarmAddresses (precompile_set self) (precompile_short_addresses self)
    (precompile_all_short_addresses self) (coinbase self) al.

Definition WarmAddresses_clear_coinbase (self : WarmAddresses) : WarmAddresses :=
  mkWarmAddresses (precompile_set self) (precompile_short_addresses self)
    (precompile_all_short_addresses self) None (access_list self).

Definition WarmAddresses_clear_coinbase_and_access_list (self : WarmAddresses) : WarmAddresses :=
  mkWarmAddresses (precompile_set self) (precompile_short_addresses self)
    (precompile_all_short_addresses self) None ∅.

(** The index [precompile_short_addresses[short_address]] is in bounds by
    [warm_ok]; out of bounds the code would panic. *)
Definition WarmAddresses_is_warm (self : WarmAddresses) (address : Z) : bool :=
  if bool_decide (Some address = coinbase self) then true
  else if bool_decide (is_Some (access_list self !! address)) then true
  else if bool_decide (precompile_set self = ∅) then false
  else match short_address address with
  | Some short_address => nth short_address (precompile_short_addresses self) false
  | None =>
      if negb (precompile_all_short_addresses self)
      then bool_decide (address ∈ precompile_set self)
      else false
  end.

Definition WarmAddresses_is_storage_warm (self : WarmAddresses) (address key : Z) : bool :=
  match access_list self !! address with
  | Some keys => bool_decide (key ∈ keys)
  | None => false
  end.

Definition WarmAddresses_is_cold (self : WarmAddresses) (address : Z) : bool :=
  negb (WarmAddresses_is_warm self address).

(** * Specification and invariant *)

(** An address is warm when it is the coinbase, in the access list, or a
    precompile. *)
Definition warm_spec (self : WarmAddresses) (address : Z) : Prop :=
  coinbase self = Some address \/ address ∈ dom (access_list self) \/ address ∈ precompile_set self.

(** What the bit cache holds: the short addresses of the precompile set, and
    the flag only when every precompile is short. *)
Record warm_ok (self : WarmAddresses) : Prop := {
  warm_ok_len : length (precompile_short_addresses self) = SHORT_ADDRESS_CAP;
  warm_ok_range : forall a, a ∈ precompile_set self -> in_range 160 a;
  warm_ok_bits : forall a s, in_range 160 a -> short_address a = Some s ->
    (nth s (precompile_short_addresses self) false = true <-> a ∈ precompile_set self);
  warm_ok_all_short : precompile_all_short_addresses self = true ->
    forall a, a ∈ precompile_set self -> is_Some (short_address a) }.

(** * Lemmas *)

Lemma forallb_zero_from_be l : forallb (fun b => b =? 0) l = true -> from_be_bytes l = 0.
Proof.
  unfold from_be_bytes. rewrite forallb_forall. intros Hall.
  assert (Forall (fun b => b = 0) (reverse l)) as H0.
  { apply Forall_reverse, Forall_forall. intros b Hb. apply Z.eqb_eq, Hall.
    by apply list_elem_of_In. }
  induction H0 as [|b r -> _ IH]; cbn [from_le_bytes]; lia.
Qed.

(** The short addresses are the addresses below the cap. *)
Lemma short_address_spec a :
  in_range 160 a -> short_address a = if a <? 300 then Some (Z.to_nat a) else None.
Proof.
  intros Ha. unfold short_address.
  pose proof (from_be_bytes_be_bytes 20 a) as Hrt. rewrite (Z.mod_small a) in Hrt by done.
  pose proof (be_bytes_u8 20 a) as Hu8. pose proof (length_be_bytes 20 a) as Hlen.
  revert Hrt Hu8 Hlen. generalize (be_bytes 20 a). intros bs Hrt Hu8 Hlen.
  rewrite <- (take_drop 18 bs) in Hrt. rewrite from_be_bytes_app, length_drop, Hlen in Hrt.
  change (256 ^ Z.of_nat (20 - 18)) with 65536 in Hrt.
  pose proof (from_be_bytes_range (take 18 bs) ltac:(by apply Forall_take)) as Hhi.
  pose proof (from_be_bytes_range (drop 18 bs) ltac:(by apply Forall_drop)) as Hlo.
  rewrite length_drop, Hlen in Hlo. change (256 ^ Z.of_nat (20 - 18)) with 65536 in Hlo.
  destruct (forallb _ (take 18 bs)) eqn:E.
  - rewrite (forallb_zero_from_be _ E) in Hrt. unfold SHORT_ADDRESS_CAP.
    replace (from_be_bytes (drop 18 bs)) with a by lia.
    destruct (Z.ltb_spec a 300), (Nat.ltb_spec (Z.to_nat a) 300); done || lia.
  - destruct (Z.ltb_spec a 300) as [Hlt|]; [|done]. exfalso.
    assert (from_be_bytes (take 18 bs) = 0) as H0 by lia. apply not_true_iff_false in E. apply E.
    pose proof (be_bytes_from_be_bytes (take 18 bs) ltac:(by apply Forall_take)) as Hb.
    rewrite H0 in Hb. rewrite <- Hb. rewrite length_take, Hlen. reflexivity.
Qed.

Lemma short_address_lt a s : short_address a = Some s -> (s < SHORT_ADDRESS_CAP)%nat.
Proof. unfold short_address. repeat case_match; intros; simplify_eq. by apply Nat.ltb_lt. Qed.

Lemma short_address_inj a b s :
  in_range 160 a -> in_range 160 b -> short_address a = Some s -> short_address b = Some s -> a = b.
Proof.
  intros Ha Hb. rewrite !short_address_spec by done. intros.
  destruct Ha, Hb. repeat case_match; simplify_eq. lia.
Qed.

Section PrecompileLoop.
Variable n : nat.
Hypothesis Hn : n = SHORT_ADDRESS_CAP.

Lemma add_short_addresses_spec l :
  Forall (in_range 160) l ->
  let '(bits, all) := foldr add_short_address (replicate n false, true) l in
  length bits = n /\
  (forall a s, in_range 160 a -> short_address a = Some s ->
     (nth s bits false = true <-> a ∈ l)) /\
  (all = true -> forall a, a ∈ l -> is_Some (short_address a)).
Proof.
  induction 1 as [|b l Hb Hl IH]; cbn [foldr].
  - rewrite length_replicate. split_and!; [done| |set_solver].
    intros a s _ _. rewrite nth_lookup. split; [|set_solver].
    destruct (replicate n false !! s) eqn:E; [|done].
    by apply lookup_replicate in E as [-> _].
  - destruct (foldr _ _ _) as [bits all]. destruct IH as (Hlen & Hbits & Hall).
    unfold add_short_address. destruct (short_address b) as [sb|] eqn:Esb.
    + rewrite length_insert. split_and!; [done| |].
      * intros a s Ha Es. rewrite nth_lookup. destruct (decide (s = sb)) as [->|Hne].
        { rewrite list_lookup_insert_eq by (apply short_address_lt in Esb; lia).
          rewrite (short_address_inj a b sb) by done. set_solver. }
        rewrite list_lookup_insert_ne by done. specialize (Hbits a s Ha Es).
        rewrite nth_lookup in Hbits. rewrite Hbits.
        assert (a <> b) by congruence. set_solver.
      * intros Et a Ha. apply elem_of_cons in Ha as [->|Ha]; eauto.
    + split_and!; [done| |done]. intros a s Ha Es. rewrite (Hbits a s) by done.
      assert (a <> b) by congruence. set_solver.
Qed.
End PrecompileLoop.

(** * The cache is kept and decides the specification *)

Lemma warm_ok_new : warm_ok WarmAddresses_new.
Proof.
  split; unfold WarmAddresses_new;
    cbn [precompile_set precompile_short_addresses precompile_all_short_addresses];
    [by rewrite length_replicate|set_solver| |set_solver].
  intros a s _ _. rewrite nth_lookup. split; [|set_solver].
  destruct (replicate _ false !! s) eqn:E; [|done]. by apply lookup_replicate in E as [-> _].
Qed.

Lemma warm_ok_set_precompile_addresses addresses self :
  warm_ok self -> (forall a, a ∈ addresses -> in_range 160 a) ->
  warm_ok (WarmAddresses_set_precompile_addresses addresses self).
Proof.
  intros Hok Hr. unfold WarmAddresses_set_precompile_addresses.
  pose proof (add_short_addresses_spec (length (precompile_short_addresses self))
    (warm_ok_len _ Hok) (elements addresses)) as Hs.
  destruct (foldr _ _ _) as [bits all]. destruct Hs as (Hlen & Hbits & Hall).
  { apply Forall_forall. intros a Ha. apply Hr. set_solver. }
  split; cbn.
  - by rewrite Hlen, (warm_ok_len _ Hok).
  - done.
  - intros a s Ha Es. rewrite (Hbits a s) by done. set_solver.
  - intros Et a Ha. apply (Hall Et). set_solver.
Qed.

(** The other setters do not touch the cache. *)
Lemma warm_ok_set_coinbase a self : warm_ok self -> warm_ok (WarmAddresses_set_coinbase a self).
Proof. intros []. by split. Qed.
Lemma warm_ok_set_access_list al self : warm_ok self -> warm_ok (WarmAddresses_set_access_list al self).
Proof. intros []. by split. Qed.
Lemma warm_ok_clear self : warm_ok self -> warm_ok (WarmAddresses_clear_coinbase_and_access_list self).
Proof. intros []. by split. Qed.

(** The cached lookup decides the specification: an address is reported
    warm exactly when it is the coinbase, in the access list or a precompile. *)
Theorem WarmAddresses_is_warm_correct self address :
  warm_ok self -> in_range 160 address ->
  WarmAddresses_is_warm self address = true <-> warm_spec self address.
Proof.
  intros Hok Ha. unfold WarmAddresses_is_warm, warm_spec. rewrite elem_of_dom.
  case_bool_decide; [naive_solver|]. case_bool_decide; [naive_solver|].
  case_bool_decide as Hemp.
  { split; [done|]. rewrite Hemp. set_solver. }
  destruct (short_address address) as [s|] eqn:Es.
  - rewrite (warm_ok_bits _ Hok address s) by done. naive_solver.
  - destruct (precompile_all_short_addresses self) eqn:Eall; cbn [negb].
    + split; [done|]. intros [?|[?|Hin]]; [done..|].
      destruct (warm_ok_all_short _ Hok Eall _ Hin); congruence.
    + rewrite bool_decide_eq_true. naive_solver.
Qed.

Lemma WarmAddresses_is_warm_correct_witness :
  let self := WarmAddresses_set_precompile_addresses {[1; 2; 301]} WarmAddresses_new in
  warm_ok self /\ (WarmAddresses_is_warm self 301 = true <-> warm_spec self 301).
Proof.
  assert (warm_ok (WarmAddresses_set_precompile_addresses {[1; 2; 301]} WarmAddresses_new)).
  { apply warm_ok_set_precompile_addresses; [apply warm_ok_new|].
    intros a Ha. assert (a = 1 \/ a = 2 \/ a = 301) as Hc by set_solver.
    unfold in_range, modulus. destruct Hc as [->|[->| ->]]; lia. }
  split; [done|]. apply WarmAddresses_is_warm_correct; [done|].
  unfold in_range, modulus. lia.
Defined.
