(* ===== verification/Precompile.v ===== *)
(** The precompiled contracts of [crates/precompile/src]: the table of
    [lib.rs] with its cache for short addresses, the identifiers of [id.rs],
    the padding of [utilities.rs], and the wrapper of every contract, with its
    gas, the parsing of its input and the encoding of its output.

    The cryptography itself is the trait [Crypto] of [interface.rs], whose
    methods call third-party libraries; here it is the class [Crypto] and the
    theorems hold for any.  Fixed-size arrays are lists, whose length the code's
    types fix. *)
From S2P Require Import Prelude Hardfork WarmAddresses.
From stdpp Require Import base numbers list option tactics gmap strings.
From Stdlib Require Import ZArith Lia.

Local Open Scope Z_scope.

(** * Interface ([interface.rs]) *)

Record PrecompileOutput := mkPrecompileOutput { gas_used : Z; out_bytes : list Z; reverted : bool }.
Definition PrecompileOutput_new (gas : Z) (bytes : list Z) : PrecompileOutput :=
  mkPrecompileOutput gas bytes false.
Definition PrecompileOutput_new_reverted (gas : Z) (bytes : list Z) : PrecompileOutput :=
  mkPrecompileOutput gas bytes true.
Definition PrecompileOutput_reverted (self : PrecompileOutput) : PrecompileOutput :=
  mkPrecompileOutput (gas_used self) (out_bytes self) true.

Inductive PrecompileError :=
| PE_OutOfGas | Blake2WrongLength | Blake2WrongFinalIndicatorFlag | ModexpExpOverflow | ModexpBaseOverflow
| ModexpModOverflow | ModexpEip7823LimitSize | Bn254FieldPointNotAMember | Bn254AffineGFailedToCreate
| Bn254PairLength | BlobInvalidInputLength | BlobMismatchedVersion | BlobVerifyKzgProofFailed
| NonCanonicalFp | Bls12381G1NotOnCurve | Bls12381G1NotInSubgroup | Bls12381G2NotOnCurve
| Bls12381G2NotInSubgroup | Bls12381ScalarInputLength | Bls12381G1AddInputLength | Bls12381G1MsmInputLength
| Bls12381G2AddInputLength | Bls12381G2MsmInputLength | Bls12381PairingInputLength
| Bls12381MapFpToG1InputLength | Bls12381MapFp2ToG2InputLength | Bls12381FpPaddingInvalid
| Bls12381FpPaddingLength | Bls12381G1PaddingLength | Bls12381G2PaddingLength | KzgInvalidG1Point
| KzgG1PointNotOnCurve | KzgG1PointNotInSubgroup | KzgInvalidInputLength | Secp256k1RecoverFailed
| Fatal (message : string) | Other (message : string).

Definition PrecompileError_is_oog (self : PrecompileError) : bool :=
  match self with PE_OutOfGas => true | _ => false end.

(** [impl Display for PrecompileError]. *)
Definition PrecompileError_to_string (self : PrecompileError) : string :=
  match self with
  | PE_OutOfGas => "out of gas"
  | Blake2WrongLength => "wrong input length for blake2"
  | Blake2WrongFinalIndicatorFlag => "wrong final indicator flag for blake2"
  | ModexpExpOverflow => "modexp exp overflow"
  | ModexpBaseOverflow => "modexp base overflow"
  | ModexpModOverflow => "modexp mod overflow"
  | ModexpEip7823LimitSize => "Modexp limit all input sizes."
  | Bn254FieldPointNotAMember => "field point not a member of bn254 curve"
  | Bn254AffineGFailedToCreate => "failed to create affine g point for bn254 curve"
  | Bn254PairLength => "bn254 invalid pair length"
  | BlobInvalidInputLength => "invalid blob input length"
  | BlobMismatchedVersion => "mismatched blob version"
  | BlobVerifyKzgProofFailed => "verifying blob kzg proof failed"
  | NonCanonicalFp => "non-canonical field element"
  | Bls12381G1NotOnCurve => "bls12-381 g1 point not on curve"
  | Bls12381G1NotInSubgroup => "bls12-381 g1 point not in correct subgroup"
  | Bls12381G2NotOnCurve => "bls12-381 g2 point not on curve"
  | Bls12381G2NotInSubgroup => "bls12-381 g2 point not in correct subgroup"
  | Bls12381ScalarInputLength => "bls12-381 scalar input length error"
  | Bls12381G1AddInputLength => "bls12-381 g1 add input length error"
  | Bls12381G1MsmInputLength => "bls12-381 g1 msm input length error"
  | Bls12381G2AddInputLength => "bls12-381 g2 add input length error"
  | Bls12381G2MsmInputLength => "bls12-381 g2 msm input length error"
  | Bls12381PairingInputLength => "bls12-381 pairing input length error"
  | Bls12381MapFpToG1InputLength => "bls12-381 map fp to g1 input length error"
  | Bls12381MapFp2ToG2InputLength => "bls12-381 map fp2 to g2 input length error"
  | Bls12381FpPaddingInvalid => "bls12-381 fp 64 top bytes of input are not zero"
  | Bls12381FpPaddingLength => "bls12-381 fp padding length error"
  | Bls12381G1PaddingLength => "bls12-381 g1 padding length error"
  | Bls12381G2PaddingLength => "bls12-381 g2 padding length error"
  | KzgInvalidG1Point => "kzg invalid g1 point"
  | KzgG1PointNotOnCurve => "kzg g1 point not on curve"
  | KzgG1PointNotInSubgroup => "kzg g1 point not in correct subgroup"
  | KzgInvalidInputLength => "kzg invalid input length"
  | Secp256k1RecoverFailed => "secp256k1 signature recovery failed"
  | Fatal s => s
  | Other s => s
  end.

Abbreviation PrecompileResult := (result PrecompileOutput PrecompileError).

Definition G1Point : Type := list Z * list Z.
Definition G2Point : Type := list Z * list Z * list Z * list Z.

Class Crypto := {
  c_sha256 : list Z -> list Z;
  c_ripemd160 : list Z -> list Z;
  c_bn254_g1_add : list Z -> list Z -> result (list Z) PrecompileError;
  c_bn254_g1_mul : list Z -> list Z -> result (list Z) PrecompileError;
  c_bn254_pairing_check : list (list Z * list Z) -> result bool PrecompileError;
  c_secp256k1_ecrecover : list Z -> Z -> list Z -> result (list Z) PrecompileError;
  c_modexp : list Z -> list Z -> list Z -> result (list Z) PrecompileError;
  c_blake2_compress : Z -> list Z -> list Z -> Z * Z -> bool -> list Z;
  c_secp256r1_verify_signature : list Z -> list Z -> list Z -> bool;
  c_verify_kzg_proof : list Z -> list Z -> list Z -> list Z -> result unit PrecompileError;
  c_bls12_381_g1_add : G1Point -> G1Point -> result (list Z) PrecompileError;
  c_bls12_381_g1_msm : list (result (G1Point * list Z) PrecompileError) -> result (list Z) PrecompileError;
  c_bls12_381_g2_add : G2Point -> G2Point -> result (list Z) PrecompileError;
  c_bls12_381_g2_msm : list (result (G2Point * list Z) PrecompileError) -> result (list Z) PrecompileError;
  c_bls12_381_pairing_check : list (G1Point * G2Point) -> result bool PrecompileError;
  c_bls12_381_fp_to_g1 : list Z -> result (list Z) PrecompileError;
  c_bls12_381_fp2_to_g2 : list Z * list Z -> result (list Z) PrecompileError }.

(** * Utilities ([utilities.rs]) *)

(** [data.get(offset..).unwrap_or_default()]. *)
Definition get_from (data : list Z) (offset : Z) : list Z :=
  if Z.of_nat (length data) <? offset then [] else drop (Z.to_nat offset) data.

Definition right_pad_vec (data : list Z) (len : nat) : list Z :=
  if (len <=? length data)%nat then take len data else data ++ replicate (len - length data) 0.
Definition left_pad_vec (data : list Z) (len : nat) : list Z :=
  if (len <=? length data)%nat then take len data else replicate (len - length data) 0 ++ data.
(** The versions for a constant length return an array. *)
Definition right_pad (LEN : nat) (data : list Z) : list Z := right_pad_vec data LEN.
Definition left_pad (LEN : nat) (data : list Z) : list Z := left_pad_vec data LEN.
Definition right_pad_with_offset (LEN : nat) (data : list Z) (offset : Z) : list Z :=
  right_pad LEN (get_from data offset).
Definition right_pad_with_offset_vec (data : list Z) (offset : Z) (len : nat) : list Z :=
  right_pad_vec (get_from data offset) len.
Definition bool_to_b256 (value : bool) : Z := if value then 1 else 0.
Definition bool_to_bytes32 (value : bool) : list Z := be_bytes 32 (bool_to_b256 value).

(** [input[a..b]]. *)
Definition slice (a b : nat) (input : list Z) : list Z := take (b - a) (drop a input).

Definition u64_div_ceil (x y : Z) : Z := (x + y - 1) / y.
Definition calc_linear_cost_u32 (len : nat) (base word : Z) : Z :=
  wrapping_add 64 (wrapping_mul 64 (u64_div_ceil (Z.of_nat len) 32) word) base.

(** * Precompiles ([lib.rs], [id.rs]) *)

Inductive PrecompileId :=
| EcRec | Sha256 | Ripemd160 | Identity | ModExp | Bn254Add | Bn254Mul | Bn254Pairing | Blake2F
| KzgPointEvaluation | Bls12G1Add | Bls12G1Msm | Bls12G2Add | Bls12G2Msm | Bls12Pairing
| Bls12MapFpToGp1 | Bls12MapFp2ToGp2 | P256Verify | PId_Custom (name : string).

Definition PrecompileId_name (self : PrecompileId) : string :=
  match self with
  | EcRec => "ECREC" | Sha256 => "SHA256" | Ripemd160 => "RIPEMD160" | Identity => "ID"
  | ModExp => "MODEXP" | Bn254Add => "BN254_ADD" | Bn254Mul => "BN254_MUL"
  | Bn254Pairing => "BN254_PAIRING" | Blake2F => "BLAKE2F"
  | KzgPointEvaluation => "KZG_POINT_EVALUATION" | Bls12G1Add => "BLS12_G1ADD"
  | Bls12G1Msm => "BLS12_G1MSM" | Bls12G2Add => "BLS12_G2ADD" | Bls12G2Msm => "BLS12_G2MSM"
  | Bls12Pairing => "BLS12_PAIRING_CHECK" | Bls12MapFpToGp1 => "BLS12_MAP_FP_TO_G1"
  | Bls12MapFp2ToGp2 => "BLS12_MAP_FP2_TO_G2" | P256Verify => "P256VERIFY" | PId_Custom a => a
  end.

Definition PrecompileFn : Type := list Z -> Z -> PrecompileResult.

Record Precompile := mkPrecompile { p_id : PrecompileId; p_address : Z; p_fn : PrecompileFn }.
Definition Precompile_execute (self : Precompile) (input : list Z) (gas_limit : Z) : PrecompileResult :=
  p_fn self input gas_limit.

Definition u64_to_address (x : Z) : Z := from_be_bytes (replicate 12 0 ++ be_bytes 8 x).

Inductive PrecompileSpecId := PS_HOMESTEAD | PS_BYZANTIUM | PS_ISTANBUL | PS_BERLIN | PS_CANCUN | PS_PRAGUE | PS_OSAKA.
(** The derived order of the variants. *)
Definition PrecompileSpecId_rank (self : PrecompileSpecId) : Z :=
  match self with
  | PS_HOMESTEAD => 0 | PS_BYZANTIUM => 1 | PS_ISTANBUL => 2 | PS_BERLIN => 3 | PS_CANCUN => 4
  | PS_PRAGUE => 5 | PS_OSAKA => 6
  end.
Definition PrecompileSpecId_lt (a b : PrecompileSpecId) : bool :=
  PrecompileSpecId_rank a <? PrecompileSpecId_rank b.

Definition PrecompileSpecId_from_spec_id (spec_id : SpecId) : PrecompileSpecId :=
  match spec_id with
  | FRONTIER | FRONTIER_THAWING | HOMESTEAD | DAO_FORK | TANGERINE | SPURIOUS_DRAGON => PS_HOMESTEAD
  | BYZANTIUM | CONSTANTINOPLE | PETERSBURG => PS_BYZANTIUM
  | ISTANBUL | MUIR_GLACIER => PS_ISTANBUL
  | BERLIN | LONDON | ARROW_GLACIER | GRAY_GLACIER | MERGE | SHANGHAI => PS_BERLIN
  | CANCUN => PS_CANCUN
  | PRAGUE => PS_PRAGUE
  | OSAKA | AMSTERDAM => PS_OSAKA
  end.

(** The map and the vector that caches it for short addresses. *)
Record Precompiles := mkPrecompiles {
  inner : gmap Z Precompile;
  addresses : gset Z;
  optimized_access : list (option Precompile);
  all_short_addresses : bool }.

Definition Precompiles_default : Precompiles :=
  mkPrecompiles ∅ ∅ (replicate SHORT_ADDRESS_CAP None) true.

Definition Precompiles_addresses (self : Precompiles) : gset Z := dom (inner self).
Definition Precompiles_contains (self : Precompiles) (address : Z) : bool :=
  bool_decide (is_Some (inner self !! address)).
(** The index is below [SHORT_ADDRESS_CAP], the length of the vector. *)
Definition Precompiles_get (self : Precompiles) (address : Z) : option Precompile :=
  match short_address address with
  | Some short_address => nth short_address (optimized_access self) None
  | None => inner self !! address
  end.
(** [*self.get_mut(address)? = p]. *)
Definition Precompiles_set_through_get_mut (address : Z) (p : Precompile) (self : Precompiles) : Precompiles :=
  match inner self !! address with
  | Some _ => mkPrecompiles (<[address := p]> (inner self)) (addresses self) (optimized_access self)
                (all_short_addresses self)
  | None => self
  end.
Definition Precompiles_is_empty (self : Precompiles) : bool := bool_decide (inner self = ∅).
Definition Precompiles_len (self : Precompiles) : nat := size (inner self).

(** One turn of the loop of [extend]. *)
Definition extend_short (item : Precompile) (acc : list (option Precompile) * bool)
    : list (option Precompile) * bool :=
  match short_address (p_address item) with
  | Some short_address => (<[short_address := Some item]> acc.1, acc.2)
  | None => (acc.1, false)
  end.
Definition Precompiles_extend (items : list Precompile) (self : Precompiles) : Precompiles :=
  let '(optimized_access, all_short) :=
    foldl (fun acc item => extend_short item acc) (optimized_access self, all_short_addresses self) items in
  mkPrecompiles (foldl (fun m p => <[p_address p := p]> m) (inner self) items)
    (foldl (fun s p => {[ p_address p ]} ∪ s) (addresses self) items) optimized_access all_short.

Definition Precompiles_difference (self other : Precompiles) : Precompiles :=
  let kept := filter (fun '(a, _) => inner other !! a = None) (inner self) in
  Precompiles_extend (map_to_list kept).*2 Precompiles_default.
Definition Precompiles_intersection (self other : Precompiles) : Precompiles :=
  let kept := filter (fun '(a, _) => is_Some (inner other !! a)) (inner self) in
  Precompiles_extend (map_to_list kept).*2 Precompiles_default.

(** * The contracts *)

Section Contracts.
Context `{Crypto}.

(** ** Identity, hashes and ecrecover *)

Definition IDENTITY_BASE : Z := 15.
Definition IDENTITY_PER_WORD : Z := 3.
Definition identity_run (input : list Z) (gas_limit : Z) : PrecompileResult :=
  let gas_used := calc_linear_cost_u32 (length input) IDENTITY_BASE IDENTITY_PER_WORD in
  if gas_limit <? gas_used then Err PE_OutOfGas else Ok (PrecompileOutput_new gas_used input).

Definition sha256_run (input : list Z) (gas_limit : Z) : PrecompileResult :=
  let cost := calc_linear_cost_u32 (length input) 60 12 in
  if gas_limit <? cost then Err PE_OutOfGas else Ok (PrecompileOutput_new cost (c_sha256 input)).

Definition ripemd160_run (input : list Z) (gas_limit : Z) : PrecompileResult :=
  let gas_used := calc_linear_cost_u32 (length input) 600 120 in
  if gas_limit <? gas_used then Err PE_OutOfGas else Ok (PrecompileOutput_new gas_used (c_ripemd160 input)).

Definition ECRECOVER_BASE : Z := 3000.
Definition ec_recover_run (input : list Z) (gas_limit : Z) : PrecompileResult :=
  if gas_limit <? ECRECOVER_BASE then Err PE_OutOfGas
  else
    let input := right_pad 128 input in
    let v := nth 63 input 0 in
    if negb (forallb (fun b => b =? 0) (slice 32 63 input) && ((v =? 27) || (v =? 28))) then
      Ok (PrecompileOutput_new ECRECOVER_BASE [])
    else
      let res := c_secp256k1_ecrecover (slice 64 128 input) (v - 27) (slice 0 32 input) in
      Ok (PrecompileOutput_new ECRECOVER_BASE (match res with Ok o => o | Err _ => [] end)).

(** ** Modular exponentiation ([modexp.rs]) *)

Definition INPUT_SIZE_LIMIT : Z := 1024.
Definition bit_len (x : Z) : Z := if x =? 0 then 0 else Z.log2 x + 1.

Definition calculate_iteration_count (MULTIPLIER exp_length exp_highp : Z) : Z :=
  let iteration_count :=
    if (exp_length <=? 32) && (exp_highp =? 0) then 0
    else if exp_length <=? 32 then bit_len exp_highp - 1
    else saturating_add 64 (saturating_mul 64 MULTIPLIER (exp_length - 32)) (Z.max 1 (bit_len exp_highp) - 1) in
  Z.max iteration_count 1.

Definition gas_calc (MIN_PRICE MULTIPLIER GAS_DIVISOR base_len exp_len mod_len exp_highp : Z)
    (calculate_multiplication_complexity : Z -> Z) : Z :=
  let multiplication_complexity := calculate_multiplication_complexity (Z.max base_len mod_len) in
  let iteration_count := calculate_iteration_count MULTIPLIER exp_len exp_highp in
  let gas := wrapping_mul 256 multiplication_complexity iteration_count / GAS_DIVISOR in
  Z.max MIN_PRICE (Z.min gas (modulus 64 - 1)).

Definition byzantium_gas_calc (base_len exp_len mod_len exp_highp : Z) : Z :=
  gas_calc 0 8 20 base_len exp_len mod_len exp_highp (fun max_len =>
    if max_len <=? 64 then max_len * max_len
    else if max_len <=? 1024 then max_len * max_len / 4 + 96 * max_len - 3072
    else wrapping_sub 256 (wrapping_add 256 (wrapping_mul 256 max_len max_len / 16)
                             (wrapping_mul 256 480 max_len)) 199680).
Definition berlin_gas_calc (base_len exp_len mod_len exp_highp : Z) : Z :=
  gas_calc 200 8 3 base_len exp_len mod_len exp_highp (fun max_len =>
    let words := u64_div_ceil max_len 8 in wrapping_mul 256 words words).
Definition osaka_gas_calc (base_len exp_len mod_len exp_highp : Z) : Z :=
  gas_calc 500 16 1 base_len exp_len mod_len exp_highp (fun max_len =>
    if max_len <=? 32 then 16
    else let words := u64_div_ceil max_len 8 in wrapping_mul 256 (wrapping_mul 256 words words) 2).

Definition HEADER_LENGTH : Z := 96.

(** A length that does not fit a [usize] is refused, except that of the
    exponent, which is saturated. *)
Definition modexp_run_inner (OSAKA_rules : bool) (input : list Z) (gas_limit min_gas : Z)
    (calc_gas : Z -> Z -> Z -> Z -> Z) : PrecompileResult :=
  if gas_limit <? min_gas then Err PE_OutOfGas
  else
    let base_len := from_be_bytes (right_pad_with_offset 32 input 0) in
    let exp_len := from_be_bytes (right_pad_with_offset 32 input 32) in
    let mod_len := from_be_bytes (right_pad_with_offset 32 input 64) in
    if negb (in_rangeb 64 base_len) then Err ModexpEip7823LimitSize
    else if negb (in_rangeb 64 mod_len) then Err ModexpEip7823LimitSize
    else
      let exp_len := if in_rangeb 64 exp_len then exp_len else modulus 64 - 1 in
      if OSAKA_rules && ((INPUT_SIZE_LIMIT <? base_len) || (INPUT_SIZE_LIMIT <? mod_len)
                         || (INPUT_SIZE_LIMIT <? exp_len)) then Err ModexpEip7823LimitSize
      else
        let exp_highp_len := Z.min exp_len 32 in
        let input := get_from input HEADER_LENGTH in
        let right_padded_highp := right_pad_with_offset 32 input base_len in
        let exp_highp := from_be_bytes (left_pad 32 (take (Z.to_nat exp_highp_len) right_padded_highp)) in
        let gas_cost := calc_gas base_len exp_len mod_len exp_highp in
        if gas_limit <? gas_cost then Err PE_OutOfGas
        else if (base_len =? 0) && (mod_len =? 0) then Ok (PrecompileOutput_new gas_cost [])
        else
          let input_len := saturating_add 64 (saturating_add 64 base_len exp_len) mod_len in
          let input := right_pad_vec input (Z.to_nat input_len) in
          let base := take (Z.to_nat base_len) input in
          let input := drop (Z.to_nat base_len) input in
          let exponent := take (Z.to_nat exp_len) input in
          let mod_bytes := drop (Z.to_nat exp_len) input in
          try! output := c_modexp base exponent mod_bytes in
          Ok (PrecompileOutput_new gas_cost (left_pad_vec output (Z.to_nat mod_len))).

Definition modexp_byzantium_run (input : list Z) (gas_limit : Z) : PrecompileResult :=
  modexp_run_inner false input gas_limit 0 byzantium_gas_calc.
Definition modexp_berlin_run (input : list Z) (gas_limit : Z) : PrecompileResult :=
  modexp_run_inner false input gas_limit 200 berlin_gas_calc.
Definition modexp_osaka_run (input : list Z) (gas_limit : Z) : PrecompileResult :=
  modexp_run_inner true input gas_limit 500 osaka_gas_calc.

(** ** BN254 ([bn254.rs]) *)

Definition FQ_LEN : nat := 32.
Definition SCALAR_LEN : nat := 32.
Definition BN_FQ2_LEN : nat := 2 * FQ_LEN.
Definition BN_G1_LEN : nat := 2 * FQ_LEN.
Definition BN_G2_LEN : nat := 2 * BN_FQ2_LEN.
Definition ADD_INPUT_LEN : nat := 2 * BN_G1_LEN.
Definition MUL_INPUT_LEN : nat := BN_G1_LEN + SCALAR_LEN.
Definition PAIR_ELEMENT_LEN : nat := BN_G1_LEN + BN_G2_LEN.

Definition bn254_run_add (gas_cost : Z) (input : list Z) (gas_limit : Z) : PrecompileResult :=
  if gas_limit <? gas_cost then Err PE_OutOfGas
  else
    let input := right_pad ADD_INPUT_LEN input in
    try! output := c_bn254_g1_add (take BN_G1_LEN input) (drop BN_G1_LEN input) in
    Ok (PrecompileOutput_new gas_cost output).
Definition bn254_run_mul (gas_cost : Z) (input : list Z) (gas_limit : Z) : PrecompileResult :=
  if gas_limit <? gas_cost then Err PE_OutOfGas
  else
    let input := right_pad MUL_INPUT_LEN input in
    try! output := c_bn254_g1_mul (take BN_G1_LEN input) (slice BN_G1_LEN (BN_G1_LEN + SCALAR_LEN) input) in
    Ok (PrecompileOutput_new gas_cost output).
Definition bn254_run_pair (pair_per_point_cost pair_base_cost : Z) (input : list Z) (gas_limit : Z)
    : PrecompileResult :=
  let gas_used := wrapping_add 64
    (wrapping_mul 64 (Z.of_nat (length input / PAIR_ELEMENT_LEN)) pair_per_point_cost) pair_base_cost in
  if gas_limit <? gas_used then Err PE_OutOfGas
  else if negb (length input mod PAIR_ELEMENT_LEN =? 0)%nat then Err Bn254PairLength
  else
    let elements := (length input / PAIR_ELEMENT_LEN)%nat in
    let points := (fun idx =>
      let start := (idx * PAIR_ELEMENT_LEN)%nat in
      let g2_start := (start + BN_G1_LEN)%nat in
      (slice start g2_start input, slice g2_start (g2_start + BN_G2_LEN) input)) <$> seq 0 elements in
    try! pairing_result := c_bn254_pairing_check points in
    Ok (PrecompileOutput_new gas_used (bool_to_bytes32 pairing_result)).

Definition ISTANBUL_ADD_GAS_COST : Z := 150.
Definition BYZANTIUM_ADD_GAS_COST : Z := 500.
Definition ISTANBUL_MUL_GAS_COST : Z := 6000.
Definition BYZANTIUM_MUL_GAS_COST : Z := 40000.
Definition ISTANBUL_PAIR_PER_POINT : Z := 34000.
Definition ISTANBUL_PAIR_BASE : Z := 45000.
Definition BYZANTIUM_PAIR_PER_POINT : Z := 80000.
Definition BYZANTIUM_PAIR_BASE : Z := 100000.

(** ** BLAKE2 ([blake2.rs]) *)

Definition F_ROUND : Z := 1.
Definition BLAKE2_INPUT_LENGTH : nat := 213.
(** [chunks_exact(8)] read with [u64::from_le_bytes]. *)
Definition le_words (n : nat) (bytes : list Z) : list Z :=
  (fun i => from_le_bytes (slice (8 * i) (8 * i + 8) bytes)) <$> seq 0 n.
Definition blake2_run (input : list Z) (gas_limit : Z) : PrecompileResult :=
  if negb (length input =? BLAKE2_INPUT_LENGTH)%nat then Err Blake2WrongLength
  else
    let rounds := from_be_bytes (slice 0 4 input) in
    let gas_used := rounds * F_ROUND in
    if gas_limit <? gas_used then Err PE_OutOfGas
    else
      let flag := nth 212 input 0 in
      if negb ((flag =? 0) || (flag =? 1)) then Err Blake2WrongFinalIndicatorFlag
      else
        let f := flag =? 1 in
        let h := le_words 8 (slice 4 68 input) in
        let m := le_words 16 (slice 68 196 input) in
        let t_0 := from_le_bytes (slice 196 204 input) in
        let t_1 := from_le_bytes (slice 204 212 input) in
        let h := c_blake2_compress rounds h m (t_0, t_1) f in
        Ok (PrecompileOutput_new gas_used (concat (le_bytes 8 <$> h))).

(** ** KZG and P-256 ([kzg_point_evaluation.rs], [secp256r1.rs]) *)

Definition KZG_GAS_COST : Z := 50000.
Definition VERSIONED_HASH_VERSION_KZG : Z := 0x01.
Definition RETURN_VALUE : list Z :=
  be_bytes 32 0x1000 ++ be_bytes 32 0x73eda753299d7d483339d80809a1d80553bda402fffe5bfeffffffff00000001.
Definition kzg_to_versioned_hash (commitment : list Z) : list Z :=
  <[0%nat := VERSIONED_HASH_VERSION_KZG]> (c_sha256 commitment).
Definition kzg_run (input : list Z) (gas_limit : Z) : PrecompileResult :=
  if gas_limit <? KZG_GAS_COST then Err PE_OutOfGas
  else if negb (length input =? 192)%nat then Err BlobInvalidInputLength
  else
    let versioned_hash := slice 0 32 input in
    let commitment := slice 96 144 input in
    if negb (bool_decide (kzg_to_versioned_hash commitment = versioned_hash)) then Err BlobMismatchedVersion
    else
      try! _ := c_verify_kzg_proof (slice 32 64 input) (slice 64 96 input) commitment (slice 144 192 input) in
      Ok (PrecompileOutput_new KZG_GAS_COST RETURN_VALUE).

Definition P256VERIFY_ADDRESS : Z := 256.
Definition P256VERIFY_BASE_GAS_FEE : Z := 3450.
Definition P256VERIFY_BASE_GAS_FEE_OSAKA : Z := 6900.
Definition verify_impl (input : list Z) : bool :=
  if negb (length input =? 160)%nat then false
  else c_secp256r1_verify_signature (slice 0 32 input) (slice 32 96 input) (slice 96 160 input).
Definition p256_verify_inner (input : list Z) (gas_limit gas_cost : Z) : PrecompileResult :=
  if gas_limit <? gas_cost then Err PE_OutOfGas
  else Ok (PrecompileOutput_new gas_cost (if verify_impl input then be_bytes 32 1 else [])).
Definition p256_verify (input : list Z) (gas_limit : Z) : PrecompileResult :=
  p256_verify_inner input gas_limit P256VERIFY_BASE_GAS_FEE.
Definition p256_verify_osaka (input : list Z) (gas_limit : Z) : PrecompileResult :=
  p256_verify_inner input gas_limit P256VERIFY_BASE_GAS_FEE_OSAKA.

(** ** BLS12-381 ([bls12_381/], [bls12_381_const.rs], [bls12_381_utils.rs]) *)

Definition FP_LENGTH : nat := 48.
Definition PADDED_FP_LENGTH : nat := 64.
Definition G1_LENGTH : nat := 2 * FP_LENGTH.
Definition PADDED_G1_LENGTH : nat := 2 * PADDED_FP_LENGTH.
Definition FP2_LENGTH : nat := 2 * FP_LENGTH.
Definition PADDED_FP2_LENGTH : nat := 2 * PADDED_FP_LENGTH.
Definition SCALAR_LENGTH : nat := 32.
Definition G1_ADD_INPUT_LENGTH : nat := 2 * PADDED_G1_LENGTH.
Definition G1_MSM_INPUT_LENGTH : nat := PADDED_G1_LENGTH + SCALAR_LENGTH.
Definition G2_LENGTH : nat := 2 * FP2_LENGTH.
Definition PADDED_G2_LENGTH : nat := 2 * PADDED_FP2_LENGTH.
Definition G2_ADD_INPUT_LENGTH : nat := 2 * PADDED_G2_LENGTH.
Definition G2_MSM_INPUT_LENGTH : nat := PADDED_G2_LENGTH + SCALAR_LENGTH.
Definition PAIRING_INPUT_LENGTH : nat := PADDED_G1_LENGTH + PADDED_G2_LENGTH.
Definition FP_PAD_BY : nat := 16.

Definition G1_ADD_BASE_GAS_FEE : Z := 375.
Definition G1_MSM_BASE_GAS_FEE : Z := 12000.
Definition MSM_MULTIPLIER : Z := 1000.
Definition MAP_FP_TO_G1_BASE_GAS_FEE : Z := 5500.
Definition MAP_FP2_TO_G2_BASE_GAS_FEE : Z := 23800.
Definition G2_ADD_BASE_GAS_FEE : Z := 600.
Definition G2_MSM_BASE_GAS_FEE : Z := 22500.
Definition PAIRING_OFFSET_BASE : Z := 37700.
Definition PAIRING_MULTIPLIER_BASE : Z := 32600.

Definition DISCOUNT_TABLE_G1_MSM : list Z :=
  [1000; 949; 848; 797; 764; 750; 738; 728; 719; 712; 705; 698; 692; 687; 682; 677; 673; 669; 665;
   661; 658; 654; 651; 648; 645; 642; 640; 637; 635; 632; 630; 627; 625; 623; 621; 619; 617; 615;
   613; 611; 609; 608; 606; 604; 603; 601; 599; 598; 596; 595; 593; 592; 591; 589; 588; 586; 585;
   584; 582; 581; 580; 579; 577; 576; 575; 574; 573; 572; 570; 569; 568; 567; 566; 565; 564; 563;
   562; 561; 560; 559; 558; 557; 556; 555; 554; 553; 552; 551; 550; 549; 548; 547; 547; 546; 545;
   544; 543; 542; 541; 540; 540; 539; 538; 537; 536; 536; 535; 534; 533; 532; 532; 531; 530; 529;
   528; 528; 527; 526; 525; 525; 524; 523; 522; 522; 521; 520; 520; 519].
Definition DISCOUNT_TABLE_G2_MSM : list Z :=
  [1000; 1000; 923; 884; 855; 832; 812; 796; 782; 770; 759; 749; 740; 732; 724; 717; 711; 704; 699;
   693; 688; 683; 679; 674; 670; 666; 663; 659; 655; 652; 649; 646; 643; 640; 637; 634; 632; 629;
   627; 624; 622; 620; 618; 615; 613; 611; 609; 607; 606; 604; 602; 600; 598; 597; 595; 593; 592;
   590; 589; 587; 586; 584; 583; 582; 580; 579; 578; 576; 575; 574; 573; 571; 570; 569; 568; 567;
   566; 565; 563; 562; 561; 560; 559; 558; 557; 556; 555; 554; 553; 552; 552; 551; 550; 549; 548;
   547; 546; 545; 545; 544; 543; 542; 541; 541; 540; 539; 538; 537; 537; 536; 535; 535; 534; 533;
   532; 532; 531; 530; 530; 529; 528; 528; 527; 526; 526; 525; 524; 524].

(** The index is in bounds: the tables are not empty. *)
Definition msm_required_gas (k : nat) (discount_table : list Z) (multiplication_cost : Z) : Z :=
  if (k =? 0)%nat then 0
  else
    let index := Nat.min (k - 1) (length discount_table - 1) in
    let discount := nth index discount_table 0 in
    wrapping_mul 64 (wrapping_mul 64 (Z.of_nat k) discount) multiplication_cost / MSM_MULTIPLIER.

Definition remove_fp_padding (input : list Z) : result (list Z) PrecompileError :=
  if negb (length input =? PADDED_FP_LENGTH)%nat then Err Bls12381FpPaddingLength
  else
    let padding := take FP_PAD_BY input in
    let unpadded := drop FP_PAD_BY input in
    if negb (forallb (fun x => x =? 0) padding) then Err Bls12381FpPaddingInvalid else Ok unpadded.
Definition remove_g1_padding (input : list Z) : result G1Point PrecompileError :=
  if negb (length input =? PADDED_G1_LENGTH)%nat then Err Bls12381G1PaddingLength
  else
    try! x := remove_fp_padding (take PADDED_FP_LENGTH input) in
    try! y := remove_fp_padding (slice PADDED_FP_LENGTH PADDED_G1_LENGTH input) in
    Ok (x, y).
Definition remove_g2_padding (input : list Z) : result G2Point PrecompileError :=
  if negb (length input =? PADDED_G2_LENGTH)%nat then Err Bls12381G2PaddingLength
  else
    let fp i := remove_fp_padding (slice (i * PADDED_FP_LENGTH) ((i + 1) * PADDED_FP_LENGTH) input) in
    try! x_0 := fp 0%nat in
    try! x_1 := fp 1%nat in
    try! y_0 := fp 2%nat in
    try! y_1 := fp 3%nat in
    Ok (x_0, x_1, y_0, y_1).

(** Zeros before each of the [n] field elements; the assertions on the length
    of the argument, an array, cannot fail. *)
Definition pad_point (n : nat) (unpadded : list Z) : list Z :=
  concat ((fun i => replicate FP_PAD_BY 0 ++ slice (i * FP_LENGTH) ((i + 1) * FP_LENGTH) unpadded) <$> seq 0 n).
Definition pad_g1_point (unpadded : list Z) : list Z := pad_point 2 unpadded.
Definition pad_g2_point (unpadded : list Z) : list Z := pad_point 4 unpadded.

Definition g1_add (input : list Z) (gas_limit : Z) : PrecompileResult :=
  if gas_limit <? G1_ADD_BASE_GAS_FEE then Err PE_OutOfGas
  else if negb (length input =? G1_ADD_INPUT_LENGTH)%nat then Err Bls12381G1AddInputLength
  else
    try! a := remove_g1_padding (take PADDED_G1_LENGTH input) in
    try! b := remove_g1_padding (drop PADDED_G1_LENGTH input) in
    try! unpadded_result := c_bls12_381_g1_add a b in
    Ok (PrecompileOutput_new G1_ADD_BASE_GAS_FEE (pad_g1_point unpadded_result)).

(** The iterator [valid_pairs_iter] is the list of what it yields. *)
Definition g1_msm (input : list Z) (gas_limit : Z) : PrecompileResult :=
  let input_len := length input in
  if (input_len =? 0)%nat || negb (input_len mod G1_MSM_INPUT_LENGTH =? 0)%nat
  then Err Bls12381G1MsmInputLength
  else
    let k := (input_len / G1_MSM_INPUT_LENGTH)%nat in
    let required_gas := msm_required_gas k DISCOUNT_TABLE_G1_MSM G1_MSM_BASE_GAS_FEE in
    if gas_limit <? required_gas then Err PE_OutOfGas
    else
      let valid_pairs_iter := (fun i =>
        let start := (i * G1_MSM_INPUT_LENGTH)%nat in
        try! point := remove_g1_padding (slice start (start + PADDED_G1_LENGTH) input) in
        Ok (point, slice (start + PADDED_G1_LENGTH) (start + G1_MSM_INPUT_LENGTH) input)) <$> seq 0 k in
      try! unpadded_result := c_bls12_381_g1_msm valid_pairs_iter in
      Ok (PrecompileOutput_new required_gas (pad_g1_point unpadded_result)).

Definition g2_add (input : list Z) (gas_limit : Z) : PrecompileResult :=
  if gas_limit <? G2_ADD_BASE_GAS_FEE then Err PE_OutOfGas
  else if negb (length input =? G2_ADD_INPUT_LENGTH)%nat then Err Bls12381G2AddInputLength
  else
    try! a := remove_g2_padding (take PADDED_G2_LENGTH input) in
    try! b := remove_g2_padding (drop PADDED_G2_LENGTH input) in
    try! unpadded_result := c_bls12_381_g2_add a b in
    Ok (PrecompileOutput_new G2_ADD_BASE_GAS_FEE (pad_g2_point unpadded_result)).

Definition g2_msm (input : list Z) (gas_limit : Z) : PrecompileResult :=
  let input_len := length input in
  if (input_len =? 0)%nat || negb (input_len mod G2_MSM_INPUT_LENGTH =? 0)%nat
  then Err Bls12381G2MsmInputLength
  else
    let k := (input_len / G2_MSM_INPUT_LENGTH)%nat in
    let required_gas := msm_required_gas k DISCOUNT_TABLE_G2_MSM G2_MSM_BASE_GAS_FEE in
    if gas_limit <? required_gas then Err PE_OutOfGas
    else
      let valid_pairs_iter := (fun i =>
        let start := (i * G2_MSM_INPUT_LENGTH)%nat in
        try! point := remove_g2_padding (slice start (start + PADDED_G2_LENGTH) input) in
        Ok (point, slice (start + PADDED_G2_LENGTH) (start + G2_MSM_INPUT_LENGTH) input)) <$> seq 0 k in
      try! unpadded_result := c_bls12_381_g2_msm valid_pairs_iter in
      Ok (PrecompileOutput_new required_gas (pad_g2_point unpadded_result)).

(** The loop of [pairing] over the elements, which stops at the first bad one. *)
Fixpoint pairing_pairs (input : list Z) (indices : list nat) : result (list (G1Point * G2Point)) PrecompileError :=
  match indices with
  | [] => Ok []
  | i :: indices =>
      let start := (i * PAIRING_INPUT_LENGTH)%nat in
      try! a := remove_g1_padding (slice start (start + PADDED_G1_LENGTH) input) in
      try! b := remove_g2_padding
        (slice (start + PADDED_G1_LENGTH) (start + PADDED_G1_LENGTH + PADDED_G2_LENGTH) input) in
      try! pairs := pairing_pairs input indices in
      Ok ((a, b) :: pairs)
  end.
Definition pairing (input : list Z) (gas_limit : Z) : PrecompileResult :=
  let input_len := length input in
  if (input_len =? 0)%nat || negb (input_len mod PAIRING_INPUT_LENGTH =? 0)%nat
  then Err Bls12381PairingInputLength
  else
    let k := (input_len / PAIRING_INPUT_LENGTH)%nat in
    let required_gas := wrapping_add 64 (wrapping_mul 64 PAIRING_MULTIPLIER_BASE (Z.of_nat k)) PAIRING_OFFSET_BASE in
    if gas_limit <? required_gas then Err PE_OutOfGas
    else
      try! pairs := pairing_pairs input (seq 0 k) in
      try! r := c_bls12_381_pairing_check pairs in
      Ok (PrecompileOutput_new required_gas (be_bytes 32 (if (r : bool) then 1 else 0))).

Definition map_fp_to_g1 (input : list Z) (gas_limit : Z) : PrecompileResult :=
  if gas_limit <? MAP_FP_TO_G1_BASE_GAS_FEE then Err PE_OutOfGas
  else if negb (length input =? PADDED_FP_LENGTH)%nat then Err Bls12381MapFpToG1InputLength
  else
    try! input_p0 := remove_fp_padding input in
    try! unpadded_result := c_bls12_381_fp_to_g1 input_p0 in
    Ok (PrecompileOutput_new MAP_FP_TO_G1_BASE_GAS_FEE (pad_g1_point unpadded_result)).
Definition map_fp2_to_g2 (input : list Z) (gas_limit : Z) : PrecompileResult :=
  if gas_limit <? MAP_FP2_TO_G2_BASE_GAS_FEE then Err PE_OutOfGas
  else if negb (length input =? PADDED_FP2_LENGTH)%nat then Err Bls12381MapFp2ToG2InputLength
  else
    try! input_p0_x := remove_fp_padding (take PADDED_FP_LENGTH input) in
    try! input_p0_y := remove_fp_padding (slice PADDED_FP_LENGTH PADDED_FP2_LENGTH input) in
    try! unpadded_result := c_bls12_381_fp2_to_g2 (input_p0_x, input_p0_y) in
    Ok (PrecompileOutput_new MAP_FP2_TO_G2_BASE_GAS_FEE (pad_g2_point unpadded_result)).

(** ** The constants and the tables *)

Definition ECRECOVER : Precompile := mkPrecompile EcRec (u64_to_address 1) ec_recover_run.
Definition SHA256 : Precompile := mkPrecompile Sha256 (u64_to_address 2) sha256_run.
Definition RIPEMD160 : Precompile := mkPrecompile Ripemd160 (u64_to_address 3) ripemd160_run.
Definition identity_FUN : Precompile := mkPrecompile Identity (u64_to_address 4) identity_run.
Definition modexp_BYZANTIUM : Precompile := mkPrecompile ModExp (u64_to_address 5) modexp_byzantium_run.
Definition modexp_BERLIN : Precompile := mkPrecompile ModExp (u64_to_address 5) modexp_berlin_run.
Definition modexp_OSAKA : Precompile := mkPrecompile ModExp (u64_to_address 5) modexp_osaka_run.
Definition add_ISTANBUL : Precompile := mkPrecompile Bn254Add (u64_to_address 6) (bn254_run_add ISTANBUL_ADD_GAS_COST).
Definition add_BYZANTIUM : Precompile := mkPrecompile Bn254Add (u64_to_address 6) (bn254_run_add BYZANTIUM_ADD_GAS_COST).
Definition mul_ISTANBUL : Precompile := mkPrecompile Bn254Mul (u64_to_address 7) (bn254_run_mul ISTANBUL_MUL_GAS_COST).
Definition mul_BYZANTIUM : Precompile := mkPrecompile Bn254Mul (u64_to_address 7) (bn254_run_mul BYZANTIUM_MUL_GAS_COST).
Definition pair_ISTANBUL : Precompile :=
  mkPrecompile Bn254Pairing (u64_to_address 8) (bn254_run_pair ISTANBUL_PAIR_PER_POINT ISTANBUL_PAIR_BASE).
Definition pair_BYZANTIUM : Precompile :=
  mkPrecompile Bn254Pairing (u64_to_address 8) (bn254_run_pair BYZANTIUM_PAIR_PER_POINT BYZANTIUM_PAIR_BASE).
Definition blake2_FUN : Precompile := mkPrecompile Blake2F (u64_to_address 9) blake2_run.
Definition POINT_EVALUATION : Precompile := mkPrecompile KzgPointEvaluation (u64_to_address 0x0A) kzg_run.
Definition g1_add_PRECOMPILE : Precompile := mkPrecompile Bls12G1Add (u64_to_address 0x0b) g1_add.
Definition g1_msm_PRECOMPILE : Precompile := mkPrecompile Bls12G1Msm (u64_to_address 0x0c) g1_msm.
Definition g2_add_PRECOMPILE : Precompile := mkPrecompile Bls12G2Add (u64_to_address 0x0d) g2_add.
Definition g2_msm_PRECOMPILE : Precompile := mkPrecompile Bls12G2Msm (u64_to_address 0x0e) g2_msm.
Definition pairing_PRECOMPILE : Precompile := mkPrecompile Bls12Pairing (u64_to_address 0x0f) pairing.
Definition map_fp_to_g1_PRECOMPILE : Precompile := mkPrecompile Bls12MapFpToGp1 (u64_to_address 0x10) map_fp_to_g1.
Definition map_fp2_to_g2_PRECOMPILE : Precompile := mkPrecompile Bls12MapFp2ToGp2 (u64_to_address 0x11) map_fp2_to_g2.
Definition P256VERIFY : Precompile := mkPrecompile P256Verify (u64_to_address P256VERIFY_ADDRESS) p256_verify.
Definition P256VERIFY_OSAKA : Precompile := mkPrecompile P256Verify (u64_to_address P256VERIFY_ADDRESS) p256_verify_osaka.

Definition bls12_381_precompiles : list Precompile :=
  [g1_add_PRECOMPILE; g1_msm_PRECOMPILE; g2_add_PRECOMPILE; g2_msm_PRECOMPILE; pairing_PRECOMPILE;
   map_fp_to_g1_PRECOMPILE; map_fp2_to_g2_PRECOMPILE].

Definition Precompiles_homestead : Precompiles :=
  Precompiles_extend [ECRECOVER; SHA256; RIPEMD160; identity_FUN] Precompiles_default.
Definition Precompiles_byzantium : Precompiles :=
  Precompiles_extend [modexp_BYZANTIUM; add_BYZANTIUM; mul_BYZANTIUM; pair_BYZANTIUM] Precompiles_homestead.
Definition Precompiles_istanbul : Precompiles :=
  Precompiles_extend [add_ISTANBUL; mul_ISTANBUL; pair_ISTANBUL; blake2_FUN] Precompiles_byzantium.
Definition Precompiles_berlin : Precompiles := Precompiles_extend [modexp_BERLIN] Precompiles_istanbul.
Definition Precompiles_cancun : Precompiles := Precompiles_extend [POINT_EVALUATION] Precompiles_berlin.
Definition Precompiles_prague : Precompiles := Precompiles_extend bls12_381_precompiles Precompiles_cancun.
Definition Precompiles_osaka : Precompiles :=
  Precompiles_extend [modexp_OSAKA; P256VERIFY_OSAKA] Precompiles_prague.

Definition Precompiles_new (spec : PrecompileSpecId) : Precompiles :=
  match spec with
  | PS_HOMESTEAD => Precompiles_homestead
  | PS_BYZANTIUM => Precompiles_byzantium
  | PS_ISTANBUL => Precompiles_istanbul
  | PS_BERLIN => Precompiles_berlin
  | PS_CANCUN => Precompiles_cancun
  | PS_PRAGUE => Precompiles_prague
  | PS_OSAKA => Precompiles_osaka
  end.
Definition Precompiles_latest : Precompiles := Precompiles_osaka.

Definition PrecompileId_precompile (self : PrecompileId) (spec : PrecompileSpecId) : option Precompile :=
  match self with
  | EcRec => Some ECRECOVER
  | Sha256 => Some SHA256
  | Ripemd160 => Some RIPEMD160
  | Identity => Some identity_FUN
  | ModExp =>
      if PrecompileSpecId_lt spec PS_BERLIN then Some modexp_BYZANTIUM
      else if PrecompileSpecId_lt spec PS_OSAKA then Some modexp_BERLIN
      else Some modexp_OSAKA
  | Bn254Add => if PrecompileSpecId_lt spec PS_ISTANBUL then Some add_BYZANTIUM else Some add_ISTANBUL
  | Bn254Mul => if PrecompileSpecId_lt spec PS_ISTANBUL then Some mul_BYZANTIUM else Some mul_ISTANBUL
  | Bn254Pairing => if PrecompileSpecId_lt spec PS_ISTANBUL then Some pair_BYZANTIUM else Some pair_ISTANBUL
  | Blake2F => Some blake2_FUN
  | KzgPointEvaluation => Some POINT_EVALUATION
  | Bls12G1Add => Some g1_add_PRECOMPILE
  | Bls12G1Msm => Some g1_msm_PRECOMPILE
  | Bls12G2Add => Some g2_add_PRECOMPILE
  | Bls12G2Msm => Some g2_msm_PRECOMPILE
  | Bls12Pairing => Some pairing_PRECOMPILE
  | Bls12MapFpToGp1 => Some map_fp_to_g1_PRECOMPILE
  | Bls12MapFp2ToGp2 => Some map_fp2_to_g2_PRECOMPILE
  | P256Verify => if PrecompileSpecId_lt spec PS_OSAKA then Some P256VERIFY else Some P256VERIFY_OSAKA
  | PId_Custom _ => None
  end.
End Contracts.
