(* ===== verification/PrecompileLaws.v ===== *)
(** What the precompile tables guarantee: the cache for short addresses always
    agrees with the map, the tables of all forks agree with the identifiers,
    no contract reports more gas than it was given, and the padding of curve
    points is undone by its removal. *)
From S2P Require Import Prelude Hardfork WarmAddresses Precompile.
From stdpp Require Import base numbers list option tactics gmap strings.
From Stdlib Require Import ZArith Lia.

Local Open Scope Z_scope.

(** * The cache *)

(** What [optimized_access], [addresses] and [all_short_addresses] hold. *)
Record precompiles_ok (self : Precompiles) : Prop := {
  pok_len : length (optimized_access self) = SHORT_ADDRESS_CAP;
  pok_keys a p : inner self !! a = Some p -> in_range 160 a /\ p_address p = a;
  pok_cache a s : in_range 160 a -> short_address a = Some s ->
    nth s (optimized_access self) None = inner self !! a;
  pok_addresses : addresses self = dom (inner self);
  pok_short : all_short_addresses self = true -> forall a, is_Some (inner self !! a) -> is_Some (short_address a) }.

Lemma precompiles_ok_default : precompiles_ok Precompiles_default.
Proof.
  split; cbn -[replicate SHORT_ADDRESS_CAP].
  - by rewrite length_replicate.
  - intros a p Hp. by rewrite lookup_empty in Hp.
  - intros a s _ Hs%short_address_lt. rewrite lookup_empty, nth_lookup, lookup_replicate_2 by done. done.
  - by rewrite dom_empty_L.
  - intros _ a [p Hp]. by rewrite lookup_empty in Hp.
Qed.

Lemma nth_insert {A} (l : list A) i j x d :
  (i < length l)%nat -> nth j (<[i := x]> l) d = if decide (i = j) then x else nth j l d.
Proof.
  intros Hi. rewrite !nth_lookup. destruct (decide (i = j)) as [->|].
  - by rewrite list_lookup_insert_eq.
  - by rewrite list_lookup_insert_ne.
Qed.

Lemma precompiles_ok_one p self :
  in_range 160 (p_address p) -> precompiles_ok self -> precompiles_ok (Precompiles_extend [p] self).
Proof.
  intros Hp [Hl Hk Hc Ha Hs]. unfold Precompiles_extend. cbn [foldl]. unfold extend_short.
  destruct (short_address (p_address p)) as [sp|] eqn:Esp; split; cbn.
  - by rewrite length_insert.
  - intros a q Hq. apply lookup_insert_Some in Hq as [[<- <-]|[_ Hq]]; auto.
  - intros a s Hra Hsa. rewrite nth_insert by (rewrite Hl; by eapply short_address_lt).
    destruct (decide (sp = s)) as [->|Hne].
    + rewrite (short_address_inj _ _ _ Hra Hp Hsa Esp), lookup_insert_eq. done.
    + rewrite lookup_insert_ne by congruence. auto.
  - rewrite Ha. set_solver.
  - intros Hall a [q Hq]. apply lookup_insert_Some in Hq as [[<- _]|[_ Hq]]; [by eexists|]. apply Hs; [done|by eexists].
  - done.
  - intros a q Hq. apply lookup_insert_Some in Hq as [[<- <-]|[_ Hq]]; auto.
  - intros a s Hra Hsa. rewrite lookup_insert_ne by congruence. auto.
  - rewrite Ha. set_solver.
  - done.
Qed.

Lemma Precompiles_extend_cons p items self :
  Precompiles_extend (p :: items) self = Precompiles_extend items (Precompiles_extend [p] self).
Proof.
  unfold Precompiles_extend. cbn [foldl]. destruct (extend_short p _) as [o b]. cbn. reflexivity.
Qed.

Lemma Precompiles_extend_nil self : Precompiles_extend [] self = self.
Proof. by destruct self. Qed.

Lemma precompiles_ok_extend items self :
  Forall (fun p => in_range 160 (p_address p)) items -> precompiles_ok self ->
  precompiles_ok (Precompiles_extend items self).
Proof.
  intros Hi. revert self. induction Hi as [|p items Hp Hi IH]; intros self Hs.
  - by rewrite Precompiles_extend_nil.
  - rewrite Precompiles_extend_cons. by apply IH, precompiles_ok_one.
Qed.

(** The cache is transparent. *)
Lemma Precompiles_get_inner self a :
  precompiles_ok self -> in_range 160 a -> Precompiles_get self a = inner self !! a.
Proof.
  intros Hok Ha. unfold Precompiles_get. destruct (short_address a) eqn:Es; [|done]. by apply pok_cache.
Qed.

(** The precompile a list of items has for an address: the last one. *)
Definition last_at (a : Z) (items : list Precompile) : option Precompile :=
  last (filter (fun p => p_address p = a) items).

Lemma extend_inner items self a :
  inner (Precompiles_extend items self) !! a =
    match last_at a items with Some p => Some p | None => inner self !! a end.
Proof.
  revert self. induction items as [|p items IH]; intros self; [by rewrite Precompiles_extend_nil|].
  rewrite Precompiles_extend_cons, IH. unfold last_at.
  assert (inner (Precompiles_extend [p] self) = <[p_address p := p]> (inner self)) as ->.
  { unfold Precompiles_extend. by destruct (foldl _ _ [p]). }
  destruct (decide (p_address p = a)) as [Hpa|Hne].
  - rewrite (filter_cons_True (fun p => p_address p = a) p items Hpa), last_cons. subst a. destruct (last (filter _ items)); [done|].
    by rewrite lookup_insert_eq.
  - rewrite (filter_cons_False (fun p => p_address p = a) p items Hne). destruct (last _); [done|]. by rewrite lookup_insert_ne.
Qed.

(** Looking a precompile up is looking it up in the map: after any
    extension of a well-formed table, [get], which reads the vector of short
    addresses, answers with the last item of the extension at the address, or
    with what the table had, and the table stays well formed. *)
Theorem Precompiles_get_correct items self a :
  precompiles_ok self -> Forall (fun p => in_range 160 (p_address p)) items -> in_range 160 a ->
  precompiles_ok (Precompiles_extend items self) /\
  Precompiles_get (Precompiles_extend items self) a =
    match last_at a items with Some p => Some p | None => Precompiles_get self a end.
Proof.
  intros Hs Hi Ha. pose proof (precompiles_ok_extend _ _ Hi Hs) as Hok. split; [done|].
  by rewrite !Precompiles_get_inner, extend_inner.
Qed.

(** [get_mut] does not reach what [get] returns: an assignment through the
    reference that [get_mut] gives for a short address changes the map but not
    the vector [get] reads, so the old precompile keeps running. *)
Theorem Precompiles_get_mut_ignored self a p q :
  precompiles_ok self -> in_range 160 a -> is_Some (short_address a) -> inner self !! a = Some q ->
  let self' := Precompiles_set_through_get_mut a p self in
  inner self' !! a = Some p /\ Precompiles_get self' a = Some q.
Proof.
  intros Hok Ha [s Hs] Hq. unfold Precompiles_set_through_get_mut. rewrite Hq. cbn.
  split; [by rewrite lookup_insert_eq|]. unfold Precompiles_get. rewrite Hs. cbn.
  by rewrite (pok_cache _ Hok a s Ha Hs).
Qed.

(** * The tables *)

Section Tables.
Context `{Crypto}.

Ltac in_range_160 := unfold in_range, modulus; vm_compute; split; [discriminate|reflexivity].

Lemma precompiles_ok_new spec : precompiles_ok (Precompiles_new spec).
Proof.
  assert (forall items, Forall (fun p => in_range 160 (p_address p)) items -> forall self,
    precompiles_ok self -> precompiles_ok (Precompiles_extend items self)) as He
    by (intros; by apply precompiles_ok_extend).
  destruct spec; cbn [Precompiles_new]; unfold Precompiles_osaka, Precompiles_prague, Precompiles_cancun,
    Precompiles_berlin, Precompiles_istanbul, Precompiles_byzantium, Precompiles_homestead;
    repeat (apply He; [repeat apply Forall_cons_2; [in_range_160..|apply Forall_nil_2]|]); apply precompiles_ok_default.
Qed.

(** The precompiles of a table, one after the other. *)
Lemma Precompiles_new_get spec a p :
  in_range 160 a -> Precompiles_get (Precompiles_new spec) a = Some p ->
  p ∈ (map_to_list (inner (Precompiles_new spec))).*2 /\ p_address p = a.
Proof.
  intros Ha Hp. rewrite Precompiles_get_inner in Hp by (try done; apply precompiles_ok_new).
  split; [|by eapply pok_keys in Hp as [_ ?]; [|apply precompiles_ok_new]].
  apply list_elem_of_fmap. exists (a, p). split; [done|]. by apply elem_of_map_to_list.
Qed.

Definition table_items (spec : PrecompileSpecId) : list Precompile :=
  (map_to_list (inner (Precompiles_new spec))).*2.

(** A contract never reports more gas than its limit. *)
Definition contract_gas_ok (f : PrecompileFn) : Prop := forall input gas_limit out,
  Forall u8 input -> f input gas_limit = Ok out -> 0 <= gas_used out <= gas_limit.

(** Evaluates a table and leaves the contracts as they are. *)
Ltac table_compute :=
  cbv -[contract_gas_ok ec_recover_run sha256_run ripemd160_run identity_run modexp_byzantium_run modexp_berlin_run
    modexp_osaka_run bn254_run_add bn254_run_mul bn254_run_pair blake2_run kzg_run g1_add g1_msm g2_add
    g2_msm pairing map_fp_to_g1 map_fp2_to_g2 p256_verify p256_verify_osaka].

(** The tables agree with the identifiers: the precompile that the table of
    a fork holds at an address is the one its identifier names for that fork,
    so both give the same contract with the gas rules of the fork. *)
Theorem Precompiles_match_ids spec a p :
  in_range 160 a -> Precompiles_get (Precompiles_new spec) a = Some p ->
  PrecompileId_precompile (p_id p) spec = Some p.
Proof.
  intros Ha [Hin _]%Precompiles_new_get; [|done]. fold (table_items spec) in Hin.
  assert (Forall (fun p => PrecompileId_precompile (p_id p) spec = Some p) (table_items spec)) as Hall.
  { destruct spec; table_compute; repeat constructor. }
  by eapply list.Forall_forall in Hall.
Qed.
(** * Gas *)

(** Splits the branches of a contract; an accepted cost is below the limit. *)
Ltac contract_gas :=
  intros input gas_limit out Hin; repeat (case_match; try discriminate); intros [= <-]; boolify;
  cbn [gas_used PrecompileOutput_new].

Lemma contract_gas_ok_cost (cost : Z) (f : list Z -> Z -> PrecompileResult) :
  0 <= cost -> (forall input gl out, f input gl = Ok out -> gas_used out = cost /\ cost <= gl) -> contract_gas_ok f.
Proof. intros Hc Hf input gl out _ Ho. destruct (Hf _ _ _ Ho) as [-> ?]. lia. Qed.

Lemma wrapping_add_nonneg w x y : 0 <= w -> 0 <= wrapping_add w x y.
Proof. intros Hw. apply (wrapping_add_range w x y Hw). Qed.
Lemma wrapping_mul_nonneg w x y : 0 <= w -> 0 <= wrapping_mul w x y.
Proof. intros Hw. apply (wrapping_mul_range w x y Hw). Qed.

Lemma identity_gas : contract_gas_ok identity_run.
Proof. unfold identity_run. contract_gas. split; [by apply wrapping_add_nonneg|assumption]. Qed.
Lemma sha256_gas : contract_gas_ok sha256_run.
Proof. unfold sha256_run. contract_gas. split; [by apply wrapping_add_nonneg|assumption]. Qed.
Lemma ripemd160_gas : contract_gas_ok ripemd160_run.
Proof. unfold ripemd160_run. contract_gas. split; [by apply wrapping_add_nonneg|assumption]. Qed.
Lemma ec_recover_gas : contract_gas_ok ec_recover_run.
Proof. unfold ec_recover_run, ECRECOVER_BASE. contract_gas; lia. Qed.

Lemma gas_calc_nonneg mp mu d b e m h f : 0 <= mp -> 0 <= gas_calc mp mu d b e m h f.
Proof. unfold gas_calc. lia. Qed.
Lemma modexp_inner_gas osaka min_gas calc :
  (forall b e m h, 0 <= calc b e m h) -> contract_gas_ok (fun input gl => modexp_run_inner osaka input gl min_gas calc).
Proof.
  intros Hc. unfold modexp_run_inner. intros input gl out. cbv zeta.
  generalize (if in_rangeb 64 (from_be_bytes (right_pad_with_offset 32 input 32)) then
    from_be_bytes (right_pad_with_offset 32 input 32) else modulus 64 - 1). intros e. revert input gl out.
  contract_gas; (split; [apply Hc|assumption]).
Qed.

Lemma bn254_add_gas cost : 0 <= cost -> contract_gas_ok (bn254_run_add cost).
Proof. intros Hc. unfold bn254_run_add. contract_gas; lia. Qed.
Lemma bn254_mul_gas cost : 0 <= cost -> contract_gas_ok (bn254_run_mul cost).
Proof. intros Hc. unfold bn254_run_mul. contract_gas; lia. Qed.
Lemma bn254_pair_gas per base : contract_gas_ok (bn254_run_pair per base).
Proof. unfold bn254_run_pair. contract_gas. split; [by apply wrapping_add_nonneg|assumption]. Qed.

Lemma slice_u8 a b input : Forall u8 input -> Forall u8 (slice a b input).
Proof. intros Hi. by apply Forall_take, Forall_drop. Qed.
Lemma blake2_gas : contract_gas_ok blake2_run.
Proof.
  unfold blake2_run. contract_gas.
  pose proof (from_be_bytes_range (slice 0 4 input) (slice_u8 _ _ _ Hin)). unfold F_ROUND in *. lia.
Qed.
Lemma kzg_gas : contract_gas_ok kzg_run.
Proof. unfold kzg_run, KZG_GAS_COST. contract_gas; lia. Qed.
Lemma p256_gas cost : 0 <= cost -> contract_gas_ok (fun input gl => p256_verify_inner input gl cost).
Proof. intros Hc. unfold p256_verify_inner. contract_gas; lia. Qed.

Lemma msm_gas_nonneg k table cost : 0 <= msm_required_gas k table cost.
Proof.
  unfold msm_required_gas. case_if; [lia|]. apply Z.div_pos; [by apply wrapping_mul_nonneg|done].
Qed.
Lemma g1_add_gas : contract_gas_ok g1_add.
Proof. unfold g1_add, G1_ADD_BASE_GAS_FEE. contract_gas; lia. Qed.
Lemma g1_msm_gas : contract_gas_ok g1_msm.
Proof. unfold g1_msm. contract_gas; split; [apply msm_gas_nonneg|assumption]. Qed.
Lemma g2_add_gas : contract_gas_ok g2_add.
Proof. unfold g2_add, G2_ADD_BASE_GAS_FEE. contract_gas; lia. Qed.
Lemma g2_msm_gas : contract_gas_ok g2_msm.
Proof. unfold g2_msm. contract_gas; split; [apply msm_gas_nonneg|assumption]. Qed.
Lemma pairing_gas : contract_gas_ok pairing.
Proof. unfold pairing. contract_gas; (split; [by apply wrapping_add_nonneg|assumption]). Qed.
Lemma map_fp_gas : contract_gas_ok map_fp_to_g1.
Proof. unfold map_fp_to_g1, MAP_FP_TO_G1_BASE_GAS_FEE. contract_gas; lia. Qed.
Lemma map_fp2_gas : contract_gas_ok map_fp2_to_g2.
Proof. unfold map_fp2_to_g2, MAP_FP2_TO_G2_BASE_GAS_FEE. contract_gas; lia. Qed.

Lemma table_gas spec : Forall (fun p => contract_gas_ok (p_fn p)) (table_items spec).
Proof.
  assert (forall b e m h, 0 <= byzantium_gas_calc b e m h) as Hz by (intros; by apply gas_calc_nonneg).
  assert (forall b e m h, 0 <= berlin_gas_calc b e m h) as Hb by (intros; by apply gas_calc_nonneg).
  assert (forall b e m h, 0 <= osaka_gas_calc b e m h) as Ho by (intros; by apply gas_calc_nonneg).
  pose proof (modexp_inner_gas false 0 _ Hz). pose proof (modexp_inner_gas false 200 _ Hb).
  pose proof (modexp_inner_gas true 500 _ Ho). pose proof (p256_gas P256VERIFY_BASE_GAS_FEE_OSAKA ltac:(done)).
  destruct spec; table_compute; repeat apply Forall_cons_2; try apply Forall_nil_2;
    auto using identity_gas, sha256_gas, ripemd160_gas, ec_recover_gas, bn254_pair_gas, blake2_gas, kzg_gas,
      g1_add_gas, g1_msm_gas, g2_add_gas, g2_msm_gas, pairing_gas, map_fp_gas, map_fp2_gas;
    solve [by apply bn254_add_gas | by apply bn254_mul_gas].
Qed.

(** C38: no precompile of any fork reports more gas than it was given, for any
    input and any behaviour of the cryptographic libraries, so that charging
    for it ([EthPrecompiles::run]) cannot underflow. *)
Theorem precompile_gas_bounded spec a p input gas_limit out :
  in_range 160 a -> Precompiles_get (Precompiles_new spec) a = Some p -> Forall u8 input ->
  Precompile_execute p input gas_limit = Ok out -> 0 <= gas_used out <= gas_limit.
Proof.
  intros Ha [Hin _]%Precompiles_new_get Hi Hx; [|done].
  by apply (proj1 (list.Forall_forall _ _) (table_gas spec) p Hin input).
Qed.
End Tables.

(** * Padding of curve points *)

Lemma slice_mid a b l1 l2 l3 :
  a = length l1 -> b = (length l1 + length l2)%nat -> slice a b (l1 ++ l2 ++ l3) = l2.
Proof.
  intros -> ->. unfold slice. rewrite drop_app_length, take_app_length' by lia. done.
Qed.

Lemma remove_fp_padding_pad x :
  length x = FP_LENGTH -> remove_fp_padding (replicate FP_PAD_BY 0 ++ x) = Ok x.
Proof.
  intros Hx. unfold remove_fp_padding. rewrite length_app, Hx. reflexivity.
Qed.

Lemma slices2 (n : nat) x y :
  length x = n -> length y = n ->
  slice (0 * n) ((0 + 1) * n) (x ++ y) = x /\ slice (1 * n) ((1 + 1) * n) (x ++ y) = y.
Proof.
  intros Hx Hy. split; [apply (slice_mid _ _ [] x); cbn; lia|].
  rewrite <- (app_nil_r (x ++ y)), <- app_assoc. apply slice_mid; lia.
Qed.

(** Four field elements side by side, each cut out again. *)
Lemma slices4 (n : nat) x0 x1 y0 y1 :
  length x0 = n -> length x1 = n -> length y0 = n -> length y1 = n ->
  let p := x0 ++ x1 ++ y0 ++ y1 in
  slice (0 * n) ((0 + 1) * n) p = x0 /\ slice (1 * n) ((1 + 1) * n) p = x1 /\
  slice (2 * n) ((2 + 1) * n) p = y0 /\ slice (3 * n) ((3 + 1) * n) p = y1.
Proof.
  intros H0 H1 H2 H3 p. unfold p. split_and!.
  - apply (slice_mid _ _ [] x0); cbn; lia.
  - apply (slice_mid _ _ x0 x1); lia.
  - rewrite (app_assoc x0). apply slice_mid; rewrite length_app; lia.
  - replace (x0 ++ x1 ++ y0 ++ y1) with ((x0 ++ x1 ++ y0) ++ y1 ++ []) by (by rewrite app_nil_r, <- !app_assoc).
    apply slice_mid; rewrite !length_app; lia.
Qed.

(** Unpadding undoes padding: the encoding of a BLS12-381 point of [G1] or
    [G2] that a contract returns is accepted as an input of the next contract
    and read as the same coordinates. *)
Theorem bls_padding_roundtrip x0 x1 y0 y1 :
  length x0 = FP_LENGTH -> length x1 = FP_LENGTH -> length y0 = FP_LENGTH -> length y1 = FP_LENGTH ->
  remove_g1_padding (pad_g1_point (x0 ++ x1)) = Ok (x0, x1) /\
  remove_g2_padding (pad_g2_point (x0 ++ x1 ++ y0 ++ y1)) = Ok (x0, x1, y0, y1).
Proof.
  intros H0 H1 H2 H3. set (z := replicate FP_PAD_BY 0).
  assert (forall x, length x = FP_LENGTH -> length (z ++ x) = PADDED_FP_LENGTH) as Hz
    by (intros x Hx; rewrite length_app, Hx; reflexivity).
  destruct (slices4 FP_LENGTH x0 x1 y0 y1 H0 H1 H2 H3) as (S0 & S1 & S2 & S3).
  destruct (slices4 PADDED_FP_LENGTH (z ++ x0) (z ++ x1) (z ++ y0) (z ++ y1)) as (R0 & R1 & R2 & R3); auto.
  destruct (slices2 FP_LENGTH x0 x1 H0 H1) as [T0 T1].
  destruct (slices2 PADDED_FP_LENGTH (z ++ x0) (z ++ x1)) as [Q0 Q1]; auto.
  split.
  - unfold pad_g1_point, pad_point. cbn [seq fmap list_fmap concat]. rewrite app_nil_r. fold z.
    rewrite T0, T1. unfold remove_g1_padding. rewrite !length_app, H0, H1. cbn [negb].
    change (take PADDED_FP_LENGTH ?l) with (slice (0 * PADDED_FP_LENGTH) ((0 + 1) * PADDED_FP_LENGTH) l).
    change (slice PADDED_FP_LENGTH PADDED_G1_LENGTH) with (slice (1 * PADDED_FP_LENGTH) ((1 + 1) * PADDED_FP_LENGTH)).
    rewrite Q0, Q1. unfold z. by rewrite !remove_fp_padding_pad.
  - unfold pad_g2_point, pad_point. cbn [seq fmap list_fmap concat]. rewrite app_nil_r. fold z.
    rewrite S0, S1, S2, S3. unfold remove_g2_padding. rewrite !length_app, H0, H1, H2, H3. cbn [negb].
    rewrite R0, R1, R2, R3. unfold z. by rewrite !remove_fp_padding_pad.
Qed.

(** * Concrete tables *)

Module Tables.
(** A provider that recovers nothing and verifies nothing. *)
#[local] Instance null_crypto : Crypto := {|
  c_sha256 _ := replicate 32 0; c_ripemd160 _ := replicate 32 0;
  c_bn254_g1_add _ _ := Err Bn254FieldPointNotAMember; c_bn254_g1_mul _ _ := Err Bn254FieldPointNotAMember;
  c_bn254_pairing_check _ := Ok false; c_secp256k1_ecrecover _ _ _ := Err Secp256k1RecoverFailed;
  c_modexp _ _ m := Ok m; c_blake2_compress _ h _ _ _ := h; c_secp256r1_verify_signature _ _ _ := false;
  c_verify_kzg_proof _ _ _ _ := Err BlobVerifyKzgProofFailed;
  c_bls12_381_g1_add _ _ := Err Bls12381G1NotOnCurve; c_bls12_381_g1_msm _ := Err Bls12381G1NotOnCurve;
  c_bls12_381_g2_add _ _ := Err Bls12381G2NotOnCurve; c_bls12_381_g2_msm _ := Err Bls12381G2NotOnCurve;
  c_bls12_381_pairing_check _ := Ok true; c_bls12_381_fp_to_g1 _ := Err NonCanonicalFp;
  c_bls12_381_fp2_to_g2 _ := Err NonCanonicalFp |}.

Definition custom (a : Z) : Precompile := mkPrecompile (PId_Custom "test") a (fun _ _ => Err PE_OutOfGas).

Ltac range160 := unfold custom, in_range, modulus; cbn [p_address]; lia.

(** As in the unit test [test_optimized_access]: an address below the cap and
    one above it. *)
Lemma Precompiles_get_correct_witness :
  let self := Precompiles_extend [custom 101; custom 500] Precompiles_istanbul in
  Precompiles_get self 101 = Some (custom 101) /\ Precompiles_get self 500 = Some (custom 500).
Proof.
  intros self.
  destruct (Precompiles_get_correct [custom 101; custom 500] Precompiles_istanbul 101) as [_ H1];
    [exact (precompiles_ok_new PS_ISTANBUL)|repeat apply Forall_cons_2; [range160..|apply Forall_nil_2]|range160|].
  destruct (Precompiles_get_correct [custom 101; custom 500] Precompiles_istanbul 500) as [_ H2];
    [exact (precompiles_ok_new PS_ISTANBUL)|repeat apply Forall_cons_2; [range160..|apply Forall_nil_2]|range160|].
  split; [exact H1|exact H2].
Defined.

Lemma Precompiles_get_mut_ignored_witness :
  let self' := Precompiles_set_through_get_mut 4 (custom 4) Precompiles_homestead in
  inner self' !! 4 = Some (custom 4) /\ Precompiles_get self' 4 = Some identity_FUN.
Proof.
  apply (Precompiles_get_mut_ignored Precompiles_homestead 4 (custom 4) identity_FUN);
    [exact (precompiles_ok_new PS_HOMESTEAD)|range160|vm_compute; eexists; reflexivity|reflexivity].
Defined.

Lemma Precompiles_match_ids_witness :
  Precompiles_get (Precompiles_new PS_OSAKA) 5 = Some modexp_OSAKA /\
  PrecompileId_precompile ModExp PS_OSAKA = Some modexp_OSAKA.
Proof.
  split; [reflexivity|]. apply (Precompiles_match_ids PS_OSAKA 5 modexp_OSAKA); [range160|reflexivity].
Defined.

(** Three words through the identity contract cost 18 + 3 gas of 100. *)
Lemma precompile_gas_bounded_witness :
  Precompile_execute identity_FUN (replicate 33 7) 100 = Ok (PrecompileOutput_new 21 (replicate 33 7)) /\
  0 <= 21 <= 100.
Proof.
  split; [reflexivity|].
  apply (precompile_gas_bounded PS_CANCUN 4 identity_FUN (replicate 33 7) 100 (PrecompileOutput_new 21 (replicate 33 7)));
    [range160|reflexivity|apply Forall_replicate; unfold in_range, modulus; lia|reflexivity].
Defined.

Lemma bls_padding_roundtrip_witness :
  let x := replicate FP_LENGTH 9 in
  remove_g1_padding (pad_g1_point (x ++ x)) = Ok (x, x) /\
  remove_g2_padding (pad_g2_point (x ++ x ++ x ++ x)) = Ok (x, x, x, x).
Proof. intros x. apply (bls_padding_roundtrip x x x x); reflexivity. Defined.
End Tables.
