(* ===== verification/JournalEntry.v ===== *)
(** Journal entries and journaled accounts of
    [crates/context/interface/src/journaled_state/entry.rs] and [account.rs],
    with the load and transfer types of [journaled_state.rs] and [context.rs].

    [get_mut(&address).unwrap()] panics when the account is not loaded, so
    [JournalEntry_revert] returns an [option].  [U256]'s [+=] and [-=] wrap;
    the [u64] decrement of a nonce is modelled wrapping, as in a release
    build. *)
From S2P Require Import Prelude Hardfork Bytecode State Database.
From stdpp Require Import base numbers list option tactics gmap.
From Stdlib Require Import ZArith Lia.

Local Open Scope Z_scope.

Abbreviation EvmState := (gmap Z Account).
Abbreviation TransientStorage := (gmap (Z * Z) Z).

(** * Results of loads and transfers *)

Inductive JournalLoadError (E : Type) : Type :=
| DBError (e : E)
| ColdLoadSkipped.
Arguments DBError {E} e.
Arguments ColdLoadSkipped {E}.

(** [map_err(JournalLoadError::unwrap_db_error)]: panics on a skipped load. *)
Definition JournalLoadError_unwrap_db_error {A E} (r : result A (JournalLoadError E))
    : option (result A E) :=
  match r with
  | Ok a => Some (Ok a)
  | Err (DBError e) => Some (Err e)
  | Err ColdLoadSkipped => None
  end.

Inductive TransferError : Type := OutOfFunds | OverflowPayment | CreateCollision.

Record JournalCheckpoint := mkJournalCheckpoint { log_i : nat; journal_i : nat }.

Record StateLoad (T : Type) := mkStateLoad { data : T; load_is_cold : bool }.
Arguments mkStateLoad {T} data load_is_cold.
Arguments data {T} s.
Arguments load_is_cold {T} s.

Definition StateLoad_map {A B} (f : A -> B) (self : StateLoad A) : StateLoad B :=
  mkStateLoad (f (data self)) (load_is_cold self).

Record AccountLoad := mkAccountLoad { is_delegate_account_cold : option bool; load_is_empty : bool }.

Record SStoreResult := mkSStoreResult {
  sstore_original_value : Z; sstore_present_value : Z; sstore_new_value : Z }.
Definition SStoreResult_is_new_eq_present (self : SStoreResult) : bool :=
  sstore_new_value self =? sstore_present_value self.
Definition SStoreResult_is_original_eq_present (self : SStoreResult) : bool :=
  sstore_original_value self =? sstore_present_value self.
Definition SStoreResult_is_original_eq_new (self : SStoreResult) : bool :=
  sstore_original_value self =? sstore_new_value self.
Definition SStoreResult_is_original_zero (self : SStoreResult) : bool := sstore_original_value self =? 0.
Definition SStoreResult_is_present_zero (self : SStoreResult) : bool := sstore_present_value self =? 0.
Definition SStoreResult_is_new_zero (self : SStoreResult) : bool := sstore_new_value self =? 0.

Record SelfDestructResult := mkSelfDestructResult {
  had_value : bool; target_exists : bool; previously_destroyed : bool }.

(** * Journal entries *)

Inductive SelfdestructionRevertStatus : Type :=
| GloballySelfdestroyed
| LocallySelfdestroyed
| RepeatedSelfdestruction.

#[global] Instance SelfdestructionRevertStatus_eq_dec : EqDecision SelfdestructionRevertStatus.
Proof. solve_decision. Defined.

Inductive JournalEntry : Type :=
| AccountWarmed (address : Z)
| AccountDestroyed (had_balance address target : Z) (destroyed_status : SelfdestructionRevertStatus)
| AccountTouched (address : Z)
| BalanceChange (old_balance address : Z)
| BalanceTransfer (transferred from to : Z)
| NonceChange (address : Z)
| AccountCreated (address : Z) (is_created_globally : bool)
| StorageChanged (key had_value address : Z)
| StorageWarmed (key address : Z)
| TransientStorageChange (key had_value address : Z)
| CodeChange (address : Z).

Definition PRECOMPILE3 : Z := 3.

(** [f] applied to the account behind [state.get_mut(&address).unwrap()]. *)
Definition with_account (address : Z) (f : Account -> Account) (state : EvmState) : option EvmState :=
  let? account := state !! address in Some (<[address := f account]> state).

(** [f] applied to the slot behind [.storage.get_mut(&key).unwrap()]. *)
Definition with_slot (address key : Z) (f : EvmStorageSlot -> EvmStorageSlot) (state : EvmState)
    : option EvmState :=
  let? account := state !! address in
  let? slot := storage account !! key in
  Some (<[address := assign_storage (<[key := f slot]> (storage account)) account]> state).

Definition add_balance (v : Z) (account : Account) : Account :=
  assign_balance (wrapping_add 256 (balance (info account)) v) account.
Definition sub_balance (v : Z) (account : Account) : Account :=
  assign_balance (wrapping_sub 256 (balance (info account)) v) account.

Definition revert_destroyed_status (s : SelfdestructionRevertStatus) (account : Account) : Account :=
  match s with
  | GloballySelfdestroyed =>
      Account_unmark_selfdestructed_locally (Account_unmark_selfdestruct account)
  | LocallySelfdestroyed => Account_unmark_selfdestructed_locally account
  | RepeatedSelfdestruction => account
  end.

Definition revert_account_created (is_created_globally : bool) (account : Account) : Account :=
  let account := Account_unmark_created_locally account in
  let account := if is_created_globally then Account_unmark_created account else account in
  assign_nonce 0 account.

Definition assign_code_and_hash (hash : Z) (c : option Bytecode) (account : Account) : Account :=
  let i := info account in
  assign_info (mkAccountInfo (balance i) (nonce i) hash (storage_id i) c) account.

(** The effect of an entry on the transient storage, when one is passed. *)
Definition revert_transient (e : JournalEntry) (ts : TransientStorage) : TransientStorage :=
  match e with
  | TransientStorageChange key had_value address =>
      if had_value =? 0 then delete (address, key) ts else <[(address, key) := had_value]> ts
  | _ => ts
  end.

(** The effect of an entry on the accounts. *)
Definition revert_state (e : JournalEntry) (is_spurious_dragon_enabled : bool)
    (state : EvmState) : option EvmState :=
  match e with
  | AccountWarmed address => with_account address Account_mark_cold state
  | AccountTouched address =>
      if is_spurious_dragon_enabled && (address =? PRECOMPILE3) then Some state
      else with_account address Account_unmark_touch state
  | AccountDestroyed had_balance address target destroyed_status =>
      let? state := with_account address
        (fun account => add_balance had_balance (revert_destroyed_status destroyed_status account)) state in
      if negb (address =? target) then with_account target (sub_balance had_balance) state
      else Some state
  | BalanceChange old_balance address => with_account address (assign_balance old_balance) state
  | BalanceTransfer transferred from to =>
      let? state := with_account from (add_balance transferred) state in
      with_account to (sub_balance transferred) state
  | NonceChange address =>
      with_account address (fun a => assign_nonce (wrapping_sub 64 (nonce (info a)) 1) a) state
  | AccountCreated address is_created_globally =>
      with_account address (revert_account_created is_created_globally) state
  | StorageWarmed key address => with_slot address key EvmStorageSlot_mark_cold state
  | StorageChanged key had_value address => with_slot address key (assign_present_value had_value) state
  | TransientStorageChange _ _ _ => Some state
  | CodeChange address => with_account address (assign_code_and_hash KECCAK_EMPTY None) state
  end.

(** [JournalEntry::revert]; the two borrows it takes are returned updated. *)
Definition JournalEntry_revert (self : JournalEntry) (state : EvmState)
    (transient_storage : option TransientStorage) (is_spurious_dragon_enabled : bool)
    : option (EvmState * option TransientStorage) :=
  let? state := revert_state self is_spurious_dragon_enabled state in
  Some (state, revert_transient self <$> transient_storage).

(** [entries.drain(i..).rev().for_each(|entry| entry.revert(..))]: the last
    entry is reverted first. *)
Fixpoint revert_all (entries : list JournalEntry) (state : EvmState)
    (transient_storage : option TransientStorage) (is_spurious_dragon_enabled : bool)
    : option (EvmState * option TransientStorage) :=
  match entries with
  | [] => Some (state, transient_storage)
  | e :: entries =>
      let? (state, transient_storage) :=
        revert_all entries state transient_storage is_spurious_dragon_enabled in
      JournalEntry_revert e state transient_storage is_spurious_dragon_enabled
  end.

(** * Journaled accounts

    [JournaledAccount] borrows the account and the entry list; the model keeps
    both by value and the journal writes them back ([write_back]) when the
    borrow ends. *)

Record JournaledAccount := mkJournaledAccount {
  ja_address : Z; ja_account : Account; ja_journal_entries : list JournalEntry }.

Section JournaledAccount.
Context `{BitVec, Keccak}.

Definition ja_set (account : Account) (self : JournaledAccount) : JournaledAccount :=
  mkJournaledAccount (ja_address self) account (ja_journal_entries self).
Definition ja_push (e : JournalEntry) (self : JournaledAccount) : JournaledAccount :=
  mkJournaledAccount (ja_address self) (ja_account self) (ja_journal_entries self ++ [e]).

Definition JournaledAccount_touch (self : JournaledAccount) : JournaledAccount :=
  if negb (Account_is_touched (ja_account self)) then
    ja_push (AccountTouched (ja_address self)) (ja_set (Account_mark_touch (ja_account self)) self)
  else self.

Definition JournaledAccount_set_balance (bal : Z) (self : JournaledAccount) : JournaledAccount :=
  let self := JournaledAccount_touch self in
  let old := balance (info (ja_account self)) in
  if negb (old =? bal) then
    ja_set (assign_balance bal (ja_account self)) (ja_push (BalanceChange old (ja_address self)) self)
  else self.

Definition JournaledAccount_incr_balance (bal : Z) (self : JournaledAccount) : bool * JournaledAccount :=
  let self := JournaledAccount_touch self in
  match checked_add 256 (balance (info (ja_account self))) bal with
  | None => (false, self)
  | Some bal => (true, JournaledAccount_set_balance bal self)
  end.

Definition JournaledAccount_decr_balance (bal : Z) (self : JournaledAccount) : bool * JournaledAccount :=
  let self := JournaledAccount_touch self in
  match checked_sub (balance (info (ja_account self))) bal with
  | None => (false, self)
  | Some bal => (true, JournaledAccount_set_balance bal self)
  end.

Definition JournaledAccount_bump_nonce (self : JournaledAccount) : bool * JournaledAccount :=
  let self := JournaledAccount_touch self in
  match checked_add 64 (nonce (info (ja_account self))) 1 with
  | None => (false, self)
  | Some non =>
      (true, ja_push (NonceChange (ja_address self)) (ja_set (assign_nonce non (ja_account self)) self))
  end.

Definition JournaledAccount_set_code (hash : Z) (c : Bytecode) (self : JournaledAccount)
    : JournaledAccount :=
  let self := JournaledAccount_touch self in
  let i := AccountInfo_set_code_hash hash (info (ja_account self)) in
  let i := AccountInfo_set_code c i in
  ja_push (CodeChange (ja_address self)) (ja_set (assign_info i (ja_account self)) self).

Definition JournaledAccount_set_code_and_hash_slow (c : Bytecode) (self : JournaledAccount)
    : JournaledAccount :=
  JournaledAccount_set_code (Bytecode_hash_slow c) c self.

Definition JournaledAccount_delegate (address : Z) (self : JournaledAccount) : JournaledAccount :=
  let '(bytecode, hash) :=
    if address =? 0 then (Bytecode_default, KECCAK_EMPTY)
    else let bytecode := Bytecode_new_eip7702 address in (bytecode, Bytecode_hash_slow bytecode) in
  let self := JournaledAccount_touch self in
  let self := JournaledAccount_set_code hash bytecode self in
  (JournaledAccount_bump_nonce self).2.
End JournaledAccount.
