(* ===== verification/JournalInner.v ===== *)
(** The journal of [crates/context/src/journal/inner.rs]: the loaded state of
    a transaction, the entries that undo its changes, and every operation of
    [JournalInner].

    An operation that may [unwrap] a missing account returns an [option],
    [None] being the panic.  An operation that reads the database takes and
    returns it, and returns its error as a [result], together with the journal
    as the code leaves it on that error. *)
From S2P Require Import Prelude Hardfork Bytecode State Database WarmAddresses JournalEntry.
From stdpp Require Import base numbers list option tactics gmap.
From Stdlib Require Import ZArith Lia.

Local Open Scope Z_scope.

Record Log := mkLog { log_address : Z; log_topics : list Z; log_data : list Z }.

Record JournalInner := mkJournalInner {
  j_state : EvmState;
  j_transient_storage : TransientStorage;
  j_logs : list Log;
  j_depth : nat;
  j_journal : list JournalEntry;
  j_transaction_id : nat;
  j_spec : SpecId;
  j_warm_addresses : WarmAddresses }.

(** Assignments to a field. *)
Definition set_state (s : EvmState) (j : JournalInner) : JournalInner :=
  mkJournalInner s (j_transient_storage j) (j_logs j) (j_depth j) (j_journal j)
    (j_transaction_id j) (j_spec j) (j_warm_addresses j).
Definition set_transient (t : TransientStorage) (j : JournalInner) : JournalInner :=
  mkJournalInner (j_state j) t (j_logs j) (j_depth j) (j_journal j)
    (j_transaction_id j) (j_spec j) (j_warm_addresses j).
Definition set_logs (l : list Log) (j : JournalInner) : JournalInner :=
  mkJournalInner (j_state j) (j_transient_storage j) l (j_depth j) (j_journal j)
    (j_transaction_id j) (j_spec j) (j_warm_addresses j).
Definition set_depth (d : nat) (j : JournalInner) : JournalInner :=
  mkJournalInner (j_state j) (j_transient_storage j) (j_logs j) d (j_journal j)
    (j_transaction_id j) (j_spec j) (j_warm_addresses j).
Definition set_journal (es : list JournalEntry) (j : JournalInner) : JournalInner :=
  mkJournalInner (j_state j) (j_transient_storage j) (j_logs j) (j_depth j) es
    (j_transaction_id j) (j_spec j) (j_warm_addresses j).
Definition set_warm_addresses (w : WarmAddresses) (j : JournalInner) : JournalInner :=
  mkJournalInner (j_state j) (j_transient_storage j) (j_logs j) (j_depth j) (j_journal j)
    (j_transaction_id j) (j_spec j) w.
(** [self.journal.push(e)] and a write through [self.state.get_mut]. *)
Definition push_entry (e : JournalEntry) (j : JournalInner) : JournalInner :=
  set_journal (j_journal j ++ [e]) j.
Definition put_account (address : Z) (account : Account) (j : JournalInner) : JournalInner :=
  set_state (<[address := account]> (j_state j)) j.
(** The end of the borrow of a [JournaledAccount]. *)
Definition write_back (ja : JournaledAccount) (j : JournalInner) : JournalInner :=
  set_journal (ja_journal_entries ja) (put_account (ja_address ja) (ja_account ja) j).

Definition JournalInner_new : JournalInner :=
  mkJournalInner ∅ ∅ [] 0 [] 0 SpecId_default WarmAddresses_new.

Definition JournalInner_take_logs (j : JournalInner) : list Log * JournalInner :=
  (j_logs j, set_logs [] j).

Definition JournalInner_commit_tx (j : JournalInner) : JournalInner :=
  mkJournalInner (j_state j) ∅ [] 0 [] (j_transaction_id j + 1) (j_spec j)
    (WarmAddresses_clear_coinbase_and_access_list (j_warm_addresses j)).

Definition is_spurious_dragon_enabled (j : JournalInner) : bool :=
  SpecId_is_enabled_in (j_spec j) SPURIOUS_DRAGON.

Definition JournalInner_discard_tx (j : JournalInner) : option JournalInner :=
  let? (state, _) := revert_all (j_journal j) (j_state j) None (is_spurious_dragon_enabled j) in
  Some (mkJournalInner state ∅ [] 0 [] (j_transaction_id j + 1) (j_spec j)
    (WarmAddresses_clear_coinbase_and_access_list (j_warm_addresses j))).

Definition JournalInner_finalize (j : JournalInner) : EvmState * JournalInner :=
  (j_state j, mkJournalInner ∅ ∅ [] 0 [] 0 (j_spec j)
    (WarmAddresses_clear_coinbase_and_access_list (j_warm_addresses j))).

Definition JournalInner_set_spec_id (spec : SpecId) (j : JournalInner) : JournalInner :=
  mkJournalInner (j_state j) (j_transient_storage j) (j_logs j) (j_depth j) (j_journal j)
    (j_transaction_id j) spec (j_warm_addresses j).

(** * Touching, code and balances *)

Definition JournalInner_touch_account (address : Z) (account : Account) (j : JournalInner)
    : JournalInner :=
  if negb (Account_is_touched account) then
    put_account address (Account_mark_touch account) (push_entry (AccountTouched address) j)
  else j.

Definition JournalInner_touch (address : Z) (j : JournalInner) : JournalInner :=
  match j_state j !! address with
  | Some account => JournalInner_touch_account address account j
  | None => j
  end.

(** The account behind [self.state.get_mut(&address).unwrap()], touched: the
    updated journal and the account as it is now. *)
Definition touch_loaded (address : Z) (j : JournalInner) : option (Account * JournalInner) :=
  let? account := j_state j !! address in
  let j := JournalInner_touch_account address account j in
  let? account := j_state j !! address in
  Some (account, j).

Definition JournalInner_account (address : Z) (j : JournalInner) : option Account :=
  j_state j !! address.

Section Ops.
Context `{BitVec, Keccak}.

Definition JournalInner_set_code_with_hash (address : Z) (c : Bytecode) (hash : Z) (j : JournalInner)
    : option JournalInner :=
  let? (account, j) := touch_loaded address j in
  let j := push_entry (CodeChange address) j in
  Some (put_account address (assign_code_and_hash hash (Some c) account) j).

Definition JournalInner_set_code (address : Z) (c : Bytecode) (j : JournalInner) : option JournalInner :=
  match c with
  | Eip7702 eip7702_bytecode =>
      if delegated_address eip7702_bytecode =? 0 then
        JournalInner_set_code_with_hash address Bytecode_default KECCAK_EMPTY j
      else JournalInner_set_code_with_hash address c (Bytecode_hash_slow c) j
  | _ => JournalInner_set_code_with_hash address c (Bytecode_hash_slow c) j
  end.

Definition JournalInner_caller_accounting_journal_entry (address old_balance : Z) (bump_nonce : bool)
    (j : JournalInner) : JournalInner :=
  let j := push_entry (BalanceChange old_balance address) j in
  let j := push_entry (AccountTouched address) j in
  if bump_nonce then push_entry (NonceChange address) j else j.

Definition JournalInner_nonce_bump_journal_entry (address : Z) (j : JournalInner) : JournalInner :=
  push_entry (NonceChange address) j.

(** The returned [Option<TransferError>] with the journal it leaves. *)
Definition JournalInner_transfer_loaded (from to bal : Z) (j : JournalInner)
    : option (option TransferError * JournalInner) :=
  if from =? to then
    let? account := j_state j !! to in
    if balance (info account) <? bal then Some (Some OutOfFunds, j) else Some (None, j)
  else if bal =? 0 then
    let? (_, j) := touch_loaded to j in Some (None, j)
  else
    let? (from_account, j) := touch_loaded from j in
    match checked_sub (balance (info from_account)) bal with
    | None => Some (Some OutOfFunds, j)
    | Some from_balance_decr =>
        let j := put_account from (assign_balance from_balance_decr from_account) j in
        let? (to_account, j) := touch_loaded to j in
        match checked_add 256 (balance (info to_account)) bal with
        | None => Some (Some OverflowPayment, j)
        | Some to_balance_incr =>
            let j := put_account to (assign_balance to_balance_incr to_account) j in
            Some (None, push_entry (BalanceTransfer bal from to) j)
        end
    end.

(** * Checkpoints *)

Definition JournalInner_checkpoint (j : JournalInner) : JournalCheckpoint * JournalInner :=
  (mkJournalCheckpoint (length (j_logs j)) (length (j_journal j)), set_depth (j_depth j + 1) j).

Definition JournalInner_checkpoint_commit (j : JournalInner) : JournalInner :=
  set_depth (j_depth j - 1) j.

Definition JournalInner_checkpoint_revert (checkpoint : JournalCheckpoint) (j : JournalInner)
    : option JournalInner :=
  let j := set_depth (j_depth j - 1) j in
  let j := set_logs (take (log_i checkpoint) (j_logs j)) j in
  if (journal_i checkpoint <? length (j_journal j))%nat then
    let? (state, transient) :=
      revert_all (drop (journal_i checkpoint) (j_journal j)) (j_state j)
        (Some (j_transient_storage j)) (is_spurious_dragon_enabled j) in
    let? transient := transient in
    Some (set_journal (take (journal_i checkpoint) (j_journal j))
            (set_transient transient (set_state state j)))
  else Some j.

Definition JournalInner_create_account_checkpoint (caller target_address bal : Z) (spec_id : SpecId)
    (j : JournalInner) : option (result JournalCheckpoint TransferError * JournalInner) :=
  let '(checkpoint, j) := JournalInner_checkpoint j in
  let? target_acc := j_state j !! target_address in
  if negb (code_hash (info target_acc) =? KECCAK_EMPTY) || negb (nonce (info target_acc) =? 0) then
    let? j := JournalInner_checkpoint_revert checkpoint j in Some (Err CreateCollision, j)
  else
    let '(target_acc, is_created_globally) := Account_mark_created_locally target_acc in
    let j := push_entry (AccountCreated target_address is_created_globally) j in
    let target_acc := assign_info (assign_code None (info target_acc)) target_acc in
    let target_acc :=
      if SpecId_is_enabled_in spec_id SPURIOUS_DRAGON then assign_nonce 1 target_acc else target_acc in
    let j := put_account target_address target_acc j in
    let? (target_acc, j) := touch_loaded target_address j in
    match checked_add 256 (balance (info target_acc)) bal with
    | None => let? j := JournalInner_checkpoint_revert checkpoint j in Some (Err OverflowPayment, j)
    | Some new_balance =>
        let j := put_account target_address (assign_balance new_balance target_acc) j in
        let? caller_account := j_state j !! caller in
        let j := put_account caller (sub_balance bal caller_account) j in
        Some (Ok checkpoint, push_entry (BalanceTransfer bal caller target_address) j)
    end.

(** * Loads *)

Context {DB E : Type} `{!Database DB E}.

(** A cold account of an earlier transaction entering this one: warmed,
    cleared when it was destroyed there, its original info refreshed. *)
Definition warm_stale_account (transaction_id : nat) (account : Account) : Account :=
  let account := (Account_mark_warm_with_transaction_id account transaction_id).1 in
  let account :=
    if Account_is_selfdestructed_locally account
    then Account_unmark_selfdestructed_locally (Account_selfdestruct account) else account in
  Account_unmark_created_locally (assign_original_info (info account) account).

Definition JournalInner_load_account_mut_optional_code (address : Z) (load_code skip_cold_load : bool)
    (j : JournalInner) (db : DB)
    : result (StateLoad JournaledAccount) (JournalLoadError E) * JournalInner * DB :=
  let should_be_cold := WarmAddresses_is_cold (j_warm_addresses j) address in
  let load : result (StateLoad Account) (JournalLoadError E) * DB :=
    match j_state j !! address with
    | Some account =>
        if Account_is_cold_transaction_id account (j_transaction_id j) then
          if should_be_cold && skip_cold_load then (Err ColdLoadSkipped, db)
          else (Ok (mkStateLoad (warm_stale_account (j_transaction_id j) account) should_be_cold), db)
        else (Ok (mkStateLoad account false), db)
    | None =>
        if should_be_cold && skip_cold_load then (Err ColdLoadSkipped, db)
        else match db_basic db address with
        | (Ok (Some i), db) => (Ok (mkStateLoad (Account_from i) should_be_cold), db)
        | (Ok None, db) =>
            (Ok (mkStateLoad (Account_new_not_existing (j_transaction_id j)) should_be_cold), db)
        | (Err e, db) => (Err (DBError e), db)
        end
    end in
  match load with
  | (Err e, db) => (Err e, j, db)
  | (Ok load, db) =>
      let j := put_account address (data load) j in
      let j := if load_is_cold load then push_entry (AccountWarmed address) j else j in
      let account := data load in
      let done account j db :=
        (Ok (mkStateLoad (mkJournaledAccount address account (j_journal j)) (load_is_cold load)), j, db) in
      if load_code && negb (bool_decide (is_Some (code (info account)))) then
        if code_hash (info account) =? KECCAK_EMPTY then
          let account := assign_info (assign_code (Some Bytecode_default) (info account)) account in
          done account (put_account address account j) db
        else match db_code_by_hash db (code_hash (info account)) with
        | (Ok c, db) =>
            let account := assign_info (assign_code (Some c) (info account)) account in
            done account (put_account address account j) db
        | (Err e, db) => (Err (DBError e), j, db)
        end
      else done account j db
  end.

Definition JournalInner_load_account_optional (address : Z) (load_code skip_cold_load : bool)
    (j : JournalInner) (db : DB) : result (StateLoad Account) (JournalLoadError E) * JournalInner * DB :=
  match JournalInner_load_account_mut_optional_code address load_code skip_cold_load j db with
  | (Ok load, j, db) => (Ok (StateLoad_map ja_account load), j, db)
  | (Err e, j, db) => (Err e, j, db)
  end.

Definition JournalInner_load_account_mut (address : Z) (j : JournalInner) (db : DB)
    : option (result (StateLoad JournaledAccount) E * JournalInner * DB) :=
  let '(r, j, db) := JournalInner_load_account_mut_optional_code address false false j db in
  let? r := JournalLoadError_unwrap_db_error r in Some (r, j, db).

Definition JournalInner_load_account (address : Z) (j : JournalInner) (db : DB)
    : option (result (StateLoad Account) E * JournalInner * DB) :=
  let '(r, j, db) := JournalInner_load_account_optional address false false j db in
  let? r := JournalLoadError_unwrap_db_error r in Some (r, j, db).

Definition JournalInner_load_code (address : Z) (j : JournalInner) (db : DB)
    : option (result (StateLoad Account) E * JournalInner * DB) :=
  let '(r, j, db) := JournalInner_load_account_optional address true false j db in
  let? r := JournalLoadError_unwrap_db_error r in Some (r, j, db).

Definition JournalInner_load_account_delegated (address : Z) (j : JournalInner) (db : DB)
    : option (result (StateLoad AccountLoad) E * JournalInner * DB) :=
  let spec := j_spec j in
  let is_eip7702_enabled := SpecId_is_enabled_in spec PRAGUE in
  let '(r, j, db) := JournalInner_load_account_optional address is_eip7702_enabled false j db in
  let? r := JournalLoadError_unwrap_db_error r in
  match r with
  | Err e => Some (Err e, j, db)
  | Ok account =>
      let is_empty := Account_state_clear_aware_is_empty (data account) spec in
      match code (info (data account)) with
      | Some (Eip7702 c) =>
          let '(r, j, db) := JournalInner_load_account_optional (delegated_address c) true false j db in
          let? r := JournalLoadError_unwrap_db_error r in
          match r with
          | Err e => Some (Err e, j, db)
          | Ok delegate_account =>
              Some (Ok (mkStateLoad
                (mkAccountLoad (Some (load_is_cold delegate_account)) is_empty)
                (load_is_cold account)), j, db)
          end
      | _ => Some (Ok (mkStateLoad (mkAccountLoad None is_empty) (load_is_cold account)), j, db)
      end
  end.

Definition JournalInner_balance_incr (address bal : Z) (j : JournalInner) (db : DB)
    : option (result unit E * JournalInner * DB) :=
  let? (r, j, db) := JournalInner_load_account_mut address j db in
  match r with
  | Err e => Some (Err e, j, db)
  | Ok account =>
      let '(_, ja) := JournaledAccount_incr_balance bal (data account) in
      Some (Ok tt, write_back ja j, db)
  end.

Definition JournalInner_transfer (from to bal : Z) (j : JournalInner) (db : DB)
    : option (result (option TransferError) E * JournalInner * DB) :=
  let? (r, j, db) := JournalInner_load_account from j db in
  match r with
  | Err e => Some (Err e, j, db)
  | Ok _ =>
      let? (r, j, db) := JournalInner_load_account to j db in
      match r with
      | Err e => Some (Err e, j, db)
      | Ok _ =>
          let? (res, j) := JournalInner_transfer_loaded from to bal j in Some (Ok res, j, db)
      end
  end.

(** * Storage *)

Definition JournalInner_sload (address key : Z) (skip_cold_load : bool) (j : JournalInner) (db : DB)
    : option (result (StateLoad Z) (JournalLoadError E) * JournalInner * DB) :=
  let? account := j_state j !! address in
  let is_newly_created := Account_is_created account in
  let done value cold slot db :=
    let j := put_account address (assign_storage (<[key := slot]> (storage account)) account) j in
    let j := if (cold : bool) then push_entry (StorageWarmed key address) j else j in
    Some (Ok (mkStateLoad value cold), j, db) in
  match storage account !! key with
  | Some slot =>
      let cold := EvmStorageSlot_is_cold_transaction_id slot (j_transaction_id j) in
      if skip_cold_load && cold then Some (Err ColdLoadSkipped, j, db)
      else
        let slot := (EvmStorageSlot_mark_warm_with_transaction_id slot (j_transaction_id j)).1 in
        done (present_value slot) cold slot db
  | None =>
      if skip_cold_load then Some (Err ColdLoadSkipped, j, db)
      else
        let '(r, db) := if is_newly_created then (Ok 0, db) else db_storage db address key in
        match r with
        | Err e => Some (Err (DBError e), j, db)
        | Ok value =>
            done value (negb (WarmAddresses_is_storage_warm (j_warm_addresses j) address key))
              (EvmStorageSlot_new value (j_transaction_id j)) db
        end
  end.

Definition JournalInner_sstore (address key new : Z) (skip_cold_load : bool) (j : JournalInner) (db : DB)
    : option (result (StateLoad SStoreResult) (JournalLoadError E) * JournalInner * DB) :=
  let? (r, j, db) := JournalInner_sload address key skip_cold_load j db in
  match r with
  | Err e => Some (Err e, j, db)
  | Ok present =>
      let? acc := j_state j !! address in
      let? slot := storage acc !! key in
      let res := mkStateLoad (mkSStoreResult (original_value slot) (data present) new)
                   (load_is_cold present) in
      if present_value slot =? new then Some (Ok res, j, db)
      else
        let j := push_entry (StorageChanged key (data present) address) j in
        let acc := assign_storage (<[key := assign_present_value new slot]> (storage acc)) acc in
        Some (Ok res, put_account address acc j, db)
  end.

Definition JournalInner_tload (address key : Z) (j : JournalInner) : Z :=
  default 0 (j_transient_storage j !! (address, key)).

Definition JournalInner_tstore (address key new : Z) (j : JournalInner) : JournalInner :=
  let t := j_transient_storage j in
  let '(had_value, t) :=
    if new =? 0 then (t !! (address, key), delete (address, key) t)
    else
      let previous_value := default 0 (t !! (address, key)) in
      (if negb (previous_value =? new) then Some previous_value else None,
       <[(address, key) := new]> t) in
  let j := set_transient t j in
  match had_value with
  | Some had_value => push_entry (TransientStorageChange key had_value address) j
  | None => j
  end.

Definition JournalInner_log (log : Log) (j : JournalInner) : JournalInner :=
  set_logs (j_logs j ++ [log]) j.

(** * Selfdestruct *)

Definition destroyed_status_of (acc : Account) : SelfdestructionRevertStatus :=
  if negb (Account_is_selfdestructed acc) then GloballySelfdestroyed
  else if negb (Account_is_selfdestructed_locally acc) then LocallySelfdestroyed
  else RepeatedSelfdestruction.

Definition JournalInner_selfdestruct (address target : Z) (j : JournalInner) (db : DB)
    : option (result (StateLoad SelfDestructResult) E * JournalInner * DB) :=
  let spec := j_spec j in
  let? (r, j, db) := JournalInner_load_account target j db in
  match r with
  | Err e => Some (Err e, j, db)
  | Ok account_load =>
      let cold := load_is_cold account_load in
      let is_empty := Account_state_clear_aware_is_empty (data account_load) spec in
      let? j :=
        if negb (address =? target) then
          let? acc := j_state j !! address in
          let? (target_account, j) := touch_loaded target j in
          Some (put_account target (add_balance (balance (info acc)) target_account) j)
        else Some j in
      let? acc := j_state j !! address in
      let bal := balance (info acc) in
      let destroyed_status := destroyed_status_of acc in
      let is_cancun_enabled := SpecId_is_enabled_in spec CANCUN in
      let j :=
        if Account_is_created_locally acc || negb is_cancun_enabled then
          let acc := (Account_mark_selfdestructed_locally acc).1 in
          push_entry (AccountDestroyed bal address target destroyed_status)
            (put_account address (assign_balance 0 acc) j)
        else if negb (address =? target) then
          push_entry (BalanceTransfer bal address target) (put_account address (assign_balance 0 acc) j)
        else j in
      Some (Ok (mkStateLoad
        (mkSelfDestructResult (negb (bal =? 0)) (negb is_empty)
          (bool_decide (destroyed_status = RepeatedSelfdestruction))) cold), j, db)
  end.
End Ops.
