(* ===== verification/JournalLoads.v ===== *)
(** Cold and warm loads of [crates/context/src/journal/inner.rs] (EIP-2929):
    what a load reports, when a second load is warm, and two cases in which
    the code does not report what EIP-2929 and EIP-2930 ask for. *)
From S2P Require Import Prelude Hardfork Bytecode State Database WarmAddresses JournalEntry JournalInner.
From stdpp Require Import base numbers list option tactics gmap.
From Stdlib Require Import ZArith Lia.

Local Open Scope Z_scope.

Section Loads.
Context `{BitVec, Keccak} {DB E : Type} `{!Database DB E}.

(** The first load of an account that is not in the state reports it cold
    exactly when it is not a warm address, records that in the journal, and
    leaves the account of the database in the state. *)
Lemma load_account_first a j db i db' :
  j_state j !! a = None -> db_basic db a = (Ok (Some i), db') ->
  JournalInner_load_account a j db
  = let cold := WarmAddresses_is_cold (j_warm_addresses j) a in
    let j' := put_account a (Account_from i) j in
    Some (Ok (mkStateLoad (Account_from i) cold),
          if cold then push_entry (AccountWarmed a) j' else j', db').
Proof.
  intros Hn Hdb. unfold JournalInner_load_account, JournalInner_load_account_optional,
    JournalInner_load_account_mut_optional_code.
  rewrite Hn, andb_false_r, Hdb. by destruct (WarmAddresses_is_cold _ a).
Qed.

(** A loaded account that is warm in the transaction: the load changes nothing. *)
Lemma load_account_warm a x j db :
  j_state j !! a = Some x -> Account_is_cold_transaction_id x (j_transaction_id j) = false ->
  JournalInner_load_account a j db = Some (Ok (mkStateLoad x false), j, db).
Proof.
  intros Hx Hc. unfold JournalInner_load_account, JournalInner_load_account_optional,
    JournalInner_load_account_mut_optional_code. rewrite Hx, Hc. cbn.
  do 2 f_equal. f_equal. unfold put_account, set_state. rewrite insert_id by done. by destruct j.
Qed.

(** The account a successful first load leaves in the state. *)
Lemma load_account_absent a j db l j1 db1 :
  j_state j !! a = None -> JournalInner_load_account a j db = Some (Ok l, j1, db1) ->
  j_state j1 !! a = Some (data l) /\ j_transaction_id j1 = j_transaction_id j /\
  status_contains (status (data l)) Cold = false /\
  ((exists i, data l = Account_from i) \/ data l = Account_new_not_existing (j_transaction_id j)).
Proof.
  intros Hn. unfold JournalInner_load_account, JournalInner_load_account_optional,
    JournalInner_load_account_mut_optional_code. rewrite Hn, andb_false_r.
  destruct (db_basic db a) as [[[i|]|e] db']; cbn; intros Heq; simplify_eq;
    (split_and!; [destruct (WarmAddresses_is_cold _ _); cbn; by rewrite lookup_insert_eq
      |by destruct (WarmAddresses_is_cold _ _)|cbn; by status_simpl|eauto]).
Qed.

(** In the first transaction of a journal an account is cold at most once:
    the load after the first one reports it warm and changes nothing. *)
Theorem load_account_second a j db l j1 db1 db2 :
  j_transaction_id j = 0%nat -> j_state j !! a = None ->
  JournalInner_load_account a j db = Some (Ok l, j1, db1) ->
  JournalInner_load_account a j1 db2 = Some (Ok (mkStateLoad (data l) false), j1, db2).
Proof.
  intros Htx Hn Hl. apply load_account_absent in Hl as (Hx & Ht & Hc & Hd); [|done].
  apply load_account_warm; [done|]. unfold Account_is_cold_transaction_id. rewrite Hc, Ht, Htx.
  destruct Hd as [[i ->]| ->]; [done|]. by rewrite Htx.
Qed.

(** In a later transaction of the same journal an account read from the
    database is reported cold twice: it enters the state with transaction id 0,
    so the second load of the transaction takes it for a left-over of an earlier
    one, charges it as cold and journals it again. *)
Theorem load_account_cold_twice a j db i db1 db2 :
  j_transaction_id j <> 0%nat -> j_state j !! a = None ->
  WarmAddresses_is_cold (j_warm_addresses j) a = true -> db_basic db a = (Ok (Some i), db1) ->
  exists l1 j1 l2 j2,
    JournalInner_load_account a j db = Some (Ok l1, j1, db1) /\ load_is_cold l1 = true /\
    JournalInner_load_account a j1 db2 = Some (Ok l2, j2, db2) /\ load_is_cold l2 = true /\
    j_journal j2 = j_journal j ++ [AccountWarmed a; AccountWarmed a].
Proof.
  intros Htx Hn Hw Hdb. unfold JournalInner_load_account, JournalInner_load_account_optional,
    JournalInner_load_account_mut_optional_code. rewrite Hn, andb_false_r, Hdb, Hw. cbn.
  eexists _, _. eexists _, _. split; [done|]. split; [done|]. cbn. rewrite lookup_insert_eq.
  unfold Account_is_cold_transaction_id. cbn.
  assert (match j_transaction_id j with 0%nat => true | S _ => false end = false) as ->
    by (by destruct (j_transaction_id j)).
  cbn. rewrite Hw. cbn. split_and!; [done..|]. cbn [push_entry set_journal put_account set_state j_journal]. by rewrite <- app_assoc.
Qed.

(** With [skip_cold_load] the first load of a storage slot is refused even
    when the slot is in the access list, that is, warm: the code returns
    [ColdLoadSkipped] before it looks at the access list. *)
Theorem sload_skip_refuses_warm_slot a k x j db :
  j_state j !! a = Some x -> storage x !! k = None ->
  WarmAddresses_is_storage_warm (j_warm_addresses j) a k = true ->
  JournalInner_sload a k true j db = Some (Err ColdLoadSkipped, j, db) /\
  (Account_is_created x = true ->
   exists j', JournalInner_sload a k false j db = Some (Ok (mkStateLoad 0 false), j', db)).
Proof.
  intros Hx Hk Hw. unfold JournalInner_sload. rewrite Hx, Hk, Hw. split; [done|].
  intros ->. by eexists.
Qed.

(** Storing to a loaded, warm slot reports the original, present and new
    value, is warm, and makes the new value present; storing the value a slot
    already has leaves the journal as it is. *)
Theorem sstore_warm a k new x t j db :
  j_state j !! a = Some x -> storage x !! k = Some t ->
  EvmStorageSlot_is_cold_transaction_id t (j_transaction_id j) = false ->
  exists j', JournalInner_sstore a k new false j db
    = Some (Ok (mkStateLoad (mkSStoreResult (original_value t) (present_value t) new) false), j', db) /\
  (exists x' t', j_state j' !! a = Some x' /\ storage x' !! k = Some t' /\
     present_value t' = new /\ original_value t' = original_value t) /\
  j_journal j' = j_journal j ++
    (if present_value t =? new then [] else [StorageChanged k (present_value t) a]).
Proof.
  intros Hx Hk Hc. unfold JournalInner_sstore, JournalInner_sload. rewrite Hx, Hk, Hc. cbn [andb].
  unfold EvmStorageSlot_mark_warm_with_transaction_id. rewrite Hc.
  cbn [fst present_value original_value data load_is_cold put_account set_state j_state].
  rewrite lookup_insert_eq. cbn [assign_storage storage]. rewrite lookup_insert_eq.
  cbn [present_value original_value]. destruct (Z.eqb_spec (present_value t) new) as [<-|Hne].
  - eexists. split; [done|]. split.
    + eexists _, _. cbn. rewrite lookup_insert_eq. split; [done|]. cbn. by rewrite lookup_insert_eq.
    + cbn. by rewrite app_nil_r.
  - eexists. split; [done|]. split.
    + eexists _, _. cbn. rewrite lookup_insert_eq. split; [done|]. cbn. by rewrite lookup_insert_eq.
    + done.
Qed.

(** Transient storage behaves as a map of words that is zero by default: a
    load after a store gives the stored value, other keys are unaffected, and
    zero is never kept as an entry. *)
Theorem tload_tstore a k v a' k' j :
  JournalInner_tload a' k' (JournalInner_tstore a k v j)
    = (if bool_decide ((a, k) = (a', k')) then v else JournalInner_tload a' k' j) /\
  j_transient_storage (JournalInner_tstore a k 0 j) !! (a, k) = None.
Proof.
  assert (forall v, j_transient_storage (JournalInner_tstore a k v j)
    = if v =? 0 then delete (a, k) (j_transient_storage j)
      else <[(a, k) := v]> (j_transient_storage j)) as Ht.
  { clear v. intros v. unfold JournalInner_tstore. destruct (v =? 0); repeat case_match; simplify_eq; done. }
  unfold JournalInner_tload. rewrite !Ht. split.
  - destruct (Z.eqb_spec v 0) as [->|Hv]; case_bool_decide as Hk; simplify_eq;
      rewrite ?lookup_delete_eq, ?lookup_insert_eq, ?lookup_delete_ne, ?lookup_insert_ne by done; done.
  - cbn [Z.eqb]. by rewrite lookup_delete_eq.
Qed.

(** Reverting a code change does not bring the previous code back: a frame
    that sets an account's code and is reverted leaves the account with the
    hash of the empty code and no code, whatever code it had before. *)
Theorem code_change_revert_empties a c hash x j :
  j_state j !! a = Some x ->
  exists j1 j2 x', JournalInner_set_code_with_hash a c hash (JournalInner_checkpoint j).2 = Some j1 /\
    JournalInner_checkpoint_revert (JournalInner_checkpoint j).1 j1 = Some j2 /\
    j_state j2 !! a = Some x' /\ code_hash (info x') = KECCAK_EMPTY /\ code (info x') = None.
Proof.
  intros Hx. unfold JournalInner_set_code_with_hash, touch_loaded, JournalInner_touch_account.
  cbn [JournalInner_checkpoint snd fst set_depth j_state]. rewrite Hx.
  destruct (Account_is_touched x) eqn:Et; cbn [negb].
  - cbn [j_state set_depth]. rewrite ?Hx. eexists _, _, _. split; [done|].
    unfold JournalInner_checkpoint_revert.
    cbn [push_entry put_account set_state set_journal set_logs set_depth j_state j_journal j_logs journal_i log_i].
    rewrite length_app, drop_app_length. cbn [length].
    destruct (Nat.ltb_spec (length (j_journal j)) (length (j_journal j) + 1)); [|lia].
    cbn [revert_all]. unfold JournalEntry_revert. cbn [revert_state]. unfold with_account.
    rewrite lookup_insert_eq. cbn [fmap option_fmap option_map]. split; [done|].
    cbn [set_journal set_transient set_state j_state]. by rewrite lookup_insert_eq.
  - cbn [push_entry put_account set_state set_journal j_state]. rewrite lookup_insert_eq.
    destruct (is_spurious_dragon_enabled j && (a =? PRECOMPILE3)) eqn:Es; unfold is_spurious_dragon_enabled in Es.
    all: eexists _, _, _; split; [done|]; unfold JournalInner_checkpoint_revert, is_spurious_dragon_enabled.
    all: cbn [push_entry put_account set_state set_journal set_logs set_depth j_state j_journal j_logs j_spec journal_i log_i].
    all: rewrite <- app_assoc, length_app, drop_app_length; cbn [length app].
    all: destruct (Nat.ltb_spec (length (j_journal j)) (length (j_journal j) + 2)); [|lia].
    all: cbn [revert_all]; unfold JournalEntry_revert; cbn [revert_state]; unfold with_account.
    all: rewrite lookup_insert_eq; cbn [fmap option_fmap option_map]; rewrite Es, ?lookup_insert_eq.
    all: cbn [fmap option_fmap option_map]; (split; [reflexivity|]); cbn [set_journal set_transient set_state j_state]; by rewrite lookup_insert_eq.
Qed.
End Loads.

(** * Concrete loads

    A database with one account of balance 5 at every address. *)
Module Loads.
#[local] Existing Instance Lsb0BitVec.
#[local] Instance zero_hash : Keccak := fun _ => 0.

Definition five : AccountInfo := mkAccountInfo 5 0 KECCAK_EMPTY None None.
#[local] Instance rich_db : Database unit Empty_set := {|
  db_basic d _ := (Ok (Some five), d);
  db_code_by_hash d _ := (Ok Bytecode_default, d);
  db_storage d _ _ := (Ok 0, d);
  db_block_hash d _ := (Ok 0, d) |}.

Lemma load_account_first_example :
  JournalInner_load_account 0x1000 JournalInner_new tt
  = Some (Ok (mkStateLoad (Account_from five) true),
          push_entry (AccountWarmed 0x1000) (put_account 0x1000 (Account_from five) JournalInner_new), tt).
Proof. exact (load_account_first 0x1000 JournalInner_new tt five tt eq_refl eq_refl). Defined.

Definition after_load : JournalInner :=
  push_entry (AccountWarmed 0x1000) (put_account 0x1000 (Account_from five) JournalInner_new).

Lemma load_account_second_witness :
  JournalInner_load_account 0x1000 after_load tt
  = Some (Ok (mkStateLoad (Account_from five) false), after_load, tt).
Proof.
  exact (load_account_second 0x1000 JournalInner_new tt (mkStateLoad (Account_from five) true) after_load tt tt
    eq_refl eq_refl eq_refl).
Defined.

Lemma load_account_cold_twice_witness :
  exists l1 j1 l2 j2,
    JournalInner_load_account 0x1000 (JournalInner_commit_tx JournalInner_new) tt = Some (Ok l1, j1, tt) /\
    load_is_cold l1 = true /\
    JournalInner_load_account 0x1000 j1 tt = Some (Ok l2, j2, tt) /\ load_is_cold l2 = true /\
    j_journal j2 = [] ++ [AccountWarmed 0x1000; AccountWarmed 0x1000].
Proof.
  apply (load_account_cold_twice 0x1000 (JournalInner_commit_tx JournalInner_new) tt five tt tt);
    [done|reflexivity|reflexivity|reflexivity].
Defined.

(** The account created in this transaction, slot 7 in the access list. *)
Definition listed : JournalInner :=
  set_warm_addresses (WarmAddresses_set_access_list {[0x1000 := {[7]}]} WarmAddresses_new)
    (put_account 0x1000 (Account_mark_created (Account_from five)) JournalInner_new).

Lemma sload_skip_refuses_warm_slot_witness :
  JournalInner_sload 0x1000 7 true listed tt = Some (Err ColdLoadSkipped, listed, tt) /\
  (Account_is_created (Account_mark_created (Account_from five)) = true ->
   exists j', JournalInner_sload 0x1000 7 false listed tt = Some (Ok (mkStateLoad 0 false), j', tt)).
Proof.
  apply (sload_skip_refuses_warm_slot 0x1000 7 (Account_mark_created (Account_from five)) listed tt);
    [reflexivity|reflexivity|vm_compute; reflexivity].
Defined.

Definition with_slot_7 : Account :=
  assign_storage {[7 := mkEvmStorageSlot 1 2 0 false]} (Account_from five).

Lemma sstore_warm_witness :
  exists j', JournalInner_sstore 0x1000 7 9 false (put_account 0x1000 with_slot_7 JournalInner_new) tt
    = Some (Ok (mkStateLoad (mkSStoreResult 1 2 9) false), j', tt) /\
  (exists x' t', j_state j' !! 0x1000 = Some x' /\ storage x' !! 7 = Some t' /\
     present_value t' = 9 /\ original_value t' = 1) /\
  j_journal j' = [] ++ (if 2 =? 9 then [] else [StorageChanged 7 2 0x1000]).
Proof.
  apply (sstore_warm 0x1000 7 9 with_slot_7 (mkEvmStorageSlot 1 2 0 false)
    (put_account 0x1000 with_slot_7 JournalInner_new) tt); reflexivity.
Defined.

(** A loaded account that is delegated to another one: its code changes again
    in a frame that is reverted. *)
Definition delegated : Account :=
  Account_from (mkAccountInfo 5 0 77 None (Some (Bytecode_new_eip7702 0x2000))).

Lemma code_change_revert_empties_witness :
  let j := put_account 0x1000 delegated JournalInner_new in
  exists j1 j2 x',
    JournalInner_set_code_with_hash 0x1000 (Bytecode_new_eip7702 0x3000) 78 (JournalInner_checkpoint j).2
      = Some j1 /\
    JournalInner_checkpoint_revert (JournalInner_checkpoint j).1 j1 = Some j2 /\
    j_state j2 !! 0x1000 = Some x' /\ code_hash (info x') = KECCAK_EMPTY /\ code (info x') = None.
Proof.
  apply (code_change_revert_empties 0x1000 (Bytecode_new_eip7702 0x3000) 78 delegated
    (put_account 0x1000 delegated JournalInner_new)). reflexivity.
Defined.
End Loads.
