(* ===== verification/JournalView.v ===== *)
(** What a journal's state means, independently of what happens to be loaded.

    Loading an account or a slot changes the maps of the journal but not what
    an execution can observe: an unloaded account stands for what the database
    holds.  [view] and [slot_view] give that meaning, [state_le s1 s2] says
    that [s1] means the same as [s2] and has at least as much loaded.  Reverting
    a journal entry is monotone for this order ([revert_state_mono]): that is
    what lets the entries of a call be undone from any state that means the
    same as the one they were recorded in. *)
From S2P Require Import Prelude Hardfork Bytecode State Database WarmAddresses JournalEntry.
From stdpp Require Import base numbers list option tactics gmap.
From Stdlib Require Import ZArith Lia.

Local Open Scope Z_scope.

(** What is fixed during a transaction: the answers of the database ([None] for
    an error), the warm addresses and the hard fork. *)
Class JournalEnv := {
  te_basic : Z -> option (option AccountInfo);
  te_storage : Z -> Z -> option Z;
  te_warm : WarmAddresses;
  te_spec : SpecId }.

Class JournalEnvLaws `{JournalEnv} : Prop := te_basic_ok a i : te_basic a = Some (Some i) -> info_ok i.

(** * Views *)

Record AccountView := mkAccountView {
  v_balance : Z; v_nonce : Z; v_code_hash : Z; v_storage_id : option nat;
  v_original : Z * Z * Z * option nat;
  v_created : bool; v_selfdestructed : bool; v_touched : bool; v_not_existing : bool;
  v_cold : bool; v_selfdestructed_locally : bool; v_created_locally : bool }.

Definition info_view (i : AccountInfo) : Z * Z * Z * option nat :=
  (balance i, nonce i, code_hash i, storage_id i).

Section View.
Context `{BitVec, JournalEnv}.

Definition spurious : bool := SpecId_is_enabled_in te_spec SPURIOUS_DRAGON.

(** The touch of the precompile at address 3 is never undone (the exception of
    the Geth and Parity clients kept by [JournalEntry::revert]), so the view
    does not show it. *)
Definition touch_kept (a : Z) : bool := spurious && (a =? PRECOMPILE3).

(** The cached bytecode [info.code] is not part of the view: it is determined
    by the code hash. *)
Definition view (a : Z) (x : Account) : AccountView :=
  let i := info x in let has := status_contains (status x) in
  mkAccountView (balance i) (nonce i) (code_hash i) (storage_id i) (info_view (original_info x))
    (has Created) (has SelfDestructed) (negb (touch_kept a) && has Touched)
    (has LoadedAsNotExisting) (has Cold) (has SelfDestructedLocal) (has CreatedLocal).

Definition slot_cold (a k : Z) : bool := negb (WarmAddresses_is_storage_warm te_warm a k).

(** Present value, original value and coldness of a slot; a slot that is not
    loaded has the value of the database, or zero in a created account. *)
Definition slot_view (a : Z) (x : Account) (k : Z) : option (Z * Z * bool) :=
  match storage x !! k with
  | Some s => Some (present_value s, original_value s, is_cold s)
  | None =>
      if status_contains (status x) Created then Some (0, 0, slot_cold a k)
      else (fun v => (v, v, slot_cold a k)) <$> te_storage a k
  end.

(** The account an unloaded address stands for. *)
Definition db_account (a : Z) : option Account :=
  (fun oi =>
     let x := match oi with Some i => Account_from i | None => Account_new_not_existing 0 end in
     if WarmAddresses_is_cold te_warm a then Account_mark_cold x else x) <$> te_basic a.

(** * The order *)

Definition acc_le (a : Z) (x y : Account) : Prop :=
  view a x = view a y /\
  forall k, slot_view a x k = slot_view a y k /\ (is_Some (storage y !! k) -> is_Some (storage x !! k)).

Definition state_le (s1 s2 : EvmState) : Prop := forall a,
  match s2 !! a with
  | Some y => exists x, s1 !! a = Some x /\ acc_le a x y
  | None => forall x, s1 !! a = Some x -> exists y, db_account a = Some y /\ acc_le a x y
  end.

#[global] Instance acc_le_preorder a : PreOrder (acc_le a).
Proof.
  split.
  - intros x. split; [done|]. by intros.
  - intros x y z [V1 S1] [V2 S2]. split; [congruence|]. intros k.
    destruct (S1 k), (S2 k). split; [congruence|auto].
Qed.

#[global] Instance state_le_preorder : PreOrder state_le.
Proof.
  split.
  - intros s a. destruct (s !! a) as [x|]; [by exists x|done].
  - intros s1 s2 s3 H12 H23 a. specialize (H12 a); specialize (H23 a).
    destruct (s3 !! a) as [z|].
    + destruct H23 as (y & Hy & Hyz). rewrite Hy in H12. destruct H12 as (x & Hx & Hxy).
      exists x. split; [done|]. by etrans.
    + intros x Hx. destruct (s2 !! a) as [y|].
      * destruct H12 as (x' & Hx' & Hxy). simplify_eq.
        destruct (H23 y eq_refl) as (f & Hf & Hyf). exists f. split; [done|]. by etrans.
      * eauto.
Qed.

Lemma state_le_insert a x y s1 s2 :
  state_le s1 s2 -> acc_le a x y -> state_le (<[a := x]> s1) (<[a := y]> s2).
Proof.
  intros Hs Ha b. destruct (decide (a = b)) as [<-|Hne].
  - rewrite !lookup_insert_eq. by exists x.
  - rewrite !lookup_insert_ne by done. apply Hs.
Qed.

Lemma state_le_update a x y s : s !! a = Some y -> acc_le a x y -> state_le (<[a := x]> s) s.
Proof.
  intros Hs Ha. rewrite <- (insert_id s a y) at 2 by done. by apply state_le_insert.
Qed.

Lemma state_le_load a x y s :
  s !! a = None -> db_account a = Some y -> acc_le a x y -> state_le (<[a := x]> s) s.
Proof.
  intros Hs Hf Ha b. destruct (decide (a = b)) as [<-|Hne].
  - rewrite Hs. intros ? Hx. rewrite lookup_insert_eq in Hx. simplify_eq. eauto.
  - rewrite lookup_insert_ne by done. destruct (s !! b) eqn:E; [by eexists|done].
Qed.

(** * Accounts changed by a revert *)

(** An update that keeps the storage and the created flag is monotone as soon
    as it is a function of the view. *)
Lemma acc_le_update a x y x' y' :
  acc_le a x y ->
  storage x' = storage x -> storage y' = storage y ->
  status_contains (status x') Created = status_contains (status x) Created ->
  status_contains (status y') Created = status_contains (status y) Created ->
  view a x' = view a y' -> acc_le a x' y'.
Proof.
  intros [V S] Ex Ey Cx Cy V'. split; [done|]. intros k. specialize (S k).
  unfold slot_view in *. by rewrite Ex, Ey, Cx, Cy.
Qed.

Definition mono (f : Account -> Account) : Prop := forall a x y, acc_le a x y -> acc_le a (f x) (f y).

(** The equations between two equal views, field by field. *)
Ltac view_fields V :=
  pose proof (f_equal v_balance V); pose proof (f_equal v_nonce V);
  pose proof (f_equal v_code_hash V); pose proof (f_equal v_storage_id V);
  pose proof (f_equal v_original V); pose proof (f_equal v_created V);
  pose proof (f_equal v_selfdestructed V); pose proof (f_equal v_touched V);
  pose proof (f_equal v_not_existing V); pose proof (f_equal v_cold V);
  pose proof (f_equal v_selfdestructed_locally V); pose proof (f_equal v_created_locally V);
  cbn [view v_balance v_nonce v_code_hash v_storage_id v_original v_created v_selfdestructed
    v_touched v_not_existing v_cold v_selfdestructed_locally v_created_locally] in *.

(** Decides that an update of balance, nonce, code hash or flags is monotone. *)
Ltac mono_solve :=
  intros a x y Hle; eapply acc_le_update; [exact Hle|..]; destruct Hle as [V _];
  view_fields V; clear V; unfold add_balance, sub_balance, assign_code_and_hash, view;
  status_simpl; try reflexivity; f_equal; try done; congruence.

Lemma mono_mark_cold : mono Account_mark_cold.
Proof. mono_solve. Qed.
Lemma mono_assign_balance b : mono (assign_balance b).
Proof. mono_solve. Qed.
Lemma mono_add_balance b : mono (add_balance b).
Proof. mono_solve. Qed.
Lemma mono_sub_balance b : mono (sub_balance b).
Proof. mono_solve. Qed.
Lemma mono_assign_nonce n : mono (assign_nonce n).
Proof. mono_solve. Qed.
Lemma mono_decr_nonce : mono (fun a => assign_nonce (wrapping_sub 64 (nonce (info a)) 1) a).
Proof. mono_solve. Qed.
Lemma mono_assign_code h c : mono (assign_code_and_hash h c).
Proof. mono_solve. Qed.
Lemma mono_unmark_selfdestruct : mono Account_unmark_selfdestruct.
Proof. mono_solve. Qed.
Lemma mono_unmark_selfdestructed_locally : mono Account_unmark_selfdestructed_locally.
Proof. mono_solve. Qed.
Lemma mono_unmark_created_locally : mono Account_unmark_created_locally.
Proof. mono_solve. Qed.

Lemma mono_unmark_touch : mono Account_unmark_touch.
Proof. mono_solve. Qed.
Lemma mono_comp f g : mono f -> mono g -> mono (fun x => f (g x)).
Proof. intros Hf Hg a x y Hle. auto. Qed.

Lemma mono_revert_destroyed s : mono (revert_destroyed_status s).
Proof.
  intros a x y Hle. destruct s; cbn [revert_destroyed_status]; [| |done].
  - by apply mono_unmark_selfdestructed_locally, mono_unmark_selfdestruct.
  - by apply mono_unmark_selfdestructed_locally.
Qed.

(** An account whose storage is empty in the database: there the created flag
    does not change the meaning of an unloaded slot. *)
Definition storage_empty (a : Z) : Prop := forall k, te_storage a k = Some 0.

Lemma slot_view_storage_empty a x k :
  storage_empty a ->
  slot_view a x k = match storage x !! k with
    | Some s => Some (present_value s, original_value s, is_cold s)
    | None => Some (0, 0, slot_cold a k) end.
Proof. intros Hd. unfold slot_view. rewrite Hd. case_match; [done|]. by case_if. Qed.

Lemma acc_le_revert_created g a x y :
  storage_empty a -> acc_le a x y ->
  acc_le a (revert_account_created g x) (revert_account_created g y).
Proof.
  intros Hd [V S]. split.
  - view_fields V. unfold revert_account_created, view. destruct g; status_simpl; f_equal; done.
  - intros k. specialize (S k). rewrite !slot_view_storage_empty in * by done.
    unfold revert_account_created. destruct g; by status_simpl.
Qed.

(** * Reverting is monotone *)

(** The entries the operations record: an account is created globally only
    where the database holds no storage for it. *)
Definition entry_ok (e : JournalEntry) : Prop :=
  match e with AccountCreated a _ => storage_empty a | _ => True end.

Lemma with_account_mono a f s1 s2 s2' :
  (forall x y, acc_le a x y -> acc_le a (f x) (f y)) ->
  state_le s1 s2 -> with_account a f s2 = Some s2' ->
  exists s1', with_account a f s1 = Some s1' /\ state_le s1' s2'.
Proof.
  intros Hf Hs. unfold with_account. pose proof (Hs a) as Ha.
  destruct (s2 !! a) as [y|]; [|done]. intros [= <-]. destruct Ha as (x & -> & Hxy).
  eexists. split; [done|]. apply state_le_insert; auto.
Qed.

Lemma acc_le_slot a x y k sx sy sx' sy' :
  acc_le a x y -> storage x !! k = Some sx -> storage y !! k = Some sy ->
  (present_value sx', original_value sx', is_cold sx')
    = (present_value sy', original_value sy', is_cold sy') ->
  acc_le a (assign_storage (<[k := sx']> (storage x)) x) (assign_storage (<[k := sy']> (storage y)) y).
Proof.
  intros [V S] Ex Ey E. split; [done|]. intros k'. specialize (S k').
  unfold slot_view in *. cbn [assign_storage storage status].
  destruct (decide (k = k')) as [<-|Hne].
  - rewrite !lookup_insert_eq. rewrite E. split; [done|by eexists].
  - by rewrite !lookup_insert_ne by done.
Qed.

Lemma with_slot_mono a k f s1 s2 s2' :
  (forall s t, (present_value s, original_value s, is_cold s)
                 = (present_value t, original_value t, is_cold t) ->
     (present_value (f s), original_value (f s), is_cold (f s))
       = (present_value (f t), original_value (f t), is_cold (f t))) ->
  state_le s1 s2 -> with_slot a k f s2 = Some s2' ->
  exists s1', with_slot a k f s1 = Some s1' /\ state_le s1' s2'.
Proof.
  intros Hf Hs. unfold with_slot. pose proof (Hs a) as Ha.
  destruct (s2 !! a) as [y|]; [|done]. destruct Ha as (x & -> & Hxy).
  pose proof (proj2 Hxy k) as [Hv Hd]. destruct (storage y !! k) as [sy|] eqn:Ey; [|done].
  intros [= <-]. destruct Hd as [sx Ex]; [by eexists|]. rewrite Ex.
  eexists. split; [done|]. apply state_le_insert; [done|].
  eapply acc_le_slot; [done..|]. apply Hf.
  unfold slot_view in Hv. rewrite Ex, Ey in Hv. congruence.
Qed.

Lemma revert_state_mono e s1 s2 s2' :
  entry_ok e -> state_le s1 s2 -> revert_state e spurious s2 = Some s2' ->
  exists s1', revert_state e spurious s1 = Some s1' /\ state_le s1' s2'.
Proof.
  intros He Hs. destruct e; cbn [revert_state].
  - apply with_account_mono; [apply mono_mark_cold|done].
  - destruct (with_account address _ s2) as [s|] eqn:E; [|done].
    eapply with_account_mono in E as (s' & -> & Hs'); [|..|done].
    2: { intros. by apply mono_add_balance, mono_revert_destroyed. }
    case_if; [apply with_account_mono; [apply mono_sub_balance|done]|].
    intros [= <-]. eauto.
  - case_if; [intros [= <-]; eauto|]. apply with_account_mono; [apply mono_unmark_touch|done].
  - apply with_account_mono; [apply mono_assign_balance|done].
  - destruct (with_account from _ s2) as [s|] eqn:E; [|done].
    eapply with_account_mono in E as (s' & -> & Hs'); [|apply mono_add_balance|done].
    apply with_account_mono; [apply mono_sub_balance|done].
  - apply with_account_mono; [apply mono_decr_nonce|done].
  - apply with_account_mono; [intros; by apply acc_le_revert_created|done].
  - apply with_slot_mono; [|done]. intros s t E. cbn. congruence.
  - apply with_slot_mono; [|done]. intros s t E. cbn. congruence.
  - intros [= <-]. eauto.
  - apply with_account_mono; [apply mono_assign_code|done].
Qed.

(** * Reverting a list of entries *)

Definition revert_states (es : list JournalEntry) (s : EvmState) : option EvmState :=
  foldr (fun e o => let? s := o in revert_state e spurious s) (Some s) es.

Lemma revert_all_states es s t :
  revert_all es s t spurious
  = let? s' := revert_states es s in Some (s', (fun t => foldr revert_transient t es) <$> t).
Proof.
  induction es as [|e es IH]; cbn.
  - by destruct t.
  - rewrite IH. unfold revert_states. destruct (foldr _ _ es) as [s'|]; [|done].
    unfold JournalEntry_revert. destruct (revert_state e spurious s'); [|done]. by destruct t.
Qed.

Lemma revert_states_app es1 es2 s :
  revert_states (es1 ++ es2) s = let? s' := revert_states es2 s in revert_states es1 s'.
Proof.
  unfold revert_states. rewrite foldr_app. destruct (foldr _ (Some s) es2); [done|].
  by induction es1 as [|e es IH]; cbn; rewrite ?IH.
Qed.

Lemma revert_states_mono es s1 s2 s2' :
  Forall entry_ok es -> state_le s1 s2 -> revert_states es s2 = Some s2' ->
  exists s1', revert_states es s1 = Some s1' /\ state_le s1' s2'.
Proof.
  intros Hok Hs. revert s2'. unfold revert_states.
  induction Hok as [|e es He _ IH]; cbn; [intros ? [= <-]; eauto|].
  intros s2'. destruct (foldr _ (Some s2) es) as [t|]; [|done]. intros Hr.
  destruct (IH t eq_refl) as (t' & -> & Ht). by eapply revert_state_mono.
Qed.

(** * Well-formedness

    A cold account carries no transaction-local change; a destroyed one is
    marked globally as well as locally; an account created in the transaction
    has a non-zero nonce once EIP-161 is active; a cold slot is unchanged. *)

Record view_wf (a : Z) (v : AccountView) : Prop := {
  wf_balance : u256 (v_balance v);
  wf_nonce : u64 (v_nonce v);
  wf_cold : v_cold v = true ->
    WarmAddresses_is_cold te_warm a = true /\ v_selfdestructed_locally v = false /\
    v_created_locally v = false /\
    v_original v = (v_balance v, v_nonce v, v_code_hash v, v_storage_id v);
  wf_selfdestructed : v_selfdestructed_locally v = true -> v_selfdestructed v = true;
  wf_created : spurious = true -> v_created_locally v = true -> v_nonce v <> 0 }.

Definition acc_wf (a : Z) (x : Account) : Prop :=
  view_wf a (view a x) /\
  forall k p o, slot_view a x k = Some (p, o, true) -> o = p.

(** The transaction ids of a journal in its first transaction. *)
Definition tx_wf (x : Account) : Prop :=
  acc_transaction_id x = 0%nat /\
  forall k s, storage x !! k = Some s -> slot_transaction_id s = 0%nat.

Definition state_wf (s : EvmState) : Prop := forall a x, s !! a = Some x -> acc_wf a x /\ tx_wf x.

Lemma acc_wf_le a x y : acc_le a x y -> acc_wf a y -> acc_wf a x.
Proof.
  intros [V S] [W Wk]. split; [by rewrite V|]. intros k p o. rewrite (proj1 (S k)). apply Wk.
Qed.

Lemma db_account_wf `{!JournalEnvLaws} a x : db_account a = Some x -> acc_wf a x /\ tx_wf x.
Proof.
  unfold db_account. destruct (te_basic a) as [oi|] eqn:Ea; [|done]. intros [= <-].
  assert (info_ok (default AccountInfo_default oi)) as [Hb Hn].
  { destruct oi as [i|]; [by eapply te_basic_ok|]. by unfold info_ok, in_range, modulus. }
  split; split.
  - destruct oi as [i|]; destruct (WarmAddresses_is_cold te_warm a) eqn:Ec;
      (split; [exact Hb|exact Hn|..]); unfold view; cbn [v_cold v_selfdestructed_locally
      v_created_locally v_selfdestructed v_nonce v_original v_balance v_code_hash v_storage_id];
      unfold Account_from, Account_new_not_existing; status_simpl; done.
  - intros k p o. unfold slot_view.
    destruct oi as [i|]; destruct (WarmAddresses_is_cold te_warm a);
    unfold Account_from, Account_new_not_existing; status_simpl; rewrite lookup_empty;
    destruct (te_storage a k); naive_solver.
  - destruct oi; by case_if.
  - destruct oi; by case_if.
Qed.

Lemma state_wf_insert a x s : state_wf s -> acc_wf a x -> tx_wf x -> state_wf (<[a := x]> s).
Proof.
  intros Hs Ha Ht b y. destruct (decide (a = b)) as [<-|Hne].
  - rewrite lookup_insert_eq. intros [= <-]. done.
  - rewrite lookup_insert_ne by done. apply Hs.
Qed.

Definition state_tx_wf (s : EvmState) : Prop := map_Forall (fun _ => tx_wf) s.

Lemma state_wf_le `{!JournalEnvLaws} s1 s2 :
  state_le s1 s2 -> state_tx_wf s1 -> state_wf s2 -> state_wf s1.
Proof.
  intros Hle Ht Hw a x Hx. split; [|by eapply Ht]. specialize (Hle a).
  destruct (s2 !! a) as [y|] eqn:Ey.
  - destruct Hle as (x' & ? & Hxy). simplify_eq. eapply acc_wf_le; [done|]. by eapply Hw.
  - destruct (Hle x Hx) as (y & Hy & Hxy). eapply acc_wf_le; [done|]. by eapply db_account_wf.
Qed.

(** Reverting changes no transaction id. *)
Lemma with_account_tx a f s s' :
  (forall x, tx_wf x -> tx_wf (f x)) -> state_tx_wf s -> with_account a f s = Some s' -> state_tx_wf s'.
Proof.
  intros Hf Hs. unfold with_account. destruct (s !! a) as [x|] eqn:E; [|done]. intros [= <-].
  apply map_Forall_insert_2; [|done]. apply Hf. by eapply Hs.
Qed.

Lemma with_slot_tx a k f s s' :
  (forall t, slot_transaction_id (f t) = slot_transaction_id t) ->
  state_tx_wf s -> with_slot a k f s = Some s' -> state_tx_wf s'.
Proof.
  intros Hf Hs. unfold with_slot. destruct (s !! a) as [x|] eqn:E; [|done].
  destruct (storage x !! k) as [t|] eqn:Et; [|done]. intros [= <-].
  destruct (Hs a x E) as [H1 H2].
  apply map_Forall_insert_2; [|done]. split; [done|]. intros k' t'. cbn.
  destruct (decide (k = k')) as [<-|]; [rewrite lookup_insert_eq; intros [= <-]|
    rewrite lookup_insert_ne by done; by apply H2].
  rewrite Hf. by eapply H2.
Qed.

Lemma revert_state_tx e s s' : state_tx_wf s -> revert_state e spurious s = Some s' -> state_tx_wf s'.
Proof.
  intros Hs. destruct e; cbn [revert_state].
  all: try (eapply with_account_tx; [|done]; intros x Hx; exact Hx).
  - destruct (with_account address _ s) as [t|] eqn:E; [|done].
    eapply with_account_tx in E; [|intros x Hx; by destruct destroyed_status|done].
    case_if; [|by intros [= <-]]. eapply with_account_tx; [|done]. by intros.
  - case_if; [by intros [= <-]|]. eapply with_account_tx; [|done]. by intros.
  - destruct (with_account from _ s) as [t|] eqn:E; [|done].
    eapply with_account_tx in E; [|by intros x Hx|done].
    eapply with_account_tx; [|done]. by intros.
  - eapply with_account_tx; [|done]. intros x Hx. by destruct is_created_globally.
  - by apply with_slot_tx.
  - by apply with_slot_tx.
  - by intros [= <-].
Qed.

Lemma revert_states_tx es s s' : state_tx_wf s -> revert_states es s = Some s' -> state_tx_wf s'.
Proof.
  intros Hs. revert s'. unfold revert_states. induction es as [|e es IH]; cbn; [by intros ? [= <-]|].
  intros s'. destruct (foldr _ (Some s) es); [|done]. apply revert_state_tx. auto.
Qed.
End View.
