(* ===== verification/JournalRevert.v ===== *)
(** Checkpoints undo: whatever the operations of the journal do between
    [checkpoint] and [checkpoint_revert], nested checkpoints included, the
    revert gives back a state that means the same as the one the checkpoint was
    taken in, and never panics.

    [undoable j j'] says that the entries recorded between [j] and [j'] take
    [j'] back to [j]; every operation is shown to keep the invariant [journal_wf]
    and to be undoable, and [exec] composes them the way call frames do. *)
From S2P Require Import Prelude Hardfork Bytecode State Database WarmAddresses JournalEntry JournalInner JournalView.
From stdpp Require Import base numbers list option tactics gmap.
From Stdlib Require Import ZArith Lia.

Local Open Scope Z_scope.

Definition answer {A E} (r : result A E) : option A := match r with Ok a => Some a | Err _ => None end.

Section Undo.
Context `{BitVec, Keccak, JournalEnv, !JournalEnvLaws}.

(** * The invariant and the undo relation *)

Record journal_wf (j : JournalInner) : Prop := {
  jwf_spec : j_spec j = te_spec;
  jwf_warm : j_warm_addresses j = te_warm;
  jwf_tx : j_transaction_id j = 0%nat;
  jwf_state : state_wf (j_state j);
  jwf_transient : map_Forall (fun _ v => v <> 0) (j_transient_storage j) }.

Record undo_with (es : list JournalEntry) (j j' : JournalInner) : Prop := {
  undo_journal : j_journal j' = j_journal j ++ es;
  undo_entries : Forall entry_ok es;
  undo_state : exists s, revert_states es (j_state j') = Some s /\ state_le s (j_state j);
  undo_transient : foldr revert_transient (j_transient_storage j') es = j_transient_storage j;
  undo_logs : exists l, j_logs j' = j_logs j ++ l;
  undo_depth : j_depth j' = j_depth j }.

Definition undoable (j j' : JournalInner) : Prop := exists es, undo_with es j j'.

(** What every operation guarantees. *)
Definition good (j j' : JournalInner) : Prop := journal_wf j -> journal_wf j' /\ undoable j j'.

Lemma undoable_refl j : undoable j j.
Proof. exists []. split; rewrite ?app_nil_r; [done..|by eexists| |by exists []; rewrite app_nil_r|done]. done. Qed.

Lemma undoable_trans j1 j2 j3 : undoable j1 j2 -> undoable j2 j3 -> undoable j1 j3.
Proof.
  intros (es1 & [J1 O1 (s1 & R1 & L1) T1 (l1 & G1) D1]) (es2 & [J2 O2 (s2 & R2 & L2) T2 (l2 & G2) D2]).
  exists (es1 ++ es2). split.
  - by rewrite J2, J1, app_assoc.
  - by apply Forall_app.
  - rewrite revert_states_app, R2.
    destruct (revert_states_mono es1 _ _ _ O1 L2 R1) as (s & -> & Hs). exists s. split; [done|]. by etrans.
  - by rewrite foldr_app, T2.
  - exists (l1 ++ l2). by rewrite G2, G1, app_assoc.
  - congruence.
Qed.

Lemma good_refl j : good j j.
Proof. intros Hj. split; [done|apply undoable_refl]. Qed.

Lemma good_trans j1 j2 j3 : good j1 j2 -> good j2 j3 -> good j1 j3.
Proof.
  intros H12 H23 Hj. destruct (H12 Hj) as [Hj2 U1]. destruct (H23 Hj2) as [Hj3 U2].
  split; [done|]. by eapply undoable_trans.
Qed.

(** A change of the accounts that records [es]. *)
Definition with_entries (s : EvmState) (es : list JournalEntry) (j : JournalInner) : JournalInner :=
  set_journal (j_journal j ++ es) (set_state s j).

Lemma good_state s es s0 j j' :
  j' = with_entries s es j ->
  (forall t, foldr revert_transient t es = t) -> Forall entry_ok es ->
  (journal_wf j -> state_wf s /\ revert_states es s = Some s0 /\ state_le s0 (j_state j)) ->
  good j j'.
Proof.
  intros -> Ht Ho Hs Hj. destruct (Hs Hj) as (Hw & Hr & Hle). destruct Hj. split; [by split|].
  exists es. split; [done|done| |apply Ht|by exists []; rewrite app_nil_r|done]. eauto.
Qed.

Lemma with_account_insert a f y s : with_account a f (<[a := y]> s) = Some (<[a := f y]> s).
Proof. unfold with_account. by rewrite lookup_insert_eq, insert_insert_eq. Qed.

(** One account changed, one entry recorded: the entry takes the changed
    account [y] to [z], which means the same as the old one. *)
Lemma good_account a x y z e j :
  j_state j !! a = Some x -> entry_ok e -> (forall t, revert_transient e t = t) ->
  revert_state e spurious (<[a := y]> (j_state j)) = Some (<[a := z]> (j_state j)) ->
  (acc_wf a x -> tx_wf x -> acc_wf a y /\ tx_wf y /\ acc_le a z x) ->
  good j (put_account a y (push_entry e j)).
Proof.
  intros Hx He Ht Hr Hw. apply (good_state (<[a := y]> (j_state j)) [e] (<[a := z]> (j_state j))); [done|..].
  - intros. apply Ht.
  - by constructor.
  - intros Hj. destruct (jwf_state _ Hj a x Hx) as [Hxw Hxt].
    destruct (Hw Hxw Hxt) as (? & ? & ?).
    split_and!; [by apply state_wf_insert; [apply Hj|..]|done|by eapply state_le_update].
Qed.

(** An account replaced by one that means the same, with nothing recorded. *)
Lemma good_silent a x y j :
  j_state j !! a = Some x -> acc_le a y x -> (tx_wf x -> tx_wf y) -> good j (put_account a y j).
Proof.
  intros Hx Hle Ht Hj.
  assert (good j (with_entries (<[a := y]> (j_state j)) [] j)) as Hg.
  { apply (good_state (<[a := y]> (j_state j)) [] (<[a := y]> (j_state j))); [done..|]. intros _.
    destruct (jwf_state _ Hj a x Hx). split_and!; [|done|by eapply state_le_update].
    apply state_wf_insert; [apply Hj| |auto]. by eapply acc_wf_le. }
  destruct (Hg Hj) as [Hw (es & Hu)]. split; [by destruct Hw|]. exists es.
  destruct Hu. cbn in *. rewrite app_nil_r in *. by split.
Qed.

(** * Account updates keep well-formedness *)

Definition cold_acc (x : Account) : bool := status_contains (status x) Cold.

Lemma acc_wf_update a x y :
  acc_wf a x -> storage y = storage x ->
  status_contains (status y) Created = status_contains (status x) Created ->
  view_wf a (view a y) -> acc_wf a y.
Proof.
  intros [_ Hs] Est Ecr Hv. split; [done|]. intros k p o. unfold slot_view in *.
  rewrite Est, Ecr. apply Hs.
Qed.

(** The same-storage update and its undo. *)
Lemma acc_le_undo a x z :
  storage z = storage x -> status_contains (status z) Created = status_contains (status x) Created ->
  view a z = view a x -> acc_le a z x.
Proof. intros Est Ecr Hv. split; [done|]. intros k. unfold slot_view. by rewrite Est, Ecr. Qed.

Ltac view_cbn :=
  unfold view, add_balance, sub_balance, assign_code_and_hash, cold_acc in *;
  cbn [v_balance v_nonce v_code_hash v_storage_id v_original v_created v_selfdestructed
    v_touched v_not_existing v_cold v_selfdestructed_locally v_created_locally] in *;
  status_simpl.

(** Closes the three obligations of [good_account] for an update that keeps
    the storage and the created flag. *)
Ltac account_ok :=
  intros Hwf Htx;
  split_and!;
  [ eapply acc_wf_update; [exact Hwf|done|by view_cbn|];
    destruct Hwf as [[] _]; split; view_cbn; auto with word
  | exact Htx
  | apply acc_le_undo; [done|by view_cbn|view_cbn; f_equal; auto with word] ].

Lemma good_touch a x j :
  j_state j !! a = Some x -> good j (JournalInner_touch_account a x j).
Proof.
  intros Hx. unfold JournalInner_touch_account.
  destruct (Account_is_touched x) eqn:Et; [apply good_refl|]. cbn [negb].
  unfold Account_is_touched in Et.
  eapply (good_account a x _ (if touch_kept a then Account_mark_touch x
    else Account_unmark_touch (Account_mark_touch x))); [done..| |].
  - cbn [revert_state]. fold (touch_kept a). case_if; [done|]. apply with_account_insert.
  - destruct (touch_kept a) eqn:Ek; account_ok; rewrite ?Ek; cbn; auto.
Qed.

Lemma good_balance a x b j :
  j_state j !! a = Some x -> cold_acc x = false -> u256 b ->
  good j (put_account a (assign_balance b x) (push_entry (BalanceChange (balance (info x)) a) j)).
Proof.
  intros Hx Hc Hb. eapply good_account; [done..| |].
  - cbn [revert_state]. apply with_account_insert.
  - account_ok. by rewrite Hc.
Qed.

Lemma good_nonce a x n j :
  j_state j !! a = Some x -> cold_acc x = false -> checked_add 64 (nonce (info x)) 1 = Some n ->
  good j (put_account a (assign_nonce n x) (push_entry (NonceChange a) j)).
Proof.
  intros Hx Hc Hn. apply checked_add_spec in Hn as [-> Hn].
  eapply good_account; [done..| |].
  - cbn [revert_state]. apply with_account_insert.
  - intros Hwf. pose proof (wf_nonce _ _ (proj1 Hwf)) as Hu. cbn [view v_nonce] in Hu.
    revert Hwf. account_ok.
    + unfold in_range in *. lia.
    + by rewrite Hc.
    + unfold in_range in Hu. intros. lia.
    + unfold wrapping_sub. replace (nonce (info x) + 1 - 1) with (nonce (info x)) by lia.
      by apply wrap_small.
Qed.

(** A code change is undone to the empty code, so it may only replace that. *)
Lemma good_code a x hash c j :
  j_state j !! a = Some x -> cold_acc x = false -> code_hash (info x) = KECCAK_EMPTY ->
  good j (put_account a (assign_code_and_hash hash c x) (push_entry (CodeChange a) j)).
Proof.
  intros Hx Hc Hh. eapply good_account; [done..| |].
  - cbn [revert_state]. apply with_account_insert.
  - account_ok. by rewrite Hc.
Qed.

(** * Balance transfers *)

Lemma assign_balance_wf a x b :
  acc_wf a x -> cold_acc x = false -> u256 b -> acc_wf a (assign_balance b x).
Proof.
  intros Hwf Hc Hb. eapply acc_wf_update; [exact Hwf|done|done|].
  destruct Hwf as [[] _]. split; view_cbn; auto. by rewrite Hc.
Qed.

(** Two accounts changed, the balance moved back by the entry. *)
Lemma good_transfer from to x y bal bx by' j :
  from <> to ->
  j_state j !! from = Some x -> j_state j !! to = Some y ->
  cold_acc x = false -> cold_acc y = false ->
  bx = wrapping_sub 256 (balance (info x)) bal -> by' = wrapping_add 256 (balance (info y)) bal ->
  good j (push_entry (BalanceTransfer bal from to)
    (put_account to (assign_balance by' y) (put_account from (assign_balance bx x) j))).
Proof.
  intros Hne Hx Hy Cx Cy -> ->.
  apply (good_state
    (<[to := assign_balance (wrapping_add 256 (balance (info y)) bal) y]>
      (<[from := assign_balance (wrapping_sub 256 (balance (info x)) bal) x]> (j_state j)))
    [BalanceTransfer bal from to]
    (<[to := sub_balance bal (assign_balance (wrapping_add 256 (balance (info y)) bal) y)]>
      (<[from := add_balance bal (assign_balance (wrapping_sub 256 (balance (info x)) bal) x)]> (j_state j))));
    [done|done|by constructor|].
  intros Hj. destruct (jwf_state _ Hj _ _ Hx) as [Wx Tx]. destruct (jwf_state _ Hj _ _ Hy) as [Wy Ty].
  split_and!.
  - apply state_wf_insert; [apply state_wf_insert; [apply Hj|..]|..]; try done;
    apply assign_balance_wf; auto with word.
  - cbn [revert_states foldr revert_state put_account set_state j_state].
    rewrite insert_insert_ne by done. rewrite with_account_insert, insert_insert_ne by done.
    by rewrite with_account_insert.
  - pose proof (wf_balance _ _ (proj1 Wx)). pose proof (wf_balance _ _ (proj1 Wy)).
    rewrite <- (insert_id (j_state j) to y) at 2 by done.
    rewrite <- (insert_id (j_state j) from x) at 2 by done. rewrite (insert_insert_ne _ to from) by done.
    rewrite (insert_insert_ne _ to from) by done.
    apply state_le_insert; [apply state_le_insert; [done|]|]; apply acc_le_undo; try done; view_cbn;
    f_equal; by (apply wrapping_sub_add || apply wrapping_add_sub).
Qed.

(** An account known to be loaded and warm. *)
Definition warm_loaded (j : JournalInner) (a : Z) : Prop :=
  exists x, j_state j !! a = Some x /\ cold_acc x = false.

Lemma touch_loaded_good a j acc j' :
  touch_loaded a j = Some (acc, j') ->
  good j j' /\ j_state j' !! a = Some acc /\
  (forall b, a <> b -> j_state j' !! b = j_state j !! b) /\
  exists x, j_state j !! a = Some x /\ balance (info acc) = balance (info x) /\
    cold_acc acc = cold_acc x /\ code_hash (info acc) = code_hash (info x) /\
    (x = acc \/ acc = Account_mark_touch x).
Proof.
  unfold touch_loaded. destruct (j_state j !! a) as [x|] eqn:Hx; [|done].
  pose proof (good_touch a x j Hx) as Hg. unfold JournalInner_touch_account in *.
  destruct (Account_is_touched x) eqn:Et; cbn [negb] in *.
  - rewrite Hx. intros [= <- <-]. split_and!; eauto 10.
  - cbn [put_account set_state j_state push_entry set_journal]. rewrite lookup_insert_eq.
    intros [= <- <-]. cbn [put_account set_state j_state push_entry set_journal].
    split_and!; [done|by rewrite lookup_insert_eq| |].
    + intros b Hb. by rewrite lookup_insert_ne.
    + exists x. split_and!; [done|done| |done|by right]. unfold cold_acc. by status_simpl.
Qed.

Lemma transfer_loaded_good from to bal j r j' :
  warm_loaded j from -> warm_loaded j to -> 0 <= bal ->
  JournalInner_transfer_loaded from to bal j = Some (r, j') -> r <> Some OverflowPayment -> good j j'.
Proof.
  intros (x & Hx & Cx) (y & Hy & Cy) Hbal. unfold JournalInner_transfer_loaded.
  destruct (Z.eqb_spec from to) as [->|Hne].
  { rewrite Hy. case_if; intros [= <- <-] _; apply good_refl. }
  destruct (bal =? 0).
  { destruct (touch_loaded to j) as [[a j1]|] eqn:E; [|done]. intros [= <- <-] _.
    by eapply touch_loaded_good. }
  destruct (touch_loaded from j) as [[xf j1]|] eqn:E1; [|done].
  apply touch_loaded_good in E1 as (G1 & Hxf & Hoth1 & x' & Hx' & Bx & Cxf & _ & _). simplify_eq.
  destruct (checked_sub _ _) as [bx|] eqn:Es; [|by intros [= <- <-] _].
  destruct (touch_loaded to (put_account from _ j1)) as [[yt j2]|] eqn:E2; [|done].
  destruct (checked_add 256 _ _) as [b2|] eqn:Ea; [|by intros [= <- <-]].
  intros [= <- <-] _. eapply good_trans; [exact G1|].
  (* the touch of [to] commutes with the write of [from] *)
  assert (exists j2', touch_loaded to j1 = Some (yt, j2') /\ put_account from (assign_balance bx xf) j2' = j2)
    as (j2' & E2' & <-).
  { revert E2. unfold touch_loaded, JournalInner_touch_account.
    cbn [put_account set_state j_state push_entry set_journal].
    rewrite lookup_insert_ne by done. destruct (j_state j1 !! to) as [yt'|] eqn:Eyt; [|done].
    destruct (Account_is_touched yt'); cbn [negb put_account set_state j_state push_entry set_journal].
    - rewrite Eyt, lookup_insert_ne, Eyt by done. intros [= <- <-]. eauto.
    - rewrite !lookup_insert_eq. intros [= <- <-]. eexists. split; [done|].
      unfold put_account, set_state, push_entry, set_journal. cbn. by rewrite insert_insert_ne. }
  apply touch_loaded_good in E2' as (G2 & Hyt & Hoth2 & y' & Hy' & By & Cyt & _ & _).
  eapply good_trans; [exact G2|]. rewrite Hoth1 in Hy' by done. simplify_eq.
  apply checked_sub_spec in Es as [-> ?]. apply checked_add_spec in Ea as [-> Ha].
  intros Hj. pose proof Hj as Hw.
  assert (j_state j2' !! from = Some xf) as Hf by (by rewrite Hoth2).
  pose proof (wf_balance _ _ (proj1 (proj1 (jwf_state _ Hj _ _ Hf)))) as [? ?].
  pose proof (wf_balance _ _ (proj1 (proj1 (jwf_state _ Hj _ _ Hyt)))) as [? ?]. cbn in *.
  eapply (good_transfer from to xf yt); try done; try congruence.
  - unfold wrapping_sub. rewrite wrap_small; [done|]. unfold in_range. lia.
  - unfold wrapping_add. rewrite wrap_small; [done|]. unfold in_range. lia.
Qed.

(** * Loads *)

Lemma warm_stale_good a x j :
  j_state j !! a = Some x -> cold_acc x = true ->
  good j (put_account a (warm_stale_account 0 x) (push_entry (AccountWarmed a) j)) /\
  (journal_wf j -> cold_acc (warm_stale_account 0 x) = false).
Proof.
  intros Hx Hc.
  assert (journal_wf j -> Account_is_selfdestructed_locally x = false /\
    WarmAddresses_is_cold te_warm a = true /\ Account_is_created_locally x = false /\
    info_view (original_info x) = info_view (info x)) as Hcold.
  { intros Hj. destruct (wf_cold _ _ (proj1 (proj1 (jwf_state _ Hj _ _ Hx))) Hc) as (? & ? & ? & ?).
    done. }
  assert (journal_wf j -> warm_stale_account 0 x
    = mkAccount (info x) (info x) 0 (storage x)
        (status_remove (status_remove (status x) Cold) CreatedLocal)) as Hst.
  { intros Hj. destruct (Hcold Hj) as (Hs & _). unfold warm_stale_account, Account_is_selfdestructed_locally in *.
    unfold Account_mark_warm_with_transaction_id. cbn [fst status].
    rewrite status_contains_remove by auto with flags. rewrite Hs, andb_false_r. done. }
  split.
  - intros Hj. revert Hj. intros Hj0. pose proof (Hst Hj0) as ->. destruct (Hcold Hj0) as (? & ? & Hl & Ho).
    revert Hj0. eapply good_account; [done..| |].
    + cbn [revert_state]. apply with_account_insert.
    + unfold Account_is_created_locally in Hl. intros Hwf Htx. split_and!.
      * eapply acc_wf_update; [exact Hwf|done|by view_cbn|].
        destruct Hwf as [[] _]; split; view_cbn; auto.
      * by split; [|apply Htx].
      * apply acc_le_undo; [done|by view_cbn|]. unfold cold_acc in Hc. view_cbn.
        by rewrite Hc, Hl, Ho.
  - intros Hj. rewrite (Hst Hj). unfold cold_acc. by status_simpl.
Qed.

Lemma load_fresh_good a x j :
  j_state j !! a = None -> cold_acc x = false ->
  db_account a = Some (if WarmAddresses_is_cold te_warm a then Account_mark_cold x else x) ->
  good j (if WarmAddresses_is_cold te_warm a then push_entry (AccountWarmed a) (put_account a x j)
          else put_account a x j).
Proof.
  intros Hn Hc Hf. pose proof (db_account_wf _ _ Hf) as [Wf Tf].
  destruct (WarmAddresses_is_cold te_warm a) eqn:Ec.
  - eapply (good_state (<[a := x]> (j_state j)) [AccountWarmed a] (<[a := Account_mark_cold x]> (j_state j)));
      [done|done|by constructor|]. intros Hj. split_and!.
    + apply state_wf_insert; [apply Hj| |done]. destruct Wf as [Wv Ws]. unfold cold_acc in Hc. split.
      * destruct Wv as [? ? W1 W2 W3]. split; try done;
          [view_cbn; by rewrite Hc|revert W2; by view_cbn|revert W3; by view_cbn].
      * intros k p o. unfold slot_view in *. specialize (Ws k p o). revert Ws. by status_simpl.
    + apply with_account_insert.
    + by eapply state_le_load.
  - intros Hj. split.
    + destruct Hj. split; try done. by apply state_wf_insert.
    + exists []. split; rewrite ?app_nil_r; try done; [|by exists []; rewrite app_nil_r].
      eexists. split; [done|]. by eapply state_le_load.
Qed.

Context {DB E : Type} `{!Database DB E, !DatabaseLaws DB E}.

(** The database answers as the environment says. *)
Record answers (db : DB) : Prop := {
  ans_basic a : answer (db_basic db a).1 = te_basic a;
  ans_storage a k : answer (db_storage db a k).1 = te_storage a k }.

Lemma answers_same db db' : same_db db' db -> answers db -> answers db'.
Proof.
  intros Hs []. split; intros; [rewrite (db_basic_ans db' db)|rewrite (db_storage_ans db' db)]; done.
Qed.

(** What a load leaves behind: [a] is loaded and warm, and every account that
    was warm stays so. *)
Definition step_ok (j : JournalInner) (j' : JournalInner) (db' : DB) : Prop :=
  journal_wf j' /\ undoable j j' /\ answers db' /\ forall b, warm_loaded j b -> warm_loaded j' b.

Lemma step_ok_refl j db : journal_wf j -> answers db -> step_ok j j db.
Proof. intros. split_and!; auto using undoable_refl. Qed.

Lemma step_ok_trans j1 j2 j3 db2 db3 :
  step_ok j1 j2 db2 -> step_ok j2 j3 db3 -> step_ok j1 j3 db3.
Proof.
  intros (? & ? & ? & ?) (? & ? & ? & ?). split_and!; auto. by eapply undoable_trans.
Qed.

Lemma warm_loaded_put a x j : cold_acc x = false -> forall b, warm_loaded j b -> warm_loaded (put_account a x j) b.
Proof.
  intros Hc b (y & Hy & Cy). unfold warm_loaded. cbn.
  destruct (decide (a = b)) as [<-|]; [rewrite lookup_insert_eq|rewrite lookup_insert_ne by done]; eauto.
Qed.

(** The account obtained by the first half of the load, before its code. *)
Definition loaded_ok (a : Z) (j : JournalInner) (load : StateLoad Account) (j1 : JournalInner) : Prop :=
  j1 = (let j1 := put_account a (data load) j in
        if load_is_cold load then push_entry (AccountWarmed a) j1 else j1) /\
  good j j1 /\ cold_acc (data load) = false.

Lemma load_stage a skip j db r db1 :
  journal_wf j -> answers db ->
  match j_state j !! a with
  | Some account =>
      if Account_is_cold_transaction_id account (j_transaction_id j) then
        if WarmAddresses_is_cold (j_warm_addresses j) a && skip then (Err ColdLoadSkipped, db)
        else (Ok (mkStateLoad (warm_stale_account (j_transaction_id j) account)
                    (WarmAddresses_is_cold (j_warm_addresses j) a)), db)
      else (Ok (mkStateLoad account false), db)
  | None =>
      if WarmAddresses_is_cold (j_warm_addresses j) a && skip then (Err ColdLoadSkipped, db)
      else match db_basic db a with
      | (Ok (Some i), db) => (Ok (mkStateLoad (Account_from i) (WarmAddresses_is_cold (j_warm_addresses j) a)), db)
      | (Ok None, db) =>
          (Ok (mkStateLoad (Account_new_not_existing (j_transaction_id j))
            (WarmAddresses_is_cold (j_warm_addresses j) a)), db)
      | (Err e, db) => (Err (DBError e), db)
      end
  end = (r, db1) ->
  answers db1 /\ forall load, r = Ok load -> exists j1, loaded_ok a j load j1.
Proof.
  intros Hj Hdb. rewrite (jwf_warm _ Hj), (jwf_tx _ Hj). destruct (j_state j !! a) as [x|] eqn:Hx.
  - assert (Account_is_cold_transaction_id x 0 = cold_acc x) as ->.
    { unfold Account_is_cold_transaction_id. destruct (jwf_state _ Hj _ _ Hx) as [_ [-> _]]. done. }
    destruct (cold_acc x) eqn:Ec.
    + assert (WarmAddresses_is_cold te_warm a = true) as ->.
      { by apply (wf_cold _ _ (proj1 (proj1 (jwf_state _ Hj _ _ Hx)))). }
      destruct skip; cbn [andb]; intros [= <- <-]; (split; [done|]); intros load [= <-].
      destruct (warm_stale_good a x j Hx Ec) as [? ?]. eexists. split_and!; eauto.
    + intros [= <- <-]. split; [done|]. intros load [= <-]. eexists. split; [done|].
      split; [|done]. cbn. by eapply good_silent.
  - case_if; [by intros [= <- <-]|].
    pose proof (db_basic_same db a) as Hs. pose proof (ans_basic _ Hdb a) as Ha.
    assert (db_account a = (fun oi => let x := match oi with Some i => Account_from i | None => Account_new_not_existing 0 end in
       if WarmAddresses_is_cold te_warm a then Account_mark_cold x else x) <$> te_basic a) as Hf by done.
    rewrite <- Ha in Hf. destruct (db_basic db a) as [[[i|]|e] db2]; cbn in *; intros [= <- <-];
      (split; [by eapply answers_same|]); intros load [= <-]; eexists; (split; [done|]);
      (split; [apply load_fresh_good; [done| |exact Hf]|]);
      unfold cold_acc, Account_from, Account_new_not_existing; cbn [data]; by status_simpl.
Qed.

Lemma assign_code_le a x c : acc_le a (assign_info (assign_code c (info x)) x) x.
Proof. by apply acc_le_undo. Qed.

Lemma load_good a lc skip j db r j' db' :
  journal_wf j -> answers db ->
  JournalInner_load_account_mut_optional_code a lc skip j db = (r, j', db') ->
  step_ok j j' db' /\
  forall load, r = Ok load ->
    ja_address (data load) = a /\ ja_journal_entries (data load) = j_journal j' /\
    j_state j' !! a = Some (ja_account (data load)) /\ cold_acc (ja_account (data load)) = false.
Proof.
  intros Hj Hdb. unfold JournalInner_load_account_mut_optional_code.
  destruct (match j_state j !! a with Some _ => _ | None => _ end) as [r1 db1] eqn:E1.
  apply load_stage in E1 as [Hdb1 Hl]; [|done..].
  destruct r1 as [load|e]; [|intros [= <- <- <-]; split; [by apply step_ok_refl|done]].
  destruct (Hl _ eq_refl) as (j1 & Hj1 & Hg & Hc). clear Hl.
  assert (j_state j1 !! a = Some (data load)) as Hlk.
  { rewrite Hj1. destruct (load_is_cold load); cbn; by rewrite lookup_insert_eq. }
  assert (step_ok j j1 db1) as Hs1.
  { destruct (Hg Hj). split_and!; [done..|]. intros b Hb. rewrite Hj1.
    assert (warm_loaded (put_account a (data load) j) b) by (by apply warm_loaded_put).
    by destruct (load_is_cold load). }
  cbv zeta in Hj1 |- *. rewrite <- Hj1.
  (* putting the code in the cache *)
  assert (forall c db2, answers db2 ->
    let acc := assign_info (assign_code c (info (data load))) (data load) in
    step_ok j1 (put_account a acc j1) db2 /\ j_state (put_account a acc j1) !! a = Some acc /\ cold_acc acc = false)
    as Hcode.
  { intros c db2 Hdb2 acc. split_and!; [|cbn; by rewrite lookup_insert_eq|done].
    destruct (good_silent a (data load) acc j1 Hlk) as [? ?];
      [apply assign_code_le|by intros []|apply Hs1|]. split_and!; [done..|]. by apply warm_loaded_put. }
  destruct (lc && _).
  - destruct (code_hash _ =? _).
    + intros [= <- <- <-]. destruct (Hcode (Some Bytecode_default) db1 Hdb1) as (? & ? & ?).
      split; [by eapply step_ok_trans|]. by intros load' [= <-].
    + pose proof (db_code_same db1 (code_hash (info (data load)))) as Hs.
      destruct (db_code_by_hash db1 _) as [[c|e] db2]; cbn in Hs; apply answers_same in Hs; try done.
      * intros [= <- <- <-]. destruct (Hcode (Some c) db2 Hs) as (? & ? & ?).
        split; [by eapply step_ok_trans|]. by intros load' [= <-].
      * intros [= <- <- <-]. split; [|done]. destruct Hs1 as (? & ? & ? & ?). by split_and!.
  - intros [= <- <- <-]. split; [done|]. by intros load' [= <-].
Qed.

Lemma load_optional_good a lc skip j db r j' db' :
  journal_wf j -> answers db ->
  JournalInner_load_account_optional a lc skip j db = (r, j', db') ->
  step_ok j j' db' /\ forall load, r = Ok load -> j_state j' !! a = Some (data load) /\ warm_loaded j' a.
Proof.
  intros Hj Hdb. unfold JournalInner_load_account_optional.
  destruct (JournalInner_load_account_mut_optional_code _ _ _ _ _) as [[r1 j1] db1] eqn:El.
  apply load_good in El as [Hs Hl]; [|done..].
  destruct r1 as [l|e]; intros [= <- <- <-]; (split; [done|]); intros load [= <-].
  destruct (Hl l eq_refl) as (? & ? & ? & ?). split; [done|]. by eexists.
Qed.

Lemma load_account_good a j db r j' db' :
  journal_wf j -> answers db -> JournalInner_load_account a j db = Some (r, j', db') ->
  step_ok j j' db' /\ forall load, r = Ok load -> j_state j' !! a = Some (data load) /\ warm_loaded j' a.
Proof.
  intros Hj Hdb. unfold JournalInner_load_account.
  destruct (JournalInner_load_account_optional _ _ _ _ _) as [[r1 j1] db1] eqn:El.
  apply load_optional_good in El as [Hs Hl]; [|done..].
  destruct r1 as [l|[e|]]; cbn; intros [= <- <- <-]; (split; [done|]); intros load [= <-]. eauto.
Qed.

Lemma load_code_good a j db r j' db' :
  journal_wf j -> answers db -> JournalInner_load_code a j db = Some (r, j', db') -> step_ok j j' db'.
Proof.
  intros Hj Hdb. unfold JournalInner_load_code.
  destruct (JournalInner_load_account_optional _ _ _ _ _) as [[r1 j1] db1] eqn:El.
  apply load_optional_good in El as [Hs Hl]; [|done..].
  destruct r1 as [l|[e|]]; cbn; by intros [= <- <- <-].
Qed.

Lemma load_account_delegated_good a j db r j' db' :
  journal_wf j -> answers db ->
  JournalInner_load_account_delegated a j db = Some (r, j', db') -> step_ok j j' db'.
Proof.
  intros Hj Hdb. unfold JournalInner_load_account_delegated.
  destruct (JournalInner_load_account_optional a _ _ _ _) as [[r1 j1] db1] eqn:El.
  apply load_optional_good in El as [Hs Hl]; [|done..].
  destruct r1 as [l|[e|]]; cbn [JournalLoadError_unwrap_db_error]; [|by intros [= <- <- <-]|done].
  destruct (code (info (data l))) as [[c|c]|]; [|by intros [= <- <- <-]..].
  destruct (JournalInner_load_account_optional (delegated_address c) _ _ _ _) as [[r2 j2] db2] eqn:E2.
  destruct Hs as (? & ? & ? & ?). apply load_optional_good in E2 as [Hs2 _]; [|done..].
  assert (step_ok j j2 db2) by (by eapply step_ok_trans; [split_and!|]).
  destruct r2 as [l2|[e|]]; cbn [JournalLoadError_unwrap_db_error]; by intros [= <- <- <-].
Qed.

(** * Journaled accounts *)

(** [ja] is a borrow of a warm account of [j]. *)
Definition ja_of (j : JournalInner) (ja : JournaledAccount) : Prop :=
  j_state j !! ja_address ja = Some (ja_account ja) /\ j_journal j = ja_journal_entries ja /\
  cold_acc (ja_account ja) = false.

(** Changing the borrowed account from [ja] to [ja'] is undoable. *)
Definition ja_step (ja ja' : JournaledAccount) : Prop := forall j,
  ja_of j ja -> ja_address ja' = ja_address ja /\ cold_acc (ja_account ja') = false /\
  good j (write_back ja' j).

Lemma ja_of_write_back ja j : cold_acc (ja_account ja) = false -> ja_of (write_back ja j) ja.
Proof. intros. split_and!; [|done..]. cbn. by rewrite lookup_insert_eq. Qed.

Lemma ja_step_trans ja1 ja2 ja3 : ja_step ja1 ja2 -> ja_step ja2 ja3 -> ja_step ja1 ja3.
Proof.
  intros H12 H23 j Hj. destruct (H12 j Hj) as (A2 & C2 & G2).
  destruct (H23 _ (ja_of_write_back ja2 j C2)) as (A3 & C3 & G3).
  split_and!; [congruence|done|]. eapply good_trans; [exact G2|].
  replace (write_back ja3 j) with (write_back ja3 (write_back ja2 j)); [done|].
  unfold write_back, put_account, set_state, set_journal. cbn. rewrite A3. by rewrite insert_insert_eq.
Qed.

Lemma write_back_id j ja : ja_of j ja -> write_back ja j = j.
Proof.
  intros (Hs & Hj & _). unfold write_back, put_account, set_state, set_journal. cbn.
  rewrite <- Hj, insert_id by done. by destruct j.
Qed.

Lemma ja_step_refl ja : ja_step ja ja.
Proof.
  intros j Hj. split_and!; [done|apply Hj|]. rewrite write_back_id by done. apply good_refl.
Qed.

(** An update of the account with the entry [e] pushed. *)
Lemma ja_step_entry e y ja :
  (forall j, j_state j !! ja_address ja = Some (ja_account ja) -> cold_acc (ja_account ja) = false ->
    good j (put_account (ja_address ja) y (push_entry e j))) ->
  cold_acc y = cold_acc (ja_account ja) ->
  ja_step ja (ja_push e (ja_set y ja)).
Proof.
  intros Hg Hc j (Hs & Hj & Cj). split_and!; [done|by cbn; rewrite Hc|].
  replace (write_back _ j) with (put_account (ja_address ja) y (push_entry e j)); [by apply Hg|].
  unfold write_back, put_account, push_entry, set_state, set_journal. cbn. by rewrite Hj.
Qed.

Lemma ja_touch_step ja : ja_step ja (JournaledAccount_touch ja).
Proof.
  unfold JournaledAccount_touch. destruct (Account_is_touched _) eqn:Et; [apply ja_step_refl|].
  apply ja_step_entry; [|unfold cold_acc; by status_simpl].
  intros j Hs _. pose proof (good_touch _ _ _ Hs) as Hg.
  unfold JournalInner_touch_account in Hg. by rewrite Et in Hg.
Qed.

Lemma ja_set_balance_step b ja : u256 b -> ja_step ja (JournaledAccount_set_balance b ja).
Proof.
  intros Hb. eapply ja_step_trans; [apply ja_touch_step|]. unfold JournaledAccount_set_balance.
  case_if; [|apply ja_step_refl].
  apply (ja_step_entry (BalanceChange _ _)); [|done]. intros. by apply good_balance.
Qed.

Lemma ja_incr_balance_step b ja :
  0 <= b -> (0 <= balance (info (ja_account ja))) -> ja_step ja (JournaledAccount_incr_balance b ja).2.
Proof.
  intros Hb Hu. eapply ja_step_trans; [apply ja_touch_step|]. unfold JournaledAccount_incr_balance.
  destruct (checked_add _ _ _) as [b'|] eqn:Ec; [|apply ja_step_refl]. apply ja_set_balance_step.
  apply checked_add_spec in Ec as [-> ?]. unfold in_range. split; [|done].
  unfold JournaledAccount_touch. destruct (Account_is_touched _); cbn; lia.
Qed.

Lemma ja_decr_balance_step b ja :
  0 <= b -> u256 (balance (info (ja_account ja))) -> ja_step ja (JournaledAccount_decr_balance b ja).2.
Proof.
  intros Hb Hu. eapply ja_step_trans; [apply ja_touch_step|]. unfold JournaledAccount_decr_balance.
  destruct (checked_sub _ _) as [b'|] eqn:Ec; [|apply ja_step_refl]. apply ja_set_balance_step.
  apply checked_sub_spec in Ec as [-> Hle]. unfold in_range in *. revert Hle.
  unfold JournaledAccount_touch. destruct (Account_is_touched _); cbn; lia.
Qed.

Lemma ja_bump_nonce_step ja : ja_step ja (JournaledAccount_bump_nonce ja).2.
Proof.
  eapply ja_step_trans; [apply ja_touch_step|]. unfold JournaledAccount_bump_nonce.
  destruct (checked_add _ _ _) as [n|] eqn:Ec; [|apply ja_step_refl].
  apply ja_step_entry; [|done]. intros. by apply good_nonce.
Qed.

Lemma touch_code_hash ja : code_hash (info (ja_account (JournaledAccount_touch ja))) = code_hash (info (ja_account ja)).
Proof. unfold JournaledAccount_touch. by destruct (Account_is_touched _). Qed.

Lemma ja_set_code_step hash c ja :
  code_hash (info (ja_account ja)) = KECCAK_EMPTY -> ja_step ja (JournaledAccount_set_code hash c ja).
Proof.
  intros Hh. eapply ja_step_trans; [apply ja_touch_step|]. unfold JournaledAccount_set_code.
  apply ja_step_entry; [|done]. intros j Hs Hc.
  eapply (good_code _ _ (Bytecode_hash_slow c) (Some c)); [done..|]. by rewrite touch_code_hash.
Qed.

Lemma ja_delegate_step address ja :
  code_hash (info (ja_account ja)) = KECCAK_EMPTY -> ja_step ja (JournaledAccount_delegate address ja).
Proof.
  intros Hh. unfold JournaledAccount_delegate.
  destruct (if address =? 0 then _ else _) as [c h].
  eapply ja_step_trans; [apply ja_touch_step|]. eapply ja_step_trans; [|apply ja_bump_nonce_step].
  apply ja_set_code_step. by rewrite touch_code_hash.
Qed.

(** * Storage *)

Definition put_slot (k : Z) (t : EvmStorageSlot) (x : Account) : Account :=
  assign_storage (<[k := t]> (storage x)) x.

Lemma put_slot_le a k t x :
  slot_view a x k = Some (present_value t, original_value t, is_cold t) -> acc_le a (put_slot k t x) x.
Proof.
  intros Hv. split; [done|]. intros k'. unfold slot_view in *. cbn.
  destruct (decide (k = k')) as [<-|Hne].
  - rewrite lookup_insert_eq, Hv. split; [done|by eexists].
  - by rewrite lookup_insert_ne.
Qed.

Lemma put_slot_wf a k t x : acc_wf a x -> is_cold t = false -> acc_wf a (put_slot k t x).
Proof.
  intros [Wv Ws] Hc. split; [done|]. intros k' p o. unfold slot_view in *. cbn.
  destruct (decide (k = k')) as [<-|Hne].
  - rewrite lookup_insert_eq, Hc. done.
  - rewrite lookup_insert_ne by done. apply Ws.
Qed.

Lemma put_slot_tx k t x : tx_wf x -> slot_transaction_id t = 0%nat -> tx_wf (put_slot k t x).
Proof.
  intros [H1' H2'] Ht. split; [done|]. intros k' t'. cbn.
  destruct (decide (k = k')) as [<-|]; [rewrite lookup_insert_eq; by intros [= <-]|].
  rewrite lookup_insert_ne by done. apply H2'.
Qed.

Lemma with_slot_insert a k f t x s :
  with_slot a k f (<[a := put_slot k t x]> s) = Some (<[a := put_slot k (f t) x]> s).
Proof.
  unfold with_slot. rewrite lookup_insert_eq. cbn. rewrite lookup_insert_eq, insert_insert_eq.
  unfold put_slot, assign_storage. cbn. by rewrite insert_insert_eq.
Qed.

(** A slot written over the one with view [(p, o, c)], recorded by an entry
    whose revert [f] restores that view. *)
Lemma good_slot a x k t e f j :
  j_state j !! a = Some x -> entry_ok e -> (forall t, revert_transient e t = t) ->
  (forall s, revert_state e spurious s = with_slot a k f s) ->
  is_cold t = false -> slot_transaction_id t = 0%nat ->
  (journal_wf j -> slot_view a x k = Some (present_value (f t), original_value (f t), is_cold (f t))) ->
  good j (put_account a (put_slot k t x) (push_entry e j)).
Proof.
  intros Hx He Ht Hr Hc Htx Hv Hj. specialize (Hv Hj). revert Hj.
  eapply good_account; [done..| |].
  - rewrite Hr. apply with_slot_insert.
  - intros. split_and!; [by apply put_slot_wf|by apply put_slot_tx|by apply put_slot_le].
Qed.

Lemma good_slot_silent a x k t j :
  j_state j !! a = Some x -> slot_transaction_id t = 0%nat ->
  slot_view a x k = Some (present_value t, original_value t, is_cold t) ->
  good j (put_account a (put_slot k t x) j).
Proof.
  intros Hx Htx Hv. eapply good_silent; [done|by apply put_slot_le|]. intros. by apply put_slot_tx.
Qed.

(** The slot a load leaves in the account [x], recorded when it was cold. *)
Lemma slot_load_good a x k v cold j :
  j_state j !! a = Some x -> slot_view a x k = Some (v, v, cold) ->
  good j (let j := put_account a (put_slot k (mkEvmStorageSlot v v 0 false) x) j in
          if cold then push_entry (StorageWarmed k a) j else j).
Proof.
  intros Hx Hv. destruct cold.
  - by eapply (good_slot a x k _ (StorageWarmed k a) EvmStorageSlot_mark_cold).
  - by apply good_slot_silent.
Qed.

Lemma warm_loaded_put_slot a x k t j es :
  j_state j !! a = Some x ->
  forall b, warm_loaded j b -> warm_loaded (set_journal es (put_account a (put_slot k t x) j)) b.
Proof.
  intros Hx b (y & Hy & Cy). unfold warm_loaded. cbn.
  destruct (decide (a = b)) as [<-|]; [rewrite lookup_insert_eq; simplify_eq; eauto|].
  rewrite lookup_insert_ne by done. eauto.
Qed.

(** The end of a storage load: the slot is written back warm. *)
Lemma sload_end a x k v cold t j db1 r j' db' :
  journal_wf j -> j_state j !! a = Some x ->
  answers db1 -> present_value t = v -> is_cold t = false -> slot_transaction_id t = 0%nat ->
  good j (let j := put_account a (put_slot k t x) j in
          if (cold : bool) then push_entry (StorageWarmed k a) j else j) ->
  Some (Ok (E := JournalLoadError E) (mkStateLoad v cold),
     if cold then push_entry (StorageWarmed k a) (put_account a (put_slot k t x) j)
     else put_account a (put_slot k t x) j, db1) = Some (r, j', db') ->
  step_ok j j' db' /\ forall load, r = Ok load -> exists x t,
    j_state j' !! a = Some x /\ storage x !! k = Some t /\ present_value t = data load /\
    is_cold t = false /\ slot_transaction_id t = 0%nat.
Proof.
  intros Hj Hx Hdb1 Hp Hc Ht Hg [= <- <- <-]. destruct (Hg Hj) as [Hw Hu]. split.
  - split_and!; [done..|]. intros b Hb. destruct cold.
    + by apply warm_loaded_put_slot.
    + apply (warm_loaded_put_slot a x k t j (j_journal j) Hx b) in Hb. exact Hb.
  - intros load [= <-]. exists (put_slot k t x), t.
    split_and!; [destruct cold; cbn; by rewrite lookup_insert_eq|cbn; by rewrite lookup_insert_eq|done..].
Qed.

Lemma sload_good a k skip j db r j' db' :
  journal_wf j -> answers db -> JournalInner_sload a k skip j db = Some (r, j', db') ->
  step_ok j j' db' /\ forall load, r = Ok load -> exists x t,
    j_state j' !! a = Some x /\ storage x !! k = Some t /\ present_value t = data load /\
    is_cold t = false /\ slot_transaction_id t = 0%nat.
Proof.
  intros Hj Hdb. unfold JournalInner_sload. destruct (j_state j !! a) as [x|] eqn:Hx; [|done].
  rewrite (jwf_tx _ Hj), (jwf_warm _ Hj). destruct (jwf_state _ Hj _ _ Hx) as [[Wv Ws] [Tx Tk]].
  destruct (storage x !! k) as [t|] eqn:Hk.
  - assert (EvmStorageSlot_is_cold_transaction_id t 0 = is_cold t) as Hcold.
    { unfold EvmStorageSlot_is_cold_transaction_id. by rewrite (Tk k t Hk). }
    assert (slot_view a x k = Some (present_value t, original_value t, is_cold t)) as Hv.
    { unfold slot_view. by rewrite Hk. }
    unfold EvmStorageSlot_mark_warm_with_transaction_id. rewrite Hcold.
    destruct (skip && is_cold t); [intros [= <- <- <-]; split; [by apply step_ok_refl|done]|].
    apply sload_end; [done..|]. destruct (is_cold t) eqn:Ec.
    + specialize (Ws _ _ _ Hv). rewrite Ws in Hv. exact (slot_load_good a x k _ true j Hx Hv).
    + by apply good_slot_silent.
  - destruct skip; [intros [= <- <- <-]; split; [by apply step_ok_refl|done]|].
    assert (exists r1 db1, (if Account_is_created x then (Ok 0, db) else db_storage db a k) = (r1, db1) /\
      answers db1 /\ forall v, r1 = Ok v -> slot_view a x k = Some (v, v, slot_cold a k))
      as (r1 & db1 & -> & Hdb1 & Hv).
    { unfold slot_view. rewrite Hk. unfold Account_is_created. destruct (status_contains _ _).
      - eexists _, _. split_and!; [done..|]. by intros v [= <-].
      - pose proof (db_storage_same db a k) as Hs. pose proof (ans_storage _ Hdb a k) as Ha.
        destruct (db_storage db a k) as [r1 db1]. eexists _, _. split_and!; [done|by eapply answers_same|].
        intros v ->. cbn in Ha. by rewrite <- Ha. }
    destruct r1 as [v|e]; [|intros [= <- <- <-]; split; [by apply step_ok_refl|done]].
    apply sload_end; [done..|]. apply slot_load_good; auto.
Qed.

Lemma sstore_good a k new skip j db r j' db' :
  journal_wf j -> answers db -> JournalInner_sstore a k new skip j db = Some (r, j', db') ->
  step_ok j j' db'.
Proof.
  intros Hj Hdb. unfold JournalInner_sstore.
  destruct (JournalInner_sload _ _ _ _ _) as [[[r1 j1] db1]|] eqn:El; [|done].
  apply sload_good in El as [Hs Hl]; [|done..].
  destruct r1 as [present|e]; [|by intros [= <- <- <-]].
  destruct (Hl _ eq_refl) as (x & t & Hx & Hk & Hp & Hc & Ht). rewrite Hx, Hk.
  destruct (present_value t =? new); [by intros [= <- <- <-]|]. intros [= <- <- <-].
  eapply step_ok_trans; [exact Hs|]. destruct Hs as (Hw1 & _ & Hdb1 & _).
  assert (good j1 (put_account a (put_slot k (assign_present_value new t) x)
    (push_entry (StorageChanged k (data present) a) j1))) as Hg.
  { eapply good_slot; [done..|]. intros _. unfold slot_view. by rewrite Hk, <- Hp. }
  destruct (Hg Hw1). split_and!; [done..|]. by apply (warm_loaded_put_slot a x k _ (push_entry _ j1) _ Hx).
Qed.

Lemma tstore_good a k new j : good j (JournalInner_tstore a k new j).
Proof.
  intros Hj. pose proof (jwf_transient _ Hj) as Ht. unfold JournalInner_tstore.
  assert (forall t' es, map_Forall (fun _ v => v <> 0) t' ->
    (exists e, es = [e] /\ entry_ok e /\ (forall s, revert_state e spurious s = Some s)) \/ es = [] ->
    foldr revert_transient t' es = j_transient_storage j ->
    journal_wf (set_journal (j_journal j ++ es) (set_transient t' j)) /\
    undoable j (set_journal (j_journal j ++ es) (set_transient t' j))) as Hgen.
  { intros t' es Ht' Hes Hr. split; [destruct Hj; by split|]. exists es.
    split; [done| | |done|by exists []; rewrite app_nil_r|done].
    - destruct Hes as [(e & -> & ? & _)| ->]; [by constructor|done].
    - destruct Hes as [(e & -> & _ & Hs)| ->]; cbn; rewrite ?Hs; by eexists. }
  assert (forall t', set_journal (j_journal j ++ []) (set_transient t' j) = set_transient t' j) as Hnil.
  { intros. unfold set_journal, set_transient. by rewrite app_nil_r. }
  destruct (Z.eqb_spec new 0) as [->|Hn].
  - destruct (j_transient_storage j !! (a, k)) as [h|] eqn:Eh.
    + apply (Hgen _ [_]); [by apply map_Forall_delete|left; by eexists; split_and!|]. cbn [foldr revert_transient].
      pose proof (Ht _ _ Eh). destruct (Z.eqb_spec h 0); [done|].
            rewrite insert_delete_eq. by apply insert_id.
    + rewrite <- Hnil. apply Hgen; [by apply map_Forall_delete|by right|]. by apply delete_id.
  - destruct (Z.eqb_spec (default 0 (j_transient_storage j !! (a, k))) new) as [He|He]; cbn [negb].
    + rewrite <- Hnil. apply Hgen; [by apply map_Forall_insert_2|by right|].
      cbn. apply insert_id. destruct (_ !! _); cbn in He; congruence.
    + apply (Hgen _ [_]); [by apply map_Forall_insert_2|left; by eexists; split_and!|]. cbn [foldr revert_transient].
      destruct (j_transient_storage j !! (a, k)) as [h|] eqn:Eh; cbn [default from_option id].
      * pose proof (Ht _ _ Eh). destruct (Z.eqb_spec h 0); [done|].
        by rewrite insert_insert_eq, insert_id.
      * by rewrite delete_insert_id.
Qed.

Lemma log_good l j : good j (JournalInner_log l j).
Proof.
  intros Hj. split; [destruct Hj; by split|]. exists []. split; rewrite ?app_nil_r; try done; by eexists.
Qed.

Lemma set_code_with_hash_good a c hash j j' :
  warm_loaded j a -> (forall x, j_state j !! a = Some x -> code_hash (info x) = KECCAK_EMPTY) ->
  JournalInner_set_code_with_hash a c hash j = Some j' -> good j j'.
Proof.
  intros (x & Hx & Cx) Hh. unfold JournalInner_set_code_with_hash.
  destruct (touch_loaded a j) as [[acc j1]|] eqn:El; [|done]. intros [= <-].
  apply touch_loaded_good in El as (G1 & Hacc & _ & x' & Hx' & _ & Cacc & Hcode & _). simplify_eq.
  eapply good_trans; [exact G1|]. apply good_code; [done|congruence|]. rewrite Hcode. auto.
Qed.

(** * Selfdestruct *)

Definition destroyed (x : Account) : Account :=
  assign_balance 0 (Account_mark_selfdestructed_locally x).1.

Lemma destroyed_wf a x : acc_wf a x -> cold_acc x = false -> acc_wf a (destroyed x).
Proof.
  intros Hwf Hc. unfold destroyed, Account_mark_selfdestructed_locally.
  eapply acc_wf_update; [exact Hwf|done|by view_cbn|]. destruct Hwf as [[] _].
  split; view_cbn; auto; [by unfold in_range, modulus|by rewrite Hc].
Qed.

Lemma destroyed_undo a x :
  acc_wf a x ->
  acc_le a (add_balance (balance (info x)) (revert_destroyed_status (destroyed_status_of x) (destroyed x))) x.
Proof.
  intros [[Hb _ _ Hsd _] _].
  assert (wrapping_add 256 0 (balance (info x)) = balance (info x)) as Hadd by (by apply wrap_small).
  unfold destroyed_status_of, destroyed, Account_mark_selfdestructed_locally,
    Account_is_selfdestructed, Account_is_selfdestructed_locally.
  cbn [view v_selfdestructed v_selfdestructed_locally] in Hsd.
  destruct (status_contains (status x) SelfDestructed) eqn:E1,
    (status_contains (status x) SelfDestructedLocal) eqn:E2;
    try (by specialize (Hsd eq_refl)); cbn [negb revert_destroyed_status fst];
    (apply acc_le_undo; [done|by view_cbn|]); view_cbn; rewrite ?E1, ?E2; f_equal; done.
Qed.

Lemma good_destroy a x j :
  j_state j !! a = Some x -> cold_acc x = false ->
  good j (push_entry (AccountDestroyed (balance (info x)) a a (destroyed_status_of x))
            (put_account a (destroyed x) j)).
Proof.
  intros Hx Hc.
  change (good j (put_account a (destroyed x)
    (push_entry (AccountDestroyed (balance (info x)) a a (destroyed_status_of x)) j))).
  eapply good_account; [done..| |].
  - cbn [revert_state]. rewrite with_account_insert, Z.eqb_refl. done.
  - intros. split_and!; [by apply destroyed_wf|done|by apply destroyed_undo].
Qed.

(** The destroyed account's balance credited to another account. *)
Lemma good_destroy_to a t x y j :
  a <> t -> j_state j !! a = Some x -> j_state j !! t = Some y ->
  cold_acc x = false -> cold_acc y = false ->
  good j (push_entry (AccountDestroyed (balance (info x)) a t (destroyed_status_of x))
    (put_account a (destroyed x) (put_account t (add_balance (balance (info x)) y) j))).
Proof.
  intros Hne Hx Hy Cx Cy.
  apply (good_state
    (<[a := destroyed x]> (<[t := add_balance (balance (info x)) y]> (j_state j)))
    [AccountDestroyed (balance (info x)) a t (destroyed_status_of x)]
    (<[t := sub_balance (balance (info x)) (add_balance (balance (info x)) y)]>
      (<[a := add_balance (balance (info x)) (revert_destroyed_status (destroyed_status_of x) (destroyed x))]>
        (j_state j)))); [done|done|by constructor|].
  intros Hj. destruct (jwf_state _ Hj _ _ Hx) as [Wx Tx]. destruct (jwf_state _ Hj _ _ Hy) as [Wy Ty].
  split_and!.
  - apply state_wf_insert; [apply state_wf_insert; [apply Hj|..]|..]; try done.
    + apply assign_balance_wf; auto with word.
    + by apply destroyed_wf.
  - cbn [revert_states foldr revert_state]. rewrite with_account_insert.
    destruct (Z.eqb_spec a t); [done|]. cbn [negb]. rewrite insert_insert_ne by done.
    by rewrite with_account_insert.
  - rewrite <- (insert_id (j_state j) t y) at 2 by done.
    rewrite <- (insert_id (j_state j) a x) at 2 by done.
    apply state_le_insert; [apply state_le_insert; [done|]|].
    + by apply destroyed_undo.
    + pose proof (wf_balance _ _ (proj1 Wy)). apply acc_le_undo; [done..|]. view_cbn. f_equal.
      by apply wrapping_add_sub.
Qed.

Lemma put_put_comm a b x y e j :
  a <> b -> push_entry e (put_account a x (put_account b y j)) = push_entry e (put_account b y (put_account a x j)).
Proof.
  intros. unfold put_account, push_entry, set_state, set_journal. cbn. by rewrite insert_insert_ne.
Qed.

(** The second half of [selfdestruct], after the target is loaded. *)
Lemma selfdestruct_rest_good (spec : SpecId) a t (j j' : JournalInner) :
  warm_loaded j a -> warm_loaded j t ->
  (let? j :=
     if negb (a =? t) then
       let? acc := j_state j !! a in
       let? (target_account, j) := touch_loaded t j in
       Some (put_account t (add_balance (balance (info acc)) target_account) j)
     else Some j in
   let? acc := j_state j !! a in
   Some (if Account_is_created_locally acc || negb (SpecId_is_enabled_in spec CANCUN) then
           push_entry (AccountDestroyed (balance (info acc)) a t (destroyed_status_of acc))
             (put_account a (assign_balance 0 (Account_mark_selfdestructed_locally acc).1) j)
         else if negb (a =? t) then
           push_entry (BalanceTransfer (balance (info acc)) a t) (put_account a (assign_balance 0 acc) j)
         else j)) = Some j' -> good j j'.
Proof.
  intros (x & Hx & Cx) (y & Hy & Cy). destruct (Z.eqb_spec a t) as [->|Hne]; cbn [negb].
  - rewrite Hx. intros [= <-]. case_if; [by apply good_destroy|apply good_refl].
  - rewrite Hx. destruct (touch_loaded t j) as [[yt j1]|] eqn:El; [|done].
    apply touch_loaded_good in El as (G1 & Hyt & Hoth & y' & Hy' & By & Cyt & _ & _). simplify_eq.
    cbn [put_account set_state j_state]. rewrite lookup_insert_ne, Hoth, Hx by done.
    intros [= <-]. eapply good_trans; [exact G1|].
    assert (j_state j1 !! a = Some x) as Hx1 by (by rewrite Hoth). case_if.
    + apply good_destroy_to; congruence.
    + rewrite put_put_comm by done. intros Hj.
      pose proof (wf_balance _ _ (proj1 (proj1 (jwf_state _ Hj _ _ Hx1)))) as Hb. cbn in Hb.
      eapply (good_transfer a t x yt); try done; try congruence.
      unfold wrapping_sub. by rewrite Z.sub_diag.
Qed.

Lemma selfdestruct_good a t j db r j' db' :
  journal_wf j -> answers db -> warm_loaded j a ->
  JournalInner_selfdestruct a t j db = Some (r, j', db') ->
  journal_wf j' /\ undoable j j' /\ answers db'.
Proof.
  intros Hj Hdb Ha. unfold JournalInner_selfdestruct.
  destruct (JournalInner_load_account t j db) as [[[r1 j1] db1]|] eqn:El; [|done].
  apply load_account_good in El as [Hs Hl]; [|done..]. destruct Hs as (Hw1 & Hu1 & Hdb1 & Hwl).
  destruct r1 as [load|e]; [|by intros [= <- <- <-]]. destruct (Hl _ eq_refl) as [_ Ht].
  pose proof (selfdestruct_rest_good (j_spec j) a t j1) as Hrest.
  destruct (if negb (a =? t) then _ else Some j1) as [j2|]; [|done].
  destruct (j_state j2 !! a) as [acc|]; [|done].
  intros [= <- <- <-]. destruct (Hrest _ (Hwl _ Ha) Ht eq_refl Hw1) as [Hw Hu].
  split_and!; [done| |done]. by eapply undoable_trans.
Qed.

(** * Account creation *)

Lemma good_created a x spec_id j :
  j_state j !! a = Some x -> cold_acc x = false -> spec_id = te_spec -> storage_empty a ->
  nonce (info x) = 0 -> (spurious = true \/ Account_is_created_locally x = false) ->
  let '(y, g) := Account_mark_created_locally x in
  let y := assign_info (assign_code None (info y)) y in
  let y := if SpecId_is_enabled_in spec_id SPURIOUS_DRAGON then assign_nonce 1 y else y in
  good j (put_account a y (push_entry (AccountCreated a g) j)).
Proof.
  intros Hx Hc -> Hse Hn Hl. unfold Account_mark_created_locally. fold spurious.
  unfold Account_is_created_locally in Hl. cbv zeta.
  eapply (good_account a x); [done|done|done|cbn [revert_state]; apply with_account_insert|].
  intros [Wv Ws] Htx.
  assert (status_contains (status x) CreatedLocal = false) as Hcl.
  { destruct Hl as [Hsp|]; [|done]. apply not_true_iff_false. intros Ht.
    by apply (wf_created _ _ Wv Hsp Ht). }
  split_and!.
  - split.
    + destruct Wv. destruct spurious eqn:?; split; view_cbn; auto; rewrite ?Hc; try done; try congruence.
    + intros k p o. specialize (Ws k p o). rewrite slot_view_storage_empty in * by done.
      by destruct spurious.
  - by destruct spurious.
  - split.
    + unfold cold_acc in Hc. rewrite status_contains_insert by auto with flags.
      change (CreatedLocal =? Created) with false. cbn [orb].
      destruct (status_contains (status x) Created) eqn:Ecr; unfold revert_account_created; cbn [negb];
        destruct spurious; view_cbn; rewrite ?Hcl, ?Ecr, ?Hn; done.
    + intros k. rewrite !slot_view_storage_empty by done. unfold revert_account_created.
      by destruct spurious, (negb _).
Qed.

(** A balance moved from an account to itself. *)
Lemma good_transfer_self a x b bal j :
  j_state j !! a = Some x -> cold_acc x = false -> checked_add 256 (balance (info x)) bal = Some b ->
  good j (push_entry (BalanceTransfer bal a a)
    (put_account a (sub_balance bal (assign_balance b x)) (put_account a (assign_balance b x) j))).
Proof.
  intros Hx Hc Hb. apply checked_add_spec in Hb as [-> Hb].
  replace (push_entry _ _) with
    (put_account a (sub_balance bal (assign_balance (balance (info x) + bal) x))
       (push_entry (BalanceTransfer bal a a) j)).
  2: { unfold put_account, push_entry, set_state, set_journal. cbn. by rewrite insert_insert_eq. }
  eapply (good_account a x); [done..| |].
  - cbn [revert_state]. rewrite with_account_insert. apply with_account_insert.
  - intros Hwf Htx. pose proof (wf_balance _ _ (proj1 Hwf)) as Hu. cbn in Hu.
    assert (wrapping_sub 256 (balance (info x) + bal) bal = balance (info x)) as Hs.
    { unfold wrapping_sub. replace (_ + bal - bal) with (balance (info x)) by lia. by apply wrap_small. }
    split_and!; [|done|].
    + change (acc_wf a (assign_balance (wrapping_sub 256 (balance (info x) + bal) bal) x)).
      apply assign_balance_wf; auto with word.
    + apply acc_le_undo; [done..|]. view_cbn. f_equal. rewrite Hs. by apply wrapping_add_sub.
Qed.

(** * Checkpoints *)

(** What a revert gives back: the same journal, logs, transient storage and
    depth, and a state that means the same. *)
Record restored (j j' : JournalInner) : Prop := {
  res_state : state_le (j_state j') (j_state j);
  res_transient : j_transient_storage j' = j_transient_storage j;
  res_logs : j_logs j' = j_logs j;
  res_depth : j_depth j' = j_depth j;
  res_journal : j_journal j' = j_journal j;
  res_transaction_id : j_transaction_id j' = j_transaction_id j;
  res_spec : j_spec j' = j_spec j;
  res_warm : j_warm_addresses j' = j_warm_addresses j }.

Lemma state_wf_tx s : state_wf s -> state_tx_wf s.
Proof. intros Hs a x Hx. by eapply Hs. Qed.

Lemma checkpoint_undo j j2 :
  journal_wf j -> journal_wf j2 -> undoable (JournalInner_checkpoint j).2 j2 ->
  exists j3, JournalInner_checkpoint_revert (JournalInner_checkpoint j).1 j2 = Some j3 /\
    restored j j3 /\ journal_wf j3.
Proof.
  intros Hj Hj2 (es & [J O (s & R & L) T (l & G) D]). cbn in J, L, T, G, D.
  unfold JournalInner_checkpoint_revert. cbn [JournalInner_checkpoint fst log_i journal_i].
  cbn [set_depth set_logs j_journal j_logs j_state j_transient_storage].
  rewrite J, G, drop_app_length, take_app_length, length_app, take_app_length.
  assert (is_spurious_dragon_enabled
    (set_logs (j_logs j) (set_depth (j_depth j2 - 1) j2)) = spurious) as Hsp.
  { unfold is_spurious_dragon_enabled. cbn. by rewrite (jwf_spec _ Hj2). }
  assert (state_wf s) as Hws.
  { eapply state_wf_le; [done| |apply Hj]. eapply revert_states_tx; [|done]. apply state_wf_tx, Hj2. }
  assert (forall t', t' = j_transient_storage j -> forall j3,
    j3 = mkJournalInner s t' (j_logs j) (j_depth j2 - 1) (j_journal j) (j_transaction_id j2) (j_spec j2)
      (j_warm_addresses j2) -> restored j j3 /\ journal_wf j3) as Hend.
  { intros t' -> j3 ->. destruct Hj, Hj2. split; split; cbn; try done; try congruence. lia. }
  destruct (Nat.ltb_spec (length (j_journal j)) (length (j_journal j) + length es)).
  - rewrite Hsp, revert_all_states, R. cbn [fmap option_fmap option_map]. eexists. split; [done|].
    by eapply Hend.
  - destruct es; [|cbn in *; lia]. cbn in R, T. injection R as <-. eexists. split; [done|].
    eapply Hend; [exact T|]. rewrite app_nil_r in J. unfold set_logs, set_depth. cbn. by rewrite J.
Qed.

Lemma restored_good j j' : journal_wf j' -> restored j j' -> undoable j j'.
Proof.
  intros Hj' [S T L D J _ _ _]. exists []. split; rewrite ?app_nil_r; try done.
  - by eexists.
  - exists []. by rewrite app_nil_r.
Qed.

Lemma checkpoint_commit_good j j2 :
  undoable (JournalInner_checkpoint j).2 j2 -> undoable j (JournalInner_checkpoint_commit j2).
Proof.
  intros (es & [J O R T L D]). exists es. split; try done. cbn in *. lia.
Qed.

Lemma checkpoint_wf j : journal_wf j -> journal_wf (JournalInner_checkpoint j).2.
Proof. intros []. by split. Qed.
Lemma commit_wf j : journal_wf j -> journal_wf (JournalInner_checkpoint_commit j).
Proof. intros []. by split. Qed.

Lemma warm_loaded_entries a e j : warm_loaded j a -> warm_loaded (push_entry e j) a.
Proof. done. Qed.

(** [create_account_checkpoint]: on success the changes made after the
    checkpoint are undoable; on failure everything is already undone. *)
(** An error of a creation reverts the checkpoint it opened. *)
Lemma create_error j j2 (e : TransferError) r j' :
  journal_wf j -> good (JournalInner_checkpoint j).2 j2 ->
  (let? j := JournalInner_checkpoint_revert (JournalInner_checkpoint j).1 j2 in
   Some (Err (A := JournalCheckpoint) e, j)) = Some (r, j') ->
  journal_wf j' /\
  match r with
  | Ok cp => cp = (JournalInner_checkpoint j).1 /\ undoable (JournalInner_checkpoint j).2 j'
  | Err _ => restored j j'
  end.
Proof.
  intros Hj Hg. destruct (Hg (checkpoint_wf _ Hj)) as [Hw2 Hu].
  destruct (checkpoint_undo j j2 Hj Hw2 Hu) as (j3 & Hr & Hres & Hw3). rewrite Hr. by intros [= <- <-].
Qed.

Lemma create_good caller target bal spec_id j r j' :
  journal_wf j -> spec_id = te_spec -> storage_empty target -> 0 <= bal ->
  warm_loaded j caller -> warm_loaded j target ->
  (spurious = true \/ forall x, j_state j !! target = Some x -> Account_is_created_locally x = false) ->
  JournalInner_create_account_checkpoint caller target bal spec_id j = Some (r, j') ->
  journal_wf j' /\
  match r with
  | Ok cp => cp = (JournalInner_checkpoint j).1 /\ undoable (JournalInner_checkpoint j).2 j'
  | Err _ => restored j j'
  end.
Proof.
  intros Hj Hsp Hse Hbal (xc & Hxc & Cxc) (x & Hx & Cx) Hl.
  unfold JournalInner_create_account_checkpoint.
  destruct (JournalInner_checkpoint j) as [cp j1] eqn:Ecp.
  assert (cp = (JournalInner_checkpoint j).1) as Hcp by (by rewrite Ecp).
  assert (j1 = (JournalInner_checkpoint j).2) as Hj1 by (by rewrite Ecp).
  assert (journal_wf j1) as Hw1 by (rewrite Hj1; by apply checkpoint_wf).
  pose proof (fun j2 e => create_error j j2 e r j' Hj) as Herr. rewrite Ecp in Herr. cbn [fst snd] in Herr.
  assert (j_state j1 = j_state j) as Hst by (by rewrite Hj1). rewrite Hst, Hx.
  destruct (negb _ || negb _) eqn:Ecol; [by apply Herr, good_refl|].
  apply orb_false_iff in Ecol as [_ En]. boolify.
  pose proof (good_created target x spec_id j1 ltac:(by rewrite Hst) Cx Hsp Hse En
    ltac:(destruct Hl; auto)) as Hc.
  destruct (Account_mark_created_locally x) as [y g] eqn:Ey. cbv zeta in Hc |- *.
  set (y' := if SpecId_is_enabled_in spec_id SPURIOUS_DRAGON then _ else _) in *.
  set (j2 := put_account target y' (push_entry (AccountCreated target g) j1)) in *.
  assert (cold_acc y' = false) as Cy.
  { unfold Account_mark_created_locally in Ey. injection Ey as <- _.
    unfold y', cold_acc in *. case_if; by status_simpl. }
  change (put_account target y' _) with j2.
  destruct (touch_loaded target j2) as [[yt j3]|] eqn:El; [|done].
  apply touch_loaded_good in El as (G3 & Hyt & Hoth & y'' & Hy'' & _ & Cyt & _ & _).
  assert (y'' = y') as -> by (unfold j2 in Hy''; cbn in Hy''; rewrite lookup_insert_eq in Hy''; congruence).
  assert (good j1 j3) as G13 by (by eapply good_trans).
  destruct (checked_add 256 _ bal) as [nb|] eqn:Ea; [|by apply Herr].
  cbn [put_account set_state j_state].
  assert (forall jf, good j3 jf -> Some (Ok (E := TransferError) cp, jf) = Some (r, j') ->
    journal_wf j' /\ match r with Ok cp' => cp' = (cp, j1).1 /\ undoable (cp, j1).2 j' | Err _ => restored j j' end)
    as Hok.
  { intros jf Hg [= <- <-]. destruct (good_trans _ _ _ G13 Hg Hw1). done. }
  destruct (decide (target = caller)) as [<-|Hne].
  - rewrite lookup_insert_eq. apply Hok. apply good_transfer_self; congruence.
  - rewrite lookup_insert_ne, Hoth by done. unfold j2. cbn [put_account set_state j_state push_entry set_journal].
    rewrite lookup_insert_ne, Hst, Hxc by done. apply Hok.
    change (good j3 (push_entry (BalanceTransfer bal caller target)
      (put_account caller (sub_balance bal xc) (put_account target (assign_balance nb yt) j3)))).
    rewrite put_put_comm by done. intros Hw3.
    pose proof (wf_balance _ _ (proj1 (proj1 (jwf_state _ Hw3 _ _ Hyt)))) as [? ?]. cbn in *.
    apply checked_add_spec in Ea as [-> ?].
    eapply (good_transfer caller target xc yt); try done; try congruence.
    + rewrite Hoth by done. unfold j2. cbn. by rewrite lookup_insert_ne, Hst.
    + unfold wrapping_add. rewrite wrap_small; [done|]. unfold in_range. lia.
Qed.

End Undo.
