(* ===== verification/JournalExec.v ===== *)
(** Executions of the journal: sequences of its operations with call frames
    nested in them, and the theorems about what a revert and a discard give
    back.

    [step] has one rule per operation.  Its side conditions, and [journal_wf], bound
    what the theorems cover:
    - the journal is in its first transaction ([j_transaction_id] is 0, as after
      [new] and [finalize]), and all its accounts and slots carry that id.  In a
      later transaction of one journal accounts loaded from the database turn
      cold again ([JournalLoads.load_account_cold_twice]) and a revert does not
      restore their warmth;
    - an account is loaded and warm before it is changed, as the callers of the
      code see to;
    - no payment overflows the balance of its recipient: there the code has
      debited the sender and, as its comment says, does not give the money back;
    - code and delegations are set on an account without code only, since the
      revert of a code change empties the code
      ([JournalLoads.code_change_revert_empties]);
    - a contract is created at a loaded address for which the database has no
      storage, and before Spurious Dragon only where this transaction has created
      none ([create_ok]). *)
From S2P Require Import Prelude Hardfork Bytecode State Database WarmAddresses JournalEntry JournalInner JournalView JournalRevert.
From stdpp Require Import base numbers list option tactics gmap.
From Stdlib Require Import ZArith Lia.

Local Open Scope Z_scope.

Section Exec.
Context `{BitVec, Keccak, JournalEnv, !JournalEnvLaws} {DB E : Type} `{!Database DB E, !DatabaseLaws DB E}.

(** The operations of a borrowed account. *)
Inductive account_op (ja : JournaledAccount) : JournaledAccount -> Prop :=
| op_touch : account_op ja (JournaledAccount_touch ja)
| op_set_balance b : u256 b -> account_op ja (JournaledAccount_set_balance b ja)
| op_incr_balance b : 0 <= b -> account_op ja (JournaledAccount_incr_balance b ja).2
| op_decr_balance b : 0 <= b -> account_op ja (JournaledAccount_decr_balance b ja).2
| op_bump_nonce : account_op ja (JournaledAccount_bump_nonce ja).2
| op_set_code hash c :
    code_hash (info (ja_account ja)) = KECCAK_EMPTY -> account_op ja (JournaledAccount_set_code hash c ja)
| op_delegate a :
    code_hash (info (ja_account ja)) = KECCAK_EMPTY -> account_op ja (JournaledAccount_delegate a ja).

Inductive step (j : JournalInner) (db : DB) : JournalInner -> DB -> Prop :=
| step_load_account a r j' db' :
    JournalInner_load_account a j db = Some (r, j', db') -> step j db j' db'
| step_load_code a r j' db' :
    JournalInner_load_code a j db = Some (r, j', db') -> step j db j' db'
| step_load_account_optional a lc skip r j' db' :
    JournalInner_load_account_optional a lc skip j db = (r, j', db') -> step j db j' db'
| step_load_account_delegated a r j' db' :
    JournalInner_load_account_delegated a j db = Some (r, j', db') -> step j db j' db'
| step_account a load ja j1 db' :
    JournalInner_load_account_mut a j db = Some (Ok load, j1, db') ->
    account_op (data load) ja -> step j db (write_back ja j1) db'
| step_balance_incr a b r j' db' :
    0 <= b -> JournalInner_balance_incr a b j db = Some (r, j', db') -> step j db j' db'
| step_touch a : step j db (JournalInner_touch a j) db
| step_transfer from to b r j' db' :
    0 <= b -> JournalInner_transfer from to b j db = Some (r, j', db') ->
    r <> Ok (Some OverflowPayment) -> step j db j' db'
| step_transfer_loaded from to b r j' :
    0 <= b -> warm_loaded j from -> warm_loaded j to ->
    JournalInner_transfer_loaded from to b j = Some (r, j') ->
    r <> Some OverflowPayment -> step j db j' db
| step_set_code a c j' :
    warm_loaded j a -> (forall x, j_state j !! a = Some x -> code_hash (info x) = KECCAK_EMPTY) ->
    JournalInner_set_code a c j = Some j' -> step j db j' db
| step_sload a k skip r j' db' :
    JournalInner_sload a k skip j db = Some (r, j', db') -> step j db j' db'
| step_sstore a k v skip r j' db' :
    JournalInner_sstore a k v skip j db = Some (r, j', db') -> step j db j' db'
| step_tstore a k v : step j db (JournalInner_tstore a k v j) db
| step_log l : step j db (JournalInner_log l j) db
| step_selfdestruct a t r j' db' :
    warm_loaded j a -> JournalInner_selfdestruct a t j db = Some (r, j', db') -> step j db j' db'.

(** What the caller of [create_account_checkpoint] establishes. *)
Definition create_ok (caller target bal : Z) (spec_id : SpecId) (j : JournalInner) : Prop :=
  spec_id = te_spec /\ storage_empty target /\ 0 <= bal /\
  warm_loaded j caller /\ warm_loaded j target /\
  (spurious = true \/ forall x, j_state j !! target = Some x -> Account_is_created_locally x = false).

(** Executions: steps, one after the other, and call and create frames, each
    committed or reverted. *)
Inductive exec : JournalInner -> DB -> JournalInner -> DB -> Prop :=
| exec_nil j db : exec j db j db
| exec_step j db j' db' : step j db j' db' -> exec j db j' db'
| exec_seq j1 db1 j2 db2 j3 db3 :
    exec j1 db1 j2 db2 -> exec j2 db2 j3 db3 -> exec j1 db1 j3 db3
| exec_call_commit j db j' db' :
    exec (JournalInner_checkpoint j).2 db j' db' ->
    exec j db (JournalInner_checkpoint_commit j') db'
| exec_call_revert j db j1 db' j' :
    exec (JournalInner_checkpoint j).2 db j1 db' ->
    JournalInner_checkpoint_revert (JournalInner_checkpoint j).1 j1 = Some j' ->
    exec j db j' db'
| exec_create_commit caller target bal spec_id cp j db j1 j2 db' :
    create_ok caller target bal spec_id j ->
    JournalInner_create_account_checkpoint caller target bal spec_id j = Some (Ok cp, j1) ->
    exec j1 db j2 db' -> exec j db (JournalInner_checkpoint_commit j2) db'
| exec_create_revert caller target bal spec_id cp j db j1 j2 db' j' :
    create_ok caller target bal spec_id j ->
    JournalInner_create_account_checkpoint caller target bal spec_id j = Some (Ok cp, j1) ->
    exec j1 db j2 db' -> JournalInner_checkpoint_revert cp j2 = Some j' -> exec j db j' db'
| exec_create_error caller target bal spec_id e j db j' :
    create_ok caller target bal spec_id j ->
    JournalInner_create_account_checkpoint caller target bal spec_id j = Some (Err e, j') ->
    exec j db j' db.

(** * Every step is undoable *)

Definition frame_ok (j j' : JournalInner) (db' : DB) : Prop :=
  journal_wf j' /\ undoable j j' /\ answers db'.

Lemma step_ok_frame j j' db' : step_ok j j' db' -> frame_ok j j' db'.
Proof. by intros (? & ? & ? & ?). Qed.

Lemma good_frame j j' db : journal_wf j -> answers db -> good j j' -> frame_ok j j' db.
Proof. intros Hj Hdb Hg. destruct (Hg Hj). done. Qed.

Lemma account_op_step ja ja' :
  u256 (balance (info (ja_account ja))) -> account_op ja ja' -> ja_step ja ja'.
Proof.
  intros Hb. destruct 1; [apply ja_touch_step|by apply ja_set_balance_step|
    apply ja_incr_balance_step; [done|by destruct Hb]|by apply ja_decr_balance_step|
    apply ja_bump_nonce_step|by apply ja_set_code_step|by apply ja_delegate_step].
Qed.

Lemma load_account_mut_ja a j db r j' db' :
  journal_wf j -> answers db -> JournalInner_load_account_mut a j db = Some (r, j', db') ->
  step_ok j j' db' /\ forall load, r = Ok load ->
    ja_of j' (data load) /\ u256 (balance (info (ja_account (data load)))).
Proof.
  intros Hj Hdb. unfold JournalInner_load_account_mut.
  destruct (JournalInner_load_account_mut_optional_code _ _ _ _ _) as [[r1 j1] db1] eqn:El.
  apply load_good in El as [Hs Hl]; [|done..].
  destruct r1 as [l|[e|]]; cbn; intros [= <- <- <-]; (split; [done|]); intros load [= <-].
  destruct (Hl l eq_refl) as (Ha & He & Hst & Hc). subst a.
  split; [by split_and!|].
  by apply (wf_balance _ _ (proj1 (proj1 (jwf_state _ (proj1 Hs) _ _ Hst)))).
Qed.

Lemma account_frame a load ja j db j1 db' :
  journal_wf j -> answers db -> JournalInner_load_account_mut a j db = Some (Ok load, j1, db') ->
  account_op (data load) ja -> frame_ok j (write_back ja j1) db'.
Proof.
  intros Hj Hdb Hl Hop. apply load_account_mut_ja in Hl as [(Hw & Hu & Ha & _) Hja]; [|done..].
  destruct (Hja _ eq_refl) as [Hof Hb].
  destruct (account_op_step _ _ Hb Hop j1 Hof) as (_ & _ & Hg). destruct (Hg Hw).
  split_and!; [done| |done]. by eapply undoable_trans.
Qed.

Lemma set_code_good a c j j' :
  warm_loaded j a -> (forall x, j_state j !! a = Some x -> code_hash (info x) = KECCAK_EMPTY) ->
  JournalInner_set_code a c j = Some j' -> good j j'.
Proof.
  intros Hw Hh. unfold JournalInner_set_code.
  destruct c as [c|c]; [destruct (_ =? 0)|]; by apply set_code_with_hash_good.
Qed.

Lemma transfer_frame from to b j db r j' db' :
  journal_wf j -> answers db -> 0 <= b -> JournalInner_transfer from to b j db = Some (r, j', db') ->
  r <> Ok (Some OverflowPayment) -> frame_ok j j' db'.
Proof.
  intros Hj Hdb Hb. unfold JournalInner_transfer.
  destruct (JournalInner_load_account from j db) as [[[r1 j1] db1]|] eqn:E1; [|done].
  apply load_account_good in E1 as [S1 L1]; [|done..].
  destruct r1 as [l1|e]; [|intros [= <- <- <-] _; by apply step_ok_frame].
  destruct S1 as (Hw1 & Hu1 & Hdb1 & Hwl1).
  destruct (JournalInner_load_account to j1 db1) as [[[r2 j2] db2]|] eqn:E2; [|done].
  apply load_account_good in E2 as [S2 L2]; [|done..].
  assert (step_ok j j2 db2) as S12 by (eapply step_ok_trans; [by split_and!|done]).
  destruct r2 as [l2|e]; [|intros [= <- <- <-] _; by apply step_ok_frame].
  destruct (JournalInner_transfer_loaded from to b j2) as [[res j3]|] eqn:E3; [|done].
  intros [= <- <- <-] Hr. destruct S2 as (Hw2 & _ & Hdb2 & Hwl2). destruct S12 as (_ & Hu12 & _ & _).
  apply transfer_loaded_good in E3; [|apply Hwl2, (L1 _ eq_refl)|apply (L2 _ eq_refl)|done|congruence].
  destruct (E3 Hw2). split_and!; [done| |done]. by eapply undoable_trans.
Qed.

Lemma step_frame j db j' db' : journal_wf j -> answers db -> step j db j' db' -> frame_ok j j' db'.
Proof.
  intros Hj Hdb. destruct 1.
  - by eapply step_ok_frame, load_account_good.
  - by eapply step_ok_frame, load_code_good.
  - by eapply step_ok_frame, load_optional_good.
  - by eapply step_ok_frame, load_account_delegated_good.
  - by eapply account_frame.
  - unfold JournalInner_balance_incr in *.
    destruct (JournalInner_load_account_mut a j db) as [[[r1 j1] db1]|] eqn:El; [|done].
    destruct r1 as [load|e]; simplify_eq.
    + pose proof (op_incr_balance (data load) b ltac:(done)) as Hop.
      destruct (JournaledAccount_incr_balance b (data load)) as [ok ja]. simplify_eq.
      by eapply account_frame.
    + eapply step_ok_frame, load_account_mut_ja; done.
  - apply good_frame; [done..|]. unfold JournalInner_touch.
    destruct (j_state j !! a) eqn:Hx; [by apply good_touch|apply good_refl].
  - by eapply transfer_frame.
  - apply good_frame; [done..|]. by apply (transfer_loaded_good from to b j r).
  - apply good_frame; [done..|]. by eapply set_code_good.
  - by eapply step_ok_frame, sload_good.
  - by eapply step_ok_frame, sstore_good.
  - apply good_frame; [done..|]. apply tstore_good.
  - apply good_frame; [done..|]. apply log_good.
  - by eapply selfdestruct_good.
Qed.

Lemma exec_frame j db j' db' : exec j db j' db' -> journal_wf j -> answers db -> frame_ok j j' db'.
Proof.
  induction 1 as [j db|j db j' db' Hs|j1 db1 j2 db2 j3 db3 _ IH1 _ IH2|j db j' db' _ IH
    |j db j1 db' j' _ IH Hr|caller target bal spec_id cp j db j1 j2 db' Hok Hc _ IH
    |caller target bal spec_id cp j db j1 j2 db' j' Hok Hc _ IH Hr
    |caller target bal spec_id e j db j' Hok Hc]; intros Hj Hdb.
  - split_and!; auto using undoable_refl.
  - by eapply step_frame.
  - destruct IH1 as (? & ? & ?); [done..|]. destruct IH2 as (? & ? & ?); [done..|].
    split_and!; try done. by eapply undoable_trans.
  - destruct IH as (? & ? & ?); [by apply checkpoint_wf|done|].
    split_and!; [by apply commit_wf|by apply checkpoint_commit_good|done].
  - destruct IH as (Hw & Hu & ?); [by apply checkpoint_wf|done|].
    destruct (checkpoint_undo j j1 Hj Hw Hu) as (j3 & Hr' & Hres & Hw3). simplify_eq.
    split_and!; [done|by apply restored_good|done].
  - destruct Hok as (? & ? & ? & ? & ? & ?). apply create_good in Hc as [Hw1 [-> Hu1]]; [|done..].
    destruct IH as (? & ? & ?); [done..|].
    split_and!; [by apply commit_wf|apply checkpoint_commit_good; by eapply undoable_trans|done].
  - destruct Hok as (? & ? & ? & ? & ? & ?). apply create_good in Hc as [Hw1 [-> Hu1]]; [|done..].
    destruct IH as (Hw & Hu & ?); [done..|].
    destruct (checkpoint_undo j j2 Hj Hw) as (j3 & Hr' & Hres & Hw3); [by eapply undoable_trans|]. simplify_eq.
    split_and!; [done|by apply restored_good|done].
  - destruct Hok as (? & ? & ? & ? & ? & ?). apply create_good in Hc as [Hw1 Hres]; [|done..].
    split_and!; [done|by apply restored_good|done].
Qed.

(** * Theorems *)

(** Journals in scope: the one that [finalize] leaves is well formed. *)
Lemma finalize_wf j :
  j_spec j = te_spec ->
  WarmAddresses_clear_coinbase_and_access_list (j_warm_addresses j) = te_warm ->
  journal_wf (JournalInner_finalize j).2.
Proof. by intros Hs Hw; split. Qed.



(** C27: a failed [create_account_checkpoint] (a collision, or an overflow of
    the credited balance) has undone its own changes.  Scope: the journal is in its
    first transaction (transaction id 0, with that id in all its accounts and slots)
    and well formed ([journal_wf]); the caller and the target are loaded and warm, the
    database has no storage at the target, the spec id is that of the journal, and
    before Spurious Dragon the target was not created in this transaction
    ([create_ok]). *)
Theorem create_error_restores caller target bal spec_id e j j' :
  journal_wf j -> create_ok caller target bal spec_id j ->
  JournalInner_create_account_checkpoint caller target bal spec_id j = Some (Err e, j') ->
  restored j j'.
Proof.
  intros Hj (? & ? & ? & ? & ? & ?) Hc. by apply create_good in Hc as [_ Hres].
Qed.

End Exec.

(** * Concrete executions

    The empty database, the journal of a new transaction and a store in it. *)
Module Example.
#[local] Existing Instance Lsb0BitVec.
#[local] Instance zero_keccak : Keccak := fun _ => 0.
#[local] Existing Instance EmptyDB_Database.
#[local] Existing Instance EmptyDB_Laws.

#[local] Instance empty_env : JournalEnv :=
  {| te_basic := fun _ => Some None; te_storage := fun _ _ => Some 0;
     te_warm := WarmAddresses_new; te_spec := SpecId_default |}.
#[local] Instance empty_env_laws : JournalEnvLaws.
Proof. by intros a i. Qed.

Lemma empty_answers : answers empty_db.
Proof. by split. Qed.

Lemma new_wf : journal_wf JournalInner_new.
Proof. split; try done. Qed.

(** The journal after an account was loaded, stored to and funded. *)
Definition run_load (j : JournalInner) (a : Z) : JournalInner :=
  match JournalInner_load_account a j empty_db with Some (_, j, _) => j | None => j end.
Definition run_sstore (j : JournalInner) (a k v : Z) : JournalInner :=
  match JournalInner_sstore a k v false j empty_db with Some (_, j, _) => j | None => j end.

Definition j_loaded : JournalInner := run_load (run_load JournalInner_new 0x1000) 0x2000.

Lemma run_load_exec j a : exec j empty_db (run_load j a) empty_db.
Proof.
  unfold run_load. destruct (JournalInner_load_account a j empty_db) as [[[r j'] []]|] eqn:El;
    [by eapply exec_step, step_load_account|apply exec_nil].
Qed.

Lemma run_sstore_exec j a k v : exec j empty_db (run_sstore j a k v) empty_db.
Proof.
  unfold run_sstore. destruct (JournalInner_sstore a k v false j empty_db) as [[[r j'] []]|] eqn:El;
    [by eapply exec_step, step_sstore|apply exec_nil].
Qed.

Lemma j_loaded_exec : exec JournalInner_new empty_db j_loaded empty_db.
Proof. eapply exec_seq; apply run_load_exec. Qed.

Lemma j_loaded_wf : journal_wf j_loaded.
Proof. apply (exec_frame _ _ _ _ j_loaded_exec new_wf empty_answers). Qed.

Definition j_stored (j : JournalInner) : JournalInner := run_sstore (run_load j 0x3000) 0x3000 5 7.

Lemma j_stored_exec :
  exec (JournalInner_checkpoint j_loaded).2 empty_db (j_stored (JournalInner_checkpoint j_loaded).2) empty_db.
Proof. eapply exec_seq; [apply run_load_exec|apply run_sstore_exec]. Qed.

(** The store does happen: the slot holds 7 before the revert. *)
Lemma j_stored_value :
  (x ← j_state (j_stored (JournalInner_checkpoint j_loaded).2) !! 0x3000; storage x !! 5)
  = Some (mkEvmStorageSlot 0 7 0 false).
Proof. vm_compute. reflexivity. Qed.



Lemma example_create_ok : create_ok 0x1000 0x2000 0 SpecId_default j_loaded.
Proof.
  split_and!; try done; try (by left);
  by (eexists; split; [vm_compute; reflexivity|vm_compute; reflexivity]).
Qed.

Definition run_create (caller target bal : Z) (j : JournalInner)
    : result JournalCheckpoint TransferError * JournalInner :=
  match JournalInner_create_account_checkpoint caller target bal SpecId_default j with
  | Some r => r | None => (Err CreateCollision, j) end.


(** The second creation of the same contract collides. *)
Definition j_created : JournalInner := (run_create 0x1000 0x2000 0 j_loaded).2.

Lemma j_created_wf : journal_wf j_created.
Proof.
  destruct example_create_ok as (? & ? & ? & ? & ? & ?).
  eapply (create_good 0x1000 0x2000 0 SpecId_default j_loaded (Ok (mkJournalCheckpoint 0 2)));
    [exact j_loaded_wf|done..|vm_compute; reflexivity].
Qed.

Lemma recreate_ok : create_ok 0x1000 0x2000 0 SpecId_default j_created.
Proof.
  split_and!; try done; try (by left);
  by (eexists; split; [vm_compute; reflexivity|vm_compute; reflexivity]).
Qed.

Lemma create_error_restores_witness :
  exists j', JournalInner_create_account_checkpoint 0x1000 0x2000 0 SpecId_default j_created
      = Some (Err CreateCollision, j') /\ restored j_created j'.
Proof.
  eexists. split; [vm_compute; reflexivity|].
  apply (create_error_restores 0x1000 0x2000 0 SpecId_default CreateCollision j_created);
    [exact j_created_wf|exact recreate_ok|vm_compute; reflexivity].
Defined.
End Example.
