(* ===== verification/Gas.v ===== *)
(** Gas accounting of [crates/interpreter/src/gas.rs], [gas/calc.rs] and
    [gas/constants.rs].

    Gas amounts are [u64] values; the plain [+=] and [-] on them are modelled
    wrapping, as in a release build.  Refunds are [i64].  Where a cost function
    only adds constants the sums are far below [2^64] and are written plainly
    ([sstore_cost_range] and the like bound them). *)
From S2P Require Import Prelude Hardfork State Database JournalEntry.
From stdpp Require Import base numbers list option tactics.
From Stdlib Require Import ZArith Lia.

Local Open Scope Z_scope.

(** * Constants *)

Definition ZERO : Z := 0.
Definition BASE : Z := 2.
Definition VERYLOW : Z := 3.
Definition LOW : Z := 5.
Definition MID : Z := 8.
Definition HIGH : Z := 10.
Definition GAS_JUMPDEST : Z := 1.
Definition SELFDESTRUCT_REFUND : Z := 24000.
Definition GAS_CREATE : Z := 32000.
Definition CALLVALUE : Z := 9000.
Definition NEWACCOUNT : Z := 25000.
Definition GAS_EXP : Z := 10.
Definition MEMORY : Z := 3.
Definition LOG : Z := 375.
Definition LOGDATA : Z := 8.
Definition LOGTOPIC : Z := 375.
Definition GAS_KECCAK256 : Z := 30.
Definition KECCAK256WORD : Z := 6.
Definition COPY : Z := 3.
Definition GAS_BLOCKHASH : Z := 20.
Definition CODEDEPOSIT : Z := 200.
Definition ISTANBUL_SLOAD_GAS : Z := 800.
Definition SSTORE_SET : Z := 20000.
Definition SSTORE_RESET : Z := 5000.
Definition REFUND_SSTORE_CLEARS : Z := 15000.
Definition STANDARD_TOKEN_COST : Z := 4.
Definition NON_ZERO_BYTE_DATA_COST : Z := 68.
Definition NON_ZERO_BYTE_MULTIPLIER : Z := NON_ZERO_BYTE_DATA_COST / STANDARD_TOKEN_COST.
Definition NON_ZERO_BYTE_DATA_COST_ISTANBUL : Z := 16.
Definition NON_ZERO_BYTE_MULTIPLIER_ISTANBUL : Z := NON_ZERO_BYTE_DATA_COST_ISTANBUL / STANDARD_TOKEN_COST.
Definition TOTAL_COST_FLOOR_PER_TOKEN : Z := 10.
Definition ACCESS_LIST_ADDRESS : Z := 2400.
Definition ACCESS_LIST_STORAGE_KEY : Z := 1900.
Definition COLD_SLOAD_COST : Z := 2100.
Definition COLD_ACCOUNT_ACCESS_COST : Z := 2600.
Definition WARM_STORAGE_READ_COST : Z := 100.
Definition COLD_ACCOUNT_ACCESS_COST_ADDITIONAL : Z := COLD_ACCOUNT_ACCESS_COST - WARM_STORAGE_READ_COST.
Definition COLD_SLOAD_COST_ADDITIONAL : Z := COLD_SLOAD_COST - WARM_STORAGE_READ_COST.
Definition WARM_SSTORE_RESET : Z := SSTORE_RESET - COLD_SLOAD_COST.
Definition INITCODE_WORD_COST : Z := 2.
Definition CALL_STIPEND : Z := 2300.
Definition MIN_CALLEE_GAS : Z := CALL_STIPEND.
Definition PER_AUTH_BASE_COST : Z := 12500.
Definition PER_EMPTY_ACCOUNT_COST : Z := 25000.

(** * Memory gas *)

Definition u64_max : Z := modulus 64 - 1.

(** [num_words] of [interpreter/shared_memory.rs]. *)
Definition num_words (len : Z) : Z := saturating_add 64 len 31 / 32.

Definition memory_gas (num_words : Z) : Z :=
  saturating_add 64 (saturating_mul 64 MEMORY num_words) (saturating_mul 64 num_words num_words / 512).

Record MemoryGas := mkMemoryGas { words_num : Z; expansion_cost : Z }.

Definition MemoryGas_new : MemoryGas := mkMemoryGas 0 0.

Definition MemoryGas_record_new_len (self : MemoryGas) (new_num : Z) : option Z * MemoryGas :=
  if new_num <=? words_num self then (None, self)
  else
    let cost := memory_gas new_num in
    (Some (wrapping_sub 64 cost (expansion_cost self)), mkMemoryGas new_num cost).

(** * The gas counter *)

Record Gas := mkGas {
  gas_limit : Z; gas_remaining : Z; gas_refunded : Z; gas_memory : MemoryGas }.

Definition set_remaining (r : Z) (self : Gas) : Gas :=
  mkGas (gas_limit self) r (gas_refunded self) (gas_memory self).
Definition assign_refunded (r : Z) (self : Gas) : Gas :=
  mkGas (gas_limit self) (gas_remaining self) r (gas_memory self).
Definition set_gas_memory (m : MemoryGas) (self : Gas) : Gas :=
  mkGas (gas_limit self) (gas_remaining self) (gas_refunded self) m.

Definition Gas_new (limit : Z) : Gas := mkGas limit limit 0 MemoryGas_new.
Definition Gas_new_spent (limit : Z) : Gas := mkGas limit 0 0 MemoryGas_new.
Definition Gas_spent (self : Gas) : Z := wrapping_sub 64 (gas_limit self) (gas_remaining self).
Definition Gas_used (self : Gas) : Z := saturating_sub (Gas_spent self) (wrap 64 (gas_refunded self)).
Definition Gas_spent_sub_refunded (self : Gas) : Z :=
  saturating_sub (Gas_spent self) (wrap 64 (gas_refunded self)).
Definition Gas_remaining_63_of_64_parts (self : Gas) : Z := gas_remaining self - gas_remaining self / 64.
Definition Gas_erase_cost (returned : Z) (self : Gas) : Gas :=
  set_remaining (wrapping_add 64 (gas_remaining self) returned) self.
Definition Gas_spend_all (self : Gas) : Gas := set_remaining 0 self.
Definition Gas_record_refund (refund : Z) (self : Gas) : Gas :=
  assign_refunded (signed 64 (wrapping_add 64 (gas_refunded self) refund)) self.
Definition Gas_set_final_refund (is_london : bool) (self : Gas) : Gas :=
  let max_refund_quotient := if is_london then 5 else 2 in
  assign_refunded
    (signed 64 (Z.min (wrap 64 (gas_refunded self)) (Gas_spent self / max_refund_quotient))) self.
Definition Gas_set_refund (refund : Z) (self : Gas) : Gas := assign_refunded refund self.
Definition Gas_set_spent (spent : Z) (self : Gas) : Gas :=
  set_remaining (saturating_sub (gas_limit self) spent) self.
Definition Gas_record_cost (cost : Z) (self : Gas) : bool * Gas :=
  match checked_sub (gas_remaining self) cost with
  | Some new_remaining => (true, set_remaining new_remaining self)
  | None => (false, self)
  end.
Definition Gas_record_cost_unsafe (cost : Z) (self : Gas) : bool * Gas :=
  (gas_remaining self <? cost, set_remaining (wrapping_sub 64 (gas_remaining self) cost) self).

(** * Costs *)

Definition sload_cost (spec_id : SpecId) (cold : bool) : Z :=
  if SpecId_is_enabled_in spec_id BERLIN then
    if cold then COLD_SLOAD_COST else WARM_STORAGE_READ_COST
  else if SpecId_is_enabled_in spec_id ISTANBUL then ISTANBUL_SLOAD_GAS
  else if SpecId_is_enabled_in spec_id TANGERINE then 200
  else 50.

Definition sstore_refund (spec_id : SpecId) (vals : SStoreResult) : Z :=
  if SpecId_is_enabled_in spec_id ISTANBUL then
    let sstore_clears_schedule :=
      if SpecId_is_enabled_in spec_id LONDON
      then SSTORE_RESET - COLD_SLOAD_COST + ACCESS_LIST_STORAGE_KEY
      else REFUND_SSTORE_CLEARS in
    if SStoreResult_is_new_eq_present vals then 0
    else if SStoreResult_is_original_eq_present vals && SStoreResult_is_new_zero vals
    then sstore_clears_schedule
    else
      let refund := 0 in
      let refund :=
        if negb (SStoreResult_is_original_zero vals) then
          if SStoreResult_is_present_zero vals then refund - sstore_clears_schedule
          else if SStoreResult_is_new_zero vals then refund + sstore_clears_schedule
          else refund
        else refund in
      if SStoreResult_is_original_eq_new vals then
        let '(gas_sstore_reset, gas_sload) :=
          if SpecId_is_enabled_in spec_id BERLIN
          then (SSTORE_RESET - COLD_SLOAD_COST, WARM_STORAGE_READ_COST)
          else (SSTORE_RESET, sload_cost spec_id false) in
        if SStoreResult_is_original_zero vals then refund + (SSTORE_SET - gas_sload)
        else refund + (gas_sstore_reset - gas_sload)
      else refund
  else
    if negb (SStoreResult_is_present_zero vals) && SStoreResult_is_new_zero vals
    then REFUND_SSTORE_CLEARS else 0.

Definition cost_per_word (len multiple : Z) : option Z := checked_mul 64 multiple (num_words len).
Definition copy_cost (base_cost len : Z) : option Z :=
  let? c := cost_per_word len COPY in checked_add 64 base_cost c.
Definition create2_cost (len : Z) : option Z :=
  let? c := cost_per_word len KECCAK256WORD in checked_add 64 GAS_CREATE c.
Definition copy_cost_verylow (len : Z) : option Z := copy_cost VERYLOW len.
Definition keccak256_cost (len : Z) : option Z :=
  let? c := cost_per_word len KECCAK256WORD in checked_add 64 GAS_KECCAK256 c.
Definition log_cost (n len : Z) : option Z :=
  let? d := checked_mul 64 LOGDATA len in
  let? c := checked_add 64 LOG d in
  checked_add 64 c (LOGTOPIC * n).

(** [panic!] on overflow. *)
Definition initcode_cost (len : Z) : option Z := cost_per_word len INITCODE_WORD_COST.

(** The four little-endian 64-bit limbs of a [U256]. *)
Definition limb (value : Z) (i : nat) : Z := Z.land (Z.shiftr value (64 * Z.of_nat i)) (modulus 64 - 1).

(** [u64::leading_zeros]. *)
Definition leading_zeros_u64 (x : Z) : Z := if x =? 0 then 64 else 63 - Z.log2 x.

(** The loop of [log2floor] at limb [i], the limbs above it being zero. *)
Fixpoint log2floor_loop (value l : Z) (i : nat) : Z :=
  if limb value i =? 0 then
    let l := l - 64 in
    match i with O => l | S i => log2floor_loop value l i end
  else
    let l := l - leading_zeros_u64 (limb value i) in
    if l =? 0 then l else l - 1.
Definition log2floor (value : Z) : Z := log2floor_loop value 256 3.

Definition exp_cost (spec_id : SpecId) (power : Z) : option Z :=
  if power =? 0 then Some GAS_EXP
  else
    let gas_byte := if SpecId_is_enabled_in spec_id SPURIOUS_DRAGON then 50 else 10 in
    let? m := checked_mul 256 gas_byte (log2floor power / 8 + 1) in
    let? gas := checked_add 256 GAS_EXP m in
    if gas <? modulus 64 then Some gas else None.

Definition warm_cold_cost (cold : bool) : Z :=
  if cold then COLD_ACCOUNT_ACCESS_COST else WARM_STORAGE_READ_COST.
Definition warm_cold_cost_with_delegation (load : StateLoad AccountLoad) : Z :=
  let gas := warm_cold_cost (load_is_cold load) in
  match is_delegate_account_cold (data load) with
  | Some cold => gas + warm_cold_cost cold
  | None => gas
  end.

Definition extcodecopy_cost (spec_id : SpecId) (len : Z) (cold : bool) : option Z :=
  let base_gas :=
    if SpecId_is_enabled_in spec_id BERLIN then warm_cold_cost cold
    else if SpecId_is_enabled_in spec_id TANGERINE then 700 else 20 in
  copy_cost base_gas len.

Definition istanbul_sstore_cost (SLOAD_GAS SSTORE_RESET_GAS : Z) (vals : SStoreResult) : Z :=
  if SStoreResult_is_new_eq_present vals then SLOAD_GAS
  else if SStoreResult_is_original_eq_present vals && SStoreResult_is_original_zero vals then SSTORE_SET
  else if SStoreResult_is_original_eq_present vals then SSTORE_RESET_GAS
  else SLOAD_GAS.
Definition frontier_sstore_cost (vals : SStoreResult) : Z :=
  if SStoreResult_is_present_zero vals && negb (SStoreResult_is_new_zero vals)
  then SSTORE_SET else SSTORE_RESET.
Definition sstore_cost (spec_id : SpecId) (vals : SStoreResult) (cold : bool) : Z :=
  if SpecId_is_enabled_in spec_id BERLIN then
    let gas_cost := istanbul_sstore_cost WARM_STORAGE_READ_COST WARM_SSTORE_RESET vals in
    if cold then gas_cost + COLD_SLOAD_COST else gas_cost
  else if SpecId_is_enabled_in spec_id ISTANBUL then
    istanbul_sstore_cost ISTANBUL_SLOAD_GAS SSTORE_RESET vals
  else frontier_sstore_cost vals.
Definition static_sstore_cost (spec_id : SpecId) : Z :=
  if SpecId_is_enabled_in spec_id BERLIN then WARM_STORAGE_READ_COST
  else if SpecId_is_enabled_in spec_id ISTANBUL then ISTANBUL_SLOAD_GAS
  else SSTORE_RESET.
Definition dyn_sstore_cost (spec_id : SpecId) (vals : SStoreResult) (cold : bool) : Z :=
  wrapping_sub 64 (sstore_cost spec_id vals cold) (static_sstore_cost spec_id).

Definition static_selfdestruct_cost (spec_id : SpecId) : Z :=
  if SpecId_is_enabled_in spec_id TANGERINE then 5000 else 0.
Definition dyn_selfdestruct_cost (spec_id : SpecId) (res : StateLoad SelfDestructResult) : Z :=
  let is_tangerine := SpecId_is_enabled_in spec_id TANGERINE in
  let should_charge_topup :=
    if SpecId_is_enabled_in spec_id SPURIOUS_DRAGON
    then had_value (data res) && negb (target_exists (data res))
    else negb (target_exists (data res)) in
  let gas := if is_tangerine && should_charge_topup then NEWACCOUNT else 0 in
  if SpecId_is_enabled_in spec_id BERLIN && load_is_cold res
  then gas + COLD_ACCOUNT_ACCESS_COST else gas.
Definition selfdestruct_cost (spec_id : SpecId) (res : StateLoad SelfDestructResult) : Z :=
  static_selfdestruct_cost spec_id + dyn_selfdestruct_cost spec_id res.

Definition calc_call_static_gas (spec_id : SpecId) (has_transfer : bool) : Z :=
  let gas :=
    if SpecId_is_enabled_in spec_id BERLIN then WARM_STORAGE_READ_COST
    else if SpecId_is_enabled_in spec_id TANGERINE then 700 else 40 in
  if has_transfer then gas + CALLVALUE else gas.

(** * Costs per word *)

Lemma num_words_nonneg len : 0 <= len -> 0 <= num_words len.
Proof. intros. unfold num_words. apply Z.div_pos; [|lia]. unfold saturating_add, modulus. lia. Qed.

Lemma cost_per_word_nonneg len m c : 0 <= len -> 0 <= m -> cost_per_word len m = Some c -> 0 <= c.
Proof.
  intros Hl Hm [-> _]%checked_mul_spec. pose proof (num_words_nonneg len Hl). nia.
Qed.

Lemma copy_cost_ge base len c : 0 <= len -> copy_cost base len = Some c -> base <= c.
Proof.
  intros Hl. unfold copy_cost. destruct (cost_per_word len COPY) as [d|] eqn:Ed; [|done].
  apply cost_per_word_nonneg in Ed; [|done..]. intros [-> _]%checked_add_spec. lia.
Qed.

Lemma keccak256_cost_ge len c : 0 <= len -> keccak256_cost len = Some c -> 30 <= c.
Proof.
  intros Hl. unfold keccak256_cost. destruct (cost_per_word len KECCAK256WORD) as [d|] eqn:Ed; [|done].
  apply cost_per_word_nonneg in Ed; [|done..]. intros [-> _]%checked_add_spec. unfold GAS_KECCAK256. lia.
Qed.

Lemma create2_cost_ge len c : 0 <= len -> create2_cost len = Some c -> 32000 <= c.
Proof.
  intros Hl. unfold create2_cost. destruct (cost_per_word len KECCAK256WORD) as [d|] eqn:Ed; [|done].
  apply cost_per_word_nonneg in Ed; [|done..]. intros [-> _]%checked_add_spec. unfold GAS_CREATE. lia.
Qed.

(** [EXTCODECOPY]'s [copy_cost(0, len).unwrap_or(u64::MAX)]. *)
Lemma copy_cost_or_max_nonneg len :
  0 <= len -> 0 <= match copy_cost 0 len with Some c => c | None => u64_max end.
Proof.
  intros Hl. destruct (copy_cost 0 len) as [c|] eqn:Ec; [by eapply copy_cost_ge|].
  unfold u64_max, modulus. lia.
Qed.

(** * Intrinsic gas *)

Record InitialAndFloorGas := mkInitialAndFloorGas { initial_gas : Z; floor_gas : Z }.

(** The counts are [usize] lengths, far below [2^64] over the multiplier, so
    the products are written plainly. *)
Definition get_tokens_in_calldata (input : list Z) (is_istanbul : bool) : Z :=
  let zero_data_len := Z.of_nat (length (filter (fun v => v = 0) input)) in
  let non_zero_data_len := Z.of_nat (length input) - zero_data_len in
  let non_zero_data_multiplier :=
    if is_istanbul then NON_ZERO_BYTE_MULTIPLIER_ISTANBUL else NON_ZERO_BYTE_MULTIPLIER in
  zero_data_len + non_zero_data_len * non_zero_data_multiplier.

Definition calc_tx_floor_cost (tokens_in_calldata : Z) : Z :=
  tokens_in_calldata * TOTAL_COST_FLOOR_PER_TOKEN + 21000.

(** [None] is the panic of [initcode_cost]. *)
Definition calculate_initial_tx_gas (spec_id : SpecId) (input : list Z) (is_create : bool)
    (access_list_accounts access_list_storages authorization_list_num : Z)
    : option InitialAndFloorGas :=
  let tokens_in_calldata := get_tokens_in_calldata input (SpecId_is_enabled_in spec_id ISTANBUL) in
  let initial_gas := tokens_in_calldata * STANDARD_TOKEN_COST in
  let initial_gas := initial_gas + access_list_accounts * ACCESS_LIST_ADDRESS in
  let initial_gas := initial_gas + access_list_storages * ACCESS_LIST_STORAGE_KEY in
  let initial_gas := initial_gas +
    (if is_create then if SpecId_is_enabled_in spec_id HOMESTEAD then 53000 else 21000 else 21000) in
  let? initial_gas :=
    if SpecId_is_enabled_in spec_id SHANGHAI && is_create
    then let? c := initcode_cost (Z.of_nat (length input)) in Some (initial_gas + c)
    else Some initial_gas in
  if SpecId_is_enabled_in spec_id PRAGUE then
    Some (mkInitialAndFloorGas (initial_gas + authorization_list_num * PER_EMPTY_ACCOUNT_COST)
            (calc_tx_floor_cost tokens_in_calldata))
  else Some (mkInitialAndFloorGas initial_gas 0).

(** * The gas counter is consistent *)

Definition gas_ok (g : Gas) : Prop :=
  0 <= gas_remaining g <= gas_limit g /\ gas_limit g < modulus 64.

Lemma Gas_spent_ok g : gas_ok g -> Gas_spent g = gas_limit g - gas_remaining g.
Proof. intros [? ?]. unfold Gas_spent, wrapping_sub. apply wrap_small. unfold in_range. lia. Qed.

Lemma gas_ok_new limit : u64 limit -> gas_ok (Gas_new limit).
Proof. unfold gas_ok, in_range. cbn. lia. Qed.

(** [record_cost] succeeds exactly when the cost is covered; the cost then
    moves from remaining to spent, and a failure changes nothing. *)
Theorem Gas_record_cost_spec g cost :
  gas_ok g -> 0 <= cost ->
  let '(ok, g') := Gas_record_cost cost g in
  ok = (cost <=? gas_remaining g) /\ gas_ok g' /\ gas_limit g' = gas_limit g /\
  gas_refunded g' = gas_refunded g /\ gas_memory g' = gas_memory g /\
  Gas_spent g' = Gas_spent g + (if ok then cost else 0).
Proof.
  intros Hg Hc. unfold Gas_record_cost.
  destruct (checked_sub _ _) as [r|] eqn:E.
  - apply checked_sub_spec in E as [-> ?].
    assert (gas_ok (set_remaining (gas_remaining g - cost) g)) as Hg' by (unfold gas_ok in *; cbn; lia).
    split_and!; try done; [lia|]. rewrite !Gas_spent_ok by done. cbn. lia.
  - split_and!; try done; [|lia]. unfold checked_sub in E.
    destruct (cost <=? gas_remaining g); done.
Qed.

Lemma Gas_record_cost_spec_witness :
  gas_ok (Gas_new 100) /\
  let '(ok, g') := Gas_record_cost 40 (Gas_new 100) in
  ok = (40 <=? 100) /\ gas_ok g' /\ gas_limit g' = 100 /\ gas_refunded g' = 0 /\
  gas_memory g' = MemoryGas_new /\ Gas_spent g' = Gas_spent (Gas_new 100) + (if ok then 40 else 0).
Proof.
  assert (gas_ok (Gas_new 100)) by (apply gas_ok_new; unfold in_range, modulus; lia).
  split; [done|]. exact (Gas_record_cost_spec (Gas_new 100) 40 ltac:(done) ltac:(lia)).
Defined.

(** The branch-free [record_cost_unsafe] agrees with [record_cost]: it
    reports out of gas exactly when [record_cost] fails, and otherwise leaves
    the same counter. *)
Theorem Gas_record_cost_unsafe_agrees g cost :
  gas_ok g -> u64 cost ->
  let '(oog, g1) := Gas_record_cost_unsafe cost g in
  let '(ok, g2) := Gas_record_cost cost g in
  oog = negb ok /\ (oog = false -> g1 = g2).
Proof.
  intros [? ?] [? ?]. unfold Gas_record_cost_unsafe, Gas_record_cost, checked_sub.
  destruct (Z.leb_spec cost (gas_remaining g)); (split; [cbn; lia|]); intros; [|lia].
  f_equal. apply wrap_small. unfold in_range. lia.
Qed.

Lemma Gas_record_cost_unsafe_agrees_witness :
  let '(oog, g1) := Gas_record_cost_unsafe 101 (Gas_new 100) in
  let '(ok, g2) := Gas_record_cost 101 (Gas_new 100) in
  oog = negb ok /\ (oog = false -> g1 = g2).
Proof.
  apply (Gas_record_cost_unsafe_agrees (Gas_new 100) 101);
    [apply gas_ok_new|]; unfold in_range, modulus; lia.
Defined.

(** The final refund is capped: after [set_final_refund] the refund is at
    most a fifth of the gas spent from London on and half of it before, and is
    the recorded refund when that is smaller. *)
Theorem Gas_set_final_refund_cap g is_london :
  gas_ok g -> 0 <= gas_refunded g < 2 ^ 63 ->
  let g' := Gas_set_final_refund is_london g in
  gas_refunded g' = Z.min (gas_refunded g) (Gas_spent g / (if is_london then 5 else 2)) /\
  Gas_used g' = Gas_spent g - gas_refunded g' /\ 0 <= Gas_used g' <= Gas_spent g.
Proof.
  intros Hg Hr. pose proof (Gas_spent_ok g Hg) as Hs. destruct Hg as [Hg1 Hg2].
  assert (0 <= Gas_spent g) by lia.
  cbv zeta. unfold Gas_set_final_refund. set (q := if is_london then 5 else 2).
  assert (0 < q) by (unfold q; destruct is_london; lia).
  pose proof (Z.div_pos (Gas_spent g) q ltac:(lia) ltac:(lia)).
  pose proof (Z.div_le_upper_bound (Gas_spent g) q (Gas_spent g) ltac:(lia) ltac:(nia)).
  assert (wrap 64 (gas_refunded g) = gas_refunded g) as ->.
  { apply wrap_small. unfold in_range, modulus. lia. }
  set (m := Z.min _ _). assert (0 <= m < 2 ^ 63) by (unfold m; lia).
  assert (signed 64 m = m) as ->.
  { unfold signed. change (64 - 1) with 63. destruct (Z.ltb_spec m (2 ^ 63)); lia. }
  cbn [gas_refunded assign_refunded]. split; [done|].
  unfold Gas_used. change (Gas_spent (assign_refunded m g)) with (Gas_spent g).
  cbn [assign_refunded gas_refunded]. unfold saturating_sub.
  assert (wrap 64 m = m) as ->. { apply wrap_small. unfold in_range, modulus. lia. }
  lia.
Qed.

Lemma Gas_set_final_refund_cap_witness :
  let g := assign_refunded 4800 (set_remaining 10000 (Gas_new 20000)) in
  let g' := Gas_set_final_refund true g in
  gas_refunded g' = Z.min 4800 (Gas_spent g / 5) /\
  Gas_used g' = Gas_spent g - gas_refunded g' /\ 0 <= Gas_used g' <= Gas_spent g.
Proof.
  apply (Gas_set_final_refund_cap (assign_refunded 4800 (set_remaining 10000 (Gas_new 20000))) true);
    unfold gas_ok, modulus; cbn; lia.
Defined.

(** * Memory expansion *)

Lemma saturating_mul_mono w x y x' y' :
  0 <= x <= x' -> 0 <= y <= y' -> saturating_mul w x y <= saturating_mul w x' y'.
Proof. intros. unfold saturating_mul. apply Z.min_le_compat_r. nia. Qed.

Lemma memory_gas_mono m n : 0 <= m <= n -> memory_gas m <= memory_gas n.
Proof.
  intros H. unfold memory_gas, saturating_add. apply Z.min_le_compat_r. apply Z.add_le_mono.
  - apply saturating_mul_mono; unfold MEMORY; lia.
  - apply Z.div_le_mono; [lia|]. apply saturating_mul_mono; lia.
Qed.

Lemma memory_gas_range n : 0 <= n -> u64 (memory_gas n).
Proof.
  intros. unfold memory_gas. apply saturating_add_range; [lia| |].
  - unfold saturating_mul, MEMORY, modulus. lia.
  - apply Z.div_pos; [|lia]. unfold saturating_mul, modulus. lia.
Qed.

(** Below 2^32 words nothing saturates: the Yellow Paper's formula. *)
Lemma memory_gas_formula n : 0 <= n < 2 ^ 32 -> memory_gas n = 3 * n + n * n / 512.
Proof.
  intros. unfold memory_gas, saturating_add, saturating_mul, MEMORY, modulus.
  rewrite (Z.min_l (3 * n)), (Z.min_l (n * n)) by nia. apply Z.min_l.
  pose proof (Z.div_le_upper_bound (n * n) 512 (2 ^ 55) ltac:(lia) ltac:(nia)). lia.
Qed.

(** The memoised cost is the cost of the memoised length. *)
Definition memory_gas_ok (m : MemoryGas) : Prop :=
  0 <= words_num m /\ expansion_cost m = memory_gas (words_num m).

(** The charges of a sequence of expansions. *)
Fixpoint charge_all (m : MemoryGas) (lens : list Z) : Z * MemoryGas :=
  match lens with
  | [] => (0, m)
  | n :: lens =>
      let '(c, m) := MemoryGas_record_new_len m n in
      let '(total, m) := charge_all m lens in
      (default 0 c + total, m)
  end.

Lemma record_new_len_spec m n :
  memory_gas_ok m ->
  let '(c, m') := MemoryGas_record_new_len m n in
  memory_gas_ok m' /\ words_num m' = Z.max (words_num m) n /\
  default 0 c = memory_gas (words_num m') - memory_gas (words_num m) /\ 0 <= default 0 c.
Proof.
  intros [Hw Hc]. unfold MemoryGas_record_new_len. destruct (Z.leb_spec n (words_num m)).
  - cbn. split_and!; try done; lia.
  - cbn [default from_option]. rewrite Hc. pose proof (memory_gas_mono (words_num m) n ltac:(lia)).
    pose proof (memory_gas_range n ltac:(lia)) as [? ?].
    pose proof (memory_gas_range (words_num m) ltac:(lia)) as [? ?].
    unfold wrapping_sub, id. rewrite wrap_small by (unfold in_range; lia).
    cbn [words_num]. rewrite Z.max_r by lia. unfold memory_gas_ok. cbn [words_num expansion_cost].
    split_and!; try done; lia.
Qed.

Lemma charge_all_spec lens m :
  memory_gas_ok m ->
  let '(total, m') := charge_all m lens in
  memory_gas_ok m' /\ words_num m' = foldr Z.max (words_num m) lens /\
  total = memory_gas (words_num m') - memory_gas (words_num m).
Proof.
  revert m. induction lens as [|n lens IH]; intros m Hm; cbn [charge_all].
  { cbn. split_and!; try done; lia. }
  pose proof (record_new_len_spec m n Hm) as Hr. destruct (MemoryGas_record_new_len m n) as [c m1].
  destruct Hr as (Hm1 & Hw1 & Hc & _). specialize (IH m1 Hm1).
  destruct (charge_all m1 lens) as [total m2]. destruct IH as (Hm2 & Hw2 & Ht).
  split_and!; [done| |lia]. rewrite Hw2, Hw1. cbn. clear.
  induction lens; cbn; lia.
Qed.

(** Charging memory expansion piecewise is charging it once: however a call
    frame reaches its largest memory, the charges add up to the cost of that
    size, and the memoised cost stays that of the memoised length. *)
Theorem memory_expansion_telescopes lens :
  let '(total, m) := charge_all MemoryGas_new lens in
  memory_gas_ok m /\ words_num m = foldr Z.max 0 lens /\ total = memory_gas (foldr Z.max 0 lens).
Proof.
  pose proof (charge_all_spec lens MemoryGas_new ltac:(by split)) as H.
  destruct (charge_all MemoryGas_new lens) as [total m]. destruct H as (? & Hw & Ht).
  cbn [MemoryGas_new words_num] in *. split_and!; [done..|].
  rewrite Hw in Ht. change (memory_gas 0) with 0 in Ht. lia.
Qed.

(** * Storage refunds *)

(** The refunds of the stores [vs] to one slot with original value [o] and
    present value [p]. *)
Fixpoint refund_total (spec_id : SpecId) (o p : Z) (vs : list Z) : Z :=
  match vs with
  | [] => 0
  | v :: vs => sstore_refund spec_id (mkSStoreResult o p v) + refund_total spec_id o v vs
  end.

(** The refund a cleared slot may still have to give back. *)
Definition refund_debt (spec_id : SpecId) (o p : Z) : Z :=
  if SpecId_is_enabled_in spec_id ISTANBUL && negb (o =? 0) && (p =? 0)
  then if SpecId_is_enabled_in spec_id LONDON then 4800 else 15000
  else 0.

Lemma sstore_refund_debt spec_id o p v :
  refund_debt spec_id o v <= sstore_refund spec_id (mkSStoreResult o p v) + refund_debt spec_id o p.
Proof.
  unfold sstore_refund, refund_debt, SStoreResult_is_new_eq_present, SStoreResult_is_original_eq_present,
    SStoreResult_is_new_zero, SStoreResult_is_original_zero, SStoreResult_is_present_zero,
    SStoreResult_is_original_eq_new, sload_cost, SSTORE_RESET, COLD_SLOAD_COST, ACCESS_LIST_STORAGE_KEY,
    REFUND_SSTORE_CLEARS, SSTORE_SET, WARM_STORAGE_READ_COST, ISTANBUL_SLOAD_GAS.
  cbn [sstore_original_value sstore_present_value sstore_new_value].
  destruct (SpecId_is_enabled_in spec_id ISTANBUL), (SpecId_is_enabled_in spec_id LONDON),
    (SpecId_is_enabled_in spec_id BERLIN); cbn [andb negb];
  destruct (Z.eqb_spec o 0), (Z.eqb_spec p 0), (Z.eqb_spec v 0), (Z.eqb_spec v p), (Z.eqb_spec o p),
    (Z.eqb_spec o v); subst; cbn [andb negb]; lia.
Qed.

Lemma refund_debt_nonneg spec_id o p : 0 <= refund_debt spec_id o p.
Proof. unfold refund_debt. case_if; lia. Qed.

(** The refund counter never ends negative: whatever values are stored to a
    slot in a transaction, in any hard fork, the refunds of the stores add up
    to at least zero. *)
Theorem sstore_refunds_nonneg spec_id original vs : 0 <= refund_total spec_id original original vs.
Proof.
  assert (forall p, - refund_debt spec_id original p <= refund_total spec_id original p vs) as Hgen.
  { induction vs as [|v vs IH]; intros p; cbn.
    - pose proof (refund_debt_nonneg spec_id original p). lia.
    - pose proof (sstore_refund_debt spec_id original p v). specialize (IH v). lia. }
  specialize (Hgen original). unfold refund_debt in Hgen. destruct (Z.eqb_spec original 0); cbn in *;
    rewrite ?andb_false_r, ?andb_true_r in Hgen; destruct (SpecId_is_enabled_in spec_id ISTANBUL); cbn in *; lia.
Qed.

Lemma dyn_sstore_cost_exact_aux spec_id vals cold :
  dyn_sstore_cost spec_id vals cold = sstore_cost spec_id vals cold - static_sstore_cost spec_id /\
  0 <= dyn_sstore_cost spec_id vals cold <= 22000.
Proof.
  unfold dyn_sstore_cost, wrapping_sub.
  assert (0 <= sstore_cost spec_id vals cold - static_sstore_cost spec_id <= 22000) as Hb.
  { unfold sstore_cost, static_sstore_cost, istanbul_sstore_cost, frontier_sstore_cost,
      WARM_SSTORE_RESET, WARM_STORAGE_READ_COST, SSTORE_SET, SSTORE_RESET, COLD_SLOAD_COST,
      ISTANBUL_SLOAD_GAS. case_if; lia. }
  rewrite wrap_small; [lia|]. unfold in_range, modulus. lia.
Qed.

(** The dynamic part of a store's cost never underflows: the total cost is
    at least the static part charged beforehand, in every hard fork. *)
Theorem dyn_sstore_cost_exact spec_id vals cold :
  dyn_sstore_cost spec_id vals cold = sstore_cost spec_id vals cold - static_sstore_cost spec_id /\
  0 <= dyn_sstore_cost spec_id vals cold <= 22000.
Proof. apply dyn_sstore_cost_exact_aux. Qed.

(** * The cost of exponentiation *)

Lemma limb_spec value i : limb value i = (value / 2 ^ (64 * Z.of_nat i)) mod 2 ^ 64.
Proof.
  unfold limb, modulus. change (2 ^ 64 - 1) with (Z.ones 64).
  rewrite Z.land_ones, Z.shiftr_div_pow2 by lia. done.
Qed.

Lemma log2floor_loop_spec i value :
  0 < value < 2 ^ (64 * (Z.of_nat i + 1)) ->
  log2floor_loop value (64 * (Z.of_nat i + 1)) i = Z.log2 value.
Proof.
  revert value. induction i as [|i IH]; intros value Hv; cbn [log2floor_loop]; rewrite limb_spec.
  - change (64 * Z.of_nat 0) with 0. rewrite Z.div_1_r, Z.mod_small by (cbn in Hv; lia).
    destruct (Z.eqb_spec value 0); [lia|]. unfold leading_zeros_u64.
    destruct (Z.eqb_spec value 0); [done|]. pose proof (Z.log2_nonneg value).
    destruct (Z.eqb_spec (64 * (Z.of_nat 0 + 1) - (63 - Z.log2 value)) 0); cbn in *; lia.
  - set (k := 64 * Z.of_nat (S i)) in *.
    assert (64 * (Z.of_nat (S i) + 1) = k + 64) as Hk by (unfold k; lia). rewrite Hk in *.
    rewrite Z.pow_add_r in Hv by (unfold k; lia).
    assert (0 < 2 ^ k) by (apply Z.pow_pos_nonneg; unfold k; lia).
    assert (value / 2 ^ k < 2 ^ 64) by (apply Z.div_lt_upper_bound; lia).
    assert (0 <= value / 2 ^ k) by (apply Z.div_pos; lia).
    rewrite Z.mod_small by done. destruct (Z.eqb_spec (value / 2 ^ k) 0) as [E|E].
    + replace (k + 64 - 64) with (64 * (Z.of_nat i + 1)) by (unfold k; lia). apply IH.
      split; [lia|]. replace (64 * (Z.of_nat i + 1)) with k by (unfold k; lia).
      apply Z.div_small_iff in E; lia.
    + unfold leading_zeros_u64. destruct (Z.eqb_spec (value / 2 ^ k) 0); [done|].
      pose proof (Z.log2_shiftr value k) as Hl. rewrite Z.shiftr_div_pow2 in Hl by (unfold k; lia).
      specialize (Hl ltac:(lia)). pose proof (Z.log2_nonneg (value / 2 ^ k)).
      assert (k <= Z.log2 value).
      { apply Z.log2_le_pow2; [lia|]. pose proof (Z.mul_div_le value (2 ^ k) ltac:(lia)). nia. }
      destruct (Z.eqb_spec (k + 64 - (63 - Z.log2 (value / 2 ^ k))) 0); unfold k in *; lia.
Qed.

(** The limb loop computes the floor of the binary logarithm. *)
Lemma log2floor_spec value : 0 < value -> u256 value -> log2floor value = Z.log2 value.
Proof. intros ? [? ?]. apply (log2floor_loop_spec 3). unfold modulus in *. cbn. lia. Qed.

Lemma exp_cost_formula_aux spec_id power :
  u256 power ->
  exp_cost spec_id power =
    Some (if power =? 0 then 10
          else 10 + (if SpecId_is_enabled_in spec_id SPURIOUS_DRAGON then 50 else 10)
                    * (Z.log2 power / 8 + 1)).
Proof.
  intros Hp. unfold exp_cost. destruct (Z.eqb_spec power 0) as [->|Hne]; [done|].
  assert (0 < power) by (unfold in_range in Hp; lia). rewrite log2floor_spec by done.
  assert (0 <= Z.log2 power < 256) as Hl.
  { split; [apply Z.log2_nonneg|]. apply Z.log2_lt_pow2; [done|]. apply Hp. }
  pose proof (Z.div_pos (Z.log2 power) 8 ltac:(lia) ltac:(lia)).
  pose proof (Z.div_lt_upper_bound (Z.log2 power) 8 32 ltac:(lia) ltac:(lia)).
  set (n := Z.log2 power / 8) in *. set (g := if SpecId_is_enabled_in _ _ then 50 else 10).
  assert (0 < g <= 50) by (unfold g; case_if; lia).
  unfold checked_mul, checked_add, GAS_EXP. assert (2 ^ 64 < modulus 256) by (unfold modulus; lia).
  destruct (Z.ltb_spec (g * (n + 1)) (modulus 256)); [|nia].
  destruct (Z.ltb_spec (10 + g * (n + 1)) (modulus 256)); [|nia].
  destruct (Z.ltb_spec (10 + g * (n + 1)) (modulus 64)); [done|]. unfold modulus in *. nia.
Qed.

(** The cost of [EXP] is the base cost plus the byte cost times the number
    of bytes of the exponent, and it is always charged (the checked arithmetic
    never fails). *)
Theorem exp_cost_formula spec_id power :
  u256 power ->
  exp_cost spec_id power =
    Some (if power =? 0 then 10
          else 10 + (if SpecId_is_enabled_in spec_id SPURIOUS_DRAGON then 50 else 10)
                    * (Z.log2 power / 8 + 1)).
Proof. apply exp_cost_formula_aux. Qed.

Lemma exp_cost_formula_witness :
  exp_cost PRAGUE 0x10000 = Some (10 + 50 * (Z.log2 0x10000 / 8 + 1)).
Proof. apply (exp_cost_formula PRAGUE 0x10000). unfold in_range, modulus. lia. Defined.

(** * Intrinsic gas *)

Lemma num_words_small len : 0 <= len < 2 ^ 63 -> num_words len = (len + 31) / 32.
Proof. intros. unfold num_words, saturating_add, modulus. rewrite Z.min_l by lia. done. Qed.

Lemma initial_tx_gas_formula_aux spec_id input is_create accounts storages auths :
  Z.of_nat (length input) < 2 ^ 32 ->
  let zeros := Z.of_nat (length (filter (fun v => v = 0) input)) in
  let nonzeros := Z.of_nat (length input) - zeros in
  let enabled := SpecId_is_enabled_in spec_id in
  calculate_initial_tx_gas spec_id input is_create accounts storages auths =
  Some (mkInitialAndFloorGas
    (4 * zeros + (if enabled ISTANBUL then 16 else 68) * nonzeros
     + 2400 * accounts + 1900 * storages
     + (if is_create && enabled HOMESTEAD then 53000 else 21000)
     + (if is_create && enabled SHANGHAI then 2 * ((Z.of_nat (length input) + 31) / 32) else 0)
     + (if enabled PRAGUE then 25000 * auths else 0))
    (if enabled PRAGUE then 21000 + 10 * (zeros + (if enabled ISTANBUL then 4 else 17) * nonzeros) else 0)).
Proof.
  intros Hlen zeros nonzeros enabled.
  assert (initcode_cost (Z.of_nat (length input)) = Some (2 * ((Z.of_nat (length input) + 31) / 32))) as Hic.
  { unfold initcode_cost, cost_per_word, checked_mul, INITCODE_WORD_COST. rewrite num_words_small by lia.
    pose proof (Z.div_lt_upper_bound (Z.of_nat (length input) + 31) 32 (2 ^ 32) ltac:(lia) ltac:(lia)).
    destruct (Z.ltb_spec (2 * ((Z.of_nat (length input) + 31) / 32)) (modulus 64)); [done|]. unfold modulus in *. lia. }
  unfold calculate_initial_tx_gas, get_tokens_in_calldata, calc_tx_floor_cost. fold zeros nonzeros.
  rewrite Hic. fold (enabled ISTANBUL) (enabled HOMESTEAD) (enabled SHANGHAI) (enabled PRAGUE).
  change NON_ZERO_BYTE_MULTIPLIER_ISTANBUL with 4. change NON_ZERO_BYTE_MULTIPLIER with 17.
  unfold STANDARD_TOKEN_COST, ACCESS_LIST_ADDRESS, ACCESS_LIST_STORAGE_KEY, PER_EMPTY_ACCOUNT_COST,
    TOTAL_COST_FLOOR_PER_TOKEN.
  destruct is_create, (enabled SHANGHAI), (enabled PRAGUE), (enabled HOMESTEAD), (enabled ISTANBUL);
    cbn [andb]; do 2 f_equal; lia.
Qed.

(** The intrinsic gas of a transaction: 4 per zero byte, 16 (68 before
    Istanbul) per non-zero byte, the access list, the base cost, from Shanghai
    on 2 per word of init code, and from Prague on the authorizations, with the
    floor of EIP-7623. *)
Theorem initial_tx_gas_formula spec_id input is_create accounts storages auths :
  Z.of_nat (length input) < 2 ^ 32 ->
  let zeros := Z.of_nat (length (filter (fun v => v = 0) input)) in
  let nonzeros := Z.of_nat (length input) - zeros in
  let enabled := SpecId_is_enabled_in spec_id in
  calculate_initial_tx_gas spec_id input is_create accounts storages auths =
  Some (mkInitialAndFloorGas
    (4 * zeros + (if enabled ISTANBUL then 16 else 68) * nonzeros
     + 2400 * accounts + 1900 * storages
     + (if is_create && enabled HOMESTEAD then 53000 else 21000)
     + (if is_create && enabled SHANGHAI then 2 * ((Z.of_nat (length input) + 31) / 32) else 0)
     + (if enabled PRAGUE then 25000 * auths else 0))
    (if enabled PRAGUE then 21000 + 10 * (zeros + (if enabled ISTANBUL then 4 else 17) * nonzeros) else 0)).
Proof. apply initial_tx_gas_formula_aux. Qed.

Lemma initial_tx_gas_formula_witness :
  calculate_initial_tx_gas PRAGUE [0; 1; 2] false 1 2 0
  = Some (mkInitialAndFloorGas (4 * 1 + 16 * 2 + 2400 * 1 + 1900 * 2 + 21000 + 0 + 25000 * 0)
            (21000 + 10 * (1 + 4 * 2))).
Proof. apply (initial_tx_gas_formula PRAGUE [0; 1; 2] false 1 2 0). cbn. lia. Defined.
