(* ===== verification/I256.v ===== *)
(** Signed 256-bit arithmetic of [crates/interpreter/src/instructions/i256.rs],
    computed by the code on unsigned words, shown to be the signed operation on
    the integers the words denote. *)
From S2P Require Import Prelude.
From stdpp Require Import base numbers tactics.
From Stdlib Require Import ZArith Lia.

Local Open Scope Z_scope.

Inductive Sign : Type := Minus | Zero | Plus.

#[global] Instance Sign_eq_dec : EqDecision Sign.
Proof. solve_decision. Defined.

(** [Sign] is ordered by its [repr(i8)] values. *)
Definition Sign_repr (s : Sign) : Z := match s with Minus => -1 | Zero => 0 | Plus => 1 end.

Definition MAX_POSITIVE_VALUE : Z := 2 ^ 255 - 1.
Definition MIN_NEGATIVE_VALUE : Z := 2 ^ 255.
Definition FLIPH_BITMASK_U64 : Z := 0x7FFFFFFFFFFFFFFF.

Definition i256_sign (val : Z) : Sign :=
  if Z.testbit val 255 then Minus else if val =? 0 then Zero else Plus.

Definition two_compl (op : Z) : Z := wrapping_neg 256 op.

(** Returns the sign and the updated word. *)
Definition i256_sign_compl (val : Z) : Sign * Z :=
  let sign := i256_sign val in
  (sign, if bool_decide (sign = Minus) then two_compl val else val).

(** [as_limbs_mut()[3] &= FLIPH_BITMASK_U64]: the other limbs are kept. *)
Definition u256_remove_sign (val : Z) : Z :=
  Z.land val (Z.lor (Z.shiftl FLIPH_BITMASK_U64 192) (2 ^ 192 - 1)).

Definition i256_cmp (first second : Z) : comparison :=
  match Z.compare (Sign_repr (i256_sign first)) (Sign_repr (i256_sign second)) with
  | Eq => Z.compare first second
  | o => o
  end.

Definition i256_div (first second : Z) : Z :=
  let '(second_sign, second) := i256_sign_compl second in
  if bool_decide (second_sign = Zero) then 0
  else
    let '(first_sign, first) := i256_sign_compl first in
    if (first =? MIN_NEGATIVE_VALUE) && (second =? 1) then two_compl MIN_NEGATIVE_VALUE
    else
      let d := first / second in
      let d := u256_remove_sign d in
      if (bool_decide (first_sign = Minus) && negb (bool_decide (second_sign = Minus)))
         || (bool_decide (second_sign = Minus) && negb (bool_decide (first_sign = Minus)))
      then two_compl d else d.

Definition i256_mod (first second : Z) : Z :=
  let '(first_sign, first) := i256_sign_compl first in
  if bool_decide (first_sign = Zero) then 0
  else
    let '(second_sign, second) := i256_sign_compl second in
    if bool_decide (second_sign = Zero) then 0
    else
      let r := first mod second in
      let r := u256_remove_sign r in
      if bool_decide (first_sign = Minus) then two_compl r else r.

(** Evaluates the tests on known signs. *)
Ltac sign_simpl :=
  repeat match goal with
  | |- context [bool_decide (?x = ?y :> Sign)] =>
      let b := eval vm_compute in (bool_decide (x = y)) in
      change (bool_decide (x = y)) with b
  end; cbn [andb orb negb xorb].

(** * The words as signed integers *)

Abbreviation toZ := (signed 256).

Lemma pow256 : modulus 256 = 2 * 2 ^ 255. Proof. reflexivity. Qed.

Lemma testbit_255 x : u256 x -> Z.testbit x 255 = (2 ^ 255 <=? x).
Proof.
  unfold in_range. rewrite pow256. intros [? ?].
  rewrite Z.testbit_odd, Z.shiftr_div_pow2 by lia.
  destruct (Z.leb_spec (2 ^ 255) x).
  - replace (x / 2 ^ 255) with 1; [done|]. apply (Z.div_unique _ _ _ (x - 2 ^ 255)); lia.
  - rewrite Z.div_small by lia. done.
Qed.

Lemma signed_cases x :
  u256 x -> (x < 2 ^ 255 /\ toZ x = x) \/ (2 ^ 255 <= x /\ toZ x = x - modulus 256).
Proof.
  intros _. unfold signed. change (256 - 1) with 255. destruct (Z.ltb_spec x (2 ^ 255)); auto.
Qed.

(** The sign and absolute value computed by [i256_sign_compl]. *)
Lemma i256_sign_compl_spec x :
  u256 x ->
  i256_sign_compl x
  = (if toZ x <? 0 then Minus else if toZ x =? 0 then Zero else Plus, Z.abs (toZ x)).
Proof.
  intros Hx. unfold i256_sign_compl, i256_sign. rewrite testbit_255 by done.
  destruct (signed_cases x Hx) as [[Hlt ->]|[Hge ->]]; destruct Hx as [Hx0 Hx1]; rewrite ?pow256 in *.
  - destruct (Z.leb_spec (2 ^ 255) x); [lia|]. destruct (Z.ltb_spec x 0); [lia|].
    destruct (x =? 0); rewrite bool_decide_eq_false_2 by done; f_equal; lia.
  - destruct (Z.leb_spec (2 ^ 255) x); [|lia]. destruct (Z.ltb_spec (x - 2 * 2 ^ 255) 0); [|lia].
    rewrite bool_decide_eq_true_2 by done. f_equal. unfold two_compl, wrapping_neg, wrap. rewrite pow256.
    rewrite Z.mod_opp_l_nz; rewrite ?(Z.mod_small x); lia.
Qed.

Lemma u256_remove_sign_small x : 0 <= x < 2 ^ 255 -> u256_remove_sign x = x.
Proof.
  intros. unfold u256_remove_sign.
  change (Z.lor (Z.shiftl FLIPH_BITMASK_U64 192) (2 ^ 192 - 1)) with (Z.ones 255).
  rewrite Z.land_ones by lia. by apply Z.mod_small.
Qed.

Lemma abs_signed_range x : u256 x -> 0 <= Z.abs (toZ x) <= 2 ^ 255.
Proof. intros Hx. pose proof (signed_range 256 x ltac:(lia) Hx). change (256 - 1) with 255 in *. lia. Qed.

(** [SDIV]'s division on words is the division of the signed integers they
    denote, rounded toward zero, wrapped to 256 bits (which only matters for
    the minimum value divided by -1); division by zero is zero. *)
Lemma i256_div_correct first second :
  u256 first -> u256 second -> i256_div first second = wrap 256 (Z.quot (toZ first) (toZ second)).
Proof.
  intros Hf Hs. unfold i256_div. rewrite !i256_sign_compl_spec by done.
  pose proof (abs_signed_range _ Hf) as Hfa. pose proof (abs_signed_range _ Hs) as Hsa.
  set (a := toZ first) in *. set (b := toZ second) in *.
  destruct (Z.eqb_spec b 0) as [Hb0|Hb0].
  { rewrite Hb0. change (0 <? 0) with false. rewrite bool_decide_eq_true_2 by done.
    by rewrite Z.quot_0_r_ext. }
  rewrite bool_decide_eq_false_2 by (destruct (b <? 0); done).
  destruct ((Z.abs a =? MIN_NEGATIVE_VALUE) && (Z.abs b =? 1)) eqn:Emin.
  { boolify. unfold MIN_NEGATIVE_VALUE in *. unfold two_compl, wrapping_neg.
    assert (a = - 2 ^ 255) as ->.
    { pose proof (signed_range 256 first ltac:(lia) Hf). change (256 - 1) with 255 in *. unfold a in *. lia. }
    assert (b = 1 \/ b = -1) as [-> | ->] by lia; reflexivity. }
  assert (0 <= Z.abs a / Z.abs b < 2 ^ 255) as Hd.
  { split; [apply Z.div_pos; lia|]. apply andb_false_iff in Emin. unfold MIN_NEGATIVE_VALUE in Emin.
    apply Z.div_lt_upper_bound; [lia|]. destruct Emin; boolify; nia. }
  rewrite u256_remove_sign_small by done.
  assert (Z.quot (Z.abs a) (Z.abs b) = Z.abs a / Z.abs b) as Hq by (apply Z.quot_div_nonneg; lia).
  unfold two_compl, wrapping_neg.
  assert (wrap 256 (Z.abs a / Z.abs b) = Z.abs a / Z.abs b) as Hw.
  { apply wrap_small. unfold in_range. rewrite pow256. lia. }
  set (q := Z.abs a / Z.abs b) in *.
  assert (Z.quot a b = if xorb (a <? 0) (b <? 0) then - q else q) as ->.
  { destruct (Z.ltb_spec a 0), (Z.ltb_spec b 0); cbn [xorb]; rewrite <- Hq.
    - rewrite !Z.abs_neq, Z.quot_opp_opp by lia. done.
    - rewrite Z.abs_neq, Z.abs_eq, Z.quot_opp_l by lia. lia.
    - rewrite Z.abs_eq, Z.abs_neq, Z.quot_opp_r by lia. lia.
    - by rewrite !Z.abs_eq by lia. }
  destruct (Z.ltb_spec a 0), (Z.ltb_spec b 0), (Z.eqb_spec a 0); try lia; sign_simpl; congruence.
Qed.

(** [SMOD]'s remainder has the sign of the dividend: it is the remainder of
    the division rounded toward zero, and zero for a zero divisor. *)
Lemma i256_mod_correct first second :
  u256 first -> u256 second ->
  i256_mod first second
  = if second =? 0 then 0 else wrap 256 (Z.rem (toZ first) (toZ second)).
Proof.
  intros Hf Hs. unfold i256_mod. rewrite !i256_sign_compl_spec by done.
  pose proof (abs_signed_range _ Hf) as Hfa. pose proof (abs_signed_range _ Hs) as Hsa.
  assert ((second =? 0) = (toZ second =? 0)) as ->.
  { destruct Hs. rewrite ?pow256 in *. unfold signed. change (256 - 1) with 255.
    destruct (Z.ltb_spec second (2 ^ 255)); rewrite ?pow256; lia. }
  set (a := toZ first) in *. set (b := toZ second) in *.
  destruct (Z.eqb_spec a 0) as [Ha0|Ha0].
  { rewrite Ha0. change (0 <? 0) with false. rewrite bool_decide_eq_true_2 by done.
    destruct (Z.eqb_spec b 0); [done|]. by rewrite Z.rem_0_l. }
  rewrite bool_decide_eq_false_2 by (destruct (a <? 0); done).
  destruct (Z.eqb_spec b 0) as [Hb0|Hb0].
  { rewrite Hb0. change (0 <? 0) with false. by rewrite bool_decide_eq_true_2. }
  rewrite (bool_decide_eq_false_2 ((if b <? 0 then Minus else Plus) = Zero)) by (destruct (b <? 0); done).
  pose proof (Z.mod_pos_bound (Z.abs a) (Z.abs b) ltac:(lia)).
  rewrite u256_remove_sign_small by lia.
  assert (Z.rem (Z.abs a) (Z.abs b) = Z.abs a mod Z.abs b) as Hr by (apply Z.rem_mod_nonneg; lia).
  rewrite Z.rem_abs_r in Hr by done. rewrite <- Hr. rewrite <- Hr in H.
  unfold two_compl, wrapping_neg. destruct (Z.ltb_spec a 0).
  - sign_simpl. rewrite Z.abs_neq, Z.rem_opp_l, Z.opp_involutive by lia. done.
  - sign_simpl. rewrite Z.abs_eq in * by lia. symmetry. apply wrap_small. unfold in_range. rewrite pow256. lia.
Qed.

(** [SLT] and [SGT]'s comparison of words is the comparison of the signed
    integers they denote. *)
Lemma i256_cmp_correct first second :
  u256 first -> u256 second -> i256_cmp first second = Z.compare (toZ first) (toZ second).
Proof.
  intros Hf Hs. unfold i256_cmp, i256_sign. rewrite !testbit_255 by done.
  destruct (signed_cases first Hf) as [[? ->]|[? ->]], (signed_cases second Hs) as [[? ->]|[? ->]];
    destruct Hf, Hs; rewrite ?pow256 in *;
    destruct (Z.leb_spec (2 ^ 255) first), (Z.leb_spec (2 ^ 255) second); try lia;
    destruct (Z.eqb_spec first 0), (Z.eqb_spec second 0); try lia; cbn [Sign_repr];
    repeat match goal with |- context [Z.compare ?x ?y] => destruct (Z.compare_spec x y) end;
    try lia; done.
Qed.
