(* ===== verification/InstructionResult.v ===== *)
(** Instruction results of [crates/interpreter/src/instruction_result.rs] and
    the halt reasons of [crates/context/interface/src/result.rs] they become. *)
From S2P Require Import Prelude JournalEntry.
From stdpp Require Import base numbers strings tactics.
From Stdlib Require Import ZArith Lia.

Local Open Scope Z_scope.

Inductive InstructionResult : Type :=
  | IR_Stop | IR_Return | IR_SelfDestruct | IR_Revert | IR_CallTooDeep | IR_OutOfFunds
  | IR_CreateInitCodeStartingEF00 | IR_InvalidEOFInitCode | IR_InvalidExtDelegateCallTarget
  | IR_OutOfGas | IR_MemoryOOG | IR_MemoryLimitOOG | IR_PrecompileOOG | IR_InvalidOperandOOG
  | IR_ReentrancySentryOOG | IR_OpcodeNotFound | IR_CallNotAllowedInsideStatic
  | IR_StateChangeDuringStaticCall | IR_InvalidFEOpcode | IR_InvalidJump | IR_NotActivated
  | IR_StackUnderflow | IR_StackOverflow | IR_OutOfOffset | IR_CreateCollision
  | IR_OverflowPayment | IR_PrecompileError | IR_NonceOverflow | IR_CreateContractSizeLimit
  | IR_CreateContractStartingWithEF | IR_CreateInitCodeSizeLimit | IR_FatalExternalError.

#[global] Instance InstructionResult_eq_dec : EqDecision InstructionResult.
Proof. solve_decision. Defined.

(** The [repr(u8)] discriminants. *)
Definition InstructionResult_as_u8 (r : InstructionResult) : Z :=
  match r with
  | IR_Stop => 0x01
  | IR_Return => 0x02
  | IR_SelfDestruct => 0x03
  | IR_Revert => 0x10
  | IR_CallTooDeep => 0x11
  | IR_OutOfFunds => 0x12
  | IR_CreateInitCodeStartingEF00 => 0x13
  | IR_InvalidEOFInitCode => 0x14
  | IR_InvalidExtDelegateCallTarget => 0x15
  | IR_OutOfGas => 0x20
  | IR_MemoryOOG => 0x21
  | IR_MemoryLimitOOG => 0x22
  | IR_PrecompileOOG => 0x23
  | IR_InvalidOperandOOG => 0x24
  | IR_ReentrancySentryOOG => 0x25
  | IR_OpcodeNotFound => 0x26
  | IR_CallNotAllowedInsideStatic => 0x27
  | IR_StateChangeDuringStaticCall => 0x28
  | IR_InvalidFEOpcode => 0x29
  | IR_InvalidJump => 0x2a
  | IR_NotActivated => 0x2b
  | IR_StackUnderflow => 0x2c
  | IR_StackOverflow => 0x2d
  | IR_OutOfOffset => 0x2e
  | IR_CreateCollision => 0x2f
  | IR_OverflowPayment => 0x30
  | IR_PrecompileError => 0x31
  | IR_NonceOverflow => 0x32
  | IR_CreateContractSizeLimit => 0x33
  | IR_CreateContractStartingWithEF => 0x34
  | IR_CreateInitCodeSizeLimit => 0x35
  | IR_FatalExternalError => 0x36
  end.

Inductive SuccessReason : Type := SR_Stop | SR_Return | SR_SelfDestruct.

Inductive OutOfGasError : Type :=
| OOG_Basic | OOG_MemoryLimit | OOG_Memory | OOG_Precompile | OOG_InvalidOperand | OOG_ReentrancySentry.

Inductive HaltReason : Type :=
| HR_OutOfGas (e : OutOfGasError)
| HR_PrecompileErrorWithContext (message : string)
  | HR_OpcodeNotFound | HR_InvalidFEOpcode | HR_InvalidJump | HR_NotActivated
  | HR_StackUnderflow | HR_StackOverflow | HR_OutOfOffset | HR_CreateCollision
  | HR_PrecompileError | HR_NonceOverflow | HR_CreateContractSizeLimit
  | HR_CreateContractStartingWithEF | HR_CreateInitCodeSizeLimit | HR_OverflowPayment
  | HR_StateChangeDuringStaticCall | HR_CallNotAllowedInsideStatic | HR_OutOfFunds
  | HR_CallTooDeep.

Definition InstructionResult_from_transfer_error (e : TransferError) : InstructionResult :=
  match e with
  | OutOfFunds => IR_OutOfFunds
  | OverflowPayment => IR_OverflowPayment
  | CreateCollision => IR_CreateCollision
  end.

Definition InstructionResult_from_success_reason (value : SuccessReason) : InstructionResult :=
  match value with SR_Return => IR_Return | SR_Stop => IR_Stop | SR_SelfDestruct => IR_SelfDestruct end.

Definition InstructionResult_from_halt_reason (value : HaltReason) : InstructionResult :=
  match value with
  | HR_OutOfGas error =>
      match error with
      | OOG_Basic => IR_OutOfGas
      | OOG_MemoryLimit => IR_MemoryLimitOOG
      | OOG_Memory => IR_MemoryOOG
      | OOG_Precompile => IR_PrecompileOOG
      | OOG_InvalidOperand => IR_InvalidOperandOOG
      | OOG_ReentrancySentry => IR_ReentrancySentryOOG
      end
  | HR_PrecompileErrorWithContext _ => IR_PrecompileError
  | HR_OpcodeNotFound => IR_OpcodeNotFound
  | HR_InvalidFEOpcode => IR_InvalidFEOpcode
  | HR_InvalidJump => IR_InvalidJump
  | HR_NotActivated => IR_NotActivated
  | HR_StackUnderflow => IR_StackUnderflow
  | HR_StackOverflow => IR_StackOverflow
  | HR_OutOfOffset => IR_OutOfOffset
  | HR_CreateCollision => IR_CreateCollision
  | HR_PrecompileError => IR_PrecompileError
  | HR_NonceOverflow => IR_NonceOverflow
  | HR_CreateContractSizeLimit => IR_CreateContractSizeLimit
  | HR_CreateContractStartingWithEF => IR_CreateContractStartingWithEF
  | HR_CreateInitCodeSizeLimit => IR_CreateInitCodeSizeLimit
  | HR_OverflowPayment => IR_OverflowPayment
  | HR_StateChangeDuringStaticCall => IR_StateChangeDuringStaticCall
  | HR_CallNotAllowedInsideStatic => IR_CallNotAllowedInsideStatic
  | HR_OutOfFunds => IR_OutOfFunds
  | HR_CallTooDeep => IR_CallTooDeep
  end.

Definition InstructionResult_is_ok (self : InstructionResult) : bool :=
  match self with
  | IR_Stop | IR_Return | IR_SelfDestruct => true
  | _ => false
  end.

Definition InstructionResult_is_revert (self : InstructionResult) : bool :=
  match self with
  | IR_Revert | IR_CallTooDeep | IR_OutOfFunds | IR_CreateInitCodeStartingEF00
  | IR_InvalidEOFInitCode | IR_InvalidExtDelegateCallTarget => true
  | _ => false
  end.

Definition InstructionResult_is_ok_or_revert (self : InstructionResult) : bool :=
  match self with
  | IR_Stop | IR_Return | IR_SelfDestruct | IR_Revert | IR_CallTooDeep | IR_OutOfFunds
  | IR_CreateInitCodeStartingEF00 | IR_InvalidEOFInitCode | IR_InvalidExtDelegateCallTarget => true
  | _ => false
  end.

Definition InstructionResult_is_error (self : InstructionResult) : bool :=
  match self with
  | IR_OutOfGas | IR_MemoryOOG | IR_MemoryLimitOOG | IR_PrecompileOOG | IR_InvalidOperandOOG
  | IR_ReentrancySentryOOG | IR_OpcodeNotFound | IR_CallNotAllowedInsideStatic
  | IR_StateChangeDuringStaticCall | IR_InvalidFEOpcode | IR_InvalidJump | IR_NotActivated
  | IR_StackUnderflow | IR_StackOverflow | IR_OutOfOffset | IR_CreateCollision
  | IR_OverflowPayment | IR_PrecompileError | IR_NonceOverflow | IR_CreateContractSizeLimit
  | IR_CreateContractStartingWithEF | IR_CreateInitCodeSizeLimit | IR_FatalExternalError => true
  | _ => false
  end.

Inductive InternalResult : Type :=
| Internal_CreateInitCodeStartingEF00
| Internal_InvalidExtDelegateCallTarget.

Inductive SuccessOrHalt : Type :=
| SOH_Success (reason : SuccessReason)
| SOH_Revert
| SOH_Halt (reason : HaltReason)
| SOH_FatalExternalError
| SOH_Internal (r : InternalResult).

Definition SuccessOrHalt_from_result (result : InstructionResult) : SuccessOrHalt :=
  match result with
  | IR_Stop => SOH_Success SR_Stop
  | IR_Return => SOH_Success SR_Return
  | IR_SelfDestruct => SOH_Success SR_SelfDestruct
  | IR_Revert => SOH_Revert
  | IR_CreateInitCodeStartingEF00 => SOH_Revert
  | IR_OutOfGas => SOH_Halt (HR_OutOfGas OOG_Basic)
  | IR_MemoryLimitOOG => SOH_Halt (HR_OutOfGas OOG_MemoryLimit)
  | IR_MemoryOOG => SOH_Halt (HR_OutOfGas OOG_Memory)
  | IR_PrecompileOOG => SOH_Halt (HR_OutOfGas OOG_Precompile)
  | IR_InvalidOperandOOG => SOH_Halt (HR_OutOfGas OOG_InvalidOperand)
  | IR_ReentrancySentryOOG => SOH_Halt (HR_OutOfGas OOG_ReentrancySentry)
  | IR_OpcodeNotFound => SOH_Halt HR_OpcodeNotFound
  | IR_InvalidFEOpcode => SOH_Halt HR_InvalidFEOpcode
  | IR_InvalidJump => SOH_Halt HR_InvalidJump
  | IR_NotActivated => SOH_Halt HR_NotActivated
  | IR_StackUnderflow => SOH_Halt HR_StackUnderflow
  | IR_StackOverflow => SOH_Halt HR_StackOverflow
  | IR_OutOfOffset => SOH_Halt HR_OutOfOffset
  | IR_CreateCollision => SOH_Halt HR_CreateCollision
  | IR_PrecompileError => SOH_Halt HR_PrecompileError
  | IR_NonceOverflow => SOH_Halt HR_NonceOverflow
  | IR_CreateContractSizeLimit => SOH_Halt HR_CreateContractSizeLimit
  | IR_CreateContractStartingWithEF => SOH_Halt HR_CreateContractStartingWithEF
  | IR_CreateInitCodeSizeLimit => SOH_Halt HR_CreateInitCodeSizeLimit
  | IR_OverflowPayment => SOH_Halt HR_OverflowPayment
  | IR_StateChangeDuringStaticCall => SOH_Halt HR_StateChangeDuringStaticCall
  | IR_CallNotAllowedInsideStatic => SOH_Halt HR_CallNotAllowedInsideStatic
  | IR_OutOfFunds => SOH_Halt HR_OutOfFunds
  | IR_CallTooDeep => SOH_Halt HR_CallTooDeep
  | IR_InvalidEOFInitCode => SOH_Revert
  | IR_FatalExternalError => SOH_FatalExternalError
  | IR_InvalidExtDelegateCallTarget => SOH_Internal Internal_InvalidExtDelegateCallTarget
  end.

(** Every instruction result is exactly one of success, revert and error,
    and [is_ok_or_revert] is the first two. *)
Lemma InstructionResult_partition r :
  (InstructionResult_is_ok r = true /\ InstructionResult_is_revert r = false /\
     InstructionResult_is_error r = false /\ InstructionResult_is_ok_or_revert r = true) \/
  (InstructionResult_is_ok r = false /\ InstructionResult_is_revert r = true /\
     InstructionResult_is_error r = false /\ InstructionResult_is_ok_or_revert r = true) \/
  (InstructionResult_is_ok r = false /\ InstructionResult_is_revert r = false /\
     InstructionResult_is_error r = true /\ InstructionResult_is_ok_or_revert r = false).
Proof. destruct r; cbn; tauto. Qed.

(** A halt reason survives the way through the instruction result that
    carries it, except for the message of a precompile error. *)
Theorem HaltReason_roundtrip h :
  SuccessOrHalt_from_result (InstructionResult_from_halt_reason h)
  = SOH_Halt (match h with HR_PrecompileErrorWithContext _ => HR_PrecompileError | h => h end).
Proof. destruct h as [[]| | | | | | | | | | | | | | | | | | |]; reflexivity. Qed.
