(* ===== verification/Stack.v ===== *)
(** The operand stack of [crates/interpreter/src/interpreter/stack.rs].

    [stack_data] is the [Vec], bottom first, as the code indexes it.  The
    specification sees the same words top first ([words]); every operation is
    shown to be the list operation one expects there and to keep the stack
    within its limit.  The reads and writes the code makes through raw pointers
    are list accesses that fail ([None]) outside the [Vec]. *)
From S2P Require Import Prelude JournalEntry InstructionResult.
From stdpp Require Import base numbers list option tactics.
From Stdlib Require Import ZArith Lia.

Local Open Scope Z_scope.

Definition STACK_LIMIT : nat := 1024.

Record Stack := mkStack { stack_data : list Z }.

Definition Stack_new : Stack := mkStack [].
Definition Stack_len (self : Stack) : nat := length (stack_data self).
Definition Stack_is_empty (self : Stack) : bool := (Stack_len self =? 0)%nat.
Definition Stack_clear (self : Stack) : Stack := mkStack [].

(** [Vec::pop]. *)
Definition vec_pop (data : list Z) : option (Z * list Z) :=
  let? x := list.last data in Some (x, take (length data - 1) data).

Definition Stack_pop (self : Stack) : result Z InstructionResult * Stack :=
  match vec_pop (stack_data self) with
  | Some (x, data) => (Ok x, mkStack data)
  | None => (Err IR_StackUnderflow, self)
  end.

(** [popn]: [array::from_fn] pops [n] times, first popped first. *)
Fixpoint vec_popn (n : nat) (data : list Z) : option (list Z * list Z) :=
  match n with
  | O => Some ([], data)
  | S n =>
      let? (x, data) := vec_pop data in
      let? (xs, data) := vec_popn n data in
      Some (x :: xs, data)
  end.
Definition Stack_popn (n : nat) (self : Stack) : option (list Z * Stack) :=
  if (Stack_len self <? n)%nat then None
  else let? (xs, data) := vec_popn n (stack_data self) in Some (xs, mkStack data).

(** [popn_top]: the popped values and the value left on top, behind the
    returned reference. *)
Definition Stack_popn_top (n : nat) (self : Stack) : option (list Z * Z * Stack) :=
  if (Stack_len self <? n + 1)%nat then None
  else
    let? (xs, data) := vec_popn n (stack_data self) in
    let? top := list.last data in
    Some (xs, top, mkStack data).
(** A write through that reference. *)
Definition Stack_set_top (v : Z) (self : Stack) : Stack :=
  mkStack (<[(Stack_len self - 1)%nat := v]> (stack_data self)).

Definition Stack_push (value : Z) (self : Stack) : bool * Stack :=
  if (Stack_len self =? STACK_LIMIT)%nat then (false, self)
  else (true, mkStack (stack_data self ++ [value])).

Definition Stack_peek (no_from_top : nat) (self : Stack) : option (result Z InstructionResult) :=
  if (no_from_top <? Stack_len self)%nat then
    let? x := stack_data self !! (Stack_len self - no_from_top - 1)%nat in Some (Ok x)
  else Some (Err IR_StackUnderflow).

Definition Stack_dup (n : nat) (self : Stack) : option (bool * Stack) :=
  let len := Stack_len self in
  if (len <? n)%nat || (STACK_LIMIT <? len + 1)%nat then Some (false, self)
  else let? x := stack_data self !! (len - n)%nat in Some (true, mkStack (stack_data self ++ [x])).

Definition Stack_exchange (n m : nat) (self : Stack) : option (bool * Stack) :=
  let len := Stack_len self in
  let n_m_index := (n + m)%nat in
  if (len <=? n_m_index)%nat then Some (false, self)
  else
    let? x := stack_data self !! (len - 1 - n)%nat in
    let? y := stack_data self !! (len - 1 - n_m_index)%nat in
    Some (true, mkStack (<[(len - 1 - n_m_index)%nat := x]> (<[(len - 1 - n)%nat := y]> (stack_data self)))).

Definition Stack_swap (n : nat) (self : Stack) : option (bool * Stack) := Stack_exchange 0 n self.

Definition Stack_set (no_from_top : nat) (val : Z) (self : Stack) : result unit InstructionResult * Stack :=
  if (no_from_top <? Stack_len self)%nat then
    (Ok tt, mkStack (<[(Stack_len self - no_from_top - 1)%nat := val]> (stack_data self)))
  else (Err IR_StackUnderflow, self).

(** * Pushing bytes

    [push_slice_] writes 64-bit limbs, least significant first, straight into
    the buffer: the limbs of each full 32-byte word taken from the right, then
    those of the partial last word, its last limb padded with zero bytes, and
    zero limbs up to the end of the word. *)

(** [chunks_exact(32)] and its remainder. *)
Fixpoint chunks_exact (fuel size : nat) (l : list Z) : list (list Z) * list Z :=
  match fuel with
  | O => ([], l)
  | S fuel =>
      if (length l <? size)%nat then ([], l)
      else let '(cs, r) := chunks_exact fuel size (drop size l) in (take size l :: cs, r)
  end.
(** [rchunks_exact(8)] and its remainder: chunks from the right end. *)
Fixpoint rchunks_exact (fuel size : nat) (l : list Z) : list (list Z) * list Z :=
  match fuel with
  | O => ([], l)
  | S fuel =>
      if (length l <? size)%nat then ([], l)
      else
        let k := (length l - size)%nat in
        let '(cs, r) := rchunks_exact fuel size (take k l) in (drop k l :: cs, r)
  end.

(** The limbs of one full word. *)
Definition word_limbs (word : list Z) : list Z :=
  from_be_bytes <$> (rchunks_exact (length word) 8 word).1.

(** The limbs of the partial last word. *)
Definition partial_limbs (partial_last_word : list Z) : list Z :=
  let '(limbs, partial_last_limb) := rchunks_exact (length partial_last_word) 8 partial_last_word in
  let i := from_be_bytes <$> limbs in
  let i :=
    if (length partial_last_limb =? 0)%nat then i
    else i ++ [from_be_bytes (replicate (8 - length partial_last_limb) 0 ++ partial_last_limb)] in
  let m := (length i mod 4)%nat in
  if (m =? 0)%nat then i else i ++ replicate (4 - m) 0.

(** The buffer read back as words of four limbs. *)
Fixpoint words_of_limbs (fuel : nat) (limbs : list Z) : list Z :=
  match fuel with
  | O => []
  | S fuel =>
      match limbs with
      | l0 :: l1 :: l2 :: l3 :: limbs =>
          l0 + l1 * 2 ^ 64 + l2 * 2 ^ 128 + l3 * 2 ^ 192 :: words_of_limbs fuel limbs
      | _ => []
      end
  end.

Definition div_ceil (x y : nat) : nat := ((x + y - 1) / y)%nat.

Definition Stack_push_slice_ (slice : list Z) (self : Stack) : bool * Stack :=
  if (length slice =? 0)%nat then (true, self)
  else
    let n_words := div_ceil (length slice) 32 in
    let new_len := (Stack_len self + n_words)%nat in
    if (STACK_LIMIT <? new_len)%nat then (false, self)
    else
      let '(words, partial_last_word) := chunks_exact (length slice) 32 slice in
      let limbs := mjoin (word_limbs <$> words) in
      let limbs :=
        if (length partial_last_word =? 0)%nat then limbs
        else limbs ++ partial_limbs partial_last_word in
      (true, mkStack (stack_data self ++ words_of_limbs n_words limbs)).

Definition Stack_push_slice (slice : list Z) (self : Stack) : result unit InstructionResult * Stack :=
  let '(ok, self) := Stack_push_slice_ slice self in
  (if ok then Ok tt else Err IR_StackOverflow, self).

(** * The stack, top first *)

Definition words (self : Stack) : list Z := reverse (stack_data self).
Definition of_words (w : list Z) : Stack := mkStack (reverse w).

Lemma words_of_words w : words (of_words w) = w.
Proof. apply reverse_involutive. Qed.
Lemma of_words_words s : of_words (words s) = s.
Proof. destruct s as [d]. unfold of_words, words. cbn [stack_data]. by rewrite reverse_involutive. Qed.
Lemma of_words_len w : Stack_len (of_words w) = length w.
Proof. unfold Stack_len. cbn [stack_data of_words]. apply length_reverse. Qed.

Lemma vec_pop_cons x w : vec_pop (reverse (x :: w)) = Some (x, reverse w).
Proof.
  unfold vec_pop. rewrite reverse_cons, last_snoc, length_app. cbn [length].
  by rewrite Nat.add_sub, take_app_length.
Qed.

Lemma vec_popn_words n w :
  (n <= length w)%nat -> vec_popn n (reverse w) = Some (take n w, reverse (drop n w)).
Proof.
  revert w. induction n as [|n IH]; intros w Hn; [done|]. destruct w as [|x w]; cbn in Hn; [lia|].
  cbn [vec_popn]. rewrite vec_pop_cons, IH by lia. done.
Qed.

(** Index [i] from the top is index [len - 1 - i] of the [Vec]. *)
Lemma lookup_from_top (w : list Z) i :
  (i < length w)%nat -> reverse w !! (length w - 1 - i)%nat = w !! i.
Proof. intros. rewrite reverse_lookup by lia. f_equal. lia. Qed.

Lemma insert_from_top (w : list Z) i v :
  (i < length w)%nat -> <[(length w - 1 - i)%nat := v]> (reverse w) = reverse (<[i := v]> w).
Proof.
  intros Hi. apply list_eq. intros k. destruct (decide (k < length w)%nat) as [Hk|Hk].
  - rewrite reverse_lookup by (by rewrite length_insert). rewrite length_insert.
    destruct (decide (k = length w - 1 - i)%nat) as [->|Hne].
    + rewrite list_lookup_insert_eq by (rewrite length_reverse; lia).
      replace (length w - S (length w - 1 - i))%nat with i by lia. by rewrite list_lookup_insert_eq.
    + rewrite list_lookup_insert_ne, reverse_lookup, list_lookup_insert_ne by lia. done.
  - rewrite !lookup_ge_None_2; rewrite ?length_insert, ?length_reverse, ?length_insert; done || lia.
Qed.

(** What the operations promise, on the words top first. *)
Definition stack_ok (w : list Z) : Prop := (length w <= STACK_LIMIT)%nat /\ Forall u256 w.

Lemma Stack_popn_words n w :
  Stack_popn n (of_words w)
  = if (length w <? n)%nat then None else Some (take n w, of_words (drop n w)).
Proof.
  unfold Stack_popn. rewrite of_words_len. destruct (Nat.ltb_spec (length w) n); [done|].
  cbn [stack_data of_words]. by rewrite vec_popn_words.
Qed.

Lemma Stack_popn_top_words n w :
  Stack_popn_top n (of_words w)
  = match drop n w with
    | [] => None
    | top :: rest => Some (take n w, top, of_words (top :: rest))
    end.
Proof.
  unfold Stack_popn_top. rewrite of_words_len. destruct (Nat.ltb_spec (length w) (n + 1)).
  - by rewrite drop_ge by lia.
  - cbn [stack_data of_words]. rewrite vec_popn_words by lia.
    destruct (drop n w) as [|top rest] eqn:Ed.
    { apply (f_equal length) in Ed. rewrite length_drop in Ed. cbn in Ed. lia. }
    by rewrite reverse_cons, last_snoc, <- reverse_cons.
Qed.

Lemma Stack_set_top_words v x w : Stack_set_top v (of_words (x :: w)) = of_words (v :: w).
Proof.
  unfold Stack_set_top. rewrite of_words_len. cbn [length stack_data of_words].
  rewrite Nat.sub_succ, Nat.sub_0_r. unfold of_words. f_equal.
  rewrite !reverse_cons. rewrite <- (length_reverse w) at 1.
  rewrite insert_app_r_alt by lia. by rewrite Nat.sub_diag.
Qed.

Lemma Stack_push_words v w :
  Stack_push v (of_words w)
  = if (length w =? STACK_LIMIT)%nat then (false, of_words w) else (true, of_words (v :: w)).
Proof. unfold Stack_push. rewrite of_words_len. case_if; [done|]. unfold of_words. by rewrite reverse_cons. Qed.

Lemma Stack_dup_words n w :
  (0 < n)%nat ->
  Stack_dup n (of_words w)
  = if (length w <? n)%nat || (STACK_LIMIT <=? length w)%nat then Some (false, of_words w)
    else let? x := w !! (n - 1)%nat in Some (true, of_words (x :: w)).
Proof.
  intros Hn. unfold Stack_dup. rewrite of_words_len.
  replace (STACK_LIMIT <? length w + 1)%nat with (STACK_LIMIT <=? length w)%nat.
  2: { destruct (Nat.leb_spec STACK_LIMIT (length w)), (Nat.ltb_spec STACK_LIMIT (length w + 1)); lia. }
  destruct (Nat.ltb_spec (length w) n); [done|]. cbn [orb]. case_if; [done|].
  cbn [stack_data of_words].
  replace (length w - n)%nat with (length w - 1 - (n - 1))%nat by lia. rewrite lookup_from_top by lia.
  destruct (w !! (n - 1)%nat); [|done]. unfold of_words. by rewrite reverse_cons.
Qed.

Lemma Stack_exchange_words n m w :
  (0 < m)%nat ->
  Stack_exchange n m (of_words w)
  = if (length w <=? n + m)%nat then Some (false, of_words w)
    else let? x := w !! n in let? y := w !! (n + m)%nat in
         Some (true, of_words (<[(n + m)%nat := x]> (<[n := y]> w))).
Proof.
  intros Hm. unfold Stack_exchange. rewrite of_words_len.
  destruct (Nat.leb_spec (length w) (n + m)); [done|]. cbn [stack_data of_words].
  rewrite !lookup_from_top by lia. destruct (w !! n) as [x|]; [|done].
  destruct (w !! (n + m)%nat) as [y|]; [|done]. unfold of_words. do 3 f_equal.
  rewrite insert_from_top by lia.
  rewrite <- (length_insert w n y) at 1. rewrite insert_from_top; [done|]. rewrite length_insert. lia.
Qed.

(** C40: the stack operations are the list operations on the words, top first:
    [popn], [push], [dup] and [exchange] fail exactly when the stack is too
    short or full, otherwise have the expected effect, never access memory
    outside the [Vec], and keep the limit of 1024 words. *)
Theorem Stack_refines_list n m v w :
  stack_ok w -> u256 v -> (0 < m)%nat ->
  Stack_popn n (of_words w)
    = (if (length w <? n)%nat then None else Some (take n w, of_words (drop n w))) /\
  (exists w', Stack_push v (of_words w) = (bool_decide (length w < STACK_LIMIT)%nat, of_words w') /\
     stack_ok w' /\ w' = if decide (length w < STACK_LIMIT)%nat then v :: w else w) /\
  (exists ok w', Stack_dup m (of_words w) = Some (ok, of_words w') /\ stack_ok w' /\
     ((ok = true /\ exists x, w !! (m - 1)%nat = Some x /\ w' = x :: w) \/
      (ok = false /\ w' = w /\ (length w < m \/ length w = STACK_LIMIT)%nat))) /\
  (exists ok w', Stack_exchange n m (of_words w) = Some (ok, of_words w') /\ stack_ok w' /\
     ((ok = true /\ w' !! n = w !! (n + m)%nat /\ w' !! (n + m)%nat = w !! n /\
        forall i, i <> n -> i <> (n + m)%nat -> w' !! i = w !! i) \/
      (ok = false /\ w' = w /\ (length w <= n + m)%nat))).
Proof.
  intros [Hlen Hu] Hv Hm. split; [apply Stack_popn_words|]. split; [|split].
  - rewrite Stack_push_words. destruct (Nat.eqb_spec (length w) STACK_LIMIT).
    + exists w. rewrite bool_decide_eq_false_2, decide_False by lia. done.
    + exists (v :: w). rewrite bool_decide_eq_true_2, decide_True by lia. split_and!; [done| |done].
      split; [cbn; lia|by constructor].
  - rewrite Stack_dup_words by done. destruct (Nat.ltb_spec (length w) m); cbn [orb].
    { exists false, w. split_and!; [done..|]. right. auto. }
    destruct (Nat.leb_spec STACK_LIMIT (length w)).
    { exists false, w. split_and!; [done..|]. right. split_and!; auto. lia. }
    destruct (lookup_lt_is_Some_2 w (m - 1)) as [x Hx]; [lia|]. rewrite Hx.
    exists true, (x :: w). split_and!; [done| |left; eauto]. split; [cbn; lia|].
    constructor; [|done]. by eapply Forall_lookup_1 in Hx.
  - rewrite Stack_exchange_words by done. destruct (Nat.leb_spec (length w) (n + m)).
    { exists false, w. split_and!; [done..|]. right. auto. }
    destruct (lookup_lt_is_Some_2 w n) as [x Hx]; [lia|].
    destruct (lookup_lt_is_Some_2 w (n + m)) as [y Hy]; [lia|]. rewrite Hx, Hy.
    eexists true, _. split_and!; [done| |left; split_and!; [done|..]].
    + split; [by rewrite !length_insert|]. apply Forall_insert; [|by eapply Forall_lookup_1 in Hx].
      apply Forall_insert; [done|by eapply Forall_lookup_1 in Hy].
    + rewrite list_lookup_insert_ne, list_lookup_insert_eq by lia. done.
    + rewrite list_lookup_insert_eq by (rewrite length_insert; lia). done.
    + intros i Hi1 Hi2. by rewrite !list_lookup_insert_ne by done.
Qed.

Lemma Stack_refines_list_witness :
  stack_ok [1; 2; 3] /\
  (exists ok w', Stack_exchange 0 2 (of_words [1; 2; 3]) = Some (ok, of_words w') /\ stack_ok w').
Proof.
  assert (stack_ok [1; 2; 3]) as Hok.
  { split; [cbn; unfold STACK_LIMIT; lia|]. repeat constructor; unfold modulus; lia. }
  split; [done|].
  destruct (Stack_refines_list 0 2 7 [1; 2; 3] Hok ltac:(unfold in_range, modulus; lia) ltac:(lia))
    as (_ & _ & _ & ok & w' & He & Hw & _). eauto.
Defined.

(** * Pushed bytes are big-endian words *)

(** The value of limbs, least significant first. *)
Fixpoint limbs_value (l : list Z) : Z :=
  match l with [] => 0 | x :: l => x + 2 ^ 64 * limbs_value l end.

Lemma limbs_value_app l1 l2 :
  limbs_value (l1 ++ l2) = limbs_value l1 + 2 ^ (64 * Z.of_nat (length l1)) * limbs_value l2.
Proof.
  induction l1 as [|x l1 IH]; cbn [limbs_value app length]; [change (64 * Z.of_nat 0) with 0; lia|].
  rewrite IH, Nat2Z.inj_succ, Z.mul_succ_r, Z.pow_add_r by lia. lia.
Qed.

Lemma limbs_value_zeros n : limbs_value (replicate n 0) = 0.
Proof. induction n as [|n IH]; cbn [limbs_value replicate]; lia. Qed.

Lemma from_be_bytes_zeros n l : from_be_bytes (replicate n 0 ++ l) = from_be_bytes l.
Proof.
  rewrite from_be_bytes_app. enough (from_be_bytes (replicate n 0) = 0) by lia.
  unfold from_be_bytes. rewrite reverse_replicate. induction n as [|n IH]; cbn [replicate from_le_bytes]; lia.
Qed.

(** Eight-byte chunks from the right are limbs: the chunks and the remainder
    have the value of the bytes, and their number is that of the full chunks. *)
Lemma rchunks_value fuel l :
  (length l <= fuel)%nat ->
  let '(cs, r) := rchunks_exact fuel 8 l in
  limbs_value ((from_be_bytes <$> cs) ++ [from_be_bytes r]) = from_be_bytes l /\
  (length r < 8)%nat /\ (length l = 8 * length cs + length r)%nat.
Proof.
  revert l. induction fuel as [|fuel IH]; intros l Hl.
  { destruct l; [|cbn in Hl; lia]. cbn. split_and!; [done|lia..]. }
  cbn [rchunks_exact]. destruct (Nat.ltb_spec (length l) 8).
  { cbn [fmap list_fmap app limbs_value length]. split_and!; lia. }
  specialize (IH (take (length l - 8) l)). rewrite length_take in IH.
  destruct (rchunks_exact fuel 8 (take (length l - 8) l)) as [cs r].
  destruct IH as (Hv & Hr & Hlen); [lia|]. split_and!; [|done|cbn [length]; lia].
  cbn [fmap list_fmap app limbs_value]. change (list_fmap _ _ from_be_bytes cs) with (from_be_bytes <$> cs).
  rewrite Hv.
  assert (from_be_bytes l = from_be_bytes (take (length l - 8) l ++ drop (length l - 8) l)) as ->
    by (by rewrite take_drop).
  rewrite from_be_bytes_app, length_drop. replace (length l - (length l - 8))%nat with 8%nat by lia.
  change (256 ^ Z.of_nat 8) with (2 ^ 64). lia.
Qed.

Lemma word_limbs_spec word :
  length word = 32%nat ->
  length (word_limbs word) = 4%nat /\ limbs_value (word_limbs word) = from_be_bytes word.
Proof.
  intros Hl. unfold word_limbs. pose proof (rchunks_value (length word) word ltac:(lia)) as H.
  destruct (rchunks_exact _ 8 word) as [cs r]. destruct H as (Hv & Hr & Hlen). cbn [fst].
  rewrite length_fmap. assert (length r = 0%nat) as Hr0 by lia. destruct r; [|done].
  split; [cbn in Hlen; lia|]. rewrite limbs_value_app in Hv. cbn [limbs_value] in Hv.
  change (from_be_bytes []) with 0 in Hv. lia.
Qed.

Lemma partial_limbs_spec p :
  (0 < length p < 32)%nat ->
  length (partial_limbs p) = 4%nat /\ limbs_value (partial_limbs p) = from_be_bytes p.
Proof.
  intros Hl. unfold partial_limbs. pose proof (rchunks_value (length p) p ltac:(lia)) as H.
  destruct (rchunks_exact _ 8 p) as [cs r]. destruct H as (Hv & Hr & Hlen). cbn zeta.
  set (i := if (length r =? 0)%nat then _ else _).
  assert (limbs_value i = from_be_bytes p /\ (0 < length i <= 4)%nat) as [Hi Hli].
  { unfold i. rewrite limbs_value_app in Hv. cbn [limbs_value] in Hv.
    destruct (Nat.eqb_spec (length r) 0) as [E|E].
    - destruct r; [|done]. change (from_be_bytes []) with 0 in Hv. rewrite length_fmap.
      cbn [length] in *. split; lia.
    - rewrite limbs_value_app, length_app, length_fmap in *. cbn [limbs_value length].
      rewrite from_be_bytes_zeros. split; lia. }
  clearbody i. destruct (Nat.eqb_spec (length i mod 4) 0) as [E|E].
  - split; [|done]. assert (length i = 4%nat \/ (length i < 4)%nat) as [?|Hlt] by lia; [done|].
    rewrite Nat.mod_small in E by done. lia.
  - assert (length i < 4)%nat as Hlt.
    { assert (length i <> 4%nat) by (intros E4; by rewrite E4 in E). lia. }
    rewrite (Nat.mod_small _ 4) by done. rewrite length_app, length_replicate, limbs_value_app, limbs_value_zeros.
    split; lia.
Qed.

Lemma words_of_limbs_app n g rest :
  length g = 4%nat ->
  words_of_limbs (S n) (g ++ rest) = limbs_value g :: words_of_limbs n rest.
Proof.
  intros Hg. destruct g as [|a [|b [|c [|d [|]]]]]; try done.
  cbn [app words_of_limbs limbs_value]. f_equal.
  change (2 ^ 128) with (2 ^ 64 * 2 ^ 64). change (2 ^ 192) with (2 ^ 64 * (2 ^ 64 * 2 ^ 64)). lia.
Qed.

Lemma mjoin_cons (x : list Z) xs : mjoin (x :: xs) = x ++ mjoin xs.
Proof. reflexivity. Qed.

Lemma chunks_exact_spec fuel l :
  (length l <= fuel)%nat ->
  let '(cs, r) := chunks_exact fuel 32 l in
  l = mjoin cs ++ r /\ Forall (fun c => length c = 32%nat) cs /\ (length r < 32)%nat.
Proof.
  revert l. induction fuel as [|fuel IH]; intros l Hl.
  { destruct l; [|cbn in Hl; lia]. cbn. split_and!; [done..|lia]. }
  cbn [chunks_exact]. destruct (Nat.ltb_spec (length l) 32); [by split_and!|].
  specialize (IH (drop 32 l)). rewrite length_drop in IH.
  destruct (chunks_exact fuel 32 (drop 32 l)) as [cs r].
  destruct IH as (Hj & Hf & Hr); [lia|]. split_and!; [|constructor; [rewrite length_take; lia|done]|done].
  rewrite mjoin_cons, <- app_assoc, <- Hj. by rewrite take_drop.
Qed.

(** The words a byte string is pushed as. *)
Definition slice_words (slice : list Z) : list Z :=
  let '(cs, r) := chunks_exact (length slice) 32 slice in
  from_be_bytes <$> (if (length r =? 0)%nat then cs else cs ++ [r]).

Lemma words_of_limbs_join cs rest n :
  Forall (fun c => length c = 32%nat) cs ->
  words_of_limbs (length cs + n) (mjoin (word_limbs <$> cs) ++ rest)
  = (from_be_bytes <$> cs) ++ words_of_limbs n rest.
Proof.
  induction 1 as [|c cs Hc _ IH]; [done|].
  rewrite !fmap_cons, mjoin_cons, <- app_assoc. cbn [length Nat.add app]. destruct (word_limbs_spec c Hc) as [Hl Hv].
  rewrite words_of_limbs_app by done. rewrite IH, Hv. done.
Qed.

Lemma length_mjoin_32 cs :
  Forall (fun c => length c = 32%nat) cs -> length (mjoin cs : list Z) = (32 * length cs)%nat.
Proof.
  induction 1 as [|c cs Hc _ IH]; [done|]. rewrite mjoin_cons, length_app, Hc. cbn [length]. lia.
Qed.

Lemma Stack_push_slice_correct_aux slice self :
  Stack_push_slice_ slice self
  = let ws := slice_words slice in
    if (STACK_LIMIT <? Stack_len self + length ws)%nat && negb (length slice =? 0)%nat then (false, self)
    else (true, mkStack (stack_data self ++ ws)).
Proof.
  unfold Stack_push_slice_, slice_words. destruct (Nat.eqb_spec (length slice) 0) as [E|E].
  { destruct slice; [|done]. cbn. rewrite andb_false_r, app_nil_r. by destruct self. }
  cbn [negb]. rewrite andb_true_r.
  pose proof (chunks_exact_spec (length slice) slice ltac:(lia)) as H.
  destruct (chunks_exact _ 32 slice) as [cs r]. destruct H as (Hj & Hf & Hr).
  apply (f_equal length) in Hj as Hl. rewrite length_app, length_mjoin_32 in Hl by done.
  assert (div_ceil (length slice) 32 = length cs + (if (length r =? 0)%nat then 0 else 1))%nat as Hn.
  { unfold div_ceil. rewrite Hl. destruct (Nat.eqb_spec (length r) 0) as [E0|E0].
    - rewrite E0. symmetry. apply (Nat.div_unique _ _ _ 31); lia.
    - symmetry. apply (Nat.div_unique _ _ _ (length r - 1)); lia. }
  rewrite Hn, length_fmap. destruct (Nat.eqb_spec (length r) 0) as [E0|E0].
  - rewrite !Nat.add_0_r. case_if; [done|]. do 3 f_equal.
    pose proof (words_of_limbs_join cs [] 0 Hf) as Hw. by rewrite !Nat.add_0_r, !app_nil_r in Hw.
  - rewrite length_app. cbn [length]. case_if; [done|]. do 3 f_equal.
    rewrite words_of_limbs_join by done. rewrite fmap_app. f_equal.
    destruct (partial_limbs_spec r ltac:(lia)) as [Hpl Hpv].
    rewrite <- (app_nil_r (partial_limbs r)). rewrite words_of_limbs_app by done. by rewrite Hpv.
Qed.

(** Pushing bytes limb by limb through the raw buffer pushes big-endian
    words: each full 32 bytes as one word, a shorter rest as its own value, and
    nothing when that would exceed the stack limit. *)
Theorem Stack_push_slice_correct slice self :
  Stack_push_slice_ slice self
  = let ws := slice_words slice in
    if (STACK_LIMIT <? Stack_len self + length ws)%nat && negb (length slice =? 0)%nat then (false, self)
    else (true, mkStack (stack_data self ++ ws)).
Proof. apply Stack_push_slice_correct_aux. Qed.

(** One to 32 bytes, as [PUSH1] to [PUSH32] push them: a single word. *)
Lemma slice_words_single slice :
  (0 < length slice <= 32)%nat -> slice_words slice = [from_be_bytes slice].
Proof.
  intros Hl. unfold slice_words. pose proof (chunks_exact_spec (length slice) slice ltac:(lia)) as H.
  destruct (chunks_exact _ 32 slice) as [cs r]. destruct H as (Hj & Hf & Hr).
  apply (f_equal length) in Hj as Hlen. rewrite length_app, length_mjoin_32 in Hlen by done.
  destruct cs as [|c [|]]; cbn [length] in Hlen; [| |lia].
  - cbn in Hj. subst r. destruct (Nat.eqb_spec (length slice) 0); [lia|done].
  - destruct r; [|cbn [length] in Hlen; lia]. cbn in Hj. rewrite !app_nil_r in Hj. by subst.
Qed.
