(* ===== verification/SharedMemory.v ===== *)
(** The memory shared by the call frames,
    [crates/interpreter/src/interpreter/shared_memory.rs].

    All frames of a transaction hold an [Rc] to one buffer; a frame sees the
    part of it from its checkpoint on.  The buffer is therefore a store of its
    own, passed to and returned by every operation, and a [SharedMemory] is
    what distinguishes a frame: its checkpoint and that of its child.  A slice
    out of bounds, a panic in debug builds and undefined behaviour otherwise,
    is [None].  The [memory_limit] feature is off, as in the default build. *)
From S2P Require Import Prelude JournalEntry Gas.
From stdpp Require Import base numbers list option tactics.
From Stdlib Require Import ZArith Lia.

Local Open Scope Z_scope.

Abbreviation buffer := (list Z) (only parsing).

Record SharedMemory := mkSharedMemory { my_checkpoint : nat; child_checkpoint : option nat }.

Definition SharedMemory_new : SharedMemory := mkSharedMemory 0 None.

(** * Slices of a vector *)

(** [v.get(a..b)]. *)
Definition get_range (v : list Z) (a b : nat) : option (list Z) :=
  if (a <=? b)%nat && (b <=? length v)%nat then Some (take (b - a) (drop a v)) else None.

(** [v[a..a + data.len()].copy_from_slice(data)]. *)
Definition write_range (v : list Z) (a : nat) (bytes : list Z) : option (list Z) :=
  if (a + length bytes <=? length v)%nat
  then Some (take a v ++ bytes ++ drop (a + length bytes) v) else None.

(** * Operations *)

Definition SharedMemory_full_len (buf : buffer) : nat := length buf.
Definition SharedMemory_len (self : SharedMemory) (buf : buffer) : nat :=
  (SharedMemory_full_len buf - my_checkpoint self)%nat.
Definition SharedMemory_is_empty (self : SharedMemory) (buf : buffer) : bool :=
  (SharedMemory_len self buf =? 0)%nat.

(** The child and the parent that remembers it; [None] when the parent already
    has a child. *)
Definition SharedMemory_new_child_context (self : SharedMemory) (buf : buffer)
    : option (SharedMemory * SharedMemory) :=
  match child_checkpoint self with
  | Some _ => None
  | None =>
      let new_checkpoint := SharedMemory_full_len buf in
      Some (mkSharedMemory new_checkpoint None,
            mkSharedMemory (my_checkpoint self) (Some new_checkpoint))
  end.

Definition SharedMemory_free_child_context (self : SharedMemory) (buf : buffer)
    : SharedMemory * buffer :=
  match child_checkpoint self with
  | None => (self, buf)
  | Some child_checkpoint => (mkSharedMemory (my_checkpoint self) None, take child_checkpoint buf)
  end.

(** [Vec::resize] truncates or pads with zeros. *)
Definition SharedMemory_resize (new_size : nat) (self : SharedMemory) (buf : buffer) : buffer :=
  resize (my_checkpoint self + new_size) 0 buf.

Definition SharedMemory_slice_range (a b : nat) (self : SharedMemory) (buf : buffer) : option (list Z) :=
  get_range buf (a + my_checkpoint self) (b + my_checkpoint self).
Definition SharedMemory_slice_len (offset size : nat) (self : SharedMemory) (buf : buffer)
    : option (list Z) :=
  SharedMemory_slice_range offset (offset + size) self buf.
Definition SharedMemory_global_slice_range (a b : nat) (self : SharedMemory) (buf : buffer)
    : option (list Z) := get_range buf a b.
Definition SharedMemory_get_byte (offset : nat) (self : SharedMemory) (buf : buffer) : option Z :=
  let? s := SharedMemory_slice_len offset 1 self buf in s !! 0%nat.
Definition SharedMemory_get_word (offset : nat) (self : SharedMemory) (buf : buffer) : option (list Z) :=
  SharedMemory_slice_len offset 32 self buf.
Definition SharedMemory_get_u256 (offset : nat) (self : SharedMemory) (buf : buffer) : option Z :=
  let? w := SharedMemory_get_word offset self buf in Some (from_be_bytes w).

(** [slice_mut(offset, value.len()).copy_from_slice(value)]. *)
Definition SharedMemory_set (offset : nat) (value : list Z) (self : SharedMemory) (buf : buffer)
    : option buffer :=
  if (length value =? 0)%nat then Some buf
  else write_range buf (my_checkpoint self + offset) value.
Definition SharedMemory_set_byte (offset : nat) (byte : Z) (self : SharedMemory) (buf : buffer)
    : option buffer := SharedMemory_set offset [byte] self buf.
Definition SharedMemory_set_word (offset : nat) (value : list Z) (self : SharedMemory) (buf : buffer)
    : option buffer := SharedMemory_set offset value self buf.
Definition SharedMemory_set_u256 (offset : nat) (value : Z) (self : SharedMemory) (buf : buffer)
    : option buffer := SharedMemory_set offset (be_bytes 32 value) self buf.

(** The free function [set_data]; [dst] and [src] do not overlap. *)
Definition set_data (dst src : list Z) (dst_offset src_offset len : nat) : option (list Z) :=
  if (len =? 0)%nat then Some dst
  else if (length src <=? src_offset)%nat then write_range dst dst_offset (replicate len 0)
  else
    let src_end := Nat.min (src_offset + len) (length src) in
    let src_len := (src_end - src_offset)%nat in
    let? bytes := get_range src src_offset src_end in
    let? dst := write_range dst dst_offset bytes in
    write_range dst (dst_offset + src_len) (replicate (len - src_len) 0).

(** [split_at_mut(my_checkpoint)]: an update of the part a frame sees. *)
Definition with_context (f : list Z -> option (list Z)) (self : SharedMemory) (buf : buffer)
    : option buffer :=
  if (my_checkpoint self <=? length buf)%nat then
    let? dst := f (drop (my_checkpoint self) buf) in
    Some (take (my_checkpoint self) buf ++ dst)
  else None.

Definition SharedMemory_context_memory (self : SharedMemory) (buf : buffer) : option (list Z) :=
  if (my_checkpoint self <=? length buf)%nat then Some (drop (my_checkpoint self) buf) else None.

Definition SharedMemory_set_data (memory_offset data_offset len : nat) (bytes : list Z)
    (self : SharedMemory) (buf : buffer) : option buffer :=
  with_context (fun dst => set_data dst bytes memory_offset data_offset len) self buf.

Definition SharedMemory_global_to_local_set_data (memory_offset data_offset len : nat)
    (range_start range_end : nat) (self : SharedMemory) (buf : buffer) : option buffer :=
  let? src :=
    if (range_end <=? range_start)%nat then Some []
    else get_range (take (my_checkpoint self) buf) range_start range_end in
  with_context (fun dst => set_data dst src memory_offset data_offset len) self buf.

(** [copy_within(src..src + len, dst)]. *)
Definition SharedMemory_copy (dst src len : nat) (self : SharedMemory) (buf : buffer) : option buffer :=
  with_context (fun m => let? bytes := get_range m src (src + len) in write_range m dst bytes) self buf.

(** * Charging for memory *)

(** Returns whether the gas sufficed.  [record_new_len] is charged before the
    check, so the memory gas is updated even on failure. *)
Definition resize_memory_cold (new_num_words : Z) (gas : Gas) (self : SharedMemory) (buf : buffer)
    : option (bool * Gas * buffer) :=
  let '(cost, mg) := MemoryGas_record_new_len (gas_memory gas) new_num_words in
  let? cost := cost in
  let gas := set_gas_memory mg gas in
  let '(ok, gas) := Gas_record_cost cost gas in
  if ok then Some (true, gas, SharedMemory_resize (Z.to_nat (new_num_words * 32)) self buf)
  else Some (false, gas, buf).

Definition resize_memory (offset len : Z) (gas : Gas) (self : SharedMemory) (buf : buffer)
    : option (bool * Gas * buffer) :=
  let new_num_words := num_words (saturating_add 64 offset len) in
  if words_num (gas_memory gas) <? new_num_words then resize_memory_cold new_num_words gas self buf
  else Some (true, gas, buf).

(** * Lemmas on slices *)

Lemma get_range_lookup v a b s i :
  get_range v a b = Some s -> s !! i = if (i <? b - a)%nat then v !! (a + i)%nat else None.
Proof.
  unfold get_range. destruct (_ && _); [|done]. intros [= <-]. destruct (Nat.ltb_spec i (b - a)).
  - by rewrite lookup_take_lt, lookup_drop by lia.
  - by rewrite lookup_take_ge by lia.
Qed.

Lemma get_range_Some v a b : (a <= b <= length v)%nat -> get_range v a b = Some (take (b - a) (drop a v)).
Proof.
  intros. unfold get_range. destruct (Nat.leb_spec a b), (Nat.leb_spec b (length v)); try lia. done.
Qed.

Lemma write_range_Some v a bytes :
  (a + length bytes <= length v)%nat ->
  write_range v a bytes = Some (take a v ++ bytes ++ drop (a + length bytes) v).
Proof. intros. unfold write_range. destruct (Nat.leb_spec (a + length bytes) (length v)); [done|lia]. Qed.

Lemma write_range_length v a bytes v' : write_range v a bytes = Some v' -> length v' = length v.
Proof.
  unfold write_range. destruct (Nat.leb_spec (a + length bytes) (length v)); [|done]. intros [= <-].
  rewrite !length_app, length_take, length_drop. lia.
Qed.

Lemma write_range_lookup v a bytes v' i :
  write_range v a bytes = Some v' ->
  v' !! i = if (a <=? i)%nat && (i <? a + length bytes)%nat then bytes !! (i - a)%nat else v !! i.
Proof.
  unfold write_range. destruct (Nat.leb_spec (a + length bytes) (length v)); [|done]. intros [= <-].
  assert (length (take a v) = a) as Ht by (rewrite length_take; lia).
  destruct (Nat.leb_spec a i); cbn [andb].
  - rewrite lookup_app_r, Ht by lia. destruct (Nat.ltb_spec i (a + length bytes)).
    + by rewrite lookup_app_l by lia.
    + rewrite lookup_app_r, lookup_drop by lia. f_equal. lia.
  - rewrite lookup_app_l, lookup_take_lt by lia. done.
Qed.

Lemma write_range_prefix v a bytes v' : write_range v a bytes = Some v' -> take a v' = take a v.
Proof.
  unfold write_range. destruct (Nat.leb_spec (a + length bytes) (length v)); [|done]. intros [= <-].
  rewrite take_app_le by (rewrite length_take; lia). rewrite take_take. f_equal. lia.
Qed.

(** * Copying with zero fill *)

(** Byte [i] of a source that is zero beyond its end. *)
Definition padded (src : list Z) (i : nat) : Z := default 0 (src !! i).

Lemma set_data_correct_aux dst src dst_offset src_offset len :
  (dst_offset + len <= length dst)%nat ->
  exists dst', set_data dst src dst_offset src_offset len = Some dst' /\ length dst' = length dst /\
    forall i, dst' !! i =
      if (dst_offset <=? i)%nat && (i <? dst_offset + len)%nat
      then Some (padded src (src_offset + (i - dst_offset))) else dst !! i.
Proof.
  intros Hd. unfold set_data. destruct (Nat.eqb_spec len 0) as [->|Hlen].
  { exists dst. split_and!; [done..|]. intros i.
    destruct (Nat.leb_spec dst_offset i), (Nat.ltb_spec i (dst_offset + 0)); done || lia. }
  destruct (Nat.leb_spec (length src) src_offset) as [Hs|Hs].
  - eexists. split; [apply write_range_Some; by rewrite length_replicate|].
    assert (write_range dst dst_offset (replicate len 0) = Some _) as Hw
      by (apply write_range_Some; by rewrite length_replicate).
    split; [by apply write_range_length in Hw|]. intros i. rewrite (write_range_lookup _ _ _ _ i Hw).
    rewrite length_replicate. case_if; [|done]. apply andb_prop in Heqb as [?%Nat.leb_le ?%Nat.ltb_lt].
    rewrite lookup_replicate_2 by lia. unfold padded. by rewrite lookup_ge_None_2 by lia.
  - set (src_end := Nat.min _ _). cbv zeta.
    rewrite get_range_Some by (unfold src_end; lia). set (bytes := take _ _).
    assert (length bytes = src_end - src_offset)%nat as Hb.
    { unfold bytes, src_end. rewrite length_take, length_drop. lia. }
    assert (exists d1, write_range dst dst_offset bytes = Some d1) as [d1 H1].
    { eexists. apply write_range_Some. rewrite Hb. unfold src_end. lia. }
    rewrite H1. pose proof (write_range_length _ _ _ _ H1) as Hl1.
    assert (exists d2, write_range d1 (dst_offset + (src_end - src_offset))
              (replicate (len - (src_end - src_offset)) 0) = Some d2) as [d2 H2].
    { eexists. apply write_range_Some. rewrite length_replicate. unfold src_end. lia. }
    rewrite H2. exists d2. pose proof (write_range_length _ _ _ _ H2) as Hl2.
    split_and!; [done|congruence|]. intros i. rewrite (write_range_lookup _ _ _ _ i H2), length_replicate.
    rewrite (write_range_lookup _ _ _ _ i H1), Hb.
    destruct (Nat.leb_spec (dst_offset + (src_end - src_offset)) i); cbn [andb].
    + destruct (Nat.leb_spec dst_offset i); [|lia]. cbn [andb].
      destruct (Nat.ltb_spec i (dst_offset + (src_end - src_offset) + (len - (src_end - src_offset))));
        destruct (Nat.ltb_spec i (dst_offset + len)); try (unfold src_end in *; lia).
      * rewrite lookup_replicate_2 by lia. unfold padded. rewrite lookup_ge_None_2; [done|].
        unfold src_end in *. lia.
      * destruct (Nat.ltb_spec i (dst_offset + (src_end - src_offset))); [lia|done].
    + destruct (Nat.leb_spec dst_offset i); cbn [andb]; [|done].
      destruct (Nat.ltb_spec i (dst_offset + (src_end - src_offset))); [|lia].
      destruct (Nat.ltb_spec i (dst_offset + len)); [|unfold src_end in *; lia].
      unfold bytes, padded. rewrite lookup_take_lt, lookup_drop by lia.
      destruct (lookup_lt_is_Some_2 src (src_offset + (i - dst_offset))) as [x Hx];
        [unfold src_end in *; lia|]. by rewrite Hx.
Qed.

(** Copying into memory with zero fill: [set_data] does not fault when the
    destination range is in bounds; inside the range byte [i] is that of the
    source at the shifted position, zero beyond the source's end; outside it
    memory is unchanged. *)
Theorem set_data_correct dst src dst_offset src_offset len :
  (dst_offset + len <= length dst)%nat ->
  exists dst', set_data dst src dst_offset src_offset len = Some dst' /\ length dst' = length dst /\
    forall i, dst' !! i =
      if (dst_offset <=? i)%nat && (i <? dst_offset + len)%nat
      then Some (padded src (src_offset + (i - dst_offset))) else dst !! i.
Proof. apply set_data_correct_aux. Qed.

Lemma set_data_correct_witness :
  exists dst', set_data [1; 2; 3; 4] [9; 8] 1 1 2 = Some dst' /\ length dst' = 4%nat /\
    forall i, dst' !! i =
      if (1 <=? i)%nat && (i <? 1 + 2)%nat then Some (padded [9; 8] (1 + (i - 1))) else [1; 2; 3; 4] !! i.
Proof. apply (set_data_correct [1; 2; 3; 4] [9; 8] 1 1 2). cbn. lia. Defined.

(** * Frames do not interfere *)

(** What one frame does to the shared buffer. *)
Inductive mem_op (self : SharedMemory) (buf : buffer) : buffer -> Prop :=
| mem_resize n : mem_op self buf (SharedMemory_resize n self buf)
| mem_set offset value buf' : SharedMemory_set offset value self buf = Some buf' -> mem_op self buf buf'
| mem_set_data mo d len bytes buf' :
    SharedMemory_set_data mo d len bytes self buf = Some buf' -> mem_op self buf buf'
| mem_set_global mo d len a b buf' :
    SharedMemory_global_to_local_set_data mo d len a b self buf = Some buf' -> mem_op self buf buf'
| mem_copy dst src len buf' : SharedMemory_copy dst src len self buf = Some buf' -> mem_op self buf buf'.

(** A frame's execution: its own operations and calls of child frames. *)
Inductive mem_exec : SharedMemory -> buffer -> SharedMemory -> buffer -> Prop :=
| mem_nil m buf : mem_exec m buf m buf
| mem_step m buf buf' : mem_op m buf buf' -> mem_exec m buf m buf'
| mem_seq m1 buf1 m2 buf2 m3 buf3 :
    mem_exec m1 buf1 m2 buf2 -> mem_exec m2 buf2 m3 buf3 -> mem_exec m1 buf1 m3 buf3
| mem_call m buf child m1 child' buf1 m2 buf2 :
    SharedMemory_new_child_context m buf = Some (child, m1) ->
    mem_exec child buf child' buf1 ->
    SharedMemory_free_child_context m1 buf1 = (m2, buf2) ->
    mem_exec m buf m2 buf2.

(** The frames below keep their memory, and the frame stays in the buffer. *)
Definition preserves (self : SharedMemory) (buf buf' : buffer) : Prop :=
  take (my_checkpoint self) buf' = take (my_checkpoint self) buf /\ (my_checkpoint self <= length buf')%nat.

Lemma with_context_checkpoint f self buf buf' :
  with_context f self buf = Some buf' -> preserves self buf buf'.
Proof.
  unfold with_context. destruct (Nat.leb_spec (my_checkpoint self) (length buf)); [|done].
  destruct (f _) as [d|]; [|done]. intros [= <-]. split.
  - rewrite take_app_le by (rewrite length_take; lia). rewrite take_take. f_equal. lia.
  - rewrite length_app, length_take. lia.
Qed.

Lemma mem_op_preserves self buf buf' :
  (my_checkpoint self <= length buf)%nat -> mem_op self buf buf' -> preserves self buf buf'.
Proof.
  intros Hc. destruct 1 as [n|offset value buf' Hop|mo d len bytes buf' Hop|mo d len a b buf' Hop|dst src len buf' Hop].
  - unfold SharedMemory_resize. split; [|rewrite length_resize; lia].
    destruct (decide (length buf <= my_checkpoint self + n)%nat).
    + rewrite resize_ge by lia. by rewrite take_app_le by lia.
    + rewrite resize_le, take_take by lia. f_equal. lia.
  - unfold SharedMemory_set in Hop. destruct (length value =? 0)%nat; [by simplify_eq|].
    pose proof (write_range_length _ _ _ _ Hop). split; [|lia].
    apply write_range_prefix in Hop. apply (f_equal (take (my_checkpoint self))) in Hop.
    rewrite !take_take, Nat.min_l in Hop by lia. done.
  - by eapply with_context_checkpoint.
  - unfold SharedMemory_global_to_local_set_data in Hop.
    destruct (if (b <=? a)%nat then _ else _) as [src|]; [|done]. by eapply with_context_checkpoint.
  - by eapply with_context_checkpoint.
Qed.

Lemma mem_exec_preserves m buf m' buf' :
  mem_exec m buf m' buf' -> (my_checkpoint m <= length buf)%nat -> child_checkpoint m = None ->
  m' = m /\ preserves m buf buf'.
Proof.
  induction 1 as [m buf|m buf buf' Hop|m1 buf1 m2 buf2 m3 buf3 _ IH1 _ IH2
    |m buf child m1 child' buf1 m2 buf2 Hnew _ IH Hfree]; intros Hc Hn.
  - by split.
  - split; [done|]. by eapply mem_op_preserves.
  - destruct IH1 as [-> [P1 C1]]; [done..|]. destruct IH2 as [-> [P2 C2]]; [done..|].
    split; [done|]. split; [congruence|done].
  - unfold SharedMemory_new_child_context in Hnew. rewrite Hn in Hnew. simplify_eq.
    cbn in Hfree. simplify_eq. destruct IH as [-> [P C]]; [cbn; unfold SharedMemory_full_len; lia|done|].
    cbn in P, C. unfold SharedMemory_full_len in *. rewrite (take_ge buf) in P by lia. split.
    + destruct m. cbn in *. by subst.
    + rewrite P. by split.
Qed.

(** C13: a call leaves its caller's memory alone: whatever the child frame and
    the frames it calls do to the shared buffer, after [free_child_context] the
    caller has back its own memory, byte for byte, and may call again. *)
Theorem child_context_restores m buf child m1 child' buf1 :
  child_checkpoint m = None ->
  SharedMemory_new_child_context m buf = Some (child, m1) ->
  mem_exec child buf child' buf1 ->
  SharedMemory_free_child_context m1 buf1 = (m, buf).
Proof.
  intros Hn Hnew He. unfold SharedMemory_new_child_context in Hnew. rewrite Hn in Hnew. simplify_eq.
  apply mem_exec_preserves in He as [-> [P _]]; [|cbn; unfold SharedMemory_full_len; lia|done].
  cbn in P |- *. unfold SharedMemory_full_len in *. rewrite P, take_ge by lia.
  destruct m. cbn in *. by subst.
Qed.

Lemma child_context_restores_witness :
  SharedMemory_free_child_context (mkSharedMemory 0 (Some 2%nat)) [1; 2; 0; 0; 7]
  = (SharedMemory_new, [1; 2]).
Proof.
  apply (child_context_restores SharedMemory_new [1; 2] (mkSharedMemory 2 None) _ (mkSharedMemory 2 None));
    [reflexivity|reflexivity|].
  eapply mem_seq; [apply mem_step, (mem_resize _ _ 3)|].
  apply mem_step. by eapply (mem_set _ _ 2 [7]).
Defined.

(** * Memory and gas agree *)

(** The active memory is the words paid for, and what was paid is part of the
    gas spent; the gas limit is below 2^55, where the quadratic cost is exact. *)
Record mem_inv (gas : Gas) (self : SharedMemory) (buf : buffer) : Prop := {
  inv_gas : gas_ok gas;
  inv_limit : gas_limit gas < 2 ^ 55;
  inv_memory : memory_gas_ok (gas_memory gas);
  inv_paid : expansion_cost (gas_memory gas) <= gas_limit gas - gas_remaining gas;
  inv_len : Z.of_nat (length buf) = Z.of_nat (my_checkpoint self) + 32 * words_num (gas_memory gas) }.

Lemma memory_gas_small n : 0 <= n -> memory_gas n < 2 ^ 55 -> n < 2 ^ 32.
Proof.
  intros Hn Hg. destruct (Z.lt_ge_cases n (2 ^ 32)) as [|Hge]; [done|]. exfalso.
  pose proof (memory_gas_mono (2 ^ 32) n ltac:(lia)). change (memory_gas (2 ^ 32)) with (36028809903865855) in *.
  lia.
Qed.

Lemma num_words_spec len : 0 <= len < 2 ^ 63 -> len <= 32 * num_words len < len + 32.
Proof.
  intros. rewrite num_words_small by done. pose proof (Z.div_mod (len + 31) 32 ltac:(lia)).
  pose proof (Z.mod_pos_bound (len + 31) 32 ltac:(lia)). lia.
Qed.

(** Up to 2^32 words, neither the end of the range nor its size in words
    saturates. *)
Lemma range_end_words offset len :
  0 <= offset -> 0 <= len ->
  let sum := saturating_add 64 offset len in
  0 <= num_words sum /\
  (num_words sum < 2 ^ 32 -> sum = offset + len /\ offset + len < 2 ^ 63).
Proof.
  intros Ho Hl sum. assert (0 <= sum) as Hs by (unfold sum, saturating_add, modulus; lia).
  split; [by apply num_words_nonneg|]. intros Hw. unfold num_words in Hw.
  pose proof (Z.div_mod (saturating_add 64 sum 31) 32 ltac:(lia)).
  pose proof (Z.mod_pos_bound (saturating_add 64 sum 31) 32 ltac:(lia)).
  unfold sum, saturating_add, modulus in *. lia.
Qed.

Lemma resize_memory_correct_aux offset len gas self buf :
  mem_inv gas self buf -> u64 offset -> u64 len ->
  exists ok gas' buf', resize_memory offset len gas self buf = Some (ok, gas', buf') /\
    gas_limit gas' = gas_limit gas /\
    if ok then
      mem_inv gas' self buf' /\ offset + len <= Z.of_nat (length buf') - Z.of_nat (my_checkpoint self) /\
      words_num (gas_memory gas') = Z.max (words_num (gas_memory gas)) (num_words (offset + len)) /\
      gas_remaining gas - gas_remaining gas'
        = memory_gas (words_num (gas_memory gas')) - memory_gas (words_num (gas_memory gas)) /\
      exists zeros, buf' = buf ++ replicate zeros 0
    else
      buf' = buf /\ gas_remaining gas' = gas_remaining gas /\
      gas_remaining gas < memory_gas (num_words (saturating_add 64 offset len))
                          - memory_gas (words_num (gas_memory gas)).
Proof.
  intros [Hg Hlim Hm Hp Hl] [Ho1 Ho2] [Hl1 Hl2]. unfold resize_memory.
  destruct (range_end_words offset len Ho1 Hl1) as [Hnw Hsum].
  set (sum := saturating_add 64 offset len) in *.
  clearbody sum.
  destruct (Z.ltb_spec (words_num (gas_memory gas)) (num_words sum)) as [Hlt|Hge].
  - unfold resize_memory_cold. pose proof (record_new_len_spec (gas_memory gas) (num_words sum) Hm) as Hr.
    unfold MemoryGas_record_new_len in *. destruct (Z.leb_spec (num_words sum) (words_num (gas_memory gas))); [lia|].
    cbn [default from_option id] in Hr. destruct Hr as (Hm' & Hw' & Hc & Hc0).
    set (cost := wrapping_sub _ _ _) in *. cbn [words_num] in Hw', Hc.
    set (g1 := set_gas_memory _ gas).
    assert (gas_ok g1) as Hg1 by exact Hg. unfold Gas_record_cost.
    destruct (checked_sub _ cost) as [r|] eqn:Ec.
    + apply checked_sub_spec in Ec as [-> Hle]. cbn [gas_remaining g1 set_gas_memory] in Hle.
      eexists _, _, _. split; [done|]. split; [done|]. cbn [gas_memory set_remaining g1 set_gas_memory words_num].
      destruct Hm as [Hm0 Hmc]. destruct Hg as [Hg0 Hg2].
      assert (memory_gas (num_words sum) < 2 ^ 55) as Hmg by lia.
      destruct (Hsum (memory_gas_small _ Hnw Hmg)) as [-> Hbig].
      pose proof (num_words_spec (offset + len) ltac:(lia)) as Hns.
      assert (length buf <= my_checkpoint self + Z.to_nat (num_words (offset + len) * 32))%nat as Hlen by lia.
      split_and!.
      * split; cbn [gas_ok gas_limit gas_remaining gas_memory set_remaining g1 set_gas_memory words_num expansion_cost];
          [unfold gas_ok; cbn; lia|done..|lia|unfold SharedMemory_resize; rewrite length_resize; lia].
      * unfold SharedMemory_resize. rewrite length_resize. lia.
      * lia.
      * unfold g1. cbn [gas_remaining set_remaining set_gas_memory]. lia.
      * unfold SharedMemory_resize. rewrite resize_ge by done. eauto.
    + eexists _, _, _. split; [done|]. split_and!; [done..|].
      unfold checked_sub in Ec. destruct (Z.leb_spec cost (gas_remaining g1)) as [|Hgt]; [done|].
      cbn [gas_remaining g1 set_gas_memory] in Hgt. lia.
  - eexists _, _, _. split; [done|]. split; [done|]. cbv iota. destruct Hg as [Hg0 Hg2]. destruct Hm as [Hm0 Hmc].
    assert (memory_gas (words_num (gas_memory gas)) < 2 ^ 55) as Hmg by lia.
    pose proof (memory_gas_small _ Hm0 Hmg) as Hsmall. destruct (Hsum ltac:(lia)) as [-> Hbig].
    pose proof (num_words_spec (offset + len) ltac:(lia)) as Hns.
    split_and!; [by split|lia..|]. exists 0%nat. by rewrite app_nil_r.
Qed.

(** A failed expansion has raised the counter of words and changed no other part
    of the gas. *)
Lemma resize_memory_failed offset len gas self buf gas' buf' :
  memory_gas_ok (gas_memory gas) -> resize_memory offset len gas self buf = Some (false, gas', buf') ->
  gas' = set_gas_memory (gas_memory gas') gas /\ memory_gas_ok (gas_memory gas') /\
  words_num (gas_memory gas') = num_words (saturating_add 64 offset len) /\
  words_num (gas_memory gas) < words_num (gas_memory gas').
Proof.
  intros Hm. unfold resize_memory. set (n := num_words _).
  destruct (Z.ltb_spec (words_num (gas_memory gas)) n) as [Hlt|]; [|done].
  unfold resize_memory_cold. pose proof (record_new_len_spec (gas_memory gas) n Hm) as Hr.
  destruct (MemoryGas_record_new_len (gas_memory gas) n) as [[cost|] m']; [|done]. destruct Hr as (Hm' & Hw' & _).
  unfold Gas_record_cost. destruct (checked_sub _ cost); [done|]. intros [= <- <-].
  split; [done|]. split; [exact Hm'|]. cbn [gas_memory set_gas_memory]. lia.
Qed.

(** C14: memory expansion is exact and safe, for a frame whose memory and gas are
    tied by [mem_inv], which bounds the gas limit by [2^55]: [resize_memory] never
    faults; when it succeeds the accessed range lies in the frame's memory, memory
    grew by whole words filled with zeros, exactly the difference of the expansion
    costs was charged, and [mem_inv] holds again; it fails exactly when that
    difference exceeds the remaining gas, and then the buffer and all of the gas but
    the memory counter are unchanged: the counter and its cost already stand at the
    words asked for, so [mem_inv] no longer holds, and the caller halts the frame. *)
Theorem resize_memory_correct offset len gas self buf :
  mem_inv gas self buf -> u64 offset -> u64 len ->
  exists ok gas' buf', resize_memory offset len gas self buf = Some (ok, gas', buf') /\
    gas_limit gas' = gas_limit gas /\
    if ok then
      mem_inv gas' self buf' /\ offset + len <= Z.of_nat (length buf') - Z.of_nat (my_checkpoint self) /\
      words_num (gas_memory gas') = Z.max (words_num (gas_memory gas)) (num_words (offset + len)) /\
      gas_remaining gas - gas_remaining gas'
        = memory_gas (words_num (gas_memory gas')) - memory_gas (words_num (gas_memory gas)) /\
      exists zeros, buf' = buf ++ replicate zeros 0
    else
      buf' = buf /\ gas' = set_gas_memory (gas_memory gas') gas /\ memory_gas_ok (gas_memory gas') /\
      words_num (gas_memory gas') = num_words (saturating_add 64 offset len) /\ ~ mem_inv gas' self buf' /\
      gas_remaining gas < memory_gas (num_words (saturating_add 64 offset len))
                          - memory_gas (words_num (gas_memory gas)).
Proof.
  intros Hi Ho Hl. destruct (resize_memory_correct_aux offset len gas self buf Hi Ho Hl) as (ok & gas' & buf' & He & Hlim & H).
  exists ok, gas', buf'. split; [done|]. split; [done|]. destruct ok; [exact H|]. destruct H as (Hb & _ & Hlt).
  destruct (resize_memory_failed _ _ _ _ _ _ _ (inv_memory _ _ _ Hi) He) as (? & ? & ? & Hw). subst buf'.
  split_and!; try done. intros Hi'. pose proof (inv_len _ _ _ Hi). pose proof (inv_len _ _ _ Hi'). lia.
Qed.

Lemma resize_memory_correct_witness :
  let gas := Gas_new 1000 in
  mem_inv gas SharedMemory_new [] /\
  exists ok gas' buf', resize_memory 40 8 gas SharedMemory_new [] = Some (ok, gas', buf').
Proof.
  assert (mem_inv (Gas_new 1000) SharedMemory_new []) as Hi.
  { split; try done; try (unfold gas_ok, modulus; cbn; lia). }
  split; [done|].
  destruct (resize_memory_correct 40 8 (Gas_new 1000) SharedMemory_new [] Hi) as (ok & g' & b' & He & _);
    [unfold in_range, modulus; lia..|]. eauto.
Defined.
