(* ===== verification/FrameStack.v ===== *)
(** The pool of call frames, [FrameStack] of
    [crates/context/interface/src/local.rs].

    Frames below the length of the vector are initialised and kept for reuse
    when the stack shrinks; a new frame is first written through an [OutFrame],
    a raw pointer to a slot that may lie past the length, and only then counted
    in.  The model keeps the allocated memory: a slot is [None] while it is
    uninitialised, and an access that Rust does not define (outside the
    allocation, or a read of an uninitialised slot) is [None], like a panic.
    How far [Vec::reserve] grows is a parameter, [grow], which is only known to
    give at least what was asked for. *)
From S2P Require Import Prelude.
From stdpp Require Import base numbers list option tactics.
From Stdlib Require Import Lia.

Class VecGrow := grow : nat -> nat.
Class VecGrowLaws `{VecGrow} : Prop := grow_enough n : n <= grow n.

Record FrameStack (T : Type) := mkFrameStack {
  fs_slots : list (option T); fs_len : nat; fs_index : option nat }.
Arguments mkFrameStack {T}.
Arguments fs_slots {T}.
Arguments fs_len {T}.
Arguments fs_index {T}.

(** The slot an [OutFrame] points to, and whether it is initialised. *)
Record OutFrame := mkOutFrame { of_slot : nat; of_init : bool }.
Definition FrameToken : Type := bool.

Section FrameStack.
Context `{VecGrow} {T : Type}.
Implicit Types self : FrameStack T.

Definition capacity self : nat := length (fs_slots self).

(** [Vec::with_capacity] and [Vec::reserve]: a reallocation moves the elements
    up to the length. *)
Definition with_capacity (n : nat) : list (option T) := replicate (grow n) None.
Definition reserve (additional : nat) self : FrameStack T :=
  if fs_len self + additional <=? capacity self then self
  else
    let slots := take (fs_len self) (fs_slots self) in
    mkFrameStack (slots ++ replicate (grow (fs_len self + additional) - length slots) None)
      (fs_len self) (fs_index self).

Definition FrameStack_new : FrameStack T := mkFrameStack (with_capacity 8) 0 None.
Definition FrameStack_new_prealloc (default : T) (len : nat) : FrameStack T :=
  mkFrameStack (replicate len (Some default) ++ replicate (grow len - len) None) len None.

Definition out_frame_at (idx : nat) self : OutFrame := mkOutFrame idx (idx <? fs_len self).

Definition FrameStack_start_init self : OutFrame * FrameStack T :=
  let self := mkFrameStack (fs_slots self) (fs_len self) None in
  let self := if fs_len self =? 0 then reserve 8 self else self in
  (out_frame_at 0 self, self).

Definition FrameStack_get_next self : option (OutFrame * FrameStack T) :=
  let? index := fs_index self in
  let self := if index + 1 =? capacity self then reserve 8 self else self in
  Some (out_frame_at (index + 1) self, self).

(** [OutFrame::get]: initialises the slot if needed and gives what it holds. *)
Definition OutFrame_get (f : T) (o : OutFrame) self : option (T * OutFrame * FrameStack T) :=
  if negb (of_slot o <? capacity self) then None
  else
    let self := if of_init o then self
                else mkFrameStack (<[of_slot o := Some f]> (fs_slots self)) (fs_len self) (fs_index self) in
    let? slot := fs_slots self !! of_slot o in
    let? x := slot in
    Some (x, mkOutFrame (of_slot o) true, self).
(** A write through the reference that [OutFrame::get] returned. *)
Definition OutFrame_write (x : T) (o : OutFrame) self : FrameStack T :=
  mkFrameStack (<[of_slot o := Some x]> (fs_slots self)) (fs_len self) (fs_index self).
Definition OutFrame_consume (o : OutFrame) : FrameToken := of_init o.

Definition FrameStack_end_init (token : FrameToken) self : option (FrameStack T) :=
  if negb token then None
  else Some (mkFrameStack (fs_slots self) (if fs_len self =? 0 then 1 else fs_len self) (Some 0)).

Definition FrameStack_push (token : FrameToken) self : option (FrameStack T) :=
  if negb token then None
  else
    let? index := fs_index self in
    let index := index + 1 in
    Some (mkFrameStack (fs_slots self) (if index =? fs_len self then fs_len self + 1 else fs_len self)
            (Some index)).

Definition FrameStack_clear self : FrameStack T := mkFrameStack (fs_slots self) (fs_len self) None.

(** [self.index.unwrap_or(0).checked_sub(1)]. *)
Definition FrameStack_pop self : FrameStack T :=
  mkFrameStack (fs_slots self) (fs_len self)
    (match fs_index self with Some (S i) => Some i | _ => None end).

Definition FrameStack_get self : option T :=
  let? index := fs_index self in
  let? slot := fs_slots self !! index in
  slot.
(** A write through the reference that [get] returned. *)
Definition FrameStack_set (x : T) self : option (FrameStack T) :=
  let? index := fs_index self in
  Some (mkFrameStack (<[index := Some x]> (fs_slots self)) (fs_len self) (fs_index self)).

(** [this.get(default).clear(..)] and [this.consume()]: the slot is written
    through [this], with what [update] makes of what it held. *)
Definition init_slot (default : T) (update : T -> T) (this : OutFrame) self
    : option (FrameToken * FrameStack T) :=
  let? (x, this, self) := OutFrame_get default this self in
  Some (OutFrame_consume this, OutFrame_write (update x) this self).

(** * What the pool means *)

(** The frames in use, the innermost one last. *)
Definition frames self : list T :=
  match fs_index self with Some i => omap id (take (S i) (fs_slots self)) | None => [] end.

Record frame_stack_ok self : Prop := {
  fok_len : fs_len self <= capacity self;
  fok_init i : i < fs_len self -> exists x, fs_slots self !! i = Some (Some x);
  fok_index i : fs_index self = Some i -> i < fs_len self }.
End FrameStack.

Section FrameStackLaws.
Context `{VecGrow, !VecGrowLaws} {T : Type}.
Implicit Types self : FrameStack T.

Lemma frame_stack_ok_new : frame_stack_ok (FrameStack_new (T := T)).
Proof. split; cbn; [lia|lia|done]. Qed.

Lemma frame_stack_ok_prealloc (d : T) len : frame_stack_ok (FrameStack_new_prealloc d len).
Proof.
  split; cbn; [unfold capacity; cbn; rewrite length_app, length_replicate; lia| |done].
  intros i Hi. exists d. rewrite lookup_app_l by (by rewrite length_replicate). by apply lookup_replicate_2.
Qed.

(** Reserving keeps the initialised slots and makes room for eight more. *)
Lemma reserve_spec self :
  frame_stack_ok self ->
  fs_len (reserve 8 self) = fs_len self /\ fs_index (reserve 8 self) = fs_index self /\
  fs_len self + 8 <= capacity (reserve 8 self) /\
  (forall i, i < fs_len self -> fs_slots (reserve 8 self) !! i = fs_slots self !! i).
Proof.
  intros [Hl Hi _]. unfold reserve. destruct (Nat.leb_spec (fs_len self + 8) (capacity self)); [by split_and!|].
  split_and!; try done; unfold capacity in *; cbn.
  - rewrite length_app, length_replicate, length_take. pose proof (grow_enough (fs_len self + 8)). lia.
  - intros i Hlt. rewrite lookup_app_l by (rewrite length_take; lia). by rewrite lookup_take_lt.
Qed.

Lemma reserve_ok self : frame_stack_ok self -> frame_stack_ok (reserve 8 self).
Proof.
  intros Hok. destruct (reserve_spec self Hok) as (Hl & Hx & Hc & Hs). destruct Hok as [_ Hi Hk].
  split; [lia| |].
  - intros i Hlt. rewrite Hl in Hlt. rewrite Hs by done. by apply Hi.
  - intros i Hd. rewrite Hl. apply Hk. congruence.
Qed.

Lemma frames_take self i :
  frame_stack_ok self -> fs_index self = Some i ->
  exists xs x, frames self = xs ++ [x] /\ fs_slots self !! i = Some (Some x) /\
    omap id (take i (fs_slots self)) = xs.
Proof.
  intros [Hl Hi Hk] Hx. destruct (Hi i) as [x Hs]; [by apply Hk|].
  exists (omap id (take i (fs_slots self))), x. unfold frames. rewrite Hx.
  rewrite (take_S_r _ _ _ Hs), omap_app. done.
Qed.

Lemma frames_take_eq (s1 s2 : FrameStack T) n :
  (forall i, i < n -> fs_slots s1 !! i = fs_slots s2 !! i) -> take n (fs_slots s1) = take n (fs_slots s2).
Proof.
  intros He. apply list_eq. intros i. destruct (Nat.ltb_spec i n).
  - rewrite !lookup_take_lt by done. auto.
  - by rewrite !lookup_take_ge.
Qed.

(** Writing a slot that is initialised, or the first one past the length. *)
Lemma init_slot_spec default update n self :
  frame_stack_ok self -> n <= fs_len self -> n < capacity self ->
  exists x s, init_slot default update (out_frame_at n self) self = Some (true, s) /\
    fs_len s = fs_len self /\ fs_index s = fs_index self /\ capacity s = capacity self /\
    fs_slots s !! n = Some (Some (update x)) /\ (forall i, i <> n -> fs_slots s !! i = fs_slots self !! i).
Proof.
  intros [Hl Hi _] Hn Hc. unfold init_slot, OutFrame_get, out_frame_at. cbn [of_slot of_init].
  destruct (Nat.ltb_spec n (capacity self)); [|lia]. cbn [negb].
  assert (forall s x, fs_slots s !! n = Some (Some x) -> fs_len s = fs_len self -> fs_index s = fs_index self ->
    capacity s = capacity self -> (forall i, i <> n -> fs_slots s !! i = fs_slots self !! i) ->
    let s' := OutFrame_write (update x) (mkOutFrame n true) s in
    fs_len s' = fs_len self /\ fs_index s' = fs_index self /\ capacity s' = capacity self /\
    fs_slots s' !! n = Some (Some (update x)) /\ (forall i, i <> n -> fs_slots s' !! i = fs_slots self !! i)) as Hw.
  { intros s x Hs Hls Hxs Hcs Ho s'. unfold s', OutFrame_write, capacity in *. cbn. rewrite length_insert.
    split_and!; try done; [rewrite list_lookup_insert_eq by lia; done|].
    intros i Hni. rewrite list_lookup_insert_ne by done. auto. }
  destruct (Nat.ltb_spec n (fs_len self)) as [Hlt|Hge].
  - destruct (Hi n Hlt) as [x Hx]. rewrite Hx. exists x. eexists. split; [done|]. by apply Hw.
  - cbn [fs_slots]. rewrite list_lookup_insert_eq by done. exists default. eexists. split; [done|].
    apply Hw; try done; cbn; [by rewrite list_lookup_insert_eq|unfold capacity; cbn; by rewrite length_insert|].
    intros i Hni. by rewrite list_lookup_insert_ne.
Qed.

(** Counting the written slot in. *)
Lemma count_in (s self : FrameStack T) n y :
  frame_stack_ok self -> n <= fs_len self -> n < capacity self ->
  fs_len s = (if n =? fs_len self then fs_len self + 1 else fs_len self) -> fs_index s = Some n ->
  capacity s = capacity self -> fs_slots s !! n = Some (Some y) ->
  (forall i, i <> n -> fs_slots s !! i = fs_slots self !! i) ->
  frame_stack_ok s /\ frames s = omap id (take n (fs_slots self)) ++ [y].
Proof.
  intros [Hl Hi Hk] Hn Hc Hls Hx Hcs Hy Ho.
  assert (frame_stack_ok s) as Hok.
  { split; rewrite Hls; destruct (Nat.eqb_spec n (fs_len self)) as [He|Hne];
      try (intros i Hd; rewrite Hx in Hd; simplify_eq); try lia;
      try (intros i Hlt; destruct (decide (i = n)) as [->|]; [by eexists|rewrite Ho by done; apply Hi; lia]). }
  split; [done|]. destruct (frames_take s n Hok Hx) as (xs & x & -> & Hxy & <-). simplify_eq. f_equal.
  f_equal. apply frames_take_eq. intros i Hlt. apply Ho. lia.
Qed.

Lemma FrameStack_start default update self :
  frame_stack_ok self ->
  let '(o, s1) := FrameStack_start_init self in
  exists x s2 s3, init_slot default update o s1 = Some (true, s2) /\ FrameStack_end_init true s2 = Some s3 /\
    frame_stack_ok s3 /\ frames s3 = [update x].
Proof.
  intros Hok. unfold FrameStack_start_init. set (s1 := if fs_len _ =? 0 then _ else _).
  assert (frame_stack_ok s1 /\ 0 < capacity s1 /\ fs_len s1 = fs_len self) as (Hok1 & Hc & Hl).
  { assert (frame_stack_ok (mkFrameStack (fs_slots self) (fs_len self) None)) as Ho by (destruct Hok; by split).
    unfold s1. cbn [fs_len]. destruct (Nat.eqb_spec (fs_len self) 0) as [He|Hne].
    - destruct (reserve_spec _ Ho) as (? & _ & ? & _). split_and!; [by apply reserve_ok|lia|done].
    - split_and!; [done| |done]. destruct Hok as [Hlc _ _]. unfold capacity in *. cbn. lia. }
  clearbody s1. destruct (init_slot_spec default update 0 s1 Hok1 ltac:(lia) Hc)
    as (x & s2 & Hs2 & Hl2 & Hx2 & Hc2 & Hy & Ho2).
  exists x, s2. eexists. split; [done|]. split; [done|].
  apply (count_in _ s1 0); cbn; try done; try lia.
  rewrite Hl2. destruct (fs_len s1); cbn; done || lia.
Qed.

Lemma FrameStack_nested default update self i :
  frame_stack_ok self -> fs_index self = Some i ->
  exists o s1 x s2 s3, FrameStack_get_next self = Some (o, s1) /\
    init_slot default update o s1 = Some (true, s2) /\ FrameStack_push true s2 = Some s3 /\
    frame_stack_ok s3 /\ frames s3 = frames self ++ [update x].
Proof.
  intros Hok Hx. unfold FrameStack_get_next. rewrite Hx. set (s1 := if i + 1 =? _ then _ else _).
  pose proof (fok_index _ Hok i Hx) as Hi.
  assert (frame_stack_ok s1 /\ i + 1 < capacity s1 /\ fs_len s1 = fs_len self /\ fs_index s1 = Some i /\
    forall j, j < fs_len self -> fs_slots s1 !! j = fs_slots self !! j) as (Hok1 & Hc & Hl & Hx1 & Hs).
  { unfold s1. destruct (Nat.eqb_spec (i + 1) (capacity self)) as [He|Hne].
    - destruct (reserve_spec _ Hok) as (? & ? & ? & ?). split_and!; [by apply reserve_ok|lia|done|congruence|done].
    - split_and!; try done. destruct Hok as [Hlc _ _]. lia. }
  clearbody s1. destruct (init_slot_spec default update (i + 1) s1 Hok1 ltac:(lia) Hc)
    as (x & s2 & Hs2 & Hl2 & Hx2 & Hc2 & Hy & Ho2).
  set (s3 := mkFrameStack (fs_slots s2) (if i + 1 =? fs_len s2 then fs_len s2 + 1 else fs_len s2) (Some (i + 1))).
  eexists _, s1, x, s2, s3. split; [done|]. split; [done|].
  split; [unfold FrameStack_push; cbn [negb]; rewrite Hx2, Hx1; done|].
  destruct (count_in s3 s1 (i + 1) (update x)) as [Hok3 Hf]; cbn; try done; try lia; [by rewrite Hl2|].
  split; [done|]. etrans; [exact Hf|]. f_equal. unfold frames. rewrite Hx. f_equal.
  rewrite Nat.add_1_r. apply frames_take_eq. intros j Hj. apply Hs. lia.
Qed.

Lemma FrameStack_pop_frames self xs x :
  frame_stack_ok self -> frames self = xs ++ [x] ->
  frame_stack_ok (FrameStack_pop self) /\ frames (FrameStack_pop self) = xs.
Proof.
  intros Hok Hf. destruct (fs_index self) as [i|] eqn:Hx; [|unfold frames in Hf; rewrite Hx in Hf; by destruct xs].
  destruct (frames_take self i Hok Hx) as (ys & y & Hf' & _ & Hys). rewrite Hf in Hf'. apply app_inj_tail in Hf' as [-> ->].
  destruct Hok as [Hl Hi Hk]. unfold FrameStack_pop. rewrite Hx. split.
  - split; [done|done|]. cbn. intros j Hj. specialize (Hk i Hx). destruct i; simplify_eq. lia.
  - unfold frames. cbn. destruct i; [|done]. by rewrite <- Hys.
Qed.

Lemma FrameStack_top self xs x :
  frame_stack_ok self -> frames self = xs ++ [x] ->
  FrameStack_get self = Some x /\
  forall y, exists s, FrameStack_set y self = Some s /\ frame_stack_ok s /\ frames s = xs ++ [y].
Proof.
  intros Hok Hf. destruct (fs_index self) as [i|] eqn:Hx; [|unfold frames in Hf; rewrite Hx in Hf; by destruct xs].
  destruct (frames_take self i Hok Hx) as (ys & z & Hf' & Hz & Hys). rewrite Hf in Hf'. apply app_inj_tail in Hf' as [-> ->].
  unfold FrameStack_get, FrameStack_set. rewrite Hx, Hz. split; [done|]. intros y. eexists. split; [done|].
  pose proof (fok_index _ Hok i Hx) as Hlt. pose proof (fok_len _ Hok) as Hc.
  destruct (count_in (mkFrameStack (<[i := Some y]> (fs_slots self)) (fs_len self) (Some i)) self i y) as [Hok' Hf'];
    cbn; try done; try lia.
  - destruct (Nat.eqb_spec i (fs_len self)); [lia|done].
  - unfold capacity. cbn. by rewrite length_insert.
  - by rewrite list_lookup_insert_eq by (unfold capacity in *; lia).
  - intros j Hj. by rewrite list_lookup_insert_ne.
  - split; [done|]. etrans; [exact Hf'|]. by rewrite Hys.
Qed.

Lemma frames_nil self : frame_stack_ok self -> fs_index self = None <-> frames self = [].
Proof.
  intros Hok. split; [unfold frames; by intros ->|]. intros Hf. destruct (fs_index self) as [i|] eqn:Hx; [|done].
  destruct (frames_take self i Hok Hx) as (ys & z & Hf' & _). rewrite Hf in Hf'. by destruct ys.
Qed.

(** C32: the pool is a stack: on a well-formed pool every operation is defined
    (no access outside the allocation or to an uninitialised slot, no failed
    assertion), [start_init] with [end_init] gives a stack of one frame,
    [get_next] with [push] adds a frame on top without touching those below,
    [get] reaches the top one and [pop] removes it, whatever is left in the
    slots of earlier frames. *)
Theorem FrameStack_refines_stack default new self :
  frame_stack_ok self ->
  (let '(o, s1) := FrameStack_start_init self in
   exists s2 s3, init_slot default (fun _ => new) o s1 = Some (true, s2) /\
     FrameStack_end_init true s2 = Some s3 /\ frame_stack_ok s3 /\ frames s3 = [new]) /\
  (frames self <> [] -> exists o s1 s2 s3, FrameStack_get_next self = Some (o, s1) /\
     init_slot default (fun _ => new) o s1 = Some (true, s2) /\ FrameStack_push true s2 = Some s3 /\
     frame_stack_ok s3 /\ frames s3 = frames self ++ [new]) /\
  (forall xs x, frames self = xs ++ [x] ->
     FrameStack_get self = Some x /\
     (exists s, FrameStack_set new self = Some s /\ frame_stack_ok s /\ frames s = xs ++ [new]) /\
     frame_stack_ok (FrameStack_pop self) /\ frames (FrameStack_pop self) = xs).
Proof.
  intros Hok. split_and!.
  - pose proof (FrameStack_start default (fun _ => new) self Hok) as Hs.
    destruct (FrameStack_start_init self) as [o s1]. destruct Hs as (_ & s2 & s3 & ? & ? & ? & ?).
    by exists s2, s3.
  - intros Hne. destruct (fs_index self) as [i|] eqn:Hx; [|exfalso; by apply Hne, frames_nil].
    destruct (FrameStack_nested default (fun _ => new) self i Hok Hx) as (o & s1 & _ & s2 & s3 & ? & ? & ? & ? & ?).
    by exists o, s1, s2, s3.
  - intros xs x Hf. destruct (FrameStack_top self xs x Hok Hf) as [? ?].
    destruct (FrameStack_pop_frames self xs x Hok Hf). auto.
Qed.
End FrameStackLaws.

Module Pool.
#[local] Instance exact_grow : VecGrow := fun n => n.
#[local] Instance exact_grow_laws : VecGrowLaws.
Proof. intros n. unfold grow, exact_grow. lia. Qed.

(** A pool of one preallocated frame in use, as in the unit test
    [frame_stack]. *)
Definition pool : FrameStack nat := mkFrameStack [Some 1] 1 (Some 0).
Lemma pool_ok : frame_stack_ok pool.
Proof.
  split; cbn; [unfold capacity; cbn; lia| |intros i [= <-]; lia].
  intros i Hi. destruct i; [|lia]. by exists 1.
Qed.

Lemma FrameStack_refines_stack_witness :
  exists o s1 s2 s3, FrameStack_get_next pool = Some (o, s1) /\
    init_slot 0 (fun _ => 2) o s1 = Some (true, s2) /\ FrameStack_push true s2 = Some s3 /\
    frame_stack_ok s3 /\ frames s3 = [1; 2].
Proof.
  apply (FrameStack_refines_stack 0 2 pool); [exact pool_ok|discriminate].
Defined.
End Pool.
