(* ===== verification/Interpreter.v ===== *)
(** The state of one call frame: [crates/interpreter/src/interpreter.rs],
    [interpreter/ext_bytecode.rs], [interpreter/input.rs],
    [interpreter/runtime_flags.rs] and [interpreter_action.rs] with its call
    and create inputs.

    The instruction pointer, a raw pointer into the padded code, is its offset
    from the start of the code; moving it outside the code's allocation or
    reading outside it is undefined behaviour in Rust and [None] here.  The
    interpreter's memory is an [Rc] to the buffer shared by all frames, so the
    buffer is a field of its own next to the frame's view of it.  The [extend]
    field is the unit type of [EthInterpreter] and is left out. *)
From S2P Require Import Prelude Hardfork Bytecode Gas InstructionResult Stack SharedMemory.
From stdpp Require Import base numbers list option tactics.
From Stdlib Require Import ZArith Lia.

Local Open Scope Z_scope.

(** * Actions ([interpreter_action.rs]) *)

(** A [Range<usize>] is the pair of its bounds. *)
Definition range_len (r : Z * Z) : Z := saturating_sub r.2 r.1.
Definition range_is_empty (r : Z * Z) : bool := r.2 <=? r.1.

Inductive CallInput :=
| SharedBuffer (range : Z * Z)
| CallInput_Bytes (bytes : list Z).

Definition CallInput_len (self : CallInput) : Z :=
  match self with
  | CallInput_Bytes bytes => Z.of_nat (length bytes)
  | SharedBuffer range => range_len range
  end.
Definition CallInput_default : CallInput := SharedBuffer (0, 0).

Inductive CallScheme := Scheme_Call | Scheme_CallCode | Scheme_DelegateCall | Scheme_StaticCall.

Inductive CallValue := Transfer (value : Z) | Apparent (value : Z).

Definition CallValue_get (self : CallValue) : Z :=
  match self with Transfer value | Apparent value => value end.
Definition CallValue_transfer (self : CallValue) : option Z :=
  match self with Transfer transfer => Some transfer | Apparent _ => None end.

Record CallInputs := mkCallInputs {
  ci_input : CallInput;
  ci_return_memory_offset : Z * Z;
  ci_gas_limit : Z;
  ci_bytecode_address : Z;
  ci_known_bytecode : option (Z * Bytecode);
  ci_target_address : Z;
  ci_caller : Z;
  ci_value : CallValue;
  ci_scheme : CallScheme;
  ci_is_static : bool }.

Definition CallInputs_transfers_value (self : CallInputs) : bool :=
  match CallValue_transfer (ci_value self) with Some x => 0 <? x | None => false end.

Inductive CreateScheme := Create | Create2 (salt : Z) | CreateCustom (address : Z).

Record CreateInputs := mkCreateInputs {
  cr_caller : Z; cr_scheme : CreateScheme; cr_value : Z; cr_init_code : list Z; cr_gas_limit : Z }.

Inductive FrameInput :=
| FI_Empty
| FI_Call (inputs : CallInputs)
| FI_Create (inputs : CreateInputs).

Record InterpreterResult := mkInterpreterResult {
  ir_result : InstructionResult; ir_output : list Z; ir_gas : Gas }.

Inductive InterpreterAction :=
| NewFrame (frame_input : FrameInput)
| Return (result : InterpreterResult).

Definition InterpreterAction_new_halt (result : InstructionResult) (gas : Gas) : InterpreterAction :=
  Return (mkInterpreterResult result [] gas).
Definition InterpreterAction_new_return (result : InstructionResult) (output : list Z) (gas : Gas)
    : InterpreterAction := Return (mkInterpreterResult result output gas).

(** * Inputs and flags *)

Record InputsImpl := mkInputsImpl {
  in_target_address : Z;
  in_bytecode_address : option Z;
  in_caller_address : Z;
  in_input : CallInput;
  in_call_value : Z }.

Record RuntimeFlags := mkRuntimeFlags { rf_is_static : bool; rf_spec_id : SpecId }.

(** * Bytecode with an instruction pointer ([ext_bytecode.rs]) *)

Record ExtBytecode := mkExtBytecode {
  eb_instruction_pointer : nat;
  eb_continue_execution : bool;
  eb_bytecode_hash : option Z;
  eb_action : option InterpreterAction;
  eb_base : Bytecode }.

Definition ExtBytecode_new_with_optional_hash (base : Bytecode) (hash : option Z) : ExtBytecode :=
  mkExtBytecode 0 true hash None base.
Definition ExtBytecode_new (base : Bytecode) : ExtBytecode :=
  ExtBytecode_new_with_optional_hash base None.
Definition ExtBytecode_new_with_hash (base : Bytecode) (hash : Z) : ExtBytecode :=
  ExtBytecode_new_with_optional_hash base (Some hash).

Definition ExtBytecode_get_or_calculate_hash `{Keccak} (self : ExtBytecode) : Z * ExtBytecode :=
  match eb_bytecode_hash self with
  | Some hash => (hash, self)
  | None =>
      let hash := Bytecode_hash_slow (eb_base self) in
      (hash, mkExtBytecode (eb_instruction_pointer self) (eb_continue_execution self) (Some hash)
               (eb_action self) (eb_base self))
  end.

Definition ExtBytecode_is_not_end (self : ExtBytecode) : bool := eb_continue_execution self.

Definition ExtBytecode_reset_action (self : ExtBytecode) : ExtBytecode :=
  mkExtBytecode (eb_instruction_pointer self) true (eb_bytecode_hash self) (eb_action self) (eb_base self).

(** The debug assertion that no action is pending is part of the model. *)
Definition ExtBytecode_set_action (action : InterpreterAction) (self : ExtBytecode) : option ExtBytecode :=
  if eb_continue_execution self then
    Some (mkExtBytecode (eb_instruction_pointer self) false (eb_bytecode_hash self) (Some action)
            (eb_base self))
  else None.

(** The bytes the instruction pointer ranges over. *)
Definition eb_bytes (self : ExtBytecode) : list Z := Bytecode_bytecode (eb_base self).

(** A pointer may be one past the end of the bytes, not further. *)
Definition set_instruction_pointer (pointer : Z) (self : ExtBytecode) : option ExtBytecode :=
  if (0 <=? pointer) && (pointer <=? Z.of_nat (length (eb_bytes self))) then
    Some (mkExtBytecode (Z.to_nat pointer) (eb_continue_execution self) (eb_bytecode_hash self)
            (eb_action self) (eb_base self))
  else None.
Definition ExtBytecode_relative_jump (offset : Z) (self : ExtBytecode) : option ExtBytecode :=
  set_instruction_pointer (Z.of_nat (eb_instruction_pointer self) + offset) self.
Definition ExtBytecode_absolute_jump (offset : Z) (self : ExtBytecode) : option ExtBytecode :=
  set_instruction_pointer offset self.
Definition ExtBytecode_is_valid_legacy_jump (offset : Z) (self : ExtBytecode) : option bool :=
  let? jump_table := Bytecode_legacy_jump_table (eb_base self) in
  Some (JumpTable_is_valid jump_table (Z.to_nat offset)).
Definition ExtBytecode_opcode (self : ExtBytecode) : option Z :=
  eb_bytes self !! eb_instruction_pointer self.
Definition ExtBytecode_pc (self : ExtBytecode) : Z := Z.of_nat (eb_instruction_pointer self).
Definition ExtBytecode_read_slice (len : nat) (self : ExtBytecode) : option (list Z) :=
  get_range (eb_bytes self) (eb_instruction_pointer self) (eb_instruction_pointer self + len).
Definition ExtBytecode_bytecode_len (self : ExtBytecode) : Z := Z.of_nat (Bytecode_len (eb_base self)).
Definition ExtBytecode_bytecode_slice (self : ExtBytecode) : list Z := Bytecode_original_bytes (eb_base self).

(** * The interpreter *)

Record Interpreter := mkInterpreter {
  i_bytecode : ExtBytecode;
  i_gas : Gas;
  i_stack : Stack;
  i_return_data : list Z;
  i_memory : SharedMemory;
  i_buffer : list Z;
  i_input : InputsImpl;
  i_runtime_flag : RuntimeFlags }.

Definition with_bytecode (b : ExtBytecode) (i : Interpreter) : Interpreter :=
  mkInterpreter b (i_gas i) (i_stack i) (i_return_data i) (i_memory i) (i_buffer i) (i_input i)
    (i_runtime_flag i).
Definition with_gas (g : Gas) (i : Interpreter) : Interpreter :=
  mkInterpreter (i_bytecode i) g (i_stack i) (i_return_data i) (i_memory i) (i_buffer i) (i_input i)
    (i_runtime_flag i).
Definition with_stack (s : Stack) (i : Interpreter) : Interpreter :=
  mkInterpreter (i_bytecode i) (i_gas i) s (i_return_data i) (i_memory i) (i_buffer i) (i_input i)
    (i_runtime_flag i).
Definition with_buffer (b : list Z) (i : Interpreter) : Interpreter :=
  mkInterpreter (i_bytecode i) (i_gas i) (i_stack i) (i_return_data i) (i_memory i) b (i_input i)
    (i_runtime_flag i).

Definition Interpreter_new (memory : SharedMemory) (buffer : list Z) (bytecode : ExtBytecode)
    (input : InputsImpl) (is_static : bool) (spec_id : SpecId) (gas_limit : Z) : Interpreter :=
  mkInterpreter bytecode (Gas_new gas_limit) Stack_new [] memory buffer input
    (mkRuntimeFlags is_static spec_id).

(** [clear] reinitialises a frame taken from the pool. *)
Definition Interpreter_clear (memory : SharedMemory) (buffer : list Z) (bytecode : ExtBytecode)
    (input : InputsImpl) (is_static : bool) (spec_id : SpecId) (gas_limit : Z) (self : Interpreter)
    : Interpreter :=
  mkInterpreter bytecode (Gas_new gas_limit) (Stack_clear (i_stack self)) [] memory buffer input
    (mkRuntimeFlags is_static spec_id).

(** [None] when no action was set. *)
Definition Interpreter_take_next_action (i : Interpreter) : option (InterpreterAction * Interpreter) :=
  let b := ExtBytecode_reset_action (i_bytecode i) in
  let? action := eb_action b in
  Some (action, with_bytecode (mkExtBytecode (eb_instruction_pointer b) (eb_continue_execution b)
    (eb_bytecode_hash b) None (eb_base b)) i).

Definition Interpreter_set_action (action : InterpreterAction) (i : Interpreter) : option Interpreter :=
  let? b := ExtBytecode_set_action action (i_bytecode i) in Some (with_bytecode b i).

Definition Interpreter_halt (result : InstructionResult) (i : Interpreter) : option Interpreter :=
  Interpreter_set_action (InterpreterAction_new_halt result (i_gas i)) i.
Definition Interpreter_halt_fatal (i : Interpreter) : option Interpreter :=
  Interpreter_set_action (InterpreterAction_new_halt IR_FatalExternalError (i_gas i)) i.
Definition Interpreter_halt_oog (i : Interpreter) : option Interpreter :=
  Interpreter_halt IR_OutOfGas (with_gas (Gas_spend_all (i_gas i)) i).
Definition Interpreter_halt_memory_oog : Interpreter -> option Interpreter := Interpreter_halt IR_MemoryOOG.
Definition Interpreter_halt_overflow : Interpreter -> option Interpreter :=
  Interpreter_halt IR_StackOverflow.
Definition Interpreter_halt_underflow : Interpreter -> option Interpreter :=
  Interpreter_halt IR_StackUnderflow.
Definition Interpreter_halt_not_activated : Interpreter -> option Interpreter :=
  Interpreter_halt IR_NotActivated.
