(* ===== verification/Env.v ===== *)
(** The environment of a transaction: the block ([context/src/block.rs],
    [context/interface/src/block.rs] and [block/blob.rs]), the configuration
    ([context/src/cfg.rs]) and the transaction with what it may cost its sender
    ([context/src/tx.rs], [context/interface/src/transaction.rs]).

    The optional features of [CfgEnv] that switch checks off are not enabled.
    The signed authorizations of EIP-7702 are a parameter [Auth]: nothing here
    looks into them. *)
From S2P Require Import Prelude Hardfork.
From stdpp Require Import base numbers list option tactics strings.
From Stdlib Require Import ZArith Lia.

Local Open Scope Z_scope.

(** * Blob gas (EIP-4844) *)

Definition GAS_PER_BLOB : Z := Z.shiftl 1 17.
Definition EIP4844_VERSIONED_HASH_VERSION_KZG : Z := 0x01.
Definition MIN_BLOB_GASPRICE : Z := 1.
Definition BLOB_BASE_FEE_UPDATE_FRACTION_CANCUN : Z := 3338477.
Definition BLOB_BASE_FEE_UPDATE_FRACTION_PRAGUE : Z := 5007716.

(** The loop of [fake_exponential], in the 128-bit arithmetic of the release
    build; [None] when the fuel runs out or the divisor wraps to zero. *)
Fixpoint fake_exponential_loop (fuel : nat) (numerator denominator i output numerator_accum : Z)
    : option Z :=
  match fuel with
  | O => None
  | S fuel =>
      if 0 <? numerator_accum then
        if wrapping_mul 128 denominator i =? 0 then None else
        fake_exponential_loop fuel numerator denominator (i + 1)
          (wrapping_add 128 output numerator_accum)
          (wrapping_mul 128 numerator_accum numerator / wrapping_mul 128 denominator i)
      else Some output
  end.
Definition fake_exponential (fuel : nat) (factor numerator denominator : Z) : option Z :=
  if denominator =? 0 then None
  else
    let? output := fake_exponential_loop fuel numerator denominator 1 0
                     (wrapping_mul 128 factor denominator) in
    Some (output / denominator).

Definition calc_blob_gasprice (fuel : nat) (excess_blob_gas blob_base_fee_update_fraction : Z) : option Z :=
  fake_exponential fuel MIN_BLOB_GASPRICE excess_blob_gas blob_base_fee_update_fraction.

Record BlobExcessGasAndPrice := mkBlobExcessGasAndPrice { excess_blob_gas : Z; blob_gasprice : Z }.

Definition BlobExcessGasAndPrice_new (fuel : nat) (excess blob_base_fee_update_fraction : Z)
    : option BlobExcessGasAndPrice :=
  let? price := calc_blob_gasprice fuel excess blob_base_fee_update_fraction in
  Some (mkBlobExcessGasAndPrice excess price).

Definition BlobExcessGasAndPrice_new_with_spec (fuel : nat) (excess : Z) (spec : SpecId)
    : option BlobExcessGasAndPrice :=
  BlobExcessGasAndPrice_new fuel excess
    (if SpecId_is_enabled_in spec PRAGUE then BLOB_BASE_FEE_UPDATE_FRACTION_PRAGUE
     else BLOB_BASE_FEE_UPDATE_FRACTION_CANCUN).

(** * The block *)

Record BlockEnv := mkBlockEnv {
  block_number : Z; block_beneficiary : Z; block_timestamp : Z; block_gas_limit : Z;
  block_basefee : Z; block_difficulty : Z; block_prevrandao : option Z;
  block_blob_excess_gas_and_price : option BlobExcessGasAndPrice }.

Definition Block_blob_gasprice (self : BlockEnv) : option Z :=
  blob_gasprice <$> block_blob_excess_gas_and_price self.
Definition Block_blob_excess_gas (self : BlockEnv) : option Z :=
  excess_blob_gas <$> block_blob_excess_gas_and_price self.

(** * The configuration *)

Definition MAX_CODE_SIZE : Z := 0x6000.
Definition MAX_INITCODE_SIZE : Z := 2 * MAX_CODE_SIZE.
Definition TX_GAS_LIMIT_CAP : Z := 16777216.

Record CfgEnv := mkCfgEnv {
  cfg_chain_id : Z; cfg_tx_chain_id_check : bool; cfg_spec : SpecId;
  cfg_limit_contract_code_size : option Z; cfg_limit_contract_initcode_size : option Z;
  cfg_disable_nonce_check : bool; cfg_max_blobs_per_tx : option Z;
  cfg_blob_base_fee_update_fraction : option Z; cfg_tx_gas_limit_cap : option Z }.

Definition CfgEnv_new_with_spec (spec : SpecId) : CfgEnv :=
  mkCfgEnv 1 true spec None None false None None None.
Definition CfgEnv_blob_base_fee_update_fraction (self : CfgEnv) : Z :=
  match cfg_blob_base_fee_update_fraction self with
  | Some f => f
  | None => if SpecId_is_enabled_in (cfg_spec self) PRAGUE then BLOB_BASE_FEE_UPDATE_FRACTION_PRAGUE
            else BLOB_BASE_FEE_UPDATE_FRACTION_CANCUN
  end.
Definition Cfg_tx_gas_limit_cap (self : CfgEnv) : Z :=
  match cfg_tx_gas_limit_cap self with
  | Some c => c
  | None => if SpecId_is_enabled_in (cfg_spec self) OSAKA then TX_GAS_LIMIT_CAP else modulus 64 - 1
  end.
(** The checks that only an optional feature can switch off. *)
Definition Cfg_is_eip3541_disabled (self : CfgEnv) : bool := false.
Definition Cfg_is_eip3607_disabled (self : CfgEnv) : bool := false.
Definition Cfg_is_eip7623_disabled (self : CfgEnv) : bool := false.
Definition Cfg_is_balance_check_disabled (self : CfgEnv) : bool := false.
Definition Cfg_is_block_gas_limit_disabled (self : CfgEnv) : bool := false.
Definition Cfg_is_nonce_check_disabled (self : CfgEnv) : bool := cfg_disable_nonce_check self.
Definition Cfg_is_base_fee_check_disabled (self : CfgEnv) : bool := false.
Definition Cfg_is_priority_fee_check_disabled (self : CfgEnv) : bool := false.
Definition Cfg_max_code_size (self : CfgEnv) : Z :=
  default MAX_CODE_SIZE (cfg_limit_contract_code_size self).
Definition Cfg_max_initcode_size (self : CfgEnv) : Z :=
  match cfg_limit_contract_initcode_size self with
  | Some size => size
  | None => match cfg_limit_contract_code_size self with
            | Some size => saturating_mul 64 size 2
            | None => MAX_INITCODE_SIZE
            end
  end.

(** * The transaction *)

Inductive TransactionType := Legacy | Eip2930 | Eip1559 | Eip4844 | Eip7702Tx | Custom.
Definition TransactionType_as_u8 (t : TransactionType) : Z :=
  match t with Legacy => 0 | Eip2930 => 1 | Eip1559 => 2 | Eip4844 => 3 | Eip7702Tx => 4 | Custom => 0xFF end.
Definition TransactionType_from_u8 (value : Z) : TransactionType :=
  if value =? 0 then Legacy else if value =? 1 then Eip2930 else if value =? 2 then Eip1559
  else if value =? 3 then Eip4844 else if value =? 4 then Eip7702Tx else Custom.

Inductive TxKind := TxCreate | TxCall (to : Z).

Record TxEnv (Auth : Type) := mkTxEnv {
  tx_type : Z; tx_caller : Z; tx_gas_limit : Z; tx_gas_price : Z; tx_kind : TxKind; tx_value : Z;
  tx_data : list Z; tx_nonce : Z; tx_chain_id : option Z; tx_access_list : list (Z * list Z);
  tx_gas_priority_fee : option Z; tx_blob_hashes : list Z; tx_max_fee_per_blob_gas : Z;
  tx_authorization_list : list Auth }.
Arguments mkTxEnv {Auth}.
Arguments tx_type {Auth}.
Arguments tx_caller {Auth}.
Arguments tx_gas_limit {Auth}.
Arguments tx_gas_price {Auth}.
Arguments tx_kind {Auth}.
Arguments tx_value {Auth}.
Arguments tx_data {Auth}.
Arguments tx_nonce {Auth}.
Arguments tx_chain_id {Auth}.
Arguments tx_access_list {Auth}.
Arguments tx_gas_priority_fee {Auth}.
Arguments tx_blob_hashes {Auth}.
Arguments tx_max_fee_per_blob_gas {Auth}.
Arguments tx_authorization_list {Auth}.

Inductive DeriveTxTypeError := MissingTargetForEip4844 | MissingTargetForEip7702 | MissingTargetForEip7873.

Inductive InvalidTransaction :=
| PriorityFeeGreaterThanMaxFee | GasPriceLessThanBasefee | CallerGasLimitMoreThanBlock
| CallGasCostMoreThanGasLimit (initial_gas gas_limit : Z)
| GasFloorMoreThanGasLimit (gas_floor gas_limit : Z)
| RejectCallerWithCode | LackOfFundForMaxFee (fee balance : Z) | OverflowPaymentInTransaction
| NonceOverflowInTransaction | NonceTooHigh (tx state : Z) | NonceTooLow (tx state : Z)
| CreateInitCodeSizeLimit | InvalidChainId | MissingChainId
| TxGasLimitGreaterThanCap (gas_limit cap : Z) | AccessListNotSupported | MaxFeePerBlobGasNotSupported
| BlobVersionedHashesNotSupported
| BlobGasPriceGreaterThanMax (block_blob_gas_price tx_max_fee_per_blob_gas : Z)
| EmptyBlobs | BlobCreateTransaction | TooManyBlobs (max have : Z) | BlobVersionNotSupported
| AuthorizationListNotSupported | AuthorizationListInvalidFields | EmptyAuthorizationList
| Eip2930NotSupported | Eip1559NotSupported | Eip4844NotSupported | Eip7702NotSupported
| Eip7873NotSupported | Eip7873MissingTarget | InvalidTransaction_Str (message : string).

Inductive InvalidHeader := PrevrandaoNotSet | ExcessBlobGasNotSet.

Inductive EVMError (DBError : Type) :=
| EVMError_Transaction (e : InvalidTransaction)
| EVMError_Header (e : InvalidHeader)
| EVMError_Database (e : DBError)
| EVMError_Custom (message : string).
Arguments EVMError_Transaction {DBError}.
Arguments EVMError_Header {DBError}.
Arguments EVMError_Database {DBError}.
Arguments EVMError_Custom {DBError}.

Section Transaction.
Context {Auth : Type}.
Implicit Types self : TxEnv Auth.

Definition assign_tx_type (t : TransactionType) self : TxEnv Auth :=
  mkTxEnv (TransactionType_as_u8 t) (tx_caller self) (tx_gas_limit self) (tx_gas_price self) (tx_kind self)
    (tx_value self) (tx_data self) (tx_nonce self) (tx_chain_id self) (tx_access_list self)
    (tx_gas_priority_fee self) (tx_blob_hashes self) (tx_max_fee_per_blob_gas self)
    (tx_authorization_list self).

Definition TxEnv_derive_tx_type self : result unit DeriveTxTypeError * TxEnv Auth :=
  let self := if bool_decide (tx_access_list self <> []) then assign_tx_type Eip2930 self else self in
  let self := if bool_decide (is_Some (tx_gas_priority_fee self)) then assign_tx_type Eip1559 self else self in
  if bool_decide (tx_blob_hashes self <> []) || (0 <? tx_max_fee_per_blob_gas self) then
    match tx_kind self with
    | TxCall _ => (Ok tt, assign_tx_type Eip4844 self)
    | TxCreate => (Err MissingTargetForEip4844, self)
    end
  else match tx_authorization_list self with
  | [] => (Ok tt, self)
  | _ :: _ => match tx_kind self with
              | TxCall _ => (Ok tt, assign_tx_type Eip7702Tx self)
              | TxCreate => (Err MissingTargetForEip7702, self)
              end
  end.

Definition is_type (t : TransactionType) self : bool := tx_type self =? TransactionType_as_u8 t.

Definition Transaction_total_blob_gas self : Z :=
  wrapping_mul 64 GAS_PER_BLOB (Z.of_nat (length (tx_blob_hashes self))).
Definition Transaction_calc_max_data_fee self : Z :=
  saturating_mul 128 (Transaction_total_blob_gas self) (tx_max_fee_per_blob_gas self).

Definition Transaction_effective_gas_price (base_fee : Z) self : Z :=
  if is_type Legacy self || is_type Eip2930 self then tx_gas_price self
  else match tx_gas_priority_fee self with
  | None => tx_gas_price self
  | Some max_priority_fee => Z.min (tx_gas_price self) (saturating_add 128 base_fee max_priority_fee)
  end.

(** [checked_mul] in 128 bits, then two [checked_add]s in 256. *)
Definition spending (price data_fee : Z) self : result Z InvalidTransaction :=
  match (let? gas_cost := checked_mul 128 (tx_gas_limit self) price in
         checked_add 256 gas_cost (tx_value self)) with
  | None => Err OverflowPaymentInTransaction
  | Some spent =>
      if is_type Eip4844 self then
        match checked_add 256 spent data_fee with
        | Some spent => Ok spent
        | None => Err OverflowPaymentInTransaction
        end
      else Ok spent
  end.

Definition Transaction_max_balance_spending self : result Z InvalidTransaction :=
  spending (tx_gas_price self) (Transaction_calc_max_data_fee self) self.

Definition Transaction_ensure_enough_balance (balance : Z) self : result unit InvalidTransaction :=
  match Transaction_max_balance_spending self with
  | Err e => Err e
  | Ok fee => if balance <? fee then Err (LackOfFundForMaxFee fee balance) else Ok tt
  end.

Definition Transaction_effective_balance_spending (base_fee blob_price : Z) self : result Z InvalidTransaction :=
  spending (Transaction_effective_gas_price base_fee self)
    (saturating_mul 128 blob_price (Transaction_total_blob_gas self)) self.

Definition Transaction_gas_balance_spending (base_fee blob_price : Z) self : result Z InvalidTransaction :=
  match Transaction_effective_balance_spending base_fee blob_price self with
  | Ok spent => Ok (wrapping_sub 256 spent (tx_value self))
  | Err e => Err e
  end.
End Transaction.

(** The values of the unit test [fake_exp]. *)
Lemma fake_exponential_values :
  (fun '(f, n, d) => fake_exponential 1000 f n d) <$>
    [(1, 0, 1); (38493, 0, 1000); (0, 1234, 2345); (1, 2, 1); (1, 4, 2); (1, 3, 1); (1, 6, 2); (1, 4, 1);
     (1, 8, 2); (10, 8, 2); (11, 8, 2); (1, 5, 1); (1, 5, 2); (2, 5, 2); (1, 50000000, 2225652);
     (1, 380928, BLOB_BASE_FEE_UPDATE_FRACTION_CANCUN)]
  = Some <$> [1; 38493; 0; 6; 6; 16; 18; 49; 50; 542; 596; 136; 11; 23; 5709098764; 1].
Proof. vm_compute. reflexivity. Qed.

(** * Spending *)

Record tx_ok {Auth} (self : TxEnv Auth) : Prop := {
  tx_ok_type : u8 (tx_type self);
  tx_ok_caller : in_range 160 (tx_caller self);
  tx_ok_gas_limit : u64 (tx_gas_limit self);
  tx_ok_gas_price : in_range 128 (tx_gas_price self);
  tx_ok_value : u256 (tx_value self);
  tx_ok_priority p : tx_gas_priority_fee self = Some p -> in_range 128 p;
  tx_ok_blobs : Forall (fun b => u256 b) (tx_blob_hashes self);
  tx_ok_blob_fee : in_range 128 (tx_max_fee_per_blob_gas self) }.

Record block_ok (b : BlockEnv) : Prop := {
  bok_number : u256 (block_number b);
  bok_beneficiary : in_range 160 (block_beneficiary b);
  bok_timestamp : u256 (block_timestamp b);
  bok_gas_limit : u64 (block_gas_limit b);
  bok_basefee : u64 (block_basefee b);
  bok_difficulty : u256 (block_difficulty b);
  bok_prevrandao r : block_prevrandao b = Some r -> u256 r;
  bok_blob p : block_blob_excess_gas_and_price b = Some p -> in_range 128 (blob_gasprice p) }.

Section Spending.
Context {Auth : Type} (self : TxEnv Auth) (Hok : tx_ok self).

Lemma effective_gas_price_range base_fee :
  0 <= base_fee -> 0 <= Transaction_effective_gas_price base_fee self <= tx_gas_price self.
Proof.
  intros Hb. destruct Hok as [_ _ _ [? _] _ Hp _ _]. unfold Transaction_effective_gas_price.
  destruct (_ || _); [lia|]. destruct (tx_gas_priority_fee self) as [p|]; [|lia].
  destruct (Hp p eq_refl). unfold saturating_add, modulus. lia.
Qed.

Lemma total_blob_gas_range : u64 (Transaction_total_blob_gas self).
Proof. apply wrap_range. lia. Qed.

Lemma checked_le (f : Z -> Z -> option Z) (op : Z -> Z -> Z) w x y x' y' z :
  (forall x y, f x y = if op x y <? modulus w then Some (op x y) else None) ->
  f x y = Some z -> op x' y' <= op x y -> f x' y' = Some (op x' y') /\ z = op x y.
Proof.
  intros Hf. rewrite !Hf. intros Hz Hle. revert Hz. destruct (Z.ltb_spec (op x y) (modulus w)); [|done]. intros [= <-].
  destruct (Z.ltb_spec (op x' y') (modulus w)); [done|lia].
Qed.

(** Paying less, where paying more does not overflow. *)
Lemma spending_mono price price' fee fee' spent :
  0 <= price' <= price -> (is_type Eip4844 self = true -> 0 <= fee' <= fee) -> spending price fee self = Ok spent ->
  exists spent', spending price' fee' self = Ok spent' /\ tx_value self <= spent' <= spent /\
    spent' = tx_gas_limit self * price' + tx_value self + (if is_type Eip4844 self then fee' else 0).
Proof.
  intros Hp Hf. destruct Hok as [_ _ [? _] _ [? _] _ _ _]. unfold spending.
  destruct (checked_mul 128 _ price) as [c|] eqn:Ec; [|done].
  destruct (checked_le (checked_mul 128) Z.mul 128 _ _ (tx_gas_limit self) price' _
    ltac:(done) Ec ltac:(nia)) as [-> ->].
  destruct (checked_add 256 _ (tx_value self)) as [s|] eqn:Es; [|done].
  destruct (checked_le (checked_add 256) Z.add 256 _ _ (tx_gas_limit self * price') (tx_value self) _
    ltac:(done) Es ltac:(nia)) as [-> ->].
  destruct (is_type Eip4844 self); [specialize (Hf eq_refl)|intros [= <-]; eexists; split; [done|nia]].
  destruct (checked_add 256 _ fee) as [t|] eqn:Et; [|done]. intros [= <-].
  destruct (checked_le (checked_add 256) Z.add 256 _ _ (tx_gas_limit self * price' + tx_value self) fee' _
    ltac:(done) Et ltac:(nia)) as [-> ->].
  eexists. split; [done|nia].
Qed.

Lemma effective_spending_within_max_aux base_fee blob_price max :
  0 <= base_fee -> 0 <= blob_price ->
  (is_type Eip4844 self = true -> blob_price <= tx_max_fee_per_blob_gas self) ->
  Transaction_max_balance_spending self = Ok max ->
  exists spent, Transaction_effective_balance_spending base_fee blob_price self = Ok spent /\
    tx_value self <= spent <= max /\
    spent - tx_value self = tx_gas_limit self * Transaction_effective_gas_price base_fee self
      + (if is_type Eip4844 self then saturating_mul 128 blob_price (Transaction_total_blob_gas self) else 0) /\
    Transaction_gas_balance_spending base_fee blob_price self = Ok (spent - tx_value self).
Proof.
  intros Hb Hp0 Hp Hm. pose proof (effective_gas_price_range base_fee Hb) as Hpr. pose proof total_blob_gas_range as [? _].
  unfold Transaction_gas_balance_spending, Transaction_effective_balance_spending.
  destruct (spending_mono _ (Transaction_effective_gas_price base_fee self) (Transaction_calc_max_data_fee self)
    (saturating_mul 128 blob_price (Transaction_total_blob_gas self)) max Hpr) as (spent & He & Hr & Hsum); [|exact Hm|].
  { intros H4. specialize (Hp H4). unfold Transaction_calc_max_data_fee, saturating_mul. split; [unfold modulus; nia|].
    apply Z.min_le_compat_r. nia. }
  exists spent. rewrite He. split_and!; [done|lia|lia|lia|]. f_equal. apply wrap_small.
  assert (spent < modulus 256) as Hs.
  { unfold Transaction_max_balance_spending, spending in Hm. repeat case_match; simplify_eq;
      repeat match goal with H : checked_add _ _ _ = Some _ |- _ => apply checked_add_spec in H as [-> ?] end; lia. }
  destruct Hok as [_ _ _ _ [? _] _ _ _]. unfold in_range. lia.
Qed.

(** A transaction never spends more than it was checked for: when the
    maximal spending of a transaction does not overflow and the block's blob
    price is at most what the sender of a blob transaction offers, the effective spending does not
    overflow either and is at most the maximum, and what it exceeds the value
    by is exactly the gas at the effective price plus the blob fee. *)
Theorem effective_spending_within_max base_fee blob_price max :
  0 <= base_fee -> 0 <= blob_price ->
  (is_type Eip4844 self = true -> blob_price <= tx_max_fee_per_blob_gas self) ->
  Transaction_max_balance_spending self = Ok max ->
  exists spent, Transaction_effective_balance_spending base_fee blob_price self = Ok spent /\
    tx_value self <= spent <= max /\
    spent - tx_value self = tx_gas_limit self * Transaction_effective_gas_price base_fee self
      + (if is_type Eip4844 self then saturating_mul 128 blob_price (Transaction_total_blob_gas self) else 0) /\
    Transaction_gas_balance_spending base_fee blob_price self = Ok (spent - tx_value self).
Proof. apply effective_spending_within_max_aux. Qed.
End Spending.

Module Spend.
(** A blob transaction with one blob. *)
Definition blob_tx : TxEnv unit :=
  mkTxEnv 3 0xAA 21000 10 (TxCall 0xBB) 5 [] 0 (Some 1) [] (Some 1) [7] 3 [].
Lemma blob_tx_ok : tx_ok blob_tx.
Proof.
  split; cbn; try (unfold in_range, modulus; lia); [intros ? [= <-]; unfold in_range, modulus; lia|].
  repeat constructor; unfold modulus; lia.
Defined.

(** At the price the sender offers the effective spending is the maximum. *)
Lemma effective_spending_within_max_witness :
  exists max spent, Transaction_max_balance_spending blob_tx = Ok max /\
    Transaction_effective_balance_spending 9 3 blob_tx = Ok spent /\ spent = max /\
    5 <= spent <= max /\ Transaction_gas_balance_spending 9 3 blob_tx = Ok (spent - 5).
Proof.
  destruct (effective_spending_within_max blob_tx blob_tx_ok 9 3 603221) as (spent & He & Hr & _ & Hg);
    [lia|lia|cbn; lia|reflexivity|].
  exists 603221, spent. split_and!; [reflexivity|exact He| |exact (proj1 Hr)|exact (proj2 Hr)|exact Hg].
  vm_compute in He. by injection He.
Defined.
End Spend.
