(* ===== verification/Host.v ===== *)
(** The interface between the interpreter and the rest of the EVM: the [Host]
    trait of [crates/context/interface/src/host.rs] as a type class, its
    default methods, the laws the instructions rely on, and the [DummyHost].

    A method that takes [&mut self] returns the host it leaves behind; where
    an implementation may panic the method returns an [option]. *)
From S2P Require Import Prelude Hardfork Bytecode State Database JournalEntry JournalInner.
From stdpp Require Import base numbers list option tactics.
From Stdlib Require Import ZArith Lia.

Local Open Scope Z_scope.

Inductive LoadError := Load_DBError | Load_ColdLoadSkipped.

Record AccountInfoLoad := mkAccountInfoLoad {
  ail_account : AccountInfo; ail_is_cold : bool; ail_is_empty : bool }.

Definition AccountInfoLoad_into_state_load {O} (f : AccountInfo -> O) (self : AccountInfoLoad)
    : StateLoad O := mkStateLoad (f (ail_account self)) (ail_is_cold self).

Class Host (H : Type) := {
  host_basefee : H -> Z;
  host_blob_gasprice : H -> Z;
  host_gas_limit : H -> Z;
  host_difficulty : H -> Z;
  host_prevrandao : H -> option Z;
  host_block_number : H -> Z;
  host_timestamp : H -> Z;
  host_beneficiary : H -> Z;
  host_chain_id : H -> Z;
  host_effective_gas_price : H -> Z;
  host_caller : H -> Z;
  host_blob_hash : H -> Z -> option Z;
  host_max_initcode_size : H -> Z;
  host_block_hash : H -> Z -> option (option Z * H);
  host_selfdestruct : H -> Z -> Z -> option (option (StateLoad SelfDestructResult) * H);
  host_log : H -> Log -> H;
  host_sstore_skip_cold_load :
    H -> Z -> Z -> Z -> bool -> option (result (StateLoad SStoreResult) LoadError * H);
  host_sload_skip_cold_load : H -> Z -> Z -> bool -> option (result (StateLoad Z) LoadError * H);
  host_tstore : H -> Z -> Z -> Z -> H;
  host_tload : H -> Z -> Z -> Z * H;
  host_load_account_info_skip_cold_load :
    H -> Z -> bool -> bool -> option (result AccountInfoLoad LoadError * H) }.

(** * Default methods *)

(** [Result::ok]. *)
Definition result_ok {A E} (r : result A E) : option A :=
  match r with Ok a => Some a | Err _ => None end.

Section Defaults.
Context {H : Type} `{!Host H}.

Definition Host_sstore (h : H) (address key value : Z) : option (option (StateLoad SStoreResult) * H) :=
  let? (r, h) := host_sstore_skip_cold_load h address key value false in Some (result_ok r, h).

Definition Host_sload (h : H) (address key : Z) : option (option (StateLoad Z) * H) :=
  let? (r, h) := host_sload_skip_cold_load h address key false in Some (result_ok r, h).

Definition Host_balance (h : H) (address : Z) : option (option (StateLoad Z) * H) :=
  let? (r, h) := host_load_account_info_skip_cold_load h address false false in
  Some (AccountInfoLoad_into_state_load balance <$> result_ok r, h).

Definition Host_load_account_code (h : H) (address : Z) : option (option (StateLoad (list Z)) * H) :=
  let? (r, h) := host_load_account_info_skip_cold_load h address true false in
  Some (AccountInfoLoad_into_state_load
          (fun i => match code i with Some b => Bytecode_original_bytes b | None => [] end)
        <$> result_ok r, h).

Definition Host_load_account_code_hash (h : H) (address : Z) : option (option (StateLoad Z) * H) :=
  let? (r, h) := host_load_account_info_skip_cold_load h address false false in
  Some (AccountInfoLoad_into_state_load (fun i => if AccountInfo_is_empty i then 0 else code_hash i)
        <$> result_ok r, h).

Definition Host_load_account_delegated (h : H) (address : Z)
    : option (option (StateLoad AccountLoad) * H) :=
  let? (r, h) := host_load_account_info_skip_cold_load h address true false in
  match r with
  | Err _ => Some (None, h)
  | Ok account =>
      match code (ail_account account) with
      | Some (Eip7702 c) =>
          let? (r, h) := host_load_account_info_skip_cold_load h (delegated_address c) true false in
          match r with
          | Err _ => Some (None, h)
          | Ok delegate_account =>
              Some (Some (mkStateLoad
                      (mkAccountLoad (Some (ail_is_cold delegate_account)) (ail_is_empty delegate_account))
                      (ail_is_cold account)), h)
          end
      | _ => Some (Some (mkStateLoad (mkAccountLoad None (ail_is_empty account)) (ail_is_cold account)), h)
      end
  end.
End Defaults.

(** * Laws

    What an instruction may rely on, for a host that runs the hard fork
    [spec] and a frame of the contract at the address [self]: an invariant [host_ok] under which no method panics, that every
    method keeps, and under which the words it answers are 256-bit words.
    Storage and self-destruction are only used at [self], whose account is
    loaded before the frame starts.  Block validation puts [prevrandao] in place from the merge on, and a load
    with [load_code] set comes back with the code. *)

Definition account_answer_ok (load_code : bool) (i : AccountInfo) : Prop :=
  info_ok i /\ u256 (code_hash i) /\
  (load_code = true -> exists c, code i = Some c) /\
  (forall c, code i = Some c -> Forall u8 (Bytecode_original_bytes c) /\ Z.of_nat (Bytecode_len c) < 2 ^ 64) /\
  (forall c, code i = Some (Eip7702 c) -> in_range 160 (delegated_address c)).

Class HostLaws (H : Type) `{!Host H} (spec : SpecId) (self : Z) := {
  host_ok : H -> Prop;
  ok_basefee h : host_ok h -> u256 (host_basefee h);
  ok_blob_gasprice h : host_ok h -> u256 (host_blob_gasprice h);
  ok_gas_limit h : host_ok h -> u256 (host_gas_limit h);
  ok_difficulty h : host_ok h -> u256 (host_difficulty h);
  ok_prevrandao h : host_ok h -> SpecId_is_enabled_in spec MERGE = true ->
    exists r, host_prevrandao h = Some r /\ u256 r;
  ok_block_number h : host_ok h -> u256 (host_block_number h);
  ok_timestamp h : host_ok h -> u256 (host_timestamp h);
  ok_beneficiary h : host_ok h -> in_range 160 (host_beneficiary h);
  ok_chain_id h : host_ok h -> u256 (host_chain_id h);
  ok_effective_gas_price h : host_ok h -> u256 (host_effective_gas_price h);
  ok_caller h : host_ok h -> in_range 160 (host_caller h);
  ok_blob_hash h n r : host_ok h -> host_blob_hash h n = Some r -> u256 r;
  ok_block_hash h n : host_ok h -> u64 n ->
    exists r h', host_block_hash h n = Some (r, h') /\ host_ok h' /\ forall x, r = Some x -> u256 x;
  ok_selfdestruct h t : host_ok h -> in_range 160 t ->
    exists r h', host_selfdestruct h self t = Some (r, h') /\ host_ok h';
  ok_log h l : host_ok h -> host_ok (host_log h l);
  ok_sstore h k v skip : host_ok h -> u256 k -> u256 v ->
    exists r h', host_sstore_skip_cold_load h self k v skip = Some (r, h') /\ host_ok h';
  ok_sload h k skip : host_ok h -> u256 k ->
    exists r h', host_sload_skip_cold_load h self k skip = Some (r, h') /\ host_ok h' /\
      forall l, r = Ok l -> u256 (data l);
  ok_tstore h a k v : host_ok h -> in_range 160 a -> u256 k -> u256 v -> host_ok (host_tstore h a k v);
  ok_tload h a k : host_ok h -> in_range 160 a -> u256 k ->
    host_ok (host_tload h a k).2 /\ u256 (host_tload h a k).1;
  ok_load_account h a load_code skip : host_ok h -> in_range 160 a ->
    exists r h', host_load_account_info_skip_cold_load h a load_code skip = Some (r, h') /\ host_ok h' /\
      forall l, r = Ok l -> account_answer_ok load_code (ail_account l) }.

(** * The dummy host *)

Inductive DummyHost : Type := dummy_host.

#[global] Instance DummyHost_Host : Host DummyHost := {|
  host_basefee _ := 0;
  host_blob_gasprice _ := 0;
  host_gas_limit _ := 0;
  host_difficulty _ := 0;
  host_prevrandao _ := None;
  host_block_number _ := 0;
  host_timestamp _ := 0;
  host_beneficiary _ := 0;
  host_chain_id _ := 0;
  host_effective_gas_price _ := 0;
  host_caller _ := 0;
  host_blob_hash _ _ := None;
  host_max_initcode_size _ := 0;
  host_block_hash h _ := Some (None, h);
  host_selfdestruct h _ _ := Some (None, h);
  host_log h _ := h;
  host_sstore_skip_cold_load h _ _ _ _ := Some (Err Load_DBError, h);
  host_sload_skip_cold_load h _ _ _ := Some (Err Load_DBError, h);
  host_tstore h _ _ _ := h;
  host_tload h _ _ := (0, h);
  host_load_account_info_skip_cold_load h _ _ _ := Some (Err Load_DBError, h) |}.

(** Before the merge the dummy host keeps the laws; after it, [prevrandao] is
    missing. *)
Definition DummyHost_laws (spec : SpecId) (self : Z)
    (pre_merge : SpecId_is_enabled_in spec MERGE = false) : HostLaws DummyHost spec self.
Proof.
  assert (u256 0) as Hw by (unfold in_range, modulus; lia).
  assert (in_range 160 0) as Ha by (unfold in_range, modulus; lia).
  refine {| host_ok _ := True |}; intros; cbn; try done; try congruence; eauto.
  - eexists _, _. split_and!; [done..|]. intros ? [=].
  - eexists _, _. split_and!; [done..|]. intros ? [=].
  - eexists _, _. split_and!; [done..|]. intros ? [=].
Defined.
