(* ===== verification/Context.v ===== *)
(** The execution context: [Journal] ([context/src/journal.rs]) couples the
    journal with the database below it, [Context] ([context/src/context.rs])
    adds the environments and implements [Host] with them.

    The [chain] field of [Context], which nothing here uses, is left out.  The
    buffer of [LocalContext] ([context/src/local.rs]) is the [Rc] that the
    memory of every frame points to: it is stored here, lent to the frame that
    runs and taken back from it. *)
From S2P Require Import Prelude Hardfork Bytecode State Database WarmAddresses JournalEntry JournalInner SharedMemory Env Host.
From stdpp Require Import base numbers list option tactics gmap strings.
From Stdlib Require Import ZArith Lia.

Local Open Scope Z_scope.

(** * The journal with its database *)

Record Journal (DB : Type) := mkJournal { journal_database : DB; journal_inner : JournalInner }.
Arguments mkJournal {DB}.
Arguments journal_database {DB}.
Arguments journal_inner {DB}.

Section Journal.
Context `{BitVec, Keccak} {DB E : Type} `{!Database DB E}.
Implicit Types self : Journal DB.

Definition Journal_new (database : DB) : Journal DB := mkJournal database JournalInner_new.

(** The database and the journal as an operation of [JournalInner] left them. *)
Definition journal_result {A} (r : A * JournalInner * DB) : A * Journal DB :=
  let '(a, j, db) := r in (a, mkJournal db j).

Definition Journal_tload (address key : Z) self : Z := JournalInner_tload address key (journal_inner self).
Definition Journal_tstore (address key value : Z) self : Journal DB :=
  mkJournal (journal_database self) (JournalInner_tstore address key value (journal_inner self)).
Definition Journal_log (log : Log) self : Journal DB :=
  mkJournal (journal_database self) (JournalInner_log log (journal_inner self)).
Definition Journal_selfdestruct (address target : Z) self
    : option (result (StateLoad SelfDestructResult) E * Journal DB) :=
  journal_result <$> JournalInner_selfdestruct address target (journal_inner self) (journal_database self).
Definition Journal_sload_skip_cold_load (address key : Z) (skip_cold_load : bool) self
    : option (result (StateLoad Z) (JournalLoadError E) * Journal DB) :=
  journal_result <$> JournalInner_sload address key skip_cold_load (journal_inner self) (journal_database self).
Definition Journal_sstore_skip_cold_load (address key value : Z) (skip_cold_load : bool) self
    : option (result (StateLoad SStoreResult) (JournalLoadError E) * Journal DB) :=
  journal_result <$>
    JournalInner_sstore address key value skip_cold_load (journal_inner self) (journal_database self).

Definition Journal_warm_access_list (al : gmap Z (gset Z)) self : Journal DB :=
  mkJournal (journal_database self) (set_warm_addresses
    (WarmAddresses_set_access_list al (j_warm_addresses (journal_inner self))) (journal_inner self)).
Definition Journal_warm_coinbase_account (address : Z) self : Journal DB :=
  mkJournal (journal_database self) (set_warm_addresses
    (WarmAddresses_set_coinbase address (j_warm_addresses (journal_inner self))) (journal_inner self)).
Definition Journal_warm_precompiles (precompiles : gset Z) self : Journal DB :=
  mkJournal (journal_database self) (set_warm_addresses
    (WarmAddresses_set_precompile_addresses precompiles (j_warm_addresses (journal_inner self)))
    (journal_inner self)).
Definition Journal_precompile_addresses self : gset Z := precompile_set (j_warm_addresses (journal_inner self)).
Definition Journal_depth self : nat := j_depth (journal_inner self).
Definition Journal_set_spec_id (spec_id : SpecId) self : Journal DB :=
  mkJournal (journal_database self) (JournalInner_set_spec_id spec_id (journal_inner self)).
Definition Journal_transfer_loaded (from to bal : Z) self : option (option TransferError * Journal DB) :=
  let? (r, j) := JournalInner_transfer_loaded from to bal (journal_inner self) in
  Some (r, mkJournal (journal_database self) j).
Definition Journal_load_account (address : Z) self : option (result (StateLoad Account) E * Journal DB) :=
  journal_result <$> JournalInner_load_account address (journal_inner self) (journal_database self).
Definition Journal_load_account_mut_optional_code (address : Z) (load_code : bool) self
    : option (result (StateLoad JournaledAccount) E * Journal DB) :=
  let '(r, j, db) := JournalInner_load_account_mut_optional_code address load_code false
                       (journal_inner self) (journal_database self) in
  let? r := JournalLoadError_unwrap_db_error r in Some (r, mkJournal db j).
Definition Journal_load_account_mut (address : Z) self
    : option (result (StateLoad JournaledAccount) E * Journal DB) :=
  Journal_load_account_mut_optional_code address false self.
Definition Journal_load_account_with_code_mut (address : Z) self
    : option (result (StateLoad JournaledAccount) E * Journal DB) :=
  Journal_load_account_mut_optional_code address true self.
(** The end of the borrow of a [JournaledAccount]. *)
Definition Journal_write_back (ja : JournaledAccount) self : Journal DB :=
  mkJournal (journal_database self) (write_back ja (journal_inner self)).
Definition Journal_load_account_with_code (address : Z) self
    : option (result (StateLoad Account) E * Journal DB) :=
  journal_result <$> JournalInner_load_code address (journal_inner self) (journal_database self).
Definition Journal_checkpoint self : JournalCheckpoint * Journal DB :=
  let '(checkpoint, j) := JournalInner_checkpoint (journal_inner self) in
  (checkpoint, mkJournal (journal_database self) j).
Definition Journal_checkpoint_commit self : Journal DB :=
  mkJournal (journal_database self) (JournalInner_checkpoint_commit (journal_inner self)).
Definition Journal_checkpoint_revert (checkpoint : JournalCheckpoint) self : option (Journal DB) :=
  let? j := JournalInner_checkpoint_revert checkpoint (journal_inner self) in
  Some (mkJournal (journal_database self) j).
Definition Journal_set_code_with_hash (address : Z) (c : Bytecode) (hash : Z) self : option (Journal DB) :=
  let? j := JournalInner_set_code_with_hash address c hash (journal_inner self) in
  Some (mkJournal (journal_database self) j).
(** The default method of [JournalTr]. *)
Definition Journal_set_code (address : Z) (c : Bytecode) self : option (Journal DB) :=
  Journal_set_code_with_hash address c (Bytecode_hash_slow c) self.
Definition Journal_create_account_checkpoint (caller address bal : Z) (spec_id : SpecId) self
    : option (result JournalCheckpoint TransferError * Journal DB) :=
  let? (r, j) := JournalInner_create_account_checkpoint caller address bal spec_id (journal_inner self) in
  Some (r, mkJournal (journal_database self) j).
Definition Journal_take_logs self : list Log * Journal DB :=
  let '(logs, j) := JournalInner_take_logs (journal_inner self) in
  (logs, mkJournal (journal_database self) j).
Definition Journal_commit_tx self : Journal DB :=
  mkJournal (journal_database self) (JournalInner_commit_tx (journal_inner self)).
Definition Journal_discard_tx self : option (Journal DB) :=
  let? j := JournalInner_discard_tx (journal_inner self) in Some (mkJournal (journal_database self) j).
Definition Journal_finalize self : EvmState * Journal DB :=
  let '(state, j) := JournalInner_finalize (journal_inner self) in
  (state, mkJournal (journal_database self) j).

Definition Journal_load_account_info_skip_cold_load (address : Z) (load_code skip_cold_load : bool) self
    : result AccountInfoLoad (JournalLoadError E) * Journal DB :=
  let spec := j_spec (journal_inner self) in
  let '(r, j) := journal_result (JournalInner_load_account_optional address load_code skip_cold_load
                   (journal_inner self) (journal_database self)) in
  (match r with
   | Ok a => Ok (mkAccountInfoLoad (info (data a)) (load_is_cold a)
                   (Account_state_clear_aware_is_empty (data a) spec))
   | Err e => Err e
   end, j).
End Journal.

(** * The context *)

Record LocalContext := mkLocalContext {
  shared_memory_buffer : list Z; precompile_error_message : option string }.
Definition LocalContext_default : LocalContext := mkLocalContext [] None.
Definition LocalContext_clear (self : LocalContext) : LocalContext := mkLocalContext [] None.
Definition LocalContext_set_precompile_error_context (output : string) (self : LocalContext) : LocalContext :=
  mkLocalContext (shared_memory_buffer self) (Some output).
Definition LocalContext_take_precompile_error_context (self : LocalContext) : option string * LocalContext :=
  (precompile_error_message self, mkLocalContext (shared_memory_buffer self) None).
(** [None] when the range is not inside the buffer. *)
Definition LocalContext_shared_memory_buffer_slice (range : Z * Z) (self : LocalContext) : option (list Z) :=
  get_range (shared_memory_buffer self) (Z.to_nat range.1) (Z.to_nat range.2).

Inductive ContextError (E : Type) := ContextError_Db (e : E) | ContextError_Custom (message : string).
Arguments ContextError_Db {E}.
Arguments ContextError_Custom {E}.

Record Context (DB E Auth : Type) := mkContext {
  ctx_block : BlockEnv; ctx_tx : TxEnv Auth; ctx_cfg : CfgEnv;
  ctx_journaled_state : Journal DB; ctx_local : LocalContext; ctx_error : result unit (ContextError E);
  ctx_par_7702 : bool }.
Arguments mkContext {DB E Auth}.
Arguments ctx_block {DB E Auth}.
Arguments ctx_tx {DB E Auth}.
Arguments ctx_cfg {DB E Auth}.
Arguments ctx_journaled_state {DB E Auth}.
Arguments ctx_local {DB E Auth}.
Arguments ctx_error {DB E Auth}.
Arguments ctx_par_7702 {DB E Auth}.

(** [JournalLoadError::into_parts]. *)
Definition JournalLoadError_into_parts {E} (e : JournalLoadError E) : LoadError * option E :=
  match e with DBError e => (Load_DBError, Some e) | ColdLoadSkipped => (Load_ColdLoadSkipped, None) end.

Section ContextHost.
Context `{BitVec, Keccak} {DB E Auth : Type} `{!Database DB E}.
Abbreviation Ctx := (Context DB E Auth).
Implicit Types self : Ctx.

Definition with_journal (j : Journal DB) self : Ctx :=
  mkContext (ctx_block self) (ctx_tx self) (ctx_cfg self) j (ctx_local self) (ctx_error self)
    (ctx_par_7702 self).
Definition with_local (l : LocalContext) self : Ctx :=
  mkContext (ctx_block self) (ctx_tx self) (ctx_cfg self) (ctx_journaled_state self) l (ctx_error self)
    (ctx_par_7702 self).
Definition with_error (e : result unit (ContextError E)) self : Ctx :=
  mkContext (ctx_block self) (ctx_tx self) (ctx_cfg self) (ctx_journaled_state self) (ctx_local self) e
    (ctx_par_7702 self).
Definition set_error (e : E) self : Ctx := with_error (Err (ContextError_Db e)) self.

(** [.map_err(|e| *self.error() = Err(e.into())).ok()]. *)
Definition db_result {A} (r : result A E) self : option A * Ctx :=
  match r with Ok a => (Some a, self) | Err e => (None, set_error e self) end.
(** [.map_err(|e| { let (ret, err) = e.into_parts(); ... ret })]. *)
Definition load_result {A} (r : result A (JournalLoadError E)) self : result A LoadError * Ctx :=
  match r with
  | Ok a => (Ok a, self)
  | Err e =>
      let '(ret, err) := JournalLoadError_into_parts e in
      (Err ret, match err with Some err => set_error err self | None => self end)
  end.

Definition Context_effective_gas_price self : Z :=
  Transaction_effective_gas_price (block_basefee (ctx_block self)) (ctx_tx self).
Definition Context_blob_hash self (number : Z) : option Z :=
  if negb (is_type Eip4844 (ctx_tx self)) then None
  else tx_blob_hashes (ctx_tx self) !! Z.to_nat number.
Definition Context_block_hash self (requested_number : Z) : option (option Z * Ctx) :=
  let j := ctx_journaled_state self in
  let '(r, db) := db_block_hash (journal_database j) requested_number in
  Some (db_result r (with_journal (mkJournal db (journal_inner j)) self)).
Definition Context_selfdestruct self (address target : Z)
    : option (option (StateLoad SelfDestructResult) * Ctx) :=
  let? (r, j) := Journal_selfdestruct address target (ctx_journaled_state self) in
  Some (db_result r (with_journal j self)).
Definition Context_sstore_skip_cold_load self (address key value : Z) (skip_cold_load : bool)
    : option (result (StateLoad SStoreResult) LoadError * Ctx) :=
  let? (r, j) := Journal_sstore_skip_cold_load address key value skip_cold_load (ctx_journaled_state self) in
  Some (load_result r (with_journal j self)).
Definition Context_sload_skip_cold_load self (address key : Z) (skip_cold_load : bool)
    : option (result (StateLoad Z) LoadError * Ctx) :=
  let? (r, j) := Journal_sload_skip_cold_load address key skip_cold_load (ctx_journaled_state self) in
  Some (load_result r (with_journal j self)).
Definition Context_load_account_info_skip_cold_load self (address : Z) (load_code skip_cold_load : bool)
    : option (result AccountInfoLoad LoadError * Ctx) :=
  let '(r, j) := Journal_load_account_info_skip_cold_load address load_code skip_cold_load
                   (ctx_journaled_state self) in
  Some (load_result r (with_journal j self)).

#[global] Instance Context_Host : Host Ctx := {|
  host_basefee self := block_basefee (ctx_block self);
  host_blob_gasprice self := default 0 (Block_blob_gasprice (ctx_block self));
  host_gas_limit self := block_gas_limit (ctx_block self);
  host_difficulty self := block_difficulty (ctx_block self);
  host_prevrandao self := block_prevrandao (ctx_block self);
  host_block_number self := block_number (ctx_block self);
  host_timestamp self := block_timestamp (ctx_block self);
  host_beneficiary self := block_beneficiary (ctx_block self);
  host_chain_id self := cfg_chain_id (ctx_cfg self);
  host_effective_gas_price := Context_effective_gas_price;
  host_caller self := tx_caller (ctx_tx self);
  host_blob_hash := Context_blob_hash;
  host_max_initcode_size self := Cfg_max_initcode_size (ctx_cfg self);
  host_block_hash := Context_block_hash;
  host_selfdestruct := Context_selfdestruct;
  host_log self l := with_journal (Journal_log l (ctx_journaled_state self)) self;
  host_sstore_skip_cold_load := Context_sstore_skip_cold_load;
  host_sload_skip_cold_load := Context_sload_skip_cold_load;
  host_tstore self a k v := with_journal (Journal_tstore a k v (ctx_journaled_state self)) self;
  host_tload self a k := (Journal_tload a k (ctx_journaled_state self), self);
  host_load_account_info_skip_cold_load := Context_load_account_info_skip_cold_load |}.
End ContextHost.
