(* ===== verification/Validation.v ===== *)
(** Validation of a transaction against the block and the configuration,
    [crates/handler/src/validation.rs], with the initial gas of a transaction
    ([calculate_initial_tx_gas_for_tx] of [interpreter/src/gas/calc.rs]).

    What a valid transaction guarantees to the later phases is proved here:
    its price covers the base fee, its gas limit covers the initial and the
    floor gas, and the block has the values its fork needs. *)
From S2P Require Import Prelude Hardfork Gas JournalInner Env Context.
From stdpp Require Import base numbers list option tactics.
From Stdlib Require Import ZArith Lia.

Local Open Scope Z_scope.

Definition validate_legacy_gas_price (gas_price : Z) (base_fee : option Z) : result unit InvalidTransaction :=
  match base_fee with
  | Some base_fee => if gas_price <? base_fee then Err GasPriceLessThanBasefee else Ok tt
  | None => Ok tt
  end.

Definition validate_priority_fee_tx (max_fee max_priority_fee : Z) (base_fee : option Z)
    (disable_priority_fee_check : bool) : result unit InvalidTransaction :=
  if negb disable_priority_fee_check && (max_fee <? max_priority_fee) then Err PriorityFeeGreaterThanMaxFee
  else match base_fee with
  | Some base_fee =>
      let effective_gas_price := Z.min max_fee (saturating_add 128 base_fee max_priority_fee) in
      if effective_gas_price <? base_fee then Err GasPriceLessThanBasefee else Ok tt
  | None => Ok tt
  end.

(** [blob[0]] of a 32-byte hash. *)
Definition first_byte (blob : Z) : Z := Z.shiftr blob 248.

Definition validate_eip4844_tx (blobs : list Z) (max_blob_fee block_blob_gas_price : Z)
    (max_blobs : option Z) : result unit InvalidTransaction :=
  if max_blob_fee <? block_blob_gas_price then Err (BlobGasPriceGreaterThanMax block_blob_gas_price max_blob_fee)
  else if bool_decide (blobs = []) then Err EmptyBlobs
  else if negb (forallb (fun blob => first_byte blob =? EIP4844_VERSIONED_HASH_VERSION_KZG) blobs)
  then Err BlobVersionNotSupported
  else match max_blobs with
  | Some max_blobs =>
      if max_blobs <? Z.of_nat (length blobs) then Err (TooManyBlobs max_blobs (Z.of_nat (length blobs)))
      else Ok tt
  | None => Ok tt
  end.

Definition is_create (kind : TxKind) : bool := match kind with TxCreate => true | TxCall _ => false end.

Section Validation.
Context {DB E Auth : Type}.
Implicit Types context : Context DB E Auth.

(** The checks that depend on the type of the transaction. *)
Definition validate_tx_type context (spec_id : SpecId) (base_fee : option Z) : result unit InvalidTransaction :=
  let tx := ctx_tx context in
  let disable_priority_fee_check := Cfg_is_priority_fee_check_disabled (ctx_cfg context) in
  let priority := validate_priority_fee_tx (tx_gas_price tx) (default 0 (tx_gas_priority_fee tx)) base_fee
                    disable_priority_fee_check in
  match TransactionType_from_u8 (tx_type tx) with
  | Legacy => validate_legacy_gas_price (tx_gas_price tx) base_fee
  | Eip2930 =>
      if negb (SpecId_is_enabled_in spec_id BERLIN) then Err Eip2930NotSupported
      else validate_legacy_gas_price (tx_gas_price tx) base_fee
  | Eip1559 => if negb (SpecId_is_enabled_in spec_id LONDON) then Err Eip1559NotSupported else priority
  | Eip4844 =>
      if negb (SpecId_is_enabled_in spec_id CANCUN) then Err Eip4844NotSupported
      else
        try! _ := priority in
        validate_eip4844_tx (tx_blob_hashes tx) (tx_max_fee_per_blob_gas tx)
          (default 0 (Block_blob_gasprice (ctx_block context))) (cfg_max_blobs_per_tx (ctx_cfg context))
  | Eip7702Tx =>
      if negb (SpecId_is_enabled_in spec_id PRAGUE) then Err Eip7702NotSupported
      else
        try! _ := priority in
        if (length (tx_authorization_list tx) =? 0)%nat then Err EmptyAuthorizationList else Ok tt
  | Custom => Ok tt
  end.

(** The chain id of the transaction, when one is asked for. *)
Definition validate_chain_id context : result unit InvalidTransaction :=
  let tx := ctx_tx context in
  let cfg := ctx_cfg context in
  if cfg_tx_chain_id_check cfg then
    match tx_chain_id tx with
    | Some chain_id => if negb (chain_id =? cfg_chain_id cfg) then Err InvalidChainId else Ok tt
    | None => match TransactionType_from_u8 (tx_type tx) with Legacy | Custom => Ok tt | _ => Err MissingChainId end
    end
  else Ok tt.

Definition validate_tx_env context (spec_id : SpecId) : result unit InvalidTransaction :=
  let tx := ctx_tx context in
  let cfg := ctx_cfg context in
  let base_fee := if Cfg_is_base_fee_check_disabled cfg then None
                  else Some (block_basefee (ctx_block context)) in
  try! _ := validate_chain_id context in
  let cap := Cfg_tx_gas_limit_cap cfg in
  if cap <? tx_gas_limit tx then Err (TxGasLimitGreaterThanCap (tx_gas_limit tx) cap)
  else
    try! _ := validate_tx_type context spec_id base_fee in
    if negb (Cfg_is_block_gas_limit_disabled cfg) && (block_gas_limit (ctx_block context) <? tx_gas_limit tx)
    then Err CallerGasLimitMoreThanBlock
    else if SpecId_is_enabled_in spec_id SHANGHAI && is_create (tx_kind tx)
            && (Cfg_max_initcode_size cfg <? Z.of_nat (length (tx_data tx)))
    then Err CreateInitCodeSizeLimit
    else Ok tt.

Definition validate_env context : result unit (EVMError E) :=
  let spec := cfg_spec (ctx_cfg context) in
  if SpecId_is_enabled_in spec MERGE && negb (bool_decide (is_Some (block_prevrandao (ctx_block context))))
  then Err (EVMError_Header PrevrandaoNotSet)
  else if SpecId_is_enabled_in spec CANCUN
          && negb (bool_decide (is_Some (block_blob_excess_gas_and_price (ctx_block context))))
  then Err (EVMError_Header ExcessBlobGasNotSet)
  else map_err EVMError_Transaction (validate_tx_env context spec).

(** * Initial gas *)

(** The accounts and storage slots of the access list, counted. *)
Definition access_list_counts (access_list : list (Z * list Z)) : Z * Z :=
  foldl (fun '(num_accounts, num_storage_slots) item =>
           (num_accounts + 1, num_storage_slots + Z.of_nat (length item.2))) (0, 0) access_list.

Definition calculate_initial_tx_gas_for_tx (tx : TxEnv Auth) (spec : SpecId) : option InitialAndFloorGas :=
  let '(accounts, storages) := if negb (is_type Legacy tx) then access_list_counts (tx_access_list tx) else (0, 0) in
  calculate_initial_tx_gas spec (tx_data tx) (is_create (tx_kind tx)) accounts storages
    (Z.of_nat (length (tx_authorization_list tx))).

Definition validate_initial_tx_gas (tx : TxEnv Auth) (spec : SpecId) (is_eip7623_disabled : bool)
    : option (result InitialAndFloorGas InvalidTransaction) :=
  let? gas := calculate_initial_tx_gas_for_tx tx spec in
  let gas := if is_eip7623_disabled then mkInitialAndFloorGas (initial_gas gas) 0 else gas in
  if tx_gas_limit tx <? initial_gas gas then Some (Err (CallGasCostMoreThanGasLimit (initial_gas gas) (tx_gas_limit tx)))
  else if SpecId_is_enabled_in spec PRAGUE && (tx_gas_limit tx <? floor_gas gas)
  then Some (Err (GasFloorMoreThanGasLimit (floor_gas gas) (tx_gas_limit tx)))
  else Some (Ok gas).
End Validation.

(** * What a valid transaction is

    The rules of the EIPs, one field per rule, against which the checks are
    proved complete and sound. *)

Definition has_priority_fee (t : TransactionType) : bool :=
  match t with Eip1559 | Eip4844 | Eip7702Tx => true | _ => false end.
Definition type_fork (t : TransactionType) : SpecId :=
  match t with
  | Legacy | Custom => FRONTIER | Eip2930 => BERLIN | Eip1559 => LONDON | Eip4844 => CANCUN | Eip7702Tx => PRAGUE
  end.

Record valid_blobs (blobs : list Z) (max_fee price : Z) (max_blobs : option Z) : Prop := {
  vb_price : price <= max_fee;
  vb_some : blobs <> [];
  vb_version : Forall (fun b => first_byte b = EIP4844_VERSIONED_HASH_VERSION_KZG) blobs;
  vb_count m : max_blobs = Some m -> Z.of_nat (length blobs) <= m }.

Record valid_type {DB E Auth} (context : Context DB E Auth) (spec : SpecId) : Prop := {
  vt_fork : SpecId_is_enabled_in spec (type_fork (TransactionType_from_u8 (tx_type (ctx_tx context)))) = true;
  vt_price : TransactionType_from_u8 (tx_type (ctx_tx context)) <> Custom ->
    block_basefee (ctx_block context) <= Context_effective_gas_price context;
  vt_priority : has_priority_fee (TransactionType_from_u8 (tx_type (ctx_tx context))) = true ->
    default 0 (tx_gas_priority_fee (ctx_tx context)) <= tx_gas_price (ctx_tx context);
  vt_blobs : TransactionType_from_u8 (tx_type (ctx_tx context)) = Eip4844 ->
    valid_blobs (tx_blob_hashes (ctx_tx context)) (tx_max_fee_per_blob_gas (ctx_tx context))
      (default 0 (Block_blob_gasprice (ctx_block context))) (cfg_max_blobs_per_tx (ctx_cfg context));
  vt_authorizations : TransactionType_from_u8 (tx_type (ctx_tx context)) = Eip7702Tx ->
    tx_authorization_list (ctx_tx context) <> [] }.

Record valid_env {DB E Auth} (context : Context DB E Auth) : Prop := {
  ve_prevrandao : SpecId_is_enabled_in (cfg_spec (ctx_cfg context)) MERGE = true ->
    is_Some (block_prevrandao (ctx_block context));
  ve_blob_gas : SpecId_is_enabled_in (cfg_spec (ctx_cfg context)) CANCUN = true ->
    is_Some (block_blob_excess_gas_and_price (ctx_block context));
  ve_chain_id id : cfg_tx_chain_id_check (ctx_cfg context) = true -> tx_chain_id (ctx_tx context) = Some id ->
    id = cfg_chain_id (ctx_cfg context);
  ve_no_chain_id : cfg_tx_chain_id_check (ctx_cfg context) = true -> tx_chain_id (ctx_tx context) = None ->
    TransactionType_from_u8 (tx_type (ctx_tx context)) ∈ [Legacy; Custom];
  ve_cap : tx_gas_limit (ctx_tx context) <= Cfg_tx_gas_limit_cap (ctx_cfg context);
  ve_block : tx_gas_limit (ctx_tx context) <= block_gas_limit (ctx_block context);
  ve_initcode : SpecId_is_enabled_in (cfg_spec (ctx_cfg context)) SHANGHAI = true ->
    tx_kind (ctx_tx context) = TxCreate ->
    Z.of_nat (length (tx_data (ctx_tx context))) <= Cfg_max_initcode_size (ctx_cfg context);
  ve_type : valid_type context (cfg_spec (ctx_cfg context)) }.

Lemma validate_legacy_gas_price_ok gas_price base_fee :
  validate_legacy_gas_price gas_price (Some base_fee) = Ok tt <-> base_fee <= gas_price.
Proof. cbn. destruct (Z.ltb_spec gas_price base_fee); split; try done; lia. Qed.

Lemma validate_priority_fee_tx_ok max_fee max_priority_fee base_fee :
  validate_priority_fee_tx max_fee max_priority_fee (Some base_fee) false = Ok tt <->
  max_priority_fee <= max_fee /\ base_fee <= Z.min max_fee (saturating_add 128 base_fee max_priority_fee).
Proof.
  unfold validate_priority_fee_tx. cbn [negb andb].
  destruct (Z.ltb_spec max_fee max_priority_fee); [split; [done|lia]|].
  case_if; boolify; split; try done; lia.
Qed.

Lemma validate_eip4844_tx_ok blobs max_fee price max_blobs :
  validate_eip4844_tx blobs max_fee price max_blobs = Ok tt <-> valid_blobs blobs max_fee price max_blobs.
Proof.
  unfold validate_eip4844_tx. destruct (Z.ltb_spec max_fee price) as [H|H]; [split; [done|intros []; lia]|].
  case_bool_decide as Hb; [split; [done|by intros []]|].
  destruct (forallb _ blobs) eqn:Hv; cbn [negb].
  - assert (Forall (fun b => first_byte b = EIP4844_VERSIONED_HASH_VERSION_KZG) blobs) as Hv'.
    { apply list.Forall_forall. intros b Hin. apply Z.eqb_eq.
      exact (proj1 (forallb_forall _ _) Hv b (proj1 (list_elem_of_In _ _) Hin)). }
    destruct max_blobs as [m|]; [|split; [by split|done]].
    destruct (Z.ltb_spec m (Z.of_nat (length blobs))).
    + split; [done|]. intros [_ _ _ Hc]. specialize (Hc _ eq_refl). lia.
    + split; [|done]. split; try done. by intros ? [= <-].
  - split; [done|]. intros [_ _ Hf _]. apply not_true_iff_false in Hv. destruct Hv.
    apply forallb_forall. intros b Hin. apply Z.eqb_eq.
    exact (proj1 (list.Forall_forall _ _) Hf b (proj2 (list_elem_of_In _ _) Hin)).
Qed.

Section Correct.
Context {DB E Auth : Type} (context : Context DB E Auth).
Context (Htx : tx_ok (ctx_tx context)) (Hblock : block_ok (ctx_block context)).

(** The minimum the priority check computes is the effective price. *)
Lemma priority_price_effective :
  is_type Legacy (ctx_tx context) || is_type Eip2930 (ctx_tx context) = false ->
  block_basefee (ctx_block context) <=
    Z.min (tx_gas_price (ctx_tx context))
      (saturating_add 128 (block_basefee (ctx_block context)) (default 0 (tx_gas_priority_fee (ctx_tx context)))) <->
  block_basefee (ctx_block context) <= Context_effective_gas_price context.
Proof.
  intros Hn. unfold Context_effective_gas_price, Transaction_effective_gas_price. rewrite Hn.
  destruct (tx_gas_priority_fee (ctx_tx context)) as [p|]; [done|].
  destruct (bok_basefee _ Hblock). cbn. unfold saturating_add, modulus in *. lia.
Qed.

Lemma valid_type_iff spec t :
  TransactionType_from_u8 (tx_type (ctx_tx context)) = t ->
  valid_type context spec <->
  SpecId_is_enabled_in spec (type_fork t) = true /\
  (t <> Custom -> block_basefee (ctx_block context) <= Context_effective_gas_price context) /\
  (has_priority_fee t = true ->
    default 0 (tx_gas_priority_fee (ctx_tx context)) <= tx_gas_price (ctx_tx context)) /\
  (t = Eip4844 -> valid_blobs (tx_blob_hashes (ctx_tx context)) (tx_max_fee_per_blob_gas (ctx_tx context))
      (default 0 (Block_blob_gasprice (ctx_block context))) (cfg_max_blobs_per_tx (ctx_cfg context))) /\
  (t = Eip7702Tx -> tx_authorization_list (ctx_tx context) <> []).
Proof. intros <-. split; [intros []|intros (? & ? & ? & ? & ?)]; by try split_and!. Qed.

(** The checks of a transaction that pays a priority fee. *)
Lemma priority_ok t :
  TransactionType_from_u8 (tx_type (ctx_tx context)) = t -> has_priority_fee t = true ->
  validate_priority_fee_tx (tx_gas_price (ctx_tx context)) (default 0 (tx_gas_priority_fee (ctx_tx context)))
    (Some (block_basefee (ctx_block context))) false = Ok tt <->
  default 0 (tx_gas_priority_fee (ctx_tx context)) <= tx_gas_price (ctx_tx context) /\
  block_basefee (ctx_block context) <= Context_effective_gas_price context.
Proof.
  intros Ht Hp. rewrite validate_priority_fee_tx_ok, priority_price_effective; [done|].
  revert Ht. unfold is_type, TransactionType_from_u8, TransactionType_as_u8.
  repeat case_if; intros <-; try discriminate Hp; done.
Qed.

Lemma legacy_ok t :
  TransactionType_from_u8 (tx_type (ctx_tx context)) = t -> t = Legacy \/ t = Eip2930 ->
  validate_legacy_gas_price (tx_gas_price (ctx_tx context)) (Some (block_basefee (ctx_block context))) = Ok tt <->
  block_basefee (ctx_block context) <= Context_effective_gas_price context.
Proof.
  intros Ht Hp. rewrite validate_legacy_gas_price_ok.
  unfold Context_effective_gas_price, Transaction_effective_gas_price.
  replace (is_type Legacy _ || is_type Eip2930 _) with true; [done|].
  revert Ht. unfold is_type, TransactionType_from_u8, TransactionType_as_u8.
  repeat case_if; intros <-; naive_solver.
Qed.

Lemma try_ok {A B Er} (m : result A Er) (k : A -> result B Er) b :
  (try! x := m in k x) = Ok b <-> exists a, m = Ok a /\ k a = Ok b.
Proof. destruct m; naive_solver. Qed.

Lemma validate_tx_type_ok spec :
  validate_tx_type context spec (Some (block_basefee (ctx_block context))) = Ok tt <-> valid_type context spec.
Proof.
  rewrite (valid_type_iff spec _ eq_refl). pose proof (legacy_ok _ eq_refl) as Hl.
  pose proof (priority_ok _ eq_refl) as Hp. revert Hl Hp. unfold validate_tx_type.
  generalize (TransactionType_from_u8 (tx_type (ctx_tx context))). intros t Hl Hp.
  destruct t; cbn [type_fork has_priority_fee] in *; unfold Cfg_is_priority_fee_check_disabled;
    lazymatch goal with |- context [SpecId_is_enabled_in spec ?f] =>
      first [replace (SpecId_is_enabled_in spec f) with true by (destruct spec; reflexivity)
            |destruct (SpecId_is_enabled_in spec f) eqn:?; cbn [negb]; [|naive_solver]] end.
  - rewrite Hl by auto. naive_solver.
  - rewrite Hl by auto. naive_solver.
  - rewrite Hp by auto. naive_solver.
  - rewrite try_ok. setoid_rewrite validate_eip4844_tx_ok.
    split; [intros ([] & Hq & ?); apply Hp in Hq; naive_solver|]. intros (? & ? & ? & ? & ?).
    exists tt. rewrite Hp by done. naive_solver.
  - rewrite try_ok. destruct (tx_authorization_list (ctx_tx context)); cbn [length Nat.eqb].
    { naive_solver. }
    split; [intros ([] & Hq & ?); apply Hp in Hq; naive_solver|]. intros (? & ? & ? & ? & ?).
    exists tt. rewrite Hp by done. naive_solver.
  - naive_solver.
Qed.
Lemma validate_chain_id_ok :
  validate_chain_id context = Ok tt <->
  (forall id, cfg_tx_chain_id_check (ctx_cfg context) = true -> tx_chain_id (ctx_tx context) = Some id ->
    id = cfg_chain_id (ctx_cfg context)) /\
  (cfg_tx_chain_id_check (ctx_cfg context) = true -> tx_chain_id (ctx_tx context) = None ->
    TransactionType_from_u8 (tx_type (ctx_tx context)) ∈ [Legacy; Custom]).
Proof.
  assert (forall t, match t with Legacy | Custom => Ok tt | _ => Err MissingChainId end = Ok tt <->
    t ∈ [Legacy; Custom]) as Hmiss.
  { intros t. rewrite list_elem_of_In. destruct t; cbn; naive_solver. }
  unfold validate_chain_id. destruct (cfg_tx_chain_id_check _); [|naive_solver].
  destruct (tx_chain_id _) as [id|]; [|rewrite Hmiss; naive_solver].
  destruct (Z.eqb_spec id (cfg_chain_id (ctx_cfg context))); cbn [negb]; naive_solver.
Qed.

Lemma validate_tx_env_ok spec :
  validate_tx_env context spec = Ok tt <->
  validate_chain_id context = Ok tt /\
  tx_gas_limit (ctx_tx context) <= Cfg_tx_gas_limit_cap (ctx_cfg context) /\
  valid_type context spec /\
  tx_gas_limit (ctx_tx context) <= block_gas_limit (ctx_block context) /\
  (SpecId_is_enabled_in spec SHANGHAI = true -> tx_kind (ctx_tx context) = TxCreate ->
    Z.of_nat (length (tx_data (ctx_tx context))) <= Cfg_max_initcode_size (ctx_cfg context)).
Proof.
  unfold validate_tx_env, Cfg_is_base_fee_check_disabled, Cfg_is_block_gas_limit_disabled. rewrite try_ok.
  rewrite <- validate_tx_type_ok. cbn [negb andb]. generalize (validate_chain_id context). intros chain.
  destruct (Z.ltb_spec (Cfg_tx_gas_limit_cap (ctx_cfg context)) (tx_gas_limit (ctx_tx context))); [naive_solver lia|].
  setoid_rewrite try_ok.
  destruct (Z.ltb_spec (block_gas_limit (ctx_block context)) (tx_gas_limit (ctx_tx context))); [naive_solver lia|].
  destruct chain as [[]|]; [|naive_solver].
  generalize (validate_tx_type context spec (Some (block_basefee (ctx_block context)))). intros [[]|]; [|naive_solver].
  destruct (SpecId_is_enabled_in spec SHANGHAI), (tx_kind (ctx_tx context)); cbn [is_create andb].
  2-4: naive_solver.
  destruct (Z.ltb_spec (Cfg_max_initcode_size (ctx_cfg context)) (Z.of_nat (length (tx_data (ctx_tx context))))) as [Hi|Hi].
  - split; [naive_solver|]. intros (_ & _ & _ & _ & Hc). specialize (Hc eq_refl eq_refl). lia.
  - split; [by intros _|]. intros _. by exists tt; split; [|exists tt].
Qed.

Lemma validate_env_correct_aux : validate_env context = Ok tt <-> valid_env context.
Proof.
  assert (forall A (o : option A), negb (bool_decide (is_Some o)) = false <-> is_Some o) as Hsome.
  { intros A o. rewrite negb_false_iff. apply bool_decide_eq_true. }
  transitivity ((SpecId_is_enabled_in (cfg_spec (ctx_cfg context)) MERGE = true ->
      is_Some (block_prevrandao (ctx_block context))) /\
    (SpecId_is_enabled_in (cfg_spec (ctx_cfg context)) CANCUN = true ->
      is_Some (block_blob_excess_gas_and_price (ctx_block context))) /\
    validate_tx_env context (cfg_spec (ctx_cfg context)) = Ok tt).
  - unfold validate_env. pose proof (Hsome _ (block_prevrandao (ctx_block context))) as H1.
    pose proof (Hsome _ (block_blob_excess_gas_and_price (ctx_block context))) as H2.
    destruct (SpecId_is_enabled_in _ MERGE), (SpecId_is_enabled_in _ CANCUN); cbn [andb];
      repeat match goal with |- context [negb ?b] => destruct (negb b) end;
      destruct (validate_tx_env _ _) as [[]|]; cbn; naive_solver.
  - rewrite validate_tx_env_ok, validate_chain_id_ok. split; [|intros []; by split_and!].
    intros (? & ? & (? & ?) & ? & ? & ? & ?). by split.
Qed.

(** C22: [validate_env] accepts a transaction exactly when these rules hold: the
    block has its [prevrandao] from the merge and its blob gas from Cancun on; the
    chain id, where it is checked, is the chain's, and is missing only in a legacy or
    custom transaction; the gas limit fits the block and the cap; the type is enabled
    by the fork; except for a custom type the effective price covers the base fee, and
    a priority fee is at most the maximal fee; a blob transaction has at least one and
    not too many blobs, of the right version, and pays the blob price; a delegating
    one has authorizations; a creation does not exceed the size of initcode from
    Shanghai on.  The rule of EIP-4844 and EIP-7702 that such a transaction is not a
    creation is not among them: the code does not check it
    ([typed_creation_accepted]). *)
Theorem validate_env_correct : validate_env context = Ok tt <-> valid_env context.
Proof. apply validate_env_correct_aux. Qed.
End Correct.

(** The initial gas of a call with fewer than [2^32] bytes is defined, and a
    transaction that passes the check covers it and the floor. *)
Lemma validate_initial_tx_gas_total {Auth} (tx : TxEnv Auth) spec disabled :
  Z.of_nat (length (tx_data tx)) < 2 ^ 32 -> is_Some (validate_initial_tx_gas tx spec disabled).
Proof.
  intros Hlen. unfold validate_initial_tx_gas, calculate_initial_tx_gas_for_tx.
  destruct (if negb (is_type Legacy tx) then _ else _) as [accounts storages].
  rewrite initial_tx_gas_formula_aux by done. cbv zeta. repeat case_if; eauto.
Qed.

Lemma validate_initial_tx_gas_covers {Auth} (tx : TxEnv Auth) spec disabled gas :
  validate_initial_tx_gas tx spec disabled = Some (Ok gas) ->
  initial_gas gas <= tx_gas_limit tx /\ (0 <= tx_gas_limit tx -> floor_gas gas <= tx_gas_limit tx).
Proof.
  unfold validate_initial_tx_gas. destruct (calculate_initial_tx_gas_for_tx tx spec) as [g|] eqn:Hg; [|done].
  assert (SpecId_is_enabled_in spec PRAGUE = false -> floor_gas g = 0) as Hf.
  { intros Hp. revert Hg. unfold calculate_initial_tx_gas_for_tx, calculate_initial_tx_gas.
    destruct (if negb (is_type Legacy tx) then _ else _). rewrite Hp. repeat case_match; naive_solver. }
  cbv zeta. set (g' := if disabled then _ else g).
  assert (SpecId_is_enabled_in spec PRAGUE = false -> floor_gas g' = 0) as Hf' by (destruct disabled; naive_solver).
  destruct (Z.ltb_spec (tx_gas_limit tx) (initial_gas g')); [done|].
  destruct (SpecId_is_enabled_in spec PRAGUE); cbn [andb].
  - destruct (Z.ltb_spec (tx_gas_limit tx) (floor_gas g')); [done|]. by intros [= <-].
  - intros [= <-]. split; [done|]. rewrite Hf' by done. done.
Qed.

Module Valid.
(** A blob transaction at the base fee, on a Cancun chain. *)
Definition kzg_hash : Z := Z.shiftl 1 248 + 7.
Definition ctx : Context unit unit unit :=
  mkContext
    (mkBlockEnv 1 0xC0 1000 30000000 9 0 (Some 5) (Some (mkBlobExcessGasAndPrice 0 1)))
    (mkTxEnv 3 0xAA 21000 10 (TxCall 0xBB) 5 [] 0 (Some 1) [] (Some 1) [kzg_hash] 3 [])
    (CfgEnv_new_with_spec CANCUN)
    (mkJournal tt JournalInner_new) LocalContext_default (Ok tt) false.
Lemma ctx_block_ok : block_ok (ctx_block ctx).
Proof.
  split; cbn; try (unfold in_range, modulus; lia); intros ? [= <-]; cbn; unfold in_range, modulus; lia.
Defined.

Lemma ctx_tx_ok : tx_ok (ctx_tx ctx).
Proof.
  split; cbn; try (unfold in_range, modulus; lia); [intros ? [= <-]; unfold in_range, modulus; lia|].
  apply Forall_cons_2; [|apply Forall_nil_2]. split; [by compute|by compute].
Defined.

(** A blob transaction, and a delegating one, that creates a contract is accepted. *)
Definition blob_creation : Context unit unit unit :=
  mkContext (ctx_block ctx) (mkTxEnv 3 0xAA 21000 10 TxCreate 5 [] 0 (Some 1) [] (Some 1) [kzg_hash] 3 [])
    (CfgEnv_new_with_spec CANCUN) (mkJournal tt JournalInner_new) LocalContext_default (Ok tt) false.
Definition delegating_creation : Context unit unit unit :=
  mkContext (ctx_block ctx) (mkTxEnv 4 0xAA 21000 10 TxCreate 5 [] 0 (Some 1) [] (Some 1) [] 0 [tt])
    (CfgEnv_new_with_spec PRAGUE) (mkJournal tt JournalInner_new) LocalContext_default (Ok tt) false.
Theorem typed_creation_accepted :
  validate_env blob_creation = Ok tt /\ validate_env delegating_creation = Ok tt.
Proof. by vm_compute. Qed.

Lemma validate_env_correct_witness :
  valid_env ctx /\ (validate_env ctx = Ok tt <-> valid_env ctx).
Proof.
  pose proof (validate_env_correct ctx ctx_block_ok) as Hiff. split; [|exact Hiff].
  apply Hiff. vm_compute. reflexivity.
Defined.
End Valid.
