(* ===== verification/Frame.v ===== *)
(** Call frames, [crates/handler/src/frame.rs] and [frame_data.rs], with the
    outcomes of [interpreter/src/interpreter_action] and the precompiles as
    [crates/handler/src/precompile_provider.rs] provides them.

    A frame that is not running leaves the shared buffer to [LocalContext]:
    the buffer of its interpreter is empty, and the handler lends it the shared
    one while it runs.  An operation that only fails in the database returns a
    [result]; a panic is [None].  The addresses of created contracts are
    hashes computed by the [alloy] library. *)
From S2P Require Import Prelude Hardfork Bytecode State Database WarmAddresses Precompile JournalEntry JournalInner Gas InstructionResult Stack SharedMemory FrameStack Interpreter Env Host Context.
From stdpp Require Import base numbers list option tactics gmap strings.
From Stdlib Require Import ZArith Lia.

Local Open Scope Z_scope.

(** [Address::create] and [Address::create2]. *)
Class CreateAddress := {
  address_create : Z -> Z -> Z;
  address_create2 : Z -> Z -> Z -> Z }.

(** * Outcomes *)

Record CallOutcome := mkCallOutcome { co_result : InterpreterResult; co_memory_offset : Z * Z }.
Definition CallOutcome_memory_start (self : CallOutcome) : Z := (co_memory_offset self).1.
Definition CallOutcome_memory_length (self : CallOutcome) : Z := range_len (co_memory_offset self).

Record CreateOutcome := mkCreateOutcome { cro_result : InterpreterResult; cro_address : option Z }.

Inductive FrameData := FD_Call (return_memory_range : Z * Z) | FD_Create (created_address : Z).
Definition FrameData_is_call (self : FrameData) : bool :=
  match self with FD_Call _ => true | FD_Create _ => false end.
Definition FrameData_is_create (self : FrameData) : bool :=
  match self with FD_Call _ => false | FD_Create _ => true end.
Definition FrameData_created_address (self : FrameData) : option Z :=
  match self with FD_Call _ => None | FD_Create created_address => Some created_address end.

Inductive FrameResult := FR_Call (outcome : CallOutcome) | FR_Create (outcome : CreateOutcome).

Inductive Output := Output_Call (bytes : list Z) | Output_Create (bytes : list Z) (address : option Z).
Definition Output_into_data (self : Output) : list Z :=
  match self with Output_Call bytes | Output_Create bytes _ => bytes end.

Definition FrameResult_interpreter_result (self : FrameResult) : InterpreterResult :=
  match self with FR_Call outcome => co_result outcome | FR_Create outcome => cro_result outcome end.
Definition FrameResult_output (self : FrameResult) : Output :=
  match self with
  | FR_Call outcome => Output_Call (ir_output (co_result outcome))
  | FR_Create outcome => Output_Create (ir_output (cro_result outcome)) (cro_address outcome)
  end.
Definition FrameResult_gas (self : FrameResult) : Gas := ir_gas (FrameResult_interpreter_result self).
(** A write through [gas_mut]. *)
Definition FrameResult_set_gas (gas : Gas) (self : FrameResult) : FrameResult :=
  let set r := mkInterpreterResult (ir_result r) (ir_output r) gas in
  match self with
  | FR_Call outcome => FR_Call (mkCallOutcome (set (co_result outcome)) (co_memory_offset outcome))
  | FR_Create outcome => FR_Create (mkCreateOutcome (set (cro_result outcome)) (cro_address outcome))
  end.

Inductive ItemOrResult (ITEM RES : Type) := Item (item : ITEM) | Result (result : RES).
Arguments Item {ITEM RES}.
Arguments Result {ITEM RES}.
Definition ItemOrResult_map_frame {ITEM RES OITEM} (f : ITEM -> OITEM) (self : ItemOrResult ITEM RES)
    : ItemOrResult OITEM RES :=
  match self with Item item => Item (f item) | Result result => Result result end.
Definition ItemOrResult_is_result {ITEM RES} (self : ItemOrResult ITEM RES) : bool :=
  match self with Item _ => false | Result _ => true end.

Record FrameInit := mkFrameInit { fi_depth : nat; fi_memory : SharedMemory; fi_frame_input : FrameInput }.

(** * Frames *)

Definition CALL_STACK_LIMIT : nat := Z.to_nat 1024.

Record EthFrame := mkEthFrame {
  ef_data : FrameData; ef_input : FrameInput; ef_depth : nat; ef_checkpoint : JournalCheckpoint;
  ef_interpreter : Interpreter; ef_is_finished : bool }.

Definition set_frame_interpreter (i : Interpreter) (self : EthFrame) : EthFrame :=
  mkEthFrame (ef_data self) (ef_input self) (ef_depth self) (ef_checkpoint self) i (ef_is_finished self).
Definition EthFrame_set_finished (finished : bool) (self : EthFrame) : EthFrame :=
  mkEthFrame (ef_data self) (ef_input self) (ef_depth self) (ef_checkpoint self) (ef_interpreter self) finished.

Definition Interpreter_invalid : Interpreter :=
  Interpreter_new SharedMemory_new [] (ExtBytecode_new Bytecode_default)
    (mkInputsImpl 0 None 0 CallInput_default 0) false SpecId_default u64_max.
Definition EthFrame_invalid : EthFrame :=
  mkEthFrame (FD_Call (0, 0)) FI_Empty 0 (mkJournalCheckpoint 0 0) Interpreter_invalid false.

Definition EthFrame_clear (data : FrameData) (input : FrameInput) (depth : nat) (memory : SharedMemory)
    (bytecode : ExtBytecode) (inputs : InputsImpl) (is_static : bool) (spec_id : SpecId) (gas_limit : Z)
    (checkpoint : JournalCheckpoint) (self : EthFrame) : EthFrame :=
  mkEthFrame data input depth checkpoint
    (Interpreter_clear memory [] bytecode inputs is_static spec_id gas_limit (ef_interpreter self)) false.

Definition with_memory (m : SharedMemory) (i : Interpreter) : Interpreter :=
  mkInterpreter (i_bytecode i) (i_gas i) (i_stack i) (i_return_data i) m (i_buffer i) (i_input i)
    (i_runtime_flag i).
Definition with_return_data (bytes : list Z) (i : Interpreter) : Interpreter :=
  mkInterpreter (i_bytecode i) (i_gas i) (i_stack i) bytes (i_memory i) (i_buffer i) (i_input i)
    (i_runtime_flag i).

(** * Precompiles *)

Section Precompiles.
Context `{Crypto}.

Record EthPrecompiles := mkEthPrecompiles { ep_precompiles : Precompiles; ep_spec : SpecId }.

Definition EthPrecompiles_default : EthPrecompiles :=
  mkEthPrecompiles (Precompiles_new (PrecompileSpecId_from_spec_id SpecId_default)) SpecId_default.
Definition EthPrecompiles_warm_addresses (self : EthPrecompiles) : gset Z :=
  Precompiles_addresses (ep_precompiles self).
Definition EthPrecompiles_contains (self : EthPrecompiles) (address : Z) : bool :=
  Precompiles_contains (ep_precompiles self) address.

Definition EthPrecompiles_set_spec (spec : SpecId) (self : EthPrecompiles) : bool * EthPrecompiles :=
  if bool_decide (spec = ep_spec self) then (false, self)
  else (true, mkEthPrecompiles (Precompiles_new (PrecompileSpecId_from_spec_id spec)) spec).

Context {DB E Auth : Type}.
Abbreviation Ctx := (Context DB E Auth).
Implicit Types context : Ctx.

(** The bytes of the input: a range outside the shared buffer is empty. *)
Definition input_bytes context (input : CallInput) : list Z :=
  match input with
  | SharedBuffer range => default [] (LocalContext_shared_memory_buffer_slice range (ctx_local context))
  | CallInput_Bytes bytes => bytes
  end.

Definition EthPrecompiles_run (self : EthPrecompiles) context (inputs : CallInputs)
    : option (result (option InterpreterResult) string * Ctx) :=
  match Precompiles_get (ep_precompiles self) (ci_bytecode_address inputs) with
  | None => Some (Ok None, context)
  | Some precompile =>
      let gas := Gas_new (ci_gas_limit inputs) in
      match Precompile_execute precompile (input_bytes context (ci_input inputs)) (ci_gas_limit inputs) with
      | Ok output =>
          let '(underflow, gas) := Gas_record_cost (gas_used output) gas in
          if negb underflow then None
          else Some (Ok (Some (mkInterpreterResult (if reverted output then IR_Revert else IR_Return)
                                 (out_bytes output) gas)), context)
      | Err (Fatal e) => Some (Err e, context)
      | Err e =>
          let result := if PrecompileError_is_oog e then IR_PrecompileOOG else IR_PrecompileError in
          let context :=
            if negb (PrecompileError_is_oog e) && (Journal_depth (ctx_journaled_state context) =? 1)%nat
            then with_local (LocalContext_set_precompile_error_context (PrecompileError_to_string e)
                               (ctx_local context)) context
            else context in
          Some (Ok (Some (mkInterpreterResult result [] gas)), context)
      end
  end.
End Precompiles.

(** * Making frames *)

Section Frame.
Context `{BitVec, Keccak, Crypto, CreateAddress, VecGrow} {DB E Auth : Type} `{!Database DB E}.
Abbreviation Ctx := (Context DB E Auth).

(** The new frame, in its slot of the pool, or the outcome of a call that
    needs none. *)
Definition FrameOrResult : Type := ItemOrResult (FrameToken * FrameStack EthFrame) FrameResult.

(** An operation of the journal, run in the context. *)
Definition in_journal {A} (m : option (A * Journal DB)) (ctx : Ctx) : option (A * Ctx) :=
  let? (a, j) := m in Some (a, with_journal j ctx).
(** [?] on an error of the database. *)
Definition try_journal {A} (m : option (result A E * Journal DB)) (ctx : Ctx)
    : option (result A (ContextError E) * Ctx) :=
  in_journal (run_map_err ContextError_Db m) ctx.
Definition revert_journal (checkpoint : JournalCheckpoint) (ctx : Ctx) : option Ctx :=
  let? j := Journal_checkpoint_revert checkpoint (ctx_journaled_state ctx) in Some (with_journal j ctx).
Definition commit_journal (ctx : Ctx) : Ctx :=
  with_journal (Journal_checkpoint_commit (ctx_journaled_state ctx)) ctx.
(** Commits what succeeded, reverts what did not. *)
Definition close_journal (ok : bool) (checkpoint : JournalCheckpoint) (ctx : Ctx) : option Ctx :=
  if ok then Some (commit_journal ctx) else revert_journal checkpoint ctx.

(** The closure [return_result] of [make_call_frame]. *)
Definition call_result (inputs : CallInputs) (result : InterpreterResult) : FrameOrResult :=
  Result (FR_Call (mkCallOutcome result (ci_return_memory_offset inputs))).
Definition call_return (inputs : CallInputs) (instruction_result : InstructionResult) : FrameOrResult :=
  call_result inputs (mkInterpreterResult instruction_result [] (Gas_new (ci_gas_limit inputs))).

(** The transfer of the value; the error it gives, if any. *)
Definition call_transfer (inputs : CallInputs) (ctx : Ctx) : option (option TransferError * Ctx) :=
  match ci_value inputs with
  | Transfer value =>
      in_journal (Journal_transfer_loaded (ci_caller inputs) (ci_target_address inputs) value
                    (ctx_journaled_state ctx)) ctx
  | Apparent _ => Some (None, ctx)
  end.

(** The code to run and its hash. *)
Definition call_bytecode (inputs : CallInputs) (ctx : Ctx) : option (result (Bytecode * Z) (ContextError E) * Ctx) :=
  match ci_known_bytecode inputs with
  | Some (hash, code) => Some (Ok (code, hash), ctx)
  | None =>
      run! (account, ctx) := try_journal (Journal_load_account_with_code (ci_bytecode_address inputs)
                                            (ctx_journaled_state ctx)) ctx in
      let i := info (data account) in
      Some (Ok (default Bytecode_default (code i), code_hash i), ctx)
  end.

Definition make_call_frame (this : OutFrame) (pool : FrameStack EthFrame) (ctx : Ctx) (precompiles : EthPrecompiles)
    (depth : nat) (memory : SharedMemory) (inputs : CallInputs)
    : option (result FrameOrResult (ContextError E) * Ctx) :=
  if (CALL_STACK_LIMIT <? depth)%nat then Some (Ok (call_return inputs IR_CallTooDeep), ctx)
  else
    let '(checkpoint, journal) := Journal_checkpoint (ctx_journaled_state ctx) in
    let ctx := with_journal journal ctx in
    let? (error, ctx) := call_transfer inputs ctx in
    match error with
    | Some i =>
        let? ctx := revert_journal checkpoint ctx in
        Some (Ok (call_return inputs (InstructionResult_from_transfer_error i)), ctx)
    | None =>
        let interpreter_input :=
          mkInputsImpl (ci_target_address inputs) (Some (ci_bytecode_address inputs)) (ci_caller inputs)
            (ci_input inputs) (CallValue_get (ci_value inputs)) in
        run! (output, ctx) := run_map_err ContextError_Custom (EthPrecompiles_run precompiles ctx inputs) in
        match output with
        | Some result =>
            let? ctx := close_journal (InstructionResult_is_ok (ir_result result)) checkpoint ctx in
            Some (Ok (call_result inputs result), ctx)
        | None =>
            run! (bytecode, ctx) := call_bytecode inputs ctx in
            if Bytecode_is_empty bytecode.1 then Some (Ok (call_return inputs IR_Stop), commit_journal ctx)
            else
              let? item := init_slot EthFrame_invalid
                (EthFrame_clear (FD_Call (ci_return_memory_offset inputs)) (FI_Call inputs) depth memory
                   (ExtBytecode_new_with_hash bytecode.1 bytecode.2) interpreter_input (ci_is_static inputs)
                   (cfg_spec (ctx_cfg ctx)) (ci_gas_limit inputs) checkpoint) this pool in
              Some (Ok (Item item), ctx)
        end
    end.

(** The closure [return_error] of [make_create_frame]. *)
Definition create_return (inputs : CreateInputs) (e : InstructionResult) : FrameOrResult :=
  Result (FR_Create (mkCreateOutcome (mkInterpreterResult e [] (Gas_new (cr_gas_limit inputs))) None)).

(** The address and, for [CREATE2], the hash of the init code. *)
Definition create_address (inputs : CreateInputs) (old_nonce : Z) : Z * option Z :=
  match cr_scheme inputs with
  | Create => (address_create (cr_caller inputs) old_nonce, None)
  | Create2 salt =>
      let init_code_hash := keccak256 (cr_init_code inputs) in
      (address_create2 (cr_caller inputs) salt init_code_hash, Some init_code_hash)
  | CreateCustom address => (address, None)
  end.

Definition make_create_frame (this : OutFrame) (pool : FrameStack EthFrame) (ctx : Ctx) (depth : nat)
    (memory : SharedMemory) (inputs : CreateInputs)
    : option (result FrameOrResult (ContextError E) * Ctx) :=
  let spec := cfg_spec (ctx_cfg ctx) in
  if (CALL_STACK_LIMIT <? depth)%nat then Some (Ok (create_return inputs IR_CallTooDeep), ctx)
  else
    run! (caller_info, ctx) := try_journal (Journal_load_account_mut (cr_caller inputs)
                                              (ctx_journaled_state ctx)) ctx in
    let caller_info := data caller_info in
    if balance (info (ja_account caller_info)) <? cr_value inputs
    then Some (Ok (create_return inputs IR_OutOfFunds), ctx)
    else
      let old_nonce := nonce (info (ja_account caller_info)) in
      let '(bumped, caller_info) := JournaledAccount_bump_nonce caller_info in
      let ctx := with_journal (Journal_write_back caller_info (ctx_journaled_state ctx)) ctx in
      if negb bumped then Some (Ok (create_return inputs IR_Return), ctx)
      else
        let '(created_address, init_code_hash) := create_address inputs old_nonce in
        run! (_, ctx) := try_journal (Journal_load_account created_address (ctx_journaled_state ctx)) ctx in
        let? (created, ctx) :=
          in_journal (Journal_create_account_checkpoint (cr_caller inputs) created_address (cr_value inputs)
                        spec (ctx_journaled_state ctx)) ctx in
        match created with
        | Err e => Some (Ok (create_return inputs (InstructionResult_from_transfer_error e)), ctx)
        | Ok checkpoint =>
            let? bytecode := Bytecode_new_legacy (cr_init_code inputs) in
            let interpreter_input :=
              mkInputsImpl created_address None (cr_caller inputs) (CallInput_Bytes []) (cr_value inputs) in
            let? item := init_slot EthFrame_invalid
              (EthFrame_clear (FD_Create created_address) (FI_Create inputs) depth memory
                 (ExtBytecode_new_with_optional_hash bytecode init_code_hash) interpreter_input false spec
                 (cr_gas_limit inputs) checkpoint) this pool in
            Some (Ok (Item item), ctx)
        end.

Definition init_with_context (this : OutFrame) (pool : FrameStack EthFrame) (ctx : Ctx) (precompiles : EthPrecompiles)
    (frame_init : FrameInit) : option (result FrameOrResult (ContextError E) * Ctx) :=
  match fi_frame_input frame_init with
  | FI_Call inputs =>
      make_call_frame this pool ctx precompiles (fi_depth frame_init) (fi_memory frame_init) inputs
  | FI_Create inputs =>
      make_create_frame this pool ctx (fi_depth frame_init) (fi_memory frame_init) inputs
  | FI_Empty => None
  end.

(** * Leaving frames *)

Definition return_create (journal : Journal DB) (checkpoint : JournalCheckpoint)
    (interpreter_result : InterpreterResult) (address max_code_size : Z) (is_eip3541_disabled : bool)
    (spec_id : SpecId) : option (InterpreterResult * Journal DB) :=
  let output := ir_output interpreter_result in
  let gas := ir_gas interpreter_result in
  let fail result gas :=
    let? journal := Journal_checkpoint_revert checkpoint journal in
    Some (mkInterpreterResult result output gas, journal) in
  if negb (InstructionResult_is_ok (ir_result interpreter_result)) then fail (ir_result interpreter_result) gas
  else if negb is_eip3541_disabled && SpecId_is_enabled_in spec_id LONDON
          && bool_decide (head output = Some 0xEF)
  then fail IR_CreateContractStartingWithEF gas
  else if SpecId_is_enabled_in spec_id SPURIOUS_DRAGON && (max_code_size <? Z.of_nat (length output))
  then fail IR_CreateContractSizeLimit gas
  else
    let gas_for_code := wrapping_mul 64 (Z.of_nat (length output)) CODEDEPOSIT in
    let '(recorded, gas) := Gas_record_cost gas_for_code gas in
    if negb recorded && SpecId_is_enabled_in spec_id HOMESTEAD then fail IR_OutOfGas gas
    else
      let output := if recorded then output else [] in
      let journal := Journal_checkpoint_commit journal in
      let? bytecode := Bytecode_new_legacy output in
      let? journal := Journal_set_code address bytecode journal in
      Some (mkInterpreterResult IR_Return output gas, journal).

(** It never returns an error. *)
Definition process_next_action (self : EthFrame) (ctx : Ctx) (next_action : InterpreterAction)
    : option (ItemOrResult FrameInit FrameResult * EthFrame * Ctx) :=
  match next_action with
  | NewFrame frame_input =>
      let? (child, memory) := SharedMemory_new_child_context (i_memory (ef_interpreter self))
                                (shared_memory_buffer (ctx_local ctx)) in
      Some (Item (mkFrameInit (ef_depth self + 1) child frame_input),
            set_frame_interpreter (with_memory memory (ef_interpreter self)) self, ctx)
  | Return interpreter_result =>
      match ef_data self with
      | FD_Call return_memory_range =>
          let? ctx := close_journal (InstructionResult_is_ok (ir_result interpreter_result))
                        (ef_checkpoint self) ctx in
          Some (Result (FR_Call (mkCallOutcome interpreter_result return_memory_range)), self, ctx)
      | FD_Create created_address =>
          let? (interpreter_result, ctx) :=
            in_journal (return_create (ctx_journaled_state ctx) (ef_checkpoint self) interpreter_result
              created_address (Cfg_max_code_size (ctx_cfg ctx)) (Cfg_is_eip3541_disabled (ctx_cfg ctx))
              (cfg_spec (ctx_cfg ctx))) ctx in
          Some (Result (FR_Create (mkCreateOutcome interpreter_result (Some created_address))), self, ctx)
      end
  end.

(** [core::mem::replace(ctx.error(), Ok(()))]. *)
Definition take_error (ctx : Ctx) : result unit (ContextError E) * Ctx := (ctx_error ctx, with_error (Ok tt) ctx).

(** The outcome of a call, put into the caller's interpreter. *)
Definition insert_call_outcome (outcome : CallOutcome) (i : Interpreter) (buf : list Z)
    : option (Interpreter * list Z) :=
  let ins_result := ir_result (co_result outcome) in
  let out_gas := ir_gas (co_result outcome) in
  let output := ir_output (co_result outcome) in
  let i := with_return_data output i in
  let target_len := Z.min (CallOutcome_memory_length outcome) (Z.of_nat (length output)) in
  if bool_decide (ins_result = IR_FatalExternalError) then None
  else
    let i := with_stack (Stack_push (if InstructionResult_is_ok ins_result then 1 else 0) (i_stack i)).2 i in
    let? (i, buf) :=
      if InstructionResult_is_ok_or_revert ins_result then
        let i := with_gas (Gas_erase_cost (gas_remaining out_gas) (i_gas i)) i in
        let? buf := SharedMemory_set (Z.to_nat (CallOutcome_memory_start outcome))
                      (take (Z.to_nat target_len) (i_return_data i)) (i_memory i) buf in
        Some (i, buf)
      else Some (i, buf) in
    let i := if InstructionResult_is_ok ins_result
             then with_gas (Gas_record_refund (gas_refunded out_gas) (i_gas i)) i else i in
    Some (i, buf).

Definition insert_create_outcome (outcome : CreateOutcome) (i : Interpreter) : option Interpreter :=
  let instruction_result := ir_result (cro_result outcome) in
  let out_gas := ir_gas (cro_result outcome) in
  let i := with_return_data
    (if bool_decide (instruction_result = IR_Revert) then ir_output (cro_result outcome) else []) i in
  if bool_decide (instruction_result = IR_FatalExternalError) then None
  else
    let gas := if InstructionResult_is_ok_or_revert instruction_result
               then Gas_erase_cost (gas_remaining out_gas) (i_gas i) else i_gas i in
    let '(stack_item, gas) :=
      if InstructionResult_is_ok instruction_result
      then (default 0 (cro_address outcome), Gas_record_refund (gas_refunded out_gas) gas) else (0, gas) in
    Some (with_stack (Stack_push stack_item (i_stack i)).2 (with_gas gas i)).

Definition EthFrame_return_result (self : EthFrame) (ctx : Ctx) (result : FrameResult)
    : option (Prelude.result unit (ContextError E) * (EthFrame * Ctx)) :=
  let i := ef_interpreter self in
  let '(memory, buf) := SharedMemory_free_child_context (i_memory i) (shared_memory_buffer (ctx_local ctx)) in
  let i := with_memory memory i in
  let ctx := with_local (mkLocalContext buf (precompile_error_message (ctx_local ctx))) ctx in
  let '(error, ctx) := take_error ctx in
  match error with
  | Err e => Some (Err e, (set_frame_interpreter i self, ctx))
  | Ok _ =>
      let? (i, buf) :=
        match result with
        | FR_Call outcome => insert_call_outcome outcome i buf
        | FR_Create outcome => let? i := insert_create_outcome outcome i in Some (i, buf)
        end in
      Some (Ok tt, (set_frame_interpreter i self,
                    with_local (mkLocalContext buf (precompile_error_message (ctx_local ctx))) ctx))
  end.
End Frame.
