(* ===== verification/PreExecution.v ===== *)
(** What happens before the first frame, [crates/handler/src/pre_execution.rs]:
    the caller pays for the gas, the warm accounts are set, and the
    authorizations of EIP-7702 are applied, one after the other or recovered
    in parallel.

    An authorization is anything with the [AuthorizationTr] interface; its
    signature is recovered by the library behind it.  The threads of the
    parallel variant send what they recovered through a channel: the order in
    which it arrives is a parameter. *)
From S2P Require Import Prelude Hardfork Bytecode State Database WarmAddresses Precompile JournalEntry JournalInner Gas Env Context Frame.
From stdpp Require Import base numbers list option tactics gmap strings.
From Stdlib Require Import ZArith Lia.

Local Open Scope Z_scope.

Class AuthorizationTr (Auth : Type) := {
  auth_authority : Auth -> option Z;
  auth_chain_id : Auth -> Z;
  auth_nonce : Auth -> Z;
  auth_address : Auth -> Z }.

(** * The caller *)

Definition validate_account_nonce_and_code (caller_info : AccountInfo) (tx_nonce : Z)
    (is_eip3607_disabled is_nonce_check_disabled : bool) : result unit InvalidTransaction :=
  let bytecode := default Bytecode_default (code caller_info) in
  if negb is_eip3607_disabled && negb (Bytecode_is_empty bytecode) && negb (Bytecode_is_eip7702 bytecode)
  then Err RejectCallerWithCode
  else if negb is_nonce_check_disabled then
    if nonce caller_info <? tx_nonce then Err (NonceTooHigh tx_nonce (nonce caller_info))
    else if tx_nonce <? nonce caller_info then Err (NonceTooLow tx_nonce (nonce caller_info))
    else Ok tt
  else Ok tt.

Section PreExecution.
Context `{BitVec, Keccak, Crypto} {DB E Auth : Type} `{!Database DB E}.
Abbreviation Ctx := (Context DB E Auth).

Definition validate_account_nonce_and_code_with_components (caller_info : AccountInfo) (tx : TxEnv Auth)
    (cfg : CfgEnv) : result unit InvalidTransaction :=
  validate_account_nonce_and_code caller_info (tx_nonce tx) (Cfg_is_eip3607_disabled cfg)
    (Cfg_is_nonce_check_disabled cfg).

(** The new balance of the caller; [None] is the panic of [expect]. *)
Definition calculate_caller_fee (bal : Z) (tx : TxEnv Auth) (block : BlockEnv) (cfg : CfgEnv)
    : option (result Z InvalidTransaction) :=
  let basefee := block_basefee block in
  let blob_price := default 0 (Block_blob_gasprice block) in
  let is_balance_check_disabled := Cfg_is_balance_check_disabled cfg in
  match (if negb is_balance_check_disabled then Transaction_ensure_enough_balance bal tx else Ok tt) with
  | Err e => Some (Err e)
  | Ok _ =>
      match Transaction_effective_balance_spending basefee blob_price tx with
      | Err _ => None
      | Ok effective_balance_spending =>
          let gas_balance_spending := wrapping_sub 256 effective_balance_spending (tx_value tx) in
          let new_balance := saturating_sub bal gas_balance_spending in
          Some (Ok (if is_balance_check_disabled then Z.max new_balance (tx_value tx) else new_balance))
      end
  end.

(** [?] on an error of the database, in the handler. *)
Definition try_db {A} (m : option (result A E * Journal DB)) (ctx : Ctx) : option (result A (EVMError E) * Ctx) :=
  in_journal (run_map_err EVMError_Database m) ctx.
(** The end of the borrow of a journaled account. *)
Definition store_account (account : JournaledAccount) (ctx : Ctx) : Ctx :=
  with_journal (Journal_write_back account (ctx_journaled_state ctx)) ctx.

Definition validate_against_state_and_deduct_caller (ctx : Ctx) : option (result unit (EVMError E) * Ctx) :=
  let tx := ctx_tx ctx in
  run! (load, ctx) := try_db (Journal_load_account_with_code_mut (tx_caller tx) (ctx_journaled_state ctx)) ctx in
  let caller := data load in
  match validate_account_nonce_and_code_with_components (info (ja_account caller)) tx (ctx_cfg ctx) with
  | Err e => Some (Err (EVMError_Transaction e), ctx)
  | Ok _ =>
      let? fee := calculate_caller_fee (balance (info (ja_account caller))) tx (ctx_block ctx) (ctx_cfg ctx) in
      match fee with
      | Err e => Some (Err (EVMError_Transaction e), ctx)
      | Ok new_balance =>
          let caller := JournaledAccount_set_balance new_balance caller in
          let caller := match tx_kind tx with
                        | TxCall _ => (JournaledAccount_bump_nonce caller).2
                        | TxCreate => caller
                        end in
          Some (Ok tt, store_account caller ctx)
      end
  end.

(** * Warm accounts *)

(** [map.entry(address).or_default().extend(slots)] for each item. *)
Definition access_list_map (access_list : list (Z * list Z)) : gmap Z (gset Z) :=
  foldl (fun map item =>
           <[item.1 := default ∅ (map !! item.1) ∪ list_to_set item.2]> map) ∅ access_list.

(** The journal of [load_accounts], for the precompiles of any provider: whether
    [set_spec] changed them, and their addresses. *)
Definition warm_accounts (ctx : Ctx) (precompiles_changed : bool) (addresses : gset Z) : Ctx :=
  let spec := cfg_spec (ctx_cfg ctx) in
  let journal := Journal_set_spec_id spec (ctx_journaled_state ctx) in
  let empty_warmed_precompiles := bool_decide (Journal_precompile_addresses journal = ∅) in
  let journal := if precompiles_changed || empty_warmed_precompiles
                 then Journal_warm_precompiles addresses journal
                 else journal in
  let journal := if SpecId_is_enabled_in spec SHANGHAI
                 then Journal_warm_coinbase_account (block_beneficiary (ctx_block ctx)) journal
                 else journal in
  let journal := if negb (is_type Legacy (ctx_tx ctx))
                 then Journal_warm_access_list (access_list_map (tx_access_list (ctx_tx ctx))) journal
                 else journal in
  with_journal journal ctx.

Definition load_accounts (ctx : Ctx) (precompiles : EthPrecompiles) : Ctx * EthPrecompiles :=
  let '(precompiles_changed, precompiles) := EthPrecompiles_set_spec (cfg_spec (ctx_cfg ctx)) precompiles in
  (warm_accounts ctx precompiles_changed (EthPrecompiles_warm_addresses precompiles), precompiles).

(** * Authorizations *)

Context `{!AuthorizationTr Auth}.

(** Steps 1 to 3: the authority of a signature for this chain. *)
Definition recovered_authority (chain_id : Z) (authorization : Auth) : option Z :=
  let auth_chain_id := auth_chain_id authorization in
  if negb (auth_chain_id =? 0) && negb (auth_chain_id =? chain_id) then None
  else if auth_nonce authorization =? modulus 64 - 1 then None
  else auth_authority authorization.

(** Steps 4 to 9: whether the account counts for the refund. *)
Definition apply_authorization (chain_id : Z) (authorization : Auth) (ctx : Ctx)
    : option (result bool (EVMError E) * Ctx) :=
  match recovered_authority chain_id authorization with
  | None => Some (Ok false, ctx)
  | Some authority =>
      run! (load, ctx) := try_db (Journal_load_account_with_code_mut authority (ctx_journaled_state ctx)) ctx in
      let authority_acc := data load in
      let account := ja_account authority_acc in
      if match code (info account) with
         | Some bytecode => negb (Bytecode_is_empty bytecode) && negb (Bytecode_is_eip7702 bytecode)
         | None => false
         end then Some (Ok false, ctx)
      else if negb (auth_nonce authorization =? nonce (info account)) then Some (Ok false, ctx)
      else
        let refunded := negb (Account_is_empty account && Account_is_loaded_as_not_existing_not_touched account) in
        let authority_acc := JournaledAccount_delegate (auth_address authorization) authority_acc in
        Some (Ok refunded, store_account authority_acc ctx)
  end.

Fixpoint apply_authorizations (chain_id : Z) (authorizations : list Auth) (refunded_accounts : Z) (ctx : Ctx)
    : option (result Z (EVMError E) * Ctx) :=
  match authorizations with
  | [] => Some (Ok refunded_accounts, ctx)
  | authorization :: authorizations =>
      run! (refunded, ctx) := apply_authorization chain_id authorization ctx in
      apply_authorizations chain_id authorizations
        (if refunded : bool then refunded_accounts + 1 else refunded_accounts) ctx
  end.

(** The refund; [arrival] is the order in which the parallel recoveries arrive. *)
Definition apply_eip7702_auth_list (arrival : list Auth -> list Auth) (ctx : Ctx)
    : option (result Z (EVMError E) * Ctx) :=
  let tx := ctx_tx ctx in
  if negb (is_type Eip7702Tx tx) then Some (Ok 0, ctx)
  else
    let authorizations := tx_authorization_list tx in
    let authorizations := if ctx_par_7702 ctx then arrival authorizations else authorizations in
    run! (refunded_accounts, ctx) := apply_authorizations (cfg_chain_id (ctx_cfg ctx)) authorizations 0 ctx in
    Some (Ok (wrapping_mul 64 refunded_accounts (PER_EMPTY_ACCOUNT_COST - PER_AUTH_BASE_COST)), ctx).
End PreExecution.

(** * The order of the recoveries *)

(** With one thread the authorizations are applied in the order of the
    transaction, whatever the channel would do. *)
Lemma sequential_ignores_arrival `{BitVec, Keccak} {DB E Auth : Type} `{!Database DB E, !AuthorizationTr Auth}
    arrival (ctx : Context DB E Auth) :
  ctx_par_7702 ctx = false -> apply_eip7702_auth_list arrival ctx = apply_eip7702_auth_list id ctx.
Proof. intros Hp. unfold apply_eip7702_auth_list. by rewrite Hp. Qed.

Module AuthOrder.
#[local] Existing Instance Lsb0BitVec.
#[local] Existing Instance EmptyDB_Database.
#[local] Instance null_keccak : Keccak := fun _ => 0.
(** An authorization is its authority, its nonce and its target. *)
#[local] Instance plain_authorization : AuthorizationTr (Z * Z * Z) :=
  {| auth_authority a := Some a.1.1; auth_chain_id _ := 0; auth_nonce a := a.1.2; auth_address a := a.2 |}.

(** The account 7 delegates twice. *)
Definition twice : Context EmptyDB Empty_set (Z * Z * Z) :=
  mkContext (mkBlockEnv 1 9 1 30000000 7 0 (Some 5) (Some (mkBlobExcessGasAndPrice 0 1)))
    (mkTxEnv 4 0xAA 100000 10 (TxCall 0xBB) 0 [] 0 (Some 1) [] (Some 1) [] 0 [(7, 0, 0x10); (7, 1, 0x20)])
    (CfgEnv_new_with_spec PRAGUE) (mkJournal empty_db JournalInner_new) LocalContext_default (Ok tt) true.

Definition delegation (r : option (result Z (EVMError Empty_set) * Context EmptyDB Empty_set (Z * Z * Z)))
    : option (option Bytecode * Z) :=
  let? (_, ctx) := r in
  let? account := j_state (journal_inner (ctx_journaled_state ctx)) !! 7 in
  Some (code (info account), nonce (info account)).

(** The parallel variant of [apply_eip7702_auth_list] is not determined by
    the transaction: when the recoveries of two authorizations of one account
    arrive in the other order, the account ends with another delegation and
    another nonce than the sequential variant gives it. *)
Theorem eip7702_parallel_order_matters :
  exists arrival : list (Z * Z * Z) -> list (Z * Z * Z),
    (forall l, arrival l ≡ₚ l) /\
    delegation (apply_eip7702_auth_list id twice) = Some (Some (Bytecode_new_eip7702 0x20), 2) /\
    delegation (apply_eip7702_auth_list arrival twice) = Some (Some (Bytecode_new_eip7702 0x10), 1).
Proof.
  exists (@rev _). split_and!; [intros l; symmetry; apply Permutation_rev|vm_compute; reflexivity..].
Qed.
End AuthOrder.
