(* ===== verification/PostExecution.v ===== *)
(** What happens after the last frame, [crates/handler/src/post_execution.rs]:
    the refund and the floor of the gas used, the reimbursement of the caller,
    the reward of the beneficiary, and the result of the transaction
    ([ExecutionResult] of [context/interface/src/result.rs]). *)
From S2P Require Import Prelude Hardfork Bytecode State Database JournalEntry JournalInner Gas InstructionResult Interpreter Env Context Frame PreExecution.
From stdpp Require Import base numbers list option tactics strings.
From Stdlib Require Import ZArith Lia.

Local Open Scope Z_scope.

Definition eip7623_check_gas_floor (gas : Gas) (init_and_floor_gas : InitialAndFloorGas) : Gas :=
  if Gas_spent_sub_refunded gas <? floor_gas init_and_floor_gas
  then Gas_set_refund 0 (Gas_set_spent (floor_gas init_and_floor_gas) gas)
  else gas.

Definition refund (spec : SpecId) (gas : Gas) (eip7702_refund : Z) : Gas :=
  let gas := Gas_record_refund eip7702_refund gas in
  Gas_set_final_refund (SpecId_is_enabled_in spec LONDON) gas.

Inductive ExecutionResult :=
| Success (reason : SuccessReason) (gas_used gas_refunded : Z) (logs : list Log) (output : Output)
| Execution_Revert (gas_used : Z) (output : list Z)
| Halt (reason : HaltReason) (gas_used : Z).

Section PostExecution.
Context `{BitVec, Keccak} {DB E Auth : Type} `{!Database DB E}.
Abbreviation Ctx := (Context DB E Auth).

(** [journal.load_account_mut(address)?.incr_balance(amount)]. *)
Definition incr_account_balance (address amount : Z) (ctx : Ctx) : option (result unit E * Ctx) :=
  run! (load, ctx) := in_journal (Journal_load_account_mut address (ctx_journaled_state ctx)) ctx in
  Some (Ok tt, store_account (JournaledAccount_incr_balance amount (data load)).2 ctx).

Definition reimbursement (ctx : Ctx) (gas : Gas) (additional_refund : Z) : Z :=
  wrapping_add 256
    (saturating_mul 128 (Context_effective_gas_price ctx)
       (wrapping_add 64 (gas_remaining gas) (wrap 64 (gas_refunded gas)))) additional_refund.
Definition reimburse_caller (ctx : Ctx) (gas : Gas) (additional_refund : Z) : option (result unit E * Ctx) :=
  incr_account_balance (tx_caller (ctx_tx ctx)) (reimbursement ctx gas additional_refund) ctx.

Definition reward (ctx : Ctx) (gas : Gas) : Z :=
  let basefee := block_basefee (ctx_block ctx) in
  let effective_gas_price := Context_effective_gas_price ctx in
  let coinbase_gas_price := if SpecId_is_enabled_in (cfg_spec (ctx_cfg ctx)) LONDON
                            then saturating_sub effective_gas_price basefee else effective_gas_price in
  wrapping_mul 128 coinbase_gas_price (Gas_used gas).
Definition reward_beneficiary (ctx : Ctx) (gas : Gas) : option (result unit E * Ctx) :=
  incr_account_balance (block_beneficiary (ctx_block ctx)) (reward ctx gas) ctx.

(** [None] is the panic on an internal result. *)
Definition output (ctx : Ctx) (result : FrameResult) : option (ExecutionResult * Ctx) :=
  let gas_refunded := wrap 64 (gas_refunded (FrameResult_gas result)) in
  let gas_used := Gas_used (FrameResult_gas result) in
  let output := FrameResult_output result in
  let instruction_result := ir_result (FrameResult_interpreter_result result) in
  let '(logs, journal) := Journal_take_logs (ctx_journaled_state ctx) in
  let ctx := with_journal journal ctx in
  match SuccessOrHalt_from_result instruction_result with
  | SOH_Success reason => Some (Success reason gas_used gas_refunded logs output, ctx)
  | SOH_Revert => Some (Execution_Revert gas_used (Output_into_data output), ctx)
  | SOH_Halt reason =>
      if bool_decide (instruction_result = IR_PrecompileError) then
        let '(message, local) := LocalContext_take_precompile_error_context (ctx_local ctx) in
        let ctx := with_local local ctx in
        match message with
        | Some message => Some (Halt (HR_PrecompileErrorWithContext message) gas_used, ctx)
        | None => Some (Halt reason gas_used, ctx)
        end
      else Some (Halt reason gas_used, ctx)
  | _ => None
  end.
End PostExecution.
