(* ===== verification/Macros.v ===== *)
(** The language instructions are written in: the instruction context of
    [crates/interpreter/src/instruction_context.rs] and the macros of
    [crates/interpreter/src/instructions/macros.rs].

    An instruction is a computation over the interpreter and the host.  It
    can panic or run into undefined behaviour (the outer [None]), return early
    (the inner [None], what the macros do after halting the interpreter) or
    finish with a value.  [U256] operations that are not in the prelude are
    those of the [ruint] crate, on integers. *)
From S2P Require Import Prelude Hardfork Bytecode JournalEntry Gas InstructionResult Stack SharedMemory Interpreter Host.
From stdpp Require Import base numbers list option tactics.
From Stdlib Require Import ZArith Lia.

Local Open Scope Z_scope.

Definition Instr (H A : Type) : Type := Interpreter -> H -> option (option A * Interpreter * H).

#[global] Instance instr_ret H : MRet (Instr H) := fun A a i h => Some (Some a, i, h).
#[global] Instance instr_bind H : MBind (Instr H) := fun A B k m i h =>
  match m i h with
  | Some (Some a, i, h) => k a i h
  | Some (None, i, h) => Some (None, i, h)
  | None => None
  end.

Section Macros.
Context {H : Type}.

(** * Primitive computations *)

(** [return]. *)
Definition early {A} : Instr H A := fun i h => Some (None, i, h).
Definition panic {A} : Instr H A := fun _ _ => None.
Definition interpreter : Instr H Interpreter := fun i h => Some (Some i, i, h).
(** An update of the interpreter that may panic. *)
Definition update (f : Interpreter -> option Interpreter) : Instr H unit := fun i h =>
  let? i := f i in Some (Some tt, i, h).
(** A read of the interpreter that may panic. *)
Definition read {A} (f : Interpreter -> option A) : Instr H A := fun i h =>
  let? a := f i in Some (Some a, i, h).
Definition host : Instr H H := fun i h => Some (Some h, i, h).
(** A call of a host method. *)
Definition host_call {A} (f : H -> option (A * H)) : Instr H A := fun i h =>
  let? (a, h) := f h in Some (Some a, i, h).

(** Halts and returns. *)
Definition halt_with {A} (f : Interpreter -> option Interpreter) : Instr H A := update f ;; early.

(** * Macros *)

Definition spec_id : Instr H SpecId := read (fun i => Some (rf_spec_id (i_runtime_flag i))).
Definition is_static : Instr H bool := read (fun i => Some (rf_is_static (i_runtime_flag i))).
Definition remaining : Instr H Z := read (fun i => Some (gas_remaining (i_gas i))).
Definition target_address : Instr H Z := read (fun i => Some (in_target_address (i_input i))).

Definition require_non_staticcall : Instr H unit :=
  s ← is_static;
  if (s : bool) then halt_with (Interpreter_halt IR_StateChangeDuringStaticCall) else mret tt.

Definition check (min : SpecId) : Instr H unit :=
  s ← spec_id;
  if SpecId_is_enabled_in s min then mret tt else halt_with Interpreter_halt_not_activated.

(** [gas.record_cost], returning whether it succeeded. *)
Definition record_cost (cost : Z) : Instr H bool := fun i h =>
  let '(ok, g) := Gas_record_cost cost (i_gas i) in Some (Some ok, with_gas g i, h).

Definition gas (cost : Z) : Instr H unit :=
  ok ← record_cost cost;
  if (ok : bool) then mret tt else halt_with Interpreter_halt_oog.

Definition gas_or_fail (cost : option Z) : Instr H unit :=
  match cost with
  | Some gas_used => gas gas_used
  | None => halt_with Interpreter_halt_oog
  end.

Definition resize_memory_with_gas (offset len : Z) : Instr H bool := fun i h =>
  let? (ok, g, buf) := resize_memory offset len (i_gas i) (i_memory i) (i_buffer i) in
  Some (Some ok, with_buffer buf (with_gas g i), h).

Definition resize_memory_or_halt (offset len : Z) : Instr H unit :=
  ok ← resize_memory_with_gas offset len;
  if (ok : bool) then mret tt else halt_with Interpreter_halt_memory_oog.

Definition popn (n : nat) : Instr H (list Z) := fun i h =>
  match Stack_popn n (i_stack i) with
  | Some (xs, s) => Some (Some xs, with_stack s i, h)
  | None => halt_with Interpreter_halt_underflow i h
  end.

(** The popped values and the one left on top. *)
Definition popn_top (n : nat) : Instr H (list Z * Z) := fun i h =>
  if (Stack_len (i_stack i) <? 1 + n)%nat then halt_with Interpreter_halt_underflow i h
  else
    let? (xs, top, s) := Stack_popn_top n (i_stack i) in
    Some (Some (xs, top), with_stack s i, h).

(** [*top = value]. *)
Definition set_top (value : Z) : Instr H unit :=
  update (fun i => Some (with_stack (Stack_set_top value (i_stack i)) i)).

Definition push (value : Z) : Instr H unit := fun i h =>
  let '(ok, s) := Stack_push value (i_stack i) in
  (if (ok : bool) then mret tt else halt_with Interpreter_halt_overflow) (with_stack s i) h.

(** [U256] to integers: [x[1], x[2]] and [x[3]] are zero exactly below 2^64. *)
Definition as_u64_saturated (v : Z) : Z := if v <? modulus 64 then v else u64_max.
Definition as_usize_saturated (v : Z) : Z := as_u64_saturated v.
Definition as_usize_or_fail_with (reason : InstructionResult) (v : Z) : Instr H Z :=
  if v <? modulus 64 then mret v else halt_with (Interpreter_halt reason).
Definition as_usize_or_fail (v : Z) : Instr H Z := as_usize_or_fail_with IR_InvalidOperandOOG v.

(** The array patterns of [popn!] and [popn_top!]. *)
Definition popn1 : Instr H Z := xs ← popn 1; match xs with [a] => mret a | _ => panic end.
Definition popn2 : Instr H (Z * Z) := xs ← popn 2; match xs with [a; b] => mret (a, b) | _ => panic end.
Definition popn3 : Instr H (Z * Z * Z) :=
  xs ← popn 3; match xs with [a; b; c] => mret (a, b, c) | _ => panic end.
Definition popn4 : Instr H (Z * Z * Z * Z) :=
  xs ← popn 4; match xs with [a; b; c; d] => mret (a, b, c, d) | _ => panic end.
Definition popn_top0 : Instr H Z :=
  '(xs, top) ← popn_top 0; match xs with [] => mret top | _ => panic end.
Definition popn_top1 : Instr H (Z * Z) :=
  '(xs, top) ← popn_top 1; match xs with [a] => mret (a, top) | _ => panic end.
Definition popn_top2 : Instr H (Z * Z * Z) :=
  '(xs, top) ← popn_top 2; match xs with [a; b] => mret (a, b, top) | _ => panic end.

(** [memory.slice_len(offset, len)], [memory.set] and [memory.set_data]. *)
Definition memory_slice_len (offset len : Z) : Instr H (list Z) :=
  read (fun i => SharedMemory_slice_len (Z.to_nat offset) (Z.to_nat len) (i_memory i) (i_buffer i)).
Definition memory_set (offset : Z) (bytes : list Z) : Instr H unit :=
  update (fun i =>
    let? buf := SharedMemory_set (Z.to_nat offset) bytes (i_memory i) (i_buffer i) in
    Some (with_buffer buf i)).
Definition memory_set_data (memory_offset data_offset len : Z) (bytes : list Z) : Instr H unit :=
  update (fun i =>
    let? buf := SharedMemory_set_data (Z.to_nat memory_offset) (Z.to_nat data_offset) (Z.to_nat len) bytes
                  (i_memory i) (i_buffer i) in
    Some (with_buffer buf i)).
End Macros.

(** [berlin_load_account!]. *)
Definition berlin_load_account {H} `{!Host H} (address : Z) (load_code : bool) : Instr H AccountInfoLoad :=
  gas WARM_STORAGE_READ_COST ;;
  r ← remaining;
  let skip_cold_load := r <? COLD_ACCOUNT_ACCESS_COST_ADDITIONAL in
  account ← host_call (fun h => host_load_account_info_skip_cold_load h address load_code skip_cold_load);
  match account with
  | Ok account =>
      (if ail_is_cold account then gas COLD_ACCOUNT_ACCESS_COST_ADDITIONAL else mret tt) ;;
      mret account
  | Err Load_ColdLoadSkipped => halt_with Interpreter_halt_oog
  | Err Load_DBError => halt_with Interpreter_halt_fatal
  end.

(** * Words ([ruint]) *)

Definition u256_of_bool (b : bool) : Z := if b then 1 else 0.
(** [add_mod] and [mul_mod]: zero for a zero modulus. *)
Definition add_mod (x y n : Z) : Z := if n =? 0 then 0 else (x + y) mod n.
Definition mul_mod (x y n : Z) : Z := if n =? 0 then 0 else (x * y) mod n.
(** [pow] wraps; by repeated squaring. *)
Fixpoint u256_pow_pos (x : Z) (e : positive) : Z :=
  match e with
  | xH => wrap 256 x
  | xO e => let y := u256_pow_pos x e in wrapping_mul 256 y y
  | xI e => let y := u256_pow_pos x e in wrapping_mul 256 x (wrapping_mul 256 y y)
  end.
Definition u256_pow (x e : Z) : Z := match e with Zpos e => u256_pow_pos x e | _ => wrap 256 1 end.
(** [!x]. *)
Definition u256_not (x : Z) : Z := Z.lxor x (modulus 256 - 1).
(** [<<], for a shift below 256. *)
Definition u256_shl (x shift : Z) : Z := wrap 256 (Z.shiftl x shift).
(** [arithmetic_shr] fills with the sign bit. *)
Definition arithmetic_shr (x shift : Z) : Z := wrap 256 (Z.shiftr (signed 256 x) shift).
(** [byte(i)], little endian. *)
Definition u256_byte (x i : Z) : Z := Z.land (Z.shiftr x (8 * i)) 255.
Definition u256_leading_zeros (x : Z) : Z := if x =? 0 then 256 else 255 - Z.log2 x.

(** [IntoAddress]: the low 160 bits; [into_word] keeps the value. *)
Definition into_address (x : Z) : Z := x mod modulus 160.
