(* ===== verification/Words.v ===== *)
(** Lemmas on 256-bit words: the operations of the instructions stay in range,
    and what the less obvious ones compute. *)
From S2P Require Import Prelude Bytecode JournalEntry Gas I256 Macros.
From stdpp Require Import base numbers list option tactics.
From Stdlib Require Import ZArith Lia.

Local Open Scope Z_scope.

Create HintDb words.

Lemma in_range_testbit w x :
  0 <= w -> 0 <= x -> (forall k, w <= k -> Z.testbit x k = false) -> in_range w x.
Proof.
  intros Hw Hx Hb. assert (x = x mod modulus w) as ->; [|by apply wrap_range].
  symmetry. apply Z.bits_inj'. intros k Hk. unfold modulus. destruct (Z.lt_ge_cases k w).
  - by rewrite Z.mod_pow2_bits_low.
  - rewrite Z.mod_pow2_bits_high by lia. by rewrite Hb.
Qed.

Lemma in_range_high w x k : in_range w x -> 0 <= w <= k -> Z.testbit x k = false.
Proof.
  intros [? Hx] ?. destruct (Z.eq_dec x 0) as [->|]; [by rewrite Z.bits_0|].
  apply Z.bits_above_log2; [done|]. enough (Z.log2 x < w) by lia. apply Z.log2_lt_pow2; [lia|done].
Qed.

Lemma land_range w x y : 0 <= w -> in_range w x -> in_range w y -> in_range w (Z.land x y).
Proof.
  intros Hw Hx Hy. apply in_range_testbit; [done|apply Z.land_nonneg; left; apply Hx|].
  intros k Hk. by rewrite Z.land_spec, (in_range_high w x).
Qed.
Lemma lor_range w x y : 0 <= w -> in_range w x -> in_range w y -> in_range w (Z.lor x y).
Proof.
  intros Hw Hx Hy. apply in_range_testbit; [done|apply Z.lor_nonneg; split; [apply Hx|apply Hy]|].
  intros k Hk. by rewrite Z.lor_spec, (in_range_high w x), (in_range_high w y).
Qed.
Lemma lxor_range w x y : 0 <= w -> in_range w x -> in_range w y -> in_range w (Z.lxor x y).
Proof.
  intros Hw Hx Hy. apply in_range_testbit; [done|apply Z.lxor_nonneg; split; intros _; [apply Hy|apply Hx]|].
  intros k Hk. by rewrite Z.lxor_spec, (in_range_high w x), (in_range_high w y).
Qed.

Lemma u256_0 : u256 0. Proof. unfold in_range, modulus. lia. Qed.
Lemma u256_max : u256 (modulus 256 - 1). Proof. unfold in_range, modulus. lia. Qed.
Lemma u256_small x : 0 <= x < 2 ^ 64 -> u256 x.
Proof. unfold in_range, modulus. lia. Qed.
Lemma u256_of_bool_range b : u256 (u256_of_bool b).
Proof. destruct b; unfold in_range, modulus; cbn; lia. Qed.
Lemma wrap_u256 x : u256 (wrap 256 x). Proof. by apply wrap_range. Qed.

Lemma div_u256 x y : u256 x -> u256 y -> y <> 0 -> u256 (x / y).
Proof.
  intros [? ?] [? ?] ?. split; [apply Z.div_pos; lia|]. apply Z.div_lt_upper_bound; [lia|]. nia.
Qed.
Lemma mod_u256 x y : u256 y -> y <> 0 -> u256 (x mod y).
Proof. intros [? ?] ?. pose proof (Z.mod_pos_bound x y ltac:(lia)). split; lia. Qed.
Lemma add_mod_range x y n : u256 n -> u256 (add_mod x y n).
Proof. intros. unfold add_mod. destruct (Z.eqb_spec n 0); [apply u256_0|by apply mod_u256]. Qed.
Lemma mul_mod_range x y n : u256 n -> u256 (mul_mod x y n).
Proof. intros. unfold mul_mod. destruct (Z.eqb_spec n 0); [apply u256_0|by apply mod_u256]. Qed.

Lemma u256_not_range x : u256 x -> u256 (u256_not x).
Proof. intros. apply lxor_range; [done..|apply u256_max]. Qed.
Lemma u256_shl_range x s : u256 (u256_shl x s). Proof. apply wrap_u256. Qed.
Lemma arithmetic_shr_range x s : u256 (arithmetic_shr x s). Proof. apply wrap_u256. Qed.
Lemma shiftr_range x s : u256 x -> 0 <= s -> u256 (Z.shiftr x s).
Proof.
  intros [? ?] ?. rewrite Z.shiftr_div_pow2 by done. split; [apply Z.div_pos; lia|].
  apply Z.div_lt_upper_bound; [lia|]. pose proof (Z.pow_pos_nonneg 2 s ltac:(lia) ltac:(lia)). nia.
Qed.
Lemma u256_byte_u8 x i : u8 (u256_byte x i).
Proof.
  unfold u256_byte. change 255 with (Z.ones 8). rewrite Z.land_ones by lia. by apply Z.mod_pos_bound.
Qed.
Lemma u256_byte_range x i : u256 (u256_byte x i).
Proof. pose proof (u256_byte_u8 x i) as [? ?]. unfold in_range, modulus in *. lia. Qed.
Lemma leading_zeros_bound x : u256 x -> 0 <= u256_leading_zeros x <= 256.
Proof.
  intros [? ?]. unfold u256_leading_zeros. destruct (Z.eqb_spec x 0); [lia|].
  assert (Z.log2 x < 256) by (apply Z.log2_lt_pow2; [lia|done]). pose proof (Z.log2_nonneg x). lia.
Qed.
Lemma leading_zeros_range x : u256 x -> u256 (u256_leading_zeros x).
Proof. intros Hx. pose proof (leading_zeros_bound x Hx). apply u256_small. lia. Qed.

Lemma i256_div_range x y : u256 x -> u256 y -> u256 (i256_div x y).
Proof. intros. rewrite i256_div_correct by done. apply wrap_u256. Qed.
Lemma i256_mod_range x y : u256 x -> u256 y -> u256 (i256_mod x y).
Proof. intros. rewrite i256_mod_correct by done. destruct (y =? 0); [apply u256_0|apply wrap_u256]. Qed.

Lemma u256_pow_pos_spec x e : u256_pow_pos x e = wrap 256 (x ^ Z.pos e).
Proof.
  unfold wrap. induction e as [e IH|e IH|]; cbn [u256_pow_pos].
  - unfold wrapping_mul, wrap. rewrite IH, <- Z.mul_mod, Zmult_mod_idemp_r by done.
    f_equal. rewrite Pos2Z.inj_xI, Z.pow_add_r, Z.pow_mul_r, Z.pow_1_r, <- Z.pow_mul_r by lia.
    replace (2 * Z.pos e) with (Z.pos e + Z.pos e) by lia. rewrite Z.pow_add_r by lia. lia.
  - unfold wrapping_mul, wrap. rewrite IH, <- Z.mul_mod by done. f_equal.
    rewrite Pos2Z.inj_xO. replace (2 * Z.pos e) with (Z.pos e + Z.pos e) by lia.
    by rewrite Z.pow_add_r by lia.
  - by rewrite Z.pow_1_r.
Qed.

(** Repeated squaring is exponentiation modulo 2^256. *)
Lemma u256_pow_spec x e : 0 <= e -> u256_pow x e = wrap 256 (x ^ e).
Proof. intros. destruct e as [|e|e]; [done|apply u256_pow_pos_spec|lia]. Qed.
Lemma u256_pow_range x e : 0 <= e -> u256 (u256_pow x e).
Proof. intros. rewrite u256_pow_spec by done. apply wrap_u256. Qed.

Lemma from_be_bytes_u256 l : Forall u8 l -> (length l <= 32)%nat -> u256 (from_be_bytes l).
Proof.
  intros Hf Hl. destruct (from_be_bytes_range l Hf) as [? Hb]. split; [done|].
  eapply Z.lt_le_trans; [exact Hb|]. change (modulus 256) with (256 ^ 32). apply Z.pow_le_mono_r; lia.
Qed.

Lemma le_bytes_lookup n x i : (i < n)%nat -> le_bytes n x !! i = Some (x / 256 ^ Z.of_nat i mod 256).
Proof.
  revert x i. induction n as [|n IH]; intros x i Hi; [lia|]. destruct i as [|i]; cbn [le_bytes].
  - by rewrite Z.pow_0_r, Z.div_1_r.
  - rewrite lookup_cons, IH by lia. do 2 f_equal. rewrite Z.div_div by lia. f_equal.
    rewrite Nat2Z.inj_succ, Z.pow_succ_r by lia. lia.
Qed.

(** [byte(31 - i)] is byte [i] of the big-endian encoding. *)
Lemma u256_byte_be x i : 0 <= i < 32 -> be_bytes 32 x !! Z.to_nat i = Some (u256_byte x (31 - i)).
Proof.
  intros Hi. unfold be_bytes. rewrite reverse_lookup by (rewrite length_le_bytes; lia).
  rewrite length_le_bytes, le_bytes_lookup by lia. f_equal. unfold u256_byte. change 255 with (Z.ones 8).
  rewrite Z.land_ones, Z.shiftr_div_pow2 by lia. f_equal. f_equal. change 256 with (2 ^ 8).
  rewrite <- Z.pow_mul_r by lia. f_equal. lia.
Qed.

#[export] Hint Resolve u256_0 u256_max u256_of_bool_range wrap_u256 add_mod_range mul_mod_range
  u256_not_range u256_shl_range arithmetic_shr_range u256_byte_range u256_byte_u8 leading_zeros_range
  i256_div_range i256_mod_range from_be_bytes_u256 be_bytes_u8 : words.
#[export] Hint Extern 1 (u256 (wrapping_add _ _ _)) => apply wrapping_add_range; lia : words.
#[export] Hint Extern 1 (u256 (wrapping_sub _ _ _)) => apply wrapping_sub_range; lia : words.
#[export] Hint Extern 1 (u256 (wrapping_mul _ _ _)) => apply wrapping_mul_range; lia : words.
#[export] Hint Extern 2 (u256 (Z.land _ _)) => apply land_range; [lia| |] : words.
#[export] Hint Extern 2 (u256 (Z.lor _ _)) => apply lor_range; [lia| |] : words.
#[export] Hint Extern 2 (u256 (Z.lxor _ _)) => apply lxor_range; [lia| |] : words.
#[export] Hint Extern 2 (u256 (Z.shiftr _ _)) => apply shiftr_range : words.
