(* ===== verification/Instructions.v ===== *)
(** The instructions that need no host:
    [crates/interpreter/src/instructions/arithmetic.rs], [bitwise.rs],
    [stack.rs], [control.rs], [memory.rs] and [system.rs].  Each is named after
    its Rust module and function. *)
From S2P Require Import Prelude Hardfork Bytecode JournalEntry Gas I256 InstructionResult Stack SharedMemory Interpreter Host Macros.
From stdpp Require Import base numbers list option tactics.
From Stdlib Require Import ZArith Lia.

Local Open Scope Z_scope.

Section Instructions.
Context {H : Type}.

(** * Arithmetic *)

Definition arithmetic_add : Instr H unit := '(op1, op2) ← popn_top1; set_top (wrapping_add 256 op1 op2).
Definition arithmetic_mul : Instr H unit := '(op1, op2) ← popn_top1; set_top (wrapping_mul 256 op1 op2).
Definition arithmetic_sub : Instr H unit := '(op1, op2) ← popn_top1; set_top (wrapping_sub 256 op1 op2).
Definition arithmetic_div : Instr H unit :=
  '(op1, op2) ← popn_top1;
  if negb (op2 =? 0) then set_top (op1 / op2) else mret tt.
Definition arithmetic_sdiv : Instr H unit := '(op1, op2) ← popn_top1; set_top (i256_div op1 op2).
Definition arithmetic_rem : Instr H unit :=
  '(op1, op2) ← popn_top1;
  if negb (op2 =? 0) then set_top (op1 mod op2) else mret tt.
Definition arithmetic_smod : Instr H unit := '(op1, op2) ← popn_top1; set_top (i256_mod op1 op2).
Definition arithmetic_addmod : Instr H unit :=
  '(op1, op2, op3) ← popn_top2; set_top (add_mod op1 op2 op3).
Definition arithmetic_mulmod : Instr H unit :=
  '(op1, op2, op3) ← popn_top2; set_top (mul_mod op1 op2 op3).
Definition arithmetic_exp : Instr H unit :=
  s ← spec_id;
  '(op1, op2) ← popn_top1;
  gas_or_fail (exp_cost s op2) ;;
  set_top (u256_pow op1 op2).
Definition arithmetic_signextend : Instr H unit :=
  '(ext, x) ← popn_top1;
  if ext <? 31 then
    let ext := limb ext 0 in
    let bit_index := 8 * ext + 7 in
    let bit := Z.testbit x bit_index in
    let mask := wrapping_sub 256 (u256_shl 1 bit_index) 1 in
    set_top (if bit then Z.lor x (u256_not mask) else Z.land x mask)
  else mret tt.

(** * Comparisons and bits *)

Definition bitwise_lt : Instr H unit := '(op1, op2) ← popn_top1; set_top (u256_of_bool (op1 <? op2)).
Definition bitwise_gt : Instr H unit := '(op1, op2) ← popn_top1; set_top (u256_of_bool (op2 <? op1)).
Definition bitwise_clz : Instr H unit :=
  check OSAKA ;; op1 ← popn_top0; set_top (u256_leading_zeros op1).
Definition bitwise_slt : Instr H unit :=
  '(op1, op2) ← popn_top1;
  set_top (u256_of_bool (match i256_cmp op1 op2 with Lt => true | _ => false end)).
Definition bitwise_sgt : Instr H unit :=
  '(op1, op2) ← popn_top1;
  set_top (u256_of_bool (match i256_cmp op1 op2 with Gt => true | _ => false end)).
Definition bitwise_eq : Instr H unit := '(op1, op2) ← popn_top1; set_top (u256_of_bool (op1 =? op2)).
Definition bitwise_iszero : Instr H unit := op1 ← popn_top0; set_top (u256_of_bool (op1 =? 0)).
Definition bitwise_bitand : Instr H unit := '(op1, op2) ← popn_top1; set_top (Z.land op1 op2).
Definition bitwise_bitor : Instr H unit := '(op1, op2) ← popn_top1; set_top (Z.lor op1 op2).
Definition bitwise_bitxor : Instr H unit := '(op1, op2) ← popn_top1; set_top (Z.lxor op1 op2).
Definition bitwise_not : Instr H unit := op1 ← popn_top0; set_top (u256_not op1).
Definition bitwise_byte : Instr H unit :=
  '(op1, op2) ← popn_top1;
  let o1 := as_usize_saturated op1 in
  set_top (if o1 <? 32 then u256_byte op2 (31 - o1) else 0).
Definition bitwise_shl : Instr H unit :=
  check CONSTANTINOPLE ;;
  '(op1, op2) ← popn_top1;
  let shift := as_usize_saturated op1 in
  set_top (if shift <? 256 then u256_shl op2 shift else 0).
Definition bitwise_shr : Instr H unit :=
  check CONSTANTINOPLE ;;
  '(op1, op2) ← popn_top1;
  let shift := as_usize_saturated op1 in
  set_top (if shift <? 256 then Z.shiftr op2 shift else 0).
Definition bitwise_sar : Instr H unit :=
  check CONSTANTINOPLE ;;
  '(op1, op2) ← popn_top1;
  let shift := as_usize_saturated op1 in
  set_top (if shift <? 256 then arithmetic_shr op2 shift
           else if Z.testbit op2 255 then modulus 256 - 1 else 0).

(** * Stack *)

Definition stack_pop : Instr H unit := _i ← popn1; mret tt.
Definition stack_push0 : Instr H unit := check SHANGHAI ;; push 0.
Definition stack_push (n : nat) : Instr H unit :=
  slice ← read (fun i => ExtBytecode_read_slice n (i_bytecode i));
  ok ← (fun i h => let '(ok, s) := Stack_push_slice_ slice (i_stack i) in
                   Some (Some ok, with_stack s i, h));
  if (ok : bool) then
    update (fun i => let? b := ExtBytecode_relative_jump (Z.of_nat n) (i_bytecode i) in
                     Some (with_bytecode b i))
  else halt_with (Interpreter_halt IR_StackOverflow).
Definition stack_dup (n : nat) : Instr H unit :=
  ok ← (fun i h => let? (ok, s) := Stack_dup n (i_stack i) in Some (Some ok, with_stack s i, h));
  if (ok : bool) then mret tt else update (Interpreter_halt IR_StackOverflow).
Definition stack_swap (n : nat) : Instr H unit :=
  if (n =? 0)%nat then panic
  else
    ok ← (fun i h => let? (ok, s) := Stack_exchange 0 n (i_stack i) in Some (Some ok, with_stack s i, h));
    if (ok : bool) then mret tt else update (Interpreter_halt IR_StackOverflow).

(** * Control flow *)

Definition jump_inner (target : Z) : Instr H unit :=
  target ← as_usize_or_fail_with IR_InvalidJump target;
  valid ← read (fun i => ExtBytecode_is_valid_legacy_jump target (i_bytecode i));
  if negb (valid : bool) then halt_with (Interpreter_halt IR_InvalidJump)
  else update (fun i => let? b := ExtBytecode_absolute_jump target (i_bytecode i) in
                        Some (with_bytecode b i)).
Definition control_jump : Instr H unit := target ← popn1; jump_inner target.
Definition control_jumpi : Instr H unit :=
  '(target, cond) ← popn2;
  if negb (cond =? 0) then jump_inner target else mret tt.
Definition control_jumpdest : Instr H unit := mret tt.
(** [None]: the subtraction underflows. *)
Definition control_pc : Instr H unit :=
  pc ← read (fun i => checked_sub (ExtBytecode_pc (i_bytecode i)) 1); push pc.

Definition return_inner (instruction_result : InstructionResult) : Instr H unit :=
  '(offset, len) ← popn2;
  len ← as_usize_or_fail len;
  output ← (if negb (len =? 0) then
              offset ← as_usize_or_fail offset;
              resize_memory_or_halt offset len ;;
              memory_slice_len offset len
            else mret []);
  update (fun i => Interpreter_set_action
    (InterpreterAction_new_return instruction_result output (i_gas i)) i).
Definition control_ret : Instr H unit := return_inner IR_Return.
Definition control_revert : Instr H unit := check BYZANTIUM ;; return_inner IR_Revert.
Definition control_stop : Instr H unit := update (Interpreter_halt IR_Stop).
Definition control_invalid : Instr H unit := update (Interpreter_halt IR_InvalidFEOpcode).
Definition control_unknown : Instr H unit := update (Interpreter_halt IR_OpcodeNotFound).

(** * Memory *)

Definition memory_mload : Instr H unit :=
  top ← popn_top0;
  offset ← as_usize_or_fail top;
  resize_memory_or_halt offset 32 ;;
  word ← memory_slice_len offset 32;
  set_top (from_be_bytes word).
Definition memory_mstore : Instr H unit :=
  '(offset, value) ← popn2;
  offset ← as_usize_or_fail offset;
  resize_memory_or_halt offset 32 ;;
  memory_set offset (be_bytes 32 value).
Definition memory_mstore8 : Instr H unit :=
  '(offset, value) ← popn2;
  offset ← as_usize_or_fail offset;
  resize_memory_or_halt offset 1 ;;
  memory_set offset [u256_byte value 0].
Definition memory_msize : Instr H unit :=
  size ← read (fun i => Some (Z.of_nat (SharedMemory_len (i_memory i) (i_buffer i)))); push size.
Definition memory_mcopy : Instr H unit :=
  check CANCUN ;;
  '(dst, src, len) ← popn3;
  len ← as_usize_or_fail len;
  gas_or_fail (copy_cost_verylow len) ;;
  if len =? 0 then early
  else
    dst ← as_usize_or_fail dst;
    src ← as_usize_or_fail src;
    resize_memory_or_halt (Z.max dst src) len ;;
    update (fun i =>
      let? buf := SharedMemory_copy (Z.to_nat dst) (Z.to_nat src) (Z.to_nat len) (i_memory i) (i_buffer i) in
      Some (with_buffer buf i)).

(** * System *)

Definition system_memory_resize (memory_offset len : Z) : Instr H Z :=
  gas_or_fail (copy_cost_verylow len) ;;
  if len =? 0 then early
  else
    memory_offset ← as_usize_or_fail memory_offset;
    resize_memory_or_halt memory_offset len ;;
    mret memory_offset.

Definition system_keccak256 `{!Keccak} : Instr H unit :=
  '(offset, top) ← popn_top1;
  len ← as_usize_or_fail top;
  gas_or_fail (keccak256_cost len) ;;
  hash ← (if len =? 0 then mret KECCAK_EMPTY
          else
            from ← as_usize_or_fail offset;
            resize_memory_or_halt from len ;;
            bytes ← memory_slice_len from len;
            mret (keccak256 bytes));
  set_top hash.
Definition system_address : Instr H unit := a ← target_address; push a.
Definition system_caller : Instr H unit :=
  a ← read (fun i => Some (in_caller_address (i_input i))); push a.
Definition system_codesize : Instr H unit :=
  n ← read (fun i => Some (ExtBytecode_bytecode_len (i_bytecode i))); push n.
Definition system_codecopy : Instr H unit :=
  '(memory_offset, code_offset, len) ← popn3;
  len ← as_usize_or_fail len;
  memory_offset ← system_memory_resize memory_offset len;
  let code_offset := as_usize_saturated code_offset in
  code ← read (fun i => Some (ExtBytecode_bytecode_slice (i_bytecode i)));
  memory_set_data memory_offset code_offset len code.

(** [word[..count].copy_from_slice(..)]: the bytes at [offset], zero-padded. *)
Definition system_calldataload : Instr H unit :=
  offset_ptr ← popn_top0;
  let offset := as_usize_saturated offset_ptr in
  input ← read (fun i => Some (in_input (i_input i)));
  let input_len := CallInput_len input in
  word ← (if offset <? input_len then
            let count := Z.min 32 (input_len - offset) in
            bytes ← (match input with
                     | CallInput_Bytes bytes =>
                         read (fun _ => get_range bytes (Z.to_nat offset) (Z.to_nat (offset + count)))
                     | SharedBuffer range =>
                         read (fun i =>
                           let? input_slice := SharedMemory_global_slice_range (Z.to_nat range.1)
                             (Z.to_nat range.2) (i_memory i) (i_buffer i) in
                           get_range input_slice (Z.to_nat offset) (Z.to_nat (offset + count)))
                     end);
            mret (bytes ++ replicate (Z.to_nat (32 - count)) 0)
          else mret (replicate 32 0));
  set_top (from_be_bytes word).
Definition system_calldatasize : Instr H unit :=
  n ← read (fun i => Some (CallInput_len (in_input (i_input i)))); push n.
Definition system_callvalue : Instr H unit :=
  v ← read (fun i => Some (in_call_value (i_input i))); push v.
Definition system_calldatacopy : Instr H unit :=
  '(memory_offset, data_offset, len) ← popn3;
  len ← as_usize_or_fail len;
  memory_offset ← system_memory_resize memory_offset len;
  let data_offset := as_usize_saturated data_offset in
  input ← read (fun i => Some (in_input (i_input i)));
  match input with
  | CallInput_Bytes bytes => memory_set_data memory_offset data_offset len bytes
  | SharedBuffer range =>
      update (fun i =>
        let? buf := SharedMemory_global_to_local_set_data (Z.to_nat memory_offset) (Z.to_nat data_offset)
                      (Z.to_nat len) (Z.to_nat range.1) (Z.to_nat range.2) (i_memory i) (i_buffer i) in
        Some (with_buffer buf i))
  end.
Definition system_returndatasize : Instr H unit :=
  check BYZANTIUM ;;
  n ← read (fun i => Some (Z.of_nat (length (i_return_data i)))); push n.
Definition system_returndatacopy : Instr H unit :=
  check BYZANTIUM ;;
  '(memory_offset, offset, len) ← popn3;
  len ← as_usize_or_fail len;
  let data_offset := as_usize_saturated offset in
  let data_end := saturating_add 64 data_offset len in
  return_data ← read (fun i => Some (i_return_data i));
  if Z.of_nat (length return_data) <? data_end then halt_with (Interpreter_halt IR_OutOfOffset)
  else
    memory_offset ← system_memory_resize memory_offset len;
    memory_set_data memory_offset data_offset len return_data.
Definition system_gas : Instr H unit := r ← remaining; push r.
End Instructions.
