(* ===== verification/HostInstructions.v ===== *)
(** The instructions that call the host:
    [crates/interpreter/src/instructions/host.rs], [block_info.rs],
    [tx_info.rs], [contract.rs] and [contract/call_helpers.rs]. *)
From S2P Require Import Prelude Hardfork Bytecode State Database JournalEntry JournalInner Gas InstructionResult Stack SharedMemory Interpreter Host Macros Instructions.
From stdpp Require Import base numbers list option tactics.
From Stdlib Require Import ZArith Lia.

Local Open Scope Z_scope.

Definition BLOCK_HASH_HISTORY : Z := 256.

Section HostInstructions.
Context {H : Type} `{!Host H}.

(** * Block and transaction *)

Definition block_info_chainid : Instr H unit := check ISTANBUL ;; h ← host; push (host_chain_id h).
Definition block_info_coinbase : Instr H unit := h ← host; push (host_beneficiary h).
Definition block_info_timestamp : Instr H unit := h ← host; push (host_timestamp h).
Definition block_info_block_number : Instr H unit := h ← host; push (host_block_number h).
Definition block_info_difficulty : Instr H unit :=
  s ← spec_id;
  h ← host;
  if SpecId_is_enabled_in s MERGE then
    match host_prevrandao h with Some r => push r | None => panic end
  else push (host_difficulty h).
Definition block_info_gaslimit : Instr H unit := h ← host; push (host_gas_limit h).
Definition block_info_basefee : Instr H unit := check LONDON ;; h ← host; push (host_basefee h).
Definition block_info_blob_basefee : Instr H unit := check CANCUN ;; h ← host; push (host_blob_gasprice h).
Definition tx_info_gasprice : Instr H unit := h ← host; push (host_effective_gas_price h).
Definition tx_info_origin : Instr H unit := h ← host; push (host_caller h).
Definition tx_info_blob_hash : Instr H unit :=
  check CANCUN ;;
  index ← popn_top0;
  let i := as_usize_saturated index in
  h ← host;
  set_top (match host_blob_hash h i with Some x => x | None => 0 end).

(** * Accounts *)

(** The loads before Berlin: a fixed cost, and a fatal halt on any error. *)
Definition load_account_flat (cost address : Z) (load_code : bool) : Instr H AccountInfoLoad :=
  gas cost ;;
  account ← host_call (fun h => host_load_account_info_skip_cold_load h address load_code false);
  match account with Ok account => mret account | Err _ => halt_with Interpreter_halt_fatal end.

Definition host_instr_balance : Instr H unit :=
  top ← popn_top0;
  let address := into_address top in
  s ← spec_id;
  if SpecId_is_enabled_in s BERLIN then
    account ← berlin_load_account address false;
    set_top (balance (ail_account account))
  else
    let cost := if SpecId_is_enabled_in s ISTANBUL then 700
                else if SpecId_is_enabled_in s TANGERINE then 400 else 20 in
    account ← load_account_flat cost address false;
    set_top (balance (ail_account account)).

Definition host_instr_selfbalance : Instr H unit :=
  check ISTANBUL ;;
  a ← target_address;
  b ← host_call (fun h => Host_balance h a);
  match b with
  | Some b => push (data b)
  | None => halt_with Interpreter_halt_fatal
  end.

(** [account.code.as_ref().unwrap()]. *)
Definition loaded_code (account : AccountInfoLoad) : Instr H Bytecode :=
  match code (ail_account account) with Some c => mret c | None => panic end.

Definition host_instr_extcodesize : Instr H unit :=
  top ← popn_top0;
  let address := into_address top in
  s ← spec_id;
  if SpecId_is_enabled_in s BERLIN then
    account ← berlin_load_account address true;
    c ← loaded_code account;
    set_top (Z.of_nat (Bytecode_len c))
  else
    account ← load_account_flat (if SpecId_is_enabled_in s TANGERINE then 700 else 20) address true;
    c ← loaded_code account;
    set_top (Z.of_nat (Bytecode_len c)).

Definition host_instr_extcodehash : Instr H unit :=
  check CONSTANTINOPLE ;;
  top ← popn_top0;
  let address := into_address top in
  s ← spec_id;
  account ← (if SpecId_is_enabled_in s BERLIN then berlin_load_account address true
             else load_account_flat (if SpecId_is_enabled_in s ISTANBUL then 700 else 400) address true);
  set_top (if AccountInfo_is_empty (ail_account account) then 0 else code_hash (ail_account account)).

Definition host_instr_extcodecopy : Instr H unit :=
  '(address, memory_offset, code_offset, len_u256) ← popn4;
  let address := into_address address in
  s ← spec_id;
  len ← as_usize_or_fail len_u256;
  gas (match copy_cost 0 len with Some c => c | None => u64_max end) ;;
  memory_offset_usize ← (if negb (len =? 0) then
                           memory_offset_usize ← as_usize_or_fail memory_offset;
                           resize_memory_or_halt memory_offset_usize len ;;
                           mret memory_offset_usize
                         else mret 0);
  bytes ← (if SpecId_is_enabled_in s BERLIN then
             account ← berlin_load_account address true;
             c ← loaded_code account;
             mret (Bytecode_original_bytes c)
           else
             gas (if SpecId_is_enabled_in s TANGERINE then 700 else 20) ;;
             c ← host_call (fun h => Host_load_account_code h address);
             match c with Some c => mret (data c) | None => halt_with Interpreter_halt_fatal end);
  let code_offset_usize := Z.min (as_usize_saturated code_offset) (Z.of_nat (length bytes)) in
  memory_set_data memory_offset_usize code_offset_usize len bytes.

Definition host_instr_blockhash : Instr H unit :=
  requested_number ← popn_top0;
  h ← host;
  match checked_sub (host_block_number h) requested_number with
  | None => set_top 0
  | Some diff =>
      let diff := as_u64_saturated diff in
      if diff =? 0 then set_top 0
      else if diff <=? BLOCK_HASH_HISTORY then
        hash ← host_call (fun h => host_block_hash h (as_u64_saturated requested_number));
        match hash with Some hash => set_top hash | None => halt_with Interpreter_halt_fatal end
      else set_top 0
  end.

(** * Storage *)

Definition host_instr_sload : Instr H unit :=
  index ← popn_top0;
  s ← spec_id;
  target ← target_address;
  gas (if SpecId_is_enabled_in s BERLIN then WARM_STORAGE_READ_COST
       else if SpecId_is_enabled_in s ISTANBUL then ISTANBUL_SLOAD_GAS
       else if SpecId_is_enabled_in s TANGERINE then 200 else 50) ;;
  if SpecId_is_enabled_in s BERLIN then
    r ← remaining;
    let skip_cold := r <? COLD_SLOAD_COST_ADDITIONAL in
    res ← host_call (fun h => host_sload_skip_cold_load h target index skip_cold);
    match res with
    | Ok storage =>
        (if load_is_cold storage then gas COLD_SLOAD_COST_ADDITIONAL else mret tt) ;;
        set_top (data storage)
    | Err Load_ColdLoadSkipped => update Interpreter_halt_oog
    | Err Load_DBError => update Interpreter_halt_fatal
    end
  else
    storage ← host_call (fun h => Host_sload h target index);
    match storage with
    | Some storage => set_top (data storage)
    | None => halt_with Interpreter_halt_fatal
    end.

Definition record_refund (refund : Z) : Instr H unit :=
  update (fun i => Some (with_gas (Gas_record_refund refund (i_gas i)) i)).

Definition host_instr_sstore : Instr H unit :=
  require_non_staticcall ;;
  '(index, value) ← popn2;
  target ← target_address;
  s ← spec_id;
  r ← remaining;
  if SpecId_is_enabled_in s ISTANBUL && (r <=? CALL_STIPEND) then
    halt_with (Interpreter_halt IR_ReentrancySentryOOG)
  else
    gas (static_sstore_cost s) ;;
    state_load ←
      (if SpecId_is_enabled_in s BERLIN then
         r ← remaining;
         let skip_cold := r <? COLD_SLOAD_COST_ADDITIONAL in
         res ← host_call (fun h => host_sstore_skip_cold_load h target index value skip_cold);
         match res with
         | Ok load => mret load
         | Err Load_ColdLoadSkipped => halt_with Interpreter_halt_oog
         | Err Load_DBError => halt_with Interpreter_halt_fatal
         end
       else
         load ← host_call (fun h => Host_sstore h target index value);
         match load with Some load => mret load | None => halt_with Interpreter_halt_fatal end);
    gas (dyn_sstore_cost s (data state_load) (load_is_cold state_load)) ;;
    record_refund (sstore_refund s (data state_load)).

Definition host_instr_tstore : Instr H unit :=
  check CANCUN ;;
  require_non_staticcall ;;
  '(index, value) ← popn2;
  a ← target_address;
  host_call (fun h => Some (tt, host_tstore h a index value)).

Definition host_instr_tload : Instr H unit :=
  check CANCUN ;;
  index ← popn_top0;
  a ← target_address;
  v ← host_call (fun h => Some (host_tload h a index));
  set_top v.

(** * Logs and self-destruction *)

Definition host_instr_log (n : nat) : Instr H unit :=
  require_non_staticcall ;;
  '(offset, len) ← popn2;
  len ← as_usize_or_fail len;
  gas_or_fail (log_cost (Z.of_nat n) len) ;;
  bytes ← (if len =? 0 then mret []
           else
             offset ← as_usize_or_fail offset;
             resize_memory_or_halt offset len ;;
             memory_slice_len offset len);
  topics ← popn n;
  a ← target_address;
  if (4 <? length topics)%nat then panic
  else host_call (fun h => Some (tt, host_log h (mkLog a topics bytes))).

Definition host_instr_selfdestruct : Instr H unit :=
  require_non_staticcall ;;
  target ← popn1;
  let target := into_address target in
  s ← spec_id;
  gas (static_selfdestruct_cost s) ;;
  a ← target_address;
  res ← host_call (fun h => host_selfdestruct h a target);
  match res with
  | None => halt_with (Interpreter_halt IR_FatalExternalError)
  | Some res =>
      gas (dyn_selfdestruct_cost s res) ;;
      (if negb (SpecId_is_enabled_in s LONDON) && negb (previously_destroyed (data res))
       then record_refund SELFDESTRUCT_REFUND else mret tt) ;;
      update (Interpreter_halt IR_SelfDestruct)
  end.

(** * Creating contracts *)

Definition contract_create (is_create2 : bool) : Instr H unit :=
  require_non_staticcall ;;
  (if is_create2 then check PETERSBURG else mret tt) ;;
  '(value, code_offset, len) ← popn3;
  len ← as_usize_or_fail len;
  s ← spec_id;
  code ← (if negb (len =? 0) then
            (if SpecId_is_enabled_in s SHANGHAI then
               h ← host;
               if host_max_initcode_size h <? len
               then halt_with (Interpreter_halt IR_CreateInitCodeSizeLimit)
               else match initcode_cost len with Some c => gas c | None => panic end
             else mret tt) ;;
            code_offset ← as_usize_or_fail code_offset;
            resize_memory_or_halt code_offset len ;;
            memory_slice_len code_offset len
          else mret []);
  scheme ← (if is_create2 then
              salt ← popn1;
              gas_or_fail (create2_cost len) ;;
              mret (Create2 salt)
            else
              gas GAS_CREATE ;;
              mret Create);
  r ← remaining;
  let gas_limit := if SpecId_is_enabled_in s TANGERINE then r - r / 64 else r in
  gas gas_limit ;;
  caller ← target_address;
  update (Interpreter_set_action (NewFrame (FI_Create (mkCreateInputs caller scheme value code gas_limit)))).

(** * Calls ([call_helpers.rs]) *)

(** The range of memory; an unused offset when [len] is zero. *)
Definition call_resize_memory (offset len : Z) : Instr H (Z * Z) :=
  len ← as_usize_or_fail len;
  offset ← (if negb (len =? 0) then
              offset ← as_usize_or_fail offset;
              resize_memory_or_halt offset len ;;
              mret offset
            else mret u64_max);
  mret (offset, offset + len).

Definition get_memory_input_and_out_ranges : Instr H ((Z * Z) * (Z * Z)) :=
  '(in_offset, in_len, out_offset, out_len) ← popn4;
  in_range ← call_resize_memory in_offset in_len;
  in_range ← (if negb (range_is_empty in_range) then
                offset ← read (fun i => Some (Z.of_nat (my_checkpoint (i_memory i))));
                mret (saturating_add 64 in_range.1 offset, saturating_add 64 in_range.2 offset)
              else mret in_range);
  ret_range ← call_resize_memory out_offset out_len;
  mret (in_range, ret_range).

Definition new_account_cost (is_spurious_dragon transfers_value : bool) : Z :=
  if negb is_spurious_dragon || transfers_value then NEWACCOUNT else 0.

Section Delegated.
Context `{!BitVec}.

(** [Bytecode::default] for an account without code. *)
Definition code_or_default (account : AccountInfoLoad) : Bytecode :=
  match code (ail_account account) with Some c => c | None => Bytecode_default end.

Definition contract_load_account_delegated (h : H) (spec : SpecId) (remaining_gas address : Z)
    (transfers_value create_empty_account : bool)
    : option (result (Z * Bytecode * Z) LoadError * H) :=
  let is_berlin := SpecId_is_enabled_in spec BERLIN in
  let is_spurious_dragon := SpecId_is_enabled_in spec SPURIOUS_DRAGON in
  let skip_cold_load := is_berlin && (remaining_gas <? COLD_ACCOUNT_ACCESS_COST_ADDITIONAL) in
  let? (r, h) := host_load_account_info_skip_cold_load h address true skip_cold_load in
  match r with
  | Err e => Some (Err e, h)
  | Ok account =>
      let cost := if is_berlin && ail_is_cold account then COLD_ACCOUNT_ACCESS_COST_ADDITIONAL else 0 in
      let bytecode := code_or_default account in
      let hash := code_hash (ail_account account) in
      if create_empty_account && ail_is_empty account then
        Some (Ok (cost + new_account_cost is_spurious_dragon transfers_value, bytecode, hash), h)
      else
        match code (ail_account account) with
        | Some (Eip7702 c) =>
            let cost := cost + WARM_STORAGE_READ_COST in
            if remaining_gas <? cost then Some (Err Load_ColdLoadSkipped, h)
            else
              let skip_cold_load := remaining_gas <? cost + COLD_ACCOUNT_ACCESS_COST_ADDITIONAL in
              let? (r, h) := host_load_account_info_skip_cold_load h (delegated_address c) true skip_cold_load in
              match r with
              | Err e => Some (Err e, h)
              | Ok delegate_account =>
                  let cost := if ail_is_cold delegate_account
                              then cost + COLD_ACCOUNT_ACCESS_COST_ADDITIONAL else cost in
                  Some (Ok (cost, code_or_default delegate_account,
                            code_hash (ail_account delegate_account)), h)
              end
        | _ => Some (Ok (cost, bytecode, hash), h)
        end
  end.

Definition load_account_delegated_handle_error (to : Z) (transfers_value create_empty_account : bool)
    : Instr H (Z * Bytecode * Z) :=
  remaining_gas ← remaining;
  s ← spec_id;
  out ← host_call (fun h =>
          contract_load_account_delegated h s remaining_gas to transfers_value create_empty_account);
  match out with
  | Ok out => mret out
  | Err Load_ColdLoadSkipped => halt_with Interpreter_halt_oog
  | Err Load_DBError => halt_with Interpreter_halt_fatal
  end.

Definition load_acc_and_calc_gas (to : Z) (transfers_value create_empty_account : bool)
    (stack_gas_limit : Z) : Instr H (Z * Bytecode * Z) :=
  s ← spec_id;
  gas (calc_call_static_gas s transfers_value) ;;
  '(cost, bytecode, hash) ← load_account_delegated_handle_error to transfers_value create_empty_account;
  gas cost ;;
  i ← interpreter;
  let gas_limit := if SpecId_is_enabled_in s TANGERINE
                   then Z.min (Gas_remaining_63_of_64_parts (i_gas i)) stack_gas_limit
                   else stack_gas_limit in
  gas gas_limit ;;
  mret (if transfers_value then saturating_add 64 gas_limit CALL_STIPEND else gas_limit, bytecode, hash).

(** * Calls ([contract.rs]) *)

Definition new_call (inputs : CallInputs) : Instr H unit :=
  update (Interpreter_set_action (NewFrame (FI_Call inputs))).

Definition contract_call : Instr H unit :=
  '(local_gas_limit, to, value) ← popn3;
  let to := into_address to in
  let local_gas_limit := as_u64_saturated local_gas_limit in
  let has_transfer := negb (value =? 0) in
  s ← is_static;
  if s && has_transfer then halt_with (Interpreter_halt IR_CallNotAllowedInsideStatic)
  else
    '(input, return_memory_offset) ← get_memory_input_and_out_ranges;
    '(gas_limit, bytecode, bytecode_hash) ← load_acc_and_calc_gas to has_transfer true local_gas_limit;
    i ← interpreter;
    new_call (mkCallInputs (SharedBuffer input) return_memory_offset gas_limit to
      (Some (bytecode_hash, bytecode)) to (in_target_address (i_input i)) (Transfer value) Scheme_Call
      (rf_is_static (i_runtime_flag i))).

Definition contract_call_code : Instr H unit :=
  '(local_gas_limit, to, value) ← popn3;
  let to := into_address to in
  let local_gas_limit := as_u64_saturated local_gas_limit in
  let has_transfer := negb (value =? 0) in
  '(input, return_memory_offset) ← get_memory_input_and_out_ranges;
  '(gas_limit, bytecode, bytecode_hash) ← load_acc_and_calc_gas to has_transfer false local_gas_limit;
  i ← interpreter;
  new_call (mkCallInputs (SharedBuffer input) return_memory_offset gas_limit to
    (Some (bytecode_hash, bytecode)) (in_target_address (i_input i)) (in_target_address (i_input i))
    (Transfer value) Scheme_CallCode (rf_is_static (i_runtime_flag i))).

Definition contract_delegate_call : Instr H unit :=
  check HOMESTEAD ;;
  '(local_gas_limit, to) ← popn2;
  let to := into_address to in
  let local_gas_limit := as_u64_saturated local_gas_limit in
  '(input, return_memory_offset) ← get_memory_input_and_out_ranges;
  '(gas_limit, bytecode, bytecode_hash) ← load_acc_and_calc_gas to false false local_gas_limit;
  i ← interpreter;
  new_call (mkCallInputs (SharedBuffer input) return_memory_offset gas_limit to
    (Some (bytecode_hash, bytecode)) (in_target_address (i_input i)) (in_caller_address (i_input i))
    (Apparent (in_call_value (i_input i))) Scheme_DelegateCall (rf_is_static (i_runtime_flag i))).

Definition contract_static_call : Instr H unit :=
  check BYZANTIUM ;;
  '(local_gas_limit, to) ← popn2;
  let to := into_address to in
  let local_gas_limit := as_u64_saturated local_gas_limit in
  '(input, return_memory_offset) ← get_memory_input_and_out_ranges;
  '(gas_limit, bytecode, bytecode_hash) ← load_acc_and_calc_gas to false false local_gas_limit;
  i ← interpreter;
  new_call (mkCallInputs (SharedBuffer input) return_memory_offset gas_limit to
    (Some (bytecode_hash, bytecode)) to (in_target_address (i_input i)) (Transfer 0) Scheme_StaticCall true).
End Delegated.
End HostInstructions.
