(* ===== verification/Opcode.v ===== *)
(** The opcode table of [crates/bytecode/src/opcode.rs]: the constants, and
    for each opcode the stack elements it takes and leaves, the size of its
    immediate and whether it ends the execution. *)
From S2P Require Import Prelude Bytecode.
From stdpp Require Import base numbers list option tactics strings.
From Stdlib Require Import ZArith Lia.

Local Open Scope Z_scope.

Record OpCodeInfo := mkOpCodeInfo {
  op_name : string; op_inputs : Z; op_outputs : Z; op_immediate_size : Z; op_terminating : bool }.

Definition OpCodeInfo_new (name : string) : OpCodeInfo := mkOpCodeInfo name 0 0 0 false.
Definition OpCodeInfo_io_diff (self : OpCodeInfo) : Z := op_outputs self - op_inputs self.
Definition immediate_size (n : Z) (op : OpCodeInfo) : OpCodeInfo :=
  mkOpCodeInfo (op_name op) (op_inputs op) (op_outputs op) n (op_terminating op).
Definition terminating (op : OpCodeInfo) : OpCodeInfo :=
  mkOpCodeInfo (op_name op) (op_inputs op) (op_outputs op) (op_immediate_size op) true.
Definition stack_io (inputs outputs : Z) (op : OpCodeInfo) : OpCodeInfo :=
  mkOpCodeInfo (op_name op) inputs outputs (op_immediate_size op) (op_terminating op).

(** * The constants *)

Definition OP_STOP : Z := 0x00.
Definition OP_ADD : Z := 0x01.
Definition OP_MUL : Z := 0x02.
Definition OP_SUB : Z := 0x03.
Definition OP_DIV : Z := 0x04.
Definition OP_SDIV : Z := 0x05.
Definition OP_MOD : Z := 0x06.
Definition OP_SMOD : Z := 0x07.
Definition OP_ADDMOD : Z := 0x08.
Definition OP_MULMOD : Z := 0x09.
Definition OP_EXP : Z := 0x0A.
Definition OP_SIGNEXTEND : Z := 0x0B.
Definition OP_LT : Z := 0x10.
Definition OP_GT : Z := 0x11.
Definition OP_SLT : Z := 0x12.
Definition OP_SGT : Z := 0x13.
Definition OP_EQ : Z := 0x14.
Definition OP_ISZERO : Z := 0x15.
Definition OP_AND : Z := 0x16.
Definition OP_OR : Z := 0x17.
Definition OP_XOR : Z := 0x18.
Definition OP_NOT : Z := 0x19.
Definition OP_BYTE : Z := 0x1A.
Definition OP_SHL : Z := 0x1B.
Definition OP_SHR : Z := 0x1C.
Definition OP_SAR : Z := 0x1D.
Definition OP_CLZ : Z := 0x1E.
Definition OP_KECCAK256 : Z := 0x20.
Definition OP_ADDRESS : Z := 0x30.
Definition OP_BALANCE : Z := 0x31.
Definition OP_ORIGIN : Z := 0x32.
Definition OP_CALLER : Z := 0x33.
Definition OP_CALLVALUE : Z := 0x34.
Definition OP_CALLDATALOAD : Z := 0x35.
Definition OP_CALLDATASIZE : Z := 0x36.
Definition OP_CALLDATACOPY : Z := 0x37.
Definition OP_CODESIZE : Z := 0x38.
Definition OP_CODECOPY : Z := 0x39.
Definition OP_GASPRICE : Z := 0x3A.
Definition OP_EXTCODESIZE : Z := 0x3B.
Definition OP_EXTCODECOPY : Z := 0x3C.
Definition OP_RETURNDATASIZE : Z := 0x3D.
Definition OP_RETURNDATACOPY : Z := 0x3E.
Definition OP_EXTCODEHASH : Z := 0x3F.
Definition OP_BLOCKHASH : Z := 0x40.
Definition OP_COINBASE : Z := 0x41.
Definition OP_TIMESTAMP : Z := 0x42.
Definition OP_NUMBER : Z := 0x43.
Definition OP_DIFFICULTY : Z := 0x44.
Definition OP_GASLIMIT : Z := 0x45.
Definition OP_CHAINID : Z := 0x46.
Definition OP_SELFBALANCE : Z := 0x47.
Definition OP_BASEFEE : Z := 0x48.
Definition OP_BLOBHASH : Z := 0x49.
Definition OP_BLOBBASEFEE : Z := 0x4A.
Definition OP_POP : Z := 0x50.
Definition OP_MLOAD : Z := 0x51.
Definition OP_MSTORE : Z := 0x52.
Definition OP_MSTORE8 : Z := 0x53.
Definition OP_SLOAD : Z := 0x54.
Definition OP_SSTORE : Z := 0x55.
Definition OP_JUMP : Z := 0x56.
Definition OP_JUMPI : Z := 0x57.
Definition OP_PC : Z := 0x58.
Definition OP_MSIZE : Z := 0x59.
Definition OP_GAS : Z := 0x5A.
Definition OP_JUMPDEST : Z := 0x5B.
Definition OP_TLOAD : Z := 0x5C.
Definition OP_TSTORE : Z := 0x5D.
Definition OP_MCOPY : Z := 0x5E.
Definition OP_PUSH0 : Z := 0x5F.
Definition OP_PUSH1 : Z := 0x60.
Definition OP_PUSH2 : Z := 0x61.
Definition OP_PUSH3 : Z := 0x62.
Definition OP_PUSH4 : Z := 0x63.
Definition OP_PUSH5 : Z := 0x64.
Definition OP_PUSH6 : Z := 0x65.
Definition OP_PUSH7 : Z := 0x66.
Definition OP_PUSH8 : Z := 0x67.
Definition OP_PUSH9 : Z := 0x68.
Definition OP_PUSH10 : Z := 0x69.
Definition OP_PUSH11 : Z := 0x6A.
Definition OP_PUSH12 : Z := 0x6B.
Definition OP_PUSH13 : Z := 0x6C.
Definition OP_PUSH14 : Z := 0x6D.
Definition OP_PUSH15 : Z := 0x6E.
Definition OP_PUSH16 : Z := 0x6F.
Definition OP_PUSH17 : Z := 0x70.
Definition OP_PUSH18 : Z := 0x71.
Definition OP_PUSH19 : Z := 0x72.
Definition OP_PUSH20 : Z := 0x73.
Definition OP_PUSH21 : Z := 0x74.
Definition OP_PUSH22 : Z := 0x75.
Definition OP_PUSH23 : Z := 0x76.
Definition OP_PUSH24 : Z := 0x77.
Definition OP_PUSH25 : Z := 0x78.
Definition OP_PUSH26 : Z := 0x79.
Definition OP_PUSH27 : Z := 0x7A.
Definition OP_PUSH28 : Z := 0x7B.
Definition OP_PUSH29 : Z := 0x7C.
Definition OP_PUSH30 : Z := 0x7D.
Definition OP_PUSH31 : Z := 0x7E.
Definition OP_PUSH32 : Z := 0x7F.
Definition OP_DUP1 : Z := 0x80.
Definition OP_DUP2 : Z := 0x81.
Definition OP_DUP3 : Z := 0x82.
Definition OP_DUP4 : Z := 0x83.
Definition OP_DUP5 : Z := 0x84.
Definition OP_DUP6 : Z := 0x85.
Definition OP_DUP7 : Z := 0x86.
Definition OP_DUP8 : Z := 0x87.
Definition OP_DUP9 : Z := 0x88.
Definition OP_DUP10 : Z := 0x89.
Definition OP_DUP11 : Z := 0x8A.
Definition OP_DUP12 : Z := 0x8B.
Definition OP_DUP13 : Z := 0x8C.
Definition OP_DUP14 : Z := 0x8D.
Definition OP_DUP15 : Z := 0x8E.
Definition OP_DUP16 : Z := 0x8F.
Definition OP_SWAP1 : Z := 0x90.
Definition OP_SWAP2 : Z := 0x91.
Definition OP_SWAP3 : Z := 0x92.
Definition OP_SWAP4 : Z := 0x93.
Definition OP_SWAP5 : Z := 0x94.
Definition OP_SWAP6 : Z := 0x95.
Definition OP_SWAP7 : Z := 0x96.
Definition OP_SWAP8 : Z := 0x97.
Definition OP_SWAP9 : Z := 0x98.
Definition OP_SWAP10 : Z := 0x99.
Definition OP_SWAP11 : Z := 0x9A.
Definition OP_SWAP12 : Z := 0x9B.
Definition OP_SWAP13 : Z := 0x9C.
Definition OP_SWAP14 : Z := 0x9D.
Definition OP_SWAP15 : Z := 0x9E.
Definition OP_SWAP16 : Z := 0x9F.
Definition OP_LOG0 : Z := 0xA0.
Definition OP_LOG1 : Z := 0xA1.
Definition OP_LOG2 : Z := 0xA2.
Definition OP_LOG3 : Z := 0xA3.
Definition OP_LOG4 : Z := 0xA4.
Definition OP_CREATE : Z := 0xF0.
Definition OP_CALL : Z := 0xF1.
Definition OP_CALLCODE : Z := 0xF2.
Definition OP_RETURN : Z := 0xF3.
Definition OP_DELEGATECALL : Z := 0xF4.
Definition OP_CREATE2 : Z := 0xF5.
Definition OP_STATICCALL : Z := 0xFA.
Definition OP_REVERT : Z := 0xFD.
Definition OP_INVALID : Z := 0xFE.
Definition OP_SELFDESTRUCT : Z := 0xFF.

(** * The table *)

Definition opcodes : list (Z * OpCodeInfo) := [
  (OP_STOP, terminating (stack_io 0 0 (OpCodeInfo_new "STOP")));
  (OP_ADD, stack_io 2 1 (OpCodeInfo_new "ADD"));
  (OP_MUL, stack_io 2 1 (OpCodeInfo_new "MUL"));
  (OP_SUB, stack_io 2 1 (OpCodeInfo_new "SUB"));
  (OP_DIV, stack_io 2 1 (OpCodeInfo_new "DIV"));
  (OP_SDIV, stack_io 2 1 (OpCodeInfo_new "SDIV"));
  (OP_MOD, stack_io 2 1 (OpCodeInfo_new "MOD"));
  (OP_SMOD, stack_io 2 1 (OpCodeInfo_new "SMOD"));
  (OP_ADDMOD, stack_io 3 1 (OpCodeInfo_new "ADDMOD"));
  (OP_MULMOD, stack_io 3 1 (OpCodeInfo_new "MULMOD"));
  (OP_EXP, stack_io 2 1 (OpCodeInfo_new "EXP"));
  (OP_SIGNEXTEND, stack_io 2 1 (OpCodeInfo_new "SIGNEXTEND"));
  (OP_LT, stack_io 2 1 (OpCodeInfo_new "LT"));
  (OP_GT, stack_io 2 1 (OpCodeInfo_new "GT"));
  (OP_SLT, stack_io 2 1 (OpCodeInfo_new "SLT"));
  (OP_SGT, stack_io 2 1 (OpCodeInfo_new "SGT"));
  (OP_EQ, stack_io 2 1 (OpCodeInfo_new "EQ"));
  (OP_ISZERO, stack_io 1 1 (OpCodeInfo_new "ISZERO"));
  (OP_AND, stack_io 2 1 (OpCodeInfo_new "AND"));
  (OP_OR, stack_io 2 1 (OpCodeInfo_new "OR"));
  (OP_XOR, stack_io 2 1 (OpCodeInfo_new "XOR"));
  (OP_NOT, stack_io 1 1 (OpCodeInfo_new "NOT"));
  (OP_BYTE, stack_io 2 1 (OpCodeInfo_new "BYTE"));
  (OP_SHL, stack_io 2 1 (OpCodeInfo_new "SHL"));
  (OP_SHR, stack_io 2 1 (OpCodeInfo_new "SHR"));
  (OP_SAR, stack_io 2 1 (OpCodeInfo_new "SAR"));
  (OP_CLZ, stack_io 1 1 (OpCodeInfo_new "CLZ"));
  (OP_KECCAK256, stack_io 2 1 (OpCodeInfo_new "KECCAK256"));
  (OP_ADDRESS, stack_io 0 1 (OpCodeInfo_new "ADDRESS"));
  (OP_BALANCE, stack_io 1 1 (OpCodeInfo_new "BALANCE"));
  (OP_ORIGIN, stack_io 0 1 (OpCodeInfo_new "ORIGIN"));
  (OP_CALLER, stack_io 0 1 (OpCodeInfo_new "CALLER"));
  (OP_CALLVALUE, stack_io 0 1 (OpCodeInfo_new "CALLVALUE"));
  (OP_CALLDATALOAD, stack_io 1 1 (OpCodeInfo_new "CALLDATALOAD"));
  (OP_CALLDATASIZE, stack_io 0 1 (OpCodeInfo_new "CALLDATASIZE"));
  (OP_CALLDATACOPY, stack_io 3 0 (OpCodeInfo_new "CALLDATACOPY"));
  (OP_CODESIZE, stack_io 0 1 (OpCodeInfo_new "CODESIZE"));
  (OP_CODECOPY, stack_io 3 0 (OpCodeInfo_new "CODECOPY"));
  (OP_GASPRICE, stack_io 0 1 (OpCodeInfo_new "GASPRICE"));
  (OP_EXTCODESIZE, stack_io 1 1 (OpCodeInfo_new "EXTCODESIZE"));
  (OP_EXTCODECOPY, stack_io 4 0 (OpCodeInfo_new "EXTCODECOPY"));
  (OP_RETURNDATASIZE, stack_io 0 1 (OpCodeInfo_new "RETURNDATASIZE"));
  (OP_RETURNDATACOPY, stack_io 3 0 (OpCodeInfo_new "RETURNDATACOPY"));
  (OP_EXTCODEHASH, stack_io 1 1 (OpCodeInfo_new "EXTCODEHASH"));
  (OP_BLOCKHASH, stack_io 1 1 (OpCodeInfo_new "BLOCKHASH"));
  (OP_COINBASE, stack_io 0 1 (OpCodeInfo_new "COINBASE"));
  (OP_TIMESTAMP, stack_io 0 1 (OpCodeInfo_new "TIMESTAMP"));
  (OP_NUMBER, stack_io 0 1 (OpCodeInfo_new "NUMBER"));
  (OP_DIFFICULTY, stack_io 0 1 (OpCodeInfo_new "DIFFICULTY"));
  (OP_GASLIMIT, stack_io 0 1 (OpCodeInfo_new "GASLIMIT"));
  (OP_CHAINID, stack_io 0 1 (OpCodeInfo_new "CHAINID"));
  (OP_SELFBALANCE, stack_io 0 1 (OpCodeInfo_new "SELFBALANCE"));
  (OP_BASEFEE, stack_io 0 1 (OpCodeInfo_new "BASEFEE"));
  (OP_BLOBHASH, stack_io 1 1 (OpCodeInfo_new "BLOBHASH"));
  (OP_BLOBBASEFEE, stack_io 0 1 (OpCodeInfo_new "BLOBBASEFEE"));
  (OP_POP, stack_io 1 0 (OpCodeInfo_new "POP"));
  (OP_MLOAD, stack_io 1 1 (OpCodeInfo_new "MLOAD"));
  (OP_MSTORE, stack_io 2 0 (OpCodeInfo_new "MSTORE"));
  (OP_MSTORE8, stack_io 2 0 (OpCodeInfo_new "MSTORE8"));
  (OP_SLOAD, stack_io 1 1 (OpCodeInfo_new "SLOAD"));
  (OP_SSTORE, stack_io 2 0 (OpCodeInfo_new "SSTORE"));
  (OP_JUMP, stack_io 1 0 (OpCodeInfo_new "JUMP"));
  (OP_JUMPI, stack_io 2 0 (OpCodeInfo_new "JUMPI"));
  (OP_PC, stack_io 0 1 (OpCodeInfo_new "PC"));
  (OP_MSIZE, stack_io 0 1 (OpCodeInfo_new "MSIZE"));
  (OP_GAS, stack_io 0 1 (OpCodeInfo_new "GAS"));
  (OP_JUMPDEST, stack_io 0 0 (OpCodeInfo_new "JUMPDEST"));
  (OP_TLOAD, stack_io 1 1 (OpCodeInfo_new "TLOAD"));
  (OP_TSTORE, stack_io 2 0 (OpCodeInfo_new "TSTORE"));
  (OP_MCOPY, stack_io 3 0 (OpCodeInfo_new "MCOPY"));
  (OP_PUSH0, stack_io 0 1 (OpCodeInfo_new "PUSH0"));
  (OP_PUSH1, immediate_size 1 (stack_io 0 1 (OpCodeInfo_new "PUSH1")));
  (OP_PUSH2, immediate_size 2 (stack_io 0 1 (OpCodeInfo_new "PUSH2")));
  (OP_PUSH3, immediate_size 3 (stack_io 0 1 (OpCodeInfo_new "PUSH3")));
  (OP_PUSH4, immediate_size 4 (stack_io 0 1 (OpCodeInfo_new "PUSH4")));
  (OP_PUSH5, immediate_size 5 (stack_io 0 1 (OpCodeInfo_new "PUSH5")));
  (OP_PUSH6, immediate_size 6 (stack_io 0 1 (OpCodeInfo_new "PUSH6")));
  (OP_PUSH7, immediate_size 7 (stack_io 0 1 (OpCodeInfo_new "PUSH7")));
  (OP_PUSH8, immediate_size 8 (stack_io 0 1 (OpCodeInfo_new "PUSH8")));
  (OP_PUSH9, immediate_size 9 (stack_io 0 1 (OpCodeInfo_new "PUSH9")));
  (OP_PUSH10, immediate_size 10 (stack_io 0 1 (OpCodeInfo_new "PUSH10")));
  (OP_PUSH11, immediate_size 11 (stack_io 0 1 (OpCodeInfo_new "PUSH11")));
  (OP_PUSH12, immediate_size 12 (stack_io 0 1 (OpCodeInfo_new "PUSH12")));
  (OP_PUSH13, immediate_size 13 (stack_io 0 1 (OpCodeInfo_new "PUSH13")));
  (OP_PUSH14, immediate_size 14 (stack_io 0 1 (OpCodeInfo_new "PUSH14")));
  (OP_PUSH15, immediate_size 15 (stack_io 0 1 (OpCodeInfo_new "PUSH15")));
  (OP_PUSH16, immediate_size 16 (stack_io 0 1 (OpCodeInfo_new "PUSH16")));
  (OP_PUSH17, immediate_size 17 (stack_io 0 1 (OpCodeInfo_new "PUSH17")));
  (OP_PUSH18, immediate_size 18 (stack_io 0 1 (OpCodeInfo_new "PUSH18")));
  (OP_PUSH19, immediate_size 19 (stack_io 0 1 (OpCodeInfo_new "PUSH19")));
  (OP_PUSH20, immediate_size 20 (stack_io 0 1 (OpCodeInfo_new "PUSH20")));
  (OP_PUSH21, immediate_size 21 (stack_io 0 1 (OpCodeInfo_new "PUSH21")));
  (OP_PUSH22, immediate_size 22 (stack_io 0 1 (OpCodeInfo_new "PUSH22")));
  (OP_PUSH23, immediate_size 23 (stack_io 0 1 (OpCodeInfo_new "PUSH23")));
  (OP_PUSH24, immediate_size 24 (stack_io 0 1 (OpCodeInfo_new "PUSH24")));
  (OP_PUSH25, immediate_size 25 (stack_io 0 1 (OpCodeInfo_new "PUSH25")));
  (OP_PUSH26, immediate_size 26 (stack_io 0 1 (OpCodeInfo_new "PUSH26")));
  (OP_PUSH27, immediate_size 27 (stack_io 0 1 (OpCodeInfo_new "PUSH27")));
  (OP_PUSH28, immediate_size 28 (stack_io 0 1 (OpCodeInfo_new "PUSH28")));
  (OP_PUSH29, immediate_size 29 (stack_io 0 1 (OpCodeInfo_new "PUSH29")));
  (OP_PUSH30, immediate_size 30 (stack_io 0 1 (OpCodeInfo_new "PUSH30")));
  (OP_PUSH31, immediate_size 31 (stack_io 0 1 (OpCodeInfo_new "PUSH31")));
  (OP_PUSH32, immediate_size 32 (stack_io 0 1 (OpCodeInfo_new "PUSH32")));
  (OP_DUP1, stack_io 1 2 (OpCodeInfo_new "DUP1"));
  (OP_DUP2, stack_io 2 3 (OpCodeInfo_new "DUP2"));
  (OP_DUP3, stack_io 3 4 (OpCodeInfo_new "DUP3"));
  (OP_DUP4, stack_io 4 5 (OpCodeInfo_new "DUP4"));
  (OP_DUP5, stack_io 5 6 (OpCodeInfo_new "DUP5"));
  (OP_DUP6, stack_io 6 7 (OpCodeInfo_new "DUP6"));
  (OP_DUP7, stack_io 7 8 (OpCodeInfo_new "DUP7"));
  (OP_DUP8, stack_io 8 9 (OpCodeInfo_new "DUP8"));
  (OP_DUP9, stack_io 9 10 (OpCodeInfo_new "DUP9"));
  (OP_DUP10, stack_io 10 11 (OpCodeInfo_new "DUP10"));
  (OP_DUP11, stack_io 11 12 (OpCodeInfo_new "DUP11"));
  (OP_DUP12, stack_io 12 13 (OpCodeInfo_new "DUP12"));
  (OP_DUP13, stack_io 13 14 (OpCodeInfo_new "DUP13"));
  (OP_DUP14, stack_io 14 15 (OpCodeInfo_new "DUP14"));
  (OP_DUP15, stack_io 15 16 (OpCodeInfo_new "DUP15"));
  (OP_DUP16, stack_io 16 17 (OpCodeInfo_new "DUP16"));
  (OP_SWAP1, stack_io 2 2 (OpCodeInfo_new "SWAP1"));
  (OP_SWAP2, stack_io 3 3 (OpCodeInfo_new "SWAP2"));
  (OP_SWAP3, stack_io 4 4 (OpCodeInfo_new "SWAP3"));
  (OP_SWAP4, stack_io 5 5 (OpCodeInfo_new "SWAP4"));
  (OP_SWAP5, stack_io 6 6 (OpCodeInfo_new "SWAP5"));
  (OP_SWAP6, stack_io 7 7 (OpCodeInfo_new "SWAP6"));
  (OP_SWAP7, stack_io 8 8 (OpCodeInfo_new "SWAP7"));
  (OP_SWAP8, stack_io 9 9 (OpCodeInfo_new "SWAP8"));
  (OP_SWAP9, stack_io 10 10 (OpCodeInfo_new "SWAP9"));
  (OP_SWAP10, stack_io 11 11 (OpCodeInfo_new "SWAP10"));
  (OP_SWAP11, stack_io 12 12 (OpCodeInfo_new "SWAP11"));
  (OP_SWAP12, stack_io 13 13 (OpCodeInfo_new "SWAP12"));
  (OP_SWAP13, stack_io 14 14 (OpCodeInfo_new "SWAP13"));
  (OP_SWAP14, stack_io 15 15 (OpCodeInfo_new "SWAP14"));
  (OP_SWAP15, stack_io 16 16 (OpCodeInfo_new "SWAP15"));
  (OP_SWAP16, stack_io 17 17 (OpCodeInfo_new "SWAP16"));
  (OP_LOG0, stack_io 2 0 (OpCodeInfo_new "LOG0"));
  (OP_LOG1, stack_io 3 0 (OpCodeInfo_new "LOG1"));
  (OP_LOG2, stack_io 4 0 (OpCodeInfo_new "LOG2"));
  (OP_LOG3, stack_io 5 0 (OpCodeInfo_new "LOG3"));
  (OP_LOG4, stack_io 6 0 (OpCodeInfo_new "LOG4"));
  (OP_CREATE, stack_io 3 1 (OpCodeInfo_new "CREATE"));
  (OP_CALL, stack_io 7 1 (OpCodeInfo_new "CALL"));
  (OP_CALLCODE, stack_io 7 1 (OpCodeInfo_new "CALLCODE"));
  (OP_RETURN, terminating (stack_io 2 0 (OpCodeInfo_new "RETURN")));
  (OP_DELEGATECALL, stack_io 6 1 (OpCodeInfo_new "DELEGATECALL"));
  (OP_CREATE2, stack_io 4 1 (OpCodeInfo_new "CREATE2"));
  (OP_STATICCALL, stack_io 6 1 (OpCodeInfo_new "STATICCALL"));
  (OP_REVERT, terminating (stack_io 2 0 (OpCodeInfo_new "REVERT")));
  (OP_INVALID, terminating (stack_io 0 0 (OpCodeInfo_new "INVALID")));
  (OP_SELFDESTRUCT, terminating (stack_io 1 0 (OpCodeInfo_new "SELFDESTRUCT")))
].

(** [OPCODE_INFO[opcode]]. *)
Definition OPCODE_INFO (opcode : Z) : option OpCodeInfo :=
  match list_find (fun p : Z * OpCodeInfo => p.1 = opcode) opcodes with
  | Some (_, (_, info)) => Some info
  | None => None
  end.

Definition OpCode_new (opcode : Z) : option Z :=
  match OPCODE_INFO opcode with Some _ => Some opcode | None => None end.
