(* ===== verification/InstructionTable.v ===== *)
(** The instruction table of [crates/interpreter/src/instructions.rs] and the
    run loop of [crates/interpreter/src/interpreter.rs]. *)
From S2P Require Import Prelude Hardfork Bytecode JournalEntry Gas InstructionResult Stack SharedMemory Interpreter Host Macros Instructions HostInstructions Opcode.
From stdpp Require Import base numbers list option tactics.
From Stdlib Require Import ZArith Lia.

Local Open Scope Z_scope.

Record Instruction (H : Type) := mkInstruction { fn_ : Instr H unit; static_gas : Z }.
Arguments mkInstruction {H} fn_ static_gas.
Arguments fn_ {H} i.
Arguments static_gas {H} i.

Section Table.
Context {H : Type} `{!Host H, !BitVec, !Keccak}.

Definition Instruction_unknown : Instruction H := mkInstruction control_unknown 0.

(** The assignments to [table], in order. *)
Definition table_assignments : list (Z * Instruction H) := [
  (OP_STOP, mkInstruction control_stop 0);
  (OP_ADD, mkInstruction arithmetic_add 3);
  (OP_MUL, mkInstruction arithmetic_mul 5);
  (OP_SUB, mkInstruction arithmetic_sub 3);
  (OP_DIV, mkInstruction arithmetic_div 5);
  (OP_SDIV, mkInstruction arithmetic_sdiv 5);
  (OP_MOD, mkInstruction arithmetic_rem 5);
  (OP_SMOD, mkInstruction arithmetic_smod 5);
  (OP_ADDMOD, mkInstruction arithmetic_addmod 8);
  (OP_MULMOD, mkInstruction arithmetic_mulmod 8);
  (OP_EXP, mkInstruction arithmetic_exp 0);
  (OP_SIGNEXTEND, mkInstruction arithmetic_signextend 5);
  (OP_LT, mkInstruction bitwise_lt 3);
  (OP_GT, mkInstruction bitwise_gt 3);
  (OP_SLT, mkInstruction bitwise_slt 3);
  (OP_SGT, mkInstruction bitwise_sgt 3);
  (OP_EQ, mkInstruction bitwise_eq 3);
  (OP_ISZERO, mkInstruction bitwise_iszero 3);
  (OP_AND, mkInstruction bitwise_bitand 3);
  (OP_OR, mkInstruction bitwise_bitor 3);
  (OP_XOR, mkInstruction bitwise_bitxor 3);
  (OP_NOT, mkInstruction bitwise_not 3);
  (OP_BYTE, mkInstruction bitwise_byte 3);
  (OP_SHL, mkInstruction bitwise_shl 3);
  (OP_SHR, mkInstruction bitwise_shr 3);
  (OP_SAR, mkInstruction bitwise_sar 3);
  (OP_CLZ, mkInstruction bitwise_clz 5);
  (OP_KECCAK256, mkInstruction system_keccak256 0);
  (OP_ADDRESS, mkInstruction system_address 2);
  (OP_BALANCE, mkInstruction host_instr_balance 0);
  (OP_ORIGIN, mkInstruction tx_info_origin 2);
  (OP_CALLER, mkInstruction system_caller 2);
  (OP_CALLVALUE, mkInstruction system_callvalue 2);
  (OP_CALLDATALOAD, mkInstruction system_calldataload 3);
  (OP_CALLDATASIZE, mkInstruction system_calldatasize 2);
  (OP_CALLDATACOPY, mkInstruction system_calldatacopy 0);
  (OP_CODESIZE, mkInstruction system_codesize 2);
  (OP_CODECOPY, mkInstruction system_codecopy 0);
  (OP_GASPRICE, mkInstruction tx_info_gasprice 2);
  (OP_EXTCODESIZE, mkInstruction host_instr_extcodesize 0);
  (OP_EXTCODECOPY, mkInstruction host_instr_extcodecopy 0);
  (OP_RETURNDATASIZE, mkInstruction system_returndatasize 2);
  (OP_RETURNDATACOPY, mkInstruction system_returndatacopy 0);
  (OP_EXTCODEHASH, mkInstruction host_instr_extcodehash 0);
  (OP_BLOCKHASH, mkInstruction host_instr_blockhash 20);
  (OP_COINBASE, mkInstruction block_info_coinbase 2);
  (OP_TIMESTAMP, mkInstruction block_info_timestamp 2);
  (OP_NUMBER, mkInstruction block_info_block_number 2);
  (OP_DIFFICULTY, mkInstruction block_info_difficulty 2);
  (OP_GASLIMIT, mkInstruction block_info_gaslimit 2);
  (OP_CHAINID, mkInstruction block_info_chainid 2);
  (OP_SELFBALANCE, mkInstruction host_instr_selfbalance 5);
  (OP_BASEFEE, mkInstruction block_info_basefee 2);
  (OP_BLOBHASH, mkInstruction tx_info_blob_hash 3);
  (OP_BLOBBASEFEE, mkInstruction block_info_blob_basefee 2);
  (OP_POP, mkInstruction stack_pop 2);
  (OP_MLOAD, mkInstruction memory_mload 3);
  (OP_MSTORE, mkInstruction memory_mstore 3);
  (OP_MSTORE8, mkInstruction memory_mstore8 3);
  (OP_SLOAD, mkInstruction host_instr_sload 0);
  (OP_SSTORE, mkInstruction host_instr_sstore 0);
  (OP_JUMP, mkInstruction control_jump 8);
  (OP_JUMPI, mkInstruction control_jumpi 10);
  (OP_PC, mkInstruction control_pc 2);
  (OP_MSIZE, mkInstruction memory_msize 2);
  (OP_GAS, mkInstruction system_gas 2);
  (OP_JUMPDEST, mkInstruction control_jumpdest 1);
  (OP_TLOAD, mkInstruction host_instr_tload 100);
  (OP_TSTORE, mkInstruction host_instr_tstore 100);
  (OP_MCOPY, mkInstruction memory_mcopy 0);
  (OP_PUSH0, mkInstruction stack_push0 2);
  (OP_PUSH1, mkInstruction (stack_push 1) 3);
  (OP_PUSH2, mkInstruction (stack_push 2) 3);
  (OP_PUSH3, mkInstruction (stack_push 3) 3);
  (OP_PUSH4, mkInstruction (stack_push 4) 3);
  (OP_PUSH5, mkInstruction (stack_push 5) 3);
  (OP_PUSH6, mkInstruction (stack_push 6) 3);
  (OP_PUSH7, mkInstruction (stack_push 7) 3);
  (OP_PUSH8, mkInstruction (stack_push 8) 3);
  (OP_PUSH9, mkInstruction (stack_push 9) 3);
  (OP_PUSH10, mkInstruction (stack_push 10) 3);
  (OP_PUSH11, mkInstruction (stack_push 11) 3);
  (OP_PUSH12, mkInstruction (stack_push 12) 3);
  (OP_PUSH13, mkInstruction (stack_push 13) 3);
  (OP_PUSH14, mkInstruction (stack_push 14) 3);
  (OP_PUSH15, mkInstruction (stack_push 15) 3);
  (OP_PUSH16, mkInstruction (stack_push 16) 3);
  (OP_PUSH17, mkInstruction (stack_push 17) 3);
  (OP_PUSH18, mkInstruction (stack_push 18) 3);
  (OP_PUSH19, mkInstruction (stack_push 19) 3);
  (OP_PUSH20, mkInstruction (stack_push 20) 3);
  (OP_PUSH21, mkInstruction (stack_push 21) 3);
  (OP_PUSH22, mkInstruction (stack_push 22) 3);
  (OP_PUSH23, mkInstruction (stack_push 23) 3);
  (OP_PUSH24, mkInstruction (stack_push 24) 3);
  (OP_PUSH25, mkInstruction (stack_push 25) 3);
  (OP_PUSH26, mkInstruction (stack_push 26) 3);
  (OP_PUSH27, mkInstruction (stack_push 27) 3);
  (OP_PUSH28, mkInstruction (stack_push 28) 3);
  (OP_PUSH29, mkInstruction (stack_push 29) 3);
  (OP_PUSH30, mkInstruction (stack_push 30) 3);
  (OP_PUSH31, mkInstruction (stack_push 31) 3);
  (OP_PUSH32, mkInstruction (stack_push 32) 3);
  (OP_DUP1, mkInstruction (stack_dup 1) 3);
  (OP_DUP2, mkInstruction (stack_dup 2) 3);
  (OP_DUP3, mkInstruction (stack_dup 3) 3);
  (OP_DUP4, mkInstruction (stack_dup 4) 3);
  (OP_DUP5, mkInstruction (stack_dup 5) 3);
  (OP_DUP6, mkInstruction (stack_dup 6) 3);
  (OP_DUP7, mkInstruction (stack_dup 7) 3);
  (OP_DUP8, mkInstruction (stack_dup 8) 3);
  (OP_DUP9, mkInstruction (stack_dup 9) 3);
  (OP_DUP10, mkInstruction (stack_dup 10) 3);
  (OP_DUP11, mkInstruction (stack_dup 11) 3);
  (OP_DUP12, mkInstruction (stack_dup 12) 3);
  (OP_DUP13, mkInstruction (stack_dup 13) 3);
  (OP_DUP14, mkInstruction (stack_dup 14) 3);
  (OP_DUP15, mkInstruction (stack_dup 15) 3);
  (OP_DUP16, mkInstruction (stack_dup 16) 3);
  (OP_SWAP1, mkInstruction (stack_swap 1) 3);
  (OP_SWAP2, mkInstruction (stack_swap 2) 3);
  (OP_SWAP3, mkInstruction (stack_swap 3) 3);
  (OP_SWAP4, mkInstruction (stack_swap 4) 3);
  (OP_SWAP5, mkInstruction (stack_swap 5) 3);
  (OP_SWAP6, mkInstruction (stack_swap 6) 3);
  (OP_SWAP7, mkInstruction (stack_swap 7) 3);
  (OP_SWAP8, mkInstruction (stack_swap 8) 3);
  (OP_SWAP9, mkInstruction (stack_swap 9) 3);
  (OP_SWAP10, mkInstruction (stack_swap 10) 3);
  (OP_SWAP11, mkInstruction (stack_swap 11) 3);
  (OP_SWAP12, mkInstruction (stack_swap 12) 3);
  (OP_SWAP13, mkInstruction (stack_swap 13) 3);
  (OP_SWAP14, mkInstruction (stack_swap 14) 3);
  (OP_SWAP15, mkInstruction (stack_swap 15) 3);
  (OP_SWAP16, mkInstruction (stack_swap 16) 3);
  (OP_LOG0, mkInstruction (host_instr_log 0) 0);
  (OP_LOG1, mkInstruction (host_instr_log 1) 0);
  (OP_LOG2, mkInstruction (host_instr_log 2) 0);
  (OP_LOG3, mkInstruction (host_instr_log 3) 0);
  (OP_LOG4, mkInstruction (host_instr_log 4) 0);
  (OP_CREATE, mkInstruction (contract_create false) 0);
  (OP_CALL, mkInstruction contract_call 0);
  (OP_CALLCODE, mkInstruction contract_call_code 0);
  (OP_RETURN, mkInstruction control_ret 0);
  (OP_DELEGATECALL, mkInstruction contract_delegate_call 0);
  (OP_CREATE2, mkInstruction (contract_create true) 0);
  (OP_STATICCALL, mkInstruction contract_static_call 0);
  (OP_REVERT, mkInstruction control_revert 0);
  (OP_INVALID, mkInstruction control_invalid 0);
  (OP_SELFDESTRUCT, mkInstruction host_instr_selfdestruct 0)
].

Definition assign_instruction (table : list (Instruction H)) (a : Z * Instruction H) : list (Instruction H) :=
  <[Z.to_nat a.1 := a.2]> table.
Definition instruction_table : list (Instruction H) :=
  foldl assign_instruction (replicate 256 Instruction_unknown) table_assignments.

(** * Executing *)

Definition record_cost_unsafe (cost : Z) : Instr H bool := fun i h =>
  let '(oog, g) := Gas_record_cost_unsafe cost (i_gas i) in Some (Some oog, with_gas g i, h).

(** [get_unchecked]: undefined behaviour outside the table. *)
Definition get_instruction (table : list (Instruction H)) (opcode : Z) : Instr H (Instruction H) :=
  match table !! Z.to_nat opcode with Some ins => mret ins | None => panic end.

Definition Interpreter_step (table : list (Instruction H)) : Instr H unit :=
  opcode ← read (fun i => ExtBytecode_opcode (i_bytecode i));
  update (fun i => let? b := ExtBytecode_relative_jump 1 (i_bytecode i) in Some (with_bytecode b i)) ;;
  instruction ← get_instruction table opcode;
  oog ← record_cost_unsafe (static_gas instruction);
  if (oog : bool) then halt_with Interpreter_halt_oog else fn_ instruction.

(** The loop of [run_plain]: one step per unit of fuel. *)
Inductive run_result :=
| Run_panic
| Run_out_of_fuel
| Run_done (action : InterpreterAction) (i : Interpreter) (h : H).

Fixpoint Interpreter_run_plain (fuel : nat) (table : list (Instruction H)) (i : Interpreter) (h : H)
    : run_result :=
  if ExtBytecode_is_not_end (i_bytecode i) then
    match fuel with
    | O => Run_out_of_fuel
    | S fuel =>
        match Interpreter_step table i h with
        | Some (_, i, h) => Interpreter_run_plain fuel table i h
        | None => Run_panic
        end
    end
  else
    match Interpreter_take_next_action i with
    | Some (action, i) => Run_done action i h
    | None => Run_panic
    end.
End Table.
Arguments run_result H : clear implicits.
