(* ===== verification/Handler.v ===== *)
(** The EVM and the handler that executes a transaction on it:
    [crates/handler/src/evm.rs], [handler.rs] and [execution.rs].

    A phase returns an [outcome]: the panic of a component, the exhaustion of
    the fuel, or the result with the EVM the phase leaves behind.  The fuel
    [fuel] bounds the iterations of the loop over the frames and [steps] the
    instructions a frame runs between two of them. *)
From S2P Require Import Prelude Hardfork Bytecode State Database WarmAddresses Precompile JournalEntry JournalInner Gas InstructionResult Stack SharedMemory FrameStack Interpreter Env Host Context Validation Frame PreExecution PostExecution Macros Instructions HostInstructions InstructionTable.
From stdpp Require Import base numbers list option tactics gmap strings.
From Stdlib Require Import ZArith Lia.

Local Open Scope Z_scope.

Inductive outcome (A : Type) := Panicked | Out_of_fuel | Done (a : A).
Arguments Panicked {A}.
Arguments Out_of_fuel {A}.
Arguments Done {A} a.

Definition of_option {A} (m : option A) : outcome A :=
  match m with Some a => Done a | None => Panicked end.

(** [go! (x, s) := m in k] is [m?] of a phase that changes the state [s]. *)
Notation "'go!' '(' x ',' s ')' ':=' m 'in' k" :=
  (match m with
   | Done (Ok x, s) => k
   | Done (Err e, s) => Done (Err e, s)
   | Out_of_fuel => Out_of_fuel
   | Panicked => Panicked
   end)
  (at level 10, x pattern, s name, m at level 100, k at level 200).

Definition outcome_map_err {A E F S} (f : E -> F) (m : outcome (result A E * S)) : outcome (result A F * S) :=
  match m with
  | Done (r, s) => Done (map_err f r, s)
  | Out_of_fuel => Out_of_fuel
  | Panicked => Panicked
  end.

(** [From<ContextError>] of [EVMError]. *)
Definition EVMError_from_context {E} (e : ContextError E) : EVMError E :=
  match e with
  | ContextError_Db e => EVMError_Database e
  | ContextError_Custom e => EVMError_Custom e
  end.

Section Handler.
Context `{BitVec, Keccak, Crypto, CreateAddress, VecGrow} {DB E Auth : Type}.
Context `{!Database DB E, !AuthorizationTr Auth}.
Abbreviation Ctx := (Context DB E Auth).

Record Evm := mkEvm {
  evm_ctx : Ctx; evm_precompiles : EthPrecompiles; evm_frame_stack : FrameStack EthFrame }.

Definition with_ctx (ctx : Ctx) (evm : Evm) : Evm := mkEvm ctx (evm_precompiles evm) (evm_frame_stack evm).
Definition with_frame_stack (fs : FrameStack EthFrame) (evm : Evm) : Evm :=
  mkEvm (evm_ctx evm) (evm_precompiles evm) fs.

(** * Frames on the EVM *)

Definition frame_init (self : Evm) (frame_input : FrameInit)
    : option (result (ItemOrResult EthFrame FrameResult) (ContextError E) * Evm) :=
  let is_first_init := bool_decide (fs_index (evm_frame_stack self) = None) in
  let? (new_frame, fs) :=
    if is_first_init then Some (FrameStack_start_init (evm_frame_stack self))
    else FrameStack_get_next (evm_frame_stack self) in
  let? (res, ctx) := init_with_context new_frame fs (evm_ctx self) (evm_precompiles self) frame_input in
  let self := with_frame_stack fs (with_ctx ctx self) in
  match res with
  | Err e => Some (Err e, self)
  | Ok (Result result) => Some (Ok (Result result), self)
  | Ok (Item (token, fs)) =>
      let? fs := if is_first_init then FrameStack_end_init token fs else FrameStack_push token fs in
      let? frame := FrameStack_get fs in
      Some (Ok (Item frame), with_frame_stack fs self)
  end.

(** The interpreter borrows the shared buffer while it runs. *)
Definition borrow_buffer (ctx : Ctx) (i : Interpreter) : Interpreter :=
  with_buffer (shared_memory_buffer (ctx_local ctx)) i.
Definition return_buffer (i : Interpreter) (ctx : Ctx) : Ctx :=
  with_local (mkLocalContext (i_buffer i) (precompile_error_message (ctx_local ctx))) ctx.

Definition frame_run (steps : nat) (self : Evm) : outcome (ItemOrResult FrameInit FrameResult * Evm) :=
  match FrameStack_get (evm_frame_stack self) with
  | None => Panicked
  | Some frame =>
      match Interpreter_run_plain steps instruction_table (borrow_buffer (evm_ctx self) (ef_interpreter frame))
              (evm_ctx self) with
      | Run_panic => Panicked
      | Run_out_of_fuel => Out_of_fuel
      | Run_done action i ctx =>
          let ctx := return_buffer i ctx in
          let frame := set_frame_interpreter (with_buffer [] i) frame in
          of_option (
            let? (r, frame, ctx) := process_next_action frame ctx action in
            let frame := if ItemOrResult_is_result r then EthFrame_set_finished true frame else frame in
            let? fs := FrameStack_set frame (evm_frame_stack self) in
            Some (r, with_frame_stack fs (with_ctx ctx self)))
      end
  end.

Definition frame_return_result (self : Evm) (result : FrameResult)
    : option (Prelude.result (option FrameResult) (ContextError E) * Evm) :=
  let? frame := FrameStack_get (evm_frame_stack self) in
  let fs := if ef_is_finished frame then FrameStack_pop (evm_frame_stack self) else evm_frame_stack self in
  if bool_decide (fs_index fs = None) then Some (Ok (Some result), with_frame_stack fs self)
  else
    let? frame := FrameStack_get fs in
    let? (r, (frame, ctx)) := EthFrame_return_result frame (evm_ctx self) result in
    let? fs := FrameStack_set frame fs in
    Some (map_ok (fun _ => None) r, with_frame_stack fs (with_ctx ctx self)).

(** * The loop over the frames *)

Definition exec_step (steps : nat) (evm : Evm) : outcome (result (option FrameResult) (ContextError E) * Evm) :=
  match frame_run steps evm with
  | Panicked => Panicked
  | Out_of_fuel => Out_of_fuel
  | Done (Item init, evm) =>
      go! (res, evm) := of_option (frame_init evm init) in
      match res with
      | Item _ => Done (Ok None, evm)
      | Result result => of_option (frame_return_result evm result)
      end
  | Done (Result result, evm) => of_option (frame_return_result evm result)
  end.

Fixpoint exec_loop (steps fuel : nat) (evm : Evm) {struct fuel}
    : outcome (result FrameResult (ContextError E) * Evm) :=
  match fuel with
  | O => Out_of_fuel
  | S fuel =>
      go! (r, evm) := exec_step steps evm in
      match r with
      | Some result => Done (Ok result, evm)
      | None => exec_loop steps fuel evm
      end
  end.

Definition run_exec_loop (steps fuel : nat) (evm : Evm) (first_frame_input : FrameInit)
    : outcome (result FrameResult (ContextError E) * Evm) :=
  go! (res, evm) := of_option (frame_init evm first_frame_input) in
  match res with
  | Result frame_result => Done (Ok frame_result, evm)
  | Item _ => exec_loop steps fuel evm
  end.

(** * Execution *)

Definition create_init_frame (tx : TxEnv Auth) (bytecode : option (Bytecode * Z)) (gas_limit : Z) : FrameInput :=
  let input := tx_data tx in
  match tx_kind tx with
  | TxCall target_address =>
      let known_bytecode := (fun '(code, hash) => (hash, code)) <$> bytecode in
      FI_Call (mkCallInputs (CallInput_Bytes input) (0, 0) gas_limit target_address known_bytecode target_address
                 (tx_caller tx) (Transfer (tx_value tx)) Scheme_Call false)
  | TxCreate =>
      FI_Create (mkCreateInputs (tx_caller tx) Create (tx_value tx) input gas_limit)
  end.

(** The code of the account and its hash. *)
Definition first_code (account : StateLoad Account) : Bytecode * Z :=
  let i := info (data account) in (default Bytecode_default (code i), code_hash i).

Definition first_bytecode (kind : TxKind) (ctx : Ctx) : option (result (option (Bytecode * Z)) (EVMError E) * Ctx) :=
  match kind with
  | TxCreate => Some (Ok None, ctx)
  | TxCall to =>
      run! (account, ctx) := try_db (Journal_load_account_with_code to (ctx_journaled_state ctx)) ctx in
      match code (info (data account)) with
      | Some (Eip7702 eip7702_bytecode) =>
          run! (account, ctx) := try_db (Journal_load_account_with_code (delegated_address eip7702_bytecode)
                                           (ctx_journaled_state ctx)) ctx in
          Some (Ok (Some (first_code account)), ctx)
      | _ => Some (Ok (Some (first_code account)), ctx)
      end
  end.

Definition first_frame_input (ctx : Ctx) (gas_limit : Z) : option (result FrameInit (EVMError E) * Ctx) :=
  run! (bytecode, ctx) := first_bytecode (tx_kind (ctx_tx ctx)) ctx in
  Some (Ok (mkFrameInit 0 SharedMemory_new (create_init_frame (ctx_tx ctx) bytecode gas_limit)), ctx).

Definition last_frame_result (ctx : Ctx) (frame_result : FrameResult) : FrameResult :=
  let instruction_result := ir_result (FrameResult_interpreter_result frame_result) in
  let remaining := gas_remaining (FrameResult_gas frame_result) in
  let refunded := gas_refunded (FrameResult_gas frame_result) in
  let gas := Gas_new_spent (tx_gas_limit (ctx_tx ctx)) in
  let gas := if InstructionResult_is_ok_or_revert instruction_result then Gas_erase_cost remaining gas else gas in
  let gas := if InstructionResult_is_ok instruction_result then Gas_record_refund refunded gas else gas in
  FrameResult_set_gas gas frame_result.

Definition execution (steps fuel : nat) (evm : Evm) (init_and_floor_gas : InitialAndFloorGas)
    : outcome (result FrameResult (EVMError E) * Evm) :=
  let gas_limit := wrapping_sub 64 (tx_gas_limit (ctx_tx (evm_ctx evm))) (initial_gas init_and_floor_gas) in
  match first_frame_input (evm_ctx evm) gas_limit with
  | None => Panicked
  | Some (Err e, ctx) => Done (Err e, with_ctx ctx evm)
  | Some (Ok first_frame_input, ctx) =>
      go! (frame_result, evm) :=
        outcome_map_err EVMError_from_context (run_exec_loop steps fuel (with_ctx ctx evm) first_frame_input) in
      Done (Ok (last_frame_result (evm_ctx evm) frame_result), evm)
  end.

(** * The phases *)

Definition validate (ctx : Ctx) : option (result InitialAndFloorGas (EVMError E)) :=
  match validate_env ctx with
  | Err e => Some (Err e)
  | Ok _ =>
      let? r := validate_initial_tx_gas (ctx_tx ctx) (cfg_spec (ctx_cfg ctx)) (Cfg_is_eip7623_disabled (ctx_cfg ctx)) in
      Some (map_err EVMError_Transaction r)
  end.

(** An operation on the context, in the EVM. *)
Definition in_ctx {A} (m : option (A * Ctx)) (evm : Evm) : option (A * Evm) :=
  let? (a, ctx) := m in Some (a, with_ctx ctx evm).

Definition pre_execution (arrival : list Auth -> list Auth) (evm : Evm) : option (result Z (EVMError E) * Evm) :=
  run! (_, evm) := in_ctx (validate_against_state_and_deduct_caller (evm_ctx evm)) evm in
  let '(ctx, precompiles) := load_accounts (evm_ctx evm) (evm_precompiles evm) in
  let evm := mkEvm ctx precompiles (evm_frame_stack evm) in
  in_ctx (apply_eip7702_auth_list arrival (evm_ctx evm)) evm.

(** The gas of the result after the refund and the floor. *)
Definition settle_gas (spec : SpecId) (gas : Gas) (init_and_floor_gas : InitialAndFloorGas) (eip7702_gas_refund : Z) : Gas :=
  eip7623_check_gas_floor (refund spec gas eip7702_gas_refund) init_and_floor_gas.

Definition post_execution (evm : Evm) (exec_result : FrameResult) (init_and_floor_gas : InitialAndFloorGas)
    (eip7702_gas_refund : Z) : option (result FrameResult (EVMError E) * Evm) :=
  let gas := settle_gas (cfg_spec (ctx_cfg (evm_ctx evm))) (FrameResult_gas exec_result) init_and_floor_gas
               eip7702_gas_refund in
  run! (_, evm) := in_ctx (run_map_err EVMError_Database (reimburse_caller (evm_ctx evm) gas 0)) evm in
  run! (_, evm) := in_ctx (run_map_err EVMError_Database (reward_beneficiary (evm_ctx evm) gas)) evm in
  Some (Ok (FrameResult_set_gas gas exec_result), evm).

Definition execution_result (evm : Evm) (result : FrameResult)
    : option (Prelude.result ExecutionResult (EVMError E) * Evm) :=
  let '(error, ctx) := take_error (evm_ctx evm) in
  match error with
  | Err e => Some (Err (EVMError_from_context e), with_ctx ctx evm)
  | Ok _ =>
      let? (exec_result, ctx) := output ctx result in
      let ctx := with_journal (Journal_commit_tx (ctx_journaled_state ctx)) ctx in
      let ctx := with_local (LocalContext_clear (ctx_local ctx)) ctx in
      Some (Ok exec_result, mkEvm ctx (evm_precompiles evm) (FrameStack_clear (evm_frame_stack evm)))
  end.

Definition catch_error (evm : Evm) (error : EVMError E) : option (result ExecutionResult (EVMError E) * Evm) :=
  let ctx := with_local (LocalContext_clear (ctx_local (evm_ctx evm))) (evm_ctx evm) in
  let? journal := Journal_discard_tx (ctx_journaled_state ctx) in
  Some (Err error, mkEvm (with_journal journal ctx) (evm_precompiles evm) (FrameStack_clear (evm_frame_stack evm))).

Definition run_without_catch_error (arrival : list Auth -> list Auth) (steps fuel : nat) (evm : Evm)
    : outcome (result ExecutionResult (EVMError E) * Evm) :=
  match validate (evm_ctx evm) with
  | None => Panicked
  | Some (Err e) => Done (Err e, evm)
  | Some (Ok init_and_floor_gas) =>
      go! (eip7702_refund, evm) := of_option (pre_execution arrival evm) in
      go! (exec_result, evm) := execution steps fuel evm init_and_floor_gas in
      go! (exec_result, evm) :=
        of_option (post_execution evm exec_result init_and_floor_gas (signed 64 eip7702_refund)) in
      of_option (execution_result evm exec_result)
  end.

(** [Err(e) => self.catch_error(evm, e)]. *)
Definition catching (m : outcome (result ExecutionResult (EVMError E) * Evm))
    : outcome (result ExecutionResult (EVMError E) * Evm) :=
  match m with
  | Done (Ok output, evm) => Done (Ok output, evm)
  | Done (Err e, evm) => of_option (catch_error evm e)
  | Out_of_fuel => Out_of_fuel
  | Panicked => Panicked
  end.

Definition run (arrival : list Auth -> list Auth) (steps fuel : nat) (evm : Evm)
    : outcome (result ExecutionResult (EVMError E) * Evm) :=
  catching (run_without_catch_error arrival steps fuel evm).

Definition run_system_call (steps fuel : nat) (evm : Evm) : outcome (result ExecutionResult (EVMError E) * Evm) :=
  catching (
    go! (exec_result, evm) := execution steps fuel evm (mkInitialAndFloorGas 0 0) in
    of_option (execution_result evm exec_result)).
End Handler.
