(* ===== verification/Fees.v ===== *)
(** The money of a transaction: what the caller pays before the first frame,
    what is given back to it and to the beneficiary after the last one, and
    that nothing else is created or lost on the way. *)
From S2P Require Import Prelude Hardfork Bytecode State Database JournalEntry JournalInner Gas InstructionResult Interpreter Env Context Validation Frame PreExecution PostExecution InstructionTable Handler.
From stdpp Require Import base numbers list option tactics gmap strings.
From Stdlib Require Import ZArith Lia.

Local Open Scope Z_scope.

(** * The gas of the result *)

Lemma Gas_final_refund_range is_london g :
  gas_ok g -> let g' := Gas_set_final_refund is_london g in
  gas_ok g' /\ gas_limit g' = gas_limit g /\ gas_remaining g' = gas_remaining g /\
  0 <= gas_refunded g' <= Gas_spent g'.
Proof.
  intros Hg g'. pose proof (Gas_spent_ok g Hg) as Hs. assert (Gas_spent g' = Gas_spent g) as -> by done.
  unfold g', Gas_set_final_refund. cbn. split_and!; [exact Hg|done|done|..].
  all: set (q := if is_london then 5 else 2); assert (2 <= q) as Hq by (unfold q; destruct is_london; lia).
  all: destruct Hg as [Hr Hl]; assert (0 <= Gas_spent g / q < 2 ^ 63) as Hd
         by (split; [apply Z.div_pos; lia|apply Z.div_lt_upper_bound; unfold modulus in *; nia]).
  all: pose proof (wrap_range 64 (gas_refunded g) ltac:(lia)) as Hw; unfold in_range in Hw.
  all: assert (Gas_spent g / q <= Gas_spent g) as Hle by (apply Z.div_le_upper_bound; nia).
  all: set (m := Z.min _ _); assert (signed 64 m = m) as ->
         by (unfold signed, m; change (64 - 1) with 63; case_if; boolify; lia).
  all: unfold m; lia.
Qed.

(** After the refund and the floor the three parts of the gas limit add up,
    and at least the floor is used. *)
Lemma settle_gas_spec spec g init r :
  gas_ok g -> 0 <= floor_gas init <= gas_limit g ->
  let g' := settle_gas spec g init r in
  gas_ok g' /\ gas_limit g' = gas_limit g /\ 0 <= gas_refunded g' /\
  Gas_used g' + gas_remaining g' + gas_refunded g' = gas_limit g /\ floor_gas init <= Gas_used g'.
Proof.
  intros Hg Hf. unfold settle_gas, refund.
  set (g1 := Gas_set_final_refund _ (Gas_record_refund r g)).
  destruct (Gas_final_refund_range (SpecId_is_enabled_in spec LONDON) (Gas_record_refund r g) Hg)
    as (Hg1 & Hl & Hrem & Hr). fold g1 in Hg1, Hl, Hrem, Hr.
  change (gas_limit g1 = gas_limit g) in Hl. change (gas_remaining g1 = gas_remaining g) in Hrem. clearbody g1.
  pose proof (Gas_spent_ok g1 Hg1) as Hs. destruct Hg1 as [Hr1 Hl1].
  assert (wrap 64 (gas_refunded g1) = gas_refunded g1) as Hw by (apply wrap_small; unfold in_range; lia).
  unfold eip7623_check_gas_floor, Gas_spent_sub_refunded. rewrite Hw, Hs.
  destruct (Z.ltb_spec (saturating_sub (gas_limit g1 - gas_remaining g1) (gas_refunded g1)) (floor_gas init)) as [Hlt|Hge].
  - set (g2 := Gas_set_refund 0 (Gas_set_spent (floor_gas init) g1)).
    assert (gas_ok g2 /\ gas_remaining g2 = gas_limit g1 - floor_gas init /\ gas_limit g2 = gas_limit g1 /\
      gas_refunded g2 = 0) as (Hg2 & E1 & E2 & E3).
    { unfold g2, Gas_set_spent, Gas_set_refund, gas_ok, saturating_sub. cbn. split_and!; try done; lia. }
    unfold Gas_used. rewrite (Gas_spent_ok _ Hg2), E1, E2, E3. rewrite wrap_small by (unfold in_range, modulus; lia).
    unfold saturating_sub. split_and!; try done; lia.
  - unfold Gas_used. rewrite Hw, Hs. unfold saturating_sub in *. split_and!; try done; lia.
Qed.

(** * What is paid *)

Section Fees.
Context {DB E Auth : Type} (ctx : Context DB E Auth).
Context (Htx : tx_ok (ctx_tx ctx)) (Hblock : block_ok (ctx_block ctx)) (Hvalid : validate_env ctx = Ok tt).

(** The fee for the blobs of the transaction. *)
Definition blob_fee : Z :=
  if is_type Eip4844 (ctx_tx ctx)
  then saturating_mul 128 (default 0 (Block_blob_gasprice (ctx_block ctx))) (Transaction_total_blob_gas (ctx_tx ctx))
  else 0.

Lemma blob_price_range : 0 <= default 0 (Block_blob_gasprice (ctx_block ctx)).
Proof.
  unfold Block_blob_gasprice. destruct (block_blob_excess_gas_and_price _) as [p|] eqn:Ep; [|done].
  apply (bok_blob _ Hblock _ Ep).
Qed.
Lemma blob_price_covered :
  is_type Eip4844 (ctx_tx ctx) = true ->
  default 0 (Block_blob_gasprice (ctx_block ctx)) <= tx_max_fee_per_blob_gas (ctx_tx ctx).
Proof.
  intros H4. apply validate_env_correct_aux in Hvalid; [|done]. eapply vb_price, (vt_blobs _ _ (ve_type _ Hvalid)).
  unfold is_type in H4. apply Z.eqb_eq in H4. by rewrite H4.
Qed.

Lemma caller_fee_correct_aux bal :
  match calculate_caller_fee bal (ctx_tx ctx) (ctx_block ctx) (ctx_cfg ctx) with
  | None => False
  | Some (Err e) => Transaction_max_balance_spending (ctx_tx ctx) = Err e \/
      exists fee, Transaction_max_balance_spending (ctx_tx ctx) = Ok fee /\ bal < fee /\ e = LackOfFundForMaxFee fee bal
  | Some (Ok new_balance) =>
      tx_value (ctx_tx ctx) <= new_balance /\
      bal - new_balance = tx_gas_limit (ctx_tx ctx) * Context_effective_gas_price ctx + blob_fee
  end.
Proof.
  unfold calculate_caller_fee, Cfg_is_balance_check_disabled, Transaction_ensure_enough_balance. cbn [negb].
  destruct (Transaction_max_balance_spending (ctx_tx ctx)) as [fee|e] eqn:Hm; [|by left].
  destruct (Z.ltb_spec bal fee); [by right; exists fee|].
  destruct (effective_spending_within_max_aux _ Htx (block_basefee (ctx_block ctx)) _ fee
    (proj1 (bok_basefee _ Hblock)) blob_price_range blob_price_covered Hm) as (spent & Hs & Hr & Hsum & Hg).
  unfold Transaction_gas_balance_spending in Hg. rewrite Hs in *. injection Hg as ->.
  destruct (tx_ok_value _ Htx) as [? _]. unfold saturating_sub, blob_fee, Context_effective_gas_price. lia.
Qed.

(** C35: a validated transaction is charged exactly its gas limit at the
    effective price and its blob fee, keeps at least the value it sends, and
    the charge never panics; it is refused only when its maximal cost
    overflows or exceeds the balance. *)
Theorem caller_fee_correct bal :
  match calculate_caller_fee bal (ctx_tx ctx) (ctx_block ctx) (ctx_cfg ctx) with
  | None => False
  | Some (Err e) => Transaction_max_balance_spending (ctx_tx ctx) = Err e \/
      exists fee, Transaction_max_balance_spending (ctx_tx ctx) = Ok fee /\ bal < fee /\ e = LackOfFundForMaxFee fee bal
  | Some (Ok new_balance) =>
      tx_value (ctx_tx ctx) <= new_balance /\
      bal - new_balance = tx_gas_limit (ctx_tx ctx) * Context_effective_gas_price ctx + blob_fee
  end.
Proof. apply caller_fee_correct_aux. Qed.

(** The gas limit at the effective price fits 128 bits once the caller paid. *)
Lemma paid_price_small bal new_balance :
  calculate_caller_fee bal (ctx_tx ctx) (ctx_block ctx) (ctx_cfg ctx) = Some (Ok new_balance) ->
  tx_gas_limit (ctx_tx ctx) * Context_effective_gas_price ctx < modulus 128.
Proof.
  unfold calculate_caller_fee, Cfg_is_balance_check_disabled, Transaction_effective_balance_spending, spending. cbn [negb].
  destruct (Transaction_ensure_enough_balance _ _); [|done].
  destruct (checked_mul 128 _ _) as [c|] eqn:Hc; [|done]. intros _.
  by apply checked_mul_spec in Hc as [_ ?].
Qed.

(** The part of the effective price that is burned: from London on the base fee,
    or the price where it is lower. *)
Definition burned_price : Z :=
  if SpecId_is_enabled_in (cfg_spec (ctx_cfg ctx)) LONDON
  then Z.min (block_basefee (ctx_block ctx)) (Context_effective_gas_price ctx) else 0.

(** What is given back, paid on and burned is the gas limit at the price. *)
Lemma fees_split g :
  gas_ok g -> gas_limit g = tx_gas_limit (ctx_tx ctx) -> 0 <= gas_refunded g ->
  Gas_used g + gas_remaining g + gas_refunded g = gas_limit g -> 0 <= Gas_used g ->
  tx_gas_limit (ctx_tx ctx) * Context_effective_gas_price ctx < modulus 128 ->
  0 <= Context_effective_gas_price ctx ->
  reimbursement ctx g 0 + reward ctx g + burned_price * Gas_used g
  = tx_gas_limit (ctx_tx ctx) * Context_effective_gas_price ctx.
Proof.
  intros [Hr Hl] Hlim Href Hsum Hu Hsmall Hp. unfold reimbursement, reward, burned_price.
  set (p := Context_effective_gas_price ctx) in *. set (b := block_basefee (ctx_block ctx)) in *.
  assert (0 <= b) as Hb by apply (proj1 (bok_basefee _ Hblock)). unfold wrapping_add, wrapping_mul.
  rewrite (wrap_small 64 (gas_refunded g)) by (unfold in_range; lia).
  rewrite (wrap_small 64 (gas_remaining g + gas_refunded g)) by (unfold in_range; lia).
  assert (0 <= p * (gas_remaining g + gas_refunded g) < modulus 128) as H1 by nia.
  assert (saturating_mul 128 p (gas_remaining g + gas_refunded g) = p * (gas_remaining g + gas_refunded g)) as ->
    by (unfold saturating_mul; lia).
  rewrite wrap_small by (unfold in_range, modulus in *; lia).
  destruct (SpecId_is_enabled_in _ LONDON).
  - set (tip := saturating_sub p b). assert (tip = p - Z.min b p /\ 0 <= tip <= p) as [Ht Htip]
      by (unfold tip, saturating_sub; lia).
    rewrite wrap_small by (unfold in_range; nia). rewrite Ht, <- Hlim, <- Hsum. ring.
  - rewrite wrap_small by (unfold in_range; nia). rewrite <- Hlim, <- Hsum. ring.
Qed.

Lemma effective_price_nonneg : 0 <= Context_effective_gas_price ctx.
Proof.
  pose proof (proj1 (tx_ok_gas_price _ Htx)). pose proof (proj1 (bok_basefee _ Hblock)).
  pose proof (fun p Hp => proj1 (tx_ok_priority _ Htx p Hp)) as Hprio.
  unfold Context_effective_gas_price, Transaction_effective_gas_price.
  destruct (tx_gas_priority_fee _) as [p|]; [specialize (Hprio p eq_refl)|];
    repeat case_match; unfold saturating_add, modulus in *; try lia; cbn; lia.
Qed.

(** From London on a validated transaction of a known type burns the base fee. *)
Lemma burned_price_basefee :
  TransactionType_from_u8 (tx_type (ctx_tx ctx)) <> Custom -> SpecId_is_enabled_in (cfg_spec (ctx_cfg ctx)) LONDON = true ->
  burned_price = block_basefee (ctx_block ctx).
Proof.
  intros Hc Hl. unfold burned_price. rewrite Hl. pose proof Hvalid as Hv. apply validate_env_correct_aux in Hv; [|done].
  pose proof (vt_price _ _ (ve_type _ Hv) Hc). lia.
Qed.

(** C6: no money is created or lost in the fees: what the caller of a
    validated transaction, of any type, is charged before execution is what it is
    reimbursed, plus the reward of the beneficiary, plus what is burned, plus the blob
    fee.  Burned is, from London on, for each gas used the base fee, or the effective
    price where that is lower, which can only be for a custom type: validation makes
    all other types pay the base fee.  This holds for whatever gas and refund the
    frames report, with the limit of the transaction and no more than it left, and a
    floor gas within the limit; the gas used lies between the floor and the gas
    limit. *)
Theorem gas_fees_conserved bal new_balance g init r :
  calculate_caller_fee bal (ctx_tx ctx) (ctx_block ctx) (ctx_cfg ctx) = Some (Ok new_balance) ->
  gas_ok g -> gas_limit g = tx_gas_limit (ctx_tx ctx) -> 0 <= floor_gas init <= tx_gas_limit (ctx_tx ctx) ->
  let g' := settle_gas (cfg_spec (ctx_cfg ctx)) g init r in
  let burned := if SpecId_is_enabled_in (cfg_spec (ctx_cfg ctx)) LONDON
                then Z.min (block_basefee (ctx_block ctx)) (Context_effective_gas_price ctx) else 0 in
  bal - new_balance = reimbursement ctx g' 0 + reward ctx g' + burned * Gas_used g' + blob_fee /\
  (TransactionType_from_u8 (tx_type (ctx_tx ctx)) <> Custom ->
   burned = if SpecId_is_enabled_in (cfg_spec (ctx_cfg ctx)) LONDON then block_basefee (ctx_block ctx) else 0) /\
  floor_gas init <= Gas_used g' <= tx_gas_limit (ctx_tx ctx).
Proof.
  intros Hfee Hg Hl Hf g' burned. pose proof (caller_fee_correct_aux bal) as Hpaid. rewrite Hfee in Hpaid.
  destruct (settle_gas_spec (cfg_spec (ctx_cfg ctx)) g init r Hg) as (Hg' & Hl' & Hr' & Hsum & Hfl); [by rewrite Hl|].
  fold g' in Hg', Hl', Hr', Hsum, Hfl. pose proof Hg' as [? ?]. rewrite Hl in *. fold burned_price in burned. subst burned.
  rewrite fees_split; try done; [| |lia|by eapply paid_price_small|apply effective_price_nonneg].
  - split; [lia|]. split; [|lia]. intros Hc.
    destruct (SpecId_is_enabled_in (cfg_spec (ctx_cfg ctx)) LONDON) eqn:El; [by apply burned_price_basefee|].
    unfold burned_price. by rewrite El.
  - by rewrite Hl'.
Qed.
End Fees.

Module FeesExample.
(** The blob transaction of [Valid.ctx]: 12000 of its 21000 gas remain and the
    frames recorded a refund. *)
Definition gas_left : Gas := mkGas 21000 12000 4800 MemoryGas_new.

Lemma caller_fee_correct_witness :
  exists new_balance, calculate_caller_fee 1000000 (ctx_tx Valid.ctx) (ctx_block Valid.ctx) (ctx_cfg Valid.ctx)
      = Some (Ok new_balance) /\
    5 <= new_balance /\ 1000000 - new_balance = 21000 * 10 + 131072.
Proof.
  pose proof (caller_fee_correct Valid.ctx Valid.ctx_tx_ok Valid.ctx_block_ok eq_refl 1000000) as Hfee.
  destruct (calculate_caller_fee _ _ _ _) as [[nb|e]|] eqn:Ec; [|vm_compute in Ec; discriminate Ec..].
  exists nb. split; [reflexivity|exact Hfee].
Defined.

Lemma gas_fees_conserved_witness :
  let g' := settle_gas CANCUN gas_left (mkInitialAndFloorGas 21000 0) 0 in
  21000 * 10 + 131072 = reimbursement Valid.ctx g' 0 + reward Valid.ctx g' + 9 * Gas_used g' + blob_fee Valid.ctx /\
  (TransactionType_from_u8 (tx_type (ctx_tx Valid.ctx)) <> Custom -> 9 = 9) /\
  0 <= Gas_used g' <= 21000.
Proof.
  apply (gas_fees_conserved Valid.ctx Valid.ctx_tx_ok Valid.ctx_block_ok eq_refl 1000000 658928 gas_left
    (mkInitialAndFloorGas 21000 0) 0); [reflexivity|vm_compute; repeat split; discriminate|reflexivity|
    vm_compute; split; discriminate].
Defined.
End FeesExample.
