(* ===== verification/InterpreterLogic.v ===== *)
(** A program logic for instructions: the invariant of a running call frame,
    what a frame that stopped guarantees, Hoare triples over them and a rule
    for every macro.  A triple says that the computation neither panics nor
    runs into undefined behaviour. *)
From S2P Require Import Prelude Hardfork Bytecode State Database JournalEntry JournalInner Gas InstructionResult Stack SharedMemory Interpreter Host Macros.
From stdpp Require Import base numbers list option tactics.
From Stdlib Require Import ZArith Lia.

Local Open Scope Z_scope.

(** The frame being executed: its code with the result of the analysis, its
    gas limit, where its memory starts in the shared buffer, the hard fork, and
    the address of the account it acts for. *)
Record Frame := mkFrame {
  f_code : list Z; f_jump_table : JumpTable; f_padded : list Z; f_limit : Z; f_checkpoint : nat;
  f_spec : SpecId; f_address : Z }.

Definition frame_wf `{BitVec} (f : Frame) : Prop :=
  Forall u8 (f_code f) /\ Z.of_nat (length (f_code f)) < 2 ^ 64 /\ Z.of_nat (f_checkpoint f) < 2 ^ 62 /\
  analyze_legacy (f_code f) = Some (f_jump_table f, f_padded f).

Definition f_base (f : Frame) : Bytecode :=
  LegacyAnalyzed (mkLegacyAnalyzedBytecode (f_padded f) (length (f_code f)) (f_jump_table f)).

(** The instruction pointer is at an instruction of the code or in the padding. *)
Definition pc_ok (f : Frame) (pc : nat) : Prop :=
  (pc < length (f_padded f))%nat /\ (instr_start (f_code f) pc \/ (length (f_code f) <= pc)%nat).

(** A range that was given to the frame as its input lies below its memory. *)
Definition input_ok (m : SharedMemory) (input : InputsImpl) : Prop :=
  in_range 160 (in_target_address input) /\ in_range 160 (in_caller_address input) /\
  u256 (in_call_value input) /\
  match in_input input with
  | CallInput_Bytes bytes => Forall u8 bytes /\ Z.of_nat (length bytes) < 2 ^ 64
  | SharedBuffer (a, b) => 0 <= a /\ b < 2 ^ 64 /\ (a < b -> b <= Z.of_nat (my_checkpoint m))
  end.

(** What holds between instructions: at most [g] gas remains and at least [n]
    bytes of memory are active. *)
Record core (f : Frame) (g n : Z) (i : Interpreter) : Prop := {
  core_base : eb_base (i_bytecode i) = f_base f;
  core_mem : mem_inv (i_gas i) (i_memory i) (i_buffer i);
  core_limit : gas_limit (i_gas i) = f_limit f;
  core_gas : gas_remaining (i_gas i) <= g;
  core_active : n <= Z.of_nat (length (i_buffer i)) - Z.of_nat (my_checkpoint (i_memory i));
  core_checkpoint : my_checkpoint (i_memory i) = f_checkpoint f;
  core_stack : stack_ok (words (i_stack i));
  core_bytes : Forall u8 (i_buffer i);
  core_return_data : Forall u8 (i_return_data i) /\ Z.of_nat (length (i_return_data i)) < 2 ^ 64;
  core_input : input_ok (i_memory i) (i_input i);
  core_target : in_target_address (i_input i) = f_address f;
  core_spec : rf_spec_id (i_runtime_flag i) = f_spec f }.

(** * Stopping *)

Definition local_len (i : Interpreter) : Z :=
  Z.of_nat (length (i_buffer i)) - Z.of_nat (my_checkpoint (i_memory i)).

(** What the handler relies on when the interpreter asks for a new frame: the
    input lies in the shared buffer, the output in the caller's memory. *)
Definition frame_input_ok (i : Interpreter) (fi : FrameInput) : Prop :=
  match fi with
  | FI_Empty => True
  | FI_Call c =>
      u64 (ci_gas_limit c) /\ in_range 160 (ci_target_address c) /\ in_range 160 (ci_caller c) /\
      in_range 160 (ci_bytecode_address c) /\ u256 (CallValue_get (ci_value c)) /\
      (match ci_input c with
       | SharedBuffer (a, b) => a < b -> 0 <= a /\ b <= Z.of_nat (length (i_buffer i))
       | CallInput_Bytes bytes => Forall u8 bytes
       end) /\
      (let '(a, b) := ci_return_memory_offset c in a < b -> 0 <= a /\ b <= local_len i)
  | FI_Create c =>
      u64 (cr_gas_limit c) /\ in_range 160 (cr_caller c) /\ u256 (cr_value c) /\ Forall u8 (cr_init_code c)
  end.

Definition action_ok (f : Frame) (i : Interpreter) (a : InterpreterAction) : Prop :=
  match a with
  | Return r => gas_ok (ir_gas r) /\ gas_limit (ir_gas r) = f_limit f /\ Forall u8 (ir_output r)
  | NewFrame fi =>
      core f (f_limit f) 0 i /\ pc_ok f (eb_instruction_pointer (i_bytecode i)) /\ frame_input_ok i fi
  end.

Definition stopped (f : Frame) (i : Interpreter) : Prop :=
  eb_continue_execution (i_bytecode i) = false /\
  exists a, eb_action (i_bytecode i) = Some a /\ action_ok f i a.

Lemma core_weaken f g n g' n' i : core f g n i -> g <= g' -> n' <= n -> core f g' n' i.
Proof. intros [] ? ?. split; done || lia. Qed.

(** Only the instruction pointer and the pending action may differ. *)
Lemma core_with_bytecode f g n i b :
  core f g n i -> eb_base b = f_base f -> core f g n (with_bytecode b i).
Proof. intros [] ?. by split. Qed.

Lemma core_with_stack f g n i w : core f g n i -> stack_ok w -> core f g n (with_stack (of_words w) i).
Proof. intros [] ?. split; try done. cbn [i_stack with_stack]. by rewrite words_of_words. Qed.

(** Spending gas. *)
Lemma core_with_gas f g n i r :
  core f g n i -> 0 <= r <= gas_remaining (i_gas i) ->
  core f r n (with_gas (set_remaining r (i_gas i)) i).
Proof.
  intros [? Hm ? ? ? ? ? ? ? ? ? ?] Hr. split; try done; cbn; try lia. destruct Hm as [[? ?] ? ? ? ?].
  split; try done; unfold gas_ok in *; cbn in *; lia.
Qed.

Lemma core_gas_ok f g n i : core f g n i -> gas_ok (i_gas i).
Proof. intros []. by eapply inv_gas. Qed.

Lemma core_stack_words f g n i :
  core f g n i -> exists w, i_stack i = of_words w /\ stack_ok w.
Proof. intros []. exists (words (i_stack i)). by rewrite of_words_words. Qed.

Lemma set_action_stops f i a :
  eb_continue_execution (i_bytecode i) = true ->
  (forall b, eb_base b = eb_base (i_bytecode i) ->
     eb_instruction_pointer b = eb_instruction_pointer (i_bytecode i) ->
     action_ok f (with_bytecode b i) a) ->
  exists i', Interpreter_set_action a i = Some i' /\ stopped f i'.
Proof.
  intros Hc Ha. unfold Interpreter_set_action, ExtBytecode_set_action. rewrite Hc.
  eexists. split; [done|]. split; [done|]. exists a. split; [done|]. by apply Ha.
Qed.

(** * Triples *)

Section Logic.
Context {H : Type} `{!Host H, !BitVec} (f : Frame) `{!HostLaws H (f_spec f) (f_address f)}.

(** The frame is running. *)
Definition running (g n : Z) (i : Interpreter) (h : H) : Prop :=
  core f g n i /\ eb_continue_execution (i_bytecode i) = true /\
  pc_ok f (eb_instruction_pointer (i_bytecode i)) /\ host_ok h.

(** The instruction is over: the frame stopped or goes on with at most [g] gas. *)
Definition over (g : Z) (i : Interpreter) (h : H) : Prop :=
  host_ok h /\ (stopped f i \/ running g 0 i h).

Definition hoare {A} (P : Interpreter -> H -> Prop) (m : Instr H A)
    (Q : A -> Interpreter -> H -> Prop) (E : Interpreter -> H -> Prop) : Prop :=
  forall i h, P i h ->
  exists r i' h', m i h = Some (r, i', h') /\ match r with Some a => Q a i' h' | None => E i' h' end.

Lemma hoare_ret {A} (a : A) (P : Interpreter -> H -> Prop) Q E :
  (forall i h, P i h -> Q a i h) -> hoare P (mret a) Q E.
Proof. intros HP i h ?. eexists (Some a), i, h. split; [done|]. auto. Qed.

Lemma hoare_bind {A B} P (m : Instr H A) (k : A -> Instr H B) Q1 Q E :
  hoare P m Q1 E -> (forall a, hoare (Q1 a) (k a) Q E) -> hoare P (m ≫= k) Q E.
Proof.
  intros Hm Hk i h HP. destruct (Hm i h HP) as (r & i1 & h1 & E1 & HQ).
  unfold mbind, instr_bind. rewrite E1. destruct r as [a|]; [by apply Hk|]. by eexists None, i1, h1.
Qed.

Lemma hoare_pure {A} (φ : Prop) P (m : Instr H A) Q E :
  (φ -> hoare P m Q E) -> hoare (fun i h => φ /\ P i h) m Q E.
Proof. intros Hm i h [??]. by apply Hm. Qed.

Lemma hoare_conseq {A} P P' (m : Instr H A) Q Q' E :
  hoare P m Q E -> (forall i h, P' i h -> P i h) -> (forall a i h, Q a i h -> Q' a i h) ->
  hoare P' m Q' E.
Proof.
  intros Hm HP HQ i h ?. destruct (Hm i h) as (r & i1 & h1 & E1 & HR); [auto|].
  eexists r, i1, h1. split; [done|]. destruct r; auto.
Qed.

Lemma hoare_post {A} P (m : Instr H A) Q Q' E :
  hoare P m Q E -> (forall a i h, Q a i h -> Q' a i h) -> hoare P m Q' E.
Proof. intros. eapply hoare_conseq; eauto. Qed.

Lemma hoare_pre {A} (P P' : Interpreter -> H -> Prop) (m : Instr H A) Q E :
  hoare P m Q E -> (forall i h, P' i h -> P i h) -> hoare P' m Q E.
Proof. intros. eapply hoare_conseq; eauto. Qed.

Lemma running_weaken g n g' n' i h : running g n i h -> g <= g' -> n' <= n -> running g' n' i h.
Proof. intros (?&?&?&?) ? ?. split_and!; try done. by eapply core_weaken. Qed.

Lemma running_over g n g' i h : running g n i h -> g <= g' -> 0 <= n -> over g' i h.
Proof. intros HR ? ?. split; [apply HR|]. right. eapply running_weaken; [done..|lia]. Qed.

Lemma running_gas_nonneg g n i h : running g n i h -> 0 <= g.
Proof. intros [Hc _]. destruct (core_gas_ok _ _ _ _ Hc). destruct Hc. lia. Qed.

(** An update that only needs the running frame. *)
Lemma hoare_update (P : Interpreter -> H -> Prop) F Q E :
  (forall i h, P i h -> exists i', F i = Some i' /\ Q tt i' h) -> hoare P (update F) Q E.
Proof.
  intros HF i h HP. destruct (HF i h HP) as (i' & E1 & HQ). exists (Some tt), i', h.
  unfold update. by rewrite E1.
Qed.

Lemma hoare_read {A} (P : Interpreter -> H -> Prop) (F : Interpreter -> option A) (φ : A -> Prop) E :
  (forall i h, P i h -> exists a, F i = Some a /\ φ a) ->
  hoare P (read F) (fun a i h => φ a /\ P i h) E.
Proof.
  intros HF i h HP. destruct (HF i h HP) as (a & E1 & HQ). exists (Some a), i, h.
  unfold read. by rewrite E1.
Qed.

(** Keeping what was read. *)
Lemma hoare_read_eq {A} (P : Interpreter -> H -> Prop) (F : Interpreter -> option A) E :
  (forall i h, P i h -> is_Some (F i)) ->
  hoare P (read F) (fun a i h => F i = Some a /\ P i h) E.
Proof.
  intros HF i h HP. destruct (HF i h HP) as [a Ea]. exists (Some a), i, h.
  unfold read. by rewrite Ea.
Qed.

(** * Halting *)

Lemma set_action_over a g n g' i h :
  running g n i h -> (forall j, core f g n j -> eb_instruction_pointer (i_bytecode j)
     = eb_instruction_pointer (i_bytecode i) -> i_buffer j = i_buffer i -> i_memory j = i_memory i ->
     i_gas j = i_gas i -> action_ok f j a) ->
  exists i', Interpreter_set_action a i = Some i' /\ over g' i' h.
Proof.
  intros (Hc & Hr & Hp & Hh) Ha.
  destruct (set_action_stops f i a Hr) as (i' & Hi & Hs).
  { intros b Hb Hip. apply Ha; [|done..]. apply core_with_bytecode; [done|]. rewrite Hb. apply Hc. }
  exists i'. split; [done|]. split; [done|]. by left.
Qed.

Lemma halt_over r g n g' i h :
  running g n i h -> exists i', Interpreter_halt r i = Some i' /\ over g' i' h.
Proof.
  intros HR. eapply set_action_over; [done|]. intros j Hj _ _ _ Hg. rewrite <- Hg. cbn.
  split_and!; [by eapply core_gas_ok|apply Hj|done].
Qed.

Lemma halt_oog_over g n g' i h :
  running g n i h -> exists i', Interpreter_halt_oog i = Some i' /\ over g' i' h.
Proof.
  intros HR. unfold Interpreter_halt_oog, Gas_spend_all. apply (halt_over _ 0 n).
  destruct HR as (Hc & ? & ? & ?). split_and!; try done. eapply core_with_gas; [done|].
  destruct (core_gas_ok _ _ _ _ Hc). lia.
Qed.

Definition halting (F : Interpreter -> option Interpreter) : Prop :=
  forall g n g' i h, running g n i h -> exists i', F i = Some i' /\ over g' i' h.

Lemma halting_halt r : halting (Interpreter_halt r).
Proof. intros ??????. by eapply halt_over. Qed.
Lemma halting_oog : halting Interpreter_halt_oog.
Proof. intros ??????. by eapply halt_oog_over. Qed.

Lemma hoare_halt_with {A} F g n g' (Q : A -> Interpreter -> H -> Prop) :
  halting F -> hoare (running g n) (halt_with F) Q (over g').
Proof.
  intros HF i h HR. destruct (HF g n g' i h HR) as (i' & E1 & Ho). exists None, i', h.
  unfold halt_with, mbind, instr_bind, update, early. by rewrite E1.
Qed.

Lemma hoare_update_halt F g n g' E :
  halting F -> hoare (running g n) (update F) (fun _ => over g') E.
Proof. intros HF. apply hoare_update. intros i h HR. by apply (HF g n). Qed.
End Logic.
