(* ===== verification/InterpreterRules.v ===== *)
(** The rules of the program logic for the macros, and the tactics that run
    them over an instruction. *)
From S2P Require Import Prelude Hardfork Bytecode State Database JournalEntry JournalInner Gas I256 InstructionResult Stack SharedMemory Interpreter Host Macros InterpreterLogic.
From stdpp Require Import base numbers list option tactics.
From Stdlib Require Import ZArith Lia.

Local Open Scope Z_scope.

Lemma u64_u256 x : u64 x -> u256 x.
Proof. unfold in_range, modulus. lia. Qed.
Lemma address_u256 x : in_range 160 x -> u256 x.
Proof. unfold in_range, modulus. lia. Qed.
Lemma into_address_range x : in_range 160 (into_address x).
Proof. apply Z.mod_pos_bound. done. Qed.
Lemma as_u64_saturated_range v : 0 <= v -> u64 (as_u64_saturated v).
Proof.
  intros. unfold as_u64_saturated, u64_max. destruct (Z.ltb_spec v (modulus 64)).
  - by split.
  - unfold in_range, modulus. lia.
Qed.

Lemma stack_ok_drop n w : stack_ok w -> stack_ok (drop n w).
Proof. intros [? ?]. split; [rewrite length_drop; lia|by apply Forall_drop]. Qed.

Section Rules.
Context {H : Type} `{!Host H, !BitVec} (f : Frame) `{!HostLaws H (f_spec f) (f_address f)}.

Abbreviation run := (running f).
Abbreviation fin := (over f).

Lemma running_with_stack g n i h w : run g n i h -> stack_ok w -> run g n (with_stack (of_words w) i) h.
Proof. intros (?&?&?&?) ?. split_and!; try done. by apply core_with_stack. Qed.

Lemma running_stack g n i h : run g n i h -> exists w, i_stack i = of_words w /\ stack_ok w.
Proof. intros [Hc _]. by eapply core_stack_words. Qed.

(** * Stack *)

Lemma hoare_popn k g n g' :
  hoare (run g n) (popn k) (fun xs i h => (length xs = k /\ Forall u256 xs) /\ run g n i h) (fin g').
Proof.
  intros i h HR. destruct (running_stack _ _ _ _ HR) as (w & Hw & Hok). unfold popn.
  rewrite Hw, Stack_popn_words. destruct (Nat.ltb_spec (length w) k).
  - by apply (hoare_halt_with f _ g n g' _ (halting_halt f _)).
  - eexists (Some _), _, _. split; [done|]. split_and!.
    + rewrite length_take. lia.
    + apply Forall_take, Hok.
    + apply running_with_stack; [done|]. by apply stack_ok_drop.
Qed.

Lemma hoare_popn_top k g n g' :
  hoare (run g n) (popn_top k)
    (fun r i h => (length r.1 = k /\ Forall u256 r.1 /\ u256 r.2) /\ run g n i h) (fin g').
Proof.
  intros i h HR. destruct (running_stack _ _ _ _ HR) as (w & Hw & Hok). unfold popn_top.
  rewrite Hw, of_words_len. destruct (Nat.ltb_spec (length w) (1 + k)).
  - by apply (hoare_halt_with f _ g n g' _ (halting_halt f _)).
  - rewrite Stack_popn_top_words. pose proof (stack_ok_drop k w Hok) as Hd.
    destruct (drop k w) as [|top rest] eqn:Ed.
    { apply (f_equal length) in Ed. rewrite length_drop in Ed. cbn in Ed. lia. }
    eexists (Some _), _, _. split; [done|]. cbn [fst snd]. split_and!.
    + rewrite length_take. lia.
    + apply Forall_take, Hok.
    + destruct Hd as [_ Hd]. by inversion Hd.
    + by apply running_with_stack.
Qed.

Lemma hoare_set_top v g n E : u256 v -> hoare (run g n) (set_top v) (fun _ => run g n) E.
Proof.
  intros Hv. apply hoare_update. intros i h HR. eexists. split; [done|].
  destruct (running_stack _ _ _ _ HR) as (w & Hw & Hok). rewrite Hw. destruct w as [|x w].
  - apply (running_with_stack _ _ _ _ []); done.
  - rewrite Stack_set_top_words. apply running_with_stack; [done|]. destruct Hok as [? Hf].
    inversion Hf; subst. split; [done|]. by constructor.
Qed.

Lemma hoare_push v g n g' : u256 v -> hoare (run g n) (push v) (fun _ => run g n) (fin g').
Proof.
  intros Hv i h HR. destruct (running_stack _ _ _ _ HR) as (w & Hw & Hok). unfold push.
  rewrite Hw, Stack_push_words. destruct (Nat.eqb_spec (length w) STACK_LIMIT) as [He|He].
  - apply (hoare_halt_with f _ g n g' _ (halting_halt f _)). by apply running_with_stack.
  - eexists (Some _), _, _. split; [done|]. apply running_with_stack; [done|]. destruct Hok.
    split; [cbn; lia|]. by constructor.
Qed.

(** The array patterns. *)
Ltac popn_pattern :=
  eapply hoare_bind; [apply hoare_popn|]; intros xs; apply hoare_pure; intros [Hl Hf];
  repeat match goal with
  | xs : list Z |- _ => destruct xs as [|? xs]; try (cbn in Hl; lia)
  end;
  repeat match goal with HF : Forall _ (_ :: _) |- _ => inversion HF; clear HF; subst end;
  apply hoare_ret; intros; split_and!; done.
Ltac popn_top_pattern :=
  eapply hoare_bind; [apply hoare_popn_top|]; intros [xs top]; apply hoare_pure; cbn [fst snd];
  intros (Hl & Hf & Ht);
  repeat match goal with
  | xs : list Z |- _ => destruct xs as [|? xs]; try (cbn in Hl; lia)
  end;
  repeat match goal with HF : Forall _ (_ :: _) |- _ => inversion HF; clear HF; subst end;
  apply hoare_ret; intros; cbn [fst snd]; split_and!; done.

Lemma hoare_popn1 g n g' : hoare (run g n) popn1 (fun a i h => u256 a /\ run g n i h) (fin g').
Proof. popn_pattern. Qed.
Lemma hoare_popn2 g n g' :
  hoare (run g n) popn2 (fun r i h => (u256 r.1 /\ u256 r.2) /\ run g n i h) (fin g').
Proof. popn_pattern. Qed.
Lemma hoare_popn3 g n g' :
  hoare (run g n) popn3 (fun r i h => (u256 r.1.1 /\ u256 r.1.2 /\ u256 r.2) /\ run g n i h) (fin g').
Proof. popn_pattern. Qed.
Lemma hoare_popn4 g n g' :
  hoare (run g n) popn4
    (fun r i h => (u256 r.1.1.1 /\ u256 r.1.1.2 /\ u256 r.1.2 /\ u256 r.2) /\ run g n i h) (fin g').
Proof. popn_pattern. Qed.
Lemma hoare_popn_top0 g n g' : hoare (run g n) popn_top0 (fun a i h => u256 a /\ run g n i h) (fin g').
Proof. popn_top_pattern. Qed.
Lemma hoare_popn_top1 g n g' :
  hoare (run g n) popn_top1 (fun r i h => (u256 r.1 /\ u256 r.2) /\ run g n i h) (fin g').
Proof. popn_top_pattern. Qed.
Lemma hoare_popn_top2 g n g' :
  hoare (run g n) popn_top2
    (fun r i h => (u256 r.1.1 /\ u256 r.1.2 /\ u256 r.2) /\ run g n i h) (fin g').
Proof. popn_top_pattern. Qed.

(** * Flags and inputs *)

Lemma hoare_spec_id g n E : hoare (run g n) spec_id (fun s i h => s = f_spec f /\ run g n i h) E.
Proof. apply hoare_read. intros i h [Hc _]. eexists. split; [done|]. apply Hc. Qed.
Lemma hoare_is_static g n E : hoare (run g n) is_static (fun s i h => True /\ run g n i h) E.
Proof. apply (hoare_read _ _ (fun _ => True)). eauto. Qed.
Lemma hoare_remaining g n E :
  hoare (run g n) remaining (fun r i h => (0 <= r <= g /\ r < 2 ^ 55) /\ run g n i h) E.
Proof.
  apply (hoare_read _ _ (fun r => 0 <= r <= g /\ r < 2 ^ 55)). intros i h [Hc _]. eexists. split; [done|].
  destruct (core_gas_ok _ _ _ _ Hc). destruct Hc as [? [] ? ? ? ? ? ? ? ? ?]. lia.
Qed.
Lemma hoare_target_address g n E :
  hoare (run g n) target_address
    (fun a i h => (a = f_address f /\ in_range 160 (f_address f)) /\ run g n i h) E.
Proof.
  apply (hoare_read _ _ (fun a => a = f_address f /\ in_range 160 (f_address f))). intros i h [Hc _].
  eexists. split; [done|]. pose proof (core_target _ _ _ _ Hc) as Ht. split; [exact Ht|].
  rewrite <- Ht. by apply (core_input _ _ _ _ Hc).
Qed.

Lemma hoare_require_non_staticcall g n g' :
  hoare (run g n) require_non_staticcall (fun _ => run g n) (fin g').
Proof.
  eapply hoare_bind; [apply hoare_is_static|]. intros s. apply hoare_pure. intros _.
  destruct s; [apply hoare_halt_with, halting_halt|by apply hoare_ret].
Qed.
(** The fork is active after [check!]. *)
Lemma hoare_check min g n g' :
  hoare (run g n) (check min) (fun _ i h => SpecId_is_enabled_in (f_spec f) min = true /\ run g n i h) (fin g').
Proof.
  eapply hoare_bind; [apply hoare_spec_id|]. intros s. apply hoare_pure. intros ->.
  destruct (SpecId_is_enabled_in _ min) eqn:?; [by apply hoare_ret|apply hoare_halt_with, halting_halt].
Qed.

(** * Gas *)

Lemma hoare_gas c g n g' : 0 <= c -> hoare (run g n) (gas c) (fun _ => run (g - c) n) (fin g').
Proof.
  intros Hc0. eapply (hoare_bind _ _ _ (fun (ok : bool) i h => if ok then run (g - c) n i h else run g n i h)).
  - intros i h HR. unfold record_cost, Gas_record_cost. destruct HR as (Hc & Hr & Hp & Hh).
    destruct (core_gas_ok _ _ _ _ Hc) as [Hg _]. pose proof (core_gas _ _ _ _ Hc).
    destruct (checked_sub _ _) as [r|] eqn:Er.
    + apply checked_sub_spec in Er as [-> ?]. eexists (Some true), _, _. split; [done|].
      split_and!; try done. eapply core_weaken; [eapply core_with_gas; [done|lia]|lia|done].
    + eexists (Some false), _, _. split; [done|]. split_and!; try done. by destruct Hc.
  - intros [|]; [by apply hoare_ret|]. apply hoare_halt_with, halting_oog.
Qed.

Lemma hoare_gas_or_fail c k g n g' :
  0 <= k -> (forall c', c = Some c' -> k <= c') ->
  hoare (run g n) (gas_or_fail c) (fun _ => run (g - k) n) (fin g').
Proof.
  intros Hk Hc. destruct c as [c|]; [|apply hoare_halt_with, halting_oog]. specialize (Hc c eq_refl).
  eapply hoare_post; [apply hoare_gas; lia|]. intros ? i h HR. eapply running_weaken; [exact HR|lia..].
Qed.

(** * Words to integers *)

Lemma hoare_as_usize_or_fail_with reason v g n g' :
  u256 v -> hoare (run g n) (as_usize_or_fail_with reason v) (fun a i h => (u64 a /\ a = v) /\ run g n i h) (fin g').
Proof.
  intros [Hv _]. unfold as_usize_or_fail_with. destruct (Z.ltb_spec v (modulus 64)).
  - by apply hoare_ret.
  - apply hoare_halt_with, halting_halt.
Qed.
Lemma hoare_as_usize_or_fail v g n g' :
  u256 v -> hoare (run g n) (as_usize_or_fail v) (fun a i h => (u64 a /\ a = v) /\ run g n i h) (fin g').
Proof. apply hoare_as_usize_or_fail_with. Qed.

(** * Memory *)

Lemma hoare_resize_memory offset len g n g' :
  u64 offset -> u64 len ->
  hoare (run g n) (resize_memory_or_halt offset len) (fun _ => run g (Z.max n (offset + len))) (fin g').
Proof.
  intros Ho Hl. eapply (hoare_bind _ _ _ (fun (ok : bool) i h =>
    if ok then run g (Z.max n (offset + len)) i h
    else host_ok h /\ eb_continue_execution (i_bytecode i) = true /\ gas_ok (i_gas i) /\
         gas_limit (i_gas i) = f_limit f)).
  - intros i h (Hc & Hr & Hp & Hh). unfold resize_memory_with_gas.
    destruct (resize_memory_correct_aux offset len _ _ _ (core_mem _ _ _ _ Hc) Ho Hl)
      as (ok & gas' & buf' & -> & Hlim & Hok).
    pose proof (core_gas_ok _ _ _ _ Hc) as [Hg1 Hg2]. destruct ok.
    + destruct Hok as (Hm & Hact & Hw & Hg & z & ->). eexists (Some true), _, _. split; [done|].
      split_and!; try done. destruct Hc as [Hb Hm0 Hl0 Hg0 Ha Hcp Hs Hby Hrd Hin Hsp].
      assert (memory_gas (words_num (gas_memory (i_gas i))) <= memory_gas (words_num (gas_memory gas'))).
      { apply memory_gas_mono. pose proof (inv_memory _ _ _ Hm0) as [? _]. lia. }
      split; try done; cbn.
      * congruence.
      * lia.
      * rewrite length_app in *. lia.
      * apply Forall_app. split; [done|]. apply Forall_replicate. unfold in_range, modulus. lia.
    + destruct Hok as (-> & Hg & _). eexists (Some false), _, _. split; [done|]. cbn.
      split_and!; try done; [|by rewrite Hlim; apply Hc]. unfold gas_ok. rewrite Hg, Hlim. done.
  - intros [|]; [by apply hoare_ret|]. intros i h (Hh & Hr & Hg & Hlim).
    destruct (set_action_stops f i (InterpreterAction_new_halt IR_MemoryOOG (i_gas i)) Hr) as (i' & Hi & Hs).
    { intros b _ _. by split_and!. }
    exists None, i', h. unfold halt_with, mbind, instr_bind, update, early.
    unfold Interpreter_halt_memory_oog, Interpreter_halt. rewrite Hi. split; [done|].
    split; [done|]. by left.
Qed.

Lemma get_range_in v a b :
  (a <= b <= length v)%nat -> Forall u8 v ->
  exists s, get_range v a b = Some s /\ length s = (b - a)%nat /\ Forall u8 s.
Proof.
  intros Hr Hf. rewrite get_range_Some by done. eexists. split; [done|].
  split; [rewrite length_take, length_drop; lia|]. by apply Forall_take, Forall_drop.
Qed.

Lemma hoare_memory_slice_len offset len g n E :
  0 <= offset -> 0 <= len -> offset + len <= n ->
  hoare (run g n) (memory_slice_len offset len)
    (fun s i h => (length s = Z.to_nat len /\ Forall u8 s) /\ run g n i h) E.
Proof.
  intros Ho Hl Hn. apply (hoare_read _ _ (fun s => length s = Z.to_nat len /\ Forall u8 s)).
  intros i h (Hc & _). pose proof (core_active _ _ _ _ Hc).
  unfold SharedMemory_slice_len, SharedMemory_slice_range.
  destruct (get_range_in (i_buffer i) (Z.to_nat offset + my_checkpoint (i_memory i))
    (Z.to_nat offset + Z.to_nat len + my_checkpoint (i_memory i))) as (s & -> & Hls & Hs); [lia|apply Hc|].
  exists s. split_and!; [done|lia|done].
Qed.

(** An update of the shared buffer that keeps its length. *)
Lemma hoare_buffer (P : Interpreter -> H -> Prop) (F : Interpreter -> option (list Z)) g n E :
  (forall i h, P i h -> run g n i h /\
     exists buf, F i = Some buf /\ length buf = length (i_buffer i) /\ Forall u8 buf) ->
  hoare P (update (fun i => let? buf := F i in Some (with_buffer buf i))) (fun _ => run g n) E.
Proof.
  intros HF. apply hoare_update. intros i h HP. destruct (HF i h HP) as (HR & buf & -> & Hl & Hu).
  eexists. split; [done|]. destruct HR as (Hc & ? & ? & ?). split_and!; try done.
  destruct Hc as [? [] ? ? ? ? ? ? ? ? ?]. split; try done; [split; try done; cbn; congruence|cbn; lia].
Qed.

Lemma write_range_ok v a bytes v' :
  write_range v a bytes = Some v' -> Forall u8 v -> Forall u8 bytes -> Forall u8 v'.
Proof.
  unfold write_range. destruct (_ <=? _)%nat; [|done]. intros [= <-] ? ?.
  apply Forall_app; split; [by apply Forall_take|]. apply Forall_app; split; [done|]. by apply Forall_drop.
Qed.

Lemma hoare_memory_set offset bytes g n E :
  0 <= offset -> offset + Z.of_nat (length bytes) <= n -> Forall u8 bytes ->
  hoare (run g n) (memory_set offset bytes) (fun _ => run g n) E.
Proof.
  intros Ho Hn Hb. apply (hoare_buffer _ (fun i =>
    SharedMemory_set (Z.to_nat offset) bytes (i_memory i) (i_buffer i))).
  intros i h HR. split; [done|]. destruct HR as [Hc _]. pose proof (core_active _ _ _ _ Hc).
  unfold SharedMemory_set.
  destruct (length bytes =? 0)%nat; [exists (i_buffer i); split_and!; [done..|apply Hc]|].
  destruct (write_range (i_buffer i) (my_checkpoint (i_memory i) + Z.to_nat offset) bytes) as [buf|] eqn:Ew.
  - exists buf. split_and!; [done|by eapply write_range_length|]. eapply write_range_ok; [done|apply Hc|done].
  - rewrite write_range_Some in Ew; [done|lia].
Qed.

(** [set_data] keeps bytes bytes. *)
Lemma set_data_bytes dst src a b len dst' :
  set_data dst src a b len = Some dst' -> Forall u8 dst -> Forall u8 src -> Forall u8 dst'.
Proof.
  assert (u8 0) as Hz by (unfold in_range, modulus; lia).
  unfold set_data. intros Hd Hu Hs. destruct (len =? 0)%nat; [by simplify_eq|].
  destruct (length src <=? b)%nat.
  { eapply write_range_ok; [done..|]. by apply Forall_replicate. }
  destruct (get_range src b _) as [bytes|] eqn:Eg; [|done].
  destruct (write_range dst a bytes) as [d1|] eqn:Ew; [|done].
  eapply write_range_ok; [done| |by apply Forall_replicate]. eapply write_range_ok; [done..|].
  unfold get_range in Eg. destruct (_ && _); simplify_eq. by apply Forall_take, Forall_drop.
Qed.

Lemma with_context_set_data g n i h a b len src :
  run g n i h -> Z.of_nat a + Z.of_nat len <= n -> Forall u8 src ->
  exists buf, with_context (fun dst => set_data dst src a b len) (i_memory i) (i_buffer i) = Some buf /\
    length buf = length (i_buffer i) /\ Forall u8 buf.
Proof.
  intros (Hc & _) Hn Hs. pose proof (core_active _ _ _ _ Hc). pose proof (core_mem _ _ _ _ Hc) as [].
  destruct inv_memory as [? _].
  unfold with_context. destruct (Nat.leb_spec (my_checkpoint (i_memory i)) (length (i_buffer i))); [|lia].
  destruct (set_data_correct_aux (drop (my_checkpoint (i_memory i)) (i_buffer i)) src a b len)
    as (dst & Hd & Hl & _); [rewrite length_drop; lia|]. rewrite Hd. eexists. split; [done|]. split.
  - rewrite length_app, length_take, Hl, length_drop. lia.
  - apply Forall_app. split; [apply Forall_take, Hc|]. eapply set_data_bytes; [done| |done].
    apply Forall_drop, Hc.
Qed.

Lemma hoare_memory_set_data memory_offset data_offset len bytes g n E :
  0 <= memory_offset -> 0 <= len -> memory_offset + len <= n -> Forall u8 bytes ->
  hoare (run g n) (memory_set_data memory_offset data_offset len bytes) (fun _ => run g n) E.
Proof.
  intros Ho Hl Hn Hb. apply (hoare_buffer _ (fun i => SharedMemory_set_data (Z.to_nat memory_offset)
    (Z.to_nat data_offset) (Z.to_nat len) bytes (i_memory i) (i_buffer i))).
  intros i h HR. split; [done|]. eapply with_context_set_data; [done|lia|done].
Qed.

(** * The host *)

Lemma hoare_host g n E : hoare (run g n) host (fun h0 i h => host_ok h0 /\ run g n i h) E.
Proof. intros i h HR. exists (Some h), i, h. split; [done|]. split; [apply HR|done]. Qed.

Lemma hoare_host_call {A} (F : H -> option (A * H)) (φ : A -> Prop) g n E :
  (forall h, host_ok h -> exists r h', F h = Some (r, h') /\ host_ok h' /\ φ r) ->
  hoare (run g n) (host_call F) (fun r i h => φ r /\ run g n i h) E.
Proof.
  intros HF i h (Hc & ? & ? & Hh). destruct (HF h Hh) as (r & h' & E1 & Hh' & Hr).
  exists (Some r), i, h'. unfold host_call. rewrite E1. by split_and!.
Qed.

Lemma hoare_berlin_load_account address load_code g n g' :
  in_range 160 address ->
  hoare (run g n) (berlin_load_account address load_code)
    (fun l i h => account_answer_ok load_code (ail_account l) /\ run (g - 100) n i h) (fin g').
Proof.
  intros Ha. eapply hoare_bind; [by apply hoare_gas|]. intros ?. change (g - WARM_STORAGE_READ_COST) with (g - 100).
  eapply hoare_bind; [apply hoare_remaining|]. intros r. apply hoare_pure. intros _.
  eapply hoare_bind.
  { apply (hoare_host_call _ (fun r => forall l, r = Ok l -> account_answer_ok load_code (ail_account l))).
    intros h Hh. by apply ok_load_account. }
  intros [l|[]]; apply hoare_pure; intros Hl.
  - eapply (hoare_bind _ _ _ (fun _ => run (g - 100) n)).
    + destruct (ail_is_cold l); [|by apply hoare_ret]. eapply hoare_post; [by apply hoare_gas|].
      intros ? i h HR. eapply running_weaken; [exact HR| |done]. unfold COLD_ACCOUNT_ACCESS_COST_ADDITIONAL,
        COLD_ACCOUNT_ACCESS_COST, WARM_STORAGE_READ_COST. lia.
    + intros _. apply hoare_ret. intros. split; [by apply Hl|done].
  - apply hoare_halt_with, halting_halt.
  - apply hoare_halt_with, halting_oog.
Qed.

Lemma hoare_exists {A B} (P : B -> Interpreter -> H -> Prop) (m : Instr H A) Q E :
  (forall x, hoare (P x) m Q E) -> hoare (fun i h => exists x, P x i h) m Q E.
Proof. intros Hm i h [x HP]. by apply (Hm x). Qed.

Lemma hoare_interpreter g n E :
  hoare (run g n) interpreter
    (fun i0 i h => (input_ok (i_memory i0) (i_input i0) /\ 0 <= gas_remaining (i_gas i0) < 2 ^ 55)
                   /\ run g n i h) E.
Proof.
  intros i h HR. exists (Some i), i, h. split; [done|]. split; [|done]. destruct HR as [Hc _].
  destruct (core_gas_ok _ _ _ _ Hc). destruct Hc as [? [] ? ? ? ? ? ? ? ? ?]. split; [done|lia].
Qed.

Lemma hoare_update_gas (F : Gas -> Gas) g n E :
  (forall x, gas_limit (F x) = gas_limit x /\ gas_remaining (F x) = gas_remaining x /\
             gas_memory (F x) = gas_memory x) ->
  hoare (run g n) (update (fun i => Some (with_gas (F (i_gas i)) i))) (fun _ => run g n) E.
Proof.
  intros HF. apply hoare_update. intros i h (Hc & ? & ? & ?). eexists. split; [done|].
  split_and!; try done. destruct (HF (i_gas i)) as (Hl & Hr & Hm).
  destruct Hc as [? [] ? ? ? ? ? ? ? ? ?]. split; try done; cbn; rewrite ?Hl, ?Hr; try done.
  split; unfold gas_ok in *; rewrite ?Hl, ?Hr, ?Hm; done.
Qed.

(** Asking for a new frame. *)
Lemma hoare_new_frame fi g n g' E :
  (forall i, core f g n i -> frame_input_ok i fi) ->
  hoare (run g n) (update (Interpreter_set_action (NewFrame fi))) (fun _ => fin g') E.
Proof.
  intros Hf. apply hoare_update. intros i h HR. eapply (set_action_over f _ g n); [exact HR|].
  intros j Hj Hip _ _ _. destruct (core_gas_ok _ _ _ _ Hj). split_and!; [|rewrite Hip; apply HR|by apply Hf].
  destruct Hj as [Hb Hm Hl Hg Ha Hcp Hs Hby Hrd Hin Hsp]. split; try done; [lia|].
  destruct Hm as [? ? [? _] ? Hlen]. lia.
Qed.
End Rules.
