(* ===== verification/InterpreterSafety.v ===== *)
(** Every instruction is safe: run on a frame that satisfies the invariant it
    neither panics nor runs into undefined behaviour, and it leaves a frame
    that satisfies the invariant or has stopped with a well-formed action. *)
From S2P Require Import Prelude Hardfork Bytecode State Database JournalEntry JournalInner Gas I256 InstructionResult Stack SharedMemory Interpreter Host Macros Words Instructions HostInstructions InterpreterLogic InterpreterRules.
From stdpp Require Import base numbers list option tactics.
From Stdlib Require Import ZArith Lia.

Local Open Scope Z_scope.

(** * Tactics *)

Ltac range_lia := unfold in_range, modulus in *; lia.
Ltac word :=
  solve
    [ eauto with words | assumption | range_lia
    | eauto using u64_u256, address_u256, into_address_range with words
    | apply from_be_bytes_u256; [assumption|lia]
    | apply Forall_singleton; eauto with words ].

(** The precondition's pure part becomes hypotheses, pairs are split. *)
Ltac hintro :=
  cbv beta;
  repeat match goal with
  | |- hoare (fun i h => _ /\ _) _ _ _ => apply hoare_pure; intros ?
  | x : (_ * _)%type |- _ => destruct x
  | H : _ /\ _ |- _ => destruct H
  | H : True |- _ => clear H
  end;
  cbn [fst snd] in *; subst.

Ltac hrule :=
  first
    [ apply hoare_popn_top0 | apply hoare_popn_top1 | apply hoare_popn_top2
    | apply hoare_popn1 | apply hoare_popn2 | apply hoare_popn3 | apply hoare_popn4
    | apply hoare_popn
    | apply hoare_spec_id | apply hoare_is_static | apply hoare_remaining | apply hoare_target_address
    | apply hoare_require_non_staticcall | apply hoare_check | apply hoare_host
    | apply hoare_as_usize_or_fail; word | apply hoare_as_usize_or_fail_with; word
    | apply hoare_set_top; word | apply hoare_push; word
    | apply hoare_gas; word
    | apply hoare_resize_memory; word
    | apply hoare_memory_slice_len; word
    | apply hoare_memory_set; [word|cbn [length]; rewrite ?length_be_bytes; word|word]
    | apply hoare_memory_set_data; word
    | apply hoare_berlin_load_account; word ].
Ltac hbind := eapply hoare_bind; [solve [hrule]|]; intros ?; hintro.

Ltac hover := intros; cbv beta in *; eapply running_over; [eassumption|range_lia|range_lia].
Ltac hend :=
  first
    [ apply hoare_ret; hover
    | apply hoare_update_halt, halting_halt
    | apply hoare_update_halt, halting_oog
    | apply hoare_halt_with, halting_halt
    | apply hoare_halt_with, halting_oog
    | eapply hoare_post; [solve [hrule]|hover] ].
Ltac hrun := repeat hbind; try hend.
(** Case analysis on the condition of the next statement. *)
Ltac hcase :=
  match goal with
  | |- hoare _ (if negb (?x =? ?y) then _ else _) _ _ => destruct (Z.eqb_spec x y); cbn [negb]
  | |- hoare _ (if ?x =? ?y then _ else _) _ _ => destruct (Z.eqb_spec x y)
  | |- hoare _ (if ?b then _ else _) _ _ => destruct b eqn:?
  end.

Section Safety.
Context {H : Type} `{!Host H, !BitVec, !Keccak, !KeccakLaws, !BitVecLaws} (f : Frame)
  `{!HostLaws H (f_spec f) (f_address f)} (Hwf : frame_wf f).

(** An instruction that keeps the frame within its gas. *)
Definition plain (m : Instr H unit) : Prop :=
  forall g, hoare (running f g 0) m (fun _ => over f g) (over f g).
(** An instruction that also pays some gas, unless it stops. *)
Definition paid (m : Instr H unit) : Prop :=
  forall g, hoare (running f g 0) m (fun _ => over f (g - 1)) (over f (g - 1)).

(** An instruction that always stops the frame: no gas bound is needed. *)
Definition stops (m : Instr H unit) : Prop :=
  forall g g', hoare (running f g 0) m (fun _ => over f g') (over f g').

(** * Arithmetic *)

Lemma plain_add : plain arithmetic_add. Proof. intros g. unfold arithmetic_add. hrun. Qed.
Lemma plain_mul : plain arithmetic_mul. Proof. intros g. unfold arithmetic_mul. hrun. Qed.
Lemma plain_sub : plain arithmetic_sub. Proof. intros g. unfold arithmetic_sub. hrun. Qed.
Lemma plain_div : plain arithmetic_div.
Proof.
  intros g. unfold arithmetic_div. hbind. hcase; [hend|].
  eapply hoare_post; [apply hoare_set_top, div_u256; done|hover].
Qed.
Lemma plain_sdiv : plain arithmetic_sdiv. Proof. intros g. unfold arithmetic_sdiv. hrun. Qed.
Lemma plain_rem : plain arithmetic_rem.
Proof.
  intros g. unfold arithmetic_rem. hbind. hcase; [hend|].
  eapply hoare_post; [apply hoare_set_top, mod_u256; done|hover].
Qed.
Lemma plain_smod : plain arithmetic_smod. Proof. intros g. unfold arithmetic_smod. hrun. Qed.
Lemma plain_addmod : plain arithmetic_addmod. Proof. intros g. unfold arithmetic_addmod. hrun. Qed.
Lemma plain_mulmod : plain arithmetic_mulmod. Proof. intros g. unfold arithmetic_mulmod. hrun. Qed.
Lemma paid_exp : paid arithmetic_exp.
Proof.
  intros g. unfold arithmetic_exp. hbind. hbind.
  eapply hoare_bind; [apply (hoare_gas_or_fail f _ 1); [lia|]|].
  - intros c. rewrite exp_cost_formula_aux by done. intros [= <-].
    destruct (Z.eqb_spec z0 0); [lia|].
    pose proof (Z.div_pos (Z.log2 z0) 8 (Z.log2_nonneg _) ltac:(lia)).
    destruct (SpecId_is_enabled_in _ _); lia.
  - intros ?. eapply hoare_post; [apply hoare_set_top, u256_pow_range; range_lia|hover].
Qed.
Lemma plain_signextend : plain arithmetic_signextend.
Proof.
  intros g. unfold arithmetic_signextend. hbind. destruct (z <? 31); [|hend].
  eapply hoare_post; [apply hoare_set_top|hover]. destruct (Z.testbit _ _); eauto with words.
Qed.

(** * Comparisons and bits *)

Lemma plain_lt : plain bitwise_lt. Proof. intros g. unfold bitwise_lt. hrun. Qed.
Lemma plain_gt : plain bitwise_gt. Proof. intros g. unfold bitwise_gt. hrun. Qed.
Lemma plain_clz : plain bitwise_clz. Proof. intros g. unfold bitwise_clz. hrun. Qed.
Lemma plain_slt : plain bitwise_slt. Proof. intros g. unfold bitwise_slt. hrun. Qed.
Lemma plain_sgt : plain bitwise_sgt. Proof. intros g. unfold bitwise_sgt. hrun. Qed.
Lemma plain_eq : plain bitwise_eq. Proof. intros g. unfold bitwise_eq. hrun. Qed.
Lemma plain_iszero : plain bitwise_iszero. Proof. intros g. unfold bitwise_iszero. hrun. Qed.
Lemma plain_bitand : plain bitwise_bitand. Proof. intros g. unfold bitwise_bitand. hrun. Qed.
Lemma plain_bitor : plain bitwise_bitor. Proof. intros g. unfold bitwise_bitor. hrun. Qed.
Lemma plain_bitxor : plain bitwise_bitxor. Proof. intros g. unfold bitwise_bitxor. hrun. Qed.
Lemma plain_not : plain bitwise_not. Proof. intros g. unfold bitwise_not. hrun. Qed.

(** A choice between words. *)
Lemma hoare_set_top_if (b : bool) v w g n E :
  u256 v -> u256 w -> hoare (running f g n) (set_top (if b then v else w)) (fun _ => running f g n) E.
Proof. intros. apply hoare_set_top. by destruct b. Qed.

Lemma plain_byte : plain bitwise_byte.
Proof.
  intros g. unfold bitwise_byte. hbind.
  eapply hoare_post; [apply hoare_set_top_if; word|hover].
Qed.
Lemma plain_shl : plain bitwise_shl.
Proof.
  intros g. unfold bitwise_shl. hbind. hbind.
  eapply hoare_post; [apply hoare_set_top_if; word|hover].
Qed.
Lemma plain_shr : plain bitwise_shr.
Proof.
  intros g. unfold bitwise_shr. hbind. hbind.
  eapply hoare_post; [apply hoare_set_top_if; [|word]|hover].
  apply shiftr_range; [done|]. apply as_u64_saturated_range. range_lia.
Qed.
Lemma plain_sar : plain bitwise_sar.
Proof.
  intros g. unfold bitwise_sar. hbind. hbind.
  eapply hoare_post; [apply hoare_set_top_if; [word|]|hover]. destruct (Z.testbit _ _); word.
Qed.

(** * Memory *)

Lemma plain_mload : plain memory_mload. Proof. intros g. unfold memory_mload. hrun. Qed.
Lemma plain_mstore : plain memory_mstore. Proof. intros g. unfold memory_mstore. hrun. Qed.
Lemma plain_mstore8 : plain memory_mstore8. Proof. intros g. unfold memory_mstore8. hrun. Qed.

(** The length of a frame's memory is far below 2^64. *)
Lemma running_local_len g n i h : running f g n i h -> 0 <= local_len i < 2 ^ 38.
Proof.
  intros [Hc _]. destruct Hc as [_ Hm _ _ _ _ _ _ _ _ _]. destruct Hm as [[Hg1 Hg2] Hl [Hw He] Hp Hb].
  pose proof (memory_gas_small (words_num (gas_memory (i_gas i))) Hw ltac:(lia)). unfold local_len. lia.
Qed.

Lemma plain_msize : plain memory_msize.
Proof.
  intros g. unfold memory_msize. eapply hoare_bind.
  - apply (hoare_read _ _ (fun n => 0 <= n < 2 ^ 38)). intros i h HR. eexists. split; [done|].
    pose proof (running_local_len _ _ _ _ HR). unfold local_len in *. unfold SharedMemory_len,
      SharedMemory_full_len. lia.
  - intros n. hintro. hend.
Qed.

(** The copying instructions cost at least 3. *)
Lemma copy_cost_verylow_ge len c : 0 <= len -> copy_cost_verylow len = Some c -> 3 <= c.
Proof. apply copy_cost_ge. Qed.

Lemma hoare_early (P : Interpreter -> H -> Prop) (Q : unit -> Interpreter -> H -> Prop) E :
  (forall i h, P i h -> E i h) -> hoare P early Q E.
Proof. intros HE i h HP. exists None, i, h. split; [done|]. by apply HE. Qed.

(** [copy_within] inside the active memory. *)
Lemma hoare_memory_copy dst src len g n E :
  0 <= dst -> 0 <= src -> 0 <= len -> Z.max dst src + len <= n ->
  hoare (running f g n) (update (fun i =>
      let? buf := SharedMemory_copy (Z.to_nat dst) (Z.to_nat src) (Z.to_nat len) (i_memory i) (i_buffer i) in
      Some (with_buffer buf i))) (fun _ => running f g n) E.
Proof.
  intros. apply (hoare_buffer f _ (fun i => SharedMemory_copy (Z.to_nat dst) (Z.to_nat src) (Z.to_nat len)
    (i_memory i) (i_buffer i))).
  intros i h HR. split; [done|]. destruct HR as [Hc _].
  pose proof (core_active _ _ _ _ Hc). pose proof (core_mem _ _ _ _ Hc) as [].
  destruct inv_memory as [? _]. pose proof (core_bytes _ _ _ _ Hc) as Hby. unfold SharedMemory_copy, with_context.
  destruct (Nat.leb_spec (my_checkpoint (i_memory i)) (length (i_buffer i))); [|lia].
  set (m := drop (my_checkpoint (i_memory i)) (i_buffer i)).
  assert (length m = length (i_buffer i) - my_checkpoint (i_memory i))%nat as Hlm by apply length_drop.
  assert (Forall u8 m) as Hm by by apply Forall_drop.
  destruct (get_range_in m (Z.to_nat src) (Z.to_nat src + Z.to_nat len)) as (s & -> & Hls & Hs); [lia|done|].
  rewrite write_range_Some by lia. eexists. split; [done|]. split.
  - rewrite !length_app, !length_take, length_drop. lia.
  - repeat apply Forall_app_2; auto using Forall_take, Forall_drop.
Qed.

Lemma paid_mcopy : paid memory_mcopy.
Proof.
  intros g. unfold memory_mcopy. hbind. hbind. hbind.
  eapply hoare_bind; [apply (hoare_gas_or_fail f _ 3); [lia|]|].
  { intros c. apply copy_cost_verylow_ge. range_lia. }
  intros ?. hcase; [apply hoare_early; hover|].
  hbind. hbind. eapply hoare_bind; [apply hoare_resize_memory; [|done]|].
  { unfold in_range in *. lia. }
  intros ?. eapply hoare_post; [apply hoare_memory_copy; range_lia|hover].
Qed.

(** * Stack *)

Lemma plain_pop : plain stack_pop. Proof. intros g. unfold stack_pop. hrun. Qed.
Lemma plain_push0 : plain stack_push0. Proof. intros g. unfold stack_push0. hrun. Qed.

(** An operation that replaces the stack and reports success. *)
Lemma hoare_stack_op (F : Stack -> option (bool * Stack)) r g n g' :
  (forall w, stack_ok w -> exists ok w', F (of_words w) = Some (ok, of_words w') /\ stack_ok w') ->
  hoare (running f g n)
    (ok ← (fun i h => let? (ok, s) := F (i_stack i) in Some (Some ok, with_stack s i, h));
     if (ok : bool) then mret tt else update (Interpreter_halt r))
    (fun _ i h => running f g n i h \/ over f g' i h) (over f g').
Proof.
  intros HF. eapply (hoare_bind _ _ _ (fun _ => running f g n)).
  - intros i h HR. destruct (running_stack f _ _ _ _ HR) as (w & Hw & Hok).
    destruct (HF w Hok) as (ok & w' & Hf & Hok'). rewrite Hw, Hf. eexists (Some ok), _, _.
    split; [done|]. by apply running_with_stack.
  - intros [|]; [apply hoare_ret; auto|]. eapply hoare_post; [apply hoare_update_halt, halting_halt|].
    intros ? i h Ho. right. exact Ho.
Qed.

Lemma plain_dup n : (0 < n)%nat -> plain (stack_dup n).
Proof.
  intros Hn g. eapply hoare_post; [apply (hoare_stack_op (Stack_dup n))|].
  - intros w [Hl Hf]. rewrite Stack_dup_words by done.
    destruct (_ || _) eqn:Eb; [eexists _, w; split; [done|by split]|].
    apply orb_false_iff in Eb as [E1%Nat.ltb_ge E2%Nat.leb_gt].
    destruct (lookup_lt_is_Some_2 w (n - 1) ltac:(lia)) as [x Hx]. rewrite Hx.
    eexists _, (x :: w). split; [done|]. split; [cbn; lia|]. constructor; [|done].
    by eapply Forall_lookup_1.
  - cbv beta. intros ? i h [HR|Ho]; [|exact Ho]. by eapply running_over.
Qed.

Lemma plain_swap n : (0 < n)%nat -> plain (stack_swap n).
Proof.
  intros Hn g. unfold stack_swap. destruct (Nat.eqb_spec n 0); [lia|].
  eapply hoare_post; [apply (hoare_stack_op (Stack_exchange 0 n))|].
  - intros w [Hl Hf]. rewrite Stack_exchange_words by done.
    destruct (Nat.leb_spec (length w) (0 + n)); [eexists _, w; split; [done|by split]|].
    destruct (lookup_lt_is_Some_2 w 0 ltac:(lia)) as [x Hx].
    destruct (lookup_lt_is_Some_2 w (0 + n) ltac:(lia)) as [y Hy]. rewrite Hx, Hy.
    eexists _, _. split; [done|]. split; [by rewrite !length_insert|].
    apply Forall_insert; [apply Forall_insert|]; try done; by eapply Forall_lookup_1.
  - cbv beta. intros ? i h [HR|Ho]; [|exact Ho]. by eapply running_over.
Qed.

(** * Control flow *)

Lemma f_code_padded : (length (f_code f) <= length (f_padded f))%nat.
Proof.
  destruct Hwf as (Hu & _ & _ & Han). destruct (analyze_legacy_padding_aux _ _ _ Hu Han) as [(k & _ & ->) _].
  rewrite length_app. lia.
Qed.

Lemma hoare_jump_inner target g n g' :
  u256 target -> hoare (running f g n) (jump_inner target) (fun _ => running f g n) (over f g').
Proof.
  intros Ht. unfold jump_inner. hbind. eapply hoare_bind.
  - apply (hoare_read _ _ (fun v : bool => v = true -> is_jumpdest (f_code f) (Z.to_nat target))).
    intros i h HR. unfold ExtBytecode_is_valid_legacy_jump. rewrite (core_base _ _ _ _ (proj1 HR)).
    cbn [f_base Bytecode_legacy_jump_table lab_jump_table]. eexists. split; [done|].
    destruct Hwf as (Hu & _ & _ & Han). by apply (analyze_legacy_jump_table_aux _ _ _ _ Hu Han).
  - intros v. hintro. destruct v; cbn [negb]; [|apply hoare_halt_with, halting_halt].
    match goal with Hj : true = true -> _ |- _ => destruct (Hj eq_refl) as [Hs Hj'] end.
    apply lookup_lt_Some in Hj'. pose proof f_code_padded.
    apply hoare_update. intros i h (Hc & Hr & Hp & Hh).
    unfold ExtBytecode_absolute_jump, set_instruction_pointer, eb_bytes. rewrite (core_base _ _ _ _ Hc).
    cbn [f_base Bytecode_bytecode lab_bytecode].
    destruct (Z.leb_spec 0 target), (Z.leb_spec target (Z.of_nat (length (f_padded f)))); try range_lia.
    eexists. split; [done|]. split_and!; try done.
    + by apply core_with_bytecode.
    + cbn. split; [lia|]. by left.
Qed.

Lemma plain_jump : plain control_jump.
Proof. intros g. unfold control_jump. hbind. eapply hoare_post; [by apply hoare_jump_inner|hover]. Qed.
Lemma plain_jumpi : plain control_jumpi.
Proof.
  intros g. unfold control_jumpi. hbind. hcase; [hend|].
  eapply hoare_post; [by apply hoare_jump_inner|hover].
Qed.
Lemma plain_jumpdest : plain control_jumpdest. Proof. intros g. unfold control_jumpdest. hend. Qed.
Lemma stops_stop : stops control_stop. Proof. intros g g'. apply hoare_update_halt, halting_halt. Qed.
Lemma stops_invalid : stops control_invalid.
Proof. intros g g'. apply hoare_update_halt, halting_halt. Qed.
Lemma stops_unknown : stops control_unknown.
Proof. intros g g'. apply hoare_update_halt, halting_halt. Qed.

(** Memory read for an output or a log: empty when [len] is zero. *)
Lemma hoare_read_output offset len g g' :
  u256 offset -> u64 len ->
  hoare (running f g 0)
    (if negb (len =? 0) then
       offset ← as_usize_or_fail offset;
       resize_memory_or_halt offset len ;;
       memory_slice_len offset len
     else mret [])
    (fun s i h => (length s = Z.to_nat len /\ Forall u8 s) /\ running f g 0 i h) (over f g').
Proof.
  intros Ho Hl. hcase; subst.
  - apply hoare_ret. done.
  - hbind. hbind. eapply hoare_post; [apply hoare_memory_slice_len; range_lia|].
    intros s i h [? HR]. split; [done|]. eapply running_weaken; [exact HR|lia|range_lia].
Qed.

Lemma stops_return_inner r : stops (return_inner r).
Proof.
  intros g g'. unfold return_inner. hbind. hbind.
  eapply hoare_bind; [by apply hoare_read_output|]. intros out. hintro.
  apply hoare_update. intros i h HR. eapply (set_action_over f _ g 0); [exact HR|].
  intros j Hj _ _ _ <-. split_and!; [by eapply core_gas_ok|apply Hj|done].
Qed.
Lemma stops_ret : stops control_ret. Proof. apply stops_return_inner. Qed.
Lemma stops_revert : stops control_revert.
Proof. intros g g'. unfold control_revert. hbind. apply stops_return_inner. Qed.

(** * System *)

Lemma f_original_bytes : Bytecode_original_bytes (f_base f) = f_code f.
Proof.
  destruct Hwf as (Hu & _ & _ & Han). destruct (analyze_legacy_padding_aux _ _ _ Hu Han) as [(k & _ & Hp) _].
  cbn [f_base Bytecode_original_bytes]. unfold LegacyAnalyzedBytecode_original_bytes.
  cbn [lab_bytecode lab_original_len]. by rewrite Hp, take_app_length.
Qed.

Lemma KECCAK_EMPTY_range : u256 KECCAK_EMPTY.
Proof. unfold in_range, modulus, KECCAK_EMPTY. lia. Qed.

Lemma paid_keccak256 : paid system_keccak256.
Proof.
  intros g. unfold system_keccak256. hbind. hbind.
  eapply hoare_bind; [apply (hoare_gas_or_fail f _ 30); [lia|]|].
  { intros c. apply keccak256_cost_ge. range_lia. }
  intros ?. eapply (hoare_bind _ _ _ (fun hash i h => u256 hash /\ running f (g - 30) 0 i h)).
  - hcase; [apply hoare_ret; intros; split; [apply KECCAK_EMPTY_range|done]|].
    hbind. hbind. hbind. apply hoare_ret. intros i h HR. split; [apply keccak256_range|].
    eapply running_weaken; [exact HR|lia|range_lia].
  - intros hash. hintro. hend.
Qed.

Lemma plain_address : plain system_address. Proof. intros g. unfold system_address. hrun. Qed.
Lemma plain_caller : plain system_caller.
Proof.
  intros g. unfold system_caller. eapply hoare_bind; [apply (hoare_read _ _ (in_range 160))|].
  - intros i h [Hc _]. eexists. split; [done|]. apply (core_input _ _ _ _ Hc).
  - intros ?. hintro. hend.
Qed.
Lemma plain_callvalue : plain system_callvalue.
Proof.
  intros g. unfold system_callvalue. eapply hoare_bind; [apply (hoare_read _ _ (in_range 256))|].
  - intros i h [Hc _]. eexists. split; [done|]. apply (core_input _ _ _ _ Hc).
  - intros ?. hintro. hend.
Qed.
Lemma plain_codesize : plain system_codesize.
Proof.
  intros g. unfold system_codesize. eapply hoare_bind; [apply (hoare_read _ _ (fun n => 0 <= n < 2 ^ 64))|].
  - intros i h [Hc _]. eexists. split; [done|]. unfold ExtBytecode_bytecode_len, Bytecode_len.
    rewrite (core_base _ _ _ _ Hc), f_original_bytes. destruct Hwf as (_ & ? & _). lia.
  - intros ?. hintro. hend.
Qed.
Lemma CallInput_len_range m input : input_ok m input -> 0 <= CallInput_len (in_input input) < 2 ^ 64.
Proof.
  intros (_ & _ & _ & Hi). destruct (in_input input) as [[a b]|bytes]; cbn.
  - unfold range_len, saturating_sub. cbn. lia.
  - lia.
Qed.
Lemma plain_calldatasize : plain system_calldatasize.
Proof.
  intros g. unfold system_calldatasize. eapply hoare_bind; [apply (hoare_read _ _ (fun n => 0 <= n < 2 ^ 64))|].
  - intros i h [Hc _]. eexists. split; [done|]. eapply CallInput_len_range, Hc.
  - intros ?. hintro. hend.
Qed.
Lemma plain_returndatasize : plain system_returndatasize.
Proof.
  intros g. unfold system_returndatasize. hbind.
  eapply hoare_bind; [apply (hoare_read _ _ (fun n => 0 <= n < 2 ^ 64))|].
  - intros i h [Hc _]. eexists. split; [done|]. destruct (core_return_data _ _ _ _ Hc). lia.
  - intros ?. hintro. hend.
Qed.
Lemma plain_gas : plain system_gas. Proof. intros g. unfold system_gas. hrun. Qed.

(** [memory_resize]: the memory it returns is active; it returns early, having
    charged, when there is nothing to copy. *)
Lemma hoare_system_memory_resize memory_offset len g :
  u256 memory_offset -> u64 len ->
  hoare (running f g 0) (system_memory_resize memory_offset len)
    (fun a i h => u64 a /\ running f (g - 3) (a + len) i h) (over f (g - 1)).
Proof.
  intros Ho Hl. unfold system_memory_resize.
  eapply hoare_bind; [apply (hoare_gas_or_fail f _ 3); [lia|]|].
  { intros c. apply copy_cost_verylow_ge. range_lia. }
  intros ?. hcase.
  - intros i h HR. exists None, i, h. split; [done|]. eapply running_over; [exact HR|lia..].
  - hbind. hbind. apply hoare_ret. intros i h HR. split; [done|]. eapply running_weaken; [exact HR|lia..].
Qed.

Lemma paid_codecopy : paid system_codecopy.
Proof.
  intros g. unfold system_codecopy. hbind. hbind.
  eapply hoare_bind; [by apply hoare_system_memory_resize|]. intros ?. hintro.
  eapply hoare_bind; [apply (hoare_read _ _ (Forall u8))|].
  - intros i h [Hc _]. eexists. split; [done|]. unfold ExtBytecode_bytecode_slice.
    rewrite (core_base _ _ _ _ Hc), f_original_bytes. apply Hwf.
  - intros c. hintro. hend.
Qed.

Lemma paid_returndatacopy : paid system_returndatacopy.
Proof.
  intros g. unfold system_returndatacopy. hbind. hbind. hbind.
  eapply hoare_bind; [apply (hoare_read _ _ (Forall u8))|].
  { intros i h [Hc _]. eexists. split; [done|]. apply (core_return_data _ _ _ _ Hc). }
  intros rd. hintro. hcase; [hend|].
  eapply hoare_bind; [by apply hoare_system_memory_resize|]. intros ?. hintro. hend.
Qed.

Lemma paid_calldatacopy : paid system_calldatacopy.
Proof.
  intros g. unfold system_calldatacopy. hbind. hbind.
  eapply hoare_bind; [by apply hoare_system_memory_resize|]. intros mo. hintro.
  match goal with |- hoare (running f _ (mo + ?l)) _ _ _ => set (len := l) in * end.
  eapply hoare_bind; [apply hoare_read_eq; eauto|]. cbv beta. intros [[s e]|bytes].
  - eapply hoare_post; [eapply (hoare_buffer f _ (fun i => SharedMemory_global_to_local_set_data _ _ _ _ _
      (i_memory i) (i_buffer i)) (g - 3) (mo + len))|hover].
    intros i h [[= Ei] HR]. split; [exact HR|]. destruct (core_input _ _ _ _ (proj1 HR)) as (_ & _ & _ & Hin).
    rewrite Ei in Hin. destruct Hin as (? & ? & Hin). cbn [fst snd]. unfold SharedMemory_global_to_local_set_data.
    assert (exists src, (if (Z.to_nat e <=? Z.to_nat s)%nat then Some []
      else get_range (take (my_checkpoint (i_memory i)) (i_buffer i)) (Z.to_nat s) (Z.to_nat e)) = Some src
      /\ Forall u8 src) as (src & -> & Hsrc).
    { destruct (Nat.leb_spec (Z.to_nat e) (Z.to_nat s)); [by exists []|]. specialize (Hin ltac:(lia)).
      pose proof (core_mem _ _ _ _ (proj1 HR)) as []. destruct inv_memory as [? _].
      destruct (get_range_in (take (my_checkpoint (i_memory i)) (i_buffer i)) (Z.to_nat s) (Z.to_nat e))
        as (x & -> & _ & Hx); [rewrite length_take; lia|apply Forall_take, HR|]. eauto. }
    eapply with_context_set_data; [exact HR|range_lia|done].
  - eapply (hoare_pre (fun i h => Forall u8 bytes /\ running f (g - 3) (mo + len) i h)).
    + apply hoare_pure. intros ?. hend.
    + intros i h [[= Ei] HR]. split; [|exact HR].
      destruct (core_input _ _ _ _ (proj1 HR)) as (_ & _ & _ & Hin). rewrite Ei in Hin. apply Hin.
Qed.

(** The bytes [CALLDATALOAD] reads. *)
Lemma calldataload_bytes input offset g n i h :
  running f g n i h -> in_input (i_input i) = input -> 0 <= offset < CallInput_len input ->
  let count := Z.min 32 (CallInput_len input - offset) in
  exists bytes, match input with
    | CallInput_Bytes bytes => get_range bytes (Z.to_nat offset) (Z.to_nat (offset + count))
    | SharedBuffer range =>
        let? input_slice := SharedMemory_global_slice_range (Z.to_nat range.1) (Z.to_nat range.2)
          (i_memory i) (i_buffer i) in
        get_range input_slice (Z.to_nat offset) (Z.to_nat (offset + count))
    end = Some bytes /\ length bytes = Z.to_nat count /\ Forall u8 bytes.
Proof.
  intros HR <- Ho count. destruct (core_input _ _ _ _ (proj1 HR)) as (_ & _ & _ & Hin).
  destruct (in_input (i_input i)) as [[s e]|bytes]; cbn [fst snd CallInput_len] in *.
  - unfold range_len, saturating_sub in *. cbn [fst snd] in *.
    pose proof (core_mem _ _ _ _ (proj1 HR)) as []. destruct inv_memory as [? _].
    destruct Hin as (? & ? & Hin). specialize (Hin ltac:(lia)). unfold SharedMemory_global_slice_range.
    destruct (get_range_in (i_buffer i) (Z.to_nat s) (Z.to_nat e)) as (x & -> & Hlx & Hx); [lia|apply HR|].
    destruct (get_range_in x (Z.to_nat offset) (Z.to_nat (offset + count))) as (y & -> & Hly & Hy); [lia|done|].
    exists y. split_and!; [done|lia|done].
  - destruct (get_range_in bytes (Z.to_nat offset) (Z.to_nat (offset + count))) as (y & -> & Hly & Hy);
      [lia|apply Hin|]. exists y. split_and!; [done|lia|done].
Qed.

Lemma plain_calldataload : plain system_calldataload.
Proof.
  intros g. unfold system_calldataload. hbind.
  assert (u8 0) as Hz by range_lia.
  eapply hoare_bind; [apply hoare_read_eq; eauto|]. cbv beta. intros input.
  eapply (hoare_bind _ _ _ (fun w i h => (Forall u8 w /\ length w = 32%nat) /\ running f g 0 i h)).
  - destruct (Z.ltb_spec (as_usize_saturated a) (CallInput_len input)) as [Hlt|Hge].
    + pose proof (as_u64_saturated_range a ltac:(range_lia)) as [Hr _]. unfold as_usize_saturated in *.
      eapply (hoare_bind _ _ _ (fun bytes i h =>
        (length bytes = Z.to_nat (Z.min 32 (CallInput_len input - as_u64_saturated a)) /\ Forall u8 bytes)
        /\ running f g 0 i h)).
      * intros i h [[= Ei] HR].
        destruct (calldataload_bytes input (as_u64_saturated a) g 0 i h HR Ei ltac:(lia)) as (bs & Hb & Hl & Hu).
        destruct input as [r|bytes]; unfold read; rewrite Hb; by exists (Some bs), i, h.
      * intros bytes. hintro. apply hoare_ret. intros i h HR. split_and!; [| |done].
        -- apply Forall_app. split; [done|]. by apply Forall_replicate.
        -- rewrite length_app, length_replicate. lia.
    + apply hoare_ret. intros i h [_ HR]. split_and!; [by apply Forall_replicate|done|done].
  - intros w. hintro. eapply hoare_post; [apply hoare_set_top, from_be_bytes_u256; [done|lia]|hover].
Qed.
End Safety.
