(* ===== verification/HostSafety.v ===== *)
(** The safety of the instructions that call the host, and of the calls and
    creations, whose action the handler can execute. *)
From S2P Require Import Prelude Hardfork Bytecode State Database JournalEntry JournalInner Gas I256 InstructionResult Stack SharedMemory Interpreter Host Macros Words Instructions HostInstructions InterpreterLogic InterpreterRules InterpreterSafety.
From stdpp Require Import base numbers list option tactics.
From Stdlib Require Import ZArith Lia.

Local Open Scope Z_scope.

Section HostSafety.
Context {H : Type} `{!Host H, !BitVec, !Keccak, !KeccakLaws, !BitVecLaws} (f : Frame)
  `{!HostLaws H (f_spec f) (f_address f)} (Hwf : frame_wf f).

(** * Block and transaction *)

(** A value of the block or the transaction. *)
Lemma hoare_push_host (F : H -> Z) g :
  (forall h, host_ok h -> u256 (F h)) ->
  hoare (running f g 0) (h ← host; push (F h)) (fun _ => over f g) (over f g).
Proof.
  intros HF. eapply hoare_bind; [apply hoare_host|]. intros h. hintro.
  eapply hoare_post; [apply hoare_push; auto|hover].
Qed.

Lemma plain_chainid : plain f block_info_chainid.
Proof. intros g. unfold block_info_chainid. hbind. apply hoare_push_host, ok_chain_id. Qed.
Lemma plain_coinbase : plain f block_info_coinbase.
Proof. intros g. apply hoare_push_host. intros. by apply address_u256, ok_beneficiary. Qed.
Lemma plain_timestamp : plain f block_info_timestamp.
Proof. intros g. apply hoare_push_host, ok_timestamp. Qed.
Lemma plain_block_number : plain f block_info_block_number.
Proof. intros g. apply hoare_push_host, ok_block_number. Qed.
Lemma plain_gaslimit : plain f block_info_gaslimit.
Proof. intros g. apply hoare_push_host, ok_gas_limit. Qed.
Lemma plain_basefee : plain f block_info_basefee.
Proof. intros g. unfold block_info_basefee. hbind. apply hoare_push_host, ok_basefee. Qed.
Lemma plain_blob_basefee : plain f block_info_blob_basefee.
Proof. intros g. unfold block_info_blob_basefee. hbind. apply hoare_push_host, ok_blob_gasprice. Qed.
Lemma plain_gasprice : plain f tx_info_gasprice.
Proof. intros g. apply hoare_push_host, ok_effective_gas_price. Qed.
Lemma plain_origin : plain f tx_info_origin.
Proof. intros g. apply hoare_push_host. intros. by apply address_u256, ok_caller. Qed.

Lemma plain_difficulty : plain f block_info_difficulty.
Proof.
  intros g. unfold block_info_difficulty. hbind. eapply hoare_bind; [apply hoare_host|]. intros h. hintro.
  hcase.
  - destruct (ok_prevrandao h) as (r & -> & Hr); [done..|]. hend.
  - eapply hoare_post; [apply hoare_push; by apply ok_difficulty|hover].
Qed.

Lemma plain_blob_hash : plain f tx_info_blob_hash.
Proof.
  intros g. unfold tx_info_blob_hash. hbind. hbind. eapply hoare_bind; [apply hoare_host|]. intros h. hintro.
  eapply hoare_post; [apply hoare_set_top|hover].
  destruct (host_blob_hash h _) eqn:Eb; [by eapply ok_blob_hash|apply u256_0].
Qed.

(** * Accounts *)

Abbreviation load_ok load_code := (fun r : result AccountInfoLoad LoadError =>
  forall l, r = Ok l -> account_answer_ok load_code (ail_account l)).

Lemma hoare_host_load address load_code skip g n E :
  in_range 160 address ->
  hoare (running f g n) (host_call (fun h => host_load_account_info_skip_cold_load h address load_code skip))
    (fun r i h => load_ok load_code r /\ running f g n i h) E.
Proof. intros Ha. apply (hoare_host_call f _ (load_ok load_code)). intros h Hh. by apply ok_load_account. Qed.

Lemma hoare_load_account_flat cost address load_code g n g' :
  0 <= cost -> in_range 160 address ->
  hoare (running f g n) (load_account_flat cost address load_code)
    (fun l i h => account_answer_ok load_code (ail_account l) /\ running f (g - cost) n i h) (over f g').
Proof.
  intros Hc Ha. unfold load_account_flat. hbind. eapply hoare_bind; [by apply hoare_host_load|].
  intros [l|e]; hintro; [|apply hoare_halt_with, halting_halt]. apply hoare_ret. auto.
Qed.

(** The load of an account costs at least one unit in every hard fork. *)
Lemma hoare_load_account address load_code (flat : Z) g n g' :
  1 <= flat -> in_range 160 address ->
  hoare (running f g n)
    (if SpecId_is_enabled_in (f_spec f) BERLIN then berlin_load_account address load_code
     else load_account_flat flat address load_code)
    (fun l i h => account_answer_ok load_code (ail_account l) /\ running f (g - 1) n i h) (over f g').
Proof.
  intros Hf Ha. hcase.
  - eapply hoare_post; [by apply hoare_berlin_load_account|]. intros l i h [? HR]. split; [done|].
    eapply running_weaken; [exact HR|lia..].
  - eapply hoare_post; [apply hoare_load_account_flat; [lia|done]|]. intros l i h [? HR]. split; [done|].
    eapply running_weaken; [exact HR|lia..].
Qed.

(** Pulling the choice of the fork out of the instruction. *)
Lemma hoare_fork {A B} (b : bool) P (m1 m2 : Instr H A) (k : A -> Instr H B) Q E :
  hoare P ((if b then m1 else m2) ≫= k) Q E -> hoare P (if b then m1 ≫= k else m2 ≫= k) Q E.
Proof. by destruct b. Qed.

Lemma plain_selfbalance : plain f host_instr_selfbalance.
Proof.
  intros g. unfold host_instr_selfbalance. hbind. hbind. eapply hoare_bind.
  - apply (hoare_host_call f _ (fun b => forall s, b = Some s -> u256 (data s))). intros h Hh.
    unfold Host_balance. destruct (ok_load_account h (f_address f) false false) as (r & h' & -> & ? & Hr); [done..|].
    eexists _, _. split; [done|]. split; [done|]. intros s Hs. destruct r as [l|]; [|done]. cbn in Hs.
    simplify_eq. cbn. by apply Hr.
  - intros [s|]; hintro; [|hend]. eapply hoare_post; [apply hoare_push; auto|hover].
Qed.

Lemma paid_balance : paid f host_instr_balance.
Proof.
  intros g. unfold host_instr_balance. hbind. hbind. apply hoare_fork.
  eapply hoare_bind; [apply hoare_load_account; [|apply into_address_range]|].
  { destruct (SpecId_is_enabled_in (f_spec f) ISTANBUL), (SpecId_is_enabled_in (f_spec f) TANGERINE); lia. }
  intros l. hintro. match goal with Hl : account_answer_ok _ _ |- _ => destruct Hl as ([Hb _] & _) end. hend.
Qed.

Lemma paid_extcodesize : paid f host_instr_extcodesize.
Proof.
  intros g. unfold host_instr_extcodesize. hbind. hbind. apply hoare_fork.
  eapply hoare_bind; [apply hoare_load_account; [|apply into_address_range]|].
  { destruct (SpecId_is_enabled_in (f_spec f) TANGERINE); lia. }
  intros l. hintro. match goal with Hl : account_answer_ok _ _ |- _ => destruct Hl as (_ & _ & Hc & Hb & _) end.
  unfold loaded_code. destruct (Hc eq_refl) as [c Ec]. rewrite Ec. destruct (Hb c Ec) as [_ Hlen].
  eapply (hoare_bind _ _ _ (fun c' i h => c' = c /\ running f (g - 1) 0 i h)); [by apply hoare_ret|].
  intros c'. hintro. hend.
Qed.

Lemma paid_extcodehash : paid f host_instr_extcodehash.
Proof.
  intros g. unfold host_instr_extcodehash. hbind. hbind. hbind.
  eapply hoare_bind; [apply hoare_load_account; [|apply into_address_range]|].
  { destruct (SpecId_is_enabled_in (f_spec f) ISTANBUL); lia. }
  intros l. hintro. match goal with Hl : account_answer_ok _ _ |- _ => destruct Hl as (_ & Hc & _) end.
  eapply hoare_post; [apply hoare_set_top|hover]. destruct (AccountInfo_is_empty _); word.
Qed.

(** The code [EXTCODECOPY] copies. *)
Lemma hoare_extcode address g n g' :
  in_range 160 address ->
  hoare (running f g n)
    (if SpecId_is_enabled_in (f_spec f) BERLIN then
       account ← berlin_load_account address true;
       c ← loaded_code account;
       mret (Bytecode_original_bytes c)
     else
       gas (if SpecId_is_enabled_in (f_spec f) TANGERINE then 700 else 20) ;;
       c ← host_call (fun h => Host_load_account_code h address);
       match c with Some c => mret (data c) | None => halt_with Interpreter_halt_fatal end)
    (fun bytes i h => Forall u8 bytes /\ running f (g - 1) n i h) (over f g').
Proof.
  intros Ha. destruct (SpecId_is_enabled_in (f_spec f) BERLIN).
  - hbind. match goal with Hl : account_answer_ok _ _ |- _ => destruct Hl as (_ & _ & Hc & Hb & _) end.
    destruct (Hc eq_refl) as [c Ec]. destruct (Hb c Ec) as [Hu _]. unfold loaded_code. rewrite Ec.
    eapply (hoare_bind _ _ _ (fun c' i h => c' = c /\ running f (g - 100) n i h)); [by apply hoare_ret|].
    intros c'. hintro. apply hoare_ret. intros i h HR. split; [done|]. eapply running_weaken; [exact HR|lia..].
  - eapply hoare_bind; [apply hoare_gas; destruct (SpecId_is_enabled_in (f_spec f) TANGERINE); lia|]. intros ?.
    eapply hoare_bind.
    { apply (hoare_host_call f _ (fun b => forall s, b = Some s -> Forall u8 (data s))). intros h Hh.
      unfold Host_load_account_code. destruct (ok_load_account h address true false) as (r & h' & -> & ? & Hr);
        [done..|]. eexists _, _. split; [done|]. split; [done|]. intros s Hs. destruct r as [l|]; [|done].
      cbn in Hs. simplify_eq. cbn. destruct (Hr l eq_refl) as (_ & _ & _ & Hb & _).
      destruct (code (ail_account l)) as [c|] eqn:Ec; [|constructor]. by apply Hb. }
    intros [s|]; hintro; [|apply hoare_halt_with, halting_halt]. apply hoare_ret. intros i h HR.
    split; [auto|]. eapply running_weaken; [exact HR| |lia].
    destruct (SpecId_is_enabled_in (f_spec f) TANGERINE); lia.
Qed.

Lemma paid_extcodecopy : paid f host_instr_extcodecopy.
Proof.
  intros g. unfold host_instr_extcodecopy. hbind. hbind. hbind.
  eapply hoare_bind; [apply hoare_gas|].
  { apply copy_cost_or_max_nonneg. range_lia. }
  intros ?. set (g1 := g - _).
  match goal with |- hoare _ ((if negb (?l =? 0) then _ else _) ≫= _) _ _ => set (len := l) in * end.
  eapply (hoare_bind _ _ _ (fun mo i h => u64 mo /\ running f g1 (mo + len) i h)).
  { hcase.
    - apply hoare_ret. intros i h HR. split; [range_lia|]. eapply running_weaken; [exact HR|lia..].
    - hbind. hbind. apply hoare_ret. intros i h HR. split; [done|].
      eapply running_weaken; [exact HR|lia|subst len; lia]. }
  intros mo. hintro. eapply hoare_bind; [apply hoare_extcode, into_address_range|].
  intros bytes. hintro. eapply hoare_post; [apply hoare_memory_set_data; try done; range_lia|].
  intros ? i h HR. eapply running_over; [exact HR| |range_lia]. subst g1.
  enough (0 <= match copy_cost 0 len with Some c => c | None => u64_max end) by lia.
  apply copy_cost_or_max_nonneg. range_lia.
Qed.

Lemma plain_blockhash : plain f host_instr_blockhash.
Proof.
  intros g. unfold host_instr_blockhash. hbind. eapply hoare_bind; [apply hoare_host|]. intros h. hintro.
  destruct (checked_sub _ _) as [diff|]; [|hend]. hcase; [hend|]. hcase; [|hend].
  eapply hoare_bind.
  - apply (hoare_host_call f _ (fun r => forall x, r = Some x -> u256 x)). intros h' Hh'.
    apply ok_block_hash; [done|]. apply as_u64_saturated_range. range_lia.
  - intros [x|]; hintro; [|hend]. eapply hoare_post; [apply hoare_set_top; auto|hover].
Qed.

(** * Storage *)

Lemma paid_sload : paid f host_instr_sload.
Proof.
  intros g. unfold host_instr_sload. hbind. hbind. hbind.
  eapply (hoare_bind _ _ _ (fun _ => running f (g - 1) 0)).
  { set (c := if SpecId_is_enabled_in (f_spec f) BERLIN then _ else _). assert (50 <= c).
    { unfold c, WARM_STORAGE_READ_COST, ISTANBUL_SLOAD_GAS. case_if; lia. }
    eapply hoare_post; [apply hoare_gas; lia|]. intros ? i h HR. eapply running_weaken; [exact HR|lia..]. }
  intros ?. hcase.
  - hbind. eapply hoare_bind.
    + apply (hoare_host_call f _ (fun r => forall l, r = Ok l -> u256 (data l))). intros h Hh.
      by apply ok_sload.
    + intros [l|[]]; hintro; [|hend..]. eapply (hoare_bind _ _ _ (fun _ => running f (g - 1) 0)).
      * destruct (load_is_cold l); [|by apply hoare_ret]. eapply hoare_post; [by apply hoare_gas|].
        intros ? i h HR. eapply running_weaken; [exact HR| |done]. unfold COLD_SLOAD_COST_ADDITIONAL,
          COLD_SLOAD_COST, WARM_STORAGE_READ_COST. lia.
      * intros ?. eapply hoare_post; [apply hoare_set_top; auto|hover].
  - eapply hoare_bind.
    + apply (hoare_host_call f _ (fun r => forall l, r = Some l -> u256 (data l))). intros h Hh.
      unfold Host_sload. destruct (ok_sload h a false) as (r & h' & -> & ? & Hr); [done..|].
      eexists _, _. split; [done|]. split; [done|]. destruct r; cbn; intros; simplify_eq. by apply Hr.
    + intros [l|]; hintro; [|hend]. eapply hoare_post; [apply hoare_set_top; auto|hover].
Qed.

Lemma hoare_record_refund refund g n E :
  hoare (running f g n) (record_refund refund) (fun _ => running f g n) E.
Proof. by apply (hoare_update_gas f (Gas_record_refund refund)). Qed.

Lemma static_sstore_cost_ge spec : 100 <= static_sstore_cost spec.
Proof. unfold static_sstore_cost, WARM_STORAGE_READ_COST, ISTANBUL_SLOAD_GAS, SSTORE_RESET. case_if; lia. Qed.

Lemma paid_sstore : paid f host_instr_sstore.
Proof.
  intros g. unfold host_instr_sstore. hbind. hbind. hbind. hbind. hbind. hcase; [hend|].
  pose proof (static_sstore_cost_ge (f_spec f)).
  eapply hoare_bind; [apply hoare_gas; lia|]. intros ?. set (g1 := g - _).
  eapply (hoare_bind _ _ _ (fun _ => running f g1 0)).
  - hcase.
    + hbind. eapply hoare_bind.
      * apply (hoare_host_call f _ (fun _ => True)). intros h Hh.
        edestruct (ok_sstore h z z0) as (r & h' & -> & ?); [done..|eauto].
      * intros [l|[]]; hintro; [by apply hoare_ret|apply hoare_halt_with, halting_halt|apply hoare_halt_with, halting_oog].
    + eapply hoare_bind.
      * apply (hoare_host_call f _ (fun _ => True)). intros h Hh. unfold Host_sstore.
        edestruct (ok_sstore h z z0) as (r & h' & -> & ?); [done..|eauto].
      * intros [l|]; hintro; [by apply hoare_ret|hend].
  - intros l. eapply hoare_bind; [apply hoare_gas, dyn_sstore_cost_exact_aux|]. intros ?.
    eapply hoare_post; [apply hoare_record_refund|].
    intros ? i h HR. eapply running_over; [exact HR| |done].
    pose proof (proj2 (dyn_sstore_cost_exact_aux (f_spec f) (data l) (load_is_cold l))). subst g1. lia.
Qed.

Lemma plain_tstore : plain f host_instr_tstore.
Proof.
  intros g. unfold host_instr_tstore. hbind. hbind. hbind. hbind.
  eapply hoare_post; [apply (hoare_host_call f _ (fun _ => True))|].
  - intros h Hh. eexists _, _. split; [done|]. split; [by apply ok_tstore|done].
  - intros ? i h [_ HR]. eapply running_over; [exact HR|lia..].
Qed.

Lemma plain_tload : plain f host_instr_tload.
Proof.
  intros g. unfold host_instr_tload. hbind. hbind. hbind. eapply hoare_bind.
  - apply (hoare_host_call f _ (in_range 256)). intros h Hh. edestruct (ok_tload h (f_address f)) as [? ?]; [done..|].
    destruct (host_tload h _ _) as [v h']. eexists _, _. by split_and!.
  - intros v. hintro. hend.
Qed.
End HostSafety.
