(* ===== verification/ContractSafety.v ===== *)
(** The safety of logs, self-destruction, contract creation and calls. *)
From S2P Require Import Prelude Hardfork Bytecode State Database JournalEntry JournalInner Gas I256 InstructionResult Stack SharedMemory Interpreter Host Macros Words Instructions HostInstructions InterpreterLogic InterpreterRules InterpreterSafety HostSafety.
From stdpp Require Import base numbers list option tactics.
From Stdlib Require Import ZArith Lia.

Local Open Scope Z_scope.

Section ContractSafety.
Context {H : Type} `{!Host H, !BitVec, !Keccak, !KeccakLaws, !BitVecLaws} (f : Frame)
  `{!HostLaws H (f_spec f) (f_address f)} (Hwf : frame_wf f).

(** * Logs and self-destruction *)

Lemma log_cost_ge n len c : 0 <= n -> 0 <= len -> log_cost n len = Some c -> 375 <= c.
Proof.
  intros Hn Hl. unfold log_cost. destruct (checked_mul _ _ _) as [d|] eqn:Ed; [|done].
  apply checked_mul_spec in Ed as [-> _]. destruct (checked_add _ _ _) as [e|] eqn:Ee; [|done].
  apply checked_add_spec in Ee as [-> _]. intros [-> _]%checked_add_spec. unfold LOG, LOGDATA, LOGTOPIC. lia.
Qed.

Lemma paid_log n : (n <= 4)%nat -> paid f (host_instr_log n).
Proof.
  intros Hn g. unfold host_instr_log. hbind. hbind. hbind.
  eapply hoare_bind; [apply (hoare_gas_or_fail f _ 375); [lia|]|].
  { intros c. apply log_cost_ge; [lia|range_lia]. }
  intros ?. eapply (hoare_bind _ _ _ (fun _ => running f (g - 375) 0)).
  { hcase; [by apply hoare_ret|]. hbind. hbind.
    eapply hoare_post; [apply hoare_memory_slice_len; range_lia|]. intros s i h [_ HR].
    eapply running_weaken; [exact HR|lia|range_lia]. }
  intros bytes. eapply hoare_bind; [apply hoare_popn|]. intros topics. hintro. hbind.
  destruct (Nat.ltb_spec 4 (length topics)); [lia|].
  eapply hoare_post; [apply (hoare_host_call f _ (fun _ => True))|].
  - intros h Hh. eexists _, _. split; [done|]. split; [by apply ok_log|done].
  - intros ? i h [_ HR]. eapply running_over; [exact HR|lia..].
Qed.

Lemma dyn_selfdestruct_cost_nonneg spec r : 0 <= dyn_selfdestruct_cost spec r.
Proof. unfold dyn_selfdestruct_cost, NEWACCOUNT, COLD_ACCOUNT_ACCESS_COST. case_if; lia. Qed.
Lemma static_selfdestruct_cost_nonneg spec : 0 <= static_selfdestruct_cost spec.
Proof. unfold static_selfdestruct_cost. case_if; lia. Qed.

Lemma stops_selfdestruct : stops f host_instr_selfdestruct.
Proof.
  intros g g'. unfold host_instr_selfdestruct. hbind. hbind. hbind.
  eapply hoare_bind; [apply hoare_gas, static_selfdestruct_cost_nonneg|]. intros ?. hbind.
  eapply hoare_bind.
  - apply (hoare_host_call f _ (fun _ => True)). intros h Hh.
    edestruct (ok_selfdestruct h) as (r & h' & -> & ?); [done|apply into_address_range|eauto].
  - intros [res|]; hintro; [|hend].
    eapply hoare_bind; [apply hoare_gas, dyn_selfdestruct_cost_nonneg|]. intros ?. cbv beta.
    match goal with |- hoare (running f ?g1 _) _ _ _ => eapply (hoare_bind _ _ _ (fun _ => running f g1 0)) end.
    + hcase; [apply hoare_record_refund|by apply hoare_ret].
    + intros ?. hend.
Qed.

(** * Creating contracts *)

Lemma initcode_cost_total len : u64 len -> exists c, initcode_cost len = Some c /\ 0 <= c.
Proof.
  intros [Hl1 Hl2]. unfold initcode_cost, cost_per_word.
  assert (num_words len < 2 ^ 59 + 1).
  { unfold num_words. apply Z.div_lt_upper_bound; [lia|]. unfold saturating_add, modulus in *. lia. }
  pose proof (num_words_nonneg len Hl1). unfold checked_mul, INITCODE_WORD_COST, modulus.
  destruct (Z.ltb_spec (2 * num_words len) (2 ^ 64)); [|lia]. eexists. split; [done|lia].
Qed.

(** The init code: metered from Shanghai on, read from memory. *)
Lemma hoare_init_code code_offset len g g' :
  u256 code_offset -> u64 len ->
  hoare (running f g 0)
    (if negb (len =? 0) then
       (if SpecId_is_enabled_in (f_spec f) SHANGHAI then
          h ← host;
          if host_max_initcode_size h <? len
          then halt_with (Interpreter_halt IR_CreateInitCodeSizeLimit)
          else match initcode_cost len with Some c => gas c | None => panic end
        else mret tt) ;;
       code_offset ← as_usize_or_fail code_offset;
       resize_memory_or_halt code_offset len ;;
       memory_slice_len code_offset len
     else mret [])
    (fun code i h => Forall u8 code /\ running f g 0 i h) (over f g').
Proof.
  intros Ho Hl. hcase; [by apply hoare_ret|].
  eapply (hoare_bind _ _ _ (fun _ => running f g 0)).
  - hcase; [|by apply hoare_ret]. eapply hoare_bind; [apply hoare_host|]. intros h. hintro.
    hcase; [apply hoare_halt_with, halting_halt|]. destruct (initcode_cost_total len Hl) as (c & -> & Hc).
    eapply hoare_post; [by apply hoare_gas|]. intros ? i h' HR. eapply running_weaken; [exact HR|lia..].
  - intros ?. hbind. hbind. eapply hoare_post; [apply hoare_memory_slice_len; range_lia|].
    intros s i h [[_ ?] HR]. split; [done|]. eapply running_weaken; [exact HR|lia|range_lia].
Qed.

Lemma stops_create is_create2 : stops f (contract_create is_create2).
Proof.
  intros g g'. unfold contract_create. hbind.
  eapply (hoare_bind _ _ _ (fun _ => running f g 0)).
  { destruct is_create2; [|by apply hoare_ret]. eapply hoare_post; [apply hoare_check|].
    intros ? i h [_ HR]. exact HR. }
  intros ?. hbind. hbind. hbind. eapply hoare_bind; [by apply hoare_init_code|]. intros code. hintro.
  eapply (hoare_bind _ _ _ (fun _ => running f g 0)).
  { destruct is_create2.
    - hbind. eapply hoare_bind; [apply (hoare_gas_or_fail f _ 0); [done|]|].
      { intros c Hc. apply create2_cost_ge in Hc; range_lia. }
      intros ?. apply hoare_ret. intros i h HR. eapply running_weaken; [exact HR|lia..].
    - eapply hoare_bind; [by apply hoare_gas|]. intros ?. apply hoare_ret. intros i h HR.
      eapply running_weaken; [exact HR|unfold GAS_CREATE; lia|lia]. }
  intros scheme. hbind.
  match goal with |- context [if _ then ?r - ?r / 64 else ?r] => rename r into rem end.
  set (gl := if SpecId_is_enabled_in (f_spec f) TANGERINE then _ else _).
  assert (0 <= gl < 2 ^ 55) as Hgl.
  { unfold gl. pose proof (Z.div_pos rem 64 ltac:(lia) ltac:(lia)).
    pose proof (Z.div_le_upper_bound rem 64 rem ltac:(lia) ltac:(lia)).
    destruct (SpecId_is_enabled_in (f_spec f) TANGERINE); lia. }
  eapply hoare_bind; [apply hoare_gas; lia|]. intros ?. hbind.
  apply hoare_new_frame. intros i _. cbn [frame_input_ok cr_gas_limit cr_caller cr_value cr_init_code].
  split_and!; try done; range_lia.
Qed.

(** * Calls *)

(** A memory range the frame was charged for: [m] bytes are active. *)
Definition range_in (m : Z) (r : Z * Z) : Prop := r.1 < r.2 -> 0 <= r.1 /\ r.2 <= m.

Lemma hoare_call_resize_memory offset len g n g' :
  u256 offset -> u256 len -> 0 <= n ->
  hoare (running f g n) (call_resize_memory offset len)
    (fun r i h => exists m, (n <= m /\ range_in m r) /\ running f g m i h) (over f g').
Proof.
  intros Ho Hl Hn. unfold call_resize_memory. hbind.
  eapply (hoare_bind _ _ _ (fun o i h =>
    exists m, (n <= m /\ range_in m (o, o + len)) /\ running f g m i h)).
  - hcase.
    + apply hoare_ret. intros i h HR. exists n. split; [|done]. split; [done|]. unfold range_in. cbn. lia.
    + hbind. hbind. apply hoare_ret. intros i h HR. eexists. split; [|exact HR].
      split; [lia|]. unfold range_in. cbn. range_lia.
  - intros o. apply hoare_ret. done.
Qed.

(** The input range is shifted to the shared buffer, the output range stays
    relative to the frame. *)
Lemma hoare_get_ranges g g' :
  hoare (running f g 0) get_memory_input_and_out_ranges
    (fun r i h => exists m, (range_in (Z.of_nat (f_checkpoint f) + m) r.1 /\ range_in m r.2)
                            /\ running f g m i h) (over f g').
Proof.
  unfold get_memory_input_and_out_ranges. hbind.
  eapply hoare_bind; [by apply hoare_call_resize_memory|]. intros r. apply hoare_exists. intros m. hintro.
  eapply (hoare_bind _ _ _ (fun r i h =>
    range_in (Z.of_nat (f_checkpoint f) + m) r /\ running f g m i h)).
  - hcase; [|apply hoare_ret; intros i h HR; split; [|exact HR]].
    + eapply hoare_bind.
      * apply (hoare_read _ _ (fun c => c = Z.of_nat (f_checkpoint f) /\ 0 <= m < 2 ^ 38)).
        intros i h HR. eexists. split; [done|]. rewrite <- (core_checkpoint _ _ _ _ (proj1 HR)). split; [done|].
        pose proof (running_local_len f _ _ _ _ HR). pose proof (core_active _ _ _ _ (proj1 HR)).
        unfold local_len in *. lia.
      * intros c. hintro. apply hoare_ret. intros i h HR. split; [|exact HR].
        destruct Hwf as (_ & _ & Hcp & _). unfold range_in, range_is_empty in *. cbn [fst snd] in *.
        apply negb_true_iff, Z.leb_gt in Heqb. unfold saturating_add, modulus. lia.
    + apply negb_false_iff, Z.leb_le in Heqb. unfold range_in. cbn [fst snd] in *. lia.
  - intros r. hintro. eapply hoare_bind; [by apply hoare_call_resize_memory|].
    intros r2. apply hoare_exists. intros m2. hintro. apply hoare_ret. intros i h HR. exists m2.
    split; [|exact HR]. unfold range_in in *. cbn [fst snd] in *. split; lia.
Qed.

Lemma new_account_cost_nonneg a b : 0 <= new_account_cost a b.
Proof. unfold new_account_cost, NEWACCOUNT. case_if; lia. Qed.

Lemma load_account_delegated_ok h spec r a tv ce :
  host_ok h -> in_range 160 a ->
  exists out h', contract_load_account_delegated h spec r a tv ce = Some (out, h') /\ host_ok h' /\
    forall c b x, out = Ok (c, b, x) -> 0 <= c.
Proof.
  intros Hh Ha. unfold contract_load_account_delegated.
  edestruct (ok_load_account h a true) as (res & h1 & -> & Hh1 & Hres); [done..|].
  destruct res as [l|]; [|eexists _, _; split_and!; [done..|]; intros ???; discriminate].
  destruct (Hres l eq_refl) as (_ & _ & _ & _ & Hdel).
  set (cost := if _ && ail_is_cold l then _ else _).
  assert (0 <= cost).
  { unfold cost, COLD_ACCOUNT_ACCESS_COST_ADDITIONAL, COLD_ACCOUNT_ACCESS_COST, WARM_STORAGE_READ_COST.
    case_if; lia. }
  pose proof (new_account_cost_nonneg (SpecId_is_enabled_in spec SPURIOUS_DRAGON) tv).
  destruct (ce && ail_is_empty l).
  { eexists _, _. split_and!; [done..|]. intros ??? [= <- _ _]. lia. }
  destruct (code (ail_account l)) as [[d|]|] eqn:Ed;
    try (eexists _, _; split_and!; [done..|]; intros ??? [= <- _ _]; lia).
  destruct (r <? _); [eexists _, _; split_and!; [done..|]; intros ???; discriminate|].
  edestruct (ok_load_account h1 (delegated_address d) true) as (res2 & h2 & -> & Hh2 & _);
    [done|by apply Hdel|].
  destruct res2 as [l2|]; [|eexists _, _; split_and!; [done..|]; intros ???; discriminate].
  eexists _, _. split_and!; [done..|]. intros ??? [= <- _ _].
  unfold COLD_ACCOUNT_ACCESS_COST_ADDITIONAL, COLD_ACCOUNT_ACCESS_COST, WARM_STORAGE_READ_COST.
  case_if; lia.
Qed.

Lemma calc_call_static_gas_nonneg spec b : 0 <= calc_call_static_gas spec b.
Proof. unfold calc_call_static_gas, WARM_STORAGE_READ_COST, CALLVALUE. case_if; lia. Qed.

Lemma hoare_load_acc_and_calc_gas to tv ce stack_gas_limit g n g' :
  in_range 160 to -> u64 stack_gas_limit ->
  hoare (running f g n) (load_acc_and_calc_gas to tv ce stack_gas_limit)
    (fun r i h => u64 r.1.1 /\ running f g n i h) (over f g').
Proof.
  intros Ha Hs. unfold load_acc_and_calc_gas. hbind.
  eapply hoare_bind; [apply hoare_gas, calc_call_static_gas_nonneg|]. intros ?. set (g1 := g - _).
  eapply (hoare_bind _ _ _ (fun r i h => 0 <= r.1.1 /\ running f g1 n i h)).
  { unfold load_account_delegated_handle_error. hbind. hbind. eapply hoare_bind.
    - apply (hoare_host_call f _ (fun out => forall c b x, out = Ok (c, b, x) -> 0 <= c)).
      intros h Hh. by apply load_account_delegated_ok.
    - intros [[[c b] x]|[]]; hintro;
        [|apply hoare_halt_with, halting_halt|apply hoare_halt_with, halting_oog].
      apply hoare_ret. intros i h HR. split; [cbn; eauto|exact HR]. }
  intros [[c b] x]. hintro. eapply hoare_bind; [by apply hoare_gas|]. intros ?.
  eapply hoare_bind; [apply hoare_interpreter|]. intros i0. hintro.
  set (gl := if SpecId_is_enabled_in (f_spec f) TANGERINE then _ else _).
  assert (0 <= gl < modulus 64) as Hgl.
  { destruct Hs as [? ?]. unfold gl, Gas_remaining_63_of_64_parts.
    pose proof (Z.div_le_upper_bound (gas_remaining (i_gas i0)) 64 (gas_remaining (i_gas i0))
      ltac:(lia) ltac:(lia)). destruct (SpecId_is_enabled_in (f_spec f) TANGERINE); lia. }
  eapply hoare_bind; [apply hoare_gas; lia|]. intros ?. apply hoare_ret. intros i h HR. cbn [fst snd]. split.
  - destruct tv; [|exact Hgl]. unfold in_range, saturating_add, CALL_STIPEND in *. unfold modulus in *. lia.
  - eapply running_weaken; [exact HR| |lia]. pose proof (calc_call_static_gas_nonneg (f_spec f) tv). lia.
Qed.

(** The tail of every call: ranges, gas, and the request for a frame whose
    inputs [mk] builds from the interpreter. *)
Lemma hoare_call_tail to tv ce limit (mk : Z * Z -> Z * Z -> Z -> Bytecode -> Z -> Interpreter -> CallInputs) g g' :
  in_range 160 to -> u64 limit ->
  (forall input output gl b x i m, input_ok (i_memory i) (i_input i) -> u64 gl ->
     range_in (Z.of_nat (f_checkpoint f) + m) input -> range_in m output ->
     forall j, core f g m j -> frame_input_ok j (FI_Call (mk input output gl b x i))) ->
  hoare (running f g 0)
    ('(input, return_memory_offset) ← get_memory_input_and_out_ranges;
     '(gas_limit, bytecode, bytecode_hash) ← load_acc_and_calc_gas to tv ce limit;
     i ← interpreter;
     new_call (mk input return_memory_offset gas_limit bytecode bytecode_hash i))
    (fun _ => over f g') (over f g').
Proof.
  intros Ha Hl Hmk. eapply hoare_bind; [apply hoare_get_ranges|]. intros [input output].
  apply hoare_exists. intros m. hintro.
  eapply hoare_bind; [by apply hoare_load_acc_and_calc_gas|]. intros [[gl b] x]. hintro.
  eapply hoare_bind; [apply hoare_interpreter|]. intros i. hintro.
  apply hoare_new_frame. intros j Hj. by eapply Hmk.
Qed.

(** A call's inputs are well formed when its ranges and addresses are. *)
Lemma call_inputs_ok j m g input output gl to hash b target caller value scheme st :
  core f g m j -> range_in (Z.of_nat (f_checkpoint f) + m) input -> range_in m output -> u64 gl ->
  in_range 160 to -> in_range 160 target -> in_range 160 caller -> u256 (CallValue_get value) ->
  frame_input_ok j (FI_Call (mkCallInputs (SharedBuffer input) output gl to (Some (hash, b)) target caller
    value scheme st)).
Proof.
  intros Hc Hi Ho ? ? ? ? ?. pose proof (core_active _ _ _ _ Hc). pose proof (core_checkpoint _ _ _ _ Hc).
  destruct input, output. unfold range_in in *. cbn [fst snd] in *. cbn. unfold local_len.
  split_and!; try done; intros; split; lia.
Qed.

Ltac call_tail mk :=
  eapply (hoare_call_tail _ _ _ _ mk);
    [apply into_address_range
    |apply as_u64_saturated_range; range_lia
    |intros input output gl b x i m (? & ? & ? & _) ? ? ? j Hj; eapply call_inputs_ok; try done;
     apply into_address_range].

Lemma stops_call : stops f contract_call.
Proof.
  intros g g'. unfold contract_call.
  eapply hoare_bind; [apply hoare_popn3|]. intros [[lg to] value]. hintro. hbind. hcase; [hend|].
  call_tail (fun input output gl b x i => mkCallInputs (SharedBuffer input) output gl (into_address to)
    (Some (x, b)) (into_address to) (in_target_address (i_input i)) (Transfer value) Scheme_Call
    (rf_is_static (i_runtime_flag i))).
Qed.
Lemma stops_call_code : stops f contract_call_code.
Proof.
  intros g g'. unfold contract_call_code.
  eapply hoare_bind; [apply hoare_popn3|]. intros [[lg to] value]. hintro.
  call_tail (fun input output gl b x i => mkCallInputs (SharedBuffer input) output gl (into_address to)
    (Some (x, b)) (in_target_address (i_input i)) (in_target_address (i_input i)) (Transfer value) Scheme_CallCode
    (rf_is_static (i_runtime_flag i))).
Qed.
Lemma stops_delegate_call : stops f contract_delegate_call.
Proof.
  intros g g'. unfold contract_delegate_call. hbind.
  eapply hoare_bind; [apply hoare_popn2|]. intros [lg to]. hintro.
  call_tail (fun input output gl b x i => mkCallInputs (SharedBuffer input) output gl (into_address to)
    (Some (x, b)) (in_target_address (i_input i)) (in_caller_address (i_input i))
    (Apparent (in_call_value (i_input i))) Scheme_DelegateCall (rf_is_static (i_runtime_flag i))).
Qed.
Lemma stops_static_call : stops f contract_static_call.
Proof.
  intros g g'. unfold contract_static_call. hbind.
  eapply hoare_bind; [apply hoare_popn2|]. intros [lg to]. hintro.
  call_tail (fun input output gl b x i => mkCallInputs (SharedBuffer input) output gl (into_address to)
    (Some (x, b)) (into_address to) (in_target_address (i_input i)) (Transfer 0) Scheme_StaticCall true).
Qed.
End ContractSafety.
