(* ===== verification/RunSafety.v ===== *)
(** The run loop is safe and ends: no step of an analyzed contract panics,
    reads outside its code, stack or memory, or leaves the invariant, and every
    step spends gas or stops the frame. *)
From S2P Require Import Prelude Hardfork Bytecode State Database JournalEntry JournalInner Gas I256 InstructionResult Stack SharedMemory Interpreter Host Macros Words Instructions HostInstructions Opcode InstructionTable InterpreterLogic InterpreterRules InterpreterSafety HostSafety ContractSafety.
From stdpp Require Import base numbers list option tactics.
From Stdlib Require Import ZArith Lia.

Local Open Scope Z_scope.

Create HintDb safety.
#[export] Hint Resolve plain_add plain_mul plain_sub plain_div plain_sdiv plain_rem plain_smod plain_addmod
  plain_mulmod plain_signextend plain_lt plain_gt plain_clz plain_slt plain_sgt plain_eq plain_iszero
  plain_bitand plain_bitor plain_bitxor plain_not plain_byte plain_shl plain_shr plain_sar plain_mload
  plain_mstore plain_mstore8 plain_msize plain_pop plain_push0 plain_jump plain_jumpi plain_jumpdest
  plain_address plain_caller plain_callvalue plain_codesize plain_calldatasize plain_returndatasize
  plain_gas plain_calldataload plain_chainid plain_coinbase plain_timestamp plain_block_number
  plain_gaslimit plain_basefee plain_blob_basefee plain_gasprice plain_origin plain_difficulty
  plain_blob_hash plain_selfbalance plain_blockhash plain_tstore plain_tload : safety.
#[export] Hint Resolve paid_exp paid_mcopy paid_keccak256 paid_codecopy paid_returndatacopy paid_calldatacopy
  paid_balance paid_extcodesize paid_extcodehash paid_extcodecopy paid_sload paid_sstore : safety.
#[export] Hint Resolve stops_stop stops_invalid stops_unknown stops_ret stops_revert stops_selfdestruct
  stops_create stops_call stops_call_code stops_delegate_call stops_static_call : safety.
#[export] Hint Extern 1 (plain _ (stack_dup _)) => apply plain_dup; lia : safety.
#[export] Hint Extern 1 (plain _ (stack_swap _)) => apply plain_swap; lia : safety.
#[export] Hint Extern 1 (paid _ (host_instr_log _)) => apply paid_log; lia : safety.

(** Reachability extends by one instruction at the end. *)
Lemma reach_snoc code i k op :
  reach code i k -> code !! k = Some op -> reach code i (k + op_size op).
Proof.
  induction 1 as [i|i op' k Hop Hr IH]; intros Hk; [|eapply reach_step; [done|by apply IH]].
  eapply reach_step; [done|apply reach_refl].
Qed.

Section Run.
Context {H : Type} `{!Host H, !BitVec, !Keccak, !KeccakLaws, !BitVecLaws} (f : Frame)
  `{!HostLaws H (f_spec f) (f_address f)} (Hwf : frame_wf f).

(** The instruction at [p] is being executed: the pointer is past its opcode. *)
Definition executing (g : Z) (p : nat) (i : Interpreter) (h : H) : Prop :=
  core f g 0 i /\ eb_continue_execution (i_bytecode i) = true /\
  eb_instruction_pointer (i_bytecode i) = (p + 1)%nat /\ host_ok h.

Definition entry_ok (a : Z * Instruction H) : Prop :=
  0 <= static_gas a.2 < 2 ^ 64 /\
  forall g p, instr_start (f_code f) p -> f_code f !! p = Some a.1 -> a.1 <> STOP ->
  hoare (executing g p) (fn_ a.2)
    (fun _ => over f (g + static_gas a.2 - 1)) (over f (g + static_gas a.2 - 1)).

Lemma next_pc_ok p op :
  instr_start (f_code f) p -> f_code f !! p = Some op -> op <> STOP -> pc_ok f (p + op_size op).
Proof.
  intros Hs Hop Hne. destruct Hwf as (Hu & _ & _ & Han).
  destruct (analyze_legacy_padding_aux _ _ _ Hu Han) as [_ Hpad]. split; [by apply Hpad|].
  left. by apply reach_snoc.
Qed.

Lemma executing_running g p op i h :
  executing g p i h -> instr_start (f_code f) p -> f_code f !! p = Some op -> op <> STOP ->
  op_size op = 1%nat -> running f g 0 i h.
Proof.
  intros (Hc & Hr & Hip & Hh) Hs Hop Hne Hsz. split_and!; try done. rewrite Hip, <- Hsz. by apply next_pc_ok.
Qed.

Lemma over_weaken g g' i h : over f g i h -> g <= g' -> over f g' i h.
Proof. intros [? [?|HR]] ?; split; try done; [by left|right]. by eapply running_weaken. Qed.

Lemma entry_plain op m s :
  op_size op = 1%nat -> 1 <= s < 2 ^ 64 -> plain f m -> entry_ok (op, mkInstruction m s).
Proof.
  intros Hsz Hs Hm. split; [cbn; lia|]. cbn [fst snd fn_ static_gas]. intros g p Hst Hop Hne i h He.
  destruct (Hm g i h) as (r & i' & h' & Hr & Ho); [by eapply executing_running|].
  exists r, i', h'. split; [done|]. destruct r; eapply over_weaken; (exact Ho || lia).
Qed.
Lemma entry_paid op m s :
  op_size op = 1%nat -> 0 <= s < 2 ^ 64 -> paid f m -> entry_ok (op, mkInstruction m s).
Proof.
  intros Hsz Hs Hm. split; [cbn; lia|]. cbn [fst snd fn_ static_gas]. intros g p Hst Hop Hne i h He.
  destruct (Hm g i h) as (r & i' & h' & Hr & Ho); [by eapply executing_running|].
  exists r, i', h'. split; [done|]. destruct r; eapply over_weaken; (exact Ho || lia).
Qed.
Lemma entry_stops op m s :
  op_size op = 1%nat -> 0 <= s < 2 ^ 64 -> stops f m -> entry_ok (op, mkInstruction m s).
Proof.
  intros Hsz Hs Hm. split; [cbn; lia|]. cbn [fst snd fn_ static_gas]. intros g p Hst Hop Hne i h He.
  apply (Hm g). by eapply executing_running.
Qed.

(** [PC] needs that the pointer is past its opcode. *)
Lemma entry_pc op s : op_size op = 1%nat -> 1 <= s < 2 ^ 64 -> entry_ok (op, mkInstruction control_pc s).
Proof.
  intros Hsz Hs. split; [cbn; lia|]. cbn [fst snd fn_ static_gas]. intros g p Hst Hop Hne.
  eapply (hoare_bind _ _ _ (fun v i h => u256 v /\ running f g 0 i h)).
  - intros i h He. pose proof (executing_running _ _ _ _ _ He Hst Hop Hne Hsz) as HR.
    destruct He as (_ & _ & Hip & _). unfold read, checked_sub, ExtBytecode_pc. rewrite Hip.
    destruct (Z.leb_spec 1 (Z.of_nat (p + 1))); [|lia]. eexists (Some _), i, h. split; [done|].
    split; [|exact HR]. apply lookup_lt_Some in Hop. destruct Hwf as (_ & ? & _). range_lia.
  - intros v. hintro. eapply hoare_post; [by apply hoare_push|].
    intros ? i h HR. eapply running_over; [exact HR|lia..].
Qed.

Lemma f_padded_bytes : Forall u8 (f_padded f).
Proof.
  destruct Hwf as (Hu & _ & _ & Han). destruct (analyze_legacy_padding_aux _ _ _ Hu Han) as [(k & _ & ->) _].
  apply Forall_app. split; [done|]. apply Forall_replicate. range_lia.
Qed.

(** [PUSHn]: the immediate lies in the padded code, and the pointer moves
    behind it. *)
Lemma entry_push op n s :
  (0 < n <= 32)%nat -> op_size op = (n + 1)%nat -> 1 <= s < 2 ^ 64 ->
  entry_ok (op, mkInstruction (stack_push n) s).
Proof.
  intros Hn Hsz Hs. split; [cbn; lia|]. cbn [fst snd fn_ static_gas]. intros g p Hst Hop Hne.
  pose proof (next_pc_ok p op Hst Hop Hne) as Hpc. rewrite Hsz in Hpc. intros i h (Hc & Hr & Hip & Hh).
  unfold stack_push, mbind, instr_bind, read, ExtBytecode_read_slice, eb_bytes.
  rewrite (core_base _ _ _ _ Hc), Hip. cbn [f_base Bytecode_bytecode lab_bytecode].
  destruct (get_range_in (f_padded f) (p + 1) (p + 1 + n)) as (slice & -> & Hl & Hu);
    [destruct Hpc; lia|apply f_padded_bytes|].
  destruct (core_stack_words _ _ _ _ Hc) as (w & Hw & Hok).
  rewrite Stack_push_slice_correct_aux, slice_words_single by lia. rewrite Hw, of_words_len. cbn [length].
  destruct (Nat.eqb_spec (length slice) 0); [lia|]. rewrite andb_true_r.
  destruct (Nat.ltb_spec STACK_LIMIT (length w + 1)).
  - destruct (set_action_stops f (with_stack (of_words w) i)
      (InterpreterAction_new_halt IR_StackOverflow (i_gas i)) Hr) as (i' & Hi & Hst').
    { intros b _ _. split_and!; [by eapply core_gas_ok|apply Hc|done]. }
    exists None, i', h. unfold halt_with, mbind, instr_bind, update, early, Interpreter_halt.
    cbn [i_gas with_stack]. rewrite Hi. split; [done|]. split; [done|]. by left.
  - unfold update, ExtBytecode_relative_jump, set_instruction_pointer, eb_bytes.
    cbn [i_bytecode with_stack]. rewrite (core_base _ _ _ _ Hc), Hip. cbn [f_base Bytecode_bytecode lab_bytecode].
    destruct Hpc as [Hp1 Hp2].
    destruct (Z.leb_spec 0 (Z.of_nat (p + 1) + Z.of_nat n)); [|lia].
    destruct (Z.leb_spec (Z.of_nat (p + 1) + Z.of_nat n) (Z.of_nat (length (f_padded f)))); [|lia].
    eexists (Some tt), _, h. split; [done|]. split; [done|]. right.
    assert (stack_data (of_words w) ++ [from_be_bytes slice] = reverse (from_be_bytes slice :: w)) as ->
      by (unfold of_words; cbn [stack_data]; by rewrite reverse_cons).
    split_and!; [|done| |done].
    + apply core_with_bytecode; [|done]. eapply core_weaken; [apply (core_with_stack f g 0 i (from_be_bytes slice :: w) Hc)|lia|done].
      destruct Hok. split; [cbn; lia|]. constructor; [|done]. apply from_be_bytes_u256; [done|lia].
    + cbn. replace (Z.to_nat (Z.of_nat (p + 1) + Z.of_nat n)) with (p + (n + 1))%nat by lia. by split.
Qed.

Lemma table_entries_ok : Forall entry_ok table_assignments.
Proof.
  unfold table_assignments.
  repeat first
    [ apply Forall_nil_2
    | apply Forall_cons_2;
      [ first
        [ apply entry_push; [lia|reflexivity|lia]
        | apply entry_pc; [reflexivity|lia]
        | apply entry_plain; [reflexivity|lia|solve [eauto with safety]]
        | apply entry_paid; [reflexivity|lia|solve [eauto with safety]]
        | apply entry_stops; [reflexivity|lia|solve [eauto with safety]] ]
      | ] ].
Qed.

(** * The table *)

(** An element of the table is one of the assignments or the initial one. *)
Lemma table_lookup (l : list (Z * Instruction H)) t k ins :
  foldl assign_instruction t l !! k = Some ins ->
  (exists op, (op, ins) ∈ l /\ Z.to_nat op = k) \/ t !! k = Some ins.
Proof.
  revert t. induction l as [|[op x] l IH]; intros t; cbn [foldl]; [by right|]. intros Hk.
  destruct (IH _ Hk) as [(op' & Hin & He)|Ht].
  - left. exists op'. split; [by apply list_elem_of_further|done].
  - unfold assign_instruction in Ht. cbn [fst snd] in Ht.
    destruct (decide (Z.to_nat op = k)) as [<-|Hne]; [|right; by rewrite list_lookup_insert_ne in Ht].
    left. exists op. apply list_lookup_insert_Some in Ht as [(_ & -> & _)|[? _]]; [|done].
    split; [apply list_elem_of_here|done].
Qed.

Lemma table_length : length (instruction_table (H := H)) = 256%nat.
Proof.
  unfold instruction_table. generalize (table_assignments (H := H)) as l. intros l.
  assert (forall t, length (foldl assign_instruction t l) = length t) as Hl.
  { induction l as [|a l IH]; intros t; cbn [foldl]; [done|]. rewrite IH. apply length_insert. }
  rewrite Hl. apply length_replicate.
Qed.

Lemma table_ops_nonneg : Forall (fun a => 0 <= a.1) (table_assignments (H := H)).
Proof. unfold table_assignments. repeat first [apply Forall_nil_2 | apply Forall_cons_2; [done|]]. Qed.

(** An instruction that only halts is safe wherever the pointer is. *)
Lemma hoare_executing_halt r g p g' E :
  hoare (executing g p) (update (Interpreter_halt r)) (fun _ => over f g') E.
Proof.
  apply hoare_update. intros i h (Hc & Hr & _ & Hh).
  destruct (set_action_stops f i (InterpreterAction_new_halt r (i_gas i)) Hr) as (i' & Hi & Hs).
  { intros b _ _. split_and!; [by eapply core_gas_ok|apply Hc|done]. }
  exists i'. split; [done|]. split; [done|]. by left.
Qed.

(** Every opcode has a safe instruction. *)
Lemma instruction_ok op :
  u8 op -> exists ins, instruction_table !! Z.to_nat op = Some ins /\ entry_ok (op, ins).
Proof.
  intros [Hu1 Hu2]. destruct (lookup_lt_is_Some_2 instruction_table (Z.to_nat op)) as [ins Hins].
  { rewrite table_length. unfold modulus in *. lia. }
  exists ins. split; [done|]. destruct (table_lookup _ _ _ _ Hins) as [(op' & Hin & He)|Ht].
  - pose proof (proj1 (list.Forall_forall _ _) table_ops_nonneg _ Hin). cbn in *.
    assert (op' = op) as -> by lia. by apply (proj1 (list.Forall_forall _ _) table_entries_ok _ Hin).
  - apply lookup_replicate in Ht as [-> _]. split; [done|]. intros. apply hoare_executing_halt.
Qed.

(** * Steps *)

Lemma opcode_cases p op :
  pc_ok f p -> f_padded f !! p = Some op ->
  u8 op /\ (op = STOP \/ (instr_start (f_code f) p /\ f_code f !! p = Some op /\ op <> STOP)).
Proof.
  intros [_ Hp] Hop. split; [by eapply Forall_lookup_1; [apply f_padded_bytes|]|].
  destruct Hwf as (Hu & _ & _ & Han). destruct (analyze_legacy_padding_aux _ _ _ Hu Han) as [(k & _ & He) _].
  rewrite He in Hop. apply lookup_app_Some in Hop as [Hop|[Hge Hop]].
  - destruct (Z.eq_dec op STOP) as [|Hne]; [by left|]. right. split_and!; try done.
    destruct Hp as [|Hge]; [done|]. apply lookup_lt_Some in Hop. lia.
  - left. by apply lookup_replicate in Hop as [-> _].
Qed.

(** One step of a running frame: safe, and it pays or stops. *)
Lemma step_ok g i h :
  running f g 0 i h ->
  exists r i' h', Interpreter_step instruction_table i h = Some (r, i', h') /\ over f (g - 1) i' h'.
Proof.
  intros (Hc & Hr & Hpc & Hh). set (p := eb_instruction_pointer (i_bytecode i)) in *.
  destruct (lookup_lt_is_Some_2 (f_padded f) p (proj1 Hpc)) as [op Hop].
  destruct (opcode_cases p op Hpc Hop) as [Hu8 Hcase].
  destruct (instruction_ok op Hu8) as (ins & Hins & Hs & He). cbn [fst snd] in *.
  unfold Interpreter_step, mbind, instr_bind, read, ExtBytecode_opcode, eb_bytes.
  rewrite (core_base _ _ _ _ Hc). cbn [f_base Bytecode_bytecode lab_bytecode]. fold p. rewrite Hop.
  unfold update, ExtBytecode_relative_jump, set_instruction_pointer, eb_bytes.
  rewrite (core_base _ _ _ _ Hc). cbn [f_base Bytecode_bytecode lab_bytecode]. fold p.
  destruct (Z.leb_spec 0 (Z.of_nat p + 1)); [|lia].
  destruct (Z.leb_spec (Z.of_nat p + 1) (Z.of_nat (length (f_padded f)))); [|destruct Hpc; lia]. cbn [andb].
  set (b := mkExtBytecode _ _ _ _ _). unfold get_instruction. rewrite Hins. unfold mret, instr_ret.
  unfold record_cost_unsafe, Gas_record_cost_unsafe. cbn [i_gas with_bytecode].
  destruct (core_gas_ok _ _ _ _ Hc) as [Hg1 Hg2]. pose proof (core_gas _ _ _ _ Hc).
  assert (core f g 0 (with_bytecode b i)) as Hc1 by by apply core_with_bytecode.
  destruct (Z.ltb_spec (gas_remaining (i_gas i)) (static_gas ins)) as [Hlt|Hge].
  - unfold halt_with, mbind, instr_bind, update, early, Interpreter_halt_oog, Interpreter_halt.
    set (i1 := with_gas _ (with_gas _ _)). destruct (set_action_stops f i1
      (InterpreterAction_new_halt IR_OutOfGas (i_gas i1))) as (i' & Hi & Hst); [done| |].
    { intros b' _ _. split_and!; [|apply Hc|done]. unfold gas_ok, i1. cbn. lia. }
    rewrite Hi. eexists _, _, _. split; [done|]. split; [done|]. by left.
  - unfold wrapping_sub. rewrite wrap_small by (split; lia). set (i1 := with_gas _ _).
    assert (executing (g - static_gas ins) p i1 h) as Hex.
    { split_and!; try done; [|cbn; lia]. eapply core_weaken; [apply (core_with_gas f g 0 (with_bytecode b i) _ Hc1); cbn; lia|cbn; lia|done]. }
    destruct Hcase as [->|(Hst & Hcode & Hne)].
    + assert (ins = mkInstruction control_stop 0) as -> by (injection Hins as <-; reflexivity).
      destruct (hoare_executing_halt IR_Stop _ p (g - 1) (fun _ _ => False) i1 h Hex) as (r & i' & h' & Hr' & Ho).
      exists r, i', h'. split; [exact Hr'|]. destruct r; [exact Ho|done].
    + destruct (He _ p Hst Hcode Hne i1 h Hex) as (r & i' & h' & Hr' & Ho).
      exists r, i', h'. split; [exact Hr'|]. destruct r; (eapply over_weaken; [exact Ho|lia]).
Qed.

(** * The loop *)

(** What the caller of [run_plain] gets: a result within the gas limit, or a
    well-formed request for a new frame and an interpreter that can go on. *)
Definition outcome_ok (a : InterpreterAction) (i : Interpreter) (h : H) : Prop :=
  host_ok h /\
  match a with
  | Return r => gas_ok (ir_gas r) /\ gas_limit (ir_gas r) = f_limit f /\ Forall u8 (ir_output r)
  | NewFrame fi => running f (f_limit f) 0 i h /\ frame_input_ok i fi
  end.

Lemma run_stopped fuel i h :
  stopped f i -> host_ok h ->
  exists a i', Interpreter_run_plain fuel instruction_table i h = Run_done a i' h /\ outcome_ok a i' h.
Proof.
  intros (Hr & a & Ha & Hok) Hh.
  assert (Interpreter_run_plain fuel instruction_table i h =
    match Interpreter_take_next_action i with
    | Some (action, i) => Run_done action i h | None => Run_panic end) as ->.
  { destruct fuel; cbn [Interpreter_run_plain]; unfold ExtBytecode_is_not_end; by rewrite Hr. }
  unfold Interpreter_take_next_action. cbn [ExtBytecode_reset_action eb_action]. rewrite Ha.
  eexists _, _. split; [done|]. split; [done|]. destruct a as [fi|r]; [|done].
  destruct Hok as (Hc & Hpc & Hfi). split; [|exact Hfi]. split_and!; try done.
  apply core_with_bytecode; [done|]. apply Hc.
Qed.

Lemma run_plain_aux fuel g i h :
  running f g 0 i h -> g < Z.of_nat fuel ->
  exists a i' h', Interpreter_run_plain fuel instruction_table i h = Run_done a i' h' /\ outcome_ok a i' h'.
Proof.
  revert g i h. induction fuel as [|fuel IH]; intros g i h HR Hg.
  { pose proof (running_gas_nonneg f _ _ _ _ HR). lia. }
  destruct (step_ok g i h HR) as (r & i1 & h1 & Hs & Hh & Ho).
  assert (Interpreter_run_plain (S fuel) instruction_table i h =
    Interpreter_run_plain fuel instruction_table i1 h1) as ->.
  { cbn [Interpreter_run_plain]. unfold ExtBytecode_is_not_end. destruct HR as (_ & -> & _). by rewrite Hs. }
  destruct Ho as [Hst|HR1].
  - destruct (run_stopped fuel i1 h1 Hst Hh) as (a & i' & ? & ?). eauto.
  - eapply IH; [exact HR1|lia].
Qed.

(** C18: a running frame of an analyzed contract runs to an action without
    panic or undefined behaviour, whatever the code, the stack, the memory and
    the host's answers are, within as many steps as it has gas: no read of the
    code, the stack, the input or the memory is out of bounds, no assertion
    fails, the stack stays within 1024 words, and the action is well formed (a
    result within the gas limit, or a call or creation with valid memory ranges
    after which the frame can be resumed). *)
Theorem run_plain_safe i h :
  running f (gas_remaining (i_gas i)) 0 i h ->
  exists a i' h', Interpreter_run_plain (Z.to_nat (gas_remaining (i_gas i)) + 1) instruction_table i h
    = Run_done a i' h' /\ outcome_ok a i' h'.
Proof.
  intros HR. pose proof (running_gas_nonneg f _ _ _ _ HR). eapply run_plain_aux; [exact HR|lia].
Qed.
End Run.

(** * A new frame *)

Section Fresh.
Context {H : Type} `{!Host H, !BitVec, !Keccak, !KeccakLaws, !BitVecLaws} (spec : SpecId)
  (self : Z) {laws : HostLaws H spec self}.

(** The frame a new interpreter starts in. *)
Lemma new_running code b limit memory buffer input static h :
  Forall u8 code -> Z.of_nat (length code) < 2 ^ 64 -> Bytecode_new_legacy code = Some b ->
  0 <= limit < 2 ^ 55 -> length buffer = my_checkpoint memory -> Z.of_nat (length buffer) < 2 ^ 62 ->
  Forall u8 buffer -> input_ok memory input -> in_target_address input = self -> host_ok h ->
  exists jt padded, let f := mkFrame code jt padded limit (my_checkpoint memory) spec self in
    frame_wf f /\
    @running H _ f laws limit 0 (Interpreter_new memory buffer (ExtBytecode_new b) input static spec limit) h.
Proof.
  intros Hu Hl Hb Hlim Hbuf Hsmall Hbytes Hin Hself Hh.
  unfold Bytecode_new_legacy, LegacyAnalyzedBytecode_analyze, LegacyAnalyzedBytecode_new in Hb.
  destruct (analyze_legacy code) as [[jt padded]|] eqn:Han; [|done].
  destruct (_ && _ && _) eqn:Ec; [|done]. simplify_eq.
  exists jt, padded. cbv zeta. apply andb_prop in Ec as [_ Hne]. apply bool_decide_eq_true in Hne.
  split; [split_and!; try done; cbn; lia|]. split_and!; try done.
  - split; try done; cbn; try lia; [|split; [cbn; lia|constructor]].
    split; cbn; try lia; [unfold gas_ok, modulus; cbn; lia|]. by split.
  - split; [cbn; destruct padded; [done|cbn; lia]|]. left. apply reach_refl.
Qed.

Lemma interpreter_run_safe_aux code b limit memory buffer input static h :
  Forall u8 code -> Z.of_nat (length code) < 2 ^ 64 -> Bytecode_new_legacy code = Some b ->
  0 <= limit < 2 ^ 55 -> length buffer = my_checkpoint memory -> Z.of_nat (length buffer) < 2 ^ 62 ->
  Forall u8 buffer -> input_ok memory input -> in_target_address input = self -> host_ok h ->
  exists a i' h', Interpreter_run_plain (Z.to_nat limit + 1) instruction_table
      (Interpreter_new memory buffer (ExtBytecode_new b) input static spec limit) h = Run_done a i' h' /\
    host_ok h' /\
    match a with
    | Return r =>
        0 <= gas_remaining (ir_gas r) <= limit /\ gas_limit (ir_gas r) = limit /\ Forall u8 (ir_output r)
    | NewFrame fi => 0 <= gas_remaining (i_gas i') <= limit /\ frame_input_ok i' fi
    end.
Proof.
  intros Hu Hl Hb Hlim Hbuf Hsmall Hbytes Hin Hself Hh.
  destruct (new_running code b limit memory buffer input static h) as (jt & padded & Hwf & HR); [done..|].
  destruct (run_plain_aux (mkFrame code jt padded limit (my_checkpoint memory) spec self) Hwf
    (Z.to_nat limit + 1) limit _ h HR ltac:(lia)) as (a & i' & h' & Hrun & Hh' & Ho).
  exists a, i', h'. split_and!; [exact Hrun|exact Hh'|]. destruct a as [fi|r].
  - destruct Ho as [(Hc & _) Hfi]. split; [|exact Hfi]. destruct (core_gas_ok _ _ _ _ Hc) as [? _].
    pose proof (core_gas _ _ _ _ Hc). cbn in *. lia.
  - destruct Ho as ([? _] & Hlimit & ?). cbn in Hlimit. rewrite <- Hlimit. split_and!; done || lia.
Qed.

(** C5: executing a contract is safe and ends: a new interpreter on the
    analysis of any byte string, with any gas limit below 2^55, any input and
    any host that keeps the interface's laws, runs to a result or to a request
    for a call or a creation in at most as many steps as it has gas, without
    panic or undefined behaviour; a result has spent at most the gas limit. *)
Theorem interpreter_run_safe code b limit memory buffer input static h :
  Forall u8 code -> Z.of_nat (length code) < 2 ^ 64 -> Bytecode_new_legacy code = Some b ->
  0 <= limit < 2 ^ 55 -> length buffer = my_checkpoint memory -> Z.of_nat (length buffer) < 2 ^ 62 ->
  Forall u8 buffer -> input_ok memory input -> in_target_address input = self -> host_ok h ->
  exists a i' h', Interpreter_run_plain (Z.to_nat limit + 1) instruction_table
      (Interpreter_new memory buffer (ExtBytecode_new b) input static spec limit) h = Run_done a i' h' /\
    host_ok h' /\
    match a with
    | Return r =>
        0 <= gas_remaining (ir_gas r) <= limit /\ gas_limit (ir_gas r) = limit /\ Forall u8 (ir_output r)
    | NewFrame fi => 0 <= gas_remaining (i_gas i') <= limit /\ frame_input_ok i' fi
    end.
Proof. apply interpreter_run_safe_aux. Qed.
End Fresh.

(** * Concrete runs *)
Module Run.
#[local] Existing Instance Lsb0BitVec.
#[local] Instance no_hash : Keccak := fun _ => 0.
#[local] Instance no_hash_laws : KeccakLaws.
Proof. intros bytes. unfold keccak256, no_hash. range_lia. Defined.

(** 5 + 7, stored in memory and returned. *)
Definition add_code : list Z := [0x60; 5; 0x60; 7; 0x01; 0x60; 0; 0x52; 0x60; 32; 0x60; 0; 0xF3].
Definition add_bytecode : Bytecode :=
  match Bytecode_new_legacy add_code with Some b => b | None => Bytecode_default end.
Definition no_input : InputsImpl := mkInputsImpl 1 None 2 (CallInput_Bytes []) 0.

Lemma no_input_ok : input_ok SharedMemory_new no_input.
Proof. split_and!; try (cbn; range_lia). split; [constructor|cbn; lia]. Qed.
Lemma add_code_u8 : Forall u8 add_code.
Proof. repeat constructor; cbn; lia. Qed.

Lemma interpreter_run_safe_witness :
  exists a i' h', Interpreter_run_plain (Z.to_nat 1000 + 1) instruction_table
      (Interpreter_new SharedMemory_new [] (ExtBytecode_new add_bytecode) no_input false LONDON 1000)
      dummy_host = Run_done a i' h' /\
    True /\
    match a with
    | Return r =>
        0 <= gas_remaining (ir_gas r) <= 1000 /\ gas_limit (ir_gas r) = 1000 /\ Forall u8 (ir_output r)
    | NewFrame fi => 0 <= gas_remaining (i_gas i') <= 1000 /\ frame_input_ok i' fi
    end.
Proof.
  exact (interpreter_run_safe LONDON 1 (laws := DummyHost_laws LONDON 1 eq_refl) add_code add_bytecode 1000
    SharedMemory_new [] no_input false dummy_host add_code_u8 ltac:(cbn; lia) eq_refl ltac:(lia) eq_refl
    ltac:(cbn; lia) (List.Forall_nil _) no_input_ok eq_refl I).
Defined.

(** The same program as a running frame. *)
Lemma run_plain_safe_witness :
  let i := Interpreter_new SharedMemory_new [] (ExtBytecode_new add_bytecode) no_input false LONDON 1000 in
  exists jt padded a i' h',
    Interpreter_run_plain (Z.to_nat (gas_remaining (i_gas i)) + 1) instruction_table i dummy_host
      = Run_done a i' h' /\
    outcome_ok (mkFrame add_code jt padded 1000 0 LONDON 1) (HostLaws0 := DummyHost_laws LONDON 1 eq_refl) a i' h'.
Proof.
  destruct (new_running LONDON 1 (laws := DummyHost_laws LONDON 1 eq_refl) add_code add_bytecode 1000
    SharedMemory_new [] no_input false dummy_host add_code_u8 ltac:(cbn; lia) eq_refl ltac:(lia) eq_refl
    ltac:(cbn; lia) (List.Forall_nil _) no_input_ok eq_refl I) as (jt & padded & Hwf & HR).
  exists jt, padded. exact (run_plain_safe (mkFrame add_code jt padded 1000 0 LONDON 1) Hwf
    (Interpreter_new SharedMemory_new [] (ExtBytecode_new add_bytecode) no_input false LONDON 1000) dummy_host HR).
Defined.
End Run.
