(* ===== verification/InstructionSpecs.v ===== *)
(** What the instructions compute, on the stack and the memory: the bit and
    signed-integer instructions as functions of integers, memory as a map of
    words, jumps, and the protection of static frames. *)
From S2P Require Import Prelude Hardfork Bytecode State Database JournalEntry JournalInner Gas I256 InstructionResult Stack SharedMemory Interpreter Host Macros Words Instructions HostInstructions Opcode InstructionTable InterpreterLogic InterpreterRules InterpreterSafety.
From stdpp Require Import base numbers list option tactics.
From Stdlib Require Import ZArith Lia.

Local Open Scope Z_scope.

(** * Evaluating on a stack *)

Section Eval.
Context {H : Type}.

(** [m] replaces the two topmost words by [r]. *)
Definition computes2 (m : Instr H unit) (a b r : Z) : Prop :=
  forall i h w, i_stack i = of_words (a :: b :: w) ->
  m i h = Some (Some tt, with_stack (of_words (r :: w)) i, h).

Lemma popn_top1_eval i (h : H) a b w :
  i_stack i = of_words (a :: b :: w) ->
  popn_top1 i h = Some (Some (a, b), with_stack (of_words (b :: w)) i, h).
Proof.
  intros Hs. unfold popn_top1, popn_top, mbind, instr_bind. rewrite Hs, of_words_len, Stack_popn_top_words. done.
Qed.
Lemma popn_top0_eval i (h : H) a w :
  i_stack i = of_words (a :: w) -> popn_top0 i h = Some (Some a, i, h).
Proof.
  intros Hs. unfold popn_top0, popn_top, mbind, instr_bind. rewrite Hs, of_words_len, Stack_popn_top_words.
  cbn. do 3 f_equal. unfold with_stack. rewrite <- Hs. by destruct i.
Qed.
Lemma popn1_eval i (h : H) a w :
  i_stack i = of_words (a :: w) -> popn1 i h = Some (Some a, with_stack (of_words w) i, h).
Proof.
  intros Hs. unfold popn1, popn, mbind, instr_bind. rewrite Hs, Stack_popn_words. done.
Qed.
Lemma popn2_eval i (h : H) a b w :
  i_stack i = of_words (a :: b :: w) -> popn2 i h = Some (Some (a, b), with_stack (of_words w) i, h).
Proof.
  intros Hs. unfold popn2, popn, mbind, instr_bind. rewrite Hs, Stack_popn_words. done.
Qed.
Lemma popn3_eval i (h : H) a b c w :
  i_stack i = of_words (a :: b :: c :: w) -> popn3 i h = Some (Some (a, b, c), with_stack (of_words w) i, h).
Proof.
  intros Hs. unfold popn3, popn, mbind, instr_bind. rewrite Hs, Stack_popn_words. done.
Qed.
Lemma set_top_eval i (h : H) v x w :
  i_stack i = of_words (x :: w) -> set_top v i h = Some (Some tt, with_stack (of_words (v :: w)) i, h).
Proof. intros Hs. unfold set_top, update. by rewrite Hs, Stack_set_top_words. Qed.

(** The instructions that pop two words and push one. *)
Lemma computes2_intro (m : Instr H unit) (F : Z -> Z -> Z) a b :
  (forall i h, m i h = ('(x, y) ← popn_top1; set_top (F x y)) i h) -> computes2 m a b (F a b).
Proof.
  intros Hm i h w Hs. rewrite Hm. unfold mbind, instr_bind. rewrite (popn_top1_eval i h a b w) by done.
  by rewrite (set_top_eval _ h _ b w).
Qed.

Lemma check_eval spec i (h : H) :
  SpecId_is_enabled_in (rf_spec_id (i_runtime_flag i)) spec = true -> check spec i h = Some (Some tt, i, h).
Proof. intros Hs. unfold check, mbind, instr_bind, spec_id, read. by rewrite Hs. Qed.
End Eval.

(** * Signed words *)

Lemma lnot_ones s : 0 <= s -> Z.lnot (Z.ones s) = - 2 ^ s.
Proof. intros. unfold Z.lnot. rewrite Z.ones_equiv. lia. Qed.

(** Setting every bit from [s] on is subtracting 2^s. *)
Lemma lor_not_mask x s :
  u256 x -> 0 <= s < 256 ->
  Z.lor x (u256_not (Z.ones s)) = wrap 256 (x mod 2 ^ s - 2 ^ s).
Proof.
  intros Hx Hs. replace (x mod 2 ^ s - 2 ^ s) with (Z.lor (x mod 2 ^ s) (Z.lnot (Z.ones s))).
  2:{ rewrite <- Z.add_nocarry_lor; [rewrite lnot_ones by lia; lia|].
      apply Z.bits_inj'. intros k Hk. rewrite Z.land_spec, Z.lnot_spec, Z.bits_0 by lia.
      destruct (Z.lt_ge_cases k s).
      - by rewrite Z.ones_spec_low, andb_false_r by lia.
      - by rewrite Z.mod_pow2_bits_high by lia. }
  unfold wrap, modulus. apply Z.bits_inj'. intros k Hk. unfold u256_not. change (modulus 256 - 1) with (Z.ones 256).
  rewrite Z.lor_spec, Z.lxor_spec. destruct (Z.lt_ge_cases k 256) as [Hlt|Hge].
  - rewrite Z.mod_pow2_bits_low, Z.lor_spec, Z.lnot_spec, (Z.ones_spec_low 256) by lia.
    destruct (Z.lt_ge_cases k s).
    + rewrite Z.mod_pow2_bits_low, Z.ones_spec_low by lia. done.
    + rewrite Z.mod_pow2_bits_high, Z.ones_spec_high by lia. by rewrite orb_true_r.
  - rewrite Z.mod_pow2_bits_high, (in_range_high 256 x), !Z.ones_spec_high by (done || lia). done.
Qed.

Lemma mod_pow2_split x s : 0 <= s -> x mod 2 ^ (s + 1) = x mod 2 ^ s + (if Z.testbit x s then 2 ^ s else 0).
Proof.
  intros Hs. rewrite Z.pow_add_r, Z.pow_1_r, Z.rem_mul_r by lia.
  rewrite <- Z.testbit_spec' by lia. destruct (Z.testbit x s); cbn [Z.b2z]; lia.
Qed.

Section Specs.
Context {H : Type}.

(** [SIGNEXTEND] reads the low [8 (k + 1)] bits of a word as a signed
    integer and extends its sign to 256 bits; for [k >= 31] the word is
    unchanged. *)
Theorem signextend_correct k x :
  u256 k -> u256 x ->
  computes2 (H := H) arithmetic_signextend k x
    (if k <? 31 then wrap 256 (signed (8 * (k + 1)) (x mod 2 ^ (8 * (k + 1)))) else x).
Proof.
  intros Hk Hx i h w Hs. unfold arithmetic_signextend, mbind, instr_bind.
  rewrite (popn_top1_eval i h k x w) by done. destruct (Z.ltb_spec k 31) as [Hlt|Hge].
  2:{ unfold mret, instr_ret. done. }
  rewrite (set_top_eval _ h _ x w) by done.
  match goal with
  | |- Some (_, with_stack (of_words (?v :: _)) _, _) = Some (_, with_stack (of_words (?r :: _)) _, _) =>
      enough (v = r) as -> by done
  end.
  assert (limb k 0 = k) as ->.
  { unfold limb. rewrite Z.shiftr_0_r. change (modulus 64 - 1) with (Z.ones 64). rewrite Z.land_ones by lia.
    apply Z.mod_small. range_lia. }
  destruct Hk as [Hk0 _]. set (s := 8 * k + 7).
  assert (wrapping_sub 256 (u256_shl 1 s) 1 = Z.ones s) as ->.
  { unfold wrapping_sub, u256_shl. rewrite Z.shiftl_mul_pow2, Z.mul_1_l, Z.ones_equiv by lia.
    pose proof (Z.pow_pos_nonneg 2 s ltac:(lia) ltac:(lia)).
    pose proof (Z.pow_lt_mono_r 2 s 256 ltac:(lia) ltac:(lia) ltac:(lia)).
    rewrite (wrap_small 256 (2 ^ s)) by (split; [lia|done]). apply wrap_small. split; [lia|]. unfold modulus. lia. }
  replace (8 * (k + 1)) with (s + 1) by lia.
  pose proof (Z.mod_pos_bound x (2 ^ s) ltac:(apply Z.pow_pos_nonneg; lia)) as Hm.
  pose proof (Z.pow_pos_nonneg 2 s ltac:(lia) ltac:(lia)).
  pose proof (Z.pow_lt_mono_r 2 s 256 ltac:(lia) ltac:(lia) ltac:(lia)).
  unfold signed. replace (s + 1 - 1) with s by lia. rewrite mod_pow2_split by lia.
  unfold modulus at 1. rewrite Z.pow_add_r, Z.pow_1_r by lia.
  destruct (Z.testbit x s).
  - rewrite lor_not_mask by (done || lia). destruct (Z.ltb_spec (x mod 2 ^ s + 2 ^ s) (2 ^ s)); [lia|].
    f_equal. lia.
  - rewrite Z.land_ones by lia. destruct (Z.ltb_spec (x mod 2 ^ s + 0) (2 ^ s)); [|lia].
    rewrite Z.add_0_r, wrap_small; [done|]. split; [lia|]. unfold modulus. lia.
Qed.

(** The signed instructions compute on the signed integers the words
    denote: [SDIV] rounds toward zero and [SMOD] takes the sign of the
    dividend, both give zero for a zero divisor, and [SLT] and [SGT] compare. *)
Theorem signed_instructions_correct a b :
  u256 a -> u256 b ->
  computes2 (H := H) arithmetic_sdiv a b (wrap 256 (Z.quot (toZ a) (toZ b))) /\
  computes2 (H := H) arithmetic_smod a b (if b =? 0 then 0 else wrap 256 (Z.rem (toZ a) (toZ b))) /\
  computes2 (H := H) bitwise_slt a b (u256_of_bool (toZ a <? toZ b)) /\
  computes2 (H := H) bitwise_sgt a b (u256_of_bool (toZ b <? toZ a)).
Proof.
  intros Ha Hb. rewrite <- i256_div_correct, <- i256_mod_correct by done. split_and!.
  - by apply computes2_intro.
  - by apply computes2_intro.
  - unfold Z.ltb. rewrite <- i256_cmp_correct by done.
    by apply (computes2_intro _ (fun a b => u256_of_bool (match i256_cmp a b with Lt => true | _ => false end))).
  - rewrite <- Z.gtb_ltb. unfold Z.gtb. rewrite <- i256_cmp_correct by done.
    by apply (computes2_intro _ (fun a b => u256_of_bool (match i256_cmp a b with Gt => true | _ => false end))).
Qed.

Lemma as_usize_saturated_ltb v n : 0 <= n < 2 ^ 64 -> (as_usize_saturated v <? n) = (v <? n).
Proof.
  intros Hn. unfold as_usize_saturated, as_u64_saturated, u64_max, modulus.
  destruct (Z.ltb_spec v (2 ^ 64)); [done|].
  destruct (Z.ltb_spec (2 ^ 64 - 1) n), (Z.ltb_spec v n); done || lia.
Qed.
Lemma as_usize_saturated_small v : v < 2 ^ 64 -> as_usize_saturated v = v.
Proof. intros. unfold as_usize_saturated, as_u64_saturated, modulus. destruct (Z.ltb_spec v (2 ^ 64)); [done|lia]. Qed.

(** [BYTE] gives byte [n] of the big-endian word, zero past its end. *)
Theorem byte_correct n x :
  u256 n -> u256 x ->
  computes2 (H := H) bitwise_byte n x (if n <? 32 then default 0 (be_bytes 32 x !! Z.to_nat n) else 0).
Proof.
  intros [Hn _] Hx.
  replace (if n <? 32 then _ else 0)
    with (if as_usize_saturated n <? 32 then u256_byte x (31 - as_usize_saturated n) else 0).
  { by apply (computes2_intro _ (fun a b => if as_usize_saturated a <? 32
      then u256_byte b (31 - as_usize_saturated a) else 0)). }
  rewrite as_usize_saturated_ltb by lia. destruct (Z.ltb_spec n 32); [|done].
  by rewrite as_usize_saturated_small, u256_byte_be by lia.
Qed.

Lemma shift_big x s : 0 <= x < 2 ^ 256 -> 256 <= s -> x / 2 ^ s = 0.
Proof.
  intros Hx Hs. apply Z.div_small. split; [lia|]. eapply Z.lt_le_trans; [apply Hx|].
  apply Z.pow_le_mono_r; lia.
Qed.
Lemma shift_big_neg x s : - 2 ^ 256 < x < 0 -> 256 <= s -> x / 2 ^ s = -1.
Proof.
  intros Hx Hs. pose proof (Z.pow_le_mono_r 2 256 s ltac:(lia) Hs).
  symmetry. apply (Z.div_unique _ _ _ (x + 2 ^ s)); [left|]; lia.
Qed.

(** A shift is checked, then computes on the two topmost words. *)
Lemma computes_shift (m : Instr H unit) (F : Z -> Z -> Z) s x r :
  (forall i h, m i h = (check CONSTANTINOPLE ;; '(a, b) ← popn_top1; set_top (F a b)) i h) ->
  F s x = r ->
  forall i h w, SpecId_is_enabled_in (rf_spec_id (i_runtime_flag i)) CONSTANTINOPLE = true ->
  i_stack i = of_words (s :: x :: w) -> m i h = Some (Some tt, with_stack (of_words (r :: w)) i, h).
Proof.
  intros Hm <- i h w Hc Hs. rewrite Hm. unfold mbind at 1, instr_bind at 1. rewrite check_eval by done.
  by apply (computes2_intro ('(a, b) ← popn_top1; set_top (F a b)) F s x).
Qed.

(** From Constantinople on the shifts are multiplication and division by a
    power of two, for every shift amount: [SHL] is [x * 2^s] modulo 2^256,
    [SHR] the unsigned and [SAR] the signed quotient rounded down, also when
    the shift is 256 or more. *)
Theorem shifts_correct s x i (h : H) w :
  u256 s -> u256 x -> SpecId_is_enabled_in (rf_spec_id (i_runtime_flag i)) CONSTANTINOPLE = true ->
  i_stack i = of_words (s :: x :: w) ->
  let result r := Some (Some tt, with_stack (of_words (r :: w)) i, h) in
  bitwise_shl i h = result (wrap 256 (x * 2 ^ s)) /\
  bitwise_shr i h = result (x / 2 ^ s) /\
  bitwise_sar i h = result (wrap 256 (toZ x / 2 ^ s)).
Proof.
  intros [Hs _] Hx Hc Hst. pose proof (signed_range 256 x ltac:(lia) Hx) as Hr. cbv zeta.
  assert (modulus 256 = 2 ^ 256) as Hm by done. split_and!.
  - eapply (computes_shift _ (fun a b => if as_usize_saturated a <? 256 then u256_shl b (as_usize_saturated a) else 0));
      [done| |done..]. rewrite as_usize_saturated_ltb by lia. destruct (Z.ltb_spec s 256).
    + rewrite as_usize_saturated_small by lia. unfold u256_shl. by rewrite Z.shiftl_mul_pow2.
    + unfold wrap. symmetry. rewrite Hm. replace s with (256 + (s - 256)) by lia. rewrite Z.pow_add_r by lia.
      replace (x * (2 ^ 256 * 2 ^ (s - 256))) with (x * 2 ^ (s - 256) * 2 ^ 256) by lia. apply Z.mod_mul. lia.
  - eapply (computes_shift _ (fun a b => if as_usize_saturated a <? 256 then Z.shiftr b (as_usize_saturated a) else 0));
      [done| |done..]. rewrite as_usize_saturated_ltb by lia. destruct (Z.ltb_spec s 256).
    + rewrite as_usize_saturated_small by lia. by rewrite Z.shiftr_div_pow2.
    + by rewrite shift_big.
  - eapply (computes_shift _ (fun a b => if as_usize_saturated a <? 256 then arithmetic_shr b (as_usize_saturated a)
      else if Z.testbit b 255 then modulus 256 - 1 else 0)); [done| |done..].
    rewrite as_usize_saturated_ltb by lia. destruct (Z.ltb_spec s 256).
    + rewrite as_usize_saturated_small by lia. unfold arithmetic_shr. by rewrite Z.shiftr_div_pow2.
    + rewrite testbit_255 by done. destruct (signed_cases x Hx) as [[? E]|[? E]]; rewrite E.
      * destruct (Z.leb_spec (2 ^ 255) x); [lia|]. rewrite shift_big by (unfold in_range in Hx; lia). done.
      * destruct (Z.leb_spec (2 ^ 255) x); [|lia]. rewrite shift_big_neg by (unfold in_range in Hx; lia). done.
Qed.

(** * Memory *)

(** A range that is already active costs nothing. *)
Lemma resize_memory_active offset len g self buf :
  0 <= offset -> 0 <= len -> mem_inv g self buf ->
  offset + len <= 32 * words_num (gas_memory g) -> resize_memory offset len g self buf = Some (true, g, buf).
Proof.
  intros Ho Hl [Hg Hlim [Hw He] Hp Hb] Ha. pose proof (memory_gas_small _ Hw ltac:(unfold gas_ok in Hg; lia)).
  unfold resize_memory. assert (saturating_add 64 offset len = offset + len) as ->
    by (unfold saturating_add, modulus; lia).
  pose proof (num_words_spec (offset + len) ltac:(lia)).
  destruct (Z.ltb_spec (words_num (gas_memory g)) (num_words (offset + len))); [lia|done].
Qed.

(** Reading back what was written. *)
Lemma write_range_read v a bytes v' :
  write_range v a bytes = Some v' -> take (length bytes) (drop a v') = bytes.
Proof.
  intros Hw. pose proof (write_range_length _ _ _ _ Hw) as Hl. apply list_eq. intros k.
  destruct (Nat.lt_ge_cases k (length bytes)) as [Hk|Hk].
  - rewrite lookup_take_lt, lookup_drop, (write_range_lookup _ _ _ _ _ Hw) by lia.
    destruct (Nat.leb_spec a (a + k)), (Nat.ltb_spec (a + k) (a + length bytes)); try lia.
    cbn [andb]. f_equal. lia.
  - rewrite lookup_take_ge by lia. symmetry. by apply lookup_ge_None_2.
Qed.

(** What a successful [MSTORE] did. *)
Lemma mstore_inv i (h : H) offset v w i1 :
  mem_inv (i_gas i) (i_memory i) (i_buffer i) -> u256 offset ->
  i_stack i = of_words (offset :: v :: w) -> memory_mstore i h = Some (Some tt, i1, h) ->
  exists g1 b2 zeros, i1 = with_buffer b2 (with_gas g1 (with_stack (of_words w) i)) /\
    offset < 2 ^ 64 /\ offset + 32 <= 32 * words_num (gas_memory g1) /\ mem_inv g1 (i_memory i) b2 /\
    write_range (i_buffer i ++ replicate zeros 0) (my_checkpoint (i_memory i) + Z.to_nat offset)
      (be_bytes 32 v) = Some b2.
Proof.
  intros Hm [Ho _] Hs. unfold memory_mstore, mbind, instr_bind. rewrite (popn2_eval i h offset v w) by done.
  unfold as_usize_or_fail, as_usize_or_fail_with. destruct (Z.ltb_spec offset (modulus 64)) as [Hlt|Hge].
  2:{ unfold halt_with, mbind, instr_bind, update. destruct (Interpreter_halt _ _); intros; simplify_eq. }
  unfold mret, instr_ret, resize_memory_or_halt, resize_memory_with_gas, mbind, instr_bind.
  cbn [i_gas i_memory i_buffer with_stack].
  destruct (resize_memory_correct_aux offset 32 (i_gas i) (i_memory i) (i_buffer i) Hm)
    as (ok & g1 & b1 & -> & Hlim & Hok); [by split|range_lia|].
  destruct ok; [|unfold halt_with, mbind, instr_bind, update;
    destruct (Interpreter_halt_memory_oog _); intros; simplify_eq].
  destruct Hok as (Hm1 & Hact & _ & _ & zeros & ->). unfold mret, instr_ret, memory_set, update, SharedMemory_set.
  cbn [i_gas i_memory i_buffer with_stack with_buffer with_gas]. rewrite length_be_bytes. cbn [Nat.eqb].
  destruct (write_range _ _ _) as [b2|] eqn:Hw; intros; simplify_eq. exists g1, b2, zeros.
  pose proof (write_range_length _ _ _ _ Hw) as Hlen. destruct Hm1.
  split_and!; [done|exact Hlt|lia|split; try done; lia|done].
Qed.

(** [MLOAD] of an active word reads it from the buffer. *)
Lemma mload_active i (h : H) offset w :
  mem_inv (i_gas i) (i_memory i) (i_buffer i) -> 0 <= offset < 2 ^ 64 ->
  offset + 32 <= 32 * words_num (gas_memory (i_gas i)) -> i_stack i = of_words (offset :: w) ->
  memory_mload i h = Some (Some tt, with_stack (of_words (from_be_bytes
    (take 32 (drop (my_checkpoint (i_memory i) + Z.to_nat offset) (i_buffer i))) :: w)) i, h).
Proof.
  intros Hm Ho Ha Hs. unfold memory_mload, mbind, instr_bind. rewrite (popn_top0_eval _ h offset w) by done.
  unfold as_usize_or_fail, as_usize_or_fail_with. destruct (Z.ltb_spec offset (modulus 64)); [|range_lia].
  unfold mret, instr_ret, resize_memory_or_halt, resize_memory_with_gas, mbind, instr_bind.
  rewrite resize_memory_active by (done || lia). destruct Hm.
  unfold mret, instr_ret, memory_slice_len, read, SharedMemory_slice_len, SharedMemory_slice_range.
  cbn [i_gas i_memory i_buffer with_buffer with_gas]. change (Z.to_nat 32) with 32%nat.
  rewrite get_range_Some by lia. rewrite (set_top_eval _ h _ offset w) by done.
  replace (Z.to_nat offset + 32 + my_checkpoint (i_memory i) - (Z.to_nat offset + my_checkpoint (i_memory i)))%nat
    with 32%nat by lia. by rewrite (Nat.add_comm (Z.to_nat offset)).
Qed.

(** Memory holds what was stored: after a successful [MSTORE] of a word,
    [MLOAD] of the same offset gives the word back without further expansion
    or cost, and the bytes outside the word are unchanged. *)
Theorem mstore_mload_roundtrip i (h : H) offset v w i1 :
  mem_inv (i_gas i) (i_memory i) (i_buffer i) -> u256 offset -> u256 v ->
  i_stack i = of_words (offset :: v :: w) -> memory_mstore i h = Some (Some tt, i1, h) ->
  i_stack i1 = of_words w /\
  (forall w', memory_mload (with_stack (of_words (offset :: w')) i1) h
     = Some (Some tt, with_stack (of_words (v :: w')) i1, h)) /\
  (forall k, (k < length (i_buffer i))%nat ->
     Z.of_nat k < Z.of_nat (my_checkpoint (i_memory i)) + offset \/
     Z.of_nat (my_checkpoint (i_memory i)) + offset + 32 <= Z.of_nat k ->
     i_buffer i1 !! k = i_buffer i !! k).
Proof.
  intros Hm Ho Hv Hs Hst. destruct (mstore_inv i h offset v w i1 Hm Ho Hs Hst)
    as (g1 & b2 & zeros & -> & Hlt & Ha & Hm1 & Hw). destruct Ho as [Ho _]. split_and!; [done| |].
  - intros w'. rewrite (mload_active _ h offset w') by done.
    cbn [i_memory i_buffer with_stack with_buffer with_gas].
    apply write_range_read in Hw. rewrite length_be_bytes in Hw. rewrite Hw, from_be_bytes_be_bytes.
    change (256 ^ Z.of_nat 32) with (modulus 256). by rewrite Z.mod_small by exact Hv.
  - intros k Hk Hout. cbn [i_buffer with_buffer]. rewrite (write_range_lookup _ _ _ _ k Hw), length_be_bytes.
    match goal with |- (if ?b then _ else _) = _ => destruct b eqn:Eb end; [|by rewrite lookup_app_l].
    apply andb_prop in Eb as [E1%Nat.leb_le E2%Nat.ltb_lt]. lia.
Qed.
End Specs.

(** * Halting *)

Section Halting.
Context {H : Type}.

(** [m] returns early with the result [r] and leaves the host alone. *)
Definition halts_with (r : InstructionResult) (m : Instr H unit) (i : Interpreter) (h : H) : Prop :=
  exists i', m i h = Some (None, i', h) /\
    eb_action (i_bytecode i') = Some (Return (mkInterpreterResult r [] (i_gas i'))).

Lemma halt_with_eval r i (h : H) :
  eb_continue_execution (i_bytecode i) = true ->
  exists i', (forall A, halt_with (A := A) (Interpreter_halt r) i h = Some (None, i', h)) /\
    eb_action (i_bytecode i') = Some (Return (mkInterpreterResult r [] (i_gas i'))).
Proof.
  intros Hc. unfold halt_with, mbind, instr_bind, update, early, Interpreter_halt,
    Interpreter_set_action, ExtBytecode_set_action. rewrite Hc. eexists. split; done.
Qed.

(** Halting keeps the instruction pointer, the stack and the gas. *)
Lemma halt_with_keeps A r i (h : H) i' :
  halt_with (A := A) (Interpreter_halt r) i h = Some (None, i', h) ->
  eb_instruction_pointer (i_bytecode i') = eb_instruction_pointer (i_bytecode i) /\
  i_stack i' = i_stack i /\ i_gas i' = i_gas i.
Proof.
  unfold halt_with, mbind, instr_bind, update, early, Interpreter_halt, Interpreter_set_action, ExtBytecode_set_action.
  destruct (eb_continue_execution (i_bytecode i)); [|done]. by intros [= <-].
Qed.

Lemma bind_halts {A} (m : Instr H A) (k : A -> Instr H unit) r i (h : H) i' :
  m i h = Some (None, i', h) ->
  eb_action (i_bytecode i') = Some (Return (mkInterpreterResult r [] (i_gas i'))) ->
  halts_with r (m ≫= k) i h.
Proof. intros Hm Ha. exists i'. unfold mbind, instr_bind. by rewrite Hm. Qed.

Lemma require_non_staticcall_halts (k : unit -> Instr H unit) i (h : H) :
  eb_continue_execution (i_bytecode i) = true -> rf_is_static (i_runtime_flag i) = true ->
  halts_with IR_StateChangeDuringStaticCall (require_non_staticcall ≫= k) i h.
Proof.
  intros Hc Hs. destruct (halt_with_eval IR_StateChangeDuringStaticCall i h Hc) as (i' & Hm & Ha).
  eapply bind_halts; [|exact Ha]. unfold require_non_staticcall, is_static, read, mbind, instr_bind.
  rewrite Hs. apply Hm.
Qed.

(** C21: a static frame cannot change state: [SSTORE], [LOG0]-[LOG4], [CREATE],
    [CREATE2] and [SELFDESTRUCT] halt without calling the host, so does
    [TSTORE], and so does a [CALL] that transfers value. *)
Theorem static_frame_protects_state `{!Host H, !BitVec} i (h : H) lg to value w :
  eb_continue_execution (i_bytecode i) = true -> rf_is_static (i_runtime_flag i) = true ->
  halts_with IR_StateChangeDuringStaticCall host_instr_sstore i h /\
  (forall n, halts_with IR_StateChangeDuringStaticCall (host_instr_log n) i h) /\
  (forall b, halts_with IR_StateChangeDuringStaticCall (contract_create b) i h) /\
  halts_with IR_StateChangeDuringStaticCall host_instr_selfdestruct i h /\
  (exists r, halts_with r host_instr_tstore i h) /\
  (i_stack i = of_words (lg :: to :: value :: w) -> value <> 0 ->
   halts_with IR_CallNotAllowedInsideStatic contract_call i h).
Proof.
  intros Hc Hs. split_and!; try (intros; by apply require_non_staticcall_halts).
  - destruct (SpecId_is_enabled_in (rf_spec_id (i_runtime_flag i)) CANCUN) eqn:Ef.
    + exists IR_StateChangeDuringStaticCall.
      destruct (require_non_staticcall_halts (fun _ => '(index, value) ← popn2; a ← target_address;
        host_call (fun h => Some (tt, host_tstore h a index value))) i h Hc Hs) as (i' & Hm & Ha).
      exists i'. split; [|exact Ha]. unfold host_instr_tstore. unfold mbind at 1, instr_bind at 1.
      rewrite check_eval by done. exact Hm.
    + exists IR_NotActivated. destruct (halt_with_eval IR_NotActivated i h Hc) as (i' & Hm & Ha).
      eapply bind_halts; [|exact Ha]. unfold check, spec_id, read, mbind, instr_bind. rewrite Ef. apply Hm.
  - intros Hst Hv. unfold contract_call.
    destruct (halt_with_eval IR_CallNotAllowedInsideStatic (with_stack (of_words w) i) h Hc) as (i' & Hm & Ha).
    exists i'. split; [|exact Ha]. unfold mbind at 1, instr_bind at 1. rewrite (popn3_eval i h lg to value w Hst).
    unfold mbind at 1, instr_bind at 1, is_static, read. cbn [i_runtime_flag with_stack]. rewrite Hs.
    destruct (Z.eqb_spec value 0); [done|]. apply Hm.
Qed.
End Halting.

(** * Jumps *)

(** C20: [JUMP] goes to the target exactly when it is a [JUMPDEST] at an
    instruction boundary of the code, with its gas unchanged; any other target halts
    the frame with [InvalidJump], the instruction pointer and the gas where they were.
    Either way the target is popped off the stack and the host is not called. *)
Theorem jump_correct {H} `{!BitVec, !BitVecLaws} f i (h : H) target w :
  frame_wf f -> eb_base (i_bytecode i) = f_base f -> eb_continue_execution (i_bytecode i) = true ->
  u256 target -> i_stack i = of_words (target :: w) ->
  (is_jumpdest (f_code f) (Z.to_nat target) ->
   exists i', control_jump i h = Some (Some tt, i', h) /\ i_stack i' = of_words w /\
     eb_instruction_pointer (i_bytecode i') = Z.to_nat target /\
     eb_continue_execution (i_bytecode i') = true /\ i_gas i' = i_gas i) /\
  (~ is_jumpdest (f_code f) (Z.to_nat target) ->
   exists i', control_jump i h = Some (None, i', h) /\ i_stack i' = of_words w /\
     eb_instruction_pointer (i_bytecode i') = eb_instruction_pointer (i_bytecode i) /\
     eb_action (i_bytecode i') = Some (Return (mkInterpreterResult IR_InvalidJump [] (i_gas i'))) /\
     i_gas i' = i_gas i).
Proof.
  intros Hwf Hb Hc [Ht _] Hs. pose proof (f_code_padded f Hwf) as Hpad.
  destruct Hwf as (Hu & Hlen & _ & Han).
  pose proof (analyze_legacy_jump_table_aux _ _ _ (Z.to_nat target) Hu Han) as Hjt.
  assert (control_jump i h = jump_inner target (with_stack (of_words w) i) h) as Hj.
  { unfold control_jump, mbind at 1, instr_bind. by rewrite (popn1_eval i h target w). }
  destruct (halt_with_eval IR_InvalidJump (with_stack (of_words w) i) h Hc) as (ih & Hm & Ha).
  destruct (halt_with_keeps unit _ _ _ _ (Hm unit)) as (Hp & Hst & Hgas).
  unfold jump_inner, as_usize_or_fail_with, mbind, instr_bind in Hj.
  destruct (Z.ltb_spec target (modulus 64)) as [Hlt|Hge].
  2:{ split; [|intros _; exists ih; split; [by rewrite Hj, Hm|done]].
      intros [_ Hl%lookup_lt_Some]. unfold modulus in *. lia. }
  unfold mret, instr_ret, read, ExtBytecode_is_valid_legacy_jump in Hj. cbn [i_bytecode with_stack] in Hj.
  rewrite Hb in Hj. cbn [f_base Bytecode_legacy_jump_table lab_jump_table] in Hj.
  destruct (JumpTable_is_valid (f_jump_table f) (Z.to_nat target)) eqn:Ev; cbn [negb] in Hj.
  - split; [|intros Hn; destruct Hn; by apply Hjt]. intros [_ Hl%lookup_lt_Some].
    unfold update, ExtBytecode_absolute_jump, set_instruction_pointer, eb_bytes in Hj.
    cbn [i_bytecode with_stack] in Hj. rewrite Hb in Hj. cbn [f_base Bytecode_bytecode lab_bytecode] in Hj.
    destruct (Z.leb_spec 0 target); [|lia].
    destruct (Z.leb_spec target (Z.of_nat (length (f_padded f)))); [|lia]. eexists. rewrite Hj. by split_and!.
  - split; [intros Hd; apply Hjt in Hd; congruence|]. intros _. exists ih. split; [|done].
    rewrite Hj. apply Hm.
Qed.

(** * The opcode table *)

Lemma opcodes_immediates : Forall (fun a => Z.of_nat (op_size a.1) = 1 + op_immediate_size a.2) opcodes.
Proof. repeat (apply Forall_cons_2; [reflexivity|]). apply Forall_nil_2. Qed.

Lemma opcodes_pushes n : (n < 32)%nat -> is_Some (OPCODE_INFO (0x60 + Z.of_nat n)).
Proof. intros Hn. do 32 (destruct n as [|n]; [by eexists|]). lia. Qed.

(** The three places that know the opcodes agree: the instruction table
    implements exactly the opcodes of [OPCODE_INFO], and the sizes the jump
    analysis steps by are one plus the declared immediate sizes (one for an
    unknown opcode). *)
Theorem opcode_tables_agree {H} `{!Host H, !BitVec, !Keccak} op :
  ((exists ins : Instruction H, (op, ins) ∈ table_assignments) <-> is_Some (OpCode_new op)) /\
  Z.of_nat (op_size op) = 1 + match OPCODE_INFO op with Some info => op_immediate_size info | None => 0 end.
Proof.
  assert ((table_assignments (H := H)).*1 = opcodes.*1) as Hfst by reflexivity.
  assert (forall info, OPCODE_INFO op = Some info -> (op, info) ∈ opcodes) as Hin.
  { unfold OPCODE_INFO. intros info. destruct (list_find _ opcodes) as [[k [op' info']]|] eqn:Ef; [|done].
    apply list_find_Some in Ef as (Hl & He & _). cbn in He. intros [= <-]. subst.
    by eapply list_elem_of_lookup_2. }
  split; [split|].
  - intros [ins Hi]. assert (op ∈ opcodes.*1) as Ho.
    { rewrite <- Hfst. apply list_elem_of_fmap. by exists (op, ins). }
    apply list_elem_of_fmap in Ho as ([op' info] & -> & Ho). unfold OpCode_new, OPCODE_INFO.
    destruct (list_find _ opcodes) as [[k [? ?]]|] eqn:Ef; [by eexists|].
    apply list_find_None in Ef. rewrite list.Forall_forall in Ef. by destruct (Ef _ Ho).
  - intros [x Hx]. unfold OpCode_new in Hx. destruct (OPCODE_INFO op) as [info|] eqn:Ei; [|done].
    assert (op ∈ (table_assignments (H := H)).*1) as Ho.
    { rewrite Hfst. apply list_elem_of_fmap. exists (op, info). split; [done|]. by apply Hin. }
    apply list_elem_of_fmap in Ho as ([op' ins] & -> & Ho). by exists ins.
  - destruct (OPCODE_INFO op) as [info|] eqn:Ei.
    + exact (proj1 (list.Forall_forall _ _) opcodes_immediates _ (Hin _ eq_refl)).
    + unfold op_size. destruct (_ && _) eqn:Eb; [|done]. boolify. exfalso.
      destruct (opcodes_pushes (Z.to_nat (op - 0x60)) ltac:(lia)) as [info Hi].
      replace (0x60 + Z.of_nat (Z.to_nat (op - 0x60))) with op in Hi by lia. congruence.
Qed.

(** * The gas of calls (EIP-150) *)

Section CallGas.
Context {H : Type} `{!Host H, !BitVec}.

Lemma bind_inv {A B} (m : Instr H A) (k : A -> Instr H B) i h b i2 h2 :
  (m ≫= k) i h = Some (Some b, i2, h2) ->
  exists a i1 h1, m i h = Some (Some a, i1, h1) /\ k a i1 h1 = Some (Some b, i2, h2).
Proof.
  unfold mbind, instr_bind. destruct (m i h) as [[[[a|] i1] h1]|]; [|done..]. intros. by exists a, i1, h1.
Qed.

Lemma halt_with_no_value {A} F i h (a : A) i1 h1 : halt_with (H := H) F i h = Some (Some a, i1, h1) -> False.
Proof. unfold halt_with, mbind, instr_bind, update, early. destruct (F i); intros; simplify_eq. Qed.

Lemma gas_inv c i h u i1 h1 :
  gas (H := H) c i h = Some (Some u, i1, h1) ->
  h1 = h /\ i1 = with_gas (set_remaining (gas_remaining (i_gas i) - c) (i_gas i)) i /\
  c <= gas_remaining (i_gas i).
Proof.
  unfold gas. intros (ok & i2 & h2 & Hc & Hk)%bind_inv. unfold record_cost, Gas_record_cost in Hc.
  destruct (checked_sub _ c) as [r|] eqn:Er; simplify_eq.
  - unfold mret, instr_ret in Hk. simplify_eq. apply checked_sub_spec in Er as [-> ?]. done.
  - by apply halt_with_no_value in Hk.
Qed.

Lemma delegated_cost_nonneg h spec r a tv ce c b x h' :
  contract_load_account_delegated h spec r a tv ce = Some (Ok (c, b, x), h') -> 0 <= c.
Proof.
  unfold contract_load_account_delegated, new_account_cost, NEWACCOUNT, COLD_ACCOUNT_ACCESS_COST_ADDITIONAL,
    COLD_ACCOUNT_ACCESS_COST, WARM_STORAGE_READ_COST.
  destruct (host_load_account_info_skip_cold_load h a true _) as [[[l|] h1]|]; intros Hd; simplify_eq.
  repeat case_match; simplify_eq; repeat case_if; lia.
Qed.

Lemma handle_error_gas to tv ce i h c b x i1 h1 :
  load_account_delegated_handle_error to tv ce i h = Some (Some (c, b, x), i1, h1) -> i1 = i /\ 0 <= c.
Proof.
  unfold load_account_delegated_handle_error, remaining, spec_id, read.
  intros (r & i2 & h2 & [= <- <- <-] & Hk)%bind_inv. apply bind_inv in Hk as (s & i2 & h2 & [= <- <- <-] & Hk).
  apply bind_inv in Hk as (o & i2 & h2 & Hc & Hk). unfold host_call in Hc.
  destruct (contract_load_account_delegated _ _ _ _ _ _) as [[o' h']|] eqn:Hd; simplify_eq.
  destruct o as [o|[]]; [|exfalso; by eapply halt_with_no_value..].
  unfold mret, instr_ret in Hk. simplify_eq. by apply delegated_cost_nonneg in Hd.
Qed.

(** C30: a call forwards at most all but one 64th of the gas (EIP-150) and makes
    none: from Tangerine Whistle on, the amount charged for the callee is the
    smaller of what the stack asked for and of 63/64 of what is left after the
    access costs; the callee gets it, plus the stipend of 2300 when value is
    transferred, and what the two frames have together is at most what the
    caller had. *)
Theorem call_gas_all_but_one_64th to tv ce limit i (h : H) gl b x i' h' :
  SpecId_is_enabled_in (rf_spec_id (i_runtime_flag i)) TANGERINE = true ->
  u64 limit -> gas_ok (i_gas i) ->
  load_acc_and_calc_gas to tv ce limit i h = Some (Some (gl, b, x), i', h') ->
  exists forwarded, let left := gas_remaining (i_gas i') + forwarded in
    forwarded = Z.min (left - left / 64) limit /\
    gl = (if tv then saturating_add 64 forwarded 2300 else forwarded) /\
    gl + gas_remaining (i_gas i') <= gas_remaining (i_gas i).
Proof.
  intros Hs Hl Hg. unfold load_acc_and_calc_gas, spec_id, read.
  intros (s & i1 & h1 & [= <- <- <-] & Hk)%bind_inv.
  apply bind_inv in Hk as (u & i1 & h1 & (-> & -> & _)%gas_inv & Hk).
  apply bind_inv in Hk as ([[cost bc] hash] & i1 & h1 & (-> & Hcost)%handle_error_gas & Hk).
  apply bind_inv in Hk as (u2 & i1 & h2 & (-> & -> & _)%gas_inv & Hk).
  unfold interpreter in Hk. apply bind_inv in Hk as (i0 & i1 & h2 & [= <- <- <-] & Hk).
  rewrite Hs in Hk. apply bind_inv in Hk as (u3 & i1 & h2 & (-> & -> & Hle)%gas_inv & Hk).
  unfold mret, instr_ret in Hk. injection Hk as <- <- <- <- <-.
  unfold Gas_remaining_63_of_64_parts in *. cbn [i_gas with_gas set_remaining gas_remaining] in *.
  set (r := gas_remaining (i_gas i) - _ - _) in *. eexists. cbv zeta.
  rewrite Z.sub_add. split_and!; [done..|].
  assert (r + (if tv then 9000 else 0) <= gas_remaining (i_gas i)).
  { unfold r, calc_call_static_gas, WARM_STORAGE_READ_COST, CALLVALUE. destruct tv; repeat case_if; lia. }
  unfold CALL_STIPEND, saturating_add. destruct tv; lia.
Qed.
End CallGas.

(** * Concrete frames *)

Module Specs.
#[local] Existing Instance Lsb0BitVec.

(** A frame that runs [code] on the hard fork LONDON, with the given stack. *)
Definition frame_with (code : list Z) (static : bool) (words : list Z) : Interpreter :=
  with_stack (of_words words)
    (Interpreter_new SharedMemory_new []
       (ExtBytecode_new (match Bytecode_new_legacy code with Some b => b | None => Bytecode_default end))
       (mkInputsImpl 1 None 2 (CallInput_Bytes []) 0) static LONDON 100000).

Lemma small_u256 x : 0 <= x < 2 ^ 64 -> u256 x.
Proof. intros. range_lia. Defined.

Lemma signextend_correct_witness :
  computes2 (H := DummyHost) arithmetic_signextend 0 0xff (wrap 256 (-1)).
Proof. exact (signextend_correct 0 0xff (small_u256 0 ltac:(lia)) (small_u256 0xff ltac:(lia))). Defined.

Lemma signed_instructions_correct_witness :
  computes2 (H := DummyHost) arithmetic_sdiv 7 2 3 /\
  computes2 (H := DummyHost) arithmetic_smod 7 2 1 /\
  computes2 (H := DummyHost) bitwise_slt 7 2 0 /\
  computes2 (H := DummyHost) bitwise_sgt 7 2 1.
Proof. exact (signed_instructions_correct 7 2 (small_u256 7 ltac:(lia)) (small_u256 2 ltac:(lia))). Defined.

Lemma byte_correct_witness : computes2 (H := DummyHost) bitwise_byte 30 0x1234 0x12.
Proof. exact (byte_correct 30 0x1234 (small_u256 30 ltac:(lia)) (small_u256 0x1234 ltac:(lia))). Defined.

Lemma shifts_correct_witness :
  let i := frame_with [] false [4; 0x1234] in
  let result r := Some (Some tt, with_stack (of_words [r]) i, dummy_host) in
  bitwise_shl i dummy_host = result 0x12340 /\ bitwise_shr i dummy_host = result 0x123 /\
  bitwise_sar i dummy_host = result 0x123.
Proof.
  exact (shifts_correct 4 0x1234 (frame_with [] false [4; 0x1234]) dummy_host []
    (small_u256 4 ltac:(lia)) (small_u256 0x1234 ltac:(lia)) eq_refl eq_refl).
Defined.

Lemma frame_mem_inv code static words :
  let i := frame_with code static words in mem_inv (i_gas i) (i_memory i) (i_buffer i).
Proof. split; cbn; try done; try lia; split; cbn; lia. Defined.

Lemma mstore_mload_roundtrip_witness :
  exists i1, memory_mstore (frame_with [] false [64; 42]) dummy_host = Some (Some tt, i1, dummy_host) /\
  forall w', memory_mload (with_stack (of_words (64 :: w')) i1) dummy_host
    = Some (Some tt, with_stack (of_words (42 :: w')) i1, dummy_host).
Proof.
  eexists. split; [vm_compute; reflexivity|].
  exact (proj1 (proj2 (mstore_mload_roundtrip (frame_with [] false [64; 42]) dummy_host 64 42 [] _
    (frame_mem_inv [] false [64; 42]) (small_u256 64 ltac:(lia)) (small_u256 42 ltac:(lia)) eq_refl
    ltac:(vm_compute; reflexivity)))).
Defined.

Lemma static_frame_protects_state_witness :
  halts_with IR_StateChangeDuringStaticCall (H := DummyHost) host_instr_sstore
    (frame_with [] true [0; 1; 5]) dummy_host /\
  halts_with IR_CallNotAllowedInsideStatic (H := DummyHost) contract_call
    (frame_with [] true [0; 1; 5]) dummy_host.
Proof.
  destruct (static_frame_protects_state (frame_with [] true [0; 1; 5]) dummy_host 0 1 5 [] eq_refl eq_refl)
    as (Hs & _ & _ & _ & _ & Hc). split; [exact Hs|]. apply Hc; [reflexivity|lia].
Defined.

(** PUSH1 3; JUMP; JUMPDEST. *)
Definition jump_code : list Z := [0x60; 3; 0x56; 0x5B].
Lemma jump_code_u8 : Forall u8 jump_code.
Proof. repeat constructor; cbn; lia. Defined.

Lemma jump_correct_witness :
  exists i', control_jump (frame_with jump_code false [3]) dummy_host = Some (Some tt, i', dummy_host) /\
    eb_instruction_pointer (i_bytecode i') = 3%nat.
Proof.
  destruct (analyze_legacy jump_code) as [[jt padded]|] eqn:Ea; [|by vm_compute in Ea].
  assert (frame_wf (mkFrame jump_code jt padded 100000 0 LONDON 1)) as Hwf.
  { split_and!; try (cbn; lia); [exact jump_code_u8|exact Ea]. }
  destruct (jump_correct (mkFrame jump_code jt padded 100000 0 LONDON 1) (frame_with jump_code false [3])
    dummy_host 3 [] Hwf) as [Hj _]; [|reflexivity|apply small_u256; lia|reflexivity|].
  - unfold frame_with, Bytecode_new_legacy. vm_compute in Ea |- *. simplify_eq. reflexivity.
  - destruct Hj as (i' & Hj & _ & Hp & _); [|by exists i'].
    apply (analyze_legacy_jump_table_aux _ _ _ 3%nat jump_code_u8 Ea).
    vm_compute in Ea |- *. simplify_eq. reflexivity.
Defined.

(** A host without state whose accounts are all empty and warm. *)
#[local] Instance empty_world : Host unit := {|
  host_basefee _ := 0; host_blob_gasprice _ := 0; host_gas_limit _ := 0; host_difficulty _ := 0;
  host_prevrandao _ := None; host_block_number _ := 0; host_timestamp _ := 0; host_beneficiary _ := 0;
  host_chain_id _ := 0; host_effective_gas_price _ := 0; host_caller _ := 0;
  host_blob_hash _ _ := None; host_max_initcode_size _ := 0;
  host_block_hash h _ := Some (None, h); host_selfdestruct h _ _ := Some (None, h); host_log h _ := h;
  host_sstore_skip_cold_load h _ _ _ _ := Some (Err Load_DBError, h);
  host_sload_skip_cold_load h _ _ _ := Some (Err Load_DBError, h);
  host_tstore h _ _ _ := h; host_tload h _ _ := (0, h);
  host_load_account_info_skip_cold_load h _ _ _ :=
    Some (Ok (mkAccountInfoLoad AccountInfo_default false true), h) |}.

(** A call with value that asks for more than there is gets 63/64. *)
Lemma call_gas_all_but_one_64th_witness :
  exists gl b x i', load_acc_and_calc_gas 7 true false 1000000 (frame_with [] false []) tt
      = Some (Some (gl, b, x), i', tt) /\ gl = 91780 /\
  exists forwarded, let left := gas_remaining (i_gas i') + forwarded in
    forwarded = Z.min (left - left / 64) 1000000 /\
    gl = saturating_add 64 forwarded 2300 /\
    gl + gas_remaining (i_gas i') <= 100000.
Proof.
  eexists _, _, _, _. split; [vm_compute; reflexivity|]. split; [reflexivity|].
  eapply (call_gas_all_but_one_64th 7 true false 1000000 (frame_with [] false []) tt);
    [reflexivity|range_lia|unfold gas_ok; cbn; unfold modulus; lia|vm_compute; reflexivity].
Defined.
End Specs.
