(* ===== verification/ContextLaws.v ===== *)
(** [Context] keeps the laws of [Host]: over a database with well-formed
    answers, and with the account of the running contract loaded, no method
    panics, every method keeps the invariant [ctx_ok], and the answers are
    words of the right width.  So the interpreter runs safely on the real
    journal, and the laws the interpreter's theorems assume are satisfied. *)
From S2P Require Import Prelude Hardfork Bytecode State Database WarmAddresses JournalEntry JournalInner Gas I256 InstructionResult Stack SharedMemory Interpreter Env Host Context Macros Words Instructions HostInstructions InstructionTable InterpreterLogic InterpreterRules InterpreterSafety RunSafety.
From stdpp Require Import base numbers list option tactics gmap.
From Stdlib Require Import ZArith Lia.

Local Open Scope Z_scope.

(** * What is asked of a database *)

Definition code_ok (c : Bytecode) : Prop :=
  Forall u8 (Bytecode_original_bytes c) /\ Z.of_nat (Bytecode_len c) < 2 ^ 64 /\
  forall d, c = Eip7702 d -> in_range 160 (delegated_address d).

(** Well-formed account information; the code need not be loaded. *)
Definition account_info_ok (i : AccountInfo) : Prop :=
  info_ok i /\ u256 (code_hash i) /\ forall c, code i = Some c -> code_ok c.

Class DatabaseRange (DB E : Type) `{!Database DB E} := {
  db_ok : DB -> Prop;
  db_ok_basic d a : db_ok d -> db_ok (db_basic d a).2 /\
    forall i, (db_basic d a).1 = Ok (Some i) -> account_info_ok i;
  db_ok_code d h : db_ok d -> db_ok (db_code_by_hash d h).2 /\
    forall c, (db_code_by_hash d h).1 = Ok c -> code_ok c;
  db_ok_storage d a k : db_ok d -> db_ok (db_storage d a k).2 /\
    forall v, (db_storage d a k).1 = Ok v -> u256 v;
  db_ok_block_hash d n : db_ok d -> db_ok (db_block_hash d n).2 /\
    forall v, (db_block_hash d n).1 = Ok v -> u256 v }.

Lemma account_info_ok_answer i : account_info_ok i -> account_answer_ok false i.
Proof.
  intros (Hi & Hh & Hc). split_and!; try done; intros c Ec; destruct (Hc _ Ec) as (? & ? & ?); eauto.
Qed.

Lemma Bytecode_default_ok `{BitVec} : code_ok Bytecode_default.
Proof. split_and!; [constructor|cbn; lia|done]. Qed.
Lemma AccountInfo_default_ok `{BitVec} : account_info_ok AccountInfo_default.
Proof.
  split_and!; [split; cbn; unfold in_range, modulus; lia| |intros c [= <-]; apply Bytecode_default_ok].
  cbn. unfold KECCAK_EMPTY, in_range, modulus. lia.
Qed.

(** The empty database is well formed. *)
Definition EmptyDB_Range `{BitVec, !Keccak, !KeccakLaws} :
  DatabaseRange EmptyDB Empty_set (Database0 := EmptyDB_Database).
Proof.
  refine {| db_ok _ := True |}; intros; (split; [done|]); cbn; intros ? [= <-].
  - apply Bytecode_default_ok.
  - unfold EmptyDB_storage, in_range, modulus. lia.
  - apply keccak256_range.
Defined.

(** * The journal stays well formed *)

Section Laws.
Context `{BitVec, !Keccak, !KeccakLaws} {DB E Auth : Type} `{!Database DB E, !DatabaseRange DB E}.

Definition account_ok (x : Account) : Prop :=
  account_info_ok (info x) /\ forall k t, storage x !! k = Some t -> u256 (present_value t).

(** Every loaded account is well formed, and the one at [self] is loaded. *)
Record journal_ok (self : Z) (j : JournalInner) : Prop := {
  jok_state a x : j_state j !! a = Some x -> account_ok x;
  jok_transient k v : j_transient_storage j !! k = Some v -> u256 v;
  jok_self : is_Some (j_state j !! self) }.

Lemma journal_ok_put self a x j : journal_ok self j -> account_ok x -> journal_ok self (put_account a x j).
Proof.
  intros [Hs Ht Hl] Hx. split; [|exact Ht|]; cbn.
  - intros b y Hy. apply lookup_insert_Some in Hy as [[_ <-]|[_ Hy]]; [done|by eapply Hs].
  - destruct (decide (a = self)) as [->|]; [by rewrite lookup_insert_eq; eexists|by rewrite lookup_insert_ne].
Qed.
Lemma journal_ok_push self e j : journal_ok self j -> journal_ok self (push_entry e j).
Proof. intros []. by split. Qed.

Lemma account_ok_balance v x : u256 v -> account_ok x -> account_ok (assign_balance v x).
Proof. intros Hv [((_ & Hn) & Hh & Hc) Hs]. by split_and!. Qed.
Lemma account_ok_code c x : code_ok c -> account_ok x ->
  account_ok (assign_info (assign_code (Some c) (info x)) x).
Proof. intros Hc [(Hi & Hh & _) Hs]. split; [|exact Hs]. split_and!; [exact Hi|exact Hh|]. by intros ? [= <-]. Qed.
Lemma account_ok_slot k t x : u256 (present_value t) -> account_ok x ->
  account_ok (assign_storage (<[k := t]> (storage x)) x).
Proof.
  intros Ht [Hi Hs]. split; [done|]. cbn. intros k' t' Hk. apply lookup_insert_Some in Hk as [[_ <-]|[_ Hk]]; [done|].
  by eapply Hs.
Qed.
Lemma account_ok_warm id x : account_ok x -> account_ok (warm_stale_account id x).
Proof.
  intros Hx. unfold warm_stale_account. cbn zeta. destruct (Account_is_selfdestructed_locally _); [|exact Hx].
  split; [apply AccountInfo_default_ok|]. intros k t Hk. cbn in Hk. by rewrite lookup_empty in Hk.
Qed.

(** * Loads *)

Lemma load_account_ok self a lc skip j db :
  journal_ok self j -> db_ok db ->
  let '(r, j', db') := JournalInner_load_account_mut_optional_code a lc skip j db in
  journal_ok self j' /\ db_ok db' /\
  forall l, r = Ok l -> account_ok (ja_account (data l)) /\
    j_state j' !! a = Some (ja_account (data l)) /\
    (lc = true -> is_Some (code (info (ja_account (data l))))).
Proof.
  intros Hj Hd. unfold JournalInner_load_account_mut_optional_code.
  set (load := match j_state j !! a with Some _ => _ | None => _ end).
  assert (db_ok load.2 /\ forall l, load.1 = Ok l -> account_ok (data l)) as [Hd1 Hl].
  { unfold load. destruct (j_state j !! a) as [x|] eqn:Hx.
    - pose proof (jok_state _ _ Hj _ _ Hx) as Hok.
      repeat case_match; (split; [done|]); intros ? [=]; subst; try done. by apply account_ok_warm.
    - destruct (_ && skip); [split; [done|]; by intros ? [=]|].
      destruct (db_ok_basic db a Hd) as [Hd1 Hi]. destruct (db_basic db a) as [[[i|]|e] db1]; cbn in *;
        (split; [done|]); intros ? [=]; subst; (split; [|intros k t Hk; cbn in Hk; by rewrite lookup_empty in Hk]).
      + by apply Hi.
      + apply AccountInfo_default_ok. }
  clearbody load. destruct load as [[l|e] db1]; cbn in Hd1, Hl; [|split_and!; try done; by intros ? [=]].
  specialize (Hl l eq_refl). set (j1 := if load_is_cold l then _ else _).
  assert (journal_ok self j1 /\ j_state j1 !! a = Some (data l)) as [Hj1 Ha].
  { unfold j1. destruct (load_is_cold l); (split; [|cbn; by rewrite lookup_insert_eq]);
      try apply journal_ok_push; by apply journal_ok_put. }
  clearbody j1. destruct (lc && _) eqn:Elc.
  2:{ split_and!; [done..|]. intros ? [= <-]. split_and!; try done. cbn. intros ->.
      apply andb_false_iff in Elc as [?|Hb]; [done|]. apply negb_false_iff in Hb. by apply bool_decide_eq_true in Hb. }
  assert (forall c, code_ok c -> let x := assign_info (assign_code (Some c) (info (data l))) (data l) in
    account_ok x /\ journal_ok self (put_account a x j1) /\ j_state (put_account a x j1) !! a = Some x) as Hput.
  { intros c Hc x. pose proof (account_ok_code c _ Hc Hl). split_and!; [done|by apply journal_ok_put|].
    cbn. by rewrite lookup_insert_eq. }
  destruct (code_hash _ =? KECCAK_EMPTY).
  { destruct (Hput _ Bytecode_default_ok) as (? & ? & ?). split_and!; [done..|]. intros ? [= <-]. cbn.
    split_and!; [done..|]. intros _. by eexists. }
  destruct (db_ok_code db1 (code_hash (info (data l))) Hd1) as [Hd2 Hc].
  destruct (db_code_by_hash db1 _) as [[c|e] db2]; cbn in *; [|split_and!; [done..|]; by intros ? [=]].
  destruct (Hput c (Hc c eq_refl)) as (? & ? & ?). split_and!; [done..|]. intros ? [= <-]. cbn.
  split_and!; [done..|]. intros _. by eexists.
Qed.

Lemma unwrap_load_ok {A} (r : result A (JournalLoadError E)) :
  r <> Err ColdLoadSkipped ->
  exists r', JournalLoadError_unwrap_db_error r = Some r' /\ forall a, r' = Ok a -> r = Ok a.
Proof. intros Hr. destruct r as [a|[e|]]; [| |done]; eexists; (split; [done|]); by intros ? [= <-]. Qed.

(** Without [skip_cold_load] no load is skipped. *)
Lemma load_not_skipped a lc j db :
  (JournalInner_load_account_mut_optional_code a lc false j db).1.1 <> Err ColdLoadSkipped.
Proof. unfold JournalInner_load_account_mut_optional_code. rewrite andb_false_r. repeat case_match; by simplify_eq/=. Qed.

Lemma load_account_unwrap_ok self a j db :
  journal_ok self j -> db_ok db ->
  exists r j' db', JournalInner_load_account a j db = Some (r, j', db') /\
    journal_ok self j' /\ db_ok db' /\
    forall l, r = Ok l -> account_ok (data l) /\ j_state j' !! a = Some (data l).
Proof.
  intros Hj Hd. unfold JournalInner_load_account, JournalInner_load_account_optional.
  pose proof (load_account_ok self a false false j db Hj Hd) as Hl. pose proof (load_not_skipped a false j db) as Hn.
  destruct (JournalInner_load_account_mut_optional_code a false false j db) as [[[l|[e|]] j1] db1]; cbn in *;
    [| |done]; destruct Hl as (? & ? & Hl); eexists _, _, _; (split; [done|]); split_and!; try done.
  intros ? [= <-]. cbn. destruct (Hl l eq_refl) as (? & ? & _). done.
Qed.

(** * Storage *)

Lemma sload_ok self k skip j db :
  journal_ok self j -> db_ok db ->
  exists r j' db', JournalInner_sload self k skip j db = Some (r, j', db') /\
    journal_ok self j' /\ db_ok db' /\
    forall l, r = Ok l -> u256 (data l) /\
      exists x t, j_state j' !! self = Some x /\ storage x !! k = Some t.
Proof.
  intros Hj Hd. unfold JournalInner_sload. destruct (jok_self _ _ Hj) as [x Hx]. rewrite Hx.
  pose proof (jok_state _ _ Hj _ _ Hx) as Hxok.
  assert (forall v (cold : bool) t db', u256 v -> present_value t = v -> db_ok db' ->
    let j1 := put_account self (assign_storage (<[k := t]> (storage x)) x) j in
    let j2 := if cold then push_entry (StorageWarmed k self) j1 else j1 in
    journal_ok self j2 /\ db_ok db' /\
    forall l, Ok (E := JournalLoadError E) (mkStateLoad v cold) = Ok l -> u256 (data l) /\
      exists x t, j_state j2 !! self = Some x /\ storage x !! k = Some t) as Hdone.
  { intros v cold t db' Hv Ht Hd' j1 j2.
    assert (journal_ok self j1) by (apply journal_ok_put; [done|apply account_ok_slot; [by rewrite Ht|done]]).
    split_and!; [unfold j2; destruct cold; [by apply journal_ok_push|done]|done|]. intros ? [= <-]. split; [done|].
    unfold j2. destruct cold; (eexists _, t; split; [cbn; by rewrite lookup_insert_eq|cbn; by rewrite lookup_insert_eq]). }
  assert (forall e : JournalLoadError E, journal_ok self j /\ db_ok db /\
    forall l : StateLoad Z, Err e = Ok l -> u256 (data l) /\
      exists x t, j_state j !! self = Some x /\ storage x !! k = Some t) as Herr by done.
  destruct (storage x !! k) as [t|] eqn:Hk.
  - destruct (skip && _); [eexists _, _, _; split; [done|]; apply Herr|]. eexists _, _, _. split; [done|].
    apply Hdone; try done. cbn. by eapply Hxok.
  - destruct skip; [eexists _, _, _; split; [done|]; apply Herr|].
    assert (let p := if Account_is_created x then (Ok 0, db) else db_storage db self k in
      db_ok p.2 /\ forall v, p.1 = Ok v -> u256 v) as Hp.
    { cbv zeta. destruct (Account_is_created x); [|by apply db_ok_storage]. split; [done|].
      cbn. intros ? [= <-]. apply u256_0. }
    destruct (if Account_is_created x then _ else _) as [[v|e] db1]; destruct Hp as [Hd1 Hv]; cbn in *.
    + eexists _, _, _. split; [done|]. apply Hdone; auto.
    + eexists _, _, _. split; [done|]. by split_and!.
Qed.

Lemma sstore_ok self k v skip j db :
  journal_ok self j -> db_ok db -> u256 v ->
  exists r j' db', JournalInner_sstore self k v skip j db = Some (r, j', db') /\
    journal_ok self j' /\ db_ok db'.
Proof.
  intros Hj Hd Hv. unfold JournalInner_sstore.
  destruct (sload_ok self k skip j db Hj Hd) as (r & j1 & db1 & -> & Hj1 & Hd1 & Hr).
  destruct r as [l|e]; [|eexists _, _, _; by split_and!].
  destruct (Hr l eq_refl) as (_ & x & t & Hx & Hk). rewrite Hx, Hk.
  destruct (present_value t =? v); eexists _, _, _; (split; [done|]); split; try done.
  apply journal_ok_put; [by apply journal_ok_push|]. apply account_ok_slot; [done|]. by eapply jok_state.
Qed.

Lemma tstore_ok self a k v j : journal_ok self j -> u256 v -> journal_ok self (JournalInner_tstore a k v j).
Proof.
  intros [Hs Ht Hl] Hv. unfold JournalInner_tstore.
  assert (forall t h, (forall kk w, t !! kk = Some w -> u256 w) ->
    journal_ok self (match h with
      | Some h => push_entry (TransientStorageChange k h a) (set_transient t j) | None => set_transient t j end)) as Ho.
  { intros t h Hok. destruct h; by split. }
  destruct (v =? 0); apply Ho; intros kk w Hk.
  - apply lookup_delete_Some in Hk as [_ Hk]. by eapply Ht.
  - apply lookup_insert_Some in Hk as [[_ <-]|[_ Hk]]; [done|by eapply Ht].
Qed.

(** * Self-destruction *)

Lemma touch_loaded_ok self a j :
  journal_ok self j -> is_Some (j_state j !! a) ->
  exists x j', touch_loaded a j = Some (x, j') /\ journal_ok self j' /\ account_ok x /\
    forall b, is_Some (j_state j !! b) -> is_Some (j_state j' !! b).
Proof.
  intros Hj [x Hx]. unfold touch_loaded. rewrite Hx. unfold JournalInner_touch_account.
  pose proof (jok_state _ _ Hj _ _ Hx) as Hxok. destruct (negb (Account_is_touched x)).
  - cbn. rewrite lookup_insert_eq. eexists _, _. split; [done|].
    split_and!; [by apply (journal_ok_put self a _ (push_entry _ j)); [apply journal_ok_push|]|done|].
    intros b Hb. cbn [put_account set_state j_state push_entry set_journal]. destruct (decide (a = b)) as [->|]; [by rewrite lookup_insert_eq; eexists|by rewrite lookup_insert_ne].
  - rewrite Hx. eexists _, _. by split_and!.
Qed.

Lemma selfdestruct_ok self t j db :
  journal_ok self j -> db_ok db ->
  exists r j' db', JournalInner_selfdestruct self t j db = Some (r, j', db') /\ journal_ok self j' /\ db_ok db'.
Proof.
  intros Hj Hd. unfold JournalInner_selfdestruct.
  destruct (load_account_unwrap_ok self t j db Hj Hd) as (r & j1 & db1 & -> & Hj1 & Hd1 & Hr).
  destruct r as [l|e]; [|eexists _, _, _; by split_and!]. destruct (Hr l eq_refl) as [_ Hlt].
  assert (exists j2, (if negb (self =? t) then
      let? acc := j_state j1 !! self in
      let? (target_account, j) := touch_loaded t j1 in
      Some (put_account t (add_balance (balance (info acc)) target_account) j)
    else Some j1) = Some j2 /\ journal_ok self j2) as (j2 & -> & Hj2).
  { destruct (negb (self =? t)); [|by eexists]. destruct (jok_self _ _ Hj1) as [acc ->].
    destruct (touch_loaded_ok self t j1 Hj1 ltac:(by eexists)) as (x & j2 & -> & Hj2 & Hx & _).
    eexists. split; [done|]. apply journal_ok_put; [done|]. apply account_ok_balance; [|done].
    apply wrapping_add_range. lia. }
  destruct (jok_self _ _ Hj2) as [acc Hacc]. rewrite Hacc. pose proof (jok_state _ _ Hj2 _ _ Hacc) as Hok.
  eexists _, _, _. split; [done|]. split; [|done].
  repeat case_match; try apply journal_ok_push; try apply journal_ok_put; try done;
    apply account_ok_balance; try apply u256_0; done.
Qed.
End Laws.

(** * The laws of [Host] *)

Section HostLaws.
Context `{BitVec, !Keccak, !KeccakLaws} {DB E Auth : Type} `{!Database DB E, !DatabaseRange DB E}.
Context (spec : SpecId) (self : Z).
Abbreviation Ctx := (Context DB E Auth).

(** The environments are well formed, [prevrandao] is set from the merge on,
    and so are the journal and the database. *)
Record ctx_ok (c : Ctx) : Prop := {
  cok_block : block_ok (ctx_block c);
  cok_tx : tx_ok (ctx_tx c);
  cok_chain_id : u64 (cfg_chain_id (ctx_cfg c));
  cok_merge : SpecId_is_enabled_in spec MERGE = true -> is_Some (block_prevrandao (ctx_block c));
  cok_journal : journal_ok self (journal_inner (ctx_journaled_state c));
  cok_db : db_ok (journal_database (ctx_journaled_state c)) }.

Lemma ctx_ok_journal c db j : ctx_ok c -> journal_ok self j -> db_ok db -> ctx_ok (with_journal (mkJournal db j) c).
Proof. intros [] ? ?. by split. Qed.
Lemma ctx_ok_db_result {A} c (r : result A E) : ctx_ok c -> ctx_ok (db_result r c).2.
Proof. intros []. destruct r; by split. Qed.
Lemma ctx_ok_load_result {A} c (r : result A (JournalLoadError E)) : ctx_ok c -> ctx_ok (load_result r c).2.
Proof. intros []. destruct r as [|[]]; by split. Qed.
Lemma db_result_value {A} (c : Ctx) (r : result A E) a : (db_result r c).1 = Some a -> r = Ok a.
Proof. destruct r; cbn; intros; by simplify_eq. Qed.
Lemma load_result_value {A} (c : Ctx) (r : result A (JournalLoadError E)) a : (load_result r c).1 = Ok a -> r = Ok a.
Proof. destruct r as [|[]]; cbn; intros; by simplify_eq. Qed.

Lemma wide_u256 w x : 0 <= w <= 256 -> in_range w x -> u256 x.
Proof.
  intros Hw [Hx1 Hx2]. split; [done|]. eapply Z.lt_le_trans; [exact Hx2|]. apply Z.pow_le_mono_r; lia.
Qed.

Lemma context_block_hash_ok c n :
  ctx_ok c -> exists r c', Context_block_hash c n = Some (r, c') /\ ctx_ok c' /\ forall x, r = Some x -> u256 x.
Proof.
  intros Hc. unfold Context_block_hash. destruct (db_ok_block_hash _ n (cok_db _ Hc)) as [Hd Hv].
  destruct (db_block_hash _ n) as [r db]. cbn in Hd, Hv.
  set (c1 := with_journal _ c). assert (ctx_ok c1) as Hc1 by (apply ctx_ok_journal; [done|apply Hc|done]).
  exists (db_result r c1).1, (db_result r c1).2. split; [by destruct (db_result r c1)|].
  split; [by apply ctx_ok_db_result|]. intros x Hx. by apply db_result_value, Hv in Hx.
Qed.

Lemma context_load_account_ok c a lc skip :
  ctx_ok c -> exists r c', Context_load_account_info_skip_cold_load c a lc skip = Some (r, c') /\ ctx_ok c' /\
    forall l, r = Ok l -> account_answer_ok lc (ail_account l).
Proof.
  intros Hc. unfold Context_load_account_info_skip_cold_load, Journal_load_account_info_skip_cold_load,
    JournalInner_load_account_optional, journal_result.
  pose proof (load_account_ok self a lc skip _ _ (cok_journal _ Hc) (cok_db _ Hc)) as Hl.
  destruct (JournalInner_load_account_mut_optional_code _ _ _ _ _) as [[r j] db]. destruct Hl as (Hj & Hd & Hl).
  pose proof (ctx_ok_journal c db j Hc Hj Hd) as Hc1.
  destruct r as [l|e]; match goal with |- context [load_result ?r ?c1] => set (ans := r); set (ctx1 := c1) end;
    exists (load_result ans ctx1).1, (load_result ans ctx1).2; (split; [by destruct (load_result ans ctx1)|]);
    (split; [by apply ctx_ok_load_result|]); intros l' Hl'%load_result_value; [|done].
  injection Hl' as <-. cbn.
  destruct (Hl l eq_refl) as ([Hi _] & _ & Hcode). destruct (account_info_ok_answer _ Hi) as (? & ? & _ & ? & ?).
  by split_and!.
Qed.

#[global] Instance Context_laws : HostLaws Ctx spec self.
Proof.
  refine {| host_ok := ctx_ok |}; cbn.
  - intros c Hc. apply (wide_u256 64); [lia|]. apply Hc.
  - intros c Hc. unfold Block_blob_gasprice. destruct (block_blob_excess_gas_and_price _) as [p|] eqn:Ep; cbn.
    + apply (wide_u256 128); [lia|]. by eapply bok_blob; [apply Hc|].
    + apply u256_0.
  - intros c Hc. apply (wide_u256 64); [lia|]. apply Hc.
  - intros c Hc. apply Hc.
  - intros c Hc Hm. destruct (cok_merge _ Hc Hm) as [r Hr]. exists r. split; [done|].
    by eapply bok_prevrandao; [apply Hc|].
  - intros c Hc. apply Hc.
  - intros c Hc. apply Hc.
  - intros c Hc. apply Hc.
  - intros c Hc. apply (wide_u256 64); [lia|]. apply Hc.
  - intros c Hc. apply (wide_u256 128); [lia|]. unfold Context_effective_gas_price.
    pose proof (effective_gas_price_range _ (cok_tx _ Hc) (block_basefee (ctx_block c))) as Hp.
    pose proof (tx_ok_gas_price _ (cok_tx _ Hc)). pose proof (bok_basefee _ (cok_block _ Hc)) as [? _].
    unfold in_range in *. lia.
  - intros c Hc. apply Hc.
  - intros c n r Hc. unfold Context_blob_hash. destruct (negb _); [done|]. intros Hr.
    eapply Forall_lookup_1; [apply Hc|exact Hr].
  - intros c n Hc _. by apply context_block_hash_ok.
  - intros c t Hc _. unfold Context_selfdestruct, Journal_selfdestruct.
    destruct (selfdestruct_ok self t _ _ (cok_journal _ Hc) (cok_db _ Hc)) as (r & j & db & -> & Hj & Hd).
    cbn. pose proof (ctx_ok_db_result _ r (ctx_ok_journal c db j Hc Hj Hd)).
    destruct (db_result r _) as [o c']. eauto.
  - intros c l Hc. apply ctx_ok_journal; [done| |apply Hc]. destruct (cok_journal _ Hc). by split.
  - intros c k v skip Hc _ Hv. unfold Context_sstore_skip_cold_load, Journal_sstore_skip_cold_load.
    destruct (sstore_ok self k v skip _ _ (cok_journal _ Hc) (cok_db _ Hc) Hv) as (r & j & db & -> & Hj & Hd).
    cbn. pose proof (ctx_ok_load_result _ r (ctx_ok_journal c db j Hc Hj Hd)).
    destruct (load_result r _) as [o c']. eauto.
  - intros c k skip Hc _. unfold Context_sload_skip_cold_load, Journal_sload_skip_cold_load.
    destruct (sload_ok self k skip _ _ (cok_journal _ Hc) (cok_db _ Hc)) as (r & j & db & -> & Hj & Hd & Hr).
    cbn. set (c1 := with_journal _ c). pose proof (ctx_ok_load_result _ r (ctx_ok_journal c db j Hc Hj Hd)) as Hc1.
    exists (load_result r c1).1, (load_result r c1).2. split; [by destruct (load_result r c1)|]. split; [exact Hc1|].
    intros l Hl. by apply load_result_value, Hr in Hl as [? _].
  - intros c a k v Hc _ _ Hv. apply ctx_ok_journal; [done| |apply Hc]. apply tstore_ok; [apply Hc|done].
  - intros c a k Hc _ _. split; [done|]. unfold Journal_tload, JournalInner_tload.
    destruct (j_transient_storage _ !! _) as [v|] eqn:Ev; [|apply u256_0]. by eapply jok_transient; [apply Hc|].
  - intros c a lc skip Hc _. by apply context_load_account_ok.
Defined.
End HostLaws.

(** * Running on the journal *)

Section Run.
Context `{!BitVec, !Keccak, !KeccakLaws, !BitVecLaws} {DB E Auth : Type} `{!Database DB E, !DatabaseRange DB E}.

(** C1: the interpreter runs safely on the journal: with [Context] as the host,
    over any database with well-formed answers and with the account of the
    contract loaded, every byte string executes to a result or to the request
    for a new frame within its gas, without a panic of the interpreter or of
    the journal; the context stays well formed, so that the next frame can run. *)
Theorem context_run_safe spec self code b limit memory buffer input static (c : Context DB E Auth) :
  Forall u8 code -> Z.of_nat (length code) < 2 ^ 64 -> Bytecode_new_legacy code = Some b ->
  0 <= limit < 2 ^ 55 -> length buffer = my_checkpoint memory -> Z.of_nat (length buffer) < 2 ^ 62 ->
  Forall u8 buffer -> input_ok memory input -> in_target_address input = self -> ctx_ok spec self c ->
  exists a i' c', Interpreter_run_plain (Z.to_nat limit + 1) instruction_table
      (Interpreter_new memory buffer (ExtBytecode_new b) input static spec limit) c = Run_done a i' c' /\
    ctx_ok spec self c' /\
    match a with
    | Return r =>
        0 <= gas_remaining (ir_gas r) <= limit /\ gas_limit (ir_gas r) = limit /\ Forall u8 (ir_output r)
    | NewFrame fi => 0 <= gas_remaining (i_gas i') <= limit /\ frame_input_ok i' fi
    end.
Proof. apply (interpreter_run_safe_aux spec self (laws := Context_laws spec self)). Qed.
End Run.

Module ContextRun.
#[local] Existing Instance Lsb0BitVec.
#[local] Existing Instance EmptyDB_Database.
#[local] Instance zero_keccak256 : Keccak := fun _ => 0.
#[local] Instance zero_keccak256_laws : KeccakLaws.
Proof. intros bytes. unfold keccak256, zero_keccak256. range_lia. Defined.
#[local] Existing Instance EmptyDB_Range.

(** The account 1 is loaded; it stores 7 at slot 3 and returns what it reads. *)
Definition store_code : list Z :=
  [0x60; 7; 0x60; 3; 0x55; 0x60; 3; 0x54; 0x60; 0; 0x52; 0x60; 32; 0x60; 0; 0xF3].
Definition store_bytecode : Bytecode :=
  match Bytecode_new_legacy store_code with Some b => b | None => Bytecode_default end.
Definition cancun_block : BlockEnv := mkBlockEnv 1 9 1 30000000 7 0 (Some 5) None.
Definition loaded_context : Context EmptyDB Empty_set unit :=
  mkContext cancun_block Spend.blob_tx (CfgEnv_new_with_spec CANCUN)
    (mkJournal empty_db (put_account 1 (Account_new_not_existing 0) JournalInner_new))
    LocalContext_default (Ok tt) false.

Lemma loaded_context_ok : ctx_ok CANCUN 1 loaded_context.
Proof.
  split; [split; cbn; try range_lia; [intros ? [= <-]; range_lia|done]|apply Spend.blob_tx_ok|cbn; range_lia
    |by eexists| |done].
  split; cbn.
  - intros a x Hx. apply lookup_insert_Some in Hx as [[_ <-]|[_ Hx]]; [|by rewrite lookup_empty in Hx].
    split; [apply AccountInfo_default_ok|]. intros k t Hk. cbn in Hk. by rewrite lookup_empty in Hk.
  - intros k v Hk. by rewrite lookup_empty in Hk.
  - by rewrite lookup_insert_eq; eexists.
Defined.

Lemma store_code_u8 : Forall u8 store_code.
Proof. repeat constructor; cbn; lia. Defined.

Lemma context_run_safe_witness :
  exists a i' c', Interpreter_run_plain (Z.to_nat 50000 + 1) instruction_table
      (Interpreter_new SharedMemory_new [] (ExtBytecode_new store_bytecode)
         (mkInputsImpl 1 None 2 (CallInput_Bytes []) 0) false CANCUN 50000) loaded_context = Run_done a i' c' /\
    ctx_ok CANCUN 1 c' /\
    match a with
    | Return r =>
        0 <= gas_remaining (ir_gas r) <= 50000 /\ gas_limit (ir_gas r) = 50000 /\ Forall u8 (ir_output r)
    | NewFrame fi => 0 <= gas_remaining (i_gas i') <= 50000 /\ frame_input_ok i' fi
    end.
Proof.
  apply (context_run_safe CANCUN 1 store_code store_bytecode 50000 SharedMemory_new []
    (mkInputsImpl 1 None 2 (CallInput_Bytes []) 0) false loaded_context);
    [exact store_code_u8|cbn; lia|reflexivity|lia|reflexivity|cbn; lia|constructor| |reflexivity|exact loaded_context_ok].
  split_and!; try (cbn; range_lia). split; [constructor|cbn; lia].
Defined.

(** The run reads back what it stored. *)
Lemma store_run_output :
  exists g i' c', Interpreter_run_plain 50 instruction_table
      (Interpreter_new SharedMemory_new [] (ExtBytecode_new store_bytecode)
         (mkInputsImpl 1 None 2 (CallInput_Bytes []) 0) false CANCUN 50000) loaded_context
    = Run_done (Return (mkInterpreterResult IR_Return (replicate 31 0 ++ [7]) g)) i' c'.
Proof. eexists _, _, _. vm_compute. reflexivity. Qed.
End ContextRun.
