(* ===== verification/BundleAccount.v ===== *)
(** The accounts of [crates/database/src/states]: the status of a cached
    account ([account_status.rs]), slots and plain accounts
    ([plain_account.rs]), the change of an account over a block
    ([transition_account.rs], [transition_state.rs]), what undoes it
    ([reverts.rs]) and the account of a bundle ([bundle_account.rs]).

    A [HashMap] is a [gmap].  A loop over one map that writes to another touches
    each key once, so it is written as a combination of the two maps; [None] is
    the panic of an [unreachable!]. *)
From S2P Require Import Prelude Hardfork Bytecode State.
From stdpp Require Import base numbers list option tactics gmap sorting.
From Stdlib Require Import ZArith Lia.

Local Open Scope Z_scope.

(** * The status of an account ([account_status.rs]) *)

Inductive DbAccountStatus : Type :=
| LoadedNotExisting
| Loaded
| LoadedEmptyEIP161
| InMemoryChange
| Changed
| Destroyed
| DestroyedChanged
| DestroyedAgain.

#[global] Instance DbAccountStatus_eq_dec : EqDecision DbAccountStatus.
Proof. solve_decision. Defined.

Definition is_not_modified (self : DbAccountStatus) : bool :=
  match self with LoadedNotExisting | Loaded | LoadedEmptyEIP161 => true | _ => false end.
Definition was_destroyed (self : DbAccountStatus) : bool :=
  match self with Destroyed | DestroyedChanged | DestroyedAgain => true | _ => false end.
Definition is_storage_known (self : DbAccountStatus) : bool :=
  match self with
  | LoadedNotExisting | InMemoryChange | Destroyed | DestroyedChanged | DestroyedAgain => true
  | _ => false
  end.
Definition is_modified_and_not_destroyed (self : DbAccountStatus) : bool :=
  match self with Changed | InMemoryChange => true | _ => false end.

Definition on_created (self : DbAccountStatus) : DbAccountStatus :=
  match self with
  | DestroyedAgain | Destroyed | DestroyedChanged => DestroyedChanged
  | LoadedNotExisting | LoadedEmptyEIP161 | Loaded | Changed | InMemoryChange => InMemoryChange
  end.

Definition on_touched_empty_post_eip161 (self : DbAccountStatus) : DbAccountStatus :=
  match self with
  | LoadedNotExisting => LoadedNotExisting
  | InMemoryChange | Destroyed | LoadedEmptyEIP161 => Destroyed
  | DestroyedAgain | DestroyedChanged => DestroyedAgain
  | Loaded | Changed => LoadedNotExisting
  end.

Definition on_touched_created_pre_eip161 (self : DbAccountStatus) (had_no_info : bool)
    : option (option DbAccountStatus) :=
  match self with
  | LoadedEmptyEIP161 => Some None
  | DestroyedChanged => Some (if had_no_info then None else Some DestroyedChanged)
  | Destroyed | DestroyedAgain => Some (Some DestroyedChanged)
  | InMemoryChange | LoadedNotExisting => Some (Some InMemoryChange)
  | Loaded | Changed => None
  end.

Definition on_changed (self : DbAccountStatus) (had_no_nonce_and_code : bool) : DbAccountStatus :=
  match self with
  | LoadedNotExisting => InMemoryChange
  | LoadedEmptyEIP161 => InMemoryChange
  | Loaded => if had_no_nonce_and_code then InMemoryChange else Changed
  | Changed => Changed
  | InMemoryChange => InMemoryChange
  | DestroyedChanged => DestroyedChanged
  | Destroyed | DestroyedAgain => DestroyedChanged
  end.

Definition on_selfdestructed (self : DbAccountStatus) : DbAccountStatus :=
  match self with
  | LoadedNotExisting => LoadedNotExisting
  | DestroyedChanged | DestroyedAgain | Destroyed => DestroyedAgain
  | _ => Destroyed
  end.

Definition status_transition (self other : DbAccountStatus) : DbAccountStatus :=
  match was_destroyed self, was_destroyed other with
  | true, false => DestroyedChanged
  | false, false => if decide (self = InMemoryChange) then InMemoryChange else other
  | _, _ => other
  end.

(** * Slots and plain accounts ([plain_account.rs]) *)

Record StorageSlot := mkStorageSlot { previous_or_original_value : Z; slot_present_value : Z }.

Definition StorageSlot_new (original : Z) : StorageSlot := mkStorageSlot original original.
Definition StorageSlot_new_changed (previous present : Z) : StorageSlot :=
  mkStorageSlot previous present.
Definition StorageSlot_is_changed (self : StorageSlot) : bool :=
  negb (previous_or_original_value self =? slot_present_value self).
(** [impl From<EvmStorageSlot> for StorageSlot]. *)
Definition StorageSlot_from (value : EvmStorageSlot) : StorageSlot :=
  StorageSlot_new_changed (original_value value) (present_value value).
(** The assignment [slot.present_value = v]. *)
Definition StorageSlot_assign (v : Z) (self : StorageSlot) : StorageSlot :=
  mkStorageSlot (previous_or_original_value self) v.

Abbreviation StorageWithOriginalValues := (gmap Z StorageSlot) (only parsing).
Abbreviation PlainStorage := (gmap Z Z) (only parsing).

Record PlainAccount := mkPlainAccount { pa_info : AccountInfo; pa_storage : PlainStorage }.

Section PlainAccount.
Context `{BitVec}.
Definition PlainAccount_new_empty_with_storage (storage : PlainStorage) : PlainAccount :=
  mkPlainAccount AccountInfo_default storage.
Definition PlainAccount_default : PlainAccount := mkPlainAccount AccountInfo_default ∅.
End PlainAccount.

(** [storage.iter().map(|(k, s)| (k, s.present_value)).collect()]. *)
Definition present_values (storage : StorageWithOriginalValues) : PlainStorage :=
  slot_present_value <$> storage.

(** [PartialEq] of two optional infos. *)
Definition info_eqb (a b : option AccountInfo) : bool :=
  match a, b with
  | Some x, Some y => AccountInfo_eq x y
  | None, None => true
  | _, _ => false
  end.

(** * Reverts of an account ([reverts.rs]) *)

Inductive RevertToSlot : Type :=
| RevertToSome (v : Z)
| RevertToDestroyed.

Definition RevertToSlot_to_previous_value (self : RevertToSlot) : Z :=
  match self with RevertToSome value => value | RevertToDestroyed => 0 end.

Inductive AccountInfoRevert : Type :=
| DoNothing
| DeleteIt
| RevertTo (i : AccountInfo).

Record AccountRevert := mkAccountRevert {
  ar_account : AccountInfoRevert; ar_storage : gmap Z RevertToSlot;
  ar_previous_status : DbAccountStatus; ar_wipe_storage : bool }.

Definition AccountRevert_size_hint (self : AccountRevert) : Z :=
  1 + Z.of_nat (size (ar_storage self)).

Definition AccountRevert_is_empty (self : AccountRevert) : bool :=
  match ar_account self with
  | DoNothing => bool_decide (ar_storage self = ∅) && negb (ar_wipe_storage self)
  | _ => false
  end.

(** Every present value of a storage as the value to go back to. *)
Definition revert_present (storage : StorageWithOriginalValues) : gmap Z RevertToSlot :=
  (fun s => RevertToSome (slot_present_value s)) <$> storage.
(** [for key in updated { storage.entry(key).or_insert(Destroyed) }]. *)
Definition or_insert_destroyed (storage : gmap Z RevertToSlot) (updated : StorageWithOriginalValues)
    : gmap Z RevertToSlot :=
  storage ∪ ((fun _ => RevertToDestroyed) <$> updated).

Definition new_selfdestructed_again (status : DbAccountStatus) (account : AccountInfoRevert)
    (previous_storage updated_storage : StorageWithOriginalValues) : AccountRevert :=
  mkAccountRevert account (or_insert_destroyed (revert_present previous_storage) updated_storage)
    status false.

Definition new_selfdestructed (status : DbAccountStatus) (account : AccountInfoRevert)
    (storage : StorageWithOriginalValues) : AccountRevert :=
  mkAccountRevert account (revert_present storage) status true.

(** * The change of an account ([transition_account.rs]) and of a block
    ([transition_state.rs]) *)

Record TransitionAccount := mkTransitionAccount {
  ta_info : option AccountInfo; ta_status : DbAccountStatus;
  ta_previous_info : option AccountInfo; ta_previous_status : DbAccountStatus;
  ta_storage : StorageWithOriginalValues; ta_storage_was_destroyed : bool }.

Definition TransitionAccount_new_empty_eip161 `{BitVec} (storage : StorageWithOriginalValues)
    : TransitionAccount :=
  mkTransitionAccount (Some AccountInfo_default) InMemoryChange None LoadedNotExisting storage false.

Definition TransitionAccount_has_new_contract (self : TransitionAccount) : option (Z * Bytecode) :=
  let present_new_codehash := code_hash <$> ta_info self in
  let previous_codehash := code_hash <$> ta_previous_info self in
  if decide (present_new_codehash = previous_codehash) then None
  else i ← ta_info self; c ← code i; Some (code_hash i, c).

Definition TransitionAccount_previous_balance (self : TransitionAccount) : Z :=
  default 0 (balance <$> ta_previous_info self).
Definition TransitionAccount_current_balance (self : TransitionAccount) : Z :=
  default 0 (balance <$> ta_info self).

(** The loop of [update] over the new slots: a slot that is back at its
    original value is dropped. *)
Definition update_storage (this other : StorageWithOriginalValues) : StorageWithOriginalValues :=
  union_with (fun value slot =>
    if previous_or_original_value value =? slot_present_value slot then None
    else Some (StorageSlot_assign (slot_present_value slot) value)) this other.

Definition TransitionAccount_update (self other : TransitionAccount) : TransitionAccount :=
  match ta_status other with
  | Destroyed | DestroyedAgain =>
      mkTransitionAccount (ta_info other) (ta_status other) (ta_previous_info self)
        (ta_previous_status self) (ta_storage other) true
  | _ =>
      mkTransitionAccount (ta_info other) (ta_status other) (ta_previous_info self)
        (ta_previous_status self) (update_storage (ta_storage self) (ta_storage other))
        (ta_storage_was_destroyed self)
  end.

Abbreviation TransitionState := (gmap Z TransitionAccount) (only parsing).

Definition TransitionState_single (address : Z) (transition : TransitionAccount) : TransitionState :=
  <[address := transition]> ∅.
Definition TransitionState_take (self : TransitionState) : TransitionState * TransitionState :=
  (self, ∅).
Definition TransitionState_add_transition (self : TransitionState) (t : Z * TransitionAccount)
    : TransitionState :=
  match self !! t.1 with
  | Some entry => <[t.1 := TransitionAccount_update entry t.2]> self
  | None => <[t.1 := t.2]> self
  end.
Definition TransitionState_add_transitions (self : TransitionState)
    (transitions : list (Z * TransitionAccount)) : TransitionState :=
  fold_left TransitionState_add_transition transitions self.

(** * The account of a bundle ([bundle_account.rs]) *)

Record BundleAccount := mkBundleAccount {
  ba_info : option AccountInfo; ba_original_info : option AccountInfo;
  ba_storage : StorageWithOriginalValues; ba_status : DbAccountStatus }.

Definition BundleAccount_new (original present : option AccountInfo)
    (storage : StorageWithOriginalValues) (status : DbAccountStatus) : BundleAccount :=
  mkBundleAccount present original storage status.
Definition BundleAccount_size_hint (self : BundleAccount) : Z :=
  1 + Z.of_nat (size (ba_storage self)).
Definition BundleAccount_storage_slot (self : BundleAccount) (slot : Z) : option Z :=
  match slot_present_value <$> ba_storage self !! slot with
  | Some v => Some v
  | None => if is_storage_known (ba_status self) then Some 0 else None
  end.
Definition BundleAccount_was_destroyed (self : BundleAccount) : bool := was_destroyed (ba_status self).
Definition BundleAccount_is_info_changed (self : BundleAccount) : bool :=
  negb (info_eqb (ba_info self) (ba_original_info self)).
Definition BundleAccount_is_contract_changed (self : BundleAccount) : bool :=
  negb (bool_decide (code_hash <$> ba_info self = code_hash <$> ba_original_info self)).

(** The loop of [revert] over the slots of the revert. *)
Definition revert_storage (storage : StorageWithOriginalValues) (reverts : gmap Z RevertToSlot)
    : StorageWithOriginalValues :=
  merge (fun slot revert =>
    match revert with
    | None => slot
    | Some (RevertToSome value) => Some (StorageSlot_assign value (default (StorageSlot_new value) slot))
    | Some RevertToDestroyed => None
    end) storage reverts.

(** The answer says whether the account can be removed. *)
Definition BundleAccount_revert (self : BundleAccount) (revert : AccountRevert)
    : bool * BundleAccount :=
  let status := ar_previous_status revert in
  match ar_account revert with
  | DeleteIt =>
      match ba_original_info self with
      | None => (true, mkBundleAccount None None ∅ status)
      | Some o => (false, mkBundleAccount None (Some o) (StorageSlot_assign 0 <$> ba_storage self) status)
      end
  | DoNothing =>
      (false, mkBundleAccount (ba_info self) (ba_original_info self)
                (revert_storage (ba_storage self) (ar_storage revert)) status)
  | RevertTo info =>
      (false, mkBundleAccount (Some info) (ba_original_info self)
                (revert_storage (ba_storage self) (ar_storage revert)) status)
  end.

(** The helpers of [update_and_create_revert]. *)
Definition extend_storage (this_storage storage_update : StorageWithOriginalValues)
    : StorageWithOriginalValues :=
  union_with (fun this value => Some (StorageSlot_assign (slot_present_value value) this))
    this_storage storage_update.
Definition previous_storage_from_update (updated_storage : StorageWithOriginalValues)
    : gmap Z RevertToSlot :=
  omap (fun value =>
    if StorageSlot_is_changed value then Some (RevertToSome (previous_or_original_value value))
    else None) updated_storage.

Definition new_selfdestructed_from_bundle (account_info_revert : AccountInfoRevert)
    (bundle_account : BundleAccount) (updated_storage : StorageWithOriginalValues)
    : option (AccountRevert * BundleAccount) :=
  match ba_status bundle_account with
  | InMemoryChange | Changed | LoadedEmptyEIP161 | Loaded =>
      let ret := new_selfdestructed_again (ba_status bundle_account) account_info_revert
                   (ba_storage bundle_account) updated_storage in
      Some (mkAccountRevert (ar_account ret) (ar_storage ret) (ar_previous_status ret) true,
            mkBundleAccount (ba_info bundle_account) (ba_original_info bundle_account) ∅
              (ba_status bundle_account))
  | _ => None
  end.

(** The branch of [update_and_create_revert] for each new status. *)
Section UpdateAndCreateRevert.
Context `{BitVec}.

Definition info_or_default (i : option AccountInfo) : AccountInfo := default AccountInfo_default i.

Definition update_to_changed (self : BundleAccount) (info_revert : AccountInfoRevert)
    (updated_info : option AccountInfo) (updated_storage : StorageWithOriginalValues)
    : option (option AccountRevert * BundleAccount) :=
  let previous_storage := previous_storage_from_update updated_storage in
  let? storage :=
    match ba_status self with
    | Changed | Loaded => Some (extend_storage (ba_storage self) updated_storage)
    | LoadedEmptyEIP161 => Some (ba_storage self)
    | _ => None
    end in
  Some (Some (mkAccountRevert info_revert previous_storage (ba_status self) false),
        mkBundleAccount updated_info (ba_original_info self) storage Changed).

Definition update_to_in_memory (self : BundleAccount) (info_revert : AccountInfoRevert)
    (updated_info : option AccountInfo) (updated_storage : StorageWithOriginalValues)
    : option (option AccountRevert * BundleAccount) :=
  let previous_storage := previous_storage_from_update updated_storage in
  let? (in_memory_info_revert, storage) :=
    match ba_status self with
    | Loaded | InMemoryChange => Some (info_revert, extend_storage (ba_storage self) updated_storage)
    | LoadedEmptyEIP161 => Some (info_revert, updated_storage)
    | LoadedNotExisting => Some (DeleteIt, updated_storage)
    | _ => None
    end in
  Some (Some (mkAccountRevert in_memory_info_revert previous_storage (ba_status self) false),
        mkBundleAccount updated_info (ba_original_info self) storage InMemoryChange).

Definition update_to_destroyed (self : BundleAccount) (info_revert : AccountInfoRevert)
    : option (option AccountRevert * BundleAccount) :=
  let this_storage := ba_storage self in
  match ba_status self with
  | InMemoryChange | Changed | Loaded | LoadedEmptyEIP161 =>
      Some (Some (new_selfdestructed (ba_status self) info_revert this_storage),
            mkBundleAccount None (ba_original_info self) ∅ Destroyed)
  | LoadedNotExisting =>
      Some (None, mkBundleAccount (ba_info self) (ba_original_info self) ∅ (ba_status self))
  | _ => None
  end.

Definition update_to_destroyed_changed (self : BundleAccount) (info_revert : AccountInfoRevert)
    (updated_info : option AccountInfo) (updated_storage : StorageWithOriginalValues)
    (storage_was_destroyed : bool) : option (option AccountRevert * BundleAccount) :=
  match new_selfdestructed_from_bundle info_revert self updated_storage with
  | Some (revert_state, self) =>
      Some (Some revert_state,
            mkBundleAccount updated_info (ba_original_info self) updated_storage DestroyedChanged)
  | None =>
      let? (ret, storage) :=
        match ba_status self with
        | Destroyed | LoadedNotExisting =>
            Some (mkAccountRevert DeleteIt (previous_storage_from_update updated_storage)
                    (ba_status self) false, ba_storage self)
        | DestroyedChanged =>
            let '(previous_storage, storage) :=
              if storage_was_destroyed then
                (or_insert_destroyed (revert_present (ba_storage self)) updated_storage, ∅)
              else (previous_storage_from_update updated_storage, ba_storage self) in
            Some (mkAccountRevert info_revert previous_storage DestroyedChanged false, storage)
        | DestroyedAgain =>
            Some (new_selfdestructed_again DestroyedAgain DeleteIt ∅ updated_storage,
                  ba_storage self)
        | _ => None
        end in
      Some (Some ret,
            mkBundleAccount updated_info (ba_original_info self)
              (extend_storage storage updated_storage) DestroyedChanged)
  end.

Definition update_to_destroyed_again (self : BundleAccount) (info_revert : AccountInfoRevert)
    : option (option AccountRevert * BundleAccount) :=
  let? ret :=
    match new_selfdestructed_from_bundle info_revert self ∅ with
    | Some (revert_state, _) => Some (Some revert_state)
    | None =>
        match ba_status self with
        | Destroyed | DestroyedAgain | LoadedNotExisting => Some None
        | DestroyedChanged =>
            Some (Some (new_selfdestructed_again DestroyedChanged
                          (RevertTo (info_or_default (ba_info self))) (ba_storage self) ∅))
        | _ => None
        end
    end in
  Some (ret, mkBundleAccount None (ba_original_info self) ∅ DestroyedAgain).

(** The update and the revert it calls for. *)
Definition update_account (self : BundleAccount) (transition : TransitionAccount)
    : option (option AccountRevert * BundleAccount) :=
  let updated_info := ta_info transition in
  let updated_storage := ta_storage transition in
  let info_revert :=
    if info_eqb (ba_info self) updated_info then DoNothing
    else RevertTo (info_or_default (ba_info self)) in
  match ta_status transition with
  | Changed => update_to_changed self info_revert updated_info updated_storage
  | InMemoryChange => update_to_in_memory self info_revert updated_info updated_storage
  | Loaded | LoadedNotExisting | LoadedEmptyEIP161 => Some (None, self)
  | Destroyed => update_to_destroyed self info_revert
  | DestroyedChanged =>
      update_to_destroyed_changed self info_revert updated_info updated_storage
        (ta_storage_was_destroyed transition)
  | DestroyedAgain => update_to_destroyed_again self info_revert
  end.

(** A revert with nothing to do is dropped. *)
Definition update_and_create_revert (self : BundleAccount) (transition : TransitionAccount)
    : option (option AccountRevert * BundleAccount) :=
  let? (account_revert, self) := update_account self transition in
  Some (acc ← account_revert; if AccountRevert_is_empty acc then None else Some acc, self).

Definition original_bundle_account (self : TransitionAccount) : BundleAccount :=
  mkBundleAccount (ta_previous_info self) (ta_previous_info self) ∅ (ta_previous_status self).
Definition present_bundle_account (self : TransitionAccount) : BundleAccount :=
  mkBundleAccount (ta_info self) (ta_previous_info self) (ta_storage self) (ta_status self).
Definition TransitionAccount_create_revert (self : TransitionAccount) : option (option AccountRevert) :=
  let? (r, _) := update_and_create_revert (original_bundle_account self) self in Some r.
End UpdateAndCreateRevert.
