(* ===== verification/BundleAccountLaws.v ===== *)
(** What the account of a bundle means, and that its reverts undo its updates.

    A bundle is a difference to a database.  The _world_ of an account is what
    anyone can observe of it: its info and the value of each slot.
    [bundle_view d b] is the world of the account [b] over a database that holds
    [d], and [transition_world] what a transition makes of a world.
    [update_correct] says that [update_and_create_revert] implements it, and
    [revert_restores] that the revert it returns goes back. *)
From S2P Require Import Prelude Hardfork Bytecode State BundleAccount.
From stdpp Require Import base numbers list option tactics gmap.
From Stdlib Require Import ZArith Lia Setoid.

Local Open Scope Z_scope.

Record AccountWorld := mkAccountWorld { w_info : option AccountInfo; w_storage : Z -> Z }.

(** Infos are compared as the code does, so that the cached bytecode does not
    count. *)
Definition info_equiv (a b : option AccountInfo) : Prop := info_eqb a b = true.
Definition world_equiv (w1 w2 : AccountWorld) : Prop :=
  info_equiv (w_info w1) (w_info w2) /\ (forall k, w_storage w1 k = w_storage w2 k).

Lemma AccountInfo_eq_spec x y :
  AccountInfo_eq x y = true <->
  balance x = balance y /\ nonce x = nonce y /\ code_hash x = code_hash y.
Proof. unfold AccountInfo_eq. rewrite !andb_true_iff, !Z.eqb_eq. tauto. Qed.

#[global] Instance info_equiv_equiv : Equivalence info_equiv.
Proof.
  unfold info_equiv. split.
  - intros [x|]; [|done]. by apply AccountInfo_eq_spec.
  - intros [x|] [y|]; simpl; try rewrite !AccountInfo_eq_spec; intuition congruence.
  - intros [x|] [y|] [z|]; simpl; try rewrite !AccountInfo_eq_spec; intuition congruence.
Qed.

#[global] Instance world_equiv_equiv : Equivalence world_equiv.
Proof.
  split.
  - by split.
  - intros w1 w2 [? ?]. split; [by symmetry|]. done.
  - intros w1 w2 w3 [? ?] [? ?]. split; [by etrans|]. intros k. congruence.
Qed.

Lemma info_equiv_None i : info_equiv i None <-> i = None.
Proof. by destruct i. Qed.
Lemma info_equiv_is_Some i j : info_equiv i j -> is_Some i <-> is_Some j.
Proof. unfold info_equiv. destruct i, j; simpl; (done || by intros; split; intros []). Qed.

(** * The worlds of a bundle account and of a transition *)

(** The value of a slot in a partial storage whose other slots are [unknown]. *)
Definition slot_view (unknown : Z -> Z) (storage : StorageWithOriginalValues) (k : Z) : Z :=
  match storage !! k with Some s => slot_present_value s | None => unknown k end.

(** The slots a bundle account does not hold: zero, or the database's. *)
Definition unlisted (d : AccountWorld) (st : DbAccountStatus) (k : Z) : Z :=
  if is_storage_known st then 0 else w_storage d k.

Definition account_view (d : AccountWorld) (b : BundleAccount) : AccountWorld :=
  mkAccountWorld (ba_info b) (slot_view (unlisted d (ba_status b)) (ba_storage b)).
Definition bundle_view (d : AccountWorld) (b : option BundleAccount) : AccountWorld :=
  match b with Some b => account_view d b | None => d end.

Definition transition_world (start : AccountWorld) (t : TransitionAccount) : AccountWorld :=
  mkAccountWorld (ta_info t)
    (slot_view (if ta_storage_was_destroyed t then fun _ => 0 else w_storage start) (ta_storage t)).

(** The statuses of accounts that do not exist. *)
Definition is_gone (st : DbAccountStatus) : bool :=
  match st with LoadedNotExisting | Destroyed | DestroyedAgain => true | _ => false end.

(** A bundle account is right about its database [d]. *)
Record account_ok (d : AccountWorld) (b : BundleAccount) : Prop := {
  ok_original : info_equiv (ba_original_info b) (w_info d);
  ok_known : is_storage_known (ba_status b) = true -> was_destroyed (ba_status b) = false ->
    forall k, w_storage d k = 0;
  ok_gone : is_gone (ba_status b) = true ->
    ba_info b = None /\ forall k s, ba_storage b !! k = Some s -> slot_present_value s = 0;
  ok_exists : is_gone (ba_status b) = false -> is_Some (ba_info b);
  ok_not_existing : ba_status b = LoadedNotExisting -> w_info d = None;
  ok_loaded : is_not_modified (ba_status b) = true ->
    forall k, w_storage (account_view d b) k = w_storage d k }.

(** How a block can change the status of an account: the compositions of the
    changes a transaction makes. *)
Definition block_step (p n : DbAccountStatus) : bool :=
  match p, n with
  | LoadedNotExisting, (InMemoryChange | Destroyed | DestroyedChanged | DestroyedAgain) => true
  | Loaded, (InMemoryChange | Changed | Destroyed | DestroyedChanged | DestroyedAgain) => true
  | LoadedEmptyEIP161, (InMemoryChange | Destroyed | DestroyedChanged | DestroyedAgain) => true
  | InMemoryChange, (InMemoryChange | Destroyed | DestroyedChanged | DestroyedAgain) => true
  | Changed, (Changed | Destroyed | DestroyedChanged | DestroyedAgain) => true
  | Destroyed, (DestroyedChanged | DestroyedAgain) => true
  | DestroyedChanged, (DestroyedChanged | DestroyedAgain) => true
  | DestroyedAgain, (DestroyedChanged | DestroyedAgain) => true
  | _, _ => false
  end.

(** A transition describes a change of the world [start]. *)
Record transition_ok (start : AccountWorld) (t : TransitionAccount) : Prop := {
  t_previous_info : info_equiv (ta_previous_info t) (w_info start);
  t_step : block_step (ta_previous_status t) (ta_status t) = true;
  t_slots k s : ta_storage t !! k = Some s ->
    previous_or_original_value s
    = if ta_storage_was_destroyed t then 0 else w_storage start k;
  t_gone : is_gone (ta_status t) = true ->
    ta_info t = None /\ ta_storage t = ∅ /\ ta_storage_was_destroyed t = true;
  t_exists : is_gone (ta_status t) = false -> is_Some (ta_info t);
  t_flag : ta_storage_was_destroyed t = true -> was_destroyed (ta_status t) = true;
  t_destroyed : was_destroyed (ta_status t) = true -> was_destroyed (ta_previous_status t) = false ->
    ta_storage_was_destroyed t = true;
  t_in_memory : ta_status t = InMemoryChange ->
    is_storage_known (ta_previous_status t) = false -> forall k, w_storage start k = 0 }.

(** * The combinations of maps *)

Lemma slot_view_empty u k : slot_view u ∅ k = u k.
Proof. unfold slot_view. by rewrite lookup_empty. Qed.

Lemma slot_view_extend u a b k :
  slot_view u (extend_storage a b) k = slot_view (slot_view u a) b k.
Proof.
  unfold slot_view, extend_storage. rewrite lookup_union_with.
  by destruct (a !! k), (b !! k).
Qed.

Lemma slot_view_revert u a r k :
  slot_view u (revert_storage a r) k
  = match r !! k with
    | None => slot_view u a k
    | Some (RevertToSome v) => v
    | Some RevertToDestroyed => u k
    end.
Proof.
  unfold slot_view, revert_storage. rewrite lookup_merge.
  destruct (a !! k), (r !! k) as [[]|]; done.
Qed.

Lemma slot_view_zero u a k :
  (forall s, a !! k = Some s -> slot_present_value s = 0) -> u k = 0 -> slot_view u a k = 0.
Proof. intros Ha Hu. unfold slot_view. destruct (a !! k); eauto. Qed.

Lemma slot_view_assign_zero u a k :
  u k = 0 -> slot_view u (StorageSlot_assign 0 <$> a) k = 0.
Proof. intros. apply slot_view_zero; [|done]. intros s. rewrite lookup_fmap. by intros (?&?&->)%fmap_Some_1. Qed.

Lemma lookup_previous_storage upd k :
  previous_storage_from_update upd !! k
  = s ← upd !! k; if StorageSlot_is_changed s then Some (RevertToSome (previous_or_original_value s)) else None.
Proof. unfold previous_storage_from_update. by rewrite lookup_omap. Qed.

Lemma lookup_or_insert_destroyed a upd k :
  or_insert_destroyed (revert_present a) upd !! k
  = match a !! k with
    | Some s => Some (RevertToSome (slot_present_value s))
    | None => (fun _ => RevertToDestroyed) <$> upd !! k
    end.
Proof.
  unfold or_insert_destroyed, revert_present. rewrite lookup_union, !lookup_fmap.
  by destruct (a !! k), (upd !! k).
Qed.

Lemma slot_is_changed_false s :
  StorageSlot_is_changed s = false -> previous_or_original_value s = slot_present_value s.
Proof. unfold StorageSlot_is_changed. intros. boolify. done. Qed.

(** * Updating *)

Section Update.
Context `{BitVec}.
Implicit Types (d : AccountWorld) (b : BundleAccount) (t : TransitionAccount).

Ltac unfold_update :=
  unfold update_account, update_to_changed, update_to_in_memory, update_to_destroyed,
    update_to_destroyed_changed, update_to_destroyed_again, new_selfdestructed_from_bundle.

(** Case analysis on the storages at the slot of the goal. *)
Ltac slots :=
  repeat match goal with
  | H : ?x = ?x -> _ |- _ => specialize (H eq_refl)
  | H : _ /\ _ |- _ => destruct H; subst
  | k : Z, H : forall k : Z, _ |- _ => specialize (H k)
  end;
  unfold slot_view, extend_storage, or_insert_destroyed, previous_storage_from_update,
    revert_present, unlisted in *; cbn -[info_eqb] in *;
  repeat first [ rewrite !lookup_union_with in * | rewrite !lookup_empty in * | rewrite !lookup_union in *
    | rewrite !lookup_omap in * | rewrite !lookup_fmap in * ];
  repeat match goal with |- context [?m !! ?k] => destruct (m !! k) eqn:?; simplify_eq/= end;
  repeat case_match; simplify_eq/=;
  repeat match goal with
  | H : forall s, Some ?x = Some s -> _ |- _ => specialize (H x eq_refl)
  | E : ?m !! ?k = Some ?x, H : forall s, ?m !! ?k = Some s -> _ |- _ => specialize (H x E)
  | H : StorageSlot_is_changed _ = false |- _ => apply slot_is_changed_false in H
  | H : is_Some (Some ?x) -> _ |- _ => specialize (H (ex_intro _ x eq_refl))
  | H : is_Some None |- _ => destruct H; discriminate
  end; try reflexivity; auto; try congruence; try lia.

(** [update_and_create_revert] does not panic on a transition from the status
    of the account, and gives the account the world of the transition. *)
Lemma update_account_correct d b t :
  account_ok d b -> ta_previous_status t = ba_status b -> transition_ok (account_view d b) t ->
  exists r b', update_account b t = Some (r, b') /\
    account_ok d b' /\ world_equiv (account_view d b') (transition_world (account_view d b) t).
Proof.
  intros Hb Hp Ht. destruct b as [i o sto st], t as [ti ts tpi tps tsto tf].
  cbn in Hp. subst tps.
  destruct Hb as [Ho Hk Hg He Hn Hl], Ht as [Hti Hstep Hsl Htg Hte Htf Htd Htm].
  cbn -[info_eqb] in *.
  destruct st, ts; try discriminate; destruct tf;
    try discriminate (Htd eq_refl eq_refl); try discriminate (Htf eq_refl);
    unfold_update; cbn -[info_eqb].
  all: eexists _, _; split; [reflexivity|].
  all: split; [constructor|split]; cbn -[info_eqb] in *; try done; try discriminate.
  all: try (intros; by apply Hk).
  all: try (destruct (Htg eq_refl) as (-> & -> & ?); discriminate).
  all: try (destruct (Htg eq_refl) as (-> & -> & _); destruct (Hg eq_refl) as [-> _]; done).
  all: intros; slots.
Qed.

(** An account that does not exist in the database has no storage there. *)
Definition world_ok (d : AccountWorld) : Prop := w_info d = None -> forall k, w_storage d k = 0.

Definition revert_account (b : BundleAccount) (r : AccountRevert) : option BundleAccount :=
  let '(removed, b) := BundleAccount_revert b r in if removed then None else Some b.

(** A bundle never holds an account as not existing. *)
Definition bundle_ok (d : AccountWorld) (b : option BundleAccount) : Prop :=
  match b with Some b => account_ok d b /\ ba_status b <> LoadedNotExisting | None => True end.

(** A revert that keeps the account restores it when it restores the slots. *)
Lemma revert_info_restores d b b2 i r :
  account_ok d b -> is_gone (ba_status b) = false -> account_ok d b2 ->
  info_equiv (ba_info b2) i -> ar_previous_status r = ba_status b ->
  ar_account r = RevertTo (info_or_default (ba_info b)) \/
    info_equiv (ba_info b) i /\ ar_account r = DoNothing ->
  (forall k, slot_view (unlisted d (ba_status b)) (revert_storage (ba_storage b2) (ar_storage r)) k
             = slot_view (unlisted d (ba_status b)) (ba_storage b) k) ->
  bundle_ok d (revert_account b2 r) /\
  world_equiv (bundle_view d (revert_account b2 r)) (account_view d b).
Proof.
  intros [Ho Hk Hg He Hn Hl] Hgone [Ho2 _ _ _ _ _] Hi Hp Ha Hs.
  destruct (He Hgone) as [bi Hbi]. unfold revert_account, BundleAccount_revert.
  rewrite Hp. destruct Ha as [Ha|[E Ha]]; rewrite Ha, ?Hbi in *.
  2: { assert (Hi' : info_equiv (ba_info b2) (Some bi)) by (etrans; [exact Hi|]; by symmetry).
    split; [split; [constructor|]|split]; cbn -[info_eqb] in *; try done; [congruence| | | |].
    + intros _. apply (info_equiv_is_Some _ _ Hi'). by eexists.
    + intros Hm k. by rewrite Hs, <- Hl.
    + by intros E'; rewrite E' in Hgone.
    + by rewrite Hbi. }
  - split; [split; [constructor|]|split]; cbn -[info_eqb] in *; try done; [congruence|..].
    + intros Hm k. by rewrite Hs, <- Hl.
    + by intros E'; rewrite E' in Hgone.
    + by rewrite Hbi.
Qed.

(** A revert that deletes the account restores one that did not exist. *)
Lemma revert_delete_restores d b b2 r :
  world_ok d -> account_ok d b -> is_gone (ba_status b) = true -> account_ok d b2 ->
  ar_previous_status r = ba_status b -> ar_account r = DeleteIt ->
  bundle_ok d (revert_account b2 r) /\
  world_equiv (bundle_view d (revert_account b2 r)) (account_view d b).
Proof.
  intros Hd [Ho Hk Hg He Hn Hl] Hgone [Ho2 _ _ _ _ _] Hp Ha.
  destruct (Hg Hgone) as [Hi Hz]. unfold revert_account, BundleAccount_revert.
  rewrite Ha, Hp. assert (Hkn : forall k, unlisted d (ba_status b) k = 0).
  { intros k. unfold unlisted. by destruct (ba_status b). }
  destruct (ba_original_info b2) as [o2|] eqn:Eo.
  - assert (Hne : ba_status b <> LoadedNotExisting) by (intros E; by rewrite (Hn E) in Ho2).
    split; [split; [constructor|]|split]; cbn -[info_eqb] in *; try done; try congruence; try rewrite Hi; try done.
    + intros _. split; [done|]. intros k s. rewrite lookup_fmap. by intros (? & ? & ->)%fmap_Some_1.
    + intros Hm k. rewrite slot_view_assign_zero by apply Hkn.
      rewrite <- Hl by done. symmetry. apply slot_view_zero; [eauto|done].
    + intros k. rewrite slot_view_assign_zero by apply Hkn.
      symmetry. apply slot_view_zero; [eauto|done].
  - split; [done|]. symmetry in Ho2. apply info_equiv_None in Ho2.
    split; cbn -[info_eqb]; rewrite ?Ho2, ?Hi; [done|]. intros k. rewrite Hd by done.
    symmetry. apply slot_view_zero; [eauto|done].
Qed.

(** The revert of an update brings back the world before it, from the updated
    account and from any account that agrees with it.  When the update destroyed
    the account, the other account must not hold slots the updated one does not
    (see [stale_slot_after_reverts]). *)
Lemma revert_restores d b t r b' b2 :
  world_ok d -> account_ok d b -> ta_previous_status t = ba_status b ->
  transition_ok (account_view d b) t -> update_account b t = Some (Some r, b') ->
  account_ok d b2 -> world_equiv (account_view d b2) (account_view d b') ->
  ba_status b2 = ba_status b' \/ (forall k, w_storage d k = 0) ->
  (ar_wipe_storage r = true -> forall k, is_Some (ba_storage b2 !! k) -> is_Some (ba_storage b' !! k)) ->
  bundle_ok d (revert_account b2 r) /\
  world_equiv (bundle_view d (revert_account b2 r)) (account_view d b).
Proof.
  intros Hd Hb Hp Ht Hu Hb2 [Hi2 Hs2] Hst Hw.
  destruct (is_gone (ba_status b)) eqn:Hgone.
  { apply revert_delete_restores; auto.
    all: revert Hu; unfold_update; destruct (ba_status b), (ta_status t); intros; by simplify_eq/=. }
  destruct b as [i o sto st], t as [ti ts tpi tps tsto tf], b2 as [i2 o2 sto2 st2].
  cbn in Hp. subst tps. pose proof Hb as [_ Hk _ _ _ Hl].
  destruct Ht as [_ Hstep Hsl Htg Hte Htf Htd Htm]. cbn -[info_eqb] in *.
  destruct st, ts; try discriminate; destruct tf;
    try discriminate (Htd eq_refl eq_refl); try discriminate (Htf eq_refl);
    revert Hu; unfold_update; cbn -[info_eqb]; intros Hu; try discriminate; injection Hu as <- <-.
  all: try (destruct (Htg eq_refl) as (-> & -> & ?); try discriminate).
  all: cbn -[info_eqb revert_account bundle_ok bundle_view] in *.
  all: eapply revert_info_restores; [done..|exact Hi2|done| |]; cbn -[info_eqb info_or_default].
  all: try (unfold info_equiv; by destruct (info_eqb _ _); auto).
  all: intros k; rewrite slot_view_revert; destruct Hst as [->|Hz]; slots.
Qed.

(** The status of the updated account, and its storage when it was wiped. *)
Lemma update_account_shape w b t r b' :
  transition_ok w t -> update_account b t = Some (Some r, b') ->
  ba_status b' = ta_status t /\ (ar_wipe_storage r = true -> ba_storage b' = ta_storage t).
Proof.
  intros [_ _ _ Htg _ _ _ _] Hu. destruct t as [ti ts tpi tps tsto tf]. cbn in *.
  destruct ts, (ba_status b) eqn:Eb; revert Hu; unfold_update; cbn -[info_eqb]; rewrite ?Eb;
    cbn -[info_eqb]; intros Hu; try discriminate; destruct tf; simplify_eq/=; try done.
  all: destruct (Htg eq_refl) as (_ & -> & ?); done.
Qed.

Lemma update_account_status b t r b' :
  ba_status b <> LoadedNotExisting -> block_step (ba_status b) (ta_status t) = true ->
  update_account b t = Some (r, b') -> ba_status b' = ta_status t.
Proof.
  intros Hne Hstep Hu. destruct t as [ti ts tpi tps tsto tf]. cbn in *.
  destruct ts, (ba_status b) eqn:Eb; try done; revert Hu; unfold_update; cbn -[info_eqb]; rewrite ?Eb;
    cbn -[info_eqb]; intros Hu; try discriminate; destruct tf; by simplify_eq/=.
Qed.

Lemma AccountRevert_is_empty_spec r :
  AccountRevert_is_empty r = true ->
  ar_account r = DoNothing /\ (forall k, ar_storage r !! k = None) /\ ar_wipe_storage r = false.
Proof.
  unfold AccountRevert_is_empty. destruct (ar_account r); [|done..].
  rewrite andb_true_iff, bool_decide_eq_true, negb_true_iff. intros [-> ->]. done.
Qed.

(** An update without a revert leaves the world as it is. *)
Lemma update_no_revert d b t b' :
  account_ok d b -> ta_previous_status t = ba_status b -> transition_ok (account_view d b) t ->
  update_and_create_revert b t = Some (None, b') ->
  world_equiv (account_view d b') (account_view d b).
Proof.
  unfold update_and_create_revert. intros Hb Hp Ht Hu.
  destruct (update_account b t) as [[[r|] b1]|] eqn:E; [|simplify_eq/=|done].
  - cbn in Hu. destruct (AccountRevert_is_empty r) eqn:Er; [|done]. injection Hu as ->.
    apply AccountRevert_is_empty_spec in Er as (Ea & Es & Ew).
    destruct b as [i o sto st], t as [ti ts tpi tps tsto tf]. cbn in Hp. subst tps.
    destruct Hb as [Ho Hk Hg He Hn Hl], Ht as [Hti Hstep Hsl Htg Hte Htf Htd Htm].
    cbn -[info_eqb] in *.
    destruct st, ts; try discriminate; destruct tf;
      try discriminate (Htd eq_refl eq_refl); try discriminate (Htf eq_refl);
      revert E; unfold_update; cbn -[info_eqb]; intros E; try discriminate; injection E as <- <-;
      try discriminate.
    all: cbn -[info_eqb] in *; destruct (info_eqb i ti) eqn:Ei; try discriminate.
    all: split; cbn -[info_eqb]; [by symmetry; exact Ei|intros; slots].
  - destruct b as [i o sto st], t as [ti ts tpi tps tsto tf]. cbn in Hp. subst tps.
    destruct Hb as [_ _ Hg _ _ _], Ht as [_ Hstep _ _ _ _ _ _]. cbn -[info_eqb] in *.
    destruct st, ts; try discriminate; destruct tf;
      revert E; unfold_update; cbn -[info_eqb]; intros E; try discriminate; injection E as <-.
    all: destruct (Hg eq_refl) as [-> Hz]; split; cbn -[info_eqb]; [done|intros; slots].
Qed.

(** Only an account that was destroyed and changed before can become so again
    without a revert. *)
Lemma update_destroyed_changed_revert b t b' :
  update_and_create_revert b t = Some (None, b') -> ta_status t = DestroyedChanged ->
  ba_status b = DestroyedChanged.
Proof.
  unfold update_and_create_revert. intros Hu Hs.
  destruct t as [ti ts tpi tps tsto tf]. cbn in Hs. subst ts. revert Hu. unfold_update. cbn -[info_eqb].
  destruct (ba_status b) eqn:E; cbn -[info_eqb]; unfold AccountRevert_is_empty; cbn -[info_eqb]; try done;
    destruct (info_eqb (ba_info b) ti); cbn -[bool_decide]; rewrite ?andb_false_r; done.
Qed.
End Update.
