(* ===== verification/BundleState.v ===== *)
(** The bundle of [crates/database/src/states/bundle_state.rs]: the accounts a
    range of blocks changed, the contracts they created and the reverts that go
    back, with the reverts of [reverts.rs] and the changesets of [changes.rs].

    A loop over a [HashMap] of accounts visits them in the order of
    [map_to_list]; the theorems on these loops hold for every order.  Sizes are
    [usize], 64 bits wide, and wrap as the release build does. *)
From S2P Require Import Prelude Hardfork Bytecode State BundleAccount.
From stdpp Require Import base numbers list option tactics gmap sorting.
From Stdlib Require Import ZArith Lia.

Local Open Scope Z_scope.

(** * Reverts and changesets ([reverts.rs], [changes.rs]) *)

Abbreviation Reverts := (list (list (Z * AccountRevert))) (only parsing).

Record PlainStorageChangeset := mkPlainStorageChangeset {
  psc_address : Z; psc_wipe_storage : bool; psc_storage : list (Z * Z) }.
Record StateChangeset := mkStateChangeset {
  cs_accounts : list (Z * option AccountInfo); cs_storage : list PlainStorageChangeset;
  cs_contracts : list (Z * Bytecode) }.
Record PlainStorageRevert := mkPlainStorageRevert {
  psr_address : Z; psr_wiped : bool; psr_storage_revert : list (Z * RevertToSlot) }.
Record PlainStateReverts := mkPlainStateReverts {
  psr_accounts : list (list (Z * option AccountInfo)); psr_storage : list (list PlainStorageRevert) }.

Definition address_le (x y : Z * AccountRevert) : Prop := x.1 <= y.1.
#[global] Instance address_le_dec : RelDecision address_le.
Proof. intros x y. unfold address_le. apply _. Defined.
Definition Reverts_sort (self : Reverts) : Reverts := merge_sort address_le <$> self.
Definition Reverts_extend (self other : Reverts) : Reverts := self ++ other.

Definition account_to_plain (r : Z * AccountRevert) : list (Z * option AccountInfo) :=
  match ar_account r.2 with
  | RevertTo acc => [(r.1, Some acc)]
  | DeleteIt => [(r.1, None)]
  | DoNothing => []
  end.
Definition storage_to_plain (r : Z * AccountRevert) : list PlainStorageRevert :=
  if ar_wipe_storage r.2 || negb (bool_decide (ar_storage r.2 = ∅)) then
    [mkPlainStorageRevert r.1 (ar_wipe_storage r.2) (map_to_list (ar_storage r.2))]
  else [].
Definition Reverts_to_plain_state_reverts (self : Reverts) : PlainStateReverts :=
  mkPlainStateReverts ((fun reverts => concat (account_to_plain <$> reverts)) <$> self)
    ((fun reverts => concat (storage_to_plain <$> reverts)) <$> self).

(** The sum of the sizes of a list of reverts, with the wrap-around of [+=]. *)
Definition add_revert_size (acc : Z) (r : Z * AccountRevert) : Z :=
  wrapping_add 64 acc (AccountRevert_size_hint r.2).

(** * The bundle *)

Inductive OriginalValuesKnown : Type := ValuesKnownYes | ValuesKnownNo.
Definition is_not_known (self : OriginalValuesKnown) : bool :=
  match self with ValuesKnownNo => true | ValuesKnownYes => false end.

Inductive BundleRetention : Type := RetainPlainState | RetainReverts.
Definition includes_reverts (self : BundleRetention) : bool :=
  match self with RetainReverts => true | RetainPlainState => false end.

Record BundleState := mkBundleState {
  bs_state : gmap Z BundleAccount; bs_contracts : gmap Z Bytecode; bs_reverts : Reverts;
  bs_state_size : Z; bs_reverts_size : Z }.

Definition BundleState_default : BundleState := mkBundleState ∅ ∅ [] 0 0.

(** The account a slot map of pairs [(original, present)] stands for. *)
Definition changed_slots (storage : gmap Z (Z * Z)) : StorageWithOriginalValues :=
  (fun s => StorageSlot_new_changed s.1 s.2) <$> storage.
(** [Option<Option<AccountInfo>>] as the revert of an info. *)
Definition info_revert_of (account : option (option AccountInfo)) : AccountInfoRevert :=
  match account with
  | Some (Some account) => RevertTo account
  | Some None => DeleteIt
  | None => DoNothing
  end.
Definition revert_of (account : option (option AccountInfo)) (storage : list (Z * Z))
    : AccountRevert :=
  mkAccountRevert (info_revert_of account)
    (list_to_map (reverse ((fun kv : Z * Z => (kv.1, RevertToSome kv.2)) <$> storage))) Changed false.

(** [BundleState::new]: a later entry of an address or slot replaces an earlier
    one, as [collect] into a map does. *)
Definition BundleState_new
    (state : list (Z * (option AccountInfo * option AccountInfo * gmap Z (Z * Z))))
    (reverts : list (list (Z * option (option AccountInfo) * list (Z * Z))))
    (contracts : list (Z * Bytecode)) : BundleState :=
  let accounts := map (fun '(address, (original, present, storage)) =>
    (address, BundleAccount_new original present (changed_slots storage) Changed)) state in
  let reverts := map (fun block_reverts =>
    map (fun '(address, account, storage) => (address, revert_of account storage)) block_reverts)
    reverts in
  mkBundleState (list_to_map (reverse accounts)) (list_to_map (reverse contracts)) reverts
    (fold_left (fun acc a => wrapping_add 64 acc (BundleAccount_size_hint a.2)) accounts 0)
    (fold_left add_revert_size (concat reverts) 0).

Definition BundleState_size_hint (self : BundleState) : Z :=
  wrapping_add 64 (wrapping_add 64 (bs_state_size self) (bs_reverts_size self))
    (Z.of_nat (size (bs_contracts self))).
Definition BundleState_len (self : BundleState) : nat := size (bs_state self).
Definition BundleState_is_empty (self : BundleState) : bool := (BundleState_len self =? 0)%nat.
Definition BundleState_account (self : BundleState) (address : Z) : option BundleAccount :=
  bs_state self !! address.
Definition BundleState_bytecode (self : BundleState) (hash : Z) : option Bytecode :=
  bs_contracts self !! hash.

(** The assignments to the fields of a bundle. *)
Definition with_bs_state (m : gmap Z BundleAccount) (n : Z) (self : BundleState) : BundleState :=
  mkBundleState m (bs_contracts self) (bs_reverts self) n (bs_reverts_size self).
Definition with_bs_reverts (r : Reverts) (n : Z) (self : BundleState) : BundleState :=
  mkBundleState (bs_state self) (bs_contracts self) r (bs_state_size self) n.
Definition with_bs_contracts (c : gmap Z Bytecode) (self : BundleState) : BundleState :=
  mkBundleState (bs_state self) c (bs_reverts self) (bs_state_size self) (bs_reverts_size self).

Section Apply.
Context `{BitVec}.

(** One account of [apply_transitions_and_create_reverts]. *)
Definition apply_transition (self : BundleState) (address : Z) (transition : TransitionAccount)
    : option (option AccountRevert * BundleState) :=
  let self :=
    match TransitionAccount_has_new_contract transition with
    | Some (hash, new_bytecode) => with_bs_contracts (<[hash := new_bytecode]> (bs_contracts self)) self
    | None => self
    end in
  match bs_state self !! address with
  | Some entry =>
      let state_size := wrapping_sub 64 (bs_state_size self) (BundleAccount_size_hint entry) in
      let? (revert, entry) := update_and_create_revert entry transition in
      let state_size := wrapping_add 64 state_size (BundleAccount_size_hint entry) in
      Some (revert, with_bs_state (<[address := entry]> (bs_state self)) state_size self)
  | None =>
      let present_bundle := present_bundle_account transition in
      let? revert := TransitionAccount_create_revert transition in
      match revert with
      | Some _ =>
          let state_size :=
            wrapping_add 64 (bs_state_size self) (BundleAccount_size_hint present_bundle) in
          Some (revert, with_bs_state (<[address := present_bundle]> (bs_state self)) state_size self)
      | None => Some (revert, self)
      end
  end.

(** The loop over the transitions, with the reverts it has collected. *)
Fixpoint apply_transitions_loop (include_reverts : bool) (transitions : list (Z * TransitionAccount))
    (self : BundleState) (reverts : list (Z * AccountRevert)) : option BundleState :=
  match transitions with
  | [] => Some (with_bs_reverts (bs_reverts self ++ [reverts]) (bs_reverts_size self) self)
  | (address, transition) :: transitions =>
      let? (revert, self) := apply_transition self address transition in
      match revert with
      | Some revert =>
          if include_reverts then
            apply_transitions_loop include_reverts transitions
              (with_bs_reverts (bs_reverts self)
                 (wrapping_add 64 (bs_reverts_size self) (AccountRevert_size_hint revert)) self)
              (reverts ++ [(address, revert)])
          else apply_transitions_loop include_reverts transitions self reverts
      | None => apply_transitions_loop include_reverts transitions self reverts
      end
  end.

Definition apply_transitions_and_create_reverts (self : BundleState) (transitions : TransitionState)
    (retention : BundleRetention) : option BundleState :=
  apply_transitions_loop (includes_reverts retention) (map_to_list transitions) self [].
End Apply.

(** * Changesets *)

Definition slot_to_plain (is_value_known : OriginalValuesKnown) (was_destroyed : bool)
    (kv : Z * StorageSlot) : list (Z * Z) :=
  let slot := kv.2 in
  let destroyed_and_not_zero := was_destroyed && negb (slot_present_value slot =? 0) in
  let not_destroyed_and_changed := negb was_destroyed && StorageSlot_is_changed slot in
  if is_not_known is_value_known || destroyed_and_not_zero || not_destroyed_and_changed then
    [(kv.1, slot_present_value slot)]
  else [].

Definition account_changes (is_value_known : OriginalValuesKnown) (a : Z * BundleAccount)
    : list (Z * option AccountInfo) :=
  if is_not_known is_value_known || BundleAccount_is_info_changed a.2 then
    [(a.1, AccountInfo_copy_without_code <$> ba_info a.2)]
  else [].
Definition storage_changes (is_value_known : OriginalValuesKnown) (a : Z * BundleAccount)
    : list PlainStorageChangeset :=
  let was_destroyed := BundleAccount_was_destroyed a.2 in
  let account_storage_changed :=
    concat (slot_to_plain is_value_known was_destroyed <$> map_to_list (ba_storage a.2)) in
  if negb (bool_decide (account_storage_changed = [])) || was_destroyed then
    [mkPlainStorageChangeset a.1 was_destroyed account_storage_changed]
  else [].

Definition BundleState_to_plain_state (self : BundleState) (is_value_known : OriginalValuesKnown)
    : StateChangeset :=
  mkStateChangeset (concat (account_changes is_value_known <$> map_to_list (bs_state self)))
    (concat (storage_changes is_value_known <$> map_to_list (bs_state self)))
    (filter (fun c => c.1 <> KECCAK_EMPTY) (map_to_list (bs_contracts self))).
Definition BundleState_to_plain_state_and_reverts (self : BundleState)
    (is_value_known : OriginalValuesKnown) : StateChangeset * PlainStateReverts :=
  (BundleState_to_plain_state self is_value_known, Reverts_to_plain_state_reverts (bs_reverts self)).

(** * Extending a bundle *)

Definition extend_account (this other_account : BundleAccount) : BundleAccount :=
  let storage :=
    if BundleAccount_was_destroyed other_account then ba_storage other_account
    else extend_storage (ba_storage this) (ba_storage other_account) in
  mkBundleAccount (ba_info other_account) (ba_original_info this) storage
    (status_transition (ba_status this) (ba_status other_account)).

Definition extend_state_account (self : BundleState) (other : Z * BundleAccount) : BundleState :=
  let '(address, other_account) := other in
  match bs_state self !! address with
  | Some this =>
      let state_size := wrapping_sub 64 (bs_state_size self) (BundleAccount_size_hint this) in
      let this := extend_account this other_account in
      with_bs_state (<[address := this]> (bs_state self))
        (wrapping_add 64 state_size (BundleAccount_size_hint this)) self
  | None =>
      with_bs_state (<[address := other_account]> (bs_state self))
        (wrapping_add 64 (bs_state_size self) (BundleAccount_size_hint other_account)) self
  end.
Definition BundleState_extend_state (self : BundleState) (other_state : gmap Z BundleAccount)
    : BundleState :=
  fold_left extend_state_account (map_to_list other_state) self.

(** One revert of the loop of [extend]: a wiping revert takes over the storage
    of the present state, which is drained.  The size of the state is left as it
    is. *)
Definition extend_revert (self : BundleState) (address : Z) (revert : AccountRevert)
    : BundleState * AccountRevert :=
  let '(self, revert) :=
    if ar_wipe_storage revert then
      match bs_state self !! address with
      | Some this_account =>
          let storage := ar_storage revert ∪ revert_present (ba_storage this_account) in
          let drained := mkBundleAccount (ba_info this_account) (ba_original_info this_account) ∅
                           (ba_status this_account) in
          let wipe := if BundleAccount_was_destroyed this_account then false else true in
          (with_bs_state (<[address := drained]> (bs_state self)) (bs_state_size self) self,
           mkAccountRevert (ar_account revert) storage (ar_previous_status revert) wipe)
      | None => (self, revert)
      end
    else (self, revert) in
  (with_bs_reverts (bs_reverts self)
     (wrapping_add 64 (bs_reverts_size self) (AccountRevert_size_hint revert)) self, revert).

Fixpoint extend_block_reverts (self : BundleState) (reverts : list (Z * AccountRevert))
    : BundleState * list (Z * AccountRevert) :=
  match reverts with
  | [] => (self, [])
  | (address, revert) :: reverts =>
      let '(self, revert) := extend_revert self address revert in
      let '(self, reverts) := extend_block_reverts self reverts in
      (self, (address, revert) :: reverts)
  end.
Fixpoint extend_reverts (self : BundleState) (reverts : Reverts) : BundleState * Reverts :=
  match reverts with
  | [] => (self, [])
  | block :: reverts =>
      let '(self, block) := extend_block_reverts self block in
      let '(self, reverts) := extend_reverts self reverts in
      (self, block :: reverts)
  end.

Definition BundleState_extend (self other : BundleState) : BundleState :=
  let '(self, other_reverts) := extend_reverts self (bs_reverts other) in
  let self := BundleState_extend_state self (bs_state other) in
  let self := with_bs_contracts (bs_contracts other ∪ bs_contracts self) self in
  with_bs_reverts (Reverts_extend (bs_reverts self) other_reverts) (bs_reverts_size self) self.

Definition BundleState_prepend_state (self other : BundleState) : BundleState :=
  let this_bundle := self in
  let other := BundleState_extend_state other (bs_state this_bundle) in
  with_bs_contracts (bs_contracts this_bundle ∪ bs_contracts other) other.

(** * Taking and applying reverts *)

Definition BundleState_take_all_reverts (self : BundleState) : Reverts * BundleState :=
  (bs_reverts self, with_bs_reverts [] 0 self).

Definition BundleState_take_n_reverts (self : BundleState) (reverts_to_take : nat)
    : Reverts * BundleState :=
  if (length (bs_reverts self) <? reverts_to_take)%nat then BundleState_take_all_reverts self
  else
    let this := drop reverts_to_take (bs_reverts self) in
    (take reverts_to_take (bs_reverts self),
     with_bs_reverts this (fold_left add_revert_size (concat this) 0) self).

(** The account a revert starts from when the bundle does not hold it. *)
Definition vacant_account : BundleAccount := BundleAccount_new None None ∅ LoadedNotExisting.

Definition revert_one (self : BundleState) (r : Z * AccountRevert) : BundleState :=
  let '(address, revert_account) := r in
  let self := with_bs_reverts (bs_reverts self)
    (wrapping_sub 64 (bs_reverts_size self) (AccountRevert_size_hint revert_account)) self in
  match bs_state self !! address with
  | Some account =>
      let state_size := wrapping_sub 64 (bs_state_size self) (BundleAccount_size_hint account) in
      let '(removed, account) := BundleAccount_revert account revert_account in
      if removed then with_bs_state (delete address (bs_state self)) state_size self
      else with_bs_state (<[address := account]> (bs_state self))
             (wrapping_add 64 state_size (BundleAccount_size_hint account)) self
  | None =>
      let '(removed, account) := BundleAccount_revert vacant_account revert_account in
      if removed then self
      else with_bs_state (<[address := account]> (bs_state self))
             (wrapping_add 64 (bs_state_size self) (BundleAccount_size_hint account)) self
  end.

(** [Vec::pop]. *)
Definition pop_reverts (self : Reverts) : option (list (Z * AccountRevert) * Reverts) :=
  match reverse self with [] => None | r :: rest => Some (r, reverse rest) end.

Definition BundleState_revert_latest (self : BundleState) : bool * BundleState :=
  match pop_reverts (bs_reverts self) with
  | Some (reverts, rest) =>
      (true, fold_left revert_one reverts (with_bs_reverts rest (bs_reverts_size self) self))
  | None => (false, self)
  end.

(** The loop ends when [num_transitions] reaches zero or no revert is left. *)
Fixpoint BundleState_revert (self : BundleState) (num_transitions : nat) : BundleState :=
  match num_transitions with
  | O => self
  | S n =>
      let '(reverted, self) := BundleState_revert_latest self in
      if reverted then BundleState_revert self n else self
  end.
