(* ===== verification/BundleStateLaws.v ===== *)
(** A bundle is a difference to a database: applying the transitions of a block
    moves it from one world to the next, and the reverts it records go back. *)
From S2P Require Import Prelude Hardfork Bytecode State BundleAccount BundleAccountLaws BundleState.
From stdpp Require Import base numbers list option tactics gmap.
From Stdlib Require Import ZArith Lia Setoid.

Local Open Scope Z_scope.

(** The world is an [AccountWorld] for each address. *)
Abbreviation World := (Z -> AccountWorld) (only parsing).

Definition bundle_world (D : World) (bs : BundleState) : World :=
  fun a => bundle_view (D a) (bs_state bs !! a).

Definition bundle_inv (D : World) (bs : BundleState) : Prop :=
  forall a, bundle_ok (D a) (bs_state bs !! a).
Definition db_ok (D : World) : Prop := forall a, world_ok (D a).

(** An account with info [i] and status [p] is where the bundle is: the bundle
    holds it with that status, or it is as in the database. *)
Definition started (d : AccountWorld) (b : option BundleAccount) (i : option AccountInfo)
    (p : DbAccountStatus) : Prop :=
  match b with
  | Some b => p = ba_status b
  | None => account_ok d (mkBundleAccount i i ∅ p)
            /\ world_equiv (account_view d (mkBundleAccount i i ∅ p)) d
  end.

(** The transition [t] of the account [a] starts where the bundle is.  An
    account the bundle does not hold starts from the database. *)
Definition transition_from (d : AccountWorld) (b : option BundleAccount) (t : TransitionAccount) : Prop :=
  transition_ok (bundle_view d b) t /\ started d b (ta_previous_info t) (ta_previous_status t).

Definition transitions_ok (D : World) (bs : BundleState) (l : list (Z * TransitionAccount)) : Prop :=
  NoDup l.*1 /\ forall a t, (a, t) ∈ l -> transition_from (D a) (bs_state bs !! a) t.

(** [r] takes the account [b2] back to the world [w]. *)
Definition undoes (d : AccountWorld) (w : AccountWorld) (b2 : BundleAccount) (r : AccountRevert) : Prop :=
  bundle_ok d (revert_account b2 r) /\ world_equiv (bundle_view d (revert_account b2 r)) w.

Lemma transition_ok_equiv w1 w2 t : world_equiv w1 w2 -> transition_ok w1 t -> transition_ok w2 t.
Proof.
  intros [Hi Hs] [H1 H2 H3 H4 H5 H6 H7 H8]. constructor; auto.
  - by etrans.
  - intros k s E. rewrite (H3 k s E). by destruct (ta_storage_was_destroyed t); rewrite ?Hs.
  - intros E1 E2 k. rewrite <- Hs. auto.
Qed.

Lemma transition_world_equiv w1 w2 t :
  world_equiv w1 w2 -> world_equiv (transition_world w1 t) (transition_world w2 t).
Proof.
  intros [_ Hs]. split; [done|]. intros k. unfold transition_world, slot_view; cbn.
  destruct (ta_storage t !! k); [done|]. by destruct (ta_storage_was_destroyed t); rewrite ?Hs.
Qed.

(** The account a transition leaves in a bundle that did not hold it. *)
Lemma present_bundle_account_ok d t :
  account_ok d (original_bundle_account t) ->
  world_equiv (account_view d (original_bundle_account t)) d -> transition_ok d t ->
  account_ok d (present_bundle_account t) /\
  world_equiv (account_view d (present_bundle_account t)) (transition_world d t).
Proof.
  intros [Ho Hk Hg He Hn Hl] [_ Hs] Ht.
  destruct t as [ti ts tpi tps tsto tf], Ht as [Hti Hstep Hsl Htg Hte Htf Htd Htm].
  cbn -[info_eqb] in *.
  destruct tps, ts; try discriminate; destruct tf;
    try discriminate (Htd eq_refl eq_refl); try discriminate (Htf eq_refl);
    try (destruct (Htg eq_refl) as (-> & -> & ?); discriminate).
  all: split; [constructor|split]; cbn -[info_eqb] in *; try done; try discriminate.
  all: try (destruct (Htg eq_refl) as (-> & -> & _)); try done.
  all: intros; unfold slot_view, unlisted in *; cbn in *;
    try match goal with k : Z |- _ => specialize (Hs k); rewrite lookup_empty in Hs end;
    rewrite ?lookup_empty; repeat case_match; auto; symmetry; auto.
Qed.

(** An account the bundle still does not hold after a transition that changed
    nothing. *)
Lemma vacant_settled d t :
  world_ok d -> started d None (ta_previous_info t) (ta_previous_status t) -> transition_ok d t ->
  world_equiv (transition_world d t) d ->
  (ta_status t = DestroyedChanged -> ta_previous_status t = DestroyedChanged) ->
  started d None (ta_info t) (ta_status t).
Proof.
  intros Hd [Ho Hs] Ht [Hi Hst] Hdc.
  destruct (present_bundle_account_ok d t Ho Hs Ht) as [[Ho' Hk Hg He Hn _] _].
  destruct Ht as [_ Hstep _ _ _ _ _ _]. cbn -[info_eqb] in *.
  assert (Hz : is_storage_known (ta_status t) = true -> forall k, w_storage d k = 0).
  { intros Hkn. destruct (was_destroyed (ta_status t)) eqn:Ed; [|by apply Hk].
    destruct (is_gone (ta_status t)) eqn:Eg.
    - destruct (Hg eq_refl) as [Ei _]. rewrite Ei in Hi. symmetry in Hi.
      apply info_equiv_None in Hi. auto.
    - intros k. destruct Hs as [_ Hs]. rewrite <- Hs. cbn. rewrite slot_view_empty.
      unfold unlisted. rewrite Hdc; [done|]. by destruct (ta_status t). }
  split; [constructor|split]; cbn -[info_eqb]; try done.
  - intros Hgo. by destruct (Hg Hgo).
  - intros Hm. exfalso. by destruct (ta_previous_status t), (ta_status t).
  - intros k. rewrite slot_view_empty. unfold unlisted.
    destruct (is_storage_known (ta_status t)); [symmetry; auto|done].
Qed.

(** * Applying one transition *)

Section Apply.
Context `{BitVec} (D : World) (HD : db_ok D).

(** What a transition makes of the account of a bundle: the new account, and
    a revert that goes back, unless the world stays the same. *)
Lemma apply_account_correct d b t :
  world_ok d -> bundle_ok d b -> transition_from d b t ->
  exists r b', (match b with
      | Some b => update_and_create_revert b t
      | None => let? r := TransitionAccount_create_revert t in
                Some (r, match r with
                         | Some _ => present_bundle_account t
                         | None => vacant_account
                         end)
      end) = Some (r, b') /\
    let b2 := match b, r with None, None => None | _, _ => Some b' end in
    bundle_ok d b2 /\ started d b2 (ta_info t) (ta_status t) /\
    world_equiv (bundle_view d b2) (transition_world (bundle_view d b) t) /\
    match r with
    | Some r => undoes d (bundle_view d b) b' r
    | None => world_equiv (bundle_view d b2) (bundle_view d b)
    end.
Proof.
  intros Hd Hb [Ht Hp]. destruct b as [b|]; cbn in *.
  - destruct Hb as [Hb Hne].
    destruct (update_account_correct d b t) as (r & b' & E & Hok & Hw); auto.
    assert (Hst : ba_status b' = ta_status t).
    { eapply update_account_status; eauto. rewrite <- Hp. by destruct Ht. }
    assert (E' := E). unfold update_and_create_revert. rewrite E.
    eexists _, b'; split; [reflexivity|]. cbn. split_and!; [done| |done..|].
    { rewrite Hst. destruct Ht as [_ Hs _ _ _ _ _ _]. by destruct (ta_previous_status t), (ta_status t). }
    destruct (r ≫= _) as [r'|] eqn:Er; cbn.
    + destruct r as [r0|]; [|done]. cbn in Er. destruct (AccountRevert_is_empty r0); [done|].
      simplify_eq. apply (revert_restores d b t r' b' b'); auto. reflexivity.
    + eapply (update_no_revert d b t); eauto. unfold update_and_create_revert. by rewrite E, Er.
  - assert (Hp' := Hp). destruct Hp as [Ho Hs].
    assert (Ht' : transition_ok (account_view d (original_bundle_account t)) t).
    { eapply transition_ok_equiv; [|exact Ht]. by symmetry. }
    destruct (present_bundle_account_ok d t Ho Hs Ht) as [Hok Hv].
    destruct (update_account_correct d (original_bundle_account t) t) as (r & b' & E & Hok' & Hw); auto.
    assert (Hu : update_and_create_revert (original_bundle_account t) t
      = Some (r ≫= (fun acc => if AccountRevert_is_empty acc then None else Some acc), b'))
      by (unfold update_and_create_revert; by rewrite E).
    unfold TransitionAccount_create_revert. rewrite Hu.
    eexists _, _; split; [reflexivity|]. cbn.
    destruct (r ≫= _) as [r'|] eqn:Er; cbn.
    + split_and!; [done| |done..|].
      { destruct Ht as [_ Hst _ _ _ _ _ _]. by destruct (ta_previous_status t), (ta_status t). }
      destruct r as [r0|]; [|done]. cbn in Er.
      destruct (AccountRevert_is_empty r0); [done|]. simplify_eq.
      destruct (revert_restores d (original_bundle_account t) t r' b' (present_bundle_account t))
        as [? Hr]; auto.
      * etrans; [exact Hv|]. symmetry. etrans; [exact Hw|]. by apply transition_world_equiv.
      * left. by destruct (update_account_shape _ _ _ _ _ Ht E) as [-> _].
      * intros Hwipe. destruct (update_account_shape _ _ _ _ _ Ht E) as [_ ->]; done.
      * split; [done|]. by etrans.
    + assert (Hsame : world_equiv (transition_world d t) d).
      { etrans; [apply transition_world_equiv; by symmetry|].
        etrans; [symmetry; exact Hw|]. etrans; [|exact Hs].
        eapply (update_no_revert d _ t); eauto. }
      assert (Hset : started d None (ta_info t) (ta_status t)).
      { apply vacant_settled; auto. intros Hdc.
        by apply (update_destroyed_changed_revert (original_bundle_account t) t b'). }
      split; [done|]. split; [exact Hset|]. split; [by symmetry|reflexivity].
Qed.

(** One step of the loop. *)
Lemma apply_transition_correct bs a t :
  bundle_inv D bs -> transition_from (D a) (bs_state bs !! a) t ->
  exists r bs', apply_transition bs a t = Some (r, bs') /\
    bundle_inv D bs' /\ bs_reverts bs' = bs_reverts bs /\ bs_reverts_size bs' = bs_reverts_size bs /\
    (forall a', a' <> a -> bs_state bs' !! a' = bs_state bs !! a') /\
    started (D a) (bs_state bs' !! a) (ta_info t) (ta_status t) /\
    world_equiv (bundle_world D bs' a) (transition_world (bundle_world D bs a) t) /\
    match r with
    | Some r => exists b2, bs_state bs' !! a = Some b2 /\ undoes (D a) (bundle_world D bs a) b2 r
    | None => world_equiv (bundle_world D bs' a) (bundle_world D bs a)
    end.
Proof.
  intros Hinv Hf. destruct (apply_account_correct (D a) (bs_state bs !! a) t) as (r & b' & E & Hok & Hset & Hw & Hr);
    [done|apply Hinv|done|].
  unfold apply_transition.
  set (bs1 := match TransitionAccount_has_new_contract t with Some _ => _ | None => _ end).
  assert (Hst : bs_state bs1 = bs_state bs) by (unfold bs1; by repeat case_match).
  assert (Hre : bs_reverts bs1 = bs_reverts bs /\ bs_reverts_size bs1 = bs_reverts_size bs)
    by (unfold bs1; by repeat case_match).
  destruct Hre as [Hre1 Hre2]. clearbody bs1. unfold bundle_world in *. rewrite Hst.
  assert (Hins : forall b n, bundle_ok (D a) (Some b) ->
    bundle_inv D (with_bs_state (<[a:=b]> (bs_state bs)) n bs1)).
  { intros b n Hb a'. cbn. destruct (decide (a' = a)) as [->|].
    - by rewrite lookup_insert_eq.
    - rewrite lookup_insert_ne by done. apply Hinv. }
  destruct (bs_state bs !! a) as [b|] eqn:Eb; cbn in *.
  - rewrite E. eexists _, _; split; [reflexivity|]. cbn. rewrite lookup_insert_eq.
    do 3 (split; [by auto|]). split; [intros a' Ha; by rewrite lookup_insert_ne|].
    do 2 (split; [by auto|]). destruct r; [|done]. by eexists.
  - destruct (TransitionAccount_create_revert t) as [[r'|]|]; simplify_eq/=.
    + eexists _, _; split; [reflexivity|]. cbn. rewrite lookup_insert_eq.
      do 3 (split; [by auto|]). split; [intros a' Ha; by rewrite lookup_insert_ne|].
      do 2 (split; [by auto|]). by eexists.
    + eexists _, _; split; [reflexivity|]. rewrite Hst, Eb. cbn.
      split; [intros a'; rewrite Hst; apply Hinv|]. by auto 10.
Qed.

(** The reverts [rs] take the bundle [bs'] back to the worlds of [bs]. *)
Definition reverts_to (bs bs' : BundleState) (rs : list (Z * AccountRevert)) : Prop :=
  NoDup rs.*1 /\
  forall a, match (list_to_map rs : gmap Z AccountRevert) !! a with
    | Some r => exists b2, bs_state bs' !! a = Some b2 /\ undoes (D a) (bundle_world D bs a) b2 r
    | None => world_equiv (bundle_world D bs' a) (bundle_world D bs a)
    end.

(** The loop over the transitions of a block. *)
Lemma apply_loop_correct inc l : forall bs acc,
  bundle_inv D bs -> transitions_ok D bs l ->
  exists bs' rs n,
    apply_transitions_loop inc l bs acc
      = Some (with_bs_reverts (bs_reverts bs ++ [acc ++ rs]) n bs') /\
    bundle_inv D bs' /\ (forall a, a ∉ l.*1 -> bs_state bs' !! a = bs_state bs !! a) /\
    (forall a t, (a, t) ∈ l ->
       world_equiv (bundle_world D bs' a) (transition_world (bundle_world D bs a) t) /\
       started (D a) (bs_state bs' !! a) (ta_info t) (ta_status t)) /\
    (inc = true -> reverts_to bs bs' rs /\ rs.*1 ⊆ l.*1).
Proof.
  induction l as [|[a t] l IH]; intros bs acc Hinv [Hnd Hl].
  { exists bs, [], (bs_reverts_size bs). rewrite app_nil_r. split_and!; auto.
    - intros ? ? []%not_elem_of_nil.
    - intros _. split; [|done]. split; [constructor|]. intros a. by rewrite list_to_map_nil, lookup_empty. }
  apply NoDup_cons in Hnd as [Ha Hnd].
  destruct (apply_transition_correct bs a t) as (r & bs1 & E & Hinv1 & Hre & Hrs & Hoth & Hset & Hw & Hr);
    [done|apply Hl; by left|].
  cbn. rewrite E.
  set (bs2 := match r with
    | Some r' => if inc then with_bs_reverts (bs_reverts bs1)
        (wrapping_add 64 (bs_reverts_size bs1) (AccountRevert_size_hint r')) bs1 else bs1
    | None => bs1 end).
  set (acc2 := match r with Some r' => if inc then acc ++ [(a, r')] else acc | None => acc end).
  assert (Hst : bs_state bs2 = bs_state bs1) by (unfold bs2; by repeat case_match).
  assert (Hre2 : bs_reverts bs2 = bs_reverts bs) by (unfold bs2; by repeat case_match).
  destruct (IH bs2 acc2) as (bs' & rs & n & El & Hinv' & Hoth' & Hw' & Hback).
  { intros a'. rewrite Hst. apply Hinv1. }
  { split; [done|]. intros a' t' Hin. rewrite Hst, Hoth; [apply Hl; by right|].
    intros ->. apply Ha. apply list_elem_of_fmap. by exists (a, t'). }
  assert (Ea' : bs_state bs' !! a = bs_state bs1 !! a) by (rewrite Hoth', Hst; done).
  assert (Hother : forall a', a' <> a -> bundle_world D bs2 a' = bundle_world D bs a').
  { intros a' Hne. unfold bundle_world. by rewrite Hst, Hoth. }
  set (rs' := match r with Some r' => if inc then (a, r') :: rs else rs | None => rs end).
  exists bs', rs', n. split_and!; [|done|..].
  - rewrite <- Hre2. replace (acc ++ rs') with (acc2 ++ rs).
    { rewrite <- El. unfold bs2, acc2. by repeat case_match. }
    unfold acc2, rs'. repeat case_match; by rewrite <- ?(assoc_L (++)).
  - intros a' Hni. cbn in Hni. apply not_elem_of_cons in Hni as [? ?].
    rewrite Hoth', Hst by done. auto.
  - intros a' t' [Heq|Hin]%elem_of_cons.
    + simplify_eq. unfold bundle_world at 1. by rewrite Ea'.
    + rewrite <- Hother; [by apply Hw'|]. intros ->. apply Ha. apply list_elem_of_fmap. by exists (a, t').
  - intros ->. destruct (Hback eq_refl) as [[Hnd' Hr'] Hsub].
    assert (Hanr : a ∉ rs.*1) by set_solver.
    split; [|unfold rs'; destruct r; set_solver].
    split; [unfold rs'; destruct r; [by constructor|done]|].
    intros a'. destruct (decide (a' = a)) as [->|Hne].
    + unfold rs'. destruct r as [r'|].
      * rewrite list_to_map_cons, lookup_insert_eq, Ea'. done.
      * rewrite (not_elem_of_list_to_map_1 rs a) by done. unfold bundle_world at 1. by rewrite Ea'.
    + specialize (Hr' a'). rewrite Hother in Hr' by done. unfold rs'. destruct r as [r'|]; [|done].
      by rewrite list_to_map_cons, lookup_insert_ne by done.
Qed.
End Apply.

(** * Reverting *)

Lemma revert_one_state bs a r :
  bs_state (revert_one bs (a, r))
  = partial_alter (fun b => revert_account (default vacant_account b) r) a (bs_state bs).
Proof.
  unfold revert_one, revert_account. apply map_eq. intros a'.
  destruct (decide (a' = a)) as [->|Hne].
  - rewrite lookup_partial_alter_eq. cbn.
    destruct (bs_state bs !! a) as [b|] eqn:E; cbn; destruct (BundleAccount_revert _ r) as [[] b'] eqn:Er;
      cbn; rewrite ?lookup_delete_eq, ?lookup_insert_eq; done.
  - rewrite lookup_partial_alter_ne by done. cbn.
    destruct (bs_state bs !! a) as [b|] eqn:E; cbn; destruct (BundleAccount_revert _ r) as [[] b'] eqn:Er;
      cbn; rewrite ?lookup_delete_ne, ?lookup_insert_ne by done; done.
Qed.

Lemma revert_one_reverts bs x : bs_reverts (revert_one bs x) = bs_reverts bs.
Proof. destruct x as [a r]. unfold revert_one. repeat case_match; done. Qed.

Lemma fold_revert_reverts rs : forall bs, bs_reverts (fold_left revert_one rs bs) = bs_reverts bs.
Proof. induction rs as [|x rs IH]; intros bs; [done|]. cbn. by rewrite IH, revert_one_reverts. Qed.

Lemma fold_revert_lookup rs : forall bs a,
  NoDup rs.*1 ->
  bs_state (fold_left revert_one rs bs) !! a
  = match (list_to_map rs : gmap Z AccountRevert) !! a with
    | Some r => revert_account (default vacant_account (bs_state bs !! a)) r
    | None => bs_state bs !! a
    end.
Proof.
  induction rs as [|[a' r] rs IH]; intros bs a Hnd; [done|].
  apply NoDup_cons in Hnd as [Hni Hnd]. cbn [fold_left]. rewrite IH by done.
  rewrite revert_one_state, list_to_map_cons. destruct (decide (a = a')) as [->|Hne].
  - rewrite lookup_insert_eq, lookup_partial_alter_eq. by rewrite not_elem_of_list_to_map_1.
  - by rewrite lookup_insert_ne, lookup_partial_alter_ne by done.
Qed.

Lemma pop_reverts_app (l : list (list (Z * AccountRevert))) x : pop_reverts (l ++ [x]) = Some (x, l).
Proof. unfold pop_reverts. by rewrite reverse_snoc, reverse_involutive. Qed.

Section Revert.
Context `{BitVec}.

(** Applying a block and reverting it, for any order of the accounts. *)
Lemma revert_latest_restores_loop D bs l :
  db_ok D -> bundle_inv D bs -> transitions_ok D bs l ->
  exists bs', apply_transitions_loop true l bs [] = Some bs' /\
    (forall a t, (a, t) ∈ l ->
       world_equiv (bundle_world D bs' a) (transition_world (bundle_world D bs a) t)) /\
    (forall a, a ∉ l.*1 -> bs_state bs' !! a = bs_state bs !! a) /\
    let '(reverted, bs'') := BundleState_revert_latest bs' in
    reverted = true /\ bs_reverts bs'' = bs_reverts bs /\ bundle_inv D bs'' /\
    forall a, world_equiv (bundle_world D bs'' a) (bundle_world D bs a).
Proof.
  intros HD Hinv Hl.
  destruct (apply_loop_correct D HD true l bs [] Hinv Hl)
    as (bs' & rs & n & E & Hinv' & Hoth & Hw & Hback).
  destruct (Hback eq_refl) as [[Hnd Hr] _].
  eexists; split; [exact E|]. split_and!; [intros a t Hin; by apply Hw|exact Hoth|].
  unfold BundleState_revert_latest. cbn [bs_reverts with_bs_reverts]. rewrite pop_reverts_app.
  split; [done|]. rewrite fold_revert_reverts. split; [done|].
  assert (Hlk : forall a, bundle_ok (D a) (bs_state (fold_left revert_one rs
      (with_bs_reverts (bs_reverts bs) n bs')) !! a) /\
    world_equiv (bundle_view (D a) (bs_state (fold_left revert_one rs
      (with_bs_reverts (bs_reverts bs) n bs')) !! a)) (bundle_world D bs a)).
  { intros a. rewrite fold_revert_lookup by done. cbn. specialize (Hr a).
    destruct (list_to_map rs !! a) as [r|].
    - destruct Hr as (b2 & -> & Hu1 & Hu2). done.
    - split; [apply Hinv'|exact Hr]. }
  split; intros a; apply Hlk.
Qed.
End Revert.

(** C12: Reverting a block brings the bundle back.  For every block whose
    transitions start where the bundle is, applying it (in any order of its
    accounts) does not panic, gives each account of the block the world of its
    transition and leaves the others; then [revert_latest] succeeds, pops exactly
    the revert of that block, and every account has the info and every slot the
    value it had before, whether the block created, changed, destroyed or
    recreated it. *)
Theorem bundle_revert_latest_restores `{BitVec} D bs ts l :
  db_ok D -> bundle_inv D bs -> l ≡ₚ map_to_list ts ->
  (forall a t, ts !! a = Some t -> transition_from (D a) (bs_state bs !! a) t) ->
  exists bs', apply_transitions_loop true l bs [] = Some bs' /\
    (forall a, world_equiv (bundle_world D bs' a)
       (match ts !! a with
        | Some t => transition_world (bundle_world D bs a) t
        | None => bundle_world D bs a
        end)) /\
    let '(reverted, bs'') := BundleState_revert_latest bs' in
    reverted = true /\ bs_reverts bs'' = bs_reverts bs /\ bundle_inv D bs'' /\
    forall a, world_equiv (bundle_world D bs'' a) (bundle_world D bs a).
Proof.
  intros HD Hinv Hl Hts.
  destruct (revert_latest_restores_loop D bs l) as (bs' & E & Hw & Hoth & Hrev); [done|done| |].
  { split; [rewrite Hl; apply NoDup_fst_map_to_list|].
    intros a t Hin. apply Hts. apply elem_of_map_to_list. by rewrite <- Hl. }
  exists bs'. split_and!; [done| |done]. intros a. destruct (ts !! a) as [t|] eqn:Et.
  - apply Hw. rewrite Hl. by apply elem_of_map_to_list.
  - unfold bundle_world. rewrite Hoth; [reflexivity|]. rewrite Hl.
    intros ([? ?] & -> & Hin%elem_of_map_to_list)%list_elem_of_fmap. cbn in *. congruence.
Qed.

(** * Sizes

    The two counters of a bundle are the numbers of entries a database would
    have to store, modulo the width of [usize]. *)

Definition state_total (m : gmap Z BundleAccount) : Z :=
  map_fold (fun _ b acc => BundleAccount_size_hint b + acc) 0 m.
Definition reverts_total (l : list (Z * AccountRevert)) : Z :=
  foldr (fun r acc => AccountRevert_size_hint r.2 + acc) 0 l.

#[local] Arguments state_total : simpl never.
#[local] Arguments reverts_total : simpl never.
Lemma reverts_total_cons x l : reverts_total (x :: l) = AccountRevert_size_hint x.2 + reverts_total l.
Proof. done. Qed.
Lemma reverts_total_nil : reverts_total [] = 0.
Proof. done. Qed.

Definition sizes_ok (bs : BundleState) : Prop :=
  bs_state_size bs = wrap 64 (state_total (bs_state bs)) /\
  bs_reverts_size bs = wrap 64 (reverts_total (concat (bs_reverts bs))).

Lemma state_total_insert m a b :
  state_total (<[a := b]> m)
  = state_total m - default 0 (BundleAccount_size_hint <$> m !! a) + BundleAccount_size_hint b.
Proof.
  assert (Hfresh : forall m b, m !! a = None ->
    state_total (<[a := b]> m) = state_total m + BundleAccount_size_hint b).
  { intros m' b' Hn. unfold state_total. rewrite map_fold_insert_L by (auto; intros; lia). lia. }
  destruct (m !! a) as [b0|] eqn:E; cbn; [|rewrite Hfresh by done; lia].
  rewrite <- (insert_delete_id m a b0) at 2 by done. rewrite <- (insert_delete_eq m a b).
  rewrite !Hfresh by apply lookup_delete_eq. lia.
Qed.

Lemma state_total_delete m a :
  state_total (delete a m) = state_total m - default 0 (BundleAccount_size_hint <$> m !! a).
Proof.
  destruct (m !! a) as [b|] eqn:E; cbn; [|by rewrite delete_id, Z.sub_0_r].
  rewrite <- (insert_delete_id m a b) at 2 by done.
  rewrite state_total_insert, lookup_delete_eq. cbn. lia.
Qed.

Lemma wrapping_add_wrap w x y : 0 <= w -> wrapping_add w (wrap w x) y = wrap w (x + y).
Proof. intros. apply Zplus_mod_idemp_l. Qed.
Lemma wrapping_sub_wrap w x y : 0 <= w -> wrapping_sub w (wrap w x) y = wrap w (x - y).
Proof. intros. apply Zminus_mod_idemp_l. Qed.

Ltac wraps := rewrite ?wrapping_sub_wrap, ?wrapping_add_wrap by lia; f_equal.

Lemma reverts_total_app l1 l2 : reverts_total (l1 ++ l2) = reverts_total l1 + reverts_total l2.
Proof. induction l1 as [|x l1 IH]; cbn [app]; [done|]. rewrite !reverts_total_cons, IH. lia. Qed.

Lemma fold_add_revert_size l : forall n, fold_left add_revert_size l (wrap 64 n) = wrap 64 (n + reverts_total l).
Proof.
  induction l as [|x l IH]; intros n; cbn; [by rewrite reverts_total_nil, Z.add_0_r|].
  unfold add_revert_size at 2. rewrite wrapping_add_wrap, IH, reverts_total_cons by lia. f_equal. lia.
Qed.

Section Sizes.
Context `{BitVec}.

Lemma apply_transition_size bs a t r bs' :
  bs_state_size bs = wrap 64 (state_total (bs_state bs)) -> apply_transition bs a t = Some (r, bs') ->
  bs_state_size bs' = wrap 64 (state_total (bs_state bs')) /\
  bs_reverts bs' = bs_reverts bs /\ bs_reverts_size bs' = bs_reverts_size bs.
Proof.
  unfold apply_transition.
  set (bs1 := match TransitionAccount_has_new_contract t with Some _ => _ | None => _ end).
  assert (Hst : bs_state bs1 = bs_state bs /\ bs_state_size bs1 = bs_state_size bs /\
    bs_reverts bs1 = bs_reverts bs /\ bs_reverts_size bs1 = bs_reverts_size bs)
    by (unfold bs1; by repeat case_match).
  clearbody bs1. destruct Hst as (E1 & E2 & E3 & E4). rewrite E1, E2. intros Hsz.
  destruct (bs_state bs !! a) as [b|] eqn:Eb; intros Happ.
  - destruct (update_and_create_revert b t) as [[r' b']|]; simplify_eq/=. split_and!; auto.
    rewrite Hsz, state_total_insert, Eb. wraps. 
  - destruct (TransitionAccount_create_revert t) as [[r'|]|]; simplify_eq/=; split_and!; auto.
    + rewrite Hsz, state_total_insert, Eb. wraps. cbn. lia.
    + by rewrite E2, E1.
Qed.

Lemma apply_loop_sizes inc l : forall bs acc bs',
  bs_state_size bs = wrap 64 (state_total (bs_state bs)) ->
  bs_reverts_size bs = wrap 64 (reverts_total (concat (bs_reverts bs)) + reverts_total acc) ->
  apply_transitions_loop inc l bs acc = Some bs' -> sizes_ok bs'.
Proof.
  induction l as [|[a t] l IH]; intros bs acc bs' Hs Hr; cbn.
  - intros [= <-]. split; [done|]. cbn. rewrite Hr, concat_app, reverts_total_app. cbn.
    by rewrite app_nil_r.
  - destruct (apply_transition bs a t) as [[r bs1]|] eqn:E; [|done].
    destruct (apply_transition_size _ _ _ _ _ Hs E) as (Hs1 & Er & Hr1).
    destruct r as [r|]; [destruct inc|]; intros El; eapply IH; try exact El; auto; try congruence.
    cbn. rewrite Hr1, Er, Hr, reverts_total_app, reverts_total_cons, reverts_total_nil. wraps. cbn. lia.
Qed.

Lemma extend_state_account_sizes bs x : sizes_ok bs -> sizes_ok (extend_state_account bs x).
Proof.
  intros [Hs Hr]. destruct x as [a b]. unfold extend_state_account.
  destruct (bs_state bs !! a) as [b0|] eqn:E; split; cbn; auto;
    rewrite Hs, state_total_insert, E; wraps; cbn; lia.
Qed.

Lemma revert_one_sizes bs a r n :
  bs_state_size bs = wrap 64 (state_total (bs_state bs)) ->
  bs_reverts_size bs = wrap 64 (AccountRevert_size_hint r + n) ->
  bs_state_size (revert_one bs (a, r)) = wrap 64 (state_total (bs_state (revert_one bs (a, r)))) /\
  bs_reverts_size (revert_one bs (a, r)) = wrap 64 n.
Proof.
  intros Hs Hr. unfold revert_one. cbn [bs_state with_bs_reverts].
  destruct (bs_state bs !! a) as [b|] eqn:E; destruct (BundleAccount_revert _ r) as [[] b'];
    cbn; rewrite Hr; (split; [|wraps; lia]); rewrite ?Hs, ?state_total_insert, ?state_total_delete, ?E;
    wraps; cbn; lia.
Qed.

Lemma fold_revert_sizes l : forall bs n,
  bs_state_size bs = wrap 64 (state_total (bs_state bs)) ->
  bs_reverts_size bs = wrap 64 (reverts_total l + n) ->
  let bs' := fold_left revert_one l bs in
  bs_state_size bs' = wrap 64 (state_total (bs_state bs')) /\ bs_reverts_size bs' = wrap 64 n.
Proof.
  induction l as [|[a r] l IH]; intros bs n Hs Hr; cbn; [done|].
  destruct (revert_one_sizes bs a r (reverts_total l + n)) as [Hs' Hr']; auto.
  rewrite Hr, reverts_total_cons. cbn. f_equal. lia.
Qed.

Lemma revert_latest_sizes bs : sizes_ok bs -> sizes_ok (BundleState_revert_latest bs).2.
Proof.
  intros [Hs Hr]. unfold BundleState_revert_latest, pop_reverts.
  destruct (reverse (bs_reverts bs)) as [|r rest] eqn:E; [done|].
  assert (Hb : bs_reverts bs = reverse rest ++ [r])
    by (rewrite <- (reverse_involutive (bs_reverts bs)), E; apply reverse_cons).
  cbn. destruct (fold_revert_sizes r (with_bs_reverts (reverse rest) (bs_reverts_size bs) bs)
    (reverts_total (concat (reverse rest)))) as [Hs' Hr']; [done| |].
  - cbn. rewrite Hr, Hb, concat_app, reverts_total_app. cbn. rewrite app_nil_r. f_equal. lia.
  - split; [done|]. by rewrite fold_revert_reverts.
Qed.

(** The size counters of a bundle are exact: if [state_size] and
    [reverts_size] are the sums of the sizes of the accounts and of the reverts,
    they are so again after the transitions of a block are applied, whatever
    order the accounts come in and whether or not reverts are kept, after the
    accounts of another bundle are merged in, after any number of reverts, and
    after reverts are taken off. *)
Theorem bundle_sizes_exact bs :
  sizes_ok bs ->
  (forall inc l bs', apply_transitions_loop inc l bs [] = Some bs' -> sizes_ok bs') /\
  (forall other, sizes_ok (BundleState_extend_state bs other)) /\
  (forall n, sizes_ok (BundleState_revert bs n)) /\
  (forall n, sizes_ok (BundleState_take_n_reverts bs n).2).
Proof.
  intros Hok. split_and!.
  - intros inc l bs' E. destruct Hok as [Hs Hr]. eapply apply_loop_sizes; eauto.
    by rewrite Hr, reverts_total_nil, Z.add_0_r.
  - intros other. unfold BundleState_extend_state. revert bs Hok.
    induction (map_to_list other) as [|x l IH]; intros bs Hok; cbn; auto using extend_state_account_sizes.
  - intros n. revert bs Hok. induction n as [|n IH]; intros bs Hok; cbn; [done|].
    pose proof (revert_latest_sizes bs Hok). destruct (BundleState_revert_latest bs) as [[] bs']; auto.
  - intros n. destruct Hok as [Hs Hr]. unfold BundleState_take_n_reverts.
    case_if; split; cbn; auto. change 0 with (wrap 64 0) at 1. by rewrite fold_add_revert_size.
Qed.
End Sizes.
