(* ===== verification/BundleChangeset.v ===== *)
(** Writing a bundle to the database it is a difference to, and joining two
    bundles: the changeset of [to_plain_state] turns the database into the world
    of the bundle, and [extend] composes the differences.  The examples at the
    end show where sizes and reverts go wrong. *)
From S2P Require Import Prelude Hardfork Bytecode State BundleAccount BundleAccountLaws BundleState BundleStateLaws.
From stdpp Require Import base numbers list option tactics gmap.
From Stdlib Require Import ZArith Lia Setoid.

Local Open Scope Z_scope.

(** * Association lists made from maps *)

Lemma fmap_concat {A B} (f : A -> B) (l : list (list A)) : fmap (M:=list) f (concat l) = concat (fmap (M:=list) (fmap (M:=list) f) l).
Proof. induction l as [|x l IH]; [done|]. by rewrite concat_cons, fmap_app, IH. Qed.

(** A loop that emits at most one entry for each account. *)
Lemma lookup_concat_pairs {A B} (f : Z * A -> list (Z * B)) (g : Z -> A -> option B) :
  (forall a x, f (a, x) = match g a x with Some y => [(a, y)] | None => [] end) ->
  forall (l : list (Z * A)) a, NoDup l.*1 ->
  (list_to_map (concat (f <$> l)) : gmap Z B) !! a = (list_to_map l : gmap Z A) !! a ≫= g a.
Proof.
  intros Hf. induction l as [|[a0 x] l IH]; intros a Hnd.
  { by rewrite list_to_map_nil, lookup_empty. }
  apply NoDup_cons in Hnd as [Hni Hnd]. rewrite fmap_cons, concat_cons, Hf, list_to_map_cons.
  destruct (decide (a = a0)) as [->|Hne].
  - rewrite lookup_insert_eq. cbn. destruct (g a0 x) as [y|] eqn:E; cbn.
    + by rewrite lookup_insert_eq.
    + rewrite IH by done. by rewrite not_elem_of_list_to_map_1.
  - rewrite lookup_insert_ne by done. destruct (g a0 x) as [y|]; cbn; [|by apply IH].
    rewrite lookup_insert_ne by done. by apply IH.
Qed.

Lemma lookup_concat_map {A B} (f : Z * A -> list (Z * B)) (g : Z -> A -> option B) (m : gmap Z A) a :
  (forall a x, f (a, x) = match g a x with Some y => [(a, y)] | None => [] end) ->
  (list_to_map (concat (f <$> map_to_list m)) : gmap Z B) !! a = m !! a ≫= g a.
Proof.
  intros Hf. rewrite (lookup_concat_pairs f g); [|done|apply NoDup_fst_map_to_list].
  by rewrite list_to_map_to_list.
Qed.

(** * Changesets *)

(** Writing a changeset to a database: the infos it lists, and for each account
    with storage, the slots over what a wipe leaves. *)
Definition storage_changeset (cs : StateChangeset) (a : Z) : option PlainStorageChangeset :=
  (list_to_map ((fun c => (psc_address c, c)) <$> cs_storage cs) : gmap Z PlainStorageChangeset) !! a.
Definition apply_changeset (cs : StateChangeset) (D : World) : World := fun a =>
  mkAccountWorld
    (default (w_info (D a)) ((list_to_map (cs_accounts cs) : gmap Z (option AccountInfo)) !! a))
    (fun k =>
       match storage_changeset cs a with
       | None => w_storage (D a) k
       | Some c =>
           match (list_to_map (psc_storage c) : gmap Z Z) !! k with
           | Some v => v
           | None => if psc_wipe_storage c then 0 else w_storage (D a) k
           end
       end).

(** The original values of the slots are those of the database. *)
Definition originals_ok (d : AccountWorld) (b : BundleAccount) : Prop :=
  was_destroyed (ba_status b) = false ->
  forall k s, ba_storage b !! k = Some s -> previous_or_original_value s = w_storage d k.

Lemma cs_accounts_lookup bs known a :
  (list_to_map (cs_accounts (BundleState_to_plain_state bs known)) : gmap Z (option AccountInfo)) !! a
  = b ← bs_state bs !! a;
    if is_not_known known || BundleAccount_is_info_changed b
    then Some (AccountInfo_copy_without_code <$> ba_info b) else None.
Proof.
  unfold BundleState_to_plain_state; cbn.
  rewrite (lookup_concat_map _ (fun a b =>
    if is_not_known known || BundleAccount_is_info_changed b
    then Some (AccountInfo_copy_without_code <$> ba_info b) else None)); [done|].
  intros a' b. unfold account_changes; cbn. by case_if.
Qed.

Definition changed_list (known : OriginalValuesKnown) (b : BundleAccount) : list (Z * Z) :=
  concat (slot_to_plain known (BundleAccount_was_destroyed b) <$> map_to_list (ba_storage b)).

Lemma cs_storage_lookup bs known a :
  storage_changeset (BundleState_to_plain_state bs known) a
  = b ← bs_state bs !! a;
    if negb (bool_decide (changed_list known b = [])) || BundleAccount_was_destroyed b
    then Some (mkPlainStorageChangeset a (BundleAccount_was_destroyed b) (changed_list known b))
    else None.
Proof.
  unfold storage_changeset, BundleState_to_plain_state; cbn.
  rewrite fmap_concat, <- list_fmap_compose.
  rewrite (lookup_concat_map _ (fun a b =>
    if negb (bool_decide (changed_list known b = [])) || BundleAccount_was_destroyed b
    then Some (mkPlainStorageChangeset a (BundleAccount_was_destroyed b) (changed_list known b))
    else None)); [done|].
  intros a' b. unfold storage_changes, changed_list; cbn. by case_if.
Qed.

Lemma changed_list_lookup known b k :
  (list_to_map (changed_list known b) : gmap Z Z) !! k
  = s ← ba_storage b !! k;
    if is_not_known known || BundleAccount_was_destroyed b && negb (slot_present_value s =? 0)
       || negb (BundleAccount_was_destroyed b) && StorageSlot_is_changed s
    then Some (slot_present_value s) else None.
Proof.
  unfold changed_list. rewrite (lookup_concat_map _ (fun k s =>
    if is_not_known known || BundleAccount_was_destroyed b && negb (slot_present_value s =? 0)
       || negb (BundleAccount_was_destroyed b) && StorageSlot_is_changed s
    then Some (slot_present_value s) else None)); [done|].
  intros k' s. unfold slot_to_plain; cbn. by case_if.
Qed.

Lemma copy_without_code_equiv i : info_equiv (AccountInfo_copy_without_code <$> i) i.
Proof. destruct i as [i|]; [|done]. unfold info_equiv; cbn. by apply AccountInfo_eq_spec. Qed.

(** C28: Writing a bundle to its database gives the world of the bundle: after
    the changeset of [to_plain_state] is applied, every account has the info and
    every slot the value the bundle says, with wiped storage gone.  With
    [OriginalValuesKnown::No] this needs only a well-formed bundle; with [Yes],
    where unchanged values are left out, the original values the bundle keeps
    must be those of the database. *)
Theorem to_plain_state_correct D bs known a :
  bundle_inv D bs ->
  (known = ValuesKnownYes -> forall b, bs_state bs !! a = Some b -> originals_ok (D a) b) ->
  world_equiv (apply_changeset (BundleState_to_plain_state bs known) D a) (bundle_world D bs a).
Proof.
  intros Hinv Horig. specialize (Hinv a). unfold apply_changeset, bundle_world.
  rewrite cs_accounts_lookup, cs_storage_lookup.
  destruct (bs_state bs !! a) as [b|] eqn:E; [|by split].
  destruct Hinv as [[Ho Hk Hg He Hn Hl] _]. split; cbn.
  - destruct (is_not_known known || BundleAccount_is_info_changed b) eqn:Ec; cbn.
    + apply copy_without_code_equiv.
    + apply orb_false_iff in Ec as [_ Ec]. unfold BundleAccount_is_info_changed in Ec.
      apply negb_false_iff in Ec. etrans; [symmetry; exact Ho|]. symmetry. exact Ec.
  - intros k. assert (Hun : was_destroyed (ba_status b) = false ->
      unlisted (D a) (ba_status b) k = w_storage (D a) k).
    { intros Hd. unfold unlisted. destruct (is_storage_known (ba_status b)) eqn:Ek; [|done].
      symmetry. auto. }
    assert (Hsl : match (list_to_map (changed_list known b) : gmap Z Z) !! k with
        | Some v => v
        | None => if BundleAccount_was_destroyed b then 0 else w_storage (D a) k
        end = slot_view (unlisted (D a) (ba_status b)) (ba_storage b) k).
    { rewrite changed_list_lookup. unfold slot_view, BundleAccount_was_destroyed in *.
      destruct (ba_storage b !! k) as [s|] eqn:Es; cbn.
      - destruct (was_destroyed (ba_status b)) eqn:Ed, known; cbn; try done.
        + destruct (Z.eqb_spec (slot_present_value s) 0); done.
        + destruct (StorageSlot_is_changed s) eqn:Ech; cbn; [done|].
          apply slot_is_changed_false in Ech. rewrite <- Ech. symmetry. by eapply Horig.
      - destruct (was_destroyed (ba_status b)) eqn:Ed; [|by rewrite Hun].
        by destruct (ba_status b). }
    destruct (negb (bool_decide (changed_list known b = [])) || BundleAccount_was_destroyed b) eqn:Ec; cbn;
      [exact Hsl|].
    apply orb_false_iff in Ec as [El Ed]. apply negb_false_iff, bool_decide_eq_true in El.
    rewrite El, Ed, list_to_map_nil, lookup_empty in Hsl. exact Hsl.
Qed.

(** * Extending *)

(** Extending an account by one that was built on top of it. *)
Lemma extend_account_world d this other :
  account_ok d this -> account_ok (account_view d this) other ->
  world_equiv (account_view d (extend_account this other)) (account_view (account_view d this) other).
Proof.
  intros [_ Hk1 _ _ _ _] [_ Hk2 _ _ _ _].
  destruct this as [i1 o1 s1 st1], other as [i2 o2 s2 st2]. split; [done|]. intros k.
  cbn in *. unfold status_transition, BundleAccount_was_destroyed in *.
  destruct st1, st2; cbn in *; try rewrite decide_True by done; try rewrite decide_False by done;
    try specialize (Hk1 eq_refl eq_refl k); try specialize (Hk2 eq_refl eq_refl k);
    unfold slot_view, extend_storage, unlisted in *; cbn in *;
    rewrite ?lookup_union_with; unfold slot_view, unlisted; cbn;
    destruct (s1 !! k) eqn:E1, (s2 !! k) eqn:E2; cbn; try rewrite E1 in *; auto; try congruence.
Qed.

(** The state part of [extend] when the storage of [this] was drained. *)
Lemma extend_account_drained this other :
  was_destroyed (ba_status other) = true ->
  extend_account (mkBundleAccount (ba_info this) (ba_original_info this) ∅ (ba_status this)) other
  = extend_account this other.
Proof. intros Hd. unfold extend_account, BundleAccount_was_destroyed. by rewrite Hd. Qed.

Lemma fold_extend_lookup l : forall bs a,
  NoDup l.*1 ->
  bs_state (fold_left extend_state_account l bs) !! a
  = match (list_to_map l : gmap Z BundleAccount) !! a with
    | Some o => Some (match bs_state bs !! a with Some this => extend_account this o | None => o end)
    | None => bs_state bs !! a
    end.
Proof.
  induction l as [|[a0 o] l IH]; intros bs a Hnd; [done|].
  apply NoDup_cons in Hnd as [Hni Hnd]. cbn [fold_left]. rewrite IH, list_to_map_cons by done.
  assert (Hst : bs_state (extend_state_account bs (a0, o))
    = <[a0 := match bs_state bs !! a0 with Some this => extend_account this o | None => o end]> (bs_state bs)).
  { unfold extend_state_account. by destruct (bs_state bs !! a0). }
  rewrite Hst. destruct (decide (a = a0)) as [->|Hne].
  - by rewrite not_elem_of_list_to_map_1, !lookup_insert_eq.
  - by rewrite !lookup_insert_ne by done.
Qed.

(** Every wiping revert of a bundle belongs to an account it destroyed. *)
Definition wipes_destroyed (bs : BundleState) : Prop :=
  forall a r, (a, r) ∈ concat (bs_reverts bs) -> ar_wipe_storage r = true ->
  exists b, bs_state bs !! a = Some b /\ was_destroyed (ba_status b) = true.

(** The accounts the loop over the reverts leaves: drained if a revert wipes. *)
Definition drained_from (bs bs' : BundleState) (wiped : Z -> Prop) : Prop :=
  forall a, bs_state bs' !! a = bs_state bs !! a \/
    (wiped a /\ exists b, bs_state bs !! a = Some b /\
     bs_state bs' !! a = Some (mkBundleAccount (ba_info b) (ba_original_info b) ∅ (ba_status b))).

Lemma drained_from_trans bs1 bs2 bs3 P :
  drained_from bs1 bs2 P -> drained_from bs2 bs3 P -> drained_from bs1 bs3 P.
Proof.
  intros H12 H23 a. destruct (H23 a) as [->|(Hw & b & E & E')]; [apply H12|].
  right. split; [done|]. destruct (H12 a) as [<-|(_ & b0 & E0 & E0')]; [by exists b|].
  exists b0. split; [done|]. rewrite E0' in E. by simplify_eq/=.
Qed.

Lemma extend_revert_drained bs a r (P : Z -> Prop) :
  (ar_wipe_storage r = true -> P a) -> drained_from bs (extend_revert bs a r).1 P.
Proof.
  intros HP a'. unfold extend_revert. destruct (ar_wipe_storage r) eqn:Ew; [|by left].
  destruct (bs_state bs !! a) as [b|] eqn:E; [|by left]. cbn.
  destruct (decide (a' = a)) as [->|Hne]; [|left; by rewrite lookup_insert_ne].
  right. split; [auto|]. exists b. by rewrite lookup_insert_eq.
Qed.

Lemma extend_block_drained rs : forall bs (P : Z -> Prop),
  (forall a r, (a, r) ∈ rs -> ar_wipe_storage r = true -> P a) ->
  drained_from bs (extend_block_reverts bs rs).1 P.
Proof.
  induction rs as [|[a r] rs IH]; intros bs P HP; [by left|]. cbn.
  pose proof (extend_revert_drained bs a r P (HP a r ltac:(by left))) as H1.
  destruct (extend_revert bs a r) as [bs1 r1].
  assert (H2 : drained_from bs1 (extend_block_reverts bs1 rs).1 P).
  { apply IH. intros. eapply HP; [right; eauto|done]. }
  destruct (extend_block_reverts bs1 rs) as [bs2 rs2]. cbn in *. by eapply drained_from_trans.
Qed.

Lemma extend_reverts_drained rss : forall bs (P : Z -> Prop),
  (forall a r, (a, r) ∈ concat rss -> ar_wipe_storage r = true -> P a) ->
  drained_from bs (extend_reverts bs rss).1 P.
Proof.
  induction rss as [|rs rss IH]; intros bs P HP; [by left|]. cbn in *.
  assert (H1 : drained_from bs (extend_block_reverts bs rs).1 P).
  { apply extend_block_drained. intros. eapply HP; [apply elem_of_app; eauto|done]. }
  destruct (extend_block_reverts bs rs) as [bs1 rs1].
  assert (H2 : drained_from bs1 (extend_reverts bs1 rss).1 P).
  { apply IH. intros. eapply HP; [apply elem_of_app; eauto|done]. }
  destruct (extend_reverts bs1 rss) as [bs2 rs2]. cbn in *. by eapply drained_from_trans.
Qed.

(** C29: Extending a bundle composes the differences: if [other] was built on
    top of the world of [this], the bundle [this.extend(other)] gives over the
    database the world that [other] gives over [this], although the loop over the
    reverts drains storage on the way.  Both bundles satisfy the invariant of bundles
    ([bundle_inv]), and every revert of [other] that wipes storage belongs to an
    account that [other] has destroyed ([wipes_destroyed]), as in a bundle built by
    updates. *)
Theorem extend_correct D this other a :
  bundle_inv D this -> bundle_inv (bundle_world D this) other -> wipes_destroyed other ->
  world_equiv (bundle_world D (BundleState_extend this other) a)
              (bundle_world (bundle_world D this) other a).
Proof.
  intros H1 H2 Hw. unfold BundleState_extend.
  pose proof (extend_reverts_drained (bs_reverts other) this
    (fun a => exists b, bs_state other !! a = Some b /\ was_destroyed (ba_status b) = true)) as Hd.
  destruct (extend_reverts this (bs_reverts other)) as [this' rs]. cbn in Hd.
  specialize (Hd Hw a). unfold bundle_world at 1, BundleState_extend_state. cbn.
  rewrite fold_extend_lookup by apply NoDup_fst_map_to_list.
  rewrite list_to_map_to_list. specialize (H1 a). specialize (H2 a). unfold bundle_world in *.
  destruct (bs_state other !! a) as [o|] eqn:Eo; cbn in *.
  - destruct Hd as [->|((b & Eb & Hde) & b0 & E0 & ->)].
    + destruct (bs_state this !! a) as [t|]; cbn in *; [|reflexivity].
      apply extend_account_world; [apply H1|apply H2].
    + simplify_eq. rewrite E0 in *. cbn in *. rewrite extend_account_drained by done.
      apply extend_account_world; [apply H1|apply H2].
  - destruct Hd as [->|((b & Eb & _) & _)]; [reflexivity|congruence].
Qed.

(** * Where it goes wrong

    One account, which the database holds with the value 7 in its slot 2. *)
Module BundleExample.
#[local] Existing Instance Lsb0BitVec.

Definition alive (n : Z) : AccountInfo := mkAccountInfo 100 n KECCAK_EMPTY None None.
Definition database : World := fun a =>
  if a =? 1 then mkAccountWorld (Some (alive 1)) (fun k => if k =? 2 then 7 else 0)
  else mkAccountWorld None (fun _ => 0).

(** A block that destroys the account, one that brings it back and writes slot
    2, one that does both, and one that changes slot 3 of the loaded account. *)
Definition destroy : TransitionAccount :=
  mkTransitionAccount None Destroyed (Some (alive 1)) Loaded ∅ true.
Definition recreate : TransitionAccount :=
  mkTransitionAccount (Some (alive 5)) DestroyedChanged None Destroyed {[2 := mkStorageSlot 0 9]} false.
Definition replace : TransitionAccount :=
  mkTransitionAccount (Some (alive 5)) DestroyedChanged (Some (alive 1)) Loaded {[3 := mkStorageSlot 0 9]} true.
Definition change : TransitionAccount :=
  mkTransitionAccount (Some (alive 6)) Changed (Some (alive 5)) Loaded {[3 := mkStorageSlot 9 10]} false.

Definition block (bs : BundleState) (t : TransitionAccount) : option BundleState :=
  apply_transitions_and_create_reverts bs {[1 := t]} RetainReverts.

Lemma database_ok : db_ok database.
Proof. intros a. unfold database. destruct (a =? 1); [done|]. by intros _ k. Defined.
Lemma default_inv : bundle_inv database BundleState_default.
Proof. intros a. exact I. Defined.
Lemma destroy_from : transition_from (database 1) None destroy.
Proof.
  split; [|split; [|split; [done|]]].
  - constructor; cbn; try done; intros ? ?; by rewrite ?lookup_empty.
  - by constructor; cbn.
  - intros k. cbn. unfold slot_view, unlisted. by rewrite lookup_empty.
Defined.

Lemma destroy_starts a t :
  ({[1 := destroy]} : gmap Z TransitionAccount) !! a = Some t ->
  transition_from (database a) (bs_state BundleState_default !! a) t.
Proof. intros [<- <-]%lookup_singleton_Some. exact destroy_from. Defined.

Lemma bundle_revert_latest_restores_witness :
  exists bs', apply_transitions_loop true [(1, destroy)] BundleState_default [] = Some bs' /\
    (forall a, world_equiv (bundle_world database bs' a)
       (match ({[1 := destroy]} : gmap Z TransitionAccount) !! a with
        | Some t => transition_world (bundle_world database BundleState_default a) t
        | None => bundle_world database BundleState_default a
        end)) /\
    let '(reverted, bs'') := BundleState_revert_latest bs' in
    reverted = true /\ bs_reverts bs'' = bs_reverts BundleState_default /\ bundle_inv database bs'' /\
    forall a, world_equiv (bundle_world database bs'' a) (bundle_world database BundleState_default a).
Proof.
  apply (bundle_revert_latest_restores database BundleState_default {[1 := destroy]} [(1, destroy)]);
    [exact database_ok|exact default_inv| |exact destroy_starts].
  by rewrite map_to_list_singleton.
Defined.

Lemma bundle_sizes_exact_witness :
  sizes_ok BundleState_default /\
  (forall inc l bs', apply_transitions_loop inc l BundleState_default [] = Some bs' -> sizes_ok bs') /\
  (forall other, sizes_ok (BundleState_extend_state BundleState_default other)) /\
  (forall n, sizes_ok (BundleState_revert BundleState_default n)) /\
  (forall n, sizes_ok (BundleState_take_n_reverts BundleState_default n).2).
Proof. split; [by vm_compute|]. apply (bundle_sizes_exact BundleState_default). by vm_compute. Defined.

(** A bundle that changes slot 2 from 7 to 8, and one on top of it that changes
    it to 9. *)
Definition first_change : BundleAccount :=
  mkBundleAccount (Some (alive 5)) (Some (alive 1)) {[2 := mkStorageSlot 7 8]} Changed.
Definition second_change : BundleAccount :=
  mkBundleAccount (Some (alive 6)) (Some (alive 5)) {[2 := mkStorageSlot 8 9]} Changed.
Definition one_account (b : BundleAccount) : BundleState := mkBundleState {[1 := b]} ∅ [] 2 0.

Lemma one_account_inv D b :
  account_ok (D 1) b -> ba_status b <> LoadedNotExisting -> bundle_inv D (one_account b).
Proof.
  intros Hb Hs a. cbn. destruct (decide (a = 1)) as [->|Hne].
  - by rewrite lookup_singleton_eq.
  - by rewrite lookup_singleton_ne.
Defined.
Lemma first_inv : bundle_inv database (one_account first_change).
Proof. apply one_account_inv; [by constructor|done]. Defined.
Lemma second_inv :
  bundle_inv (bundle_world database (one_account first_change)) (one_account second_change).
Proof. apply one_account_inv; [by constructor|done]. Defined.

Lemma to_plain_state_correct_witness :
  world_equiv (apply_changeset (BundleState_to_plain_state (one_account first_change) ValuesKnownYes) database 1)
    (bundle_world database (one_account first_change) 1).
Proof.
  apply (to_plain_state_correct database (one_account first_change) ValuesKnownYes 1); [exact first_inv|].
  intros _ b Hb. cbn in Hb. rewrite lookup_singleton_eq in Hb. injection Hb as <-.
  intros _ k s Hk. cbn in Hk. apply lookup_singleton_Some in Hk as [<- <-]. reflexivity.
Defined.

Lemma extend_correct_witness :
  world_equiv
    (bundle_world database (BundleState_extend (one_account first_change) (one_account second_change)) 1)
    (bundle_world (bundle_world database (one_account first_change)) (one_account second_change) 1).
Proof.
  apply (extend_correct database (one_account first_change) (one_account second_change) 1);
    [exact first_inv|exact second_inv|].
  intros a r Hin. cbn in Hin. by apply not_elem_of_nil in Hin.
Defined.

(** Reverting two blocks can leave a slot behind: the database holds 7 in
    slot 2 of an account; block one destroys the account, block two recreates it
    and writes the slot.  Reverting block one alone brings 7 back, but after
    block two [revert(2)] leaves the slot in the bundle with value 0, so the
    bundle hides the value of the database. *)
Theorem stale_slot_after_reverts :
  transition_from (database 1) None destroy /\
  exists b1 b2, block BundleState_default destroy = Some b1 /\ block b1 recreate = Some b2 /\
    transition_from (database 1) (bs_state b1 !! 1) recreate /\
    w_storage (bundle_world database (BundleState_revert b1 1) 1) 2 = 7 /\
    w_storage (bundle_world database (BundleState_revert b2 2) 1) 2 = 0.
Proof.
  split.
  - exact destroy_from.
  - eexists _, _. split; [vm_compute; reflexivity|]. split; [vm_compute; reflexivity|].
    split; [|by vm_compute].
    split; [|by vm_compute]. constructor; cbn; try done; try discriminate.
    intros k s [<- <-]%lookup_singleton_Some. by vm_compute.
Qed.

(** Extending a bundle whose account was destroyed and reverting the
    extension does not give the bundle back: the revert restores the status the
    account had in the extension, not the one it had before, so the account no
    longer counts as destroyed and the values the database held before come
    through again. *)
Theorem extend_revert_loses_destroyed :
  exists this other, block BundleState_default replace = Some this /\
    block BundleState_default change = Some other /\
    transition_from (bundle_world database this 1) None change /\
    w_storage (bundle_world database this 1) 2 = 0 /\
    w_storage (bundle_world database (BundleState_revert (BundleState_extend this other) 1) 1) 2 = 7.
Proof.
  eexists _, _. split; [vm_compute; reflexivity|]. split; [vm_compute; reflexivity|].
  split; [|by vm_compute].
  split; [|split; [|split; [done|]]].
  - constructor; cbn; try done; try discriminate.
    intros k s [<- <-]%lookup_singleton_Some. by vm_compute.
  - by constructor; cbn.
  - intros k. cbn. unfold slot_view at 1, unlisted. by rewrite lookup_empty.
Qed.

(** [extend] lets the size of the state drift: it drains the storage of an
    account that the extension destroyed without counting it off, so the counter
    of the joined bundle is larger than the sum of its accounts. *)
Theorem extend_state_size_drifts :
  exists this other, block BundleState_default replace = Some this /\
    block BundleState_default destroy = Some other /\ sizes_ok this /\ sizes_ok other /\
    bs_state_size (BundleState_extend this other) = 2 /\
    state_total (bs_state (BundleState_extend this other)) = 1.
Proof.
  eexists _, _. split; [vm_compute; reflexivity|]. split; [vm_compute; reflexivity|].
  by vm_compute.
Qed.
End BundleExample.
