(* ===== verification/CacheState.v ===== *)
(** The cache of [crates/database/src/states]: the plain account with its status
    ([cache_account.rs]) and the map of them ([cache.rs]).  The output of a
    transaction is applied to the cache, which turns it into transitions. *)
From S2P Require Import Prelude Hardfork Bytecode State Database BundleAccount.
From stdpp Require Import base numbers list option tactics gmap.
From Stdlib Require Import ZArith Lia.

Local Open Scope Z_scope.

(** * Accounts ([cache_account.rs]) *)

Record CacheAccount := mkCacheAccount {
  ca_account : option PlainAccount; ca_status : DbAccountStatus }.

(** [impl From<&BundleAccount> for CacheAccount]. *)
Definition CacheAccount_from (account : BundleAccount) : CacheAccount :=
  mkCacheAccount ((fun i => mkPlainAccount i (present_values (ba_storage account))) <$> ba_info account)
    (ba_status account).

Definition CacheAccount_new_loaded (info : AccountInfo) (storage : PlainStorage) : CacheAccount :=
  mkCacheAccount (Some (mkPlainAccount info storage)) Loaded.
Definition CacheAccount_new_loaded_not_existing : CacheAccount := mkCacheAccount None LoadedNotExisting.
Definition CacheAccount_new_newly_created (info : AccountInfo) (storage : PlainStorage) : CacheAccount :=
  mkCacheAccount (Some (mkPlainAccount info storage)) InMemoryChange.
Definition CacheAccount_new_destroyed : CacheAccount := mkCacheAccount None Destroyed.
Definition CacheAccount_new_changed (info : AccountInfo) (storage : PlainStorage) : CacheAccount :=
  mkCacheAccount (Some (mkPlainAccount info storage)) Changed.

Definition CacheAccount_is_some (self : CacheAccount) : bool :=
  match ca_status self with
  | Changed | InMemoryChange | DestroyedChanged | Loaded | LoadedEmptyEIP161 => true
  | _ => false
  end.
Definition CacheAccount_storage_slot (self : CacheAccount) (slot : Z) : option Z :=
  a ← ca_account self; pa_storage a !! slot.
Definition CacheAccount_account_info (self : CacheAccount) : option AccountInfo :=
  pa_info <$> ca_account self.
Definition CacheAccount_into_components (self : CacheAccount)
    : option (AccountInfo * PlainStorage) * DbAccountStatus :=
  ((fun a => (pa_info a, pa_storage a)) <$> ca_account self, ca_status self).

Section CacheAccount.
Context `{BitVec}.

Definition CacheAccount_new_loaded_empty_eip161 (storage : PlainStorage) : CacheAccount :=
  mkCacheAccount (Some (PlainAccount_new_empty_with_storage storage)) LoadedEmptyEIP161.

(** A wrong status panics; an unchanged status leaves the account alone. *)
Definition touch_create_pre_eip161 (self : CacheAccount) (storage : StorageWithOriginalValues)
    : option (option TransitionAccount * CacheAccount) :=
  let previous_status := ca_status self in
  let had_no_info := default false ((fun a => AccountInfo_is_empty (pa_info a)) <$> ca_account self) in
  let? next := on_touched_created_pre_eip161 (ca_status self) had_no_info in
  match next with
  | None => Some (None, self)
  | Some status =>
      let plain_storage := present_values storage in
      let previous_info := CacheAccount_account_info self in
      Some (Some (mkTransitionAccount (Some AccountInfo_default) status previous_info
                    previous_status storage false),
            mkCacheAccount (Some (PlainAccount_new_empty_with_storage plain_storage)) status)
  end.

Definition touch_empty_eip161 (self : CacheAccount) : option TransitionAccount * CacheAccount :=
  let previous_status := ca_status self in
  let previous_info := CacheAccount_account_info self in
  let status := on_touched_empty_post_eip161 (ca_status self) in
  (match previous_status with
   | LoadedNotExisting | Destroyed | DestroyedAgain => None
   | _ => Some (mkTransitionAccount None status previous_info previous_status ∅ true)
   end, mkCacheAccount None status).

Definition CacheAccount_selfdestruct (self : CacheAccount) : option TransitionAccount * CacheAccount :=
  let previous_info := CacheAccount_account_info self in
  let previous_status := ca_status self in
  let status := on_selfdestructed (ca_status self) in
  (if decide (previous_status = LoadedNotExisting) then None
   else Some (mkTransitionAccount None status previous_info previous_status ∅ true),
   mkCacheAccount None status).

Definition newly_created (self : CacheAccount) (new_info : AccountInfo)
    (new_storage : StorageWithOriginalValues) : TransitionAccount * CacheAccount :=
  let previous_status := ca_status self in
  let previous_info := CacheAccount_account_info self in
  let new_bundle_storage := present_values new_storage in
  let status := on_created (ca_status self) in
  (mkTransitionAccount (Some new_info) status previous_info previous_status new_storage false,
   mkCacheAccount (Some (mkPlainAccount new_info new_bundle_storage)) status).

(** [account_info_change] with a change that also gives an output. *)
Definition account_info_change {T} (self : CacheAccount) (change : AccountInfo -> T * AccountInfo)
    : T * TransitionAccount * CacheAccount :=
  let previous_status := ca_status self in
  let previous_info := CacheAccount_account_info self in
  let account := default PlainAccount_default (ca_account self) in
  let '(output, info) := change (pa_info account) in
  let had_no_nonce_and_code := default false (AccountInfo_has_no_code_and_nonce <$> previous_info) in
  let status := on_changed (ca_status self) had_no_nonce_and_code in
  (output, mkTransitionAccount (Some info) status previous_info previous_status ∅ false,
   mkCacheAccount (Some (mkPlainAccount info (pa_storage account))) status).

Definition increment_balance (self : CacheAccount) (bal : Z)
    : option TransitionAccount * CacheAccount :=
  if bal =? 0 then (None, self)
  else
    let '(_, transition, self) := account_info_change self (fun info =>
      (tt, AccountInfo_set_balance (saturating_add 256 (balance info) bal) info)) in
    (Some transition, self).

(** The drained balance is a [u128]: a larger one panics. *)
Definition drain_balance (self : CacheAccount) : option (Z * TransitionAccount * CacheAccount) :=
  let '(output, transition, self) := account_info_change self (fun info =>
    (balance info, AccountInfo_set_balance 0 info)) in
  if output <? modulus 128 then Some (output, transition, self) else None.

Definition CacheAccount_change (self : CacheAccount) (new : AccountInfo)
    (storage : StorageWithOriginalValues) : TransitionAccount * CacheAccount :=
  let previous_status := ca_status self in
  let '(previous_info, this_storage) :=
    match ca_account self with
    | Some account => (Some (pa_info account), pa_storage account)
    | None => (None, ∅)
    end in
  let this_storage := present_values storage ∪ this_storage in
  let had_no_nonce_and_code := default false (AccountInfo_has_no_code_and_nonce <$> previous_info) in
  let status := on_changed (ca_status self) had_no_nonce_and_code in
  (mkTransitionAccount (Some new) status previous_info previous_status storage false,
   mkCacheAccount (Some (mkPlainAccount new this_storage)) status).
End CacheAccount.

(** * The cache ([cache.rs]) *)

Record CacheState := mkCacheState {
  cs_cached : gmap Z CacheAccount; cs_codes : gmap Z Bytecode; has_state_clear : bool }.

Definition CacheState_new (state_clear : bool) : CacheState := mkCacheState ∅ ∅ state_clear.
Definition CacheState_default : CacheState := CacheState_new true.
Definition CacheState_set_state_clear_flag (self : CacheState) (state_clear : bool) : CacheState :=
  mkCacheState (cs_cached self) (cs_codes self) state_clear.
Definition cache_set (address : Z) (account : CacheAccount) (self : CacheState) : CacheState :=
  mkCacheState (<[address := account]> (cs_cached self)) (cs_codes self) (has_state_clear self).
Definition CacheState_trie_account (self : CacheState) : list (Z * PlainAccount) :=
  omap (fun a => (fun p => (a.1, p)) <$> ca_account a.2) (map_to_list (cs_cached self)).
Definition CacheState_insert_not_existing (self : CacheState) (address : Z) : CacheState :=
  cache_set address CacheAccount_new_loaded_not_existing self.

Section CacheState.
Context `{BitVec}.

(** [insert_account_with_storage]; [insert_account] is the case of no storage. *)
Definition CacheState_insert_account_with_storage (self : CacheState) (address : Z)
    (info : AccountInfo) (storage : PlainStorage) : CacheState :=
  let account :=
    if negb (AccountInfo_is_empty info) then CacheAccount_new_loaded info storage
    else CacheAccount_new_loaded_empty_eip161 storage in
  cache_set address account self.
Definition CacheState_insert_account (self : CacheState) (address : Z) (info : AccountInfo)
    : CacheState := CacheState_insert_account_with_storage self address info ∅.

(** The changed slots of an account as slots with their previous value. *)
Definition changed_storage (account : Account) : StorageWithOriginalValues :=
  omap (fun slot => if EvmStorageSlot_is_changed slot then Some (StorageSlot_from slot) else None)
    (storage account).

Definition apply_account_state (self : CacheState) (address : Z) (account : Account)
    : option (option TransitionAccount * CacheState) :=
  if negb (Account_is_touched account) then Some (None, self)
  else
    let? this_account := cs_cached self !! address in
    let? (transition, this_account) :=
      if Account_is_selfdestructed account then Some (CacheAccount_selfdestruct this_account)
      else
        let is_created := Account_is_created account in
        let is_empty := Account_is_empty account in
        let changed_storage := changed_storage account in
        if is_created then
          let '(t, this_account) := newly_created this_account (info account) changed_storage in
          Some (Some t, this_account)
        else if is_empty then
          if has_state_clear self then Some (touch_empty_eip161 this_account)
          else touch_create_pre_eip161 this_account changed_storage
        else
          let '(t, this_account) := CacheAccount_change this_account (info account) changed_storage in
          Some (Some t, this_account) in
    Some (transition, cache_set address this_account self).

Fixpoint apply_evm_state_loop (evm_state : list (Z * Account)) (self : CacheState)
    (transitions : list (Z * TransitionAccount)) : option (list (Z * TransitionAccount) * CacheState) :=
  match evm_state with
  | [] => Some (transitions, self)
  | (address, account) :: evm_state =>
      let? (transition, self) := apply_account_state self address account in
      let transitions :=
        match transition with Some t => transitions ++ [(address, t)] | None => transitions end in
      apply_evm_state_loop evm_state self transitions
  end.
Definition CacheState_apply_evm_state (self : CacheState) (evm_state : gmap Z Account)
    : option (list (Z * TransitionAccount) * CacheState) :=
  apply_evm_state_loop (map_to_list evm_state) self [].

(** [DatabaseRef for CacheState]: reading what is not cached panics, except for
    the info of an account; an account cached as not existing panics too. *)
Definition CacheState_basic_ref (self : CacheState) (address : Z) : option (option AccountInfo) :=
  match cs_cached self !! address with
  | Some account =>
      let? plain := ca_account account in
      if AccountInfo_is_empty (pa_info plain) then Some None
      else Some (CacheAccount_account_info account)
  | None => Some None
  end.
Definition CacheState_code_by_hash_ref (self : CacheState) (hash : Z) : option Bytecode :=
  cs_codes self !! hash.
Definition CacheState_storage_ref (self : CacheState) (address index : Z) : option Z :=
  account ← cs_cached self !! address;
  plain_account ← ca_account account;
  match pa_storage plain_account !! index with
  | Some value => Some value
  | None => if is_storage_known (ca_status account) then Some 0 else None
  end.
End CacheState.
