(* ===== verification/StateDb.v ===== *)
(** The [State] of [crates/database/src/states/state.rs] and its builder
    ([state_builder.rs]): a cache and a bundle over a database, with the
    transitions of the current block. *)
From S2P Require Import Prelude Hardfork Bytecode State Database BundleAccount BundleState CacheState.
From stdpp Require Import base numbers list option tactics gmap.
From Stdlib Require Import ZArith Lia.

Local Open Scope Z_scope.

Record StateDb (DB : Type) := mkStateDb {
  sd_cache : CacheState; sd_database : DB; sd_transition_state : option TransitionState;
  sd_bundle_state : BundleState; sd_use_preloaded_bundle : bool; sd_block_hashes : gmap Z Z }.
Arguments mkStateDb {DB}.
Arguments sd_cache {DB}.
Arguments sd_database {DB}.
Arguments sd_transition_state {DB}.
Arguments sd_bundle_state {DB}.
Arguments sd_use_preloaded_bundle {DB}.
Arguments sd_block_hashes {DB}.

Section StateDb.
Context {DB E : Type} `{BitVec, Database DB E}.
Implicit Types self : StateDb DB.

(** The assignments to the fields. *)
Definition with_sd_cache (c : CacheState) self : StateDb DB :=
  mkStateDb c (sd_database self) (sd_transition_state self) (sd_bundle_state self)
    (sd_use_preloaded_bundle self) (sd_block_hashes self).
Definition with_sd_database (d : DB) self : StateDb DB :=
  mkStateDb (sd_cache self) d (sd_transition_state self) (sd_bundle_state self)
    (sd_use_preloaded_bundle self) (sd_block_hashes self).
Definition with_sd_transitions (t : option TransitionState) self : StateDb DB :=
  mkStateDb (sd_cache self) (sd_database self) t (sd_bundle_state self)
    (sd_use_preloaded_bundle self) (sd_block_hashes self).
Definition with_sd_bundle (b : BundleState) self : StateDb DB :=
  mkStateDb (sd_cache self) (sd_database self) (sd_transition_state self) b
    (sd_use_preloaded_bundle self) (sd_block_hashes self).

Definition bundle_size_hint self : Z := BundleState_size_hint (sd_bundle_state self).

Definition State_set_state_clear_flag self (b : bool) : StateDb DB :=
  with_sd_cache (CacheState_set_state_clear_flag (sd_cache self) b) self.
Definition State_insert_not_existing self (address : Z) : StateDb DB :=
  with_sd_cache (CacheState_insert_not_existing (sd_cache self) address) self.
Definition State_insert_account self (address : Z) (info : AccountInfo) : StateDb DB :=
  with_sd_cache (CacheState_insert_account (sd_cache self) address info) self.
Definition State_insert_account_with_storage self (address : Z) (info : AccountInfo)
    (storage : PlainStorage) : StateDb DB :=
  with_sd_cache (CacheState_insert_account_with_storage (sd_cache self) address info storage) self.

Definition State_apply_transition self (transitions : list (Z * TransitionAccount)) : StateDb DB :=
  match sd_transition_state self with
  | Some s => with_sd_transitions (Some (TransitionState_add_transitions s transitions)) self
  | None => self
  end.

Definition merge_transitions self (retention : BundleRetention) : option (StateDb DB) :=
  match sd_transition_state self with
  | Some s =>
      let '(transition_state, s) := TransitionState_take s in
      let? bundle := apply_transitions_and_create_reverts (sd_bundle_state self) transition_state retention in
      Some (with_sd_bundle bundle (with_sd_transitions (Some s) self))
  | None => Some self
  end.

(** The account an answer of the database is cached as. *)
Definition loaded_account (info : option AccountInfo) : CacheAccount :=
  match info with
  | None => CacheAccount_new_loaded_not_existing
  | Some acc =>
      if AccountInfo_is_empty acc then CacheAccount_new_loaded_empty_eip161 ∅
      else CacheAccount_new_loaded acc ∅
  end.

Definition load_cache_account self (address : Z) : result CacheAccount E * StateDb DB :=
  match cs_cached (sd_cache self) !! address with
  | Some account => (Ok account, self)
  | None =>
      match (if sd_use_preloaded_bundle self then BundleState_account (sd_bundle_state self) address
             else None) with
      | Some b =>
          let account := CacheAccount_from b in
          (Ok account, with_sd_cache (cache_set address account (sd_cache self)) self)
      | None =>
          let '(info, d) := db_basic (sd_database self) address in
          let self := with_sd_database d self in
          match info with
          | Err e => (Err e, self)
          | Ok info =>
              let account := loaded_account info in
              (Ok account, with_sd_cache (cache_set address account (sd_cache self)) self)
          end
      end
  end.

Definition take_bundle self : BundleState * StateDb DB :=
  (sd_bundle_state self, with_sd_bundle BundleState_default self).

(** The loops of [increment_balances] and [drain_balances]: an error of the
    database is returned at once, with the accounts before it already changed. *)
Fixpoint increment_balances_loop (balances : list (Z * Z)) self
    (transitions : list (Z * TransitionAccount)) : result unit E * StateDb DB :=
  match balances with
  | [] => (Ok tt, State_apply_transition self transitions)
  | (address, bal) :: balances =>
      if bal =? 0 then increment_balances_loop balances self transitions
      else
        let '(r, self) := load_cache_account self address in
        match r with
        | Err e => (Err e, self)
        | Ok original_account =>
            let '(t, account) := increment_balance original_account bal in
            let self := with_sd_cache (cache_set address account (sd_cache self)) self in
            let transitions := transitions ++ match t with Some t => [(address, t)] | None => [] end in
            increment_balances_loop balances self transitions
        end
  end.
Definition increment_balances self (balances : list (Z * Z)) : result unit E * StateDb DB :=
  increment_balances_loop balances self [].

Fixpoint drain_balances_loop (addresses : list Z) self (balances : list Z)
    (transitions : list (Z * TransitionAccount)) : option (result (list Z) E * StateDb DB) :=
  match addresses with
  | [] => Some (Ok balances, State_apply_transition self transitions)
  | address :: addresses =>
      let '(r, self) := load_cache_account self address in
      match r with
      | Err e => Some (Err e, self)
      | Ok original_account =>
          let? (bal, t, account) := drain_balance original_account in
          let self := with_sd_cache (cache_set address account (sd_cache self)) self in
          drain_balances_loop addresses self (balances ++ [bal]) (transitions ++ [(address, t)])
      end
  end.
Definition drain_balances self (addresses : list Z) : option (result (list Z) E * StateDb DB) :=
  drain_balances_loop addresses self [] [].

(** * [Database for State] *)

Definition State_basic self (address : Z) : result (option AccountInfo) E * StateDb DB :=
  let '(r, self) := load_cache_account self address in
  (map_ok CacheAccount_account_info r, self).

Definition State_code_by_hash self (hash : Z) : result Bytecode E * StateDb DB :=
  let insert (code : Bytecode) (s : StateDb DB) :=
    with_sd_cache (mkCacheState (cs_cached (sd_cache s)) (<[hash := code]> (cs_codes (sd_cache s)))
                     (has_state_clear (sd_cache s))) s in
  match cs_codes (sd_cache self) !! hash with
  | Some code => (Ok code, self)
  | None =>
      match (if sd_use_preloaded_bundle self then bs_contracts (sd_bundle_state self) !! hash
             else None) with
      | Some code => (Ok code, insert code self)
      | None =>
          let '(r, d) := db_code_by_hash (sd_database self) hash in
          let self := with_sd_database d self in
          match r with
          | Err e => (Err e, self)
          | Ok code => (Ok code, insert code self)
          end
      end
  end.

(** The account must have been loaded. *)
Definition State_storage self (address index : Z) : option (result Z E * StateDb DB) :=
  let? account := cs_cached (sd_cache self) !! address in
  match ca_account account with
  | None => Some (Ok 0, self)
  | Some plain =>
      match pa_storage plain !! index with
      | Some value => Some (Ok value, self)
      | None =>
          let '(r, self) :=
            if is_storage_known (ca_status account) then (Ok 0, self)
            else
              let '(r, d) := db_storage (sd_database self) address index in
              (r, with_sd_database d self) in
          match r with
          | Err e => Some (Err e, self)
          | Ok value =>
              let plain := mkPlainAccount (pa_info plain) (<[index := value]> (pa_storage plain)) in
              let account := mkCacheAccount (Some plain) (ca_status account) in
              Some (Ok value, with_sd_cache (cache_set address account (sd_cache self)) self)
          end
      end
  end.

(** Only the hashes given to the builder are known: any other number panics. *)
Definition State_block_hash self (number : Z) : option (result Z E * StateDb DB) :=
  let? h := sd_block_hashes self !! number in Some (Ok h, self).

(** [DatabaseCommit for State]. *)
Definition State_commit self (evm_state : gmap Z Account) : option (StateDb DB) :=
  let? (transitions, cache) := apply_evm_state_loop (map_to_list evm_state) (sd_cache self) [] in
  Some (State_apply_transition (with_sd_cache cache self) transitions).
#[global] Instance State_DatabaseCommit : DatabaseCommit (StateDb DB) := State_commit.
End StateDb.

(** * The builder ([state_builder.rs]) *)

Record StateBuilder (DB : Type) := mkStateBuilder {
  sb_database : DB; with_state_clear : bool; with_bundle_prestate : option BundleState;
  with_cache_prestate : option CacheState; with_bundle_update : bool;
  with_background_transition_merge : bool; with_block_hashes : gmap Z Z }.
Arguments mkStateBuilder {DB}.
Arguments sb_database {DB}.
Arguments with_state_clear {DB}.
Arguments with_bundle_prestate {DB}.
Arguments with_cache_prestate {DB}.
Arguments with_bundle_update {DB}.
Arguments with_background_transition_merge {DB}.
Arguments with_block_hashes {DB}.

Section StateBuilder.
Context {DB : Type}.
Implicit Types self : StateBuilder DB.

Definition StateBuilder_new_with_database (database : DB) : StateBuilder DB :=
  mkStateBuilder database true None None false false ∅.
Definition StateBuilder_without_state_clear self : StateBuilder DB :=
  mkStateBuilder (sb_database self) false (with_bundle_prestate self) (with_cache_prestate self)
    (with_bundle_update self) (with_background_transition_merge self) (with_block_hashes self).
Definition StateBuilder_with_bundle_prestate self (bundle : BundleState) : StateBuilder DB :=
  mkStateBuilder (sb_database self) (with_state_clear self) (Some bundle) (with_cache_prestate self)
    (with_bundle_update self) (with_background_transition_merge self) (with_block_hashes self).
Definition StateBuilder_with_bundle_update self : StateBuilder DB :=
  mkStateBuilder (sb_database self) (with_state_clear self) (with_bundle_prestate self)
    (with_cache_prestate self) true (with_background_transition_merge self) (with_block_hashes self).
Definition StateBuilder_with_cached_prestate self (cache : CacheState) : StateBuilder DB :=
  mkStateBuilder (sb_database self) (with_state_clear self) (with_bundle_prestate self) (Some cache)
    (with_bundle_update self) (with_background_transition_merge self) (with_block_hashes self).
Definition StateBuilder_with_background_transition_merge self : StateBuilder DB :=
  mkStateBuilder (sb_database self) (with_state_clear self) (with_bundle_prestate self)
    (with_cache_prestate self) (with_bundle_update self) true (with_block_hashes self).
Definition StateBuilder_with_block_hashes self (block_hashes : gmap Z Z) : StateBuilder DB :=
  mkStateBuilder (sb_database self) (with_state_clear self) (with_bundle_prestate self)
    (with_cache_prestate self) (with_bundle_update self) (with_background_transition_merge self)
    block_hashes.

Definition StateBuilder_build self : StateDb DB :=
  let '(use_preloaded_bundle, bundle_prestate) :=
    match with_cache_prestate self with
    | Some _ => (false, None)
    | None => (match with_bundle_prestate self with Some _ => true | None => false end,
               with_bundle_prestate self)
    end in
  mkStateDb (default (CacheState_new (with_state_clear self)) (with_cache_prestate self))
    (sb_database self) (if with_bundle_update self then Some ∅ else None)
    (default BundleState_default bundle_prestate) use_preloaded_bundle (with_block_hashes self).
End StateBuilder.

(** [with_database] changes the type of the database. *)
Definition StateBuilder_with_database {DB ODB} (self : StateBuilder DB) (database : ODB)
    : StateBuilder ODB :=
  mkStateBuilder database (with_state_clear self) (with_bundle_prestate self)
    (with_cache_prestate self) (with_bundle_update self) (with_background_transition_merge self)
    (with_block_hashes self).
