(* ===== verification/CacheAccountLaws.v ===== *)
(** What a cached account means, and what the transitions of a transaction and
    of a block say about it.

    [commit_account] is the effect a transaction should have on the world of an
    account; [apply_account_step] says that the cache and the transition it emits
    have that effect, and [update_composes] that merging the transitions of two
    transactions gives the transition of both. *)
From S2P Require Import Prelude Hardfork Bytecode State Database BundleAccount BundleAccountLaws BundleState BundleStateLaws CacheState.
From stdpp Require Import base numbers list option tactics gmap.
From Stdlib Require Import ZArith Lia Setoid.

Local Open Scope Z_scope.

(** * Merging transitions *)

Lemma block_step_trans p m n : block_step p m = true -> block_step m n = true -> block_step p n = true.
Proof. by destruct p, m, n. Qed.

Lemma lookup_update_storage a b k :
  update_storage a b !! k
  = match a !! k, b !! k with
    | Some v, Some s => if previous_or_original_value v =? slot_present_value s then None
                        else Some (StorageSlot_assign (slot_present_value s) v)
    | Some v, None => Some v
    | None, o => o
    end.
Proof. unfold update_storage. rewrite lookup_union_with. by destruct (a !! k), (b !! k). Qed.

(** The transition [t2] of one transaction after the transition [t1] of the
    block so far is the transition of the block with it. *)
Lemma update_composes w0 t1 t2 :
  transition_ok w0 t1 -> transition_ok (transition_world w0 t1) t2 ->
  ta_previous_status t2 = ta_status t1 ->
  (ta_storage_was_destroyed t2 = true -> is_gone (ta_status t2) = true) ->
  transition_ok w0 (TransitionAccount_update t1 t2) /\
  world_equiv (transition_world w0 (TransitionAccount_update t1 t2))
              (transition_world (transition_world w0 t1) t2) /\
  ta_status (TransitionAccount_update t1 t2) = ta_status t2 /\
  ta_info (TransitionAccount_update t1 t2) = ta_info t2 /\
  ta_previous_status (TransitionAccount_update t1 t2) = ta_previous_status t1 /\
  ta_previous_info (TransitionAccount_update t1 t2) = ta_previous_info t1.
Proof.
  intros [H1 H2 H3 H4 H5 H6 H7 H8] [G1 G2 G3 G4 G5 G6 G7 G8] Hp Hf.
  pose proof (block_step_trans _ _ _ H2 ltac:(rewrite <- Hp; exact G2)) as Hstep.
  destruct (is_gone (ta_status t2)) eqn:Eg.
  - destruct (G4 eq_refl) as (Ei & Es & Ef).
    assert (Hu : TransitionAccount_update t1 t2
      = mkTransitionAccount (ta_info t2) (ta_status t2) (ta_previous_info t1)
          (ta_previous_status t1) (ta_storage t2) true).
    { unfold TransitionAccount_update. rewrite Hp in G2.
      destruct (ta_status t2), (ta_status t1); done. }
    rewrite Hu. split_and!; [|split; [done|]|done..].
    + constructor; cbn; auto; try congruence.
      * intros k s. by rewrite Es, lookup_empty.
      * intros E. by rewrite E in Eg.
    + intros k. cbn. by rewrite Ef.
  - assert (Ef2 : ta_storage_was_destroyed t2 = false)
      by (destruct (ta_storage_was_destroyed t2); [by discriminate Hf|done]).
    assert (Hu : TransitionAccount_update t1 t2
      = mkTransitionAccount (ta_info t2) (ta_status t2) (ta_previous_info t1)
          (ta_previous_status t1) (update_storage (ta_storage t1) (ta_storage t2))
          (ta_storage_was_destroyed t1)).
    { unfold TransitionAccount_update. by destruct (ta_status t2). }
    rewrite Hu. split_and!; [|split; [done|]|done..].
    + constructor; cbn; auto; try congruence.
      * intros k s. rewrite lookup_update_storage.
        destruct (ta_storage t1 !! k) as [v|] eqn:E1, (ta_storage t2 !! k) as [s2|] eqn:E2; try done.
        -- destruct (_ =? slot_present_value s2); [done|]. intros [= <-]. cbn. eauto.
        -- intros [= <-]. eauto.
        -- intros [= <-]. rewrite (G3 _ _ E2), Ef2. cbn. unfold slot_view. rewrite E1.
           by destruct (ta_storage_was_destroyed t1).
      * intros Hd. specialize (H6 Hd). rewrite <- Hp in H6. by destruct (ta_previous_status t2), (ta_status t2).
      * intros Hd Hpd. apply H7; [|done]. destruct (was_destroyed (ta_status t1)) eqn:E; [done|].
        exfalso. rewrite G7 in Ef2; [done|done|by rewrite Hp].
      * intros Hi Hk k. destruct (is_storage_known (ta_status t1)) eqn:E.
        -- apply H8; [|done]. rewrite Hi, Hp in G2. destruct (ta_status t1); try done.
           by destruct (ta_previous_status t1).
        -- rewrite Hi, Hp in G2. destruct (ta_status t1); try done; by destruct (ta_previous_status t1).
    + intros k. cbn. rewrite Ef2. unfold slot_view. rewrite lookup_update_storage.
      destruct (ta_storage t1 !! k) as [v|] eqn:E1, (ta_storage t2 !! k) as [s2|] eqn:E2; try done.
      * destruct (Z.eqb_spec (previous_or_original_value v) (slot_present_value s2)) as [E|]; [|done].
        rewrite <- E, (H3 _ _ E1). by destruct (ta_storage_was_destroyed t1).
Qed.

(** * The world of a cached account *)

Definition gone_world : AccountWorld := mkAccountWorld None (fun _ => 0).

Definition cache_view (d : AccountWorld) (c : CacheAccount) : AccountWorld :=
  mkAccountWorld (CacheAccount_account_info c)
    (fun k => match ca_account c with
              | Some p => default (unlisted d (ca_status c) k) (pa_storage p !! k)
              | None => 0
              end).

Section World.
Context `{BitVec}.

(** An account has storage only if it has code or a nonce, and one that counts
    as empty has the empty code hash. *)
Record world_normal (w : AccountWorld) : Prop := {
  normal_none : w_info w = None -> forall k, w_storage w k = 0;
  normal_no_code i : w_info w = Some i -> AccountInfo_has_no_code_and_nonce i = true ->
    forall k, w_storage w k = 0;
  normal_empty i : w_info w = Some i -> AccountInfo_is_empty i = true ->
    AccountInfo_eq i AccountInfo_default = true;
  normal_balance i : w_info w = Some i -> 0 <= balance i }.

(** A cached account is right about the world [w] over the database [d]. *)
Record cache_ok (d : AccountWorld) (c : CacheAccount) (w : AccountWorld) : Prop := {
  c_world : world_equiv (cache_view d c) w;
  c_gone : is_gone (ca_status c) = true -> ca_account c = None;
  c_exists : is_gone (ca_status c) = false -> is_Some (ca_account c);
  c_not_empty i : ca_status c = Loaded \/ ca_status c = Changed ->
    CacheAccount_account_info c = Some i -> AccountInfo_is_empty i = false;
  c_changed i : ca_status c = Changed -> CacheAccount_account_info c = Some i ->
    AccountInfo_has_no_code_and_nonce i = false;
  c_empty i : ca_status c = LoadedEmptyEIP161 -> CacheAccount_account_info c = Some i ->
    AccountInfo_has_no_code_and_nonce i = true;
  c_known : is_storage_known (ca_status c) = true -> was_destroyed (ca_status c) = false ->
    forall k, w_storage d k = 0;
  c_not_existing : ca_status c = LoadedNotExisting -> w_info d = None;
  c_loaded : is_not_modified (ca_status c) = true -> forall k, w_storage w k = w_storage d k }.

(** What a transaction makes of the world of an account it touched. *)
Definition commit_account (state_clear : bool) (w : AccountWorld) (account : Account) : AccountWorld :=
  if negb (Account_is_touched account) then w
  else if Account_is_selfdestructed account then gone_world
  else if Account_is_created account then
    mkAccountWorld (Some (info account)) (slot_view (fun _ => 0) (changed_storage account))
  else if Account_is_empty account then
    if state_clear then gone_world else mkAccountWorld (Some AccountInfo_default) (fun _ => 0)
  else mkAccountWorld (Some (info account)) (slot_view (w_storage w) (changed_storage account)).

(** The output of an execution on the world [w]: slots start from their value in
    [w]; only an account without code, nonce and storage is created; an account
    that is left empty was empty and has no storage; code and nonce do not go
    away except by destruction. *)
Record commit_valid (state_clear : bool) (w : AccountWorld) (account : Account) : Prop := {
  v_slots k s : storage account !! k = Some s -> EvmStorageSlot_is_changed s = true ->
    original_value s = w_storage w k;
  v_created : Account_is_selfdestructed account = false -> Account_is_created account = true ->
    (forall k, w_storage w k = 0) /\
    (forall i, w_info w = Some i -> AccountInfo_has_no_code_and_nonce i = true);
  v_empty : Account_is_selfdestructed account = false -> Account_is_created account = false ->
    Account_is_empty account = true ->
    changed_storage account = ∅ /\ (forall i, w_info w = Some i -> AccountInfo_is_empty i = true);
  v_keeps i : Account_is_selfdestructed account = false -> Account_is_created account = false ->
    Account_is_empty account = false -> w_info w = Some i ->
    AccountInfo_has_no_code_and_nonce i = false ->
    AccountInfo_has_no_code_and_nonce (info account) = false;
  v_normal : world_normal (commit_account state_clear w account) }.

Lemma lookup_changed_storage account k s :
  changed_storage account !! k = Some s ->
  exists e, storage account !! k = Some e /\ EvmStorageSlot_is_changed e = true /\ s = StorageSlot_from e.
Proof.
  unfold changed_storage. rewrite lookup_omap.
  destruct (storage account !! k) as [e|] eqn:E; [|done]. cbn.
  destruct (EvmStorageSlot_is_changed e) eqn:Ec; [|done]. intros [= <-]. eauto.
Qed.

Lemma has_no_code_equiv i j :
  AccountInfo_eq i j = true -> AccountInfo_has_no_code_and_nonce i = AccountInfo_has_no_code_and_nonce j.
Proof.
  intros (_ & Hn & Hc)%AccountInfo_eq_spec.
  unfold AccountInfo_has_no_code_and_nonce, AccountInfo_is_empty_code_hash. by rewrite Hn, Hc.
Qed.
Lemma is_empty_equiv i j : AccountInfo_eq i j = true -> AccountInfo_is_empty i = AccountInfo_is_empty j.
Proof.
  intros (Hb & Hn & Hc)%AccountInfo_eq_spec.
  unfold AccountInfo_is_empty, AccountInfo_is_empty_code_hash. by rewrite Hb, Hn, Hc.
Qed.

(** * The steps of the cache *)

(** An operation took the account from [c] in the world [w] to [c'] in [w'],
    with the transition [t]. *)
Definition cache_step (d : AccountWorld) (c : CacheAccount) (w : AccountWorld)
    (t : option TransitionAccount) (c' : CacheAccount) (w' : AccountWorld) : Prop :=
  cache_ok d c' w' /\
  match t with
  | Some t =>
      transition_ok w t /\ world_equiv (transition_world w t) w' /\
      ta_previous_status t = ca_status c /\ ta_status t = ca_status c' /\
      (ta_storage_was_destroyed t = true -> is_gone (ta_status t) = true)
  | None => world_equiv w' w /\ ca_status c' = ca_status c
  end.

Lemma cache_ok_info d c w : cache_ok d c w -> info_equiv (CacheAccount_account_info c) (w_info w).
Proof. intros [[Hi _] _ _ _ _ _ _ _ _]. exact Hi. Qed.

Lemma cache_ok_gone d c w : cache_ok d c w -> is_gone (ca_status c) = true -> world_equiv w gone_world.
Proof.
  intros [Hw Hg _ _ _ _ _ _ _] Hgone. symmetry in Hw. etrans; [exact Hw|].
  unfold cache_view, CacheAccount_account_info. by rewrite Hg.
Qed.

(** An account that is now gone. *)
Lemma cache_ok_now_gone d c st :
  is_gone st = true ->
  (st = LoadedNotExisting -> w_info d = None /\ forall k, w_storage d k = 0) ->
  c = mkCacheAccount None st -> cache_ok d c gone_world.
Proof.
  intros Hg Hn ->. destruct st; try done; (constructor; cbn; [done|..]; intros; try done; try (symmetry; by apply Hn); by apply Hn).
Qed.

Lemma selfdestruct_step d c w :
  cache_ok d c w ->
  let '(t, c') := CacheAccount_selfdestruct c in cache_step d c w t c' gone_world.
Proof.
  intros Hc. pose proof (cache_ok_info _ _ _ Hc) as Hi. unfold CacheAccount_selfdestruct.
  split; [eapply cache_ok_now_gone; [|..|reflexivity]|].
  - by destruct (ca_status c).
  - destruct Hc as [_ _ _ _ _ _ Hk Hn _]. destruct (ca_status c); try done. auto.
  - destruct (decide (ca_status c = LoadedNotExisting)) as [E|Hne].
    + split; [symmetry; eapply cache_ok_gone; [done|by rewrite E]|]. by rewrite E.
    + split_and!; cbn; try done.
      * by constructor; cbn; try done; destruct (ca_status c).
      * by destruct (ca_status c).
Qed.

Lemma touch_empty_step d c w :
  cache_ok d c w -> (forall i, w_info w = Some i -> AccountInfo_is_empty i = true) ->
  let '(t, c') := touch_empty_eip161 c in cache_step d c w t c' gone_world.
Proof.
  intros Hc He. pose proof (cache_ok_info _ _ _ Hc) as Hi. unfold touch_empty_eip161.
  assert (Hst : ca_status c <> Loaded /\ ca_status c <> Changed).
  { assert (Hx : ~ (ca_status c = Loaded \/ ca_status c = Changed)); [|naive_solver].
    intros Hlc. destruct Hc as [_ _ Hex Hne _ _ _ _ _].
    destruct Hex as [p Hp]; [by destruct Hlc as [-> | ->]|].
    specialize (Hne (pa_info p) Hlc). unfold CacheAccount_account_info in *. rewrite Hp in *.
    cbn in *. destruct (w_info w) as [i|]; [|done].
    rewrite (is_empty_equiv _ _ Hi), He in Hne by done. by discriminate Hne. }
  destruct Hst as [HnL HnC].
  split; [eapply cache_ok_now_gone; [|..|reflexivity]|].
  - by destruct (ca_status c).
  - destruct Hc as [_ _ _ _ _ _ Hk Hn _]. destruct (ca_status c); try done. auto.
  - destruct (ca_status c) eqn:E; try done.
    all: try (split; [symmetry; eapply cache_ok_gone; [done|by rewrite E]|done]).
    all: by split_and!; cbn; try done; constructor; cbn.
Qed.

(** An account that exists now, with its storage in memory or over the
    database. *)
Lemma cache_ok_now_exists d i sto st w :
  is_gone st = false -> st <> Loaded -> st <> LoadedEmptyEIP161 ->
  (st = Changed -> AccountInfo_is_empty i = false /\ AccountInfo_has_no_code_and_nonce i = false) ->
  (st = InMemoryChange -> forall k, w_storage d k = 0) ->
  info_equiv (Some i) (w_info w) ->
  (forall k, default (unlisted d st k) (sto !! k) = w_storage w k) ->
  cache_ok d (mkCacheAccount (Some (mkPlainAccount i sto)) st) w.
Proof.
  intros Hg HL HLE Hch Hmem Hi Hs.
  constructor; cbn; [by split|..].
  - congruence.
  - by eexists.
  - intros j [?|?] [= <-]; [done|]. by apply Hch.
  - intros j ? [= <-]. by apply Hch.
  - done.
  - intros Hk Hd. apply Hmem. by destruct st.
  - intros ->. done.
  - by destruct st.
Qed.

(** The slots of a transaction start from the world. *)
Lemma changed_storage_previous sc w account k s :
  commit_valid sc w account -> changed_storage account !! k = Some s ->
  previous_or_original_value s = w_storage w k.
Proof.
  intros [Hs _ _ _ _] (e & Ee & Ec & ->)%lookup_changed_storage. cbn. eauto.
Qed.

Lemma present_values_view u sto k : default (u k) (present_values sto !! k) = slot_view u sto k.
Proof. unfold present_values, slot_view. rewrite lookup_fmap. by destruct (sto !! k). Qed.

Lemma created_step sc d c w account :
  cache_ok d c w -> commit_valid sc w account ->
  (forall k, w_storage w k = 0) ->
  (forall i, w_info w = Some i -> AccountInfo_has_no_code_and_nonce i = true) ->
  let '(t, c') := newly_created c (info account) (changed_storage account) in
  cache_step d c w (Some t) c'
    (mkAccountWorld (Some (info account)) (slot_view (fun _ => 0) (changed_storage account))).
Proof.
  intros Hc Hv Hz Hno. pose proof (cache_ok_info _ _ _ Hc) as Hi. unfold newly_created.
  assert (HnC : ca_status c <> Changed).
  { intros E. destruct Hc as [_ _ Hex _ Hch _ _ _ _]. rewrite E in *.
    destruct Hex as [p Hp]; [done|]. unfold CacheAccount_account_info in *. rewrite Hp in *. cbn in *.
    specialize (Hch _ eq_refl eq_refl). destruct (w_info w) as [i|]; [|done].
    by rewrite (has_no_code_equiv _ _ Hi), Hno in Hch. }
  assert (Hk : is_storage_known (on_created (ca_status c)) = true) by (by destruct (ca_status c)).
  split.
  - apply cache_ok_now_exists; try (by destruct (ca_status c)).
    + intros E k. destruct Hc as [_ _ _ _ _ _ Hkn _ Hld].
      destruct (is_storage_known (ca_status c)) eqn:Ek; [|rewrite <- Hld; [done|by destruct (ca_status c)]].
      apply Hkn; [done|]. by destruct (ca_status c).
    + intros k. cbn. rewrite <- present_values_view. unfold unlisted. by rewrite Hk.
  - split_and!; cbn; try done.
    + constructor; cbn; try done; try (by destruct (ca_status c)).
      intros k s Hs. by rewrite (changed_storage_previous _ _ _ _ _ Hv Hs).
    + split; [done|]. intros k. cbn. unfold slot_view. by destruct (changed_storage account !! k).
Qed.

(** The storage of an account that keeps its slots when its status changes. *)
Lemma on_changed_storage d c w :
  cache_ok d c w -> world_normal w ->
  let st' := on_changed (ca_status c)
    (default false (AccountInfo_has_no_code_and_nonce <$> CacheAccount_account_info c)) in
  (st' = InMemoryChange -> forall k, w_storage d k = 0) /\
  (st' = InMemoryChange -> is_storage_known (ca_status c) = false -> forall k, w_storage w k = 0) /\
  forall k, default (unlisted d st' k) (default ∅ (pa_storage <$> ca_account c) !! k) = w_storage w k.
Proof.
  intros Hc [Hn1 Hn2 _ _].
  assert (Hzero : is_storage_known (ca_status c) = false ->
    default false (AccountInfo_has_no_code_and_nonce <$> CacheAccount_account_info c) = true ->
    forall k, w_storage w k = 0).
  { intros _ Hno k. pose proof (cache_ok_info _ _ _ Hc) as Hi.
    destruct (CacheAccount_account_info c) as [i|]; [|done]. cbn in Hno.
    destruct (w_info w) as [j|] eqn:Ej; [|done]. eapply Hn2; [done|].
    by rewrite <- (has_no_code_equiv _ _ Hi). }
  destruct Hc as [[Hi Hs] Hg He Hne Hch Hem Hk Hn Hl].
  cbn in Hs. destruct c as [p st]. unfold CacheAccount_account_info in *. cbn in *.
  destruct st; cbn in *;
    try (destruct (He eq_refl) as [[pi ps] ->]); try (rewrite (Hg eq_refl) in * ); cbn in *.
  - split_and!; [auto|done|]. intros k. by rewrite lookup_empty, <- Hs.
  - destruct (AccountInfo_has_no_code_and_nonce pi); cbn in *.
    + split_and!; [intros _ k; rewrite <- Hl; auto|auto|]. intros k. rewrite <- Hs.
      unfold unlisted; cbn. destruct (ps !! k); cbn; [done|]. rewrite <- Hl; [symmetry; auto|done].
    + split_and!; [done..|]. intros k. by rewrite <- Hs.
  - assert (Hz : forall k, w_storage w k = 0) by (apply Hzero; [done|]; by apply Hem).
    split_and!; [intros _ k; rewrite <- Hl; auto|done|]. intros k. rewrite <- Hs.
    unfold unlisted; cbn. destruct (ps !! k); cbn; [done|]. rewrite <- Hl; [symmetry; auto|done].
  - split_and!; [auto|done|]. intros k. by rewrite <- Hs.
  - split_and!; [done..|]. intros k. by rewrite <- Hs.
  - split_and!; [done..|]. intros k. by rewrite lookup_empty, <- Hs.
  - split_and!; [done..|]. intros k. by rewrite <- Hs.
  - split_and!; [done..|]. intros k. by rewrite lookup_empty, <- Hs.
Qed.

(** A change of the info and of some slots. *)
Lemma changed_step d c w new sto :
  cache_ok d c w -> world_normal w ->
  (forall k s, sto !! k = Some s -> previous_or_original_value s = w_storage w k) ->
  (ca_status c = Loaded \/ ca_status c = Changed -> AccountInfo_is_empty new = false) ->
  (forall i, w_info w = Some i -> AccountInfo_has_no_code_and_nonce i = false ->
     AccountInfo_has_no_code_and_nonce new = false) ->
  let '(t, c') := CacheAccount_change c new sto in
  cache_step d c w (Some t) c' (mkAccountWorld (Some new) (slot_view (w_storage w) sto)).
Proof.
  intros Hc Hn Hsl Hne Hkeep. pose proof (cache_ok_info _ _ _ Hc) as Hi.
  destruct (on_changed_storage _ _ _ Hc Hn) as (Hmem & Hmem' & Hsto).
  assert (E : CacheAccount_change c new sto
    = let st' := on_changed (ca_status c)
        (default false (AccountInfo_has_no_code_and_nonce <$> CacheAccount_account_info c)) in
      (mkTransitionAccount (Some new) st' (CacheAccount_account_info c) (ca_status c) sto false,
       mkCacheAccount (Some (mkPlainAccount new
         (present_values sto ∪ default ∅ (pa_storage <$> ca_account c)))) st')).
  { unfold CacheAccount_change, CacheAccount_account_info. by destruct (ca_account c). }
  rewrite E. clear E. set (st' := on_changed _ _) in *. cbn zeta.
  assert (Hg : is_gone st' = false) by (unfold st'; by destruct (ca_status c), (default false _)).
  assert (Hnm : is_not_modified st' = false) by (unfold st'; by destruct (ca_status c), (default false _)).
  assert (Hstep : block_step (ca_status c) st' = true)
    by (unfold st'; by destruct (ca_status c), (default false _)).
  assert (Hdd : was_destroyed st' = true -> was_destroyed (ca_status c) = true)
    by (unfold st'; by destruct (ca_status c), (default false _)).
  assert (HchC : st' = Changed -> AccountInfo_is_empty new = false /\
    AccountInfo_has_no_code_and_nonce new = false).
  { intros E. assert (Hlc : ca_status c = Loaded \/ ca_status c = Changed).
    { unfold st' in E. destruct (ca_status c); auto; done. }
    split; [auto|]. destruct Hc as [_ _ Hex _ Hch _ _ _ _].
    destruct Hex as [p Hp]; [by destruct Hlc as [-> | ->]|].
    unfold CacheAccount_account_info in *. rewrite Hp in *. cbn in *.
    destruct (w_info w) as [i|] eqn:Ei; [|done]. apply (Hkeep i); [done|].
    rewrite <- (has_no_code_equiv _ _ Hi). destruct Hlc as [El|El].
    - unfold st' in E. rewrite El in E. unfold CacheAccount_account_info in E. rewrite ?Hp in E. cbn in E.
      by destruct (AccountInfo_has_no_code_and_nonce (pa_info p)).
    - by apply Hch. }
  clearbody st'. split.
  - apply cache_ok_now_exists; try done; try (by intros ->).
    intros k. cbn. unfold slot_view, present_values. rewrite lookup_union, lookup_fmap.
    destruct (sto !! k); cbn; [by destruct (default ∅ _ !! k)|].
    rewrite <- Hsto. by destruct (default ∅ _ !! k).
  - split_and!; cbn; try done. constructor; cbn; try done.
    + intros Hx. congruence.
    + intros Hd Hd'. apply Hdd in Hd. congruence.
Qed.

Lemma cache_ok_equiv d c w w' : world_equiv w w' -> cache_ok d c w -> cache_ok d c w'.
Proof.
  intros Hw [H1 H2 H3 H4 H5 H6 H7 H8 H9]. constructor; auto; [by etrans|].
  intros Hm k. destruct Hw as [_ Hs]. rewrite <- Hs. auto.
Qed.

Lemma default_info_normal w i :
  world_normal w -> w_info w = Some i -> AccountInfo_is_empty i = true ->
  world_equiv (mkAccountWorld (Some AccountInfo_default) (fun _ => 0)) w.
Proof.
  intros [_ Hn He _] Hi Hem. pose proof (He i Hi Hem) as Heq. split; cbn.
  - rewrite Hi. symmetry. exact Heq.
  - intros k. rewrite (Hn i Hi); [done|]. by rewrite (has_no_code_equiv _ _ Heq).
Qed.

Lemma touch_create_step d c w :
  cache_ok d c w -> world_normal w ->
  (forall i, w_info w = Some i -> AccountInfo_is_empty i = true) ->
  exists t c', touch_create_pre_eip161 c ∅ = Some (t, c') /\
    cache_step d c w t c' (mkAccountWorld (Some AccountInfo_default) (fun _ => 0)).
Proof.
  intros Hc Hn He. pose proof (cache_ok_info _ _ _ Hc) as Hi.
  assert (Hcase : CacheAccount_account_info c = None \/
    (exists i j, CacheAccount_account_info c = Some i /\ AccountInfo_is_empty i = true /\
       w_info w = Some j /\ AccountInfo_is_empty j = true)).
  { destruct (CacheAccount_account_info c) as [i|] eqn:E; [|by left]. right.
    destruct (w_info w) as [j|] eqn:Ej; [|done]. exists i, j. rewrite (is_empty_equiv _ _ Hi). auto. }
  assert (Hgw := cache_ok_gone _ _ _ Hc).
  pose proof Hc as [Hw Hg Hex Hne Hch Hem Hk Hnx Hl]. unfold touch_create_pre_eip161.
  destruct c as [p st]. unfold CacheAccount_account_info in *. cbn in *.
  destruct p as [[pi ps]|]; cbn in *.
  - destruct Hcase as [?|(i & j & [= ->] & Hemi & Hj & Hemj)]; [done|].
    assert (Hdw : world_equiv (mkAccountWorld (Some AccountInfo_default) (fun _ => 0)) w)
      by (by eapply default_info_normal).
    destruct st; cbn; try (by discriminate Hg);
      try (by rewrite (Hne _ ltac:(auto) eq_refl) in Hemi); rewrite ?Hemi.
    + eexists _, _; split; [reflexivity|]. split; [|done]. eapply cache_ok_equiv; [|exact Hc]. by symmetry.
    + eexists _, _; split; [reflexivity|]. split.
      * apply cache_ok_now_exists; cbn; try done. intros; by apply Hk.
      * split_and!; cbn; try done. split; [done|].
        intros k. cbn. rewrite slot_view_empty. symmetry. apply Hdw.
    + eexists _, _; split; [reflexivity|]. split; [|done]. eapply cache_ok_equiv; [|exact Hc]. by symmetry.
  - assert (Hgone : is_gone st = true).
    { destruct (is_gone st) eqn:E; [done|]. by destruct (Hex eq_refl). }
    specialize (Hgw Hgone). destruct st; try done; cbn.
    all: eexists _, _; split; [reflexivity|]; split.
    1,3,5: apply cache_ok_now_exists; cbn; try done; intros; by apply Hk.
    all: split_and!; cbn; try done; split; [done|].
    all: intros k; cbn; rewrite slot_view_empty; apply Hgw.
Qed.

(** [account_info_change] is [change] without storage. *)
Lemma account_info_change_eq {T} c (f : AccountInfo -> T * AccountInfo) :
  account_info_change c f
  = let r := f (default AccountInfo_default (CacheAccount_account_info c)) in
    let '(t, c') := CacheAccount_change c r.2 ∅ in (r.1, t, c').
Proof.
  unfold account_info_change, CacheAccount_change, CacheAccount_account_info.
  destruct (ca_account c) as [p|]; cbn.
  - destruct (f (pa_info p)); cbn. unfold present_values. by rewrite fmap_empty, (left_id_L ∅ (∪)).
  - destruct (f AccountInfo_default); cbn. unfold present_values. by rewrite fmap_empty, (left_id_L ∅ (∪)).
Qed.

(** The output of a transaction for one account. *)
Lemma apply_account_step cache a account c d w :
  Account_is_touched account = true -> cs_cached cache !! a = Some c ->
  cache_ok d c w -> world_normal w -> commit_valid (has_state_clear cache) w account ->
  exists t c', apply_account_state cache a account = Some (t, cache_set a c' cache) /\
    cache_step d c w t c' (commit_account (has_state_clear cache) w account).
Proof.
  intros Ht Ec Hc Hn Hv. pose proof Hv as [Hs Hcr Hem Hkeep Hnw].
  unfold apply_account_state, commit_account. rewrite Ht, Ec. cbn [negb].
  destruct (Account_is_selfdestructed account) eqn:Esd.
  { pose proof (selfdestruct_step d c w Hc) as Hst.
    destruct (CacheAccount_selfdestruct c) as [t c']. eexists _, _; split; [reflexivity|done]. }
  destruct (Account_is_created account) eqn:Ecr.
  { destruct (Hcr eq_refl eq_refl) as [Hz Hno].
    pose proof (created_step _ d c w account Hc Hv Hz Hno) as Hst.
    destruct (newly_created c (info account) (changed_storage account)) as [t c'].
    eexists _, _; split; [reflexivity|done]. }
  destruct (Account_is_empty account) eqn:Eem.
  - destruct (Hem eq_refl eq_refl eq_refl) as [Hch He]. destruct (has_state_clear cache).
    + pose proof (touch_empty_step d c w Hc He) as Hst. destruct (touch_empty_eip161 c) as [t c'].
      eexists _, _; split; [reflexivity|done].
    + destruct (touch_create_step d c w Hc Hn He) as (t & c' & E & Hst). rewrite Hch, E.
      eexists _, _; split; [reflexivity|done].
  - pose proof (changed_step d c w (info account) (changed_storage account) Hc Hn) as Hst.
    destruct (CacheAccount_change c (info account) (changed_storage account)) as [t c'].
    eexists _, _; split; [reflexivity|]. apply Hst; [|intros _; exact Eem|eauto].
    intros k s Hk. by eapply changed_storage_previous.
Qed.
End World.
