(* ===== verification/StateLaws.v ===== *)
(** The [State] refines a plain world.

    [state_inv D S W] relates a state over a database that holds [D] to the world
    [W]: reads answer from [W], the transitions of the current block lead from
    the world of the bundle to [W], and nothing panics.  Every operation keeps
    the relation ([state_refines_world]); after a merge the bundle itself holds
    [W]. *)
From S2P Require Import Prelude Hardfork Bytecode State Database BundleAccount BundleAccountLaws BundleState BundleStateLaws CacheState CacheAccountLaws StateDb.
From stdpp Require Import base numbers list option tactics gmap.
From Stdlib Require Import ZArith Lia Setoid.

Local Open Scope Z_scope.

(** * Lists of transitions *)

Lemma add_transitions_lookup l : forall (ts : gmap Z TransitionAccount) a,
  NoDup l.*1 ->
  TransitionState_add_transitions ts l !! a
  = match (list_to_map l : gmap Z TransitionAccount) !! a with
    | Some t => Some (match ts !! a with Some t0 => TransitionAccount_update t0 t | None => t end)
    | None => ts !! a
    end.
Proof.
  induction l as [|[a0 t] l IH]; intros ts a Hnd; [done|].
  apply NoDup_cons in Hnd as [Hni Hnd].
  change (TransitionState_add_transitions ts ((a0, t) :: l))
    with (TransitionState_add_transitions (TransitionState_add_transition ts (a0, t)) l).
  assert (Hst : TransitionState_add_transition ts (a0, t)
    = <[a0 := match ts !! a0 with Some t0 => TransitionAccount_update t0 t | None => t end]> ts).
  { unfold TransitionState_add_transition. cbn. by destruct (ts !! a0). }
  rewrite IH, Hst, list_to_map_cons by done. destruct (decide (a = a0)) as [->|Hne].
  - by rewrite not_elem_of_list_to_map_1, !lookup_insert_eq.
  - by rewrite !lookup_insert_ne.
Qed.

(** * The invariant *)

Section StateLaws.
Context {DB E : Type} `{BitVec, Database DB E, !DatabaseLaws DB E}.
Implicit Types (S : StateDb DB) (D W : Z -> AccountWorld).

(** An empty account of the database is cached as the default account. *)
Definition normalize_info (i : option AccountInfo) : option AccountInfo :=
  match i with
  | Some acc => if AccountInfo_is_empty acc then Some AccountInfo_default else Some acc
  | None => None
  end.

(** The answers of the database, where it gives one, are those of [D]. *)
Definition db_models (D : Z -> AccountWorld) (d : DB) : Prop :=
  (forall a i, (db_basic d a).1 = Ok i -> w_info (D a) = normalize_info i) /\
  (forall a k v, (db_storage d a k).1 = Ok v -> v = w_storage (D a) k).

Lemma db_models_same D d1 d2 : same_db d1 d2 -> db_models D d1 -> db_models D d2.
Proof.
  intros Hs [H1 H2]. split.
  - intros a i Hb. apply H1. by rewrite (db_basic_ans d1 d2 a Hs).
  - intros a k v Hb. apply H2. by rewrite (db_storage_ans d1 d2 a k Hs).
Qed.
Lemma db_models_basic D d a : db_models D d -> db_models D (db_basic d a).2.
Proof. apply db_models_same. symmetry. apply db_basic_same. Qed.
Lemma db_models_storage D d a k : db_models D d -> db_models D (db_storage d a k).2.
Proof. apply db_models_same. symmetry. apply db_storage_same. Qed.

(** The pending transition of an account leads from the bundle to [w]. *)
Definition linked (d : AccountWorld) (b : option BundleAccount) (t : option TransitionAccount)
    (c : CacheAccount) (w : AccountWorld) : Prop :=
  match t with
  | None => world_equiv (bundle_view d b) w /\
            started d b (CacheAccount_account_info c) (ca_status c)
  | Some t => transition_from d b t /\ world_equiv (transition_world (bundle_view d b) t) w /\
              ta_status t = ca_status c
  end.

Definition account_inv (d : AccountWorld) (use_bundle : bool) (b : option BundleAccount)
    (t : option TransitionAccount) (c : option CacheAccount) (w : AccountWorld) : Prop :=
  match c with
  | Some c => cache_ok d c w /\ linked d b t c w
  | None =>
      t = None /\
      match b with
      | Some b => use_bundle = true /\ cache_ok d (CacheAccount_from b) w
      | None => world_equiv d w
      end
  end.

Definition pending S : gmap Z TransitionAccount := default ∅ (sd_transition_state S).

Record state_inv (D : Z -> AccountWorld) (S : StateDb DB) (W : Z -> AccountWorld) : Prop := {
  inv_db : db_models D (sd_database S);
  inv_transitions : is_Some (sd_transition_state S);
  inv_D a : world_normal (D a);
  inv_W a : world_normal (W a);
  inv_bundle : bundle_inv D (sd_bundle_state S);
  inv_account a : account_inv (D a) (sd_use_preloaded_bundle S) (bs_state (sd_bundle_state S) !! a)
    (pending S !! a) (cs_cached (sd_cache S) !! a) (W a) }.

(** * Accounts *)

Lemma started_equiv d b i j p : info_equiv i j -> started d b i p -> started d b j p.
Proof.
  destruct b as [b|]; [done|]. intros Hi [[Ho Hk Hg He Hn Hl] [Hv Hs]]. cbn -[info_eqb] in *.
  split; [constructor|split]; cbn -[info_eqb]; auto.
  - etrans; [symmetry; exact Hi|done].
  - intros Hgo. destruct (Hg Hgo) as [-> Hz]. split; [|done]. by destruct j.
  - intros Hgo. by apply (info_equiv_is_Some i j Hi), He.
  - etrans; [symmetry; exact Hi|done].
Qed.

(** One operation of the cache, with its transition merged into the block's. *)
Lemma linked_step d b t c w t' c' w' :
  linked d b t c w -> cache_ok d c w -> cache_step d c w t' c' w' ->
  linked d b (match t' with
              | Some t' => Some (match t with Some t => TransitionAccount_update t t' | None => t' end)
              | None => t
              end) c' w'.
Proof.
  intros Hl Hc [Hc' Ht']. pose proof (cache_ok_info _ _ _ Hc) as Hi. pose proof (cache_ok_info _ _ _ Hc') as Hi'.
  destruct t' as [t'|].
  - destruct Ht' as (Hok & Hw & Hps & Hs & Hf). destruct t as [t|]; cbn in *.
    + destruct Hl as ([Hok1 Hst1] & Hw1 & Hs1).
      assert (Hok2 : transition_ok (transition_world (bundle_view d b) t) t').
      { eapply transition_ok_equiv; [symmetry; exact Hw1|done]. }
      destruct (update_composes _ _ _ Hok1 Hok2 ltac:(congruence) Hf) as (Ho & He & Es & Ei & Ep & Epi).
      split_and!.
      * split; [done|]. by rewrite Ep, Epi.
      * etrans; [exact He|]. etrans; [apply transition_world_equiv; exact Hw1|done].
      * congruence.
    + destruct Hl as [Hw1 Hst1]. split_and!; [|etrans; [by apply transition_world_equiv|done]|done].
      split; [eapply transition_ok_equiv; [symmetry; exact Hw1|done]|].
      rewrite Hps. eapply started_equiv; [|exact Hst1].
      destruct Hok as [Hpi _ _ _ _ _ _ _]. etrans; [exact Hi|by symmetry].
  - destruct Ht' as [Hw Hs]. destruct t as [t|]; cbn in *.
    + destruct Hl as (Hf & Hw1 & Hs1). split_and!; [done| |congruence]. etrans; [exact Hw1|by symmetry].
    + destruct Hl as [Hw1 Hst1]. split; [etrans; [exact Hw1|by symmetry]|].
      rewrite Hs. eapply started_equiv; [|exact Hst1]. destruct Hw as [Hwi _].
      etrans; [exact Hi|]. etrans; [symmetry; exact Hwi|by symmetry].
Qed.

(** The account of a bundle as a cached account. *)
Lemma CacheAccount_from_view d b :
  account_ok d b -> world_equiv (cache_view d (CacheAccount_from b)) (account_view d b).
Proof.
  intros [_ _ Hg He _ _]. unfold cache_view, CacheAccount_from, CacheAccount_account_info, account_view. cbn.
  destruct (ba_info b) as [i|] eqn:Ei; split; cbn; try done.
  - intros k. apply present_values_view.
  - intros k. destruct (is_gone (ba_status b)) eqn:Eg; [|by destruct (He eq_refl)].
    destruct (Hg eq_refl) as [_ Hz]. symmetry. apply slot_view_zero; [eauto|].
    unfold unlisted. by destruct (ba_status b).
Qed.

(** An account as the database has it. *)
Lemma loaded_account_ok d w i :
  world_normal d -> w_info d = normalize_info i -> world_equiv d w ->
  cache_ok d (loaded_account i) w /\ linked d None None (loaded_account i) w.
Proof.
  intros [Hn1 Hn2 Hn3 _] Hi Hw.
  assert (Hc : cache_ok d (loaded_account i) d /\
    started d None (CacheAccount_account_info (loaded_account i)) (ca_status (loaded_account i))).
  { destruct i as [acc|]; cbn in *; [destruct (AccountInfo_is_empty acc) eqn:Ee|].
    - assert (Hz : forall k, w_storage d k = 0) by (by eapply Hn2).
      split; [constructor|split; [constructor|]]; cbn; intros; simplify_eq/=; try done.
      + split; cbn; [by rewrite Hi|]. done.
      + naive_solver.
      + by rewrite Hi.
      + split; cbn; [by rewrite Hi|]. done.
    - split; [constructor|split; [constructor|]]; cbn; intros; simplify_eq/=; try done.
      + split; cbn; [rewrite Hi; reflexivity|done].
      + rewrite Hi. reflexivity.
      + split; cbn; [rewrite Hi; reflexivity|done].
    - assert (Hz : forall k, w_storage d k = 0) by auto.
      split; [constructor|split; [constructor|]]; cbn; intros; simplify_eq/=; try done.
      + split; cbn; [by rewrite Hi|]. intros. by rewrite Hz.
      + by rewrite Hi.
      + split; cbn; [by rewrite Hi|]. intros. unfold slot_view, unlisted; cbn. by rewrite lookup_empty, Hz. }
  destruct Hc as [Hc Hst]. split; [by eapply cache_ok_equiv|]. split; [exact Hw|exact Hst].
Qed.

(** * Reading *)

Ltac inv_cases Hinv := destruct Hinv as [Hdb Hts HD HW Hb Ha].

Lemma load_cache_account_inv D S W a :
  state_inv D S W ->
  let '(r, S') := load_cache_account S a in
  state_inv D S' W /\ has_state_clear (sd_cache S') = has_state_clear (sd_cache S) /\
  (forall a', is_Some (cs_cached (sd_cache S) !! a') -> is_Some (cs_cached (sd_cache S') !! a')) /\
  match r with
  | Ok c => cs_cached (sd_cache S') !! a = Some c
  | Err _ => True
  end.
Proof.
  intros Hinv. pose proof Hinv as [Hdb Hts HD HW Hb Ha]. unfold load_cache_account.
  specialize (Ha a) as Haa. unfold account_inv in Haa.
  destruct (cs_cached (sd_cache S) !! a) as [c|] eqn:Ec; [done|].
  destruct Haa as [Ht Hba].
  (* a state with [c] added to the cache *)
  assert (Hins : forall d c, db_models D d -> cache_ok (D a) c (W a) ->
    linked (D a) (bs_state (sd_bundle_state S) !! a) None c (W a) ->
    state_inv D (with_sd_cache (cache_set a c (sd_cache S)) (with_sd_database d S)) W).
  { intros d c Hd Hc Hl. constructor; auto. intros a'. specialize (Ha a'). cbn.
    destruct (decide (a' = a)) as [->|Hne].
    - rewrite lookup_insert_eq. unfold pending in *; cbn. rewrite Ht. by split.
    - by rewrite lookup_insert_ne. }
  assert (Hmono : forall c a', is_Some (cs_cached (sd_cache S) !! a') ->
    is_Some (cs_cached (cache_set a c (sd_cache S)) !! a')).
  { intros c a' Hs. cbn. destruct (decide (a' = a)) as [->|]; [by rewrite lookup_insert_eq|].
    by rewrite lookup_insert_ne. }
  specialize (Hb a) as Hba'. unfold BundleState_account.
  destruct (bs_state (sd_bundle_state S) !! a) as [b|] eqn:Eb.
  - destruct Hba as [-> Hcb]. destruct Hba' as [Hok _]. split_and!; [|done|apply Hmono|apply lookup_insert_eq].
    destruct S. apply Hins; auto. split; [|done]. cbn.
    pose proof (CacheAccount_from_view _ _ Hok) as Hv. destruct Hcb as [Hw _ _ _ _ _ _ _ _].
    etrans; [symmetry; exact Hv|exact Hw].
  - replace (if sd_use_preloaded_bundle S then None else None) with (@None BundleAccount)
      by (by destruct (sd_use_preloaded_bundle S)).
    pose proof (db_models_basic D (sd_database S) a Hdb) as Hdb'.
    destruct Hdb as [Hbas _]. specialize (Hbas a).
    destruct (db_basic (sd_database S) a) as [[i|e] d] eqn:Ed; cbn in *.
    + destruct (loaded_account_ok (D a) (W a) i) as [Hc Hl]; auto.
      split_and!; [by apply Hins|done|apply Hmono|apply lookup_insert_eq].
    + split_and!; [|done..]. constructor; auto.
Qed.

(** A cached account of a state in the invariant. *)
Lemma cached_inv D S W a c :
  state_inv D S W -> cs_cached (sd_cache S) !! a = Some c ->
  cache_ok (D a) c (W a) /\ linked (D a) (bs_state (sd_bundle_state S) !! a) (pending S !! a) c (W a).
Proof. intros [_ _ _ _ _ Ha] Ec. specialize (Ha a). by rewrite Ec in Ha. Qed.

Lemma State_basic_inv D S W a :
  state_inv D S W ->
  let '(r, S') := State_basic S a in
  state_inv D S' W /\ has_state_clear (sd_cache S') = has_state_clear (sd_cache S) /\
  (forall a', is_Some (cs_cached (sd_cache S) !! a') -> is_Some (cs_cached (sd_cache S') !! a')) /\
  match r with
  | Ok i => info_equiv i (w_info (W a)) /\ is_Some (cs_cached (sd_cache S') !! a)
  | Err _ => True
  end.
Proof.
  intros Hinv. unfold State_basic. pose proof (load_cache_account_inv D S W a Hinv) as Hl.
  destruct (load_cache_account S a) as [[c|e] S']; cbn; [|done].
  destruct Hl as (Hinv' & Hsc & Hm & Ec). split_and!; auto.
  by eapply cache_ok_info, cached_inv.
Qed.

(** Storing a value that was read does not change what an account means. *)
Lemma cache_ok_insert d p st w k v :
  cache_ok d (mkCacheAccount (Some p) st) w -> pa_storage p !! k = None -> v = unlisted d st k ->
  cache_ok d (mkCacheAccount (Some (mkPlainAccount (pa_info p) (<[k := v]> (pa_storage p)))) st) w.
Proof.
  intros [[Hi Hs] H2 H3 H4 H5 H6 H7 H8 H9] Hk ->. cbn in *. constructor; cbn; auto.
  - split; [done|]. intros k'. rewrite <- Hs. cbn. destruct (decide (k' = k)) as [->|].
    + by rewrite lookup_insert_eq, Hk.
    + by rewrite lookup_insert_ne.
  - intros Hg. by discriminate (H2 Hg).
Qed.

Lemma State_storage_inv D S W a k :
  state_inv D S W -> is_Some (cs_cached (sd_cache S) !! a) ->
  exists r S', State_storage S a k = Some (r, S') /\
    state_inv D S' W /\ has_state_clear (sd_cache S') = has_state_clear (sd_cache S) /\
    (forall a', is_Some (cs_cached (sd_cache S) !! a') -> is_Some (cs_cached (sd_cache S') !! a')) /\
    match r with Ok v => v = w_storage (W a) k | Err _ => True end.
Proof.
  intros Hinv [c Ec]. destruct (cached_inv _ _ _ _ _ Hinv Ec) as [Hc Hl].
  unfold State_storage. rewrite Ec. pose proof Hc as [[_ Hs] _ _ _ _ _ _ _ _]. specialize (Hs k). cbn in Hs.
  destruct c as [p st]. cbn in *. destruct p as [p|]; [|eexists _, _; split; [reflexivity|]; by split_and!].
  destruct (pa_storage p !! k) as [v|] eqn:Ek; [eexists _, _; split; [reflexivity|]; by split_and!|].
  cbn in Hs. set (res := if is_storage_known st then _ else _).
  assert (Hres : exists d, res.2 = with_sd_database d S /\ db_models D d /\
    match res.1 with Ok v => v = unlisted (D a) st k | Err _ => True end).
  { unfold res, unlisted. destruct Hinv as [Hdb _ _ _ _ _]. destruct (is_storage_known st).
    - exists (sd_database S). by destruct S.
    - pose proof (db_models_storage D _ a k Hdb). destruct Hdb as [_ Hst]. specialize (Hst a k).
      destruct (db_storage (sd_database S) a k) as [[v|e] d]; cbn in *; exists d; auto. }
  destruct res as [r S1]. cbn in Hres. destruct Hres as (d & -> & Hd & Hr).
  assert (Hinv1 : state_inv D (with_sd_database d S) W) by (destruct Hinv; by constructor).
  destruct r as [v|e]; (eexists _, _; split; [reflexivity|]); [|by split_and!].
  split_and!; [|done| |by rewrite <- Hs].
  - destruct Hinv1 as [H1 H2 H3 H4 H5 Ha]. constructor; auto. intros a'. specialize (Ha a').
    cbn in *. destruct (decide (a' = a)) as [->|Hne]; [|by rewrite lookup_insert_ne].
    rewrite lookup_insert_eq. rewrite Ec in Ha. split; [by apply cache_ok_insert|]. apply Ha.
  - intros a' Hs'. cbn. destruct (decide (a' = a)) as [->|]; [by rewrite lookup_insert_eq|].
    by rewrite lookup_insert_ne.
Qed.

(** * Committing a transaction *)

(** Every account a transaction touched has been loaded, and what it did to it
    is valid. *)
Definition evm_state_valid (clear : bool) (cache : CacheState) (W : Z -> AccountWorld)
    (l : list (Z * Account)) : Prop :=
  NoDup l.*1 /\ forall a acc, (a, acc) ∈ l -> Account_is_touched acc = true ->
  is_Some (cs_cached cache !! a) /\ commit_valid clear (W a) acc.

Definition commit_world (clear : bool) (W : Z -> AccountWorld) (m : gmap Z Account) : Z -> AccountWorld :=
  fun a => match m !! a with Some acc => commit_account clear (W a) acc | None => W a end.

(** The effect of the loop on one address: the operation of the cache, or none. *)
Definition evm_step (d : AccountWorld) (clear : bool) (w : AccountWorld) (acc : option Account)
    (c c' : option CacheAccount) (t : option TransitionAccount) : Prop :=
  (c' = c /\ t = None /\ match acc with Some acc => commit_account clear w acc = w | None => True end) \/
  exists c0 c1 acc0, c = Some c0 /\ c' = Some c1 /\ acc = Some acc0 /\
    cache_step d c0 w t c1 (commit_account clear w acc0).

Lemma apply_evm_loop_correct D W l : forall cache acc,
  (forall a, world_normal (W a)) -> evm_state_valid (has_state_clear cache) cache W l ->
  (forall a c, cs_cached cache !! a = Some c -> a ∈ l.*1 -> cache_ok (D a) c (W a)) ->
  exists trs cache', apply_evm_state_loop l cache acc = Some (acc ++ trs, cache') /\
    NoDup trs.*1 /\ trs.*1 ⊆ l.*1 /\ has_state_clear cache' = has_state_clear cache /\
    forall a, evm_step (D a) (has_state_clear cache) (W a) ((list_to_map l : gmap Z Account) !! a)
      (cs_cached cache !! a) (cs_cached cache' !! a)
      ((list_to_map trs : gmap Z TransitionAccount) !! a).
Proof.
  induction l as [|[a acc0] l IH]; intros cache acc HW [Hnd Hv] Hc.
  { exists [], cache. rewrite app_nil_r. split_and!; try done.
    intros a. left. by rewrite !list_to_map_nil, !lookup_empty. }
  apply NoDup_cons in Hnd as [Hni Hnd].
  assert (Hin : forall a' t', (a', t') ∈ l -> a' <> a).
  { intros a' t' Hin ->. apply Hni. apply list_elem_of_fmap. by exists (a, t'). }
  assert (Hstep : exists t cache1, apply_account_state cache a acc0 = Some (t, cache1) /\
    has_state_clear cache1 = has_state_clear cache /\
    (forall a', a' <> a -> cs_cached cache1 !! a' = cs_cached cache !! a') /\
    evm_step (D a) (has_state_clear cache) (W a) (Some acc0) (cs_cached cache !! a)
      (cs_cached cache1 !! a) t).
  { destruct (Account_is_touched acc0) eqn:Et.
    - destruct (Hv a acc0) as [[c Ec] Hval]; [by left|done|].
      destruct (apply_account_step cache a acc0 c (D a) (W a)) as (t & c' & E1 & Hs);
        [done|done|apply Hc; [done|by left]|done|done|].
      exists t, (cache_set a c' cache). split_and!; [done|done| |].
      + intros a' Hne. cbn. by rewrite lookup_insert_ne.
      + right. exists c, c', acc0. cbn. by rewrite lookup_insert_eq.
    - unfold apply_account_state. rewrite Et. exists None, cache. split_and!; try done.
      left. split_and!; try done. unfold commit_account. by rewrite Et. }
  destruct Hstep as (t & cache1 & E1 & Hsc & Hoth & Hev).
  set (acc1 := match t with Some t => acc ++ [(a, t)] | None => acc end).
  destruct (IH cache1 acc1) as (trs & cache' & E2 & Hnd' & Hsub & Hsc' & Hall); auto.
  { rewrite Hsc. split; [done|]. intros a' acc' Hin' Ht'. rewrite Hoth by eauto. apply Hv; [by right|done]. }
  { intros a' c' Ec' Hin'. apply Hc; [|by right]. rewrite <- Hoth; [done|].
    apply list_elem_of_fmap in Hin' as ([? ?] & -> & ?). eauto. }
  set (trs' := match t with Some t => (a, t) :: trs | None => trs end).
  exists trs', cache'. split_and!.
  - cbn. rewrite E1. fold acc1. rewrite E2. unfold acc1, trs'. destruct t; [|done].
    by rewrite <- (assoc_L (++)).
  - unfold trs'. destruct t; [|done]. cbn. constructor; [set_solver|done].
  - unfold trs'. destruct t; set_solver.
  - congruence.
  - intros a'. specialize (Hall a'). rewrite Hsc in Hall. rewrite list_to_map_cons.
    destruct (decide (a' = a)) as [->|Hne].
    + rewrite lookup_insert_eq.
      rewrite not_elem_of_list_to_map_1 in Hall by done.
      rewrite not_elem_of_list_to_map_1 in Hall by set_solver.
      destruct Hall as [(Ec & _ & _)|(? & ? & ? & ? & ? & ? & ?)]; [|done].
      rewrite Ec. unfold trs'. destruct t as [t|].
      * by rewrite list_to_map_cons, lookup_insert_eq.
      * by rewrite not_elem_of_list_to_map_1 by set_solver.
    + rewrite lookup_insert_ne by done. rewrite Hoth in Hall by done. unfold trs'.
      destruct t as [t|]; [|done]. by rewrite list_to_map_cons, lookup_insert_ne.
Qed.

Lemma State_commit_inv D S W m :
  state_inv D S W -> evm_state_valid (has_state_clear (sd_cache S)) (sd_cache S) W (map_to_list m) ->
  exists S', State_commit S m = Some S' /\
    state_inv D S' (commit_world (has_state_clear (sd_cache S)) W m) /\
    has_state_clear (sd_cache S') = has_state_clear (sd_cache S) /\
    (forall a', is_Some (cs_cached (sd_cache S) !! a') -> is_Some (cs_cached (sd_cache S') !! a')).
Proof.
  intros Hinv Hv. unfold State_commit.
  destruct (apply_evm_loop_correct D W (map_to_list m) (sd_cache S) []) as (trs & cache' & El & Hnd & _ & Hsc & Hall).
  { by destruct Hinv. } { done. } { intros a c Ec _. by apply (cached_inv _ _ _ _ _ Hinv Ec). }
  rewrite El. eexists; split; [reflexivity|]. cbn [app]. rewrite list_to_map_to_list in Hall.
  destruct Hinv as [Hdb [ts Hts] HD HW Hb Ha]. unfold State_apply_transition. cbn. rewrite Hts.
  split_and!; [|done|].
  - constructor; cbn; try done.
    + intros a. unfold commit_world. destruct (m !! a) as [acc|] eqn:Em; [|done].
      destruct (Account_is_touched acc) eqn:Et.
      * destruct (proj2 Hv a acc) as [_ Hval]; [by apply elem_of_map_to_list|done|]. by destruct Hval.
      * unfold commit_account. rewrite Et. apply HW.
    + intros a. unfold pending in *; cbn. rewrite add_transitions_lookup by done.
      specialize (Ha a). rewrite Hts in Ha. cbn in Ha.
      assert (Hcw : commit_world (has_state_clear (sd_cache S)) W m a
        = match m !! a with Some acc => commit_account (has_state_clear (sd_cache S)) (W a) acc | None => W a end) by done.
      rewrite Hcw. destruct (Hall a) as [(-> & -> & Hsame)|(c0 & c1 & acc0 & E0 & -> & -> & Hst)].
      * destruct (m !! a); [|done]. by rewrite Hsame.
      * rewrite E0 in Ha. destruct Ha as [Hc Hl]. split; [by destruct Hst|].
        pose proof (linked_step _ _ _ _ _ _ _ _ Hl Hc Hst) as Hl'. by destruct (list_to_map trs !! a).
  - intros a [c Ec]. cbn. destruct (Hall a) as [(-> & _)|(c0 & c1 & acc0 & _ & -> & _)]; by eexists.
Qed.

(** * Merging the transitions of a block *)

Lemma world_normal_ok w : world_normal w -> world_ok w.
Proof. by intros [Hn _ _ _]. Qed.

Lemma merge_transitions_inv D S W retention :
  state_inv D S W ->
  exists S', merge_transitions S retention = Some S' /\ state_inv D S' W /\
    has_state_clear (sd_cache S') = has_state_clear (sd_cache S) /\
    sd_cache S' = sd_cache S /\
    forall a, world_equiv (bundle_world D (sd_bundle_state S') a) (W a).
Proof.
  intros [Hdb [ts Hts] HD HW Hb Ha]. unfold merge_transitions. rewrite Hts. cbn.
  unfold pending in Ha. rewrite Hts in Ha. cbn in Ha.
  assert (Hok : transitions_ok D (sd_bundle_state S) (map_to_list ts)).
  { split; [apply NoDup_fst_map_to_list|]. intros a t Hin%elem_of_map_to_list.
    specialize (Ha a). rewrite Hin in Ha. unfold account_inv in Ha.
    destruct (cs_cached (sd_cache S) !! a); [by destruct Ha as [_ [? _]]|by destruct Ha]. }
  destruct (apply_loop_correct D (fun a => world_normal_ok _ (HD a)) (includes_reverts retention)
    (map_to_list ts) (sd_bundle_state S) [] Hb Hok) as (bs' & rs & n & El & Hb' & Hoth & Hw & _).
  unfold apply_transitions_and_create_reverts. rewrite El.
  assert (Hnew : forall a, account_inv (D a) (sd_use_preloaded_bundle S) (bs_state bs' !! a) None
    (cs_cached (sd_cache S) !! a) (W a)).
  { intros a. specialize (Ha a). destruct (ts !! a) as [t|] eqn:Et.
    - unfold account_inv in *. destruct (cs_cached (sd_cache S) !! a) as [c|]; [|by destruct Ha].
      destruct Ha as [Hc (_ & Hwt & Hst)]. split; [done|].
      destruct (Hw a t) as [Hw1 Hset]; [by apply elem_of_map_to_list|].
      split; [etrans; [exact Hw1|exact Hwt]|]. rewrite <- Hst.
      eapply started_equiv; [|exact Hset]. destruct Hwt as [Hi _]. cbn in Hi.
      etrans; [exact Hi|]. symmetry. by eapply cache_ok_info.
    - rewrite Hoth; [done|]. intros ([? ?] & -> & Hin)%list_elem_of_fmap.
      apply elem_of_map_to_list in Hin. cbn in *. congruence. }
  eexists; split; [reflexivity|]. split_and!; [constructor; cbn; try done|done..|].
  intros a. specialize (Hnew a). unfold bundle_world; cbn. unfold account_inv in Hnew.
    destruct (cs_cached (sd_cache S) !! a) as [c|]; [by destruct Hnew as [_ [? _]]|].
    destruct Hnew as [_ Hnew]. specialize (Hb' a).
    destruct (bs_state bs' !! a) as [b|]; [|done]. destruct Hnew as [_ [Hcw _ _ _ _ _ _ _ _]].
    destruct Hb' as [Hok' _]. etrans; [symmetry; by apply CacheAccount_from_view|done].
Qed.

(** * Increments of balances *)

Definition increment_account (w : AccountWorld) (bal : Z) : AccountWorld :=
  let i := default AccountInfo_default (w_info w) in
  mkAccountWorld (Some (AccountInfo_set_balance (saturating_add 256 (balance i) bal) i)) (w_storage w).
Definition increment_world (W : Z -> AccountWorld) (x : Z * Z) : Z -> AccountWorld :=
  if x.2 =? 0 then W
  else fun a => if decide (a = x.1) then increment_account (W a) x.2 else W a.

Lemma has_no_code_set_balance v i :
  AccountInfo_has_no_code_and_nonce (AccountInfo_set_balance v i) = AccountInfo_has_no_code_and_nonce i.
Proof. done. Qed.

Lemma increment_not_empty w bal :
  world_normal w -> 0 < bal ->
  forall i, w_info (increment_account w bal) = Some i -> AccountInfo_is_empty i = false /\ 0 <= balance i.
Proof.
  intros [_ _ _ Hb] Hbal i [= <-].
  assert (Hb0 : 0 <= balance (default AccountInfo_default (w_info w))).
  { destruct (w_info w) as [j|]; cbn; [by apply Hb|done]. }
  assert (Hp : 0 < saturating_add 256 (balance (default AccountInfo_default (w_info w))) bal).
  { unfold saturating_add. assert (1 < modulus 256) by (by vm_compute). lia. }
  split; [|cbn; lia]. unfold AccountInfo_is_empty. cbn.
  destruct (Z.eqb_spec (saturating_add 256 (balance (default AccountInfo_default (w_info w))) bal) 0); [lia|].
  by rewrite andb_false_r.
Qed.

Lemma increment_normal w bal : world_normal w -> 0 < bal -> world_normal (increment_account w bal).
Proof.
  intros Hn Hbal. pose proof (increment_not_empty w bal Hn Hbal) as Hne. destruct Hn as [H1 H2 H3 H4].
  constructor.
  - done.
  - intros i [= <-]. rewrite has_no_code_set_balance. cbn. intros Hno.
    destruct (w_info w) as [j|] eqn:Ej; [by eapply H2|auto].
  - intros i Hi He. by rewrite (proj1 (Hne i Hi)) in He.
  - intros i Hi. by apply Hne.
Qed.

(** One account of the loop: [S] with the transitions collected so far. *)
Lemma increment_step D S W a c bal :
  state_inv D S W -> cs_cached (sd_cache S) !! a = Some c -> 0 < bal ->
  let '(t, c') := increment_balance c bal in
  exists t0, t = Some t0 /\
    state_inv D (State_apply_transition (with_sd_cache (cache_set a c' (sd_cache S)) S) [(a, t0)])
      (increment_world W (a, bal)).
Proof.
  intros Hinv Ec Hbal. destruct (cached_inv _ _ _ _ _ Hinv Ec) as [Hc Hl].
  destruct Hinv as [Hdb [ts Hts] HD HW Hb Ha]. pose proof (cache_ok_info _ _ _ Hc) as Hi.
  assert (Hnz : (bal =? 0) = false) by (apply Z.eqb_neq; lia). unfold increment_balance. rewrite Hnz.
  rewrite account_info_change_eq. cbn -[CacheAccount_change saturating_add].
  set (ci := default AccountInfo_default (CacheAccount_account_info c)).
  set (new := AccountInfo_set_balance (saturating_add 256 (balance ci) bal) ci).
  set (wi := default AccountInfo_default (w_info (W a))).
  assert (Hci : AccountInfo_eq ci wi = true).
  { unfold ci, wi. destruct (CacheAccount_account_info c), (w_info (W a)); done || (by apply AccountInfo_eq_spec). }
  assert (Hnew : AccountInfo_eq new (AccountInfo_set_balance (saturating_add 256 (balance wi) bal) wi) = true).
  { apply AccountInfo_eq_spec in Hci as (Hb1 & Hn1 & Hc1). apply AccountInfo_eq_spec. unfold new. cbn.
    by rewrite Hb1, Hn1, Hc1. }
  destruct (increment_not_empty (W a) bal (HW a) Hbal _ eq_refl) as [Hne _].
  pose proof (changed_step (D a) c (W a) new ∅ Hc (HW a)) as Hst.
  destruct (CacheAccount_change c new ∅) as [t c']. cbn. exists t; split; [done|].
  assert (Hstep : cache_step (D a) c (W a) (Some t) c' (increment_account (W a) bal)).
  { destruct Hst as (Hc' & Htr & Hw & Hrest).
    - intros k s. by rewrite lookup_empty.
    - intros _. by rewrite (is_empty_equiv _ _ Hnew).
    - intros i Ei Hno. unfold new. rewrite has_no_code_set_balance, (has_no_code_equiv _ _ Hci).
      unfold wi. by rewrite Ei.
    - assert (Heq : world_equiv (mkAccountWorld (Some new) (slot_view (w_storage (W a)) ∅))
        (increment_account (W a) bal)) by (split; [exact Hnew|intros k; apply slot_view_empty]).
      split; [by eapply cache_ok_equiv|]. split_and!; [done|by etrans|apply Hrest..]. }
  unfold State_apply_transition. cbn. rewrite Hts. constructor; cbn; try done.
  - intros a'. unfold increment_world. cbn. rewrite Hnz. case_decide; [|done]. subst. by apply increment_normal.
  - intros a'. unfold pending. cbn. unfold TransitionState_add_transition. cbn.
    unfold pending in *. rewrite Hts in *. cbn in *. specialize (Ha a').
    unfold increment_world. cbn. rewrite Hnz. destruct (decide (a' = a)) as [->|Hna].
    + rewrite lookup_insert_eq.
      split; [by destruct Hstep|]. pose proof (linked_step _ _ _ _ _ _ _ _ Hl Hc Hstep) as Hl'. cbn in Hl'.
      destruct (ts !! a) as [t1|]; by rewrite lookup_insert_eq.
    + rewrite lookup_insert_ne by done.
      destruct (ts !! a); by rewrite lookup_insert_ne.
Qed.

(** Loading and changing the cache commute with pending transitions. *)
Lemma load_apply_transition S trs a :
  load_cache_account (State_apply_transition S trs) a
  = let '(r, S') := load_cache_account S a in (r, State_apply_transition S' trs).
Proof.
  unfold load_cache_account, State_apply_transition. destruct S as [ca d [ts|] b u h]; cbn; [|by repeat case_match].
  repeat case_match; simplify_eq/=; done.
Qed.

Lemma apply_transition_app S trs trs' c :
  State_apply_transition (with_sd_cache c S) (trs ++ trs')
  = State_apply_transition (with_sd_cache c (State_apply_transition S trs)) trs'.
Proof.
  unfold State_apply_transition. destruct S as [ca d [ts|] b u h]; cbn; [|done].
  unfold TransitionState_add_transitions. by rewrite fold_left_app.
Qed.

Lemma increment_loop_inv D l : forall S W trs,
  state_inv D (State_apply_transition S trs) W -> Forall (fun x => 0 <= x.2) l ->
  let '(r, S') := increment_balances_loop l S trs in
  match r with
  | Ok _ => state_inv D S' (fold_left increment_world l W)
  | Err _ => True
  end /\ has_state_clear (sd_cache S') = has_state_clear (sd_cache S).
Proof.
  induction l as [|[a bal] l IH]; intros S W trs Hinv Hl; cbn [increment_balances_loop].
  { split; [exact Hinv|]. unfold State_apply_transition. by destruct (sd_transition_state S). }
  apply Forall_cons in Hl as [Hbal Hl]. cbn in Hbal. cbn [fold_left].
  destruct (Z.eqb_spec bal 0) as [->|Hne].
  - exact (IH S W trs Hinv Hl).
  - assert (Hpos : 0 < bal) by lia.
    pose proof (load_cache_account_inv D _ W a Hinv) as Hload. rewrite load_apply_transition in Hload.
    assert (Hsc : has_state_clear (sd_cache (load_cache_account S a).2) = has_state_clear (sd_cache S)).
    { unfold load_cache_account. by repeat case_match. }
    destruct (load_cache_account S a) as [[c|e] S1]; cbn in Hsc; [|done].
    destruct Hload as (Hinv1 & _ & _ & Ec).
    pose proof (increment_step D _ W a c bal Hinv1 Ec Hpos) as Hstep.
    destruct (increment_balance c bal) as [t c']. destruct Hstep as (t0 & -> & Hinv2).
    assert (Eca : sd_cache (State_apply_transition S1 trs) = sd_cache S1)
      by (unfold State_apply_transition; by destruct (sd_transition_state S1)).
    rewrite Eca, <- apply_transition_app in Hinv2.
    specialize (IH _ _ _ Hinv2 Hl). destruct (increment_balances_loop l _ _) as [r S'].
    destruct IH as [IH1 IH2]. split; [exact IH1|]. rewrite IH2. exact Hsc.
Qed.

(** * Executions

    The operations a client uses on a state, what each answers, and when a
    client may use it. *)

Inductive db_op : Type :=
| OpBasic (a : Z)
| OpStorage (a k : Z)
| OpCommit (m : gmap Z Account)
| OpIncrement (l : list (Z * Z))
| OpMerge (r : BundleRetention).

Inductive db_answer : Type :=
| AnsInfo (r : result (option AccountInfo) E)
| AnsValue (r : result Z E)
| AnsUnit (r : result unit E).

Definition exec_op (self : StateDb DB) (op : db_op) : option (db_answer * StateDb DB) :=
  match op with
  | OpBasic a => let '(r, self) := State_basic self a in Some (AnsInfo r, self)
  | OpStorage a k => let? (r, self) := State_storage self a k in Some (AnsValue r, self)
  | OpCommit m => let? self := State_commit self m in Some (AnsUnit (Ok tt), self)
  | OpIncrement l => let '(r, self) := increment_balances self l in Some (AnsUnit r, self)
  | OpMerge r => let? self := merge_transitions self r in Some (AnsUnit (Ok tt), self)
  end.

(** Storage is read of accounts that were read before, transactions are valid,
    and balances grow. *)
Definition op_valid S (W : Z -> AccountWorld) (op : db_op) : Prop :=
  match op with
  | OpStorage a _ => is_Some (cs_cached (sd_cache S) !! a)
  | OpCommit m => evm_state_valid (has_state_clear (sd_cache S)) (sd_cache S) W (map_to_list m)
  | OpIncrement l => Forall (fun x => 0 <= x.2) l
  | _ => True
  end.

(** The effect of an operation on the world, and the answers it may give. *)
Definition op_world S (W : Z -> AccountWorld) (op : db_op) : Z -> AccountWorld :=
  match op with
  | OpCommit m => commit_world (has_state_clear (sd_cache S)) W m
  | OpIncrement l => fold_left increment_world l W
  | _ => W
  end.

Definition answer_ok (W : Z -> AccountWorld) (op : db_op) (ans : db_answer) : Prop :=
  match op, ans with
  | OpBasic a, AnsInfo (Ok i) => info_equiv i (w_info (W a))
  | OpStorage a k, AnsValue (Ok v) => v = w_storage (W a) k
  | OpBasic _, AnsInfo (Err _) | OpStorage _ _, AnsValue (Err _) => True
  | OpCommit _, AnsUnit (Ok _) | OpMerge _, AnsUnit (Ok _) | OpIncrement _, AnsUnit _ => True
  | _, _ => False
  end.

(** [increment_balances] that fails half way leaves changed accounts without
    transitions, so an execution ends there. *)
Definition op_completes (op : db_op) (ans : db_answer) : Prop :=
  match op, ans with OpIncrement _, AnsUnit (Err _) => False | _, _ => True end.

Inductive state_run : StateDb DB -> (Z -> AccountWorld) -> StateDb DB -> (Z -> AccountWorld) -> Prop :=
| run_nil S W : state_run S W S W
| run_cons S W op ans S1 S2 W2 :
    op_valid S W op -> exec_op S op = Some (ans, S1) -> op_completes op ans ->
    state_run S1 (op_world S W op) S2 W2 -> state_run S W S2 W2.

Lemma exec_op_inv D S W op :
  state_inv D S W -> op_valid S W op ->
  exists ans S', exec_op S op = Some (ans, S') /\ answer_ok W op ans /\
    (op_completes op ans -> state_inv D S' (op_world S W op)) /\
    match op with
    | OpMerge _ => forall a, world_equiv (bundle_world D (sd_bundle_state S') a) (W a)
    | _ => True
    end.
Proof.
  intros Hinv Hv. destruct op as [a|a k|m|l|r]; cbn in *.
  - pose proof (State_basic_inv D S W a Hinv) as Hb. destruct (State_basic S a) as [r S'].
    destruct Hb as (Hinv' & _ & _ & Hr). eexists _, _; split; [reflexivity|].
    split_and!; [|done..]. destruct r; [by destruct Hr|done].
  - destruct (State_storage_inv D S W a k Hinv Hv) as (r & S' & -> & Hinv' & _ & _ & Hr).
    eexists _, _; split; [reflexivity|]. by split_and!.
  - destruct (State_commit_inv D S W m Hinv Hv) as (S' & -> & Hinv' & _).
    eexists _, _; split; [reflexivity|]. by split_and!.
  - unfold increment_balances. pose proof (increment_loop_inv D l S W []) as Hl.
    destruct (increment_balances_loop l S []) as [r S'].
    eexists _, _; split; [reflexivity|]. split_and!; [done| |done].
    intros Hok. destruct r; [|done]. apply Hl; [|done].
    unfold State_apply_transition. destruct Hinv as [Hdb [ts Hts] HD HW Hb Ha]. rewrite Hts.
    constructor; cbn; try done. intros a'. specialize (Ha a'). unfold pending in *. by rewrite Hts in Ha.
  - destruct (merge_transitions_inv D S W r Hinv) as (S' & -> & Hinv' & _ & _ & Hw).
    eexists _, _; split; [reflexivity|]. by split_and!.
Qed.

Lemma state_run_inv D S W S' W' : state_run S W S' W' -> state_inv D S W -> state_inv D S' W'.
Proof.
  induction 1 as [|S W op ans S1 S2 W2 Hv He Hc _ IH]; intros Hinv; [done|]. apply IH.
  destruct (exec_op_inv D S W op Hinv Hv) as (ans' & S' & He' & _ & Hinv' & _).
  rewrite He in He'. simplify_eq. by apply Hinv'.
Qed.

(** A fresh state over a database. *)
Definition fresh_state (d : DB) : StateDb DB :=
  StateBuilder_build (StateBuilder_with_bundle_update (StateBuilder_new_with_database d)).

Lemma fresh_state_inv D d :
  db_models D d -> (forall a, world_normal (D a)) -> state_inv D (fresh_state d) D.
Proof.
  intros Hd HD. by constructor.
Qed.

(** C3: the block state refines a plain world.  From a fresh state over a
    database, with the state clear of EIP-161 on and with transitions kept, whatever accounts and slots are read, valid transactions committed,
    balances incremented and blocks merged, in any order, every further such
    operation succeeds without a panic (in the status transitions, the cache or
    the bundle), reads answer what the world holds after the transactions so far
    (or an error of the database), and after a merge the bundle alone, read over
    the unchanged database, is that world.

    Conditions.  The world of the database is normal ([world_normal]): an account
    without code and nonce, or a missing one, has no storage, an empty one has the
    default info.  A slot is read, and an account committed, only after the account
    was read.  A committed account is what an execution can make of the world
    ([commit_valid]): its changed slots start from their values in the world; it is
    created only where there was no code, nonce or storage; it is left touched and
    empty only if it was empty or missing and no slot changed (an account that spends
    its money has code or a nonce, so the EVM empties an account only by destruction;
    [touch_empty_loaded_lost] shows that the bundle loses a commit that does it); it does not lose its code and nonce except by destruction; and
    what it leaves is normal.  Increments are not negative, and the run ends at an
    [increment_balances] that fails, which leaves changed accounts without
    transitions. *)
Theorem state_refines_world D d S W op :
  db_models D d -> (forall a, world_normal (D a)) ->
  state_run (fresh_state d) D S W -> op_valid S W op ->
  exists ans S', exec_op S op = Some (ans, S') /\ answer_ok W op ans /\
    match op with
    | OpMerge _ => forall a, world_equiv (bundle_world D (sd_bundle_state S') a) (W a)
    | _ => True
    end.
Proof.
  intros Hd HD Hrun Hv.
  destruct (exec_op_inv D S W op) as (ans & S' & He & Hans & _ & Hm); [|done|by exists ans, S'].
  eapply state_run_inv; [exact Hrun|]. by apply fresh_state_inv.
Qed.
End StateLaws.

(** * Examples *)

Module StateExample.
#[local] Existing Instance Lsb0BitVec.

(** A database with one account, which has a nonce and the value 7 in slot 2. *)
Inductive OneAccount : Type := one_account.
Definition alice : AccountInfo := mkAccountInfo 50 1 KECCAK_EMPTY None None.
#[local] Instance OneAccount_Database : Database OneAccount Empty_set := {|
  db_basic d a := (Ok (if a =? 1 then Some alice else None), d);
  db_code_by_hash d h := (Ok Bytecode_default, d);
  db_storage d a k := (Ok (if (a =? 1) && (k =? 2) then 7 else 0), d);
  db_block_hash d n := (Ok 0, d) |}.
#[local] Instance OneAccount_Laws : DatabaseLaws OneAccount Empty_set.
Proof.
  refine {| same_db := eq |}; intros; simplify_eq/=; try done.
  destruct (a =? 1); simplify_eq/=. by vm_compute.
Defined.

Definition one_world : Z -> AccountWorld := fun a =>
  mkAccountWorld (if a =? 1 then Some alice else None)
    (fun k => if (a =? 1) && (k =? 2) then 7 else 0).

Lemma one_models : db_models one_world one_account.
Proof.
  split; cbn.
  - intros a i [= <-]. by destruct (a =? 1).
  - by intros a k v [= <-].
Defined.

Lemma one_normal a : world_normal (one_world a).
Proof.
  constructor; cbn; destruct (a =? 1); try done.
  - intros i [= <-]. by vm_compute.
  - intros i [= <-]. by vm_compute.
  - intros i [= <-]. by vm_compute.
Defined.

(** The account 1 is read and paid; a transaction then reads the address 5, writes
    the slot 2 of the account 1 and creates a contract at 5 with a slot of its own;
    then a block is merged. *)
Definition state0 : StateDb OneAccount := fresh_state one_account.
Definition after (self : StateDb OneAccount) (op : db_op) : StateDb OneAccount :=
  match exec_op self op with Some (_, self) => self | None => self end.
Definition state1 : StateDb OneAccount := after state0 (OpBasic 1).
Definition state2 : StateDb OneAccount := after state1 (OpIncrement [(1, 100)]).
Definition paid_world : Z -> AccountWorld := increment_world one_world (1, 100).
Definition state3 : StateDb OneAccount := after state2 (OpBasic 5).

Definition spent : AccountInfo := mkAccountInfo 140 2 KECCAK_EMPTY None None.
Definition contract : AccountInfo := mkAccountInfo 10 1 77 None None.
Definition output : gmap Z Account :=
  <[1 := mkAccount spent alice 0 {[2 := mkEvmStorageSlot 7 9 0 false]} Touched]>
  {[5 := mkAccount contract AccountInfo_default 0 {[3 := mkEvmStorageSlot 0 4 0 false]}
           (status_insert Touched Created)]}.
Definition state4 : StateDb OneAccount := after state3 (OpCommit output).
Definition output_world : Z -> AccountWorld :=
  commit_world (has_state_clear (sd_cache state3)) paid_world output.

Lemma output_valid : op_valid state3 paid_world (OpCommit output).
Proof.
  split; [apply NoDup_fst_map_to_list|]. intros a acc Ha _. apply elem_of_map_to_list in Ha. unfold output in Ha.
  apply lookup_insert_Some in Ha as [[<- <-]|[_ [<- <-]%lookup_singleton_Some]].
  - split; [vm_compute; by eexists|]. split; cbn; try done.
    + by intros k s [<- <-]%lookup_singleton_Some.
    + constructor; [done| | |]; intros i [= <-]; by vm_compute.
  - split; [vm_compute; by eexists|]. split; cbn; try done.
    + by intros k s [<- <-]%lookup_singleton_Some.
    + constructor; [done| | |]; intros i [= <-]; by vm_compute.
Qed.

Lemma output_run : state_run state0 one_world state4 output_world.
Proof.
  eapply run_cons with (op := OpBasic 1); [exact I|vm_compute; reflexivity|exact I|].
  eapply run_cons with (op := OpIncrement [(1, 100)]);
    [repeat constructor; cbn; lia|vm_compute; reflexivity|exact I|].
  eapply run_cons with (op := OpBasic 5); [exact I|vm_compute; reflexivity|exact I|].
  eapply run_cons with (op := OpCommit output); [exact output_valid|vm_compute; reflexivity|exact I|].
  apply run_nil.
Qed.

(** The world after the run: the slot of the account 1 and the new contract. *)
Lemma output_world_holds :
  w_storage (output_world 1) 2 = 9 /\ w_info (output_world 1) = Some spent
  /\ w_info (output_world 5) = Some contract /\ w_storage (output_world 5) 3 = 4.
Proof. by vm_compute. Qed.

Lemma state_refines_world_witness :
  exists ans S', exec_op state4 (OpMerge RetainReverts) = Some (ans, S') /\
    answer_ok output_world (OpMerge RetainReverts) ans /\
    forall a, world_equiv (bundle_world one_world (sd_bundle_state S') a) (output_world a).
Proof.
  apply (state_refines_world one_world one_account state4 output_world (OpMerge RetainReverts));
    [exact one_models|exact one_normal|exact output_run|exact I].
Defined.

(** A touched account that a transaction leaves without balance, nonce and
    code. *)
Definition emptied : Account :=
  mkAccount AccountInfo_default AccountInfo_default 0 ∅ Touched.

(** An account of the database that a transaction leaves touched and empty
    is deleted in the cache but not in the bundle: its status becomes
    [LoadedNotExisting], a transition the bundle drops, so after the merge the
    state answers that the account does not exist while the bundle, written to
    the database, keeps it with its old balance, nonce and storage. *)
Theorem touch_empty_loaded_lost :
  exists S1 S2, State_commit state1 {[1 := emptied]} = Some S1 /\
    merge_transitions S1 RetainReverts = Some S2 /\
    (State_basic S2 1).1 = Ok None /\
    bs_state (sd_bundle_state S2) = ∅ /\
    w_info (bundle_world one_world (sd_bundle_state S2) 1) = Some alice.
Proof. eexists _, _. split; [vm_compute; reflexivity|]. by vm_compute. Qed.
End StateExample.
