(* ===== verification/CacheDB.v ===== *)
(** Databases over databases: the [DatabaseRef] trait with [WrapDatabaseRef]
    ([crates/database/interface/src/lib.rs]), the choice of two databases
    ([either.rs]), the reads of [State] by reference ([states/state.rs]), and the
    in-memory database [CacheDB] and the benchmark database
    ([crates/database/src/in_memory_db.rs]).

    [DatabaseRef] reads with [&self], so its methods return no new database. *)
From S2P Require Import Prelude Hardfork Bytecode State Database JournalEntry JournalInner BundleAccount BundleAccountLaws BundleState CacheState CacheAccountLaws StateDb.
From stdpp Require Import base numbers list option tactics gmap.
From Stdlib Require Import ZArith Lia Setoid.

Local Open Scope Z_scope.

Class DatabaseRef (DB E : Type) := {
  basic_ref : DB -> Z -> result (option AccountInfo) E;
  code_by_hash_ref : DB -> Z -> result Bytecode E;
  storage_ref : DB -> Z -> Z -> result Z E;
  block_hash_ref : DB -> Z -> result Z E }.

(** [WrapDatabaseRef]: a [Database] that never changes. *)
Definition WrapDatabaseRef_Database {DB E} `{DatabaseRef DB E} : Database DB E := {|
  db_basic d a := (basic_ref d a, d);
  db_code_by_hash d h := (code_by_hash_ref d h, d);
  db_storage d a k := (storage_ref d a k, d);
  db_block_hash d n := (block_hash_ref d n, d) |}.

(** [Either<L, R>]: each operation goes to the side there is. *)
Definition on_left {L R A : Type} (x : A * L) : A * (L + R) := (x.1, inl x.2).
Definition on_right {L R A : Type} (x : A * R) : A * (L + R) := (x.1, inr x.2).
Definition Either_Database {L R E} `{Database L E, Database R E} : Database (L + R) E := {|
  db_basic d a := match d with inl d => on_left (db_basic d a) | inr d => on_right (db_basic d a) end;
  db_code_by_hash d h :=
    match d with inl d => on_left (db_code_by_hash d h) | inr d => on_right (db_code_by_hash d h) end;
  db_storage d a k :=
    match d with inl d => on_left (db_storage d a k) | inr d => on_right (db_storage d a k) end;
  db_block_hash d n :=
    match d with inl d => on_left (db_block_hash d n) | inr d => on_right (db_block_hash d n) end |}.

Definition Either_DatabaseCommit {L R} `{DatabaseCommit L, DatabaseCommit R} : DatabaseCommit (L + R) :=
  fun d changes =>
    match d with
    | inl d => inl <$> db_commit d changes
    | inr d => inr <$> db_commit d changes
    end.
Definition Either_DatabaseRef {L R E} `{DatabaseRef L E, DatabaseRef R E} : DatabaseRef (L + R) E := {|
  basic_ref d a := match d with inl d => basic_ref d a | inr d => basic_ref d a end;
  code_by_hash_ref d h := match d with inl d => code_by_hash_ref d h | inr d => code_by_hash_ref d h end;
  storage_ref d a k := match d with inl d => storage_ref d a k | inr d => storage_ref d a k end;
  block_hash_ref d n := match d with inl d => block_hash_ref d n | inr d => block_hash_ref d n end |}.

Definition EmptyDB_DatabaseRef `{BitVec, Keccak} : DatabaseRef EmptyDB Empty_set := {|
  basic_ref _ a := Ok (EmptyDB_basic a);
  code_by_hash_ref _ h := Ok (EmptyDB_code_by_hash h);
  storage_ref _ a k := Ok (EmptyDB_storage a k);
  block_hash_ref _ n := Ok (EmptyDB_block_hash n) |}.

(** * [DatabaseRef for State] *)

Section StateRef.
Context {DB E : Type} `{DatabaseRef DB E}.
Implicit Types self : StateDb DB.

Definition State_basic_ref self (address : Z) : result (option AccountInfo) E :=
  match cs_cached (sd_cache self) !! address with
  | Some account => Ok (CacheAccount_account_info account)
  | None =>
      match (if sd_use_preloaded_bundle self then BundleState_account (sd_bundle_state self) address
             else None) with
      | Some account => Ok (ba_info account)
      | None => basic_ref (sd_database self) address
      end
  end.
Definition State_code_by_hash_ref self (hash : Z) : result Bytecode E :=
  match cs_codes (sd_cache self) !! hash with
  | Some code => Ok code
  | None =>
      match (if sd_use_preloaded_bundle self then bs_contracts (sd_bundle_state self) !! hash
             else None) with
      | Some code => Ok code
      | None => code_by_hash_ref (sd_database self) hash
      end
  end.
Definition State_storage_ref self (address index : Z) : result Z E :=
  let known :=
    account ← cs_cached (sd_cache self) !! address;
    plain_account ← ca_account account;
    match pa_storage plain_account !! index with
    | Some value => Some value
    | None => if is_storage_known (ca_status account) then Some 0 else None
    end in
  match known with
  | Some value => Ok value
  | None => storage_ref (sd_database self) address index
  end.
Definition State_block_hash_ref self (number : Z) : result Z E :=
  match sd_block_hashes self !! number with
  | Some h => Ok h
  | None => block_hash_ref (sd_database self) number
  end.
End StateRef.

(** * The in-memory database ([in_memory_db.rs]) *)

Inductive AccountState : Type :=
| StateNotExisting
| StateTouched
| StateStorageCleared
| StateNone.
Definition is_storage_cleared (self : AccountState) : bool :=
  match self with StateStorageCleared => true | _ => false end.
(** [matches!(state, StorageCleared | NotExisting)]. *)
Definition storage_is_known (self : AccountState) : bool :=
  match self with StateStorageCleared | StateNotExisting => true | _ => false end.

Record DbAccount := mkDbAccount {
  da_info : AccountInfo; da_account_state : AccountState; da_storage : gmap Z Z }.

Record Cache := mkCache {
  ch_accounts : gmap Z DbAccount; ch_contracts : gmap Z Bytecode; ch_logs : list Log;
  ch_block_hashes : gmap Z Z }.

Record CacheDB (ExtDB : Type) := mkCacheDB { cdb_cache : Cache; cdb_db : ExtDB }.
Arguments mkCacheDB {ExtDB}.
Arguments cdb_cache {ExtDB}.
Arguments cdb_db {ExtDB}.

Section DbAccount.
Context `{BitVec}.

Definition DbAccount_default : DbAccount := mkDbAccount AccountInfo_default StateNone ∅.
Definition DbAccount_new_not_existing : DbAccount := mkDbAccount AccountInfo_default StateNotExisting ∅.
Definition DbAccount_info (self : DbAccount) : option AccountInfo :=
  match da_account_state self with StateNotExisting => None | _ => Some (da_info self) end.
Definition DbAccount_update_info (self : DbAccount) (i : AccountInfo) : DbAccount :=
  mkDbAccount i (da_account_state self) (da_storage self).
Definition DbAccount_update_account_state (self : DbAccount) (s : AccountState) : DbAccount :=
  mkDbAccount (da_info self) s (da_storage self).
(** [impl From<Option<AccountInfo>> for DbAccount]. *)
Definition DbAccount_from (i : option AccountInfo) : DbAccount :=
  match i with Some i => mkDbAccount i StateNone ∅ | None => DbAccount_new_not_existing end.

Definition Cache_default : Cache :=
  mkCache ∅ (<[0 := Bytecode_default]> (<[KECCAK_EMPTY := Bytecode_default]> ∅)) [] ∅.
End DbAccount.

Section CacheDB.
Context {ExtDB E : Type} `{BitVec, Keccak, DatabaseRef ExtDB E}.
Implicit Types self : CacheDB ExtDB.

Definition CacheDB_new (d : ExtDB) : CacheDB ExtDB := mkCacheDB Cache_default d.

(** The assignments to the parts of the cache. *)
Definition cdb_set_account (address : Z) (account : DbAccount) self : CacheDB ExtDB :=
  let c := cdb_cache self in
  mkCacheDB (mkCache (<[address := account]> (ch_accounts c)) (ch_contracts c) (ch_logs c)
    (ch_block_hashes c)) (cdb_db self).
Definition cdb_set_contracts (m : gmap Z Bytecode) self : CacheDB ExtDB :=
  let c := cdb_cache self in
  mkCacheDB (mkCache (ch_accounts c) m (ch_logs c) (ch_block_hashes c)) (cdb_db self).
Definition cdb_set_block_hash (number hash : Z) self : CacheDB ExtDB :=
  let c := cdb_cache self in
  mkCacheDB (mkCache (ch_accounts c) (ch_contracts c) (ch_logs c)
    (<[number := hash]> (ch_block_hashes c))) (cdb_db self).

(** The assignment [account.code_hash = h]. *)
Definition assign_code_hash (h : Z) (i : AccountInfo) : AccountInfo :=
  mkAccountInfo (balance i) (nonce i) h (storage_id i) (code i).

Definition CacheDB_insert_contract self (account : AccountInfo) : AccountInfo * CacheDB ExtDB :=
  let '(account, self) :=
    match code account with
    | Some c =>
        if negb (Bytecode_is_empty c) then
          let account :=
            if code_hash account =? KECCAK_EMPTY then assign_code_hash (Bytecode_hash_slow c) account
            else account in
          let contracts := ch_contracts (cdb_cache self) in
          (account,
           match contracts !! code_hash account with
           | Some _ => self
           | None => cdb_set_contracts (<[code_hash account := c]> contracts) self
           end)
        else (account, self)
    | None => (account, self)
    end in
  (if code_hash account =? 0 then assign_code_hash KECCAK_EMPTY account else account, self).

Definition CacheDB_insert_account_info self (address : Z) (i : AccountInfo) : CacheDB ExtDB :=
  let '(i, self) := CacheDB_insert_contract self i in
  let entry := default DbAccount_default (ch_accounts (cdb_cache self) !! address) in
  let entry := DbAccount_update_info entry i in
  let entry :=
    match da_account_state entry with
    | StateNotExisting => DbAccount_update_account_state entry StateNone
    | _ => entry
    end in
  cdb_set_account address entry self.

Definition CacheDB_load_account self (address : Z) : result DbAccount E * CacheDB ExtDB :=
  match ch_accounts (cdb_cache self) !! address with
  | Some account => (Ok account, self)
  | None =>
      match basic_ref (cdb_db self) address with
      | Ok i => let account := DbAccount_from i in (Ok account, cdb_set_account address account self)
      | Err e => (Err e, self)
      end
  end.

Definition CacheDB_insert_account_storage self (address slot value : Z) : result unit E * CacheDB ExtDB :=
  let '(r, self) := CacheDB_load_account self address in
  match r with
  | Err e => (Err e, self)
  | Ok account =>
      (Ok tt, cdb_set_account address
                (mkDbAccount (da_info account) (da_account_state account)
                   (<[slot := value]> (da_storage account))) self)
  end.
Definition CacheDB_replace_account_storage self (address : Z) (storage : gmap Z Z)
    : result unit E * CacheDB ExtDB :=
  let '(r, self) := CacheDB_load_account self address in
  match r with
  | Err e => (Err e, self)
  | Ok account =>
      (Ok tt, cdb_set_account address (mkDbAccount (da_info account) StateStorageCleared storage) self)
  end.

(** One account of [commit]. *)
Definition CacheDB_commit_account self (change : Z * Account) : CacheDB ExtDB :=
  let '(address, account) := change in
  if negb (Account_is_touched account) then self
  else if Account_is_selfdestructed account then
    cdb_set_account address (mkDbAccount AccountInfo_default StateNotExisting ∅) self
  else
    let is_newly_created := Account_is_created account in
    let '(account_info, self) := CacheDB_insert_contract self (info account) in
    let db_account := default DbAccount_default (ch_accounts (cdb_cache self) !! address) in
    let '(state, db_storage) :=
      if is_newly_created then (StateStorageCleared, ∅)
      else if is_storage_cleared (da_account_state db_account)
      then (StateStorageCleared, da_storage db_account)
      else (StateTouched, da_storage db_account) in
    cdb_set_account address
      (mkDbAccount account_info state ((present_value <$> storage account) ∪ db_storage)) self.
Definition CacheDB_commit self (changes : gmap Z Account) : CacheDB ExtDB :=
  fold_left CacheDB_commit_account (map_to_list changes) self.
#[global] Instance CacheDB_DatabaseCommit : DatabaseCommit (CacheDB ExtDB) :=
  fun self changes => Some (CacheDB_commit self changes).

(** ** [Database for CacheDB] *)

Definition CacheDB_basic self (address : Z) : result (option AccountInfo) E * CacheDB ExtDB :=
  match ch_accounts (cdb_cache self) !! address with
  | Some account => (Ok (DbAccount_info account), self)
  | None =>
      match basic_ref (cdb_db self) address with
      | Ok i =>
          let account := DbAccount_from i in
          (Ok (DbAccount_info account), cdb_set_account address account self)
      | Err e => (Err e, self)
      end
  end.

Definition CacheDB_code_by_hash self (hash : Z) : result Bytecode E * CacheDB ExtDB :=
  match ch_contracts (cdb_cache self) !! hash with
  | Some c => (Ok c, self)
  | None =>
      match code_by_hash_ref (cdb_db self) hash with
      | Ok c => (Ok c, cdb_set_contracts (<[hash := c]> (ch_contracts (cdb_cache self))) self)
      | Err e => (Err e, self)
      end
  end.

Definition CacheDB_storage self (address index : Z) : result Z E * CacheDB ExtDB :=
  match ch_accounts (cdb_cache self) !! address with
  | Some account =>
      match da_storage account !! index with
      | Some value => (Ok value, self)
      | None =>
          if storage_is_known (da_account_state account) then (Ok 0, self)
          else
            match storage_ref (cdb_db self) address index with
            | Ok slot =>
                (Ok slot, cdb_set_account address
                  (mkDbAccount (da_info account) (da_account_state account)
                     (<[index := slot]> (da_storage account))) self)
            | Err e => (Err e, self)
            end
      end
  | None =>
      match basic_ref (cdb_db self) address with
      | Err e => (Err e, self)
      | Ok (Some i) =>
          match storage_ref (cdb_db self) address index with
          | Ok value =>
              (Ok value, cdb_set_account address (mkDbAccount i StateNone (<[index := value]> ∅)) self)
          | Err e => (Err e, self)
          end
      | Ok None => (Ok 0, cdb_set_account address (DbAccount_from None) self)
      end
  end.

Definition CacheDB_block_hash self (number : Z) : result Z E * CacheDB ExtDB :=
  match ch_block_hashes (cdb_cache self) !! number with
  | Some h => (Ok h, self)
  | None =>
      match block_hash_ref (cdb_db self) number with
      | Ok h => (Ok h, cdb_set_block_hash number h self)
      | Err e => (Err e, self)
      end
  end.

(** ** [DatabaseRef for CacheDB] *)

Definition CacheDB_basic_ref self (address : Z) : result (option AccountInfo) E :=
  match ch_accounts (cdb_cache self) !! address with
  | Some acc => Ok (DbAccount_info acc)
  | None => basic_ref (cdb_db self) address
  end.
Definition CacheDB_code_by_hash_ref self (hash : Z) : result Bytecode E :=
  match ch_contracts (cdb_cache self) !! hash with
  | Some c => Ok c
  | None => code_by_hash_ref (cdb_db self) hash
  end.
Definition CacheDB_storage_ref self (address index : Z) : result Z E :=
  match ch_accounts (cdb_cache self) !! address with
  | Some acc =>
      match da_storage acc !! index with
      | Some value => Ok value
      | None => if storage_is_known (da_account_state acc) then Ok 0
                else storage_ref (cdb_db self) address index
      end
  | None => storage_ref (cdb_db self) address index
  end.
Definition CacheDB_block_hash_ref self (number : Z) : result Z E :=
  match ch_block_hashes (cdb_cache self) !! number with
  | Some h => Ok h
  | None => block_hash_ref (cdb_db self) number
  end.

#[export] Instance CacheDB_DatabaseRef : DatabaseRef (CacheDB ExtDB) E := {|
  basic_ref := CacheDB_basic_ref; code_by_hash_ref := CacheDB_code_by_hash_ref;
  storage_ref := CacheDB_storage_ref; block_hash_ref := CacheDB_block_hash_ref |}.

Definition CacheDB_Database : Database (CacheDB ExtDB) E := {|
  db_basic := CacheDB_basic; db_code_by_hash := CacheDB_code_by_hash;
  db_storage := CacheDB_storage; db_block_hash := CacheDB_block_hash |}.
End CacheDB.

(** Nested caches. *)
Definition CacheDB_nest `{BitVec} {ExtDB} (self : CacheDB ExtDB) : CacheDB (CacheDB ExtDB) :=
  CacheDB_new self.
Definition CacheDB_flatten {ExtDB} (self : CacheDB (CacheDB ExtDB)) : CacheDB ExtDB :=
  let outer := cdb_cache self in
  let inner := cdb_cache (cdb_db self) in
  mkCacheDB (mkCache (ch_accounts outer ∪ ch_accounts inner) (ch_contracts outer ∪ ch_contracts inner)
    (ch_logs inner ++ ch_logs outer) (ch_block_hashes outer ∪ ch_block_hashes inner))
    (cdb_db (cdb_db self)).
Definition CacheDB_discard_outer {ExtDB} (self : CacheDB (CacheDB ExtDB)) : CacheDB ExtDB := cdb_db self.

(** * The benchmark database *)

Definition BENCH_TARGET : Z := 0xffffffffffffffffffffffffffffffffffffffff.
Definition BENCH_CALLER : Z := 0xeeeeeeeeeeeeeeeeeeeeeeeeeeeeeeeeeeeeeeee.
Definition TEST_BALANCE : Z := 10000000000000000.

Record BenchmarkDB := mkBenchmarkDB { bench_code : Bytecode; bench_hash : Z }.
Definition BenchmarkDB_new_bytecode `{Keccak} (b : Bytecode) : BenchmarkDB :=
  mkBenchmarkDB b (Bytecode_hash_slow b).
Definition BenchmarkDB_basic (self : BenchmarkDB) (address : Z) : option AccountInfo :=
  if address =? BENCH_TARGET then
    Some (mkAccountInfo TEST_BALANCE 1 (bench_hash self) None (Some (bench_code self)))
  else if address =? BENCH_CALLER then Some (mkAccountInfo TEST_BALANCE 0 KECCAK_EMPTY None None)
  else None.
Definition BenchmarkDB_Database `{BitVec} : Database BenchmarkDB Empty_set := {|
  db_basic d a := (Ok (BenchmarkDB_basic d a), d);
  db_code_by_hash d h := (Ok Bytecode_default, d);
  db_storage d a k := (Ok 0, d);
  db_block_hash d n := (Ok 0, d) |}.
