(* ===== verification/CacheDBLaws.v ===== *)
(** The in-memory database refines a plain world: reads answer from it and
    leave it as it is, commits change it.  The examples show where storage comes
    back after a destruction and where flattening loses it. *)
From S2P Require Import Prelude Hardfork Bytecode State Database BundleAccount BundleAccountLaws CacheDB.
From stdpp Require Import base numbers list option tactics gmap.
From Stdlib Require Import ZArith Lia Setoid.

Local Open Scope Z_scope.

Section CacheDBLaws.
Context {ExtDB E : Type} `{BitVec, Keccak, DatabaseRef ExtDB E}.
Implicit Types (self : CacheDB ExtDB) (D : Z -> AccountWorld).

(** The answers of the database, where it gives one, are those of [D]. *)
Definition ref_models (D : Z -> AccountWorld) (d : ExtDB) : Prop :=
  (forall a i, basic_ref d a = Ok i -> w_info (D a) = i) /\
  (forall a k v, storage_ref d a k = Ok v -> v = w_storage (D a) k).

Definition db_account_view (d : AccountWorld) (acc : DbAccount) : AccountWorld :=
  mkAccountWorld (DbAccount_info acc)
    (fun k => default (if storage_is_known (da_account_state acc) then 0 else w_storage d k)
                (da_storage acc !! k)).
Definition cachedb_world (D : Z -> AccountWorld) self : Z -> AccountWorld := fun a =>
  match ch_accounts (cdb_cache self) !! a with
  | Some acc => db_account_view (D a) acc
  | None => D a
  end.

Lemma cachedb_world_set D self a acc a' :
  cachedb_world D (cdb_set_account a acc self) a'
  = if decide (a' = a) then db_account_view (D a) acc else cachedb_world D self a'.
Proof.
  unfold cachedb_world, cdb_set_account; cbn. destruct (decide (a' = a)) as [->|].
  - by rewrite lookup_insert_eq.
  - by rewrite lookup_insert_ne.
Qed.

(** Caching what the database answered does not change the world. *)
Lemma cachedb_world_same D self a acc :
  world_equiv (db_account_view (D a) acc) (cachedb_world D self a) ->
  forall a', world_equiv (cachedb_world D (cdb_set_account a acc self) a') (cachedb_world D self a').
Proof.
  intros Heq a'. rewrite cachedb_world_set. destruct (decide (a' = a)) as [->|]; [done|reflexivity].
Qed.

Lemma DbAccount_from_view d i :
  w_info d = i -> world_ok d -> world_equiv (db_account_view d (DbAccount_from i)) d.
Proof.
  intros Hi Hok. unfold db_account_view, DbAccount_from. destruct i as [i|]; split; cbn; rewrite ?Hi; try done.
  intros k. by rewrite Hok.
Qed.

(** C34: Over a database in which a missing account has no storage, reading the
    in-memory database answers from its world and does not
    change it: infos and slots read with [&mut self] (which fills the cache) or
    with [&self] are those of the cached account, or of the database below where
    the cache says nothing, and a read leaves every account and slot as it was
    and the database below untouched.  (Over a database that has storage for a
    missing account the two ways to read disagree: [missing_account_storage_hidden].) *)
Theorem cachedb_reads_correct D self a k :
  ref_models D (cdb_db self) -> (forall a, world_ok (D a)) ->
  (let '(r, self') := CacheDB_basic self a in
   (forall i, r = Ok i -> i = w_info (cachedb_world D self a)) /\ r = CacheDB_basic_ref self a /\
   cdb_db self' = cdb_db self /\
   forall a', world_equiv (cachedb_world D self' a') (cachedb_world D self a')) /\
  (let '(r, self') := CacheDB_storage self a k in
   (forall v, r = Ok v -> v = w_storage (cachedb_world D self a) k) /\
   (forall v v', r = Ok v -> CacheDB_storage_ref self a k = Ok v' -> v = v') /\
   cdb_db self' = cdb_db self /\
   forall a', world_equiv (cachedb_world D self' a') (cachedb_world D self a')).
Proof.
  intros [Hb Hs] HD. specialize (Hb a). specialize (Hs a k). split.
  - unfold CacheDB_basic, CacheDB_basic_ref.
    assert (Hw : cachedb_world D self a = match ch_accounts (cdb_cache self) !! a with
      | Some acc => db_account_view (D a) acc | None => D a end) by done.
    destruct (ch_accounts (cdb_cache self) !! a) as [acc|] eqn:Ea.
    + rewrite Hw. split_and!; [by intros i [= <-]|done..].
    + destruct (basic_ref (cdb_db self) a) as [i|e] eqn:Ed; [|by split_and!].
      specialize (Hb i eq_refl). split_and!.
      * intros j [= <-]. rewrite Hw, Hb. by destruct i.
      * by destruct i.
      * done.
      * apply cachedb_world_same. rewrite Hw. by apply DbAccount_from_view.
  - unfold CacheDB_storage, CacheDB_storage_ref.
    assert (Hw : cachedb_world D self a = match ch_accounts (cdb_cache self) !! a with
      | Some acc => db_account_view (D a) acc | None => D a end) by done.
    destruct (ch_accounts (cdb_cache self) !! a) as [acc|] eqn:Ea.
    + destruct (da_storage acc !! k) as [v|] eqn:Ek.
      { rewrite Hw. cbn. rewrite Ek. cbn. split_and!; [by intros ? [= <-]|congruence|done..]. }
      destruct (storage_is_known (da_account_state acc)) eqn:Est.
      { rewrite Hw. cbn. rewrite Ek, Est. cbn. split_and!; [by intros ? [= <-]|congruence|done..]. }
      destruct (storage_ref (cdb_db self) a k) as [v|e] eqn:Ed; [|by split_and!].
      specialize (Hs v eq_refl). split_and!; [|congruence|done|].
      * intros ? [= <-]. rewrite Hw. cbn. by rewrite Ek, Est.
      * apply cachedb_world_same. rewrite Hw. split; cbn; [reflexivity|]. intros k'.
        destruct (decide (k' = k)) as [->|]; [by rewrite lookup_insert_eq, Ek, Est|by rewrite lookup_insert_ne].
    + destruct (basic_ref (cdb_db self) a) as [[i|]|e] eqn:Ed; [|..|by split_and!].
      * specialize (Hb _ eq_refl). destruct (storage_ref (cdb_db self) a k) as [v|e] eqn:Es; [|by split_and!].
        specialize (Hs v eq_refl). rewrite Hw. split_and!; [by intros ? [= <-]|congruence|done|].
        apply cachedb_world_same. rewrite Hw. split; cbn; [by rewrite Hb|]. intros k'.
        destruct (decide (k' = k)) as [->|]; [by rewrite lookup_insert_eq|by rewrite lookup_insert_ne].
      * specialize (Hb _ eq_refl). rewrite Hw. split_and!.
        -- intros ? [= <-]. by rewrite HD.
        -- intros v v' [= <-] Hv'. rewrite (Hs v' Hv'). by rewrite HD.
        -- done.
        -- apply cachedb_world_same. rewrite Hw. by apply DbAccount_from_view.
Qed.

(** * Commits *)

(** The info that a commit stores: code under the hash of the empty code gets its
    own hash, and no hash is zero.  The code stays in the info. *)
Definition stored_hash (i : AccountInfo) : Z :=
  let hash :=
    match code i with
    | Some c => if negb (Bytecode_is_empty c) && (code_hash i =? KECCAK_EMPTY) then Bytecode_hash_slow c else code_hash i
    | None => code_hash i
    end in
  if hash =? 0 then KECCAK_EMPTY else hash.
Definition stored_info (i : AccountInfo) : AccountInfo :=
  mkAccountInfo (balance i) (nonce i) (stored_hash i) (storage_id i) (code i).

Lemma insert_contract_accounts self i :
  (CacheDB_insert_contract self i).1 = stored_info i /\
  ch_accounts (cdb_cache (CacheDB_insert_contract self i).2) = ch_accounts (cdb_cache self).
Proof.
  destruct i as [b n h o c]. unfold CacheDB_insert_contract, stored_info, stored_hash. cbn [code code_hash balance nonce storage_id].
  destruct c as [c|]; cbn; [|by destruct (h =? 0)].
  destruct (Bytecode_is_empty c); cbn; [by destruct (h =? 0)|].
  destruct (h =? KECCAK_EMPTY); cbn.
  - destruct (ch_contracts (cdb_cache self) !! Bytecode_hash_slow c); cbn; by destruct (Bytecode_hash_slow c =? 0).
  - destruct (ch_contracts (cdb_cache self) !! h); cbn; by destruct (h =? 0).
Qed.

(** What [commit] makes of the cached account, if any. *)
Definition commit_entry (o : option DbAccount) (account : Account) : option DbAccount :=
  if negb (Account_is_touched account) then o
  else if Account_is_selfdestructed account then Some (mkDbAccount AccountInfo_default StateNotExisting ∅)
  else
    let e := default DbAccount_default o in
    Some (mkDbAccount (stored_info (info account))
      (if Account_is_created account || is_storage_cleared (da_account_state e)
       then StateStorageCleared else StateTouched)
      ((present_value <$> storage account) ∪ (if Account_is_created account then ∅ else da_storage e))).

Lemma commit_account_accounts self a account :
  ch_accounts (cdb_cache (CacheDB_commit_account self (a, account)))
  = partial_alter (fun o => commit_entry o account) a (ch_accounts (cdb_cache self)).
Proof.
  apply map_eq. intros a'.
  destruct (insert_contract_accounts self (info account)) as [Ei Ea].
  unfold CacheDB_commit_account, commit_entry.
  destruct (decide (a' = a)) as [->|Hne];
    [rewrite lookup_partial_alter_eq|rewrite lookup_partial_alter_ne by done].
  all: destruct (Account_is_touched account); cbn; [|done].
  all: destruct (Account_is_selfdestructed account); cbn;
    [by (rewrite lookup_insert_eq || rewrite lookup_insert_ne by done)|].
  all: destruct (CacheDB_insert_contract self (info account)) as [i self']; cbn in *; subst i; rewrite Ea.
  all: destruct (Account_is_created account); cbn; [|destruct (is_storage_cleared _); cbn].
  all: (rewrite lookup_insert_eq || rewrite lookup_insert_ne by done); by rewrite ?Ea.
Qed.

Lemma commit_account_db self x : cdb_db (CacheDB_commit_account self x) = cdb_db self.
Proof.
  destruct x as [a account]. unfold CacheDB_commit_account, CacheDB_insert_contract.
  repeat case_match; by simplify_eq/=.
Qed.

Lemma commit_loop_accounts l : forall self a,
  NoDup l.*1 ->
  ch_accounts (cdb_cache (fold_left CacheDB_commit_account l self)) !! a
  = match (list_to_map l : gmap Z Account) !! a with
    | Some acc => commit_entry (ch_accounts (cdb_cache self) !! a) acc
    | None => ch_accounts (cdb_cache self) !! a
    end.
Proof.
  induction l as [|[a0 acc] l IH]; intros self a Hnd; [done|].
  apply NoDup_cons in Hnd as [Hni Hnd]. cbn [fold_left].
  rewrite IH by done. rewrite commit_account_accounts, list_to_map_cons.
  destruct (decide (a = a0)) as [->|Hne].
  - rewrite lookup_insert_eq, lookup_partial_alter_eq. by rewrite not_elem_of_list_to_map_1.
  - by rewrite lookup_insert_ne, lookup_partial_alter_ne by done.
Qed.

(** The effect a commit should have on the world of an account. *)
Definition commit_db (w : AccountWorld) (account : Account) : AccountWorld :=
  if negb (Account_is_touched account) then w
  else if Account_is_selfdestructed account then mkAccountWorld None (fun _ => 0)
  else
    mkAccountWorld (Some (stored_info (info account))) (fun k =>
      default (if Account_is_created account then 0 else w_storage w k)
        (present_value <$> storage account !! k)).

(** The info read back after a commit. *)
Lemma commit_basic_ref self changes a acc :
  changes !! a = Some acc -> Account_is_touched acc = true -> Account_is_selfdestructed acc = false ->
  CacheDB_basic_ref (CacheDB_commit self changes) a = Ok (Some (stored_info (info acc))).
Proof.
  intros Ha Ht Hs. unfold CacheDB_basic_ref, CacheDB_commit.
  rewrite commit_loop_accounts by apply NoDup_fst_map_to_list. rewrite list_to_map_to_list, Ha.
  unfold commit_entry. rewrite Ht, Hs. cbn. by destruct (Account_is_created acc || _).
Qed.

End CacheDBLaws.

(** * Where storage is lost or comes back *)

Module CacheDBExample.
#[local] Existing Instance Lsb0BitVec.
#[local] Instance const_keccak : Keccak := fun _ => 1.
#[local] Instance EmptyRef : DatabaseRef EmptyDB Empty_set := EmptyDB_DatabaseRef.

Definition rich : AccountInfo := mkAccountInfo 10 1 KECCAK_EMPTY None None.

(** A database below with the account 1 and 7 in its slot 2. *)
Definition below : CacheDB EmptyDB :=
  (CacheDB_insert_account_storage
     (CacheDB_insert_account_info (CacheDB_new empty_db) 1 rich) 1 2 7).2.
Definition above : CacheDB (CacheDB EmptyDB) := CacheDB_nest below.

Definition destroyed : Account := mkAccount rich rich 0 ∅ (status_insert Touched SelfDestructed).
Definition paid : Account := mkAccount rich rich 0 ∅ Touched.

(** In [CacheDB] the storage of a destroyed account comes back: after the
    destruction every slot reads zero, but when the account is touched again
    without being created, its state becomes [Touched] and its slots are read
    from the database below again. *)
Theorem destroyed_storage_comes_back :
  let db1 := CacheDB_commit above {[1 := destroyed]} in
  let db2 := CacheDB_commit db1 {[1 := paid]} in
  CacheDB_storage_ref above 1 2 = Ok 7 /\ CacheDB_storage_ref db1 1 2 = Ok 0 /\
  CacheDB_storage_ref db2 1 2 = Ok 7.
Proof. by vm_compute. Qed.

(** Flattening a nested [CacheDB] loses storage: when the outer cache has
    loaded an account, flattening replaces the whole account of the inner cache
    by it, so a slot the inner cache held and the outer one did not read is gone,
    and a read that answered 7 answers 0. *)
Theorem flatten_loses_storage :
  let nested := (CacheDB_basic above 1).2 in
  CacheDB_storage_ref nested 1 2 = Ok 7 /\
  CacheDB_storage_ref (CacheDB_flatten nested) 1 2 = Ok 0.
Proof. by vm_compute. Qed.

(** The two ways to read disagree over a database with storage for an account it
    does not have, such as a [CacheDB] after [insert_account_storage] on a missing
    account: [storage] finds no account and answers 0, [storage_ref] answers what is
    stored. *)
Theorem missing_account_storage_hidden :
  let below := (CacheDB_insert_account_storage (CacheDB_new empty_db) 1 2 7).2 in
  let above := CacheDB_nest below in
  CacheDB_basic_ref above 1 = Ok None /\
  (CacheDB_storage above 1 2).1 = Ok 0 /\ CacheDB_storage_ref above 1 2 = Ok 7.
Proof. by vm_compute. Qed.

(** The database [below] over the empty one. *)
Definition empty_world : Z -> AccountWorld := fun _ => mkAccountWorld None (fun _ => 0).
Lemma empty_models : ref_models empty_world empty_db.
Proof. split; [by intros a i [= <-]|by intros a k v [= <-]]. Defined.

Lemma cachedb_reads_correct_witness :
  (let '(r, self') := CacheDB_basic below 1 in
   (forall i, r = Ok i -> i = w_info (cachedb_world empty_world below 1)) /\ r = CacheDB_basic_ref below 1 /\
   cdb_db self' = cdb_db below /\
   forall a', world_equiv (cachedb_world empty_world self' a') (cachedb_world empty_world below a')) /\
  (let '(r, self') := CacheDB_storage below 1 3 in
   (forall v, r = Ok v -> v = w_storage (cachedb_world empty_world below 1) 3) /\
   (forall v v', r = Ok v -> CacheDB_storage_ref below 1 3 = Ok v' -> v = v') /\
   cdb_db self' = cdb_db below /\
   forall a', world_equiv (cachedb_world empty_world self' a') (cachedb_world empty_world below a')).
Proof.
  apply (cachedb_reads_correct empty_world below 1 3); [exact empty_models|].
  intros a _ k. reflexivity.
Defined.

(** A contract deployed by a change that carries its code under the hash of the
    empty code. *)
Definition deployed : Account :=
  let i := mkAccountInfo 10 1 KECCAK_EMPTY None (Some (Bytecode_new_eip7702 0x3000)) in
  mkAccount i i 0 {[4 := mkEvmStorageSlot 0 6 0 false]} (status_insert Touched Created).

(** The account that a commit stores keeps its code, next to the copy under its
    hash. *)
Lemma committed_code_stays :
  let db := CacheDB_commit below {[5 := deployed]} in
  (i ← DbAccount_info <$> ch_accounts (cdb_cache db) !! 5; i ≫= code) = Some (Bytecode_new_eip7702 0x3000) /\
  ch_contracts (cdb_cache db) !! 1 = Some (Bytecode_new_eip7702 0x3000).
Proof. by vm_compute. Qed.

End CacheDBExample.
