(* ===== verification/Bal.v ===== *)
(** Block access lists: [crates/state/src/bal/{writes,account,alloy}.rs],
    [crates/state/src/bal.rs] and the database over a list,
    [crates/database/interface/src/bal.rs].

    A block access list holds, for every account and slot that a block touches,
    the values written with the index of the transaction that wrote them.  A
    transaction of a block can then be executed alone: [BalDatabase] answers its
    reads from the state before the block, updated by the writes with a smaller
    index.

    A [BalWrites] is the list of its writes, a [BTreeMap] a map that is listed in
    the order of its keys, an [IndexMap] the list of its entries in the order of
    insertion.  The [u64] indices wrap around.  The switches [DEBUG] and
    [DUMP_BAL_READ] are off, as they are by default. *)
From S2P Require Import Prelude Hardfork Bytecode State Database.
From stdpp Require Import base numbers list option tactics gmap sorting.
From Stdlib Require Import ZArith Lia.

Local Open Scope Z_scope.

(** * Writes ([writes.rs]) *)

Abbreviation BalWrites T := (list (Z * T)) (only parsing).

(** The order of the keys of pairs, for [sort_by_key] and the keys of a
    [BTreeMap]. *)
Definition key_le {T : Type} (x y : Z * T) : Prop := x.1 <= y.1.
#[global] Instance key_le_dec {T : Type} : RelDecision (@key_le T).
Proof. intros x y. unfold key_le. apply _. Defined.
(** The entries of a [BTreeMap], in order. *)
Definition btree_iter {T : Type} (m : gmap Z T) : list (Z * T) := merge_sort key_le (map_to_list m).

Section Writes.
Context {T : Type}.
Implicit Types self other : BalWrites T.

Definition BalWrites_new (writes : list (Z * T)) : BalWrites T := merge_sort key_le writes.

Definition merge_writes self other (bal_index : Z) : BalWrites T :=
  self ++ ((fun w => (bal_index, w.2)) <$> other).
Definition merge_writes_with_offset self other (offset : Z) : BalWrites T :=
  self ++ ((fun w => (wrapping_add 64 w.1 offset, w.2)) <$> other).

(** The loop of [get_linear_search], with its [last_item]. *)
Fixpoint linear_search_loop (writes : list (Z * T)) (bal_index : Z) (last_item : option T)
    : option T :=
  match writes with
  | [] => last_item
  | (index, item) :: writes =>
      if bal_index <=? index then last_item
      else linear_search_loop writes bal_index (Some item)
  end.
Definition get_linear_search self (bal_index : Z) : option T :=
  linear_search_loop self bal_index None.

(** [slice::binary_search_by] of the standard library, with the length as fuel:
    the size of the searched part at least halves, up to one. *)
Fixpoint binary_search_loop (fuel : nat) (cmp : nat -> comparison) (base size : nat) : nat :=
  match fuel with
  | O => base
  | S fuel =>
      if (1 <? size)%nat then
        let half := (size / 2)%nat in
        let mid := (base + half)%nat in
        binary_search_loop fuel cmp (match cmp mid with Gt => base | _ => mid end) (size - half)
      else base
  end.
Definition binary_search_by (len : nat) (cmp : nat -> comparison) : result nat nat :=
  if (len =? 0)%nat then Err 0%nat
  else
    let base := binary_search_loop len cmp 0 len in
    match cmp base with
    | Eq => Ok base
    | Lt => Err (base + 1)%nat
    | Gt => Err base
    end.

(** The comparison of the [i]th index of [writes] with [bal_index]. *)
Definition cmp_index (writes : list (Z * T)) (bal_index : Z) (i : nat) : comparison :=
  match writes !! i with Some w => w.1 ?= bal_index | None => Gt end.

Definition BalWrites_get self (bal_index : Z) : option T :=
  if (length self <? 5)%nat then get_linear_search self bal_index
  else
    let i := match binary_search_by (length self) (cmp_index self bal_index) with
             | Ok i => i
             | Err i => i
             end in
    if (i =? 0)%nat then None else snd <$> self !! (i - 1)%nat.

Definition BalWrites_extend self other : BalWrites T := self ++ other.
Definition BalWrites_is_empty self : bool := (length self =? 0)%nat.

(** A list as its last element and what is before it, as [last_mut] and the
    slice patterns take it. *)
Definition split_last (writes : list (Z * T)) : option (list (Z * T) * (Z * T)) :=
  match reverse writes with [] => None | last :: rest => Some (reverse rest, last) end.

Definition BalWrites_force_update self (index : Z) (value : T) : BalWrites T :=
  match split_last self with
  | Some (rest, last) =>
      if index =? last.1 then rest ++ [(last.1, value)] else self ++ [(index, value)]
  | None => self ++ [(index, value)]
  end.

Definition update_with_key {K : Type} `{EqDecision K} self (index : Z) (original_subvalue : K)
    (value : T) (f : T -> K) : BalWrites T :=
  match split_last self with
  | None =>
      if decide (original_subvalue = f value) then self else self ++ [(index, value)]
  | Some (rest, last) =>
      if negb (last.1 =? index) then
        if decide (f last.2 = f value) then self else self ++ [(index, value)]
      else
        let previous := match split_last rest with
                        | Some (_, previous) => f previous.2
                        | None => original_subvalue
                        end in
        if decide (previous = f value) then rest else rest ++ [(last.1, value)]
  end.
End Writes.

Definition BalWrites_update (self : BalWrites Z) (index original_value value : Z) : BalWrites Z :=
  update_with_key self index original_value value id.

(** * Accounts ([account.rs]) *)

Inductive BalError : Type := AccountNotFound | SlotNotFound.

Record AccountInfoBal := mkAccountInfoBal {
  aib_nonce : BalWrites Z; aib_balance : BalWrites Z; aib_code : BalWrites (Z * Bytecode) }.
Abbreviation StorageBal := (gmap Z (BalWrites Z)) (only parsing).
Record AccountBal := mkAccountBal { ab_account_info : AccountInfoBal; ab_storage : StorageBal }.

Definition AccountInfoBal_default : AccountInfoBal := mkAccountInfoBal [] [] [].
Definition AccountBal_default : AccountBal := mkAccountBal AccountInfoBal_default ∅.

Definition AccountInfoBal_populate_account_info (self : AccountInfoBal) (bal_index : Z)
    (account : AccountInfo) : bool * AccountInfo :=
  let '(changed, account) :=
    match BalWrites_get (aib_nonce self) bal_index with
    | Some nonce => (true, AccountInfo_set_nonce nonce account)
    | None => (false, account)
    end in
  let '(changed, account) :=
    match BalWrites_get (aib_balance self) bal_index with
    | Some balance => (true, AccountInfo_set_balance balance account)
    | None => (changed, account)
    end in
  match BalWrites_get (aib_code self) bal_index with
  | Some code => (true, AccountInfo_set_code_and_hash code.2 code.1 account)
  | None => (changed, account)
  end.

Definition merge_account_info_bal (self other : AccountInfoBal) (bal_index : Z) : AccountInfoBal :=
  mkAccountInfoBal (merge_writes (aib_nonce self) (aib_nonce other) bal_index)
    (merge_writes (aib_balance self) (aib_balance other) bal_index)
    (merge_writes (aib_code self) (aib_code other) bal_index).
Definition merge_account_info_bal_with_offset (self other : AccountInfoBal) (offset : Z)
    : AccountInfoBal :=
  mkAccountInfoBal (merge_writes_with_offset (aib_nonce self) (aib_nonce other) offset)
    (merge_writes_with_offset (aib_balance self) (aib_balance other) offset)
    (merge_writes_with_offset (aib_code self) (aib_code other) offset).

Definition AccountInfoBal_balance_update (self : AccountInfoBal) (bal_index original_balance bal : Z)
    : AccountInfoBal :=
  mkAccountInfoBal (aib_nonce self)
    (BalWrites_update (aib_balance self) bal_index original_balance bal) (aib_code self).
Definition AccountInfoBal_nonce_update (self : AccountInfoBal) (bal_index original_nonce non : Z)
    : AccountInfoBal :=
  mkAccountInfoBal (BalWrites_update (aib_nonce self) bal_index original_nonce non)
    (aib_balance self) (aib_code self).
Definition AccountInfoBal_code_update (self : AccountInfoBal) (bal_index original_code_hash hash : Z)
    (code : Bytecode) : AccountInfoBal :=
  mkAccountInfoBal (aib_nonce self) (aib_balance self)
    (update_with_key (aib_code self) bal_index original_code_hash (hash, code) fst).

Definition AccountInfoBal_update `{BitVec} (self : AccountInfoBal) (index : Z)
    (original present : AccountInfo) : AccountInfoBal :=
  mkAccountInfoBal (BalWrites_update (aib_nonce self) index (nonce original) (nonce present))
    (BalWrites_update (aib_balance self) index (balance original) (balance present))
    (update_with_key (aib_code self) index (code_hash original)
       (code_hash present, default Bytecode_default (code present)) fst).
Definition AccountInfoBal_extend (self bal_account : AccountInfoBal) : AccountInfoBal :=
  mkAccountInfoBal (BalWrites_extend (aib_nonce self) (aib_nonce bal_account))
    (BalWrites_extend (aib_balance self) (aib_balance bal_account))
    (BalWrites_extend (aib_code self) (aib_code bal_account)).

Definition StorageBal_get (self : StorageBal) (key bal_index : Z) : result (option Z) BalError :=
  match self !! key with
  | None => Ok None
  | Some value => Ok (BalWrites_get value bal_index)
  end.
Definition StorageBal_extend (self storage : StorageBal) : StorageBal :=
  union_with (fun a b => Some (BalWrites_extend a b)) self storage.
(** [entry(key).or_insert_with(empty)] followed by an update of the entry, for
    every key of another map. *)
Definition merge_entries {A : Type} (f : BalWrites Z -> A -> BalWrites Z) (self : StorageBal)
    (other : gmap Z A) : StorageBal :=
  merge (fun a b => match b with Some b => Some (f (default [] a) b) | None => a end) self other.
Definition merge_storage_bal (self other : StorageBal) (bal_index : Z) : StorageBal :=
  merge_entries (fun a b => merge_writes a b bal_index) self other.
Definition merge_storage_bal_with_offset (self other : StorageBal) (offset : Z) : StorageBal :=
  merge_entries (fun a b => merge_writes_with_offset a b offset) self other.
Definition StorageBal_update (self : StorageBal) (bal_index : Z) (storage : gmap Z EvmStorageSlot)
    : StorageBal :=
  merge_entries (fun a slot =>
    BalWrites_update a bal_index (original_value slot) (present_value slot)) self storage.
Definition StorageBal_update_reads (self : StorageBal) (storage : list Z) : StorageBal :=
  fold_left (fun self key => <[key := default [] (self !! key)]> self) storage self.
Definition StorageBal_extend_iter (self : StorageBal) (storage : list (Z * BalWrites Z))
    : StorageBal :=
  fold_left (fun self kv => <[kv.1 := kv.2]> self) storage self.
Definition StorageBal_from_iter (iter : list (Z * BalWrites Z)) : StorageBal :=
  StorageBal_extend_iter ∅ iter.
Definition StorageBal_into_vecs (self : StorageBal) : list Z * list (Z * BalWrites Z) :=
  ((filter (fun kv => kv.2 = []) (btree_iter self)).*1,
   filter (fun kv => kv.2 <> []) (btree_iter self)).

Definition AccountBal_populate_account_info (self : AccountBal) (bal_index : Z)
    (account : AccountInfo) : bool * AccountInfo :=
  AccountInfoBal_populate_account_info (ab_account_info self) bal_index account.
Definition merge_account_bal (self other : AccountBal) (bal_index : Z) : AccountBal :=
  mkAccountBal (merge_account_info_bal (ab_account_info self) (ab_account_info other) bal_index)
    (merge_storage_bal (ab_storage self) (ab_storage other) bal_index).
Definition merge_account_bal_with_offset (self other : AccountBal) (offset : Z) : AccountBal :=
  mkAccountBal
    (merge_account_info_bal_with_offset (ab_account_info self) (ab_account_info other) offset)
    (merge_storage_bal_with_offset (ab_storage self) (ab_storage other) offset).
Definition AccountBal_update `{BitVec} (self : AccountBal) (bal_index : Z) (account : Account)
    : AccountBal :=
  if Account_is_selfdestructed_locally account then
    mkAccountBal
      (AccountInfoBal_update (ab_account_info self) bal_index (original_info account) AccountInfo_default)
      (StorageBal_update_reads (ab_storage self) (map_to_list (storage account)).*1)
  else
    mkAccountBal
      (AccountInfoBal_update (ab_account_info self) bal_index (original_info account) (info account))
      (StorageBal_update (ab_storage self) bal_index (storage account)).

(** * Index maps *)

Section IndexMap.
Context {T : Type}.
Implicit Types self : list (Z * T).

(** [get_full]: the position and the value of a key. *)
Fixpoint index_map_get_full self (key : Z) : option (nat * T) :=
  match self with
  | [] => None
  | (k, v) :: self =>
      if key =? k then Some (0%nat, v)
      else let? (i, v) := index_map_get_full self key in Some (S i, v)
  end.
Definition index_map_get self (key : Z) : option T := snd <$> index_map_get_full self key.
(** An update of [entry(key)]: the present value or none gives the new value,
    which is appended when the key is new. *)
Fixpoint index_map_entry (f : option T -> T) (key : Z) self : list (Z * T) :=
  match self with
  | [] => [(key, f None)]
  | (k, v) :: self =>
      if key =? k then (k, f (Some v)) :: self else (k, v) :: index_map_entry f key self
  end.
Definition index_map_insert (key : Z) (value : T) self : list (Z * T) :=
  index_map_entry (fun _ => value) key self.
Definition index_map_shift_remove (key : Z) self : list (Z * T) :=
  filter (fun kv => kv.1 <> key) self.
Definition index_map_from_iter (iter : list (Z * T)) : list (Z * T) :=
  fold_left (fun self kv => index_map_insert kv.1 kv.2 self) iter [].
End IndexMap.

(** * The list ([bal.rs]) *)

Record Bal := mkBal { bal_accounts : list (Z * AccountBal) }.

Definition Bal_new : Bal := mkBal [].
Definition Bal_from_iter (iter : list (Z * AccountBal)) : Bal := mkBal (index_map_from_iter iter).

Definition Bal_update_account `{BitVec} (self : Bal) (bal_index address : Z) (account : Account)
    : Bal :=
  mkBal (index_map_entry (fun bal_account =>
    AccountBal_update (default AccountBal_default bal_account) bal_index account)
    address (bal_accounts self)).

Definition merge_bal (self other : Bal) (bal_index : Z) : Bal :=
  fold_left (fun self '(addr, other_account) =>
    mkBal (index_map_entry (fun account =>
      merge_account_bal (default AccountBal_default account) other_account bal_index)
      addr (bal_accounts self))) (bal_accounts other) self.
Definition merge_bal_with_offset (self other : Bal) (offset : Z) : Bal :=
  fold_left (fun self '(addr, other_account) =>
    mkBal (index_map_entry (fun account =>
      merge_account_bal_with_offset (default AccountBal_default account) other_account offset)
      addr (bal_accounts self))) (bal_accounts other) self.

(** [writes.retain(|(i, _)| !id_set.contains(i))]. *)
Definition retain_writes {T : Type} (idxs : list Z) (writes : BalWrites T) : BalWrites T :=
  filter (fun w => w.1 ∉ idxs) writes.
Definition retain_account (idxs : list Z) (bal_account : AccountBal) : AccountBal :=
  let info := ab_account_info bal_account in
  mkAccountBal
    (mkAccountInfoBal (retain_writes idxs (aib_nonce info)) (retain_writes idxs (aib_balance info))
       (retain_writes idxs (aib_code info)))
    (retain_writes idxs <$> ab_storage bal_account).
Definition Bal_remove_at_ids (self : Bal) (idxs : list Z) : Bal :=
  if (length idxs =? 0)%nat then self
  else mkBal ((fun a => (a.1, retain_account idxs a.2)) <$> bal_accounts self).
Definition Bal_remove_first_last (self : Bal) : Bal :=
  Bal_remove_at_ids self [0; wrapping_add 64 (Z.of_nat (length (bal_accounts self))) 1].
Definition Bal_remove_at_address (self : Bal) (addrs : list Z) : Bal :=
  fold_left (fun self addr => mkBal (index_map_shift_remove addr (bal_accounts self))) addrs self.

(** The assignment [account.storage_id = id]. *)
Definition assign_storage_id (id : option nat) (i : AccountInfo) : AccountInfo :=
  mkAccountInfo (balance i) (nonce i) (code_hash i) id (code i).

Definition Bal_populate_account_info (self : Bal) (address bal_index : Z) (account : AccountInfo)
    : result bool BalError * AccountInfo :=
  match index_map_get_full (bal_accounts self) address with
  | None => (Ok false, account)
  | Some (index, bal_account) =>
      let account := assign_storage_id (Some index) account in
      let '(changed, account) := AccountBal_populate_account_info bal_account bal_index account in
      (Ok changed, account)
  end.

(** The last lines of the two [populate_storage_slot]. *)
Definition populate_slot (bal_account : AccountBal) (bal_index key value : Z)
    : result () BalError * Z :=
  match StorageBal_get (ab_storage bal_account) key bal_index with
  | Err e => (Err e, value)
  | Ok (Some bal_value) => (Ok (), bal_value)
  | Ok None => (Ok (), value)
  end.
Definition Bal_populate_storage_slot_by_account_id (self : Bal) (account_index : nat)
    (bal_index key value : Z) : result () BalError * Z :=
  match bal_accounts self !! account_index with
  | None => (Err AccountNotFound, value)
  | Some (_, bal_account) => populate_slot bal_account bal_index key value
  end.
Definition Bal_populate_storage_slot (self : Bal) (account_address bal_index key value : Z)
    : result () BalError * Z :=
  match index_map_get (bal_accounts self) account_address with
  | None => (Ok (), value)
  | Some bal_account => populate_slot bal_account bal_index key value
  end.

Definition Bal_account_storage (self : Bal) (account_index : nat) (key bal_index : Z)
    : result Z BalError :=
  match bal_accounts self !! account_index with
  | None => Err AccountNotFound
  | Some (_, bal_account) =>
      match StorageBal_get (ab_storage bal_account) key bal_index with
      | Err e => Err e
      | Ok None => Err SlotNotFound
      | Ok (Some storage_value) => Ok storage_value
      end
  end.

Definition max_acct_bal_index (self : Bal) : Z :=
  fold_left (fun max_index a =>
    let info := ab_account_info a.2 in
    Z.max (Z.max (Z.max max_index (Z.of_nat (length (aib_balance info))))
      (Z.of_nat (length (aib_nonce info)))) (Z.of_nat (length (aib_code info))))
    (bal_accounts self) 0.

(** ** A list with the index of a transaction *)

Record BalWithIndex := mkBalWithIndex { bwi_bal_index : Z; bwi_bal : Bal }.

Definition BalWithIndex_set_bal_index (self : BalWithIndex) (bal_index : Z) : BalWithIndex :=
  mkBalWithIndex bal_index (bwi_bal self).
Definition BalWithIndex_populate_account_info (self : BalWithIndex) (address : Z)
    (account : AccountInfo) : result bool BalError * AccountInfo :=
  Bal_populate_account_info (bwi_bal self) address (bwi_bal_index self) account.
Definition BalWithIndex_populate_account (self : BalWithIndex) (address : Z) (account : Account)
    : result bool BalError * Account :=
  let '(r, i) := Bal_populate_account_info (bwi_bal self) address (bwi_bal_index self) (info account) in
  (r, assign_info i account).
Definition BalWithIndex_populate_storage_slot_by_account_id (self : BalWithIndex)
    (account_index : nat) (key value : Z) : result () BalError * Z :=
  Bal_populate_storage_slot_by_account_id (bwi_bal self) account_index (bwi_bal_index self) key value.
Definition BalWithIndex_populate_storage_slot (self : BalWithIndex) (account_address key value : Z)
    : result () BalError * Z :=
  Bal_populate_storage_slot (bwi_bal self) account_address (bwi_bal_index self) key value.

(** * The wire format ([alloy.rs] and [account.rs])

    The types of [alloy_eip7928] are the records of a block access list; the
    changes of one field are listed with their index. *)

Record AlloySlotChanges := mkAlloySlotChanges { asc_slot : Z; asc_changes : list (Z * Z) }.
Record AlloyAccountChanges := mkAlloyAccountChanges {
  aac_address : Z; aac_storage_changes : list AlloySlotChanges; aac_storage_reads : list Z;
  aac_balance_changes : list (Z * Z); aac_nonce_changes : list (Z * Z);
  aac_code_changes : list (Z * list Z) }.

Definition into_alloy_account (self : AccountBal) (address : Z) : AlloyAccountChanges :=
  let reads := (filter (fun kv => kv.2 = []) (btree_iter (ab_storage self))).*1 in
  let changes := (fun kv => mkAlloySlotChanges kv.1 kv.2)
    <$> filter (fun kv => kv.2 <> []) (btree_iter (ab_storage self)) in
  mkAlloyAccountChanges address changes reads (aib_balance (ab_account_info self))
    (aib_nonce (ab_account_info self))
    ((fun w => (w.1, Bytecode_original_bytes w.2.2)) <$> aib_code (ab_account_info self)).
Definition into_alloy_bal (self : Bal) : list AlloyAccountChanges :=
  (fun a => into_alloy_account a.2 a.1) <$> bal_accounts self.

Section FromAlloy.
Context `{BitVec, Keccak}.

(** [collect::<Result<Vec<_>, _>>] of a function that may panic: it stops at the
    first error. *)
Fixpoint collect_results {A B Err' : Type} (f : A -> option (result B Err')) (l : list A)
    : option (result (list B) Err') :=
  match l with
  | [] => Some (Ok [])
  | x :: l =>
      let? r := f x in
      match r with
      | Err e => Some (Err e)
      | Ok y =>
          let? r := collect_results f l in
          match r with Err e => Some (Err e) | Ok l => Some (Ok (y :: l)) end
      end
  end.

Definition code_write_from_alloy (change : Z * list Z)
    : option (result (Z * (Z * Bytecode)) Eip7702DecodeError) :=
  let? r := Bytecode_new_raw_checked change.2 in
  match r with
  | Err e => Some (Err e)
  | Ok bytecode => Some (Ok (change.1, (Bytecode_hash_slow bytecode, bytecode)))
  end.
Definition code_writes_from_alloy (value : list (Z * list Z))
    : option (result (BalWrites (Z * Bytecode)) Eip7702DecodeError) :=
  collect_results code_write_from_alloy value.

Definition try_from_alloy (alloy_account : AlloyAccountChanges)
    : option (result (Z * AccountBal) Eip7702DecodeError) :=
  let? r := code_writes_from_alloy (aac_code_changes alloy_account) in
  match r with
  | Err e => Some (Err e)
  | Ok code =>
      let slots := aac_storage_changes alloy_account
        ++ ((fun key => mkAlloySlotChanges key []) <$> aac_storage_reads alloy_account) in
      Some (Ok (aac_address alloy_account,
        mkAccountBal
          (mkAccountInfoBal (aac_nonce_changes alloy_account) (aac_balance_changes alloy_account) code)
          (StorageBal_from_iter ((fun slot => (asc_slot slot, asc_changes slot)) <$> slots))))
  end.
Definition Bal_try_from (alloy_bal : list AlloyAccountChanges)
    : option (result Bal Eip7702DecodeError) :=
  let? r := collect_results try_from_alloy alloy_bal in
  match r with
  | Err e => Some (Err e)
  | Ok accounts => Some (Ok (Bal_from_iter accounts))
  end.
End FromAlloy.

(** * The database over a list ([database/interface/src/bal.rs]) *)

Inductive BalDatabaseError (E : Type) : Type :=
| BalErr (e : BalError)
| DatabaseErr (e : E).
Arguments BalErr {E} _.
Arguments DatabaseErr {E} _.

Record BalDatabase (DB : Type) := mkBalDatabase {
  bd_bal : option Bal; bd_bal_builder : option Bal; bd_bal_index : Z; bd_db : DB;
  bd_changes : gmap Z Account }.
Arguments mkBalDatabase {DB} _ _ _ _ _.
Arguments bd_bal {DB} _.
Arguments bd_bal_builder {DB} _.
Arguments bd_bal_index {DB} _.
Arguments bd_db {DB} _.
Arguments bd_changes {DB} _.

Section BalDatabase.
Context {DB E : Type} `{BitVec, Database DB E}.
Implicit Types self : BalDatabase DB.

Definition BalDatabase_new (db : DB) : BalDatabase DB := mkBalDatabase None None 0 db ∅.
Definition with_bal_option self (bal : option Bal) : BalDatabase DB :=
  mkBalDatabase bal (bd_bal_builder self) (bd_bal_index self) (bd_db self) (bd_changes self).
Definition with_bal_builder self : BalDatabase DB :=
  mkBalDatabase (bd_bal self) (Some Bal_new) (bd_bal_index self) (bd_db self) (bd_changes self).
Definition reset_bal_index self : BalDatabase DB :=
  mkBalDatabase (bd_bal self) (bd_bal_builder self) 0 (bd_db self) (bd_changes self).
Definition bump_bal_index self : BalDatabase DB :=
  mkBalDatabase (bd_bal self) (bd_bal_builder self) (wrapping_add 64 (bd_bal_index self) 1)
    (bd_db self) (bd_changes self).

(** The assignment of the inner database after a call of one of its methods. *)
Definition with_bd_db (db : DB) self : BalDatabase DB :=
  mkBalDatabase (bd_bal self) (bd_bal_builder self) (bd_bal_index self) db (bd_changes self).

Definition BalDatabase_basic self (address : Z)
    : result (option AccountInfo) (BalDatabaseError E) * BalDatabase DB :=
  let '(r, db) := db_basic (bd_db self) address in
  let self := with_bd_db db self in
  match r with
  | Err e => (Err (DatabaseErr e), self)
  | Ok basic =>
      let basic : result (option AccountInfo) (BalDatabaseError E) :=
        match bd_bal self with
        | Some bal =>
            match basic with
            | Some acct =>
                match Bal_populate_account_info bal address (bd_bal_index self) acct with
                | (Err e, _) => Err (BalErr e)
                | (Ok _, acct) => Ok (Some acct)
                end
            | None =>
                match Bal_populate_account_info bal address (bd_bal_index self) AccountInfo_default with
                | (Err e, _) => Err (BalErr e)
                | (Ok true, acct) => Ok (Some acct)
                | (Ok false, _) => Ok None
                end
            end
        | None => Ok basic
        end in
      match basic with
      | Err e => (Err e, self)
      | Ok basic =>
          let basic := match basic with
                       | Some acct => if AccountInfo_is_empty acct then None else Some acct
                       | None => None
                       end in
          (Ok basic, self)
      end
  end.

Definition BalDatabase_code_by_hash self (code_hash : Z)
    : result Bytecode (BalDatabaseError E) * BalDatabase DB :=
  let '(code, db) := db_code_by_hash (bd_db self) code_hash in
  (map_err DatabaseErr code, with_bd_db db self).

Definition BalDatabase_storage self (address key : Z)
    : result Z (BalDatabaseError E) * BalDatabase DB :=
  let '(r, db) := db_storage (bd_db self) address key in
  let self := with_bd_db db self in
  match r with
  | Err e => (Err (DatabaseErr e), self)
  | Ok value =>
      match bd_bal self with
      | Some bal =>
          match Bal_populate_storage_slot bal address (bd_bal_index self) key value with
          | (Err e, _) => (Err (BalErr e), self)
          | (Ok _, value) => (Ok value, self)
          end
      | None => (Ok value, self)
      end
  end.

Definition BalDatabase_storage_by_account_id self (address : Z) (account_id : nat) (storage_key : Z)
    : result Z (BalDatabaseError E) * BalDatabase DB :=
  let '(r, db) := db_storage (bd_db self) address storage_key in
  let self := with_bd_db db self in
  match r with
  | Err e => (Err (DatabaseErr e), self)
  | Ok value =>
      match bd_bal self with
      | Some bal =>
          match Bal_populate_storage_slot_by_account_id bal account_id (bd_bal_index self)
                  storage_key value with
          | (Err e, _) => (Err (BalErr e), self)
          | (Ok _, value) => (Ok value, self)
          end
      | None => (Ok value, self)
      end
  end.

Definition BalDatabase_block_hash self (number : Z)
    : result Z (BalDatabaseError E) * BalDatabase DB :=
  let '(r, db) := db_block_hash (bd_db self) number in
  (map_err DatabaseErr r, with_bd_db db self).

#[global] Instance BalDatabase_Database : Database (BalDatabase DB) (BalDatabaseError E) := {|
  db_basic := BalDatabase_basic; db_code_by_hash := BalDatabase_code_by_hash;
  db_storage := BalDatabase_storage; db_block_hash := BalDatabase_block_hash |}.

Context `{DatabaseCommit DB}.

(** The builder takes the accounts of a commit at the present index. *)
Definition commit_to_builder (bal_index : Z) (builder : Bal) (changes : gmap Z Account) : Bal :=
  fold_left (fun builder '(address, account) =>
    Bal_update_account builder bal_index address account) (map_to_list changes) builder.

#[global] Instance BalDatabase_commit : DatabaseCommit (BalDatabase DB) := fun self changes =>
  let builder := (fun b => commit_to_builder (bd_bal_index self) b changes) <$> bd_bal_builder self in
  let? db := db_commit (bd_db self) changes in
  Some (mkBalDatabase (bd_bal self) builder (bd_bal_index self) db (bd_changes self)).
End BalDatabase.
