(* ===== verification/BalLaws.v ===== *)
(** Block access lists answer the reads of every transaction of a block.

    [value_before] is what a list of writes says of the state before an index:
    the last write with a smaller index.  [BalWrites_get] computes it by a
    linear or a binary search, and [update_with_key] adds a write to it.
    [bal_replay_correct] lifts this to whole lists: the list that
    [BalDatabase::commit] builds while a block is executed in order lets
    [BalDatabase] answer the reads of the [j]th transaction, over the state
    before the block, as if the transactions before it had been executed. *)
From S2P Require Import Prelude Hardfork Bytecode State Database BundleAccount BundleAccountLaws CacheState CacheAccountLaws StateLaws Bal.
From stdpp Require Import base numbers list option tactics gmap sorting.
From Stdlib Require Import ZArith Lia.

Local Open Scope Z_scope.

(** * Searching *)

Section Search.
Context {T : Type}.
Implicit Types l : list (Z * T).

Definition ascending l : Prop := StronglySorted (fun a b => a.1 < b.1) l.
Definition value_before l (j : Z) : option T := snd <$> last (filter (fun w => w.1 < j) l).

Lemma filter_none_after l i j :
  Forall (fun w => i < w.1) l -> j <= i -> filter (fun w : Z * T => w.1 < j) l = [].
Proof.
  intros Hl Hj. induction Hl as [|w l Hw Hl IH]; [done|].
  rewrite filter_cons_False by lia. exact IH.
Qed.

(** In order, the writes before an index are a prefix. *)
Lemma filter_before_take l j :
  ascending l -> filter (fun w => w.1 < j) l = take (length (filter (fun w => w.1 < j) l)) l.
Proof.
  intros Hl. induction Hl as [|w l Hl IH Hw]; [done|]. destruct (decide (w.1 < j)) as [Hj|Hj].
  - rewrite filter_cons_True by done. cbn [length take]. by rewrite <- IH.
  - rewrite filter_cons_False by done. erewrite filter_none_after by (exact Hw || lia). done.
Qed.

Lemma linear_search_loop_correct l j : forall acc,
  ascending l ->
  linear_search_loop l j acc
  = match value_before l j with Some v => Some v | None => acc end.
Proof.
  unfold value_before. induction l as [|[i v] l IH]; intros acc Hl; [done|].
  apply StronglySorted_inv in Hl as [Hl Hf]. cbn [linear_search_loop].
  destruct (Z.leb_spec j i).
  - rewrite filter_cons_False by (cbn; lia). by erewrite filter_none_after by (exact Hf || done).
  - rewrite IH, filter_cons_True by (done || cbn; lia).
    destruct (filter _ l) as [|w l'] eqn:E; [done|]. rewrite last_cons_cons.
    destruct (last (w :: l')) eqn:E'; [done|]. by apply last_None in E'.
Qed.

(** ** Binary search *)

Lemma binary_search_loop_correct cmp t : forall fuel base size,
  (forall i, (0 < i)%nat -> (i < base + size)%nat -> cmp i <> Gt <-> (i <= t)%nat) ->
  (base <= t < base + size)%nat -> (size <= fuel)%nat ->
  binary_search_loop fuel cmp base size = t.
Proof.
  induction fuel as [|fuel IH]; intros base size Hc Ht Hf; [lia|]. cbn [binary_search_loop].
  destruct (Nat.ltb_spec 1 size) as [Hs|Hs]; [|lia].
  pose proof (Nat.div_mod_eq size 2). pose proof (Nat.mod_upper_bound size 2).
  assert (1 <= size / 2)%nat by lia.
  pose proof (Hc (base + size / 2)%nat) as Hm.
  destruct (cmp (base + size / 2)%nat) eqn:E; apply IH; try lia;
    try (intros i ? ?; apply Hc; lia).
  - assert (base + size / 2 <= t)%nat by (apply Hm; [lia..|done]). lia.
  - assert (base + size / 2 <= t)%nat by (apply Hm; [lia..|done]). lia.
  - assert (~ (base + size / 2 <= t)%nat) by (intros Hle; apply Hm in Hle; [done|lia..]). lia.
Qed.

(** The search finds the number of elements before the one looked for. *)
Lemma binary_search_by_correct len cmp p :
  (p <= len)%nat ->
  (forall i, (i < p)%nat -> cmp i = Lt) ->
  (forall i, (p < i)%nat -> (i < len)%nat -> cmp i = Gt) ->
  ((p < len)%nat -> cmp p <> Lt) ->
  match binary_search_by len cmp with Ok i => i | Err i => i end = p.
Proof.
  intros Hp Hlt Hgt Hpl. unfold binary_search_by. destruct (Nat.eqb_spec len 0); [lia|].
  set (t := if decide (p < len /\ cmp p = Eq)%nat then p else (p - 1)%nat).
  assert (Ht : binary_search_loop len cmp 0 len = t).
  { subst t. apply binary_search_loop_correct; [|case_decide; lia|lia]. intros i Hi Hil.
    case_decide as Hd; destruct (Nat.lt_trichotomy i p) as [Hip|[->|Hip]].
    - rewrite Hlt by done. split; [lia|done].
    - destruct Hd as [_ ->]. split; [lia|done].
    - rewrite Hgt by lia. split; [done|lia].
    - rewrite Hlt by done. split; [lia|done].
    - destruct (cmp p) eqn:E; [tauto|by destruct (Hpl Hil)|]. split; [done|lia].
    - rewrite Hgt by lia. split; [done|lia]. }
  rewrite Ht. subst t. case_decide as Hd; [by destruct Hd as [_ ->]|].
  destruct p as [|p].
  - cbn. destruct (cmp 0%nat) eqn:E; [|by destruct Hpl; [lia|]|done].
    destruct Hd. by split; [lia|].
  - replace (S p - 1)%nat with p by lia. rewrite Hlt by lia. lia.
Qed.

Lemma ascending_lookup l i k a b :
  ascending l -> l !! i = Some a -> l !! k = Some b -> (i < k)%nat -> a.1 < b.1.
Proof.
  intros Hl. revert i k. induction Hl as [|w l Hl IH Hw]; intros [|i] [|k] Ha Hb Hik; simplify_eq/=; try lia.
  - by apply (Forall_lookup_1 _ _ _ _ Hw Hb).
  - apply (IH i k); [done..|lia].
Qed.

Lemma BalWrites_get_aux l j : ascending l -> BalWrites_get l j = value_before l j.
Proof.
  intros Hl. unfold BalWrites_get. destruct (Nat.ltb_spec (length l) 5).
  { unfold get_linear_search. rewrite linear_search_loop_correct by done. by destruct (value_before l j). }
  pose proof (filter_before_take l j Hl) as Hf. set (p := length (filter (fun w => w.1 < j) l)) in *.
  assert (Hp : (p <= length l)%nat) by apply length_filter.
  assert (Hbefore : forall i w, l !! i = Some w -> (i < p)%nat <-> w.1 < j).
  { intros i w Hi. split.
    - intros Hip. assert (Hin : w ∈ take p l) by (eapply list_elem_of_lookup_2; by rewrite lookup_take_lt).
      rewrite <- Hf in Hin. by apply list_elem_of_filter in Hin as [? _].
    - intros Hw. destruct (Nat.lt_ge_cases i p) as [|Hge]; [done|exfalso].
      assert (Hin : w ∈ take p l).
      { rewrite <- Hf. apply list_elem_of_filter. split; [done|]. by eapply list_elem_of_lookup_2. }
      apply list_elem_of_lookup_1 in Hin as [k Hk]. apply lookup_take_Some in Hk as [Hk ?].
      pose proof (ascending_lookup l k i w w Hl Hk Hi). lia. }
  rewrite (binary_search_by_correct _ _ p Hp).
  - unfold value_before. rewrite Hf. destruct (Nat.eqb_spec p 0) as [->|Hp0]; [done|].
    rewrite last_lookup, length_take_le, lookup_take_lt by lia. by replace (pred p) with (p - 1)%nat by lia.
  - intros i Hi. unfold cmp_index. destruct (lookup_lt_is_Some_2 l i) as [w Hw]; [lia|]. rewrite Hw.
    apply Z.compare_lt_iff. by apply (Hbefore i w Hw).
  - intros i Hpi Hi. unfold cmp_index. destruct (lookup_lt_is_Some_2 l i Hi) as [w Hw].
    destruct (lookup_lt_is_Some_2 l p) as [w' Hw']; [lia|]. rewrite Hw. apply Z.compare_gt_iff.
    pose proof (ascending_lookup l p i w' w Hl Hw' Hw Hpi).
    assert (~ (w'.1 < j)) by (rewrite <- (Hbefore p w' Hw'); lia). lia.
  - intros Hpl. unfold cmp_index. destruct (lookup_lt_is_Some_2 l p Hpl) as [w Hw]. rewrite Hw.
    rewrite Z.compare_lt_iff, <- (Hbefore p w Hw). lia.
Qed.

(** C37: [BalWrites::get] finds the value of a state item before a transaction:
    for writes with strictly ascending indices, so at most one for each index, both
    the linear search and, from five writes on, the binary search return the last
    write with a smaller index, and none when there is no such write.  (Where
    several writes have one index, which [merge_writes] makes, the binary search can
    end among them: [merged_index_search_wrong].) *)
Theorem BalWrites_get_correct l j :
  ascending l -> BalWrites_get l j = value_before l j /\ get_linear_search l j = value_before l j.
Proof.
  intros Hl. split; [by apply BalWrites_get_aux|]. unfold get_linear_search.
  rewrite linear_search_loop_correct by done. by destruct (value_before l j).
Qed.

(** * Updating *)

Lemma split_last_Some l rest w : split_last l = Some (rest, w) -> l = rest ++ [w].
Proof.
  unfold split_last. destruct (reverse l) as [|x r] eqn:E; [done|]. intros [= <- <-].
  by rewrite <- (reverse_involutive l), E, reverse_cons.
Qed.
Lemma split_last_None l : split_last l = None -> l = [].
Proof.
  unfold split_last. destruct (reverse l) eqn:E; [|done]. intros _.
  by rewrite <- (reverse_involutive l), E.
Qed.

Lemma value_before_app l w j :
  value_before (l ++ [w]) j = if w.1 <? j then Some w.2 else value_before l j.
Proof.
  unfold value_before. rewrite filter_app. destruct (Z.ltb_spec w.1 j).
  - rewrite filter_cons_True by done. cbn. by rewrite last_snoc.
  - rewrite filter_cons_False, filter_nil, app_nil_r by lia. done.
Qed.

Lemma ascending_app l w :
  ascending (l ++ [w]) <-> ascending l /\ Forall (fun x => x.1 < w.1) l.
Proof.
  unfold ascending. rewrite StronglySorted_app, Forall_forall. split.
  - intros (H & ? & _). split; [done|]. intros x Hx. apply H; [done|by apply list_elem_of_singleton].
  - intros [? H]. split_and!; [|done|by repeat constructor].
    intros x y Hx ->%list_elem_of_singleton. by apply H.
Qed.

Definition written_by l (i : Z) : Prop := Forall (fun w => 0 <= w.1 <= i) l.

Lemma written_by_le l i k : written_by l i -> i <= k -> written_by l k.
Proof. intros Hl ?. eapply Forall_impl; [exact Hl|]. cbn. lia. Qed.

(** After all the writes the last one counts. *)
Lemma value_before_all l i j : written_by l i -> i < j -> value_before l j = snd <$> last l.
Proof.
  intros Hl Hj. destruct l as [|w l] using rev_ind; [done|].
  apply Forall_app in Hl as [_ [Hw _]%Forall_cons]. cbn in Hw. rewrite value_before_app, last_snoc.
  by destruct (Z.ltb_spec w.1 j); [|lia].
Qed.

(** ** The value of a field

    [f] is the part of the value that is compared, [start] its value before the
    block. *)
Context {K : Type} `{EqDecision K} (f : T -> K).

Definition field_before l (start : K) (j : Z) : K := default start (f <$> value_before l j).

Lemma field_before_app l w start j :
  field_before (l ++ [w]) start j = if w.1 <? j then f w.2 else field_before l start j.
Proof. unfold field_before. rewrite value_before_app. by case_match. Qed.

(** [update_with_key] at an index not before the writes: from then on the field
    has the new value, before it nothing changes.  [original] must be the value
    before the index, or the new value must differ from it. *)
Lemma update_with_key_correct l index start original value :
  ascending l -> written_by l index -> 0 <= index ->
  original = field_before l start index \/ original <> f value ->
  let l' := update_with_key l index original value f in
  ascending l' /\ written_by l' index /\
  forall j, field_before l' start j = if index <? j then f value else field_before l start j.
Proof.
  intros Ha Hw Hpos Ho. unfold update_with_key.
  assert (Hpush : forall r, ascending r -> written_by r index -> Forall (fun w => w.1 < index) r ->
    ascending (r ++ [(index, value)]) /\ written_by (r ++ [(index, value)]) index).
  { intros r Hr Hwr Hlt. split; [by apply ascending_app|].
    apply Forall_app. split; [done|]. apply Forall_singleton. cbn. lia. }
  destruct (split_last l) as [[rest last]|] eqn:El.
  - apply split_last_Some in El as ->. apply ascending_app in Ha as [Hr Hlt].
    apply Forall_app in Hw as Hw'. destruct Hw' as [Hwr [Hi _]%Forall_cons]. cbn in Hi.
    destruct (Z.eqb_spec last.1 index) as [Heq|Hne]; cbn [negb].
    + rewrite Heq in Hlt. set (previous := match split_last rest with Some (_, p) => f p.2 | None => original end).
      assert (Hprev : previous = field_before rest start index \/ previous <> f value).
      { subst previous. rewrite field_before_app in Ho. destruct (Z.ltb_spec last.1 index); [lia|].
        destruct (split_last rest) as [[r p]|] eqn:Er; [|done].
        apply split_last_Some in Er as ->. rewrite field_before_app. left.
        apply Forall_app in Hlt as [_ [Hp _]%Forall_cons]. cbn in Hp. by destruct (Z.ltb_spec p.1 index); [|lia]. }
      clearbody previous. case_decide as Hd; rewrite ?Heq.
      * destruct Hprev as [->|]; [|done]. split_and!; [done..|]. intros j. rewrite field_before_app, Heq.
        destruct (Z.ltb_spec index j); [|done]. rewrite <- Hd. unfold field_before.
        assert (Hb : written_by rest (index - 1)).
        { apply Forall_forall. intros x Hx. unfold written_by in Hwr. rewrite Forall_forall in Hwr, Hlt.
          specialize (Hwr x Hx). specialize (Hlt x Hx). cbn in *. lia. }
        by rewrite (value_before_all _ _ j Hb), (value_before_all _ _ index Hb) by lia.
      * destruct (Hpush rest) as [? ?]; [done..|]. split_and!; [done..|]. intros j.
        rewrite !field_before_app, Heq. cbn. by destruct (index <? j).
    + assert (last.1 < index) by lia. case_decide as Hd.
      * split_and!; [by apply ascending_app|done|]. intros j. rewrite field_before_app.
        destruct (Z.ltb_spec index j); [|done]. by destruct (Z.ltb_spec last.1 j); [|lia].
      * destruct (Hpush (rest ++ [last])) as [? ?]; [by apply ascending_app|done| |].
        { apply Forall_app. split; [eapply Forall_impl; [exact Hlt|]; cbn; lia|by apply Forall_singleton]. }
        split_and!; [done..|]. intros j. by rewrite field_before_app.
  - apply split_last_None in El as ->.
    case_decide as Hd.
    + destruct Ho as [->|]; [|done].
      split; [exact Ha|split; [exact Hw|]]. intros j. unfold field_before in *. cbn in *. by case_match.
    + destruct (Hpush []) as [? ?]; [constructor..|]. split_and!; [done..|]. intros j.
      by rewrite (field_before_app []).
Qed.
End Search.

(** * Accounts *)

Section Accounts.
Context `{BitVec}.
Implicit Types (w : AccountWorld) (ab : AccountBal) (account : Account).

(** The fields of an account that a list records; one that does not exist has
    those of the default account. *)
Definition fields (i : option AccountInfo) : Z * Z * Z :=
  let i := default AccountInfo_default i in (nonce i, balance i, code_hash i).

Definition writes_ok {T : Type} (i : Z) (l : list (Z * T)) : Prop := ascending l /\ written_by l i.

(** What a list says of an account before the index [j], over [w0]. *)
Definition fields_before ab w0 (j : Z) : Z * Z * Z :=
  let i := ab_account_info ab in
  let '(non, bal, hash) := fields (w_info w0) in
  (field_before id (aib_nonce i) non j, field_before id (aib_balance i) bal j,
   field_before fst (aib_code i) hash j).
Definition slot_before ab w0 (k j : Z) : Z :=
  field_before id (default [] (ab_storage ab !! k)) (w_storage w0 k) j.

(** The list is right about the account up to the index [i]: [h j] is its world
    before the index [j]. *)
Record account_tracks w0 (i : Z) ab (h : Z -> AccountWorld) : Prop := {
  at_nonce : writes_ok i (aib_nonce (ab_account_info ab));
  at_balance : writes_ok i (aib_balance (ab_account_info ab));
  at_code : writes_ok i (aib_code (ab_account_info ab));
  at_slots k l : ab_storage ab !! k = Some l -> writes_ok i l;
  at_fields j : fields (w_info (h j)) = fields_before ab w0 j;
  at_storage j k : w_storage (h j) k = slot_before ab w0 k j }.

(** A value [w] that an earlier commit at the same index has changed from [s] is
    changed again, not merely read. *)
Definition not_only_read {K : Type} (s w after : K) : Prop := w = s \/ w <> after.

(** The fields a commit records for an account. *)
Definition recorded_fields account : Z * Z * Z :=
  fields (if Account_is_selfdestructed_locally account then None else Some (info account)).

(** The output of an execution on the world [w], where the present index started
    from [s]: the values it starts from are those of [w], what was changed before at
    this index and is part of the output is changed again, an account that is not
    touched is not changed, only a contract created by the same transaction is
    destroyed. *)
Record bal_commit_ok (s w : AccountWorld) account : Prop := {
  bc_valid : Account_is_touched account = true -> commit_valid true w account;
  bc_original : fields (Some (original_info account)) = fields (w_info w);
  bc_slot k e : storage account !! k = Some e -> original_value e = w_storage w k;
  bc_hash : code_hash (info account) <> 0;
  bc_nonce : not_only_read (fields (w_info s)).1.1 (fields (w_info w)).1.1 (recorded_fields account).1.1;
  bc_balance : not_only_read (fields (w_info s)).1.2 (fields (w_info w)).1.2 (recorded_fields account).1.2;
  bc_code : not_only_read (fields (w_info s)).2 (fields (w_info w)).2 (recorded_fields account).2;
  bc_changed_slot k e : storage account !! k = Some e ->
    not_only_read (w_storage s k) (w_storage w k) (present_value e);
  bc_untouched : Account_is_touched account = false ->
    Account_is_selfdestructed_locally account = false /\
    fields (Some (info account)) = fields (w_info w) /\
    forall k e, storage account !! k = Some e -> EvmStorageSlot_is_changed e = false;
  bc_destroyed : Account_is_touched account = true -> Account_is_selfdestructed account = true ->
    Account_is_selfdestructed_locally account = true;
  bc_local : Account_is_selfdestructed_locally account = true ->
    Account_is_selfdestructed account = true /\ forall k, w_storage w k = 0 }.

(** ** The world after a commit *)

Lemma slot_view_changed u account k :
  slot_view u (changed_storage account) k
  = match storage account !! k with
    | Some e => if EvmStorageSlot_is_changed e then present_value e else u k
    | None => u k
    end.
Proof.
  unfold slot_view, changed_storage. rewrite lookup_omap.
  destruct (storage account !! k) as [e|]; [|done]. cbn. by destruct (EvmStorageSlot_is_changed e).
Qed.

Lemma unchanged_present e : EvmStorageSlot_is_changed e = false -> present_value e = original_value e.
Proof. unfold EvmStorageSlot_is_changed. lia. Qed.

Lemma changed_storage_empty account k e :
  changed_storage account = ∅ -> storage account !! k = Some e -> EvmStorageSlot_is_changed e = false.
Proof.
  intros He Hk. destruct (EvmStorageSlot_is_changed e) eqn:E; [|done].
  assert (Hn : changed_storage account !! k = None) by (by rewrite He).
  unfold changed_storage in Hn. rewrite lookup_omap, Hk in Hn. cbn in Hn. by rewrite E in Hn.
Qed.

Lemma empty_fields i : AccountInfo_is_empty i = true -> code_hash i <> 0 -> fields (Some i) = fields None.
Proof.
  unfold AccountInfo_is_empty, AccountInfo_is_empty_code_hash, fields. intros Hi Hh. cbn.
  repeat f_equal; lia.
Qed.

Lemma has_no_code_default i :
  AccountInfo_eq i AccountInfo_default = true -> AccountInfo_has_no_code_and_nonce i = true.
Proof. intros He. by rewrite (has_no_code_equiv _ _ He). Qed.

(** An account that is left empty was gone or empty, without storage. *)
Lemma empty_storage w account :
  world_normal w -> commit_valid true w account ->
  Account_is_selfdestructed account = false -> Account_is_created account = false ->
  Account_is_empty account = true -> forall k, w_storage w k = 0.
Proof.
  intros [Hn Hc He _] Hv Hs Hcr Hem k. destruct (v_empty _ _ _ Hv Hs Hcr Hem) as [_ Hi].
  destruct (w_info w) as [i|] eqn:Ei; [|by apply Hn].
  apply (Hc i eq_refl). by apply has_no_code_default, (He i eq_refl), Hi.
Qed.

Lemma commit_fields s w account :
  bal_commit_ok s w account -> Account_is_selfdestructed_locally account = false ->
  fields (w_info (commit_account true w account)) = fields (Some (info account)).
Proof.
  intros Hok Hl. unfold commit_account. destruct (Account_is_touched account) eqn:Et; cbn [negb].
  - destruct (Account_is_selfdestructed account) eqn:Es.
    { by rewrite (bc_destroyed _ _ _ Hok Et Es) in Hl. }
    destruct (Account_is_created account); [done|].
    destruct (Account_is_empty account) eqn:Ee; [|done]. cbn [w_info gone_world].
    symmetry. apply empty_fields; [done|]. by apply (bc_hash _ _ _ Hok).
  - destruct (bc_untouched _ _ _ Hok Et) as (_ & Hf & _). by rewrite Hf.
Qed.

Lemma commit_storage s w account k :
  world_normal w -> bal_commit_ok s w account -> Account_is_selfdestructed_locally account = false ->
  w_storage (commit_account true w account) k
  = match storage account !! k with Some e => present_value e | None => w_storage w k end.
Proof.
  intros Hn Hok Hl. unfold commit_account.
  pose proof (fun e He => bc_slot _ _ _ Hok k e He) as Hsl.
  destruct (Account_is_touched account) eqn:Et; cbn [negb].
  - pose proof (bc_valid _ _ _ Hok Et) as Hv. destruct (Account_is_selfdestructed account) eqn:Es.
    { by rewrite (bc_destroyed _ _ _ Hok Et Es) in Hl. }
    destruct (Account_is_created account) eqn:Ec.
    { destruct (v_created _ _ _ Hv Es Ec) as [Hz _]. cbn [w_storage]. rewrite slot_view_changed.
      destruct (storage account !! k) as [e|]; [|by rewrite Hz].
      destruct (EvmStorageSlot_is_changed e) eqn:E; [done|]. by rewrite unchanged_present, Hsl, Hz. }
    destruct (Account_is_empty account) eqn:Ee.
    { pose proof (empty_storage _ _ Hn Hv Es Ec Ee k) as Hz.
      destruct (v_empty _ _ _ Hv Es Ec Ee) as [Hch _]. cbn [w_storage gone_world].
      destruct (storage account !! k) as [e|] eqn:Ek; [|done].
      by rewrite (unchanged_present e (changed_storage_empty _ _ _ Hch Ek)), Hsl. }
    cbn [w_storage]. rewrite slot_view_changed. destruct (storage account !! k) as [e|]; [|done].
    destruct (EvmStorageSlot_is_changed e) eqn:E; [done|]. by rewrite unchanged_present, Hsl.
  - destruct (bc_untouched _ _ _ Hok Et) as (_ & _ & Hu).
    destruct (storage account !! k) as [e|] eqn:Ek; [|done]. by rewrite (unchanged_present e (Hu k e Ek)), Hsl.
Qed.

Lemma commit_local s w account :
  bal_commit_ok s w account -> Account_is_selfdestructed_locally account = true ->
  commit_account true w account = gone_world /\ forall k, w_storage w k = 0.
Proof.
  intros Hok Hl. destruct (bc_local _ _ _ Hok Hl) as [Hs Hz]. split; [|done]. unfold commit_account.
  destruct (Account_is_touched account) eqn:Et; cbn [negb]; [by rewrite Hs|].
  destruct (bc_untouched _ _ _ Hok Et) as [Hf _]. by rewrite Hl in Hf.
Qed.

(** ** The update of an account *)

Lemma lookup_merge_entries {A : Type} (g : list (Z * Z) -> A -> list (Z * Z)) m (o : gmap Z A) k :
  merge_entries g m o !! k
  = match o !! k with Some x => Some (g (default [] (m !! k)) x) | None => m !! k end.
Proof. unfold merge_entries. rewrite lookup_merge. by destruct (m !! k), (o !! k). Qed.

Lemma lookup_update_reads ks : forall (m : gmap Z (list (Z * Z))) k,
  StorageBal_update_reads m ks !! k = if decide (k ∈ ks) then Some (default [] (m !! k)) else m !! k.
Proof.
  induction ks as [|x ks IH]; intros m k; [by rewrite decide_False by set_solver|].
  change (StorageBal_update_reads m (x :: ks))
    with (StorageBal_update_reads (<[x := default [] (m !! x)]> m) ks).
  rewrite IH. destruct (decide (k = x)) as [->|Hne].
  - rewrite lookup_insert_eq. cbn. rewrite (decide_True (P := x ∈ x :: ks)) by set_solver. by case_decide.
  - rewrite lookup_insert_ne by done. by do 2 case_decide; try set_solver.
Qed.

Lemma field_update {T : Type} (f : T -> Z) (l : list (Z * T)) i start original value h :
  0 <= i -> writes_ok i l -> (forall j, h j = field_before f l start j) -> not_only_read (h i) original (f value) ->
  let l' := update_with_key l i original value f in
  writes_ok i l' /\
  forall j, (if i <? j then f value else h j) = field_before f l' start j.
Proof.
  intros Hi [Ha Hw] Hh Ho. unfold not_only_read in Ho. rewrite (Hh i) in Ho.
  destruct (update_with_key_correct f l i start original value Ha Hw Hi Ho) as (? & ? & Hj).
  split; [by split|]. intros j. rewrite Hj. by rewrite Hh.
Qed.

Lemma account_info_update w0 i ab h o p st :
  0 <= i -> account_tracks w0 i ab h ->
  not_only_read (fields (w_info (h i))).1.1 (nonce o) (nonce p) ->
  not_only_read (fields (w_info (h i))).1.2 (balance o) (balance p) ->
  not_only_read (fields (w_info (h i))).2 (code_hash o) (code_hash p) ->
  let ib := AccountInfoBal_update (ab_account_info ab) i o p in
  writes_ok i (aib_nonce ib) /\ writes_ok i (aib_balance ib) /\ writes_ok i (aib_code ib) /\
  forall j, (if i <? j then fields (Some p) else fields (w_info (h j)))
    = fields_before (mkAccountBal ib st) w0 j.
Proof.
  intros Hi Ht Hon Hob Hoc. unfold fields_before, AccountInfoBal_update. cbn [ab_account_info aib_nonce aib_balance aib_code].
  pose proof (at_fields _ _ _ _ Ht) as Hf. unfold fields_before in Hf.
  destruct (fields (w_info w0)) as [[n0 b0] c0].
  destruct (field_update id (aib_nonce (ab_account_info ab)) i n0 (nonce o) (nonce p)
    (fun j => (fields (w_info (h j))).1.1) Hi (at_nonce _ _ _ _ Ht)) as [? Hn];
    [intros j; by rewrite Hf|done|].
  destruct (field_update id (aib_balance (ab_account_info ab)) i b0 (balance o) (balance p)
    (fun j => (fields (w_info (h j))).1.2) Hi (at_balance _ _ _ _ Ht)) as [? Hb];
    [intros j; by rewrite Hf|done|].
  destruct (field_update fst (aib_code (ab_account_info ab)) i c0 (code_hash o)
    (code_hash p, default Bytecode_default (code p))
    (fun j => (fields (w_info (h j))).2) Hi (at_code _ _ _ _ Ht)) as [? Hc];
    [intros j; by rewrite Hf|done|].
  split_and!; [done..|]. intros j. unfold BalWrites_update. rewrite <- Hn, <- Hb, <- Hc.
  destruct (i <? j); [done|]. by destruct (fields (w_info (h j))) as [[]].
Qed.

Lemma account_update_tracks w0 i ab h w account :
  0 <= i -> account_tracks w0 i ab h -> (forall j, i < j -> h j = w) -> world_normal w ->
  bal_commit_ok (h i) w account ->
  account_tracks w0 i (AccountBal_update ab i account)
    (fun j => if i <? j then commit_account true w account else h j).
Proof.
  intros Hi Ht Hw Hn Hok.
  pose proof (bc_nonce _ _ _ Hok) as Hon. pose proof (bc_balance _ _ _ Hok) as Hob. pose proof (bc_code _ _ _ Hok) as Hoc.
  rewrite <- (bc_original _ _ _ Hok) in Hon, Hob, Hoc. unfold recorded_fields in Hon, Hob, Hoc.
  unfold AccountBal_update. destruct (Account_is_selfdestructed_locally account) eqn:El.
  - destruct (commit_local _ _ _ Hok El) as [Hgone Hz].
    set (st := StorageBal_update_reads _ _).
    destruct (account_info_update w0 i ab h (original_info account) AccountInfo_default st Hi Ht Hon Hob Hoc) as (? & ? & ? & Hf).
    constructor; [done..| | |].
    + intros k l. cbn. subst st. rewrite lookup_update_reads. case_decide; [|apply (at_slots _ _ _ _ Ht)].
      intros [= <-]. destruct (ab_storage ab !! k) as [l|] eqn:Ek; [by apply (at_slots _ _ _ _ Ht k)|].
      repeat constructor.
    + intros j. rewrite <- Hf, Hgone. by destruct (i <? j).
    + intros j k. replace (slot_before (mkAccountBal _ st) w0 k j) with (slot_before ab w0 k j).
      * rewrite <- (at_storage _ _ _ _ Ht), Hgone. destruct (Z.ltb_spec i j); [|done].
        by rewrite (Hw j), Hz.
      * unfold slot_before. cbn [ab_storage]. subst st. rewrite lookup_update_reads. by case_decide.
  - set (st := StorageBal_update _ _ _).
    destruct (account_info_update w0 i ab h (original_info account) (info account) st Hi Ht Hon Hob Hoc) as (? & ? & ? & Hf).
    assert (Hslot : forall k e, storage account !! k = Some e ->
      let l' := update_with_key (default [] (ab_storage ab !! k)) i (original_value e) (present_value e) id in
      writes_ok i l' /\ forall j, (if i <? j then present_value e else w_storage (h j) k)
        = field_before id l' (w_storage w0 k) j).
    { intros k e He. apply (field_update id _ i (w_storage w0 k) _ _ (fun j => w_storage (h j) k)); [done|..].
      - destruct (ab_storage ab !! k) as [l|] eqn:Ek; [by apply (at_slots _ _ _ _ Ht k)|]. repeat constructor.
      - intros j. apply (at_storage _ _ _ _ Ht).
      - rewrite (bc_slot _ _ _ Hok k e He). apply (bc_changed_slot _ _ _ Hok k e He). }
    constructor; [done..| | |].
    + intros k l. cbn [ab_storage]. subst st. unfold StorageBal_update. rewrite lookup_merge_entries.
      destruct (storage account !! k) as [e|] eqn:Ek; [|apply (at_slots _ _ _ _ Ht)].
      intros [= <-]. by apply (Hslot k e Ek).
    + intros j. rewrite <- Hf. destruct (i <? j); [|done]. by apply (commit_fields (h i)).
    + intros j k. unfold slot_before. cbn [ab_storage]. subst st. unfold StorageBal_update. rewrite lookup_merge_entries.
      destruct (Z.ltb_spec i j).
      * rewrite (commit_storage (h i)) by done. destruct (storage account !! k) as [e|] eqn:Ek.
        -- destruct (Hslot k e Ek) as [_ Hj]. specialize (Hj j).
           destruct (Z.ltb_spec i j); [|lia]. exact Hj.
        -- rewrite <- (Hw j) by done. apply (at_storage _ _ _ _ Ht).
      * destruct (storage account !! k) as [e|] eqn:Ek; [|apply (at_storage _ _ _ _ Ht)].
        destruct (Hslot k e Ek) as [_ Hj]. specialize (Hj j). destruct (Z.ltb_spec i j); [lia|]. exact Hj.
Qed.
End Accounts.

(** * Index maps *)

Section IndexMapLaws.
Context {T : Type}.
Implicit Types m : list (Z * T).

Lemma index_map_get_entry f key m k :
  index_map_get (index_map_entry f key m) k
  = if decide (k = key) then Some (f (index_map_get m key)) else index_map_get m k.
Proof.
  unfold index_map_get. induction m as [|[k0 v] m IH]; cbn.
  - destruct (Z.eqb_spec k key), (decide (k = key)); done.
  - destruct (Z.eqb_spec key k0) as [->|Hne]; cbn.
    + destruct (Z.eqb_spec k k0) as [->|]; [by rewrite decide_True|]. by rewrite decide_False.
    + destruct (Z.eqb_spec k k0) as [->|Hne'].
      * rewrite decide_False by congruence. done.
      * destruct (index_map_get_full (index_map_entry f key m) k) as [[]|], (index_map_get_full m k) as [[]|],
          (index_map_get_full m key) as [[]|]; cbn in *; exact IH.
Qed.

(** [get_full] gives a position that [get_index] maps back. *)
Lemma index_map_get_full_lookup m key i v :
  index_map_get_full m key = Some (i, v) -> m !! i = Some (key, v).
Proof.
  revert i. induction m as [|[k0 v0] m IH]; intros i; [done|]. cbn.
  destruct (Z.eqb_spec key k0) as [->|Hne]; [by intros [= <- <-]|].
  destruct (index_map_get_full m key) as [[i' v']|]; [|done]. intros [= <- <-]. by apply IH.
Qed.

(** Entries updated one after the other, each key once. *)
Lemma index_map_get_entries {A : Type} (g : A -> option T -> T) (l : list (Z * A)) : forall m k,
  NoDup l.*1 ->
  index_map_get (fold_left (fun m '(key, x) => index_map_entry (g x) key m) l m) k
  = match (list_to_map l : gmap Z A) !! k with
    | Some x => Some (g x (index_map_get m k))
    | None => index_map_get m k
    end.
Proof.
  induction l as [|[key x] l IH]; intros m k Hnd; [done|]. apply NoDup_cons in Hnd as [Hni Hnd].
  cbn [fold_left]. rewrite IH, list_to_map_cons, index_map_get_entry by done.
  destruct (decide (k = key)) as [->|Hne].
  - by rewrite lookup_insert_eq, not_elem_of_list_to_map_1.
  - by rewrite lookup_insert_ne.
Qed.
End IndexMapLaws.

Lemma bal_accounts_entries {A : Type} (g : A -> option AccountBal -> AccountBal) (l : list (Z * A)) : forall b,
  bal_accounts (fold_left (fun self '(key, x) => mkBal (index_map_entry (g x) key (bal_accounts self))) l b)
  = fold_left (fun m '(key, x) => index_map_entry (g x) key m) l (bal_accounts b).
Proof. induction l as [|[key x] l IH]; intros b; [done|]. cbn [fold_left]. apply IH. Qed.

(** * Building a list *)

Definition bal_get (b : Bal) (a : Z) : AccountBal :=
  default AccountBal_default (index_map_get (bal_accounts b) a).

Section Build.
Context {DB E : Type} `{BitVec, Database DB E, DatabaseCommit DB}.
Implicit Types (W : Z -> AccountWorld) (changes : gmap Z Account).

Lemma bal_get_commit i b changes a :
  bal_get (commit_to_builder i b changes) a
  = match changes !! a with
    | Some account => AccountBal_update (bal_get b a) i account
    | None => bal_get b a
    end.
Proof.
  unfold bal_get, commit_to_builder, Bal_update_account.
  rewrite (bal_accounts_entries (fun account bal_account =>
    AccountBal_update (default AccountBal_default bal_account) i account)).
  rewrite index_map_get_entries by apply NoDup_fst_map_to_list.
  rewrite list_to_map_to_list. by destruct (changes !! a).
Qed.

(** ** Executing a block in order *)

Inductive bal_op : Type :=
| BalCommit (changes : gmap Z Account)
| BalBump.

Definition exec_bal_op (self : BalDatabase DB) (op : bal_op) : option (BalDatabase DB) :=
  match op with
  | BalCommit changes => db_commit self changes
  | BalBump => Some (bump_bal_index self)
  end.
Fixpoint bal_run (ops : list bal_op) (self : BalDatabase DB) : option (BalDatabase DB) :=
  match ops with
  | [] => Some self
  | op :: ops => let? self := exec_bal_op self op in bal_run ops self
  end.

(** The world before the index [j] of a block that goes on from the world [W] at
    the index [i]. *)
Fixpoint world_before (ops : list bal_op) (i : Z) W (j : Z) : Z -> AccountWorld :=
  match ops with
  | [] => W
  | BalCommit changes :: ops =>
      if i <? j then world_before ops i (commit_world true W changes) j else W
  | BalBump :: ops => world_before ops (i + 1) W j
  end.

(** Every commit is the output of an execution on the present world [W]; [S] is
    the world the present index started from. *)
Fixpoint ops_valid (ops : list bal_op) (S W : Z -> AccountWorld) : Prop :=
  match ops with
  | [] => True
  | BalCommit changes :: ops =>
      (forall a account, changes !! a = Some account -> bal_commit_ok (S a) (W a) account) /\
      ops_valid ops S (commit_world true W changes)
  | BalBump :: ops => ops_valid ops W W
  end.

Lemma world_before_le ops : forall i W j, j <= i -> world_before ops i W j = W.
Proof.
  induction ops as [|[changes|] ops IH]; intros i W j Hj; cbn; [done| |].
  - by destruct (Z.ltb_spec i j); [lia|].
  - apply IH. lia.
Qed.

Lemma commit_account_normal s w account :
  world_normal w -> bal_commit_ok s w account -> world_normal (commit_account true w account).
Proof.
  intros Hn Hok. destruct (Account_is_touched account) eqn:Et.
  - apply (v_normal _ _ _ (bc_valid _ _ _ Hok Et)).
  - unfold commit_account. by rewrite Et.
Qed.

Definition builder_tracks W (i : Z) (b : Bal) (h : Z -> Z -> AccountWorld) : Prop :=
  forall a, account_tracks (W a) i (bal_get b a) (fun j => h j a).

Lemma account_tracks_ext w0 i ab h h' :
  (forall j, h j = h' j) -> account_tracks w0 i ab h -> account_tracks w0 i ab h'.
Proof. intros He []. constructor; auto; intros; by rewrite <- He. Qed.

Lemma writes_ok_le {T : Type} (l : list (Z * T)) i i' : i <= i' -> writes_ok i l -> writes_ok i' l.
Proof. intros Hi [? ?]. split; [done|]. by eapply written_by_le. Qed.

Lemma account_tracks_le w0 i i' ab h :
  i <= i' -> account_tracks w0 i ab h -> account_tracks w0 i' ab h.
Proof.
  intros Hi []. constructor; eauto using writes_ok_le.
Qed.

Lemma builder_tracks_new W i : builder_tracks W i Bal_new (fun _ => W).
Proof.
  intros a. constructor; [repeat constructor..| |intros j|done].
  - intros k l. cbn. by rewrite lookup_empty.
  - unfold fields_before. by destruct (fields (w_info (W a))) as [[]].
Qed.

Lemma builder_tracks_commit W0 i b h W changes :
  0 <= i -> builder_tracks W0 i b h -> (forall j, i < j -> h j = W) -> (forall a, world_normal (W a)) ->
  (forall a account, changes !! a = Some account -> bal_commit_ok (h i a) (W a) account) ->
  builder_tracks W0 i (commit_to_builder i b changes)
    (fun j => if i <? j then commit_world true W changes else h j).
Proof.
  intros Hi Ht Hh Hn Hok a. rewrite bal_get_commit.
  destruct (changes !! a) as [account|] eqn:Ea.
  - eapply account_tracks_ext; [|apply (account_update_tracks _ _ _ _ (W a) account Hi (Ht a))].
    + intros j. cbn. destruct (i <? j); [|done]. unfold commit_world. by rewrite Ea.
    + intros j Hj. by rewrite Hh.
    + apply Hn.
    + by apply Hok.
  - eapply account_tracks_ext; [|apply Ht]. intros j. cbn. destruct (Z.ltb_spec i j); [|done].
    unfold commit_world. by rewrite Ea, Hh.
Qed.

Lemma bal_run_tracks W0 ops : forall self self' b h W,
  bal_run ops self = Some self' -> bd_bal_builder self = Some b ->
  builder_tracks W0 (bd_bal_index self) b h ->
  (forall j, bd_bal_index self < j -> h j = W) -> (forall a, world_normal (W a)) ->
  0 <= bd_bal_index self -> bd_bal_index self + Z.of_nat (length ops) < modulus 64 ->
  ops_valid ops (h (bd_bal_index self)) W ->
  exists b' h', bd_bal_builder self' = Some b' /\ builder_tracks W0 (bd_bal_index self') b' h' /\
    forall j, h' j = if bd_bal_index self <? j then world_before ops (bd_bal_index self) W j else h j.
Proof.
  induction ops as [|[changes|] ops IH]; intros self self' b h W Hrun Hb Ht Hh Hn Hi Hlen Hv; cbn in Hrun.
  - injection Hrun as <-. exists b, h. split_and!; [done..|]. intros j.
    destruct (Z.ltb_spec (bd_bal_index self) j); [|done]. by apply Hh.
  - destruct Hv as [Hok Hv]. cbn [length] in Hlen. unfold db_commit at 1, BalDatabase_commit at 1 in Hrun.
    rewrite Hb in Hrun. cbn [fmap option_fmap option_map] in Hrun.
    destruct (db_commit (bd_db self) changes) as [db|]; [|done].
    pose proof (builder_tracks_commit _ _ _ _ W changes Hi Ht Hh Hn Hok) as Ht'.
    destruct (IH _ _ _ _ (commit_world true W changes) Hrun eq_refl Ht') as (b' & h' & ? & ? & Hh'); cbn [bd_bal_index].
    + intros j Hj. by destruct (Z.ltb_spec (bd_bal_index self) j); [|lia].
    + intros a. unfold commit_world. destruct (changes !! a) as [account|] eqn:Ea; [|done].
      by eapply commit_account_normal, Hok.
    + done.
    + lia.
    + by rewrite Z.ltb_irrefl.
    + exists b', h'. split_and!; [done..|]. intros j. rewrite Hh'. cbn [bd_bal_index world_before].
      by destruct (bd_bal_index self <? j).
  - cbn [length] in Hlen. assert (Hw : wrapping_add 64 (bd_bal_index self) 1 = bd_bal_index self + 1).
    { apply wrap_small. unfold in_range. lia. }
    destruct (IH (bump_bal_index self) self' b h W Hrun Hb) as (b' & h' & ? & ? & Hh');
      unfold bump_bal_index in *; cbn [bd_bal_index] in *; rewrite ?Hw in *.
    + intros a. eapply account_tracks_le; [|apply Ht]. lia.
    + intros j Hj. apply Hh. lia.
    + done.
    + lia.
    + lia.
    + rewrite Hh by lia. exact Hv.
    + exists b', h'. split_and!; [done..|]. intros j. rewrite Hh'. cbn [world_before].
      destruct (Z.ltb_spec (bd_bal_index self + 1) j), (Z.ltb_spec (bd_bal_index self) j); try lia; [done| |done].
      by rewrite world_before_le, Hh by lia.
Qed.
Lemma bal_run_history W0 ops (db : DB) built bal :
  (forall a, world_normal (W0 a)) -> ops_valid ops W0 W0 -> Z.of_nat (length ops) < modulus 64 ->
  bal_run ops (with_bal_builder (BalDatabase_new db)) = Some built ->
  bd_bal_builder built = Some bal ->
  exists h, builder_tracks W0 (bd_bal_index built) bal h /\ forall j, h j = world_before ops 0 W0 j.
Proof.
  intros Hn Hv Hlen Hrun Hb.
  destruct (bal_run_tracks W0 ops _ _ _ _ W0 Hrun eq_refl (builder_tracks_new W0 0)) as (b' & h & Hb' & Ht & Hh);
    try done.
  rewrite Hb in Hb'. injection Hb' as <-. exists h. split; [done|]. intros j.
  rewrite Hh. cbn [with_bal_builder BalDatabase_new bd_bal_index]. destruct (Z.ltb_spec 0 j); [done|].
  by rewrite world_before_le by lia.
Qed.
End Build.

(** * Reading through a list *)

Section Read.
Context {DB E : Type} `{BitVec, Database DB E}.
Implicit Types (W : Z -> AccountWorld) (base : DB).

(** The answers of a database, where it gives one, are those of [W]. *)
Definition bal_db_models W base : Prop :=
  (forall a i, (db_basic base a).1 = Ok i ->
     fields i = fields (w_info (W a)) /\ forall x, i = Some x -> storage_id x = None) /\
  (forall a k v, (db_storage base a k).1 = Ok v -> v = w_storage (W a) k).

(** Empty accounts are not distinguished from those that do not exist. *)
Definition visible (i : option AccountInfo) : option AccountInfo :=
  match i with Some x => if AccountInfo_is_empty x then None else Some x | None => None end.

Lemma visible_default i : visible i = visible (Some (default AccountInfo_default i)).
Proof. by destruct i. Qed.

Lemma visible_fields i i' : fields i = fields i' -> info_equiv (visible i) (visible i').
Proof.
  intros Hf. rewrite (visible_default i), (visible_default i'). unfold fields in Hf.
  set (x := default _ i) in *. set (y := default _ i') in *. injection Hf as Hn Hb Hc.
  assert (He : AccountInfo_is_empty x = AccountInfo_is_empty y).
  { unfold AccountInfo_is_empty, AccountInfo_is_empty_code_hash. by rewrite Hn, Hb, Hc. }
  unfold visible. rewrite He. destruct (AccountInfo_is_empty y); [done|].
  by apply AccountInfo_eq_spec.
Qed.

Lemma populate_fields w0 i ab h j acct :
  account_tracks w0 i ab h -> fields (Some acct) = fields (w_info w0) ->
  let r := AccountBal_populate_account_info ab j acct in
  fields (Some r.2) = fields (w_info (h j)) /\ storage_id r.2 = storage_id acct /\
  (r.1 = false -> r.2 = acct).
Proof.
  intros Ht Hf. rewrite (at_fields _ _ _ _ Ht). unfold fields_before. rewrite <- Hf.
  unfold fields, field_before, AccountBal_populate_account_info, AccountInfoBal_populate_account_info; cbn [default].
  destruct (at_nonce _ _ _ _ Ht) as [Hn _], (at_balance _ _ _ _ Ht) as [Hb _], (at_code _ _ _ _ Ht) as [Hc _].
  rewrite (BalWrites_get_aux _ j Hn), (BalWrites_get_aux _ j Hb), (BalWrites_get_aux _ j Hc).
  by destruct (value_before (aib_nonce _) j), (value_before (aib_balance _) j), (value_before (aib_code _) j).
Qed.

(** What the list makes of an info read from the database. *)
Lemma bal_populate_fields W0 i b h j a acct :
  builder_tracks W0 i b h -> fields (Some acct) = fields (w_info (W0 a)) ->
  exists changed acct', Bal_populate_account_info b a j acct = (Ok changed, acct') /\
    fields (Some acct') = fields (w_info (h j a)) /\
    (changed = false -> fields (Some acct') = fields (Some acct)) /\
    storage_id acct' = match index_map_get_full (bal_accounts b) a with
                       | Some (id, _) => Some id
                       | None => storage_id acct
                       end.
Proof.
  intros Ht Hf. specialize (Ht a). unfold Bal_populate_account_info, bal_get, index_map_get in *.
  destruct (index_map_get_full (bal_accounts b) a) as [[id ab]|]; cbn in Ht.
  - destruct (populate_fields _ _ _ _ j (assign_storage_id (Some id) acct) Ht Hf) as (Hr & Hid & Hch).
    destruct (AccountBal_populate_account_info ab j _) as [changed acct']. cbn in Hr, Hid, Hch.
    exists changed, acct'. split_and!; [done..| |by rewrite Hid]. intros Hc. by rewrite (Hch Hc).
  - exists false, acct. split_and!; [done| |done..]. destruct (populate_fields _ _ _ _ j acct Ht Hf) as (Hr & _ & Hch).
    by rewrite <- Hr, (Hch eq_refl).
Qed.

Lemma bal_basic_correct W0 i b h base bi j ch a x :
  builder_tracks W0 i b h -> bal_db_models W0 base -> (db_basic base a).1 = Ok x ->
  exists r, (BalDatabase_basic (mkBalDatabase (Some b) bi j base ch) a).1 = Ok r /\
    info_equiv r (visible (w_info (h j a))) /\
    forall y, r = Some y ->
      storage_id y = (fst <$> index_map_get_full (bal_accounts b) a).
Proof.
  intros Ht [Hdb _] Hx. destruct (Hdb a x Hx) as [Hf Hid]. unfold BalDatabase_basic. cbn [bd_db bd_bal bd_bal_index].
  destruct (db_basic base a) as [res db]. cbn in Hx. subst res. cbn [with_bd_db bd_bal bd_bal_index].
  destruct (bal_populate_fields W0 i b h j a (default AccountInfo_default x) Ht) as (changed & acct' & Hp & Hr & Hch & Hsid);
    [by destruct x|].
  assert (Hsid' : storage_id acct' = (fst <$> index_map_get_full (bal_accounts b) a)).
  { rewrite Hsid. destruct (index_map_get_full _ a) as [[]|]; [done|]. destruct x as [y|]; [by apply Hid|done]. }
  assert (Hv : info_equiv (visible (Some acct')) (visible (w_info (h j a)))) by (by apply visible_fields).
  assert (Hsome : forall y, visible (Some acct') = Some y -> storage_id y = fst <$> index_map_get_full (bal_accounts b) a).
  { intros y. cbn. destruct (AccountInfo_is_empty acct'); [done|]. by intros [= <-]. }
  destruct x as [y|]; cbn [default id] in Hp; rewrite Hp; [by eexists|]. destruct changed; [by eexists|].
  exists None. split_and!; [done| |done]. etrans; [|exact Hv]. symmetry.
  etrans; [apply (visible_fields _ (Some AccountInfo_default)); by apply Hch|done].
Qed.

Lemma populate_slot_correct w0 i ab h j k :
  account_tracks w0 i ab h -> populate_slot ab j k (w_storage w0 k) = (Ok (), w_storage (h j) k).
Proof.
  intros Ht. rewrite (at_storage _ _ _ _ Ht). unfold populate_slot, StorageBal_get, slot_before, field_before.
  destruct (ab_storage ab !! k) as [l|] eqn:Ek; [|done]. change (default [] (Some l)) with l.
  destruct (at_slots _ _ _ _ Ht k l Ek) as [Ha _]. rewrite (BalWrites_get_aux l j Ha).
  by destruct (value_before l j).
Qed.

Lemma bal_storage_correct W0 i b h base bi j ch a k v :
  builder_tracks W0 i b h -> bal_db_models W0 base -> (db_storage base a k).1 = Ok v ->
  (BalDatabase_storage (mkBalDatabase (Some b) bi j base ch) a k).1 = Ok (w_storage (h j a) k).
Proof.
  intros Ht [_ Hdb] Hv. rewrite (Hdb _ _ _ Hv) in Hv. unfold BalDatabase_storage. cbn [bd_db bd_bal bd_bal_index].
  destruct (db_storage base a k) as [res db]. cbn in Hv. subst res. cbn [with_bd_db bd_bal bd_bal_index].
  specialize (Ht a). unfold Bal_populate_storage_slot, bal_get in *.
  destruct (index_map_get (bal_accounts b) a) as [ab|]; cbn in Ht.
  - by rewrite (populate_slot_correct _ _ _ _ j k Ht).
  - rewrite (at_storage _ _ _ _ Ht). unfold slot_before. cbn. by rewrite lookup_empty.
Qed.

Lemma bal_storage_by_id_correct W0 i b h base bi j ch a id k v :
  builder_tracks W0 i b h -> bal_db_models W0 base -> (db_storage base a k).1 = Ok v ->
  (fst <$> index_map_get_full (bal_accounts b) a) = Some id ->
  (BalDatabase_storage_by_account_id (mkBalDatabase (Some b) bi j base ch) a id k).1
  = Ok (w_storage (h j a) k).
Proof.
  intros Ht [_ Hdb] Hv Hid. rewrite (Hdb _ _ _ Hv) in Hv. unfold BalDatabase_storage_by_account_id.
  cbn [bd_db bd_bal bd_bal_index].
  destruct (db_storage base a k) as [res db]. cbn in Hv. subst res. cbn [with_bd_db bd_bal bd_bal_index].
  specialize (Ht a). unfold bal_get, index_map_get, Bal_populate_storage_slot_by_account_id in *.
  destruct (index_map_get_full (bal_accounts b) a) as [[id' ab]|] eqn:Eg; [|done]. cbn in Hid, Ht.
  injection Hid as ->. rewrite (index_map_get_full_lookup _ _ _ _ Eg).
  by rewrite (populate_slot_correct _ _ _ _ j k Ht).
Qed.

(** [self] answers every read that [base] can answer with the world [W]: infos
    (empty accounts as absent), slots by address, and slots by the account id
    that the info carries. *)
Definition answers_with base (self : BalDatabase DB) W : Prop :=
  (forall a x, (db_basic base a).1 = Ok x ->
     exists r, (db_basic self a).1 = Ok r /\ info_equiv r (visible (w_info (W a)))) /\
  (forall a k v, (db_storage base a k).1 = Ok v -> (db_storage self a k).1 = Ok (w_storage (W a) k)) /\
  (forall a k v x r id, (db_storage base a k).1 = Ok v -> (db_basic base a).1 = Ok x ->
     (db_basic self a).1 = Ok (Some r) -> storage_id r = Some id ->
     (BalDatabase_storage_by_account_id self a id k).1 = Ok (w_storage (W a) k)).

Lemma tracked_answers W0 i b h base j :
  builder_tracks W0 i b h -> bal_db_models W0 base ->
  answers_with base (mkBalDatabase (Some b) None j base ∅) (h j).
Proof.
  intros Ht Hbase. split_and!.
  - intros a x Hx. destruct (bal_basic_correct _ _ _ _ base None j ∅ a x Ht Hbase Hx) as (r & ? & ? & _). eauto.
  - intros a k v. by eapply bal_storage_correct.
  - intros a k v x r id Hs Hx Hr Hid.
    destruct (bal_basic_correct _ _ _ _ base None j ∅ a x Ht Hbase Hx) as (r' & Hr' & _ & Hsid).
    change (db_basic ?s a) with (BalDatabase_basic s a) in Hr. rewrite Hr in Hr'. injection Hr' as <-.
    eapply bal_storage_by_id_correct; [done..|]. by rewrite <- (Hsid r eq_refl).
Qed.
End Read.

Section Replay.
Context {DB E DB' E' : Type} `{BitVec, Database DB E, DatabaseCommit DB, !Database DB' E'}.

(** C4: replaying a block from its access list.  A block is executed in order by
    [BalDatabase::commit] and [bump_bal_index] from the state [W0], each commit
    being the output of an execution on the state then; [bal] is the list the
    builder ends with.  Then a [BalDatabase] with that list and the index [j],
    over a database that still holds [W0], answers every read that the database can
    answer with the state the block had before its index [j].

    Conditions.  The world [W0] is normal (a missing account, or one without code and
    nonce, has no storage, an empty one has the default info).  Every commit
    ([bal_commit_ok]) is the output of an execution on the world then: the original
    info and slots are those of the world, contracts are created only where there was no
    code, nonce or storage, an account left touched and empty was empty before, code
    and nonce go away only by destruction ([commit_valid]), no code hash is zero, an
    account that is not touched is not changed, and only a contract that the same
    transaction created is destroyed.  An index may have several commits, but a nonce, balance, code or slot
    that one of them changed must be changed again by a later one of that index that
    includes it: the code loses the write when the later one only reads it
    ([same_index_write_lost]).  There are fewer than [2^64] commits and bumps. *)
Theorem bal_replay_correct (W0 : Z -> AccountWorld) ops (db : DB) built bal (base : DB') j :
  (forall a, world_normal (W0 a)) -> ops_valid ops W0 W0 -> Z.of_nat (length ops) < modulus 64 ->
  bal_run ops (with_bal_builder (BalDatabase_new db)) = Some built ->
  bd_bal_builder built = Some bal -> bal_db_models W0 base ->
  answers_with base (mkBalDatabase (Some bal) None j base ∅) (world_before ops 0 W0 j).
Proof.
  intros Hn Hv Hlen Hrun Hb Hbase.
  destruct (bal_run_history W0 ops db built bal Hn Hv Hlen Hrun Hb) as (h & Ht & Hh).
  rewrite <- Hh. by eapply tracked_answers.
Qed.
End Replay.
