(* ===== verification/BalMerge.v ===== *)
(** Putting block access lists together and sending them.

    [merge_bal_with_offset] appends the list of a block to the list of the blocks
    before it, as the batches of [bins/revme/src/cmd/bal_test.rs] do
    ([bal_batch_correct]); [into_alloy_bal] and [try_from] are inverse
    ([bal_alloy_roundtrip]).  [BalExample] shows where the operations lose
    writes. *)
From S2P Require Import Prelude Hardfork Bytecode State Database BundleAccount BundleAccountLaws CacheState CacheAccountLaws StateLaws CacheDB Bal BalLaws.
From stdpp Require Import base numbers list option tactics gmap sorting.
From Stdlib Require Import ZArith Lia.

Local Open Scope Z_scope.

(** * Appending writes *)

Section MergeWrites.
Context {T K : Type} `{EqDecision K} (f : T -> K).
Implicit Types l : list (Z * T).

Lemma value_before_app_list l1 l2 j :
  value_before (l1 ++ l2) j
  = match value_before l2 j with Some v => Some v | None => value_before l1 j end.
Proof.
  induction l2 as [|w l2 IH] using rev_ind; [by rewrite app_nil_r|].
  rewrite app_assoc, !value_before_app, IH. by destruct (w.1 <? j).
Qed.

Definition shift (offset : Z) l : list (Z * T) := (fun w => (w.1 + offset, w.2)) <$> l.

Lemma value_before_shift offset l j : value_before (shift offset l) j = value_before l (j - offset).
Proof.
  induction l as [|w l IH] using rev_ind; [done|]. unfold shift in *.
  rewrite fmap_app. cbn [fmap list_fmap]. rewrite !value_before_app, IH. cbn [fst snd].
  destruct (Z.ltb_spec (w.1 + offset) j), (Z.ltb_spec w.1 (j - offset)); done || lia.
Qed.

Lemma merge_writes_shift i l1 l2 offset :
  0 <= offset -> i + offset < modulus 64 -> written_by l2 i ->
  merge_writes_with_offset l1 l2 offset = l1 ++ shift offset l2.
Proof.
  intros Ho Hi Hw. unfold merge_writes_with_offset, shift. f_equal. apply list_fmap_ext.
  intros k w Hk. pose proof (Forall_lookup_1 _ _ _ _ Hw Hk) as Hb. cbn in Hb.
  unfold wrapping_add. by rewrite (wrap_small 64) by (unfold in_range; lia).
Qed.

Lemma value_before_none i l j : written_by l i -> j <= 0 -> value_before l j = None.
Proof.
  intros Hl Hj. induction l as [|w l IH] using rev_ind; [done|].
  apply Forall_app in Hl as [Hl [Hw _]%Forall_cons]. cbn in Hw. rewrite value_before_app.
  destruct (Z.ltb_spec w.1 j); [lia|]. by apply IH.
Qed.

Lemma field_before_after l i start j k :
  written_by l i -> i < j -> i < k -> field_before f l start j = field_before f l start k.
Proof. intros Hl Hj Hk. unfold field_before. by rewrite (value_before_all l i j), (value_before_all l i k). Qed.

Lemma merge_writes_correct i n l1 l2 offset start :
  writes_ok i l1 -> writes_ok n l2 -> i < offset -> 0 <= offset -> 0 <= n ->
  n + offset < modulus 64 ->
  let l := merge_writes_with_offset l1 l2 offset in
  writes_ok (n + offset) l /\
  forall j, field_before f l start j
    = if j <=? offset then field_before f l1 start j
      else field_before f l2 (field_before f l1 start offset) (j - offset).
Proof.
  intros [Ha1 Hw1] [Ha2 Hw2] Hi Ho Hn Hm. cbn zeta. rewrite (merge_writes_shift n) by done.
  split; [split|].
  - apply StronglySorted_app. split_and!; [|done|].
    + intros x y Hx (z & -> & Hz)%list_elem_of_fmap. unfold written_by in *.
      rewrite Forall_forall in Hw1, Hw2. specialize (Hw1 x Hx). specialize (Hw2 z Hz). cbn in *. lia.
    + clear -Ha2. unfold shift. induction Ha2 as [|w l Hl IH Hw]; [constructor|].
      constructor; [done|]. apply Forall_fmap. eapply Forall_impl; [exact Hw|]. cbn. lia.
  - apply Forall_app. split; [eapply Forall_impl; [exact Hw1|]; cbn; lia|].
    apply Forall_fmap. eapply Forall_impl; [exact Hw2|]. cbn. lia.
  - intros j. unfold field_before. rewrite value_before_app_list, value_before_shift.
    destruct (Z.leb_spec j offset) as [Hj|Hj].
    + by rewrite (value_before_none n l2) by (done || lia).
    + rewrite (value_before_all l1 i j), (value_before_all l1 i offset) by (done || lia).
      by destruct (value_before l2 (j - offset)).
Qed.
End MergeWrites.

(** * Appending lists *)

Section MergeBal.
Context {DB E : Type} `{BitVec, Database DB E, DatabaseCommit DB}.

Lemma account_merge_tracks w0 i n ab1 ab2 h1 h2 offset :
  account_tracks w0 i ab1 h1 -> account_tracks (h1 offset) n ab2 h2 ->
  i < offset -> 0 <= offset -> 0 <= n -> n + offset < modulus 64 ->
  account_tracks w0 (n + offset) (merge_account_bal_with_offset ab1 ab2 offset)
    (fun j => if j <=? offset then h1 j else h2 (j - offset)).
Proof.
  intros T1 T2 Hi Ho Hn Hm.
  destruct (fields (w_info w0)) as [[n0 b0] c0] eqn:E0.
  destruct (merge_writes_correct id i n _ _ offset n0 (at_nonce _ _ _ _ T1) (at_nonce _ _ _ _ T2) Hi Ho Hn Hm) as [? Hno].
  destruct (merge_writes_correct id i n _ _ offset b0 (at_balance _ _ _ _ T1) (at_balance _ _ _ _ T2) Hi Ho Hn Hm) as [? Hba].
  destruct (merge_writes_correct fst i n _ _ offset c0 (at_code _ _ _ _ T1) (at_code _ _ _ _ T2) Hi Ho Hn Hm) as [? Hco].
  assert (Hslot : forall k l1 l2, default [] (ab_storage ab1 !! k) = l1 ->
    default [] (ab_storage ab2 !! k) = l2 -> writes_ok i l1 /\ writes_ok n l2).
  { intros k l1 l2 <- <-. split.
    - destruct (ab_storage ab1 !! k) eqn:Ek; [by apply (at_slots _ _ _ _ T1 k)|repeat constructor].
    - destruct (ab_storage ab2 !! k) eqn:Ek; [by apply (at_slots _ _ _ _ T2 k)|repeat constructor]. }
  constructor; [done..| | |].
  - intros k l. cbn. unfold merge_storage_bal_with_offset. rewrite lookup_merge_entries.
    destruct (ab_storage ab2 !! k) as [l2|] eqn:E2.
    + intros [= <-]. destruct (Hslot k _ l2 eq_refl) as [? ?]; [by rewrite E2|].
      by eapply (merge_writes_correct id i n).
    + intros Hl. eapply writes_ok_le; [|by apply (at_slots _ _ _ _ T1 k)]. lia.
  - intros j. unfold fields_before. rewrite E0. cbn [merge_account_bal_with_offset ab_account_info
      merge_account_info_bal_with_offset aib_nonce aib_balance aib_code]. rewrite Hno, Hba, Hco.
    pose proof (at_fields _ _ _ _ T1) as F1. unfold fields_before in F1. rewrite E0 in F1.
    destruct (j <=? offset); [apply F1|]. rewrite (at_fields _ _ _ _ T2). unfold fields_before. by rewrite F1.
  - intros j k. unfold slot_before. cbn [ab_storage merge_account_bal_with_offset].
    unfold merge_storage_bal_with_offset. rewrite lookup_merge_entries.
    destruct (Hslot k _ _ eq_refl eq_refl) as [Hok1 Hok2].
    pose proof (at_storage _ _ _ _ T1) as S1. pose proof (at_storage _ _ _ _ T2) as S2. unfold slot_before in S1, S2.
    destruct (ab_storage ab2 !! k) as [l2|] eqn:E2; cbn [default] in *.
    + destruct (merge_writes_correct id i n _ l2 offset (w_storage w0 k) Hok1 Hok2 Hi Ho Hn Hm) as [_ Hj].
      change (default [] (Some ?l)) with l. rewrite Hj. destruct (j <=? offset); [apply S1|].
      rewrite S2, E2, S1. done.
    + destruct (Z.leb_spec j offset); [apply S1|]. rewrite S2, E2. cbn. rewrite S1.
      eapply field_before_after; [apply Hok1|lia..].
Qed.

Lemma merge_account_default ab offset : merge_account_bal_with_offset ab AccountBal_default offset = ab.
Proof.
  destruct ab as [[n b c] st]. unfold merge_account_bal_with_offset, merge_account_info_bal_with_offset,
    merge_writes_with_offset.
  cbn [ab_account_info ab_storage aib_nonce aib_balance aib_code AccountBal_default AccountInfoBal_default
    fmap list_fmap]. rewrite !app_nil_r. f_equal. apply map_eq. intros k.
  unfold merge_storage_bal_with_offset. by rewrite lookup_merge_entries, lookup_empty.
Qed.

Lemma index_map_get_list_to_map {T : Type} (m : list (Z * T)) a :
  (list_to_map m : gmap Z T) !! a = index_map_get m a.
Proof.
  unfold index_map_get. induction m as [|[k v] m IH]; [done|].
  rewrite list_to_map_cons. cbn. destruct (Z.eqb_spec a k) as [->|Hne]; [by rewrite lookup_insert_eq|].
  rewrite lookup_insert_ne, IH by done. by destruct (index_map_get_full m a) as [[]|].
Qed.

Lemma bal_get_merge b1 b2 offset a :
  NoDup (bal_accounts b2).*1 ->
  bal_get (merge_bal_with_offset b1 b2 offset) a
  = merge_account_bal_with_offset (bal_get b1 a) (bal_get b2 a) offset.
Proof.
  intros Hnd. unfold bal_get at 1, merge_bal_with_offset.
  rewrite (bal_accounts_entries (fun other_account account =>
    merge_account_bal_with_offset (default AccountBal_default account) other_account offset)).
  rewrite index_map_get_entries, index_map_get_list_to_map by done. unfold bal_get.
  destruct (index_map_get (bal_accounts b2) a) as [ab|]; [done|].
  change (default AccountBal_default None) with AccountBal_default. by rewrite merge_account_default.
Qed.

Lemma builder_merge_tracks W0 i n b1 b2 h1 h2 offset :
  builder_tracks W0 i b1 h1 -> builder_tracks (h1 offset) n b2 h2 -> NoDup (bal_accounts b2).*1 ->
  i < offset -> 0 <= offset -> 0 <= n -> n + offset < modulus 64 ->
  builder_tracks W0 (n + offset) (merge_bal_with_offset b1 b2 offset)
    (fun j => if j <=? offset then h1 j else h2 (j - offset)).
Proof.
  intros T1 T2 Hnd Hi Ho Hn Hm a. rewrite bal_get_merge by done.
  eapply account_tracks_ext; [|by apply (account_merge_tracks _ _ _ _ _ _ _ _ (T1 a) (T2 a))].
  intros j. cbn. by destruct (j <=? offset).
Qed.

(** The accounts of a list are distinct. *)
Lemma index_map_entry_keys {T : Type} (f : option T -> T) key (m : list (Z * T)) :
  (index_map_entry f key m).*1 = if decide (key ∈ m.*1) then m.*1 else m.*1 ++ [key].
Proof.
  induction m as [|[k v] m IH]; [done|]. cbn. destruct (Z.eqb_spec key k) as [->|Hne]; cbn.
  - by rewrite decide_True by set_solver.
  - rewrite IH. by do 2 case_decide; try set_solver.
Qed.

Lemma index_map_entry_NoDup {T : Type} (f : option T -> T) key (m : list (Z * T)) :
  NoDup m.*1 -> NoDup (index_map_entry f key m).*1.
Proof.
  intros Hm. rewrite index_map_entry_keys. case_decide; [done|]. apply NoDup_app.
  split_and!; [done|set_solver|apply NoDup_singleton].
Qed.

Lemma commit_to_builder_NoDup i b changes :
  NoDup (bal_accounts b).*1 -> NoDup (bal_accounts (commit_to_builder i b changes)).*1.
Proof.
  unfold commit_to_builder. generalize (map_to_list changes). intros l. revert b.
  induction l as [|[a account] l IH]; intros b Hb; [done|]. cbn [fold_left]. apply IH.
  by apply index_map_entry_NoDup.
Qed.

Lemma bal_run_NoDup ops : forall (self self' : BalDatabase DB) b,
  bal_run ops self = Some self' -> bd_bal_builder self = Some b -> NoDup (bal_accounts b).*1 ->
  exists b', bd_bal_builder self' = Some b' /\ NoDup (bal_accounts b').*1.
Proof.
  induction ops as [|[changes|] ops IH]; intros self self' b Hrun Hb Hnd; cbn in Hrun.
  - injection Hrun as <-. by exists b.
  - unfold db_commit at 1, BalDatabase_commit at 1 in Hrun. rewrite Hb in Hrun.
    cbn [fmap option_fmap option_map] in Hrun. destruct (db_commit (bd_db self) changes); [|done].
    eapply IH; [exact Hrun|done|]. by apply commit_to_builder_NoDup.
  - by eapply IH.
Qed.

Lemma bal_run_index ops : forall (self self' : BalDatabase DB),
  bal_run ops self = Some self' -> 0 <= bd_bal_index self ->
  bd_bal_index self + Z.of_nat (length ops) < modulus 64 ->
  bd_bal_index self <= bd_bal_index self' <= bd_bal_index self + Z.of_nat (length ops).
Proof.
  induction ops as [|[changes|] ops IH]; intros self self' Hrun Hi Hl; cbn in Hrun; cbn [length] in *.
  - injection Hrun as <-. lia.
  - unfold db_commit at 1, BalDatabase_commit at 1 in Hrun. destruct (db_commit (bd_db self) changes); [|done].
    apply IH in Hrun; cbn [bd_bal_index] in *; lia.
  - assert (Hw : wrapping_add 64 (bd_bal_index self) 1 = bd_bal_index self + 1).
    { apply wrap_small. unfold in_range. lia. }
    apply IH in Hrun; cbn [bump_bal_index bd_bal_index] in *; lia.
Qed.

Lemma world_before_normal ops : forall i S W j,
  (forall a, world_normal (W a)) -> ops_valid ops S W -> forall a, world_normal (world_before ops i W j a).
Proof.
  induction ops as [|[changes|] ops IH]; intros i S W j Hn Hv; cbn in *; [done| |by eapply IH].
  destruct Hv as [Hok Hv]. destruct (i <? j); [|done]. eapply IH; [|exact Hv]. intros a. unfold commit_world.
  destruct (changes !! a) as [account|] eqn:Ea; [|done]. by eapply commit_account_normal, Hok.
Qed.
End MergeBal.

Section Batch.
Context {DB E DB' E' : Type} `{BitVec, Database DB E, DatabaseCommit DB, !Database DB' E'}.

(** C16: replaying a batch of blocks.  [bal1] is the list of a block executed from
    the state [W0] and [bal2] the list of a block executed from the state the
    first one leads to, both by valid commits as below.  When [offset] is after
    every index of the first block, [merge_bal_with_offset] makes one list for both: up to [offset] it answers as
    the first block did, and at [offset + j] with the state the second block had
    before its index [j].

    Conditions.  The world [W0] is normal (a missing account, or one without code and
    nonce, has no storage, an empty one has the default info).  Every commit
    ([bal_commit_ok]) is the output of an execution on the world then: the original
    info and slots are those of the world, contracts are created only where there was no
    code, nonce or storage, an account left touched and empty was empty before, code
    and nonce go away only by destruction ([commit_valid]), no code hash is zero, an
    account that is not touched is not changed, and only a contract that the same
    transaction created is destroyed.  An index may have several commits, but a nonce, balance, code or slot
    that one of them changed must be changed again by a later one of that index that
    includes it: the code loses the write when the later one only reads it
    ([same_index_write_lost]).  There are fewer than [2^64] commits and bumps in each
    block, and the indices of the second one, moved by [offset], stay below [2^64]. *)
Theorem bal_batch_correct (W0 : Z -> AccountWorld) ops1 ops2 (db1 db2 : DB) built1 built2 bal1 bal2
    (base : DB') offset j :
  (forall a, world_normal (W0 a)) -> ops_valid ops1 W0 W0 ->
  let W1 := world_before ops1 0 W0 offset in
  ops_valid ops2 W1 W1 ->
  bal_run ops1 (with_bal_builder (BalDatabase_new db1)) = Some built1 ->
  bd_bal_builder built1 = Some bal1 ->
  bal_run ops2 (with_bal_builder (BalDatabase_new db2)) = Some built2 ->
  bd_bal_builder built2 = Some bal2 ->
  Z.of_nat (length ops1) < modulus 64 -> Z.of_nat (length ops2) + offset < modulus 64 ->
  bd_bal_index built1 < offset -> bal_db_models W0 base ->
  answers_with base (mkBalDatabase (Some (merge_bal_with_offset bal1 bal2 offset)) None j base ∅)
    (if j <=? offset then world_before ops1 0 W0 j else world_before ops2 0 W1 (j - offset)).
Proof.
  intros Hn Hv1 W1 Hv2 Hr1 Hb1 Hr2 Hb2 Hl1 Hl2 Hoff Hbase.
  pose proof (bal_run_index _ _ _ Hr1) as Hi1. pose proof (bal_run_index _ _ _ Hr2) as Hi2.
  cbn [with_bal_builder BalDatabase_new bd_bal_index] in Hi1, Hi2.
  assert (Hp1 : 0 <= bd_bal_index built1) by lia. assert (Hp2 : 0 <= bd_bal_index built2 <= Z.of_nat (length ops2)) by lia.
  clear Hi1 Hi2.
  destruct (bal_run_history W0 ops1 db1 built1 bal1 Hn Hv1 Hl1 Hr1 Hb1) as (h1 & Ht1 & Hh1).
  destruct (bal_run_history W1 ops2 db2 built2 bal2) as (h2 & Ht2 & Hh2); [|done|lia|done|done|].
  { intros a. by eapply world_before_normal. }
  destruct (bal_run_NoDup ops2 _ _ _ Hr2 eq_refl) as (b0 & Hb0 & Hnd); [constructor|].
  rewrite Hb2 in Hb0. injection Hb0 as <-. subst W1. rewrite <- Hh1 in Ht2.
  pose proof (builder_merge_tracks W0 _ _ bal1 bal2 h1 h2 offset Ht1 Ht2 Hnd) as Ht.
  rewrite <- Hh1, <- Hh2. eapply (tracked_answers W0 _ _ _ base j) in Ht; [exact Ht|..].
  all: done || lia.
Qed.
End Batch.

(** * The wire format *)

Section Alloy.
Context `{BitVecLaws, Keccak}.

(** A code a list can hold: a decoded byte string with its hash. *)
Definition code_write_ok (w : Z * (Z * Bytecode)) : Prop :=
  w.2.1 = Bytecode_hash_slow w.2.2 /\
  exists raw, Forall u8 raw /\ Bytecode_new_raw_checked raw = Some (Ok w.2.2).
Definition bal_codes_ok (b : Bal) : Prop :=
  forall a ab, (a, ab) ∈ bal_accounts b -> Forall code_write_ok (aib_code (ab_account_info ab)).

(** Decoding the bytes of a decoded code gives it back. *)
Lemma new_raw_checked_original raw c :
  Forall u8 raw -> Bytecode_new_raw_checked raw = Some (Ok c) ->
  Bytecode_new_raw_checked (Bytecode_original_bytes c) = Some (Ok c).
Proof.
  intros Hu Hc. assert (Hraw : Bytecode_original_bytes c = raw); [|by rewrite Hraw].
  unfold Bytecode_new_raw_checked in Hc. destruct (_ && _).
  - unfold Eip7702Bytecode_new_raw in Hc. repeat case_match; simplify_eq; done.
  - destruct (Bytecode_new_legacy_original_bytes raw Hu) as (b & Hb & Ho & _). rewrite Hb in Hc.
    by simplify_eq.
Qed.

Lemma code_writes_roundtrip l :
  Forall code_write_ok l ->
  code_writes_from_alloy ((fun w => (w.1, Bytecode_original_bytes w.2.2)) <$> l) = Some (Ok l).
Proof.
  unfold code_writes_from_alloy. induction 1 as [|[i [h c]] l [Hh (raw & Hu & Hc)] Hl IH]; [done|].
  cbn in *. unfold code_write_from_alloy at 1. cbn [fst snd].
  rewrite (new_raw_checked_original raw c Hu Hc), IH. by subst.
Qed.

Lemma lookup_extend_iter l : forall (m : gmap Z (list (Z * Z))) k,
  NoDup l.*1 ->
  StorageBal_extend_iter m l !! k
  = match (list_to_map l : gmap Z (list (Z * Z))) !! k with Some v => Some v | None => m !! k end.
Proof.
  induction l as [|[k0 v] l IH]; intros m k Hnd; [done|]. apply NoDup_cons in Hnd as [Hni Hnd].
  change (StorageBal_extend_iter m ((k0, v) :: l)) with (StorageBal_extend_iter (<[k0 := v]> m) l).
  rewrite IH, list_to_map_cons by done. destruct (decide (k = k0)) as [->|Hne].
  - by rewrite not_elem_of_list_to_map_1, !lookup_insert_eq.
  - by rewrite !lookup_insert_ne.
Qed.

(** The slots with writes followed by those without are all the slots. *)
Lemma storage_roundtrip (m : gmap Z (list (Z * Z))) :
  StorageBal_from_iter ((fun slot => (asc_slot slot, asc_changes slot)) <$>
    (((fun kv => mkAlloySlotChanges kv.1 kv.2) <$> filter (fun kv => kv.2 <> []) (btree_iter m))
     ++ ((fun key => mkAlloySlotChanges key []) <$> (filter (fun kv => kv.2 = []) (btree_iter m)).*1)))
  = m.
Proof.
  set (L := btree_iter m). rewrite fmap_app, <- !list_fmap_compose.
  assert (E1 : (fun kv => (asc_slot (mkAlloySlotChanges kv.1 kv.2), asc_changes (mkAlloySlotChanges kv.1 kv.2)))
    <$> filter (fun kv => kv.2 <> []) L = filter (fun kv => kv.2 <> []) L).
  { rewrite <- (list_fmap_id (filter _ L)) at 2. apply list_fmap_ext. by intros ? [] _. }
  assert (E2 : (fun kv : Z * list (Z * Z) => (kv.1, [] : list (Z * Z))) <$> filter (fun kv => kv.2 = []) L
    = filter (fun kv => kv.2 = []) L).
  { rewrite <- (list_fmap_id (filter _ L)) at 2. apply list_fmap_ext. intros i [k v] Hi.
    apply list_elem_of_lookup_2, list_elem_of_filter in Hi as [Hv _]. cbn in *. by subst. }
  unfold compose. cbn [asc_slot asc_changes] in *. rewrite E1, E2.
  assert (HL : filter (fun kv => kv.2 <> []) L ++ filter (fun kv => kv.2 = []) L ≡ₚ map_to_list m).
  { rewrite (Permutation_app_comm (filter _ L)). rewrite filter_app_complement. apply merge_sort_Permutation. }
  assert (Hnd : NoDup (filter (fun kv => kv.2 <> []) L ++ filter (fun kv => kv.2 = []) L).*1).
  { rewrite HL. apply NoDup_fst_map_to_list. }
  apply map_eq. intros k. unfold StorageBal_from_iter. rewrite lookup_extend_iter by done.
  rewrite (list_to_map_proper _ _ Hnd HL), list_to_map_to_list, lookup_empty. by destruct (m !! k).
Qed.

Lemma account_roundtrip a ab :
  Forall code_write_ok (aib_code (ab_account_info ab)) ->
  try_from_alloy (into_alloy_account ab a) = Some (Ok (a, ab)).
Proof.
  intros Hc. unfold try_from_alloy, into_alloy_account. cbn [aac_code_changes aac_storage_changes aac_storage_reads
    aac_address aac_nonce_changes aac_balance_changes].
  rewrite code_writes_roundtrip, storage_roundtrip by done. by destruct ab as [[] ?].
Qed.

Lemma index_map_entry_new {T : Type} (f : option T -> T) key (m : list (Z * T)) :
  key ∉ m.*1 -> index_map_entry f key m = m ++ [(key, f None)].
Proof.
  induction m as [|[k v] m IH]; [done|]. cbn. intros Hni. destruct (Z.eqb_spec key k) as [->|]; [set_solver|].
  rewrite IH by set_solver. done.
Qed.

Lemma index_map_from_iter_id {T : Type} (m : list (Z * T)) : NoDup m.*1 -> index_map_from_iter m = m.
Proof.
  unfold index_map_from_iter. change m with ([] ++ m) at 1 3. generalize (@nil (Z * T)). 
  induction m as [|[k v] m IH]; intros r Hnd; cbn [fold_left]; [by rewrite app_nil_r|].
  unfold index_map_insert at 2. rewrite index_map_entry_new.
  - rewrite IH; by rewrite <- app_assoc.
  - rewrite fmap_app, NoDup_app in Hnd. destruct Hnd as (_ & Hd & _). intros Hin.
    apply (Hd _ Hin). cbn. set_solver.
Qed.

(** C36: a block access list survives the wire: when its accounts are distinct and
    its codes are decoded byte strings with their hash, converting it to the
    records of [alloy_eip7928] and back gives the same list, with the order of
    the accounts, of the writes and of the read-only slots. *)
Theorem bal_alloy_roundtrip (b : Bal) :
  NoDup (bal_accounts b).*1 -> bal_codes_ok b -> Bal_try_from (into_alloy_bal b) = Some (Ok b).
Proof.
  intros Hnd Hc. unfold Bal_try_from, into_alloy_bal.
  assert (E : collect_results try_from_alloy ((fun a => into_alloy_account a.2 a.1) <$> bal_accounts b)
    = Some (Ok (bal_accounts b))).
  { clear Hnd. unfold bal_codes_ok in Hc. induction (bal_accounts b) as [|[a ab] l IH]; [done|].
    cbn [fmap list_fmap fst snd collect_results]. rewrite account_roundtrip by (apply (Hc a ab); set_solver).
    rewrite IH; [done|]. intros a' ab' Hin. apply (Hc a' ab'). set_solver. }
  rewrite E. unfold Bal_from_iter. rewrite index_map_from_iter_id by done. by destruct b.
Qed.
End Alloy.

(** * Examples *)

Module BalExample.
#[local] Existing Instance Lsb0BitVec.
#[local] Instance const_keccak : Keccak := fun _ => 1.
#[local] Existing Instance EmptyDB_Database.
#[local] Instance EmptyRef : DatabaseRef EmptyDB Empty_set := EmptyDB_DatabaseRef.
#[local] Instance CacheDatabase : Database (CacheDB EmptyDB) Empty_set := CacheDB_Database.

(** An account with one slot, which goes through three values. *)
Definition info_at (n : Z) : AccountInfo := mkAccountInfo n n KECCAK_EMPTY None None.
Definition change (from to v v' : Z) : Account :=
  mkAccount (info_at to) (info_at from) 0 {[5 := mkEvmStorageSlot v v' 0 false]} Touched.

(** Two commits at one index lose a write.  The first commit changes a slot
    from 0 to 7; the second one reads the slot and leaves it at 7.  As the slot
    has one write, at the present index, [update_with_key] compares the value with
    the original value of the second commit instead of the value before the
    index, takes the write for a return to the old value and removes it: a reader
    at the next index gets 0 instead of 7. *)
Theorem same_index_write_lost :
  let bal1 := commit_to_builder 0 Bal_new {[1 := change 0 1 0 7]} in
  let bal2 := commit_to_builder 0 bal1 {[1 := change 1 2 7 7]} in
  Bal_populate_storage_slot bal1 1 1 5 0 = (Ok (), 7) /\
  Bal_populate_storage_slot bal2 1 1 5 0 = (Ok (), 0).
Proof. by vm_compute. Qed.

(** [merge_bal] can break the search.  Merging a list with several writes of a
    value gives them all the same index; from five writes on, the binary search
    for that index ends among them, and [get] answers with a write of the
    transaction itself where the linear search answers with the last one before
    it. *)
Theorem merged_index_search_wrong :
  let writes := merge_writes [(1, 10); (2, 20)] [(0, 30); (1, 31); (2, 32)] 3 in
  get_linear_search writes 3 = Some 20 /\ BalWrites_get writes 3 = Some 31.
Proof. by vm_compute. Qed.

(** A list of one account with a write of its nonce in each of the first [n]
    transactions. *)
Definition nonces (n : nat) : Bal :=
  mkBal [(1, mkAccountBal (mkAccountInfoBal ((fun i => (Z.of_nat i, Z.of_nat i)) <$> seq 0 n) [] []) ∅)].
Definition nonce_writes (b : Bal) : list (Z * Z) := aib_nonce (ab_account_info (bal_get b 1)).

(** [remove_first_last] should remove the writes before the first and after
    the last transaction.  It takes the number of accounts for the number of
    transactions: of a block with five transactions and one account it removes the
    writes of the second transaction and keeps those after the last one. *)
Theorem remove_first_last_wrong :
  nonce_writes (nonces 7) = [(0, 0); (1, 1); (2, 2); (3, 3); (4, 4); (5, 5); (6, 6)] /\
  nonce_writes (Bal_remove_first_last (nonces 7)) = [(1, 1); (3, 3); (4, 4); (5, 5); (6, 6)].
Proof. by vm_compute. Qed.

(** Two blocks of the account 1 over the empty state; the first one has two
    commits at its first index. *)
Definition block1 : list bal_op :=
  [BalCommit {[1 := change 0 1 0 7]}; BalCommit {[1 := change 1 2 7 8]}; BalBump;
   BalCommit {[1 := change 2 3 8 9]}].
Definition block2 : list bal_op := [BalBump; BalCommit {[1 := change 3 4 9 4]}].
Definition empty_state : Z -> AccountWorld := fun _ => gone_world.
Definition run_block (ops : list bal_op) : option (BalDatabase (CacheDB EmptyDB)) :=
  bal_run ops (with_bal_builder (BalDatabase_new (CacheDB_new empty_db))).

Lemma empty_state_normal a : world_normal (empty_state a).
Proof. by constructor. Defined.

Lemma empty_state_models : bal_db_models empty_state empty_db.
Proof. split; [by intros a i [= <-]|by intros a k v [= <-]]. Defined.

Lemma change_normal from to v v' w :
  0 < to -> world_normal (mkAccountWorld (Some (info_at to)) (slot_view w (changed_storage (change from to v v')))).
Proof.
  intros Hto. constructor; cbn; [done| | |]; intros i [= <-]; cbn.
  - unfold AccountInfo_has_no_code_and_nonce. cbn. lia.
  - unfold AccountInfo_is_empty. cbn. lia.
  - lia.
Defined.

(** One change of the account is a valid commit when it starts from the world. *)
Lemma change_ok s w from to v v' :
  0 < to -> from <> to -> v <> v' -> fields (w_info w) = fields (Some (info_at from)) -> w_storage w 5 = v ->
  (fields (w_info s)).2 = KECCAK_EMPTY -> bal_commit_ok s w (change from to v v').
Proof.
  intros Hto Hne Hne' Hf Hv Hc.
  assert (Hs : forall k e, storage (change from to v v') !! k = Some e ->
    original_value e = w_storage w k /\ w_storage w k <> present_value e).
  { intros k e Hk. cbn [storage change] in Hk. apply lookup_singleton_Some in Hk as [<- <-]. by rewrite Hv. }
  assert (He : Account_is_empty (change from to v v') = false).
  { unfold Account_is_empty, AccountInfo_is_empty. cbn. lia. }
  constructor; unfold not_only_read; try done.
  - intros _. constructor; try done.
    + intros k e Hk _. by apply Hs.
    + intros _ _ H. by rewrite He in H.
    + intros i _ _ _ _ _. unfold AccountInfo_has_no_code_and_nonce. cbn. lia.
    + unfold commit_account. rewrite He. by apply change_normal.
  - intros k e Hk. by apply Hs.
  - rewrite Hf. by right.
  - rewrite Hf. by right.
  - rewrite Hf, Hc. by left.
  - intros k e Hk. right. by apply Hs.
Defined.

Lemma single_commit_ok (S W : Z -> AccountWorld) account a acc :
  bal_commit_ok (S 1) (W 1) account ->
  ({[1 := account]} : gmap Z Account) !! a = Some acc -> bal_commit_ok (S a) (W a) acc.
Proof. intros Hok Ha. by apply lookup_singleton_Some in Ha as [<- <-]. Defined.

Lemma block1_valid : ops_valid block1 empty_state empty_state.
Proof. split; [|split; [|split; [|exact I]]]; intros a acc; apply single_commit_ok; by apply change_ok. Defined.

Lemma block2_valid : ops_valid block2 (world_before block1 0 empty_state 3) (world_before block1 0 empty_state 3).
Proof. split; [|exact I]. intros a acc. apply single_commit_ok. by apply change_ok. Defined.

Definition block1_bal : Bal := default Bal_new (run_block block1 ≫= bd_bal_builder).
Definition block2_bal : Bal := default Bal_new (run_block block2 ≫= bd_bal_builder).

Lemma BalWrites_get_correct_witness :
  let writes := [(1, 10); (2, 20); (3, 30); (5, 50); (8, 80)] in
  (BalWrites_get writes 5 = value_before writes 5 /\ get_linear_search writes 5 = value_before writes 5) /\
  value_before writes 5 = Some 30.
Proof. split; [|by vm_compute]. apply BalWrites_get_correct. repeat constructor. Defined.

(** The second transaction of the first block reads what the first one left. *)
Lemma bal_replay_correct_witness :
  answers_with empty_db (mkBalDatabase (Some block1_bal) None 1 empty_db ∅)
    (world_before block1 0 empty_state 1) /\
  w_storage (world_before block1 0 empty_state 1 1) 5 = 8.
Proof.
  split; [|by vm_compute].
  refine (bal_replay_correct empty_state block1 (CacheDB_new empty_db)
    (default (BalDatabase_new (CacheDB_new empty_db)) (run_block block1)) block1_bal empty_db 1 _ _ _ _ _ _).
  - exact empty_state_normal.
  - exact block1_valid.
  - by vm_compute.
  - by vm_compute.
  - by vm_compute.
  - exact empty_state_models.
Defined.

(** With the offset 3 the second transaction of the second block has the index 5. *)
Lemma bal_batch_correct_witness :
  answers_with empty_db
    (mkBalDatabase (Some (merge_bal_with_offset block1_bal block2_bal 3)) None 5 empty_db ∅)
    (world_before block2 0 (world_before block1 0 empty_state 3) 2) /\
  w_storage (world_before block2 0 (world_before block1 0 empty_state 3) 2 1) 5 = 4.
Proof.
  split; [|by vm_compute].
  refine (bal_batch_correct empty_state block1 block2 (CacheDB_new empty_db) (CacheDB_new empty_db)
    (default (BalDatabase_new (CacheDB_new empty_db)) (run_block block1))
    (default (BalDatabase_new (CacheDB_new empty_db)) (run_block block2))
    block1_bal block2_bal empty_db 3 5 _ _ _ _ _ _ _ _ _ _ _).
  - exact empty_state_normal.
  - exact block1_valid.
  - exact block2_valid.
  - by vm_compute.
  - by vm_compute.
  - by vm_compute.
  - by vm_compute.
  - by vm_compute.
  - by vm_compute.
  - by vm_compute.
  - exact empty_state_models.
Defined.

(** A list with a delegated account, whose code has the hash 1 here. *)
Definition coded_bal : Bal :=
  mkBal [(1, mkAccountBal (mkAccountInfoBal [(1, 1)] [] [(1, (1, Eip7702 (Eip7702Bytecode_new 0x1234)))])
    {[5 := [(1, 7)]; 6 := []]}); (2, AccountBal_default)].

Lemma bal_alloy_roundtrip_witness :
  Bal_try_from (into_alloy_bal coded_bal) = Some (Ok coded_bal).
Proof.
  apply (bal_alloy_roundtrip coded_bal).
  - repeat constructor; set_solver.
  - intros a ab [[= -> ->]|[[= -> ->]|[]%not_elem_of_nil]%elem_of_cons]%elem_of_cons; repeat constructor.
    exists (eip7702_raw (Eip7702Bytecode_new 0x1234)). split; [|by vm_compute].
    repeat constructor; by vm_compute.
Defined.
End BalExample.
