(* ===== verification/FastLz.v ===== *)
(** The estimate of the compressed size of a transaction on Optimism,
    [crates/op-revm/src/fast_lz.rs] and [transaction.rs]: the length that the
    FastLZ compression of a byte string would have, without compressing it.

    Indices are [u32]s that wrap around; an access outside of the input is a
    panic ([None]).  The loops take fuel, and running out of it gives [None] too:
    [flz_compress_len_bounded] shows that neither happens. *)
From S2P Require Import Prelude.
From stdpp Require Import base numbers list option tactics gmap.
From Stdlib Require Import ZArith Lia.

Local Open Scope Z_scope.

(** [input[idx as usize]]. *)
Definition byte_at (input : list Z) (idx : Z) : option Z := input !! Z.to_nat idx.

Definition u24 (input : list Z) (idx : Z) : option Z :=
  let? a := byte_at input idx in
  let? b := byte_at input (wrapping_add 32 idx 1) in
  let? c := byte_at input (wrapping_add 32 idx 2) in
  Some (a + Z.shiftl b 8 + Z.shiftl c 16).

Definition flz_hash (v : Z) : Z :=
  Z.land (wrap 16 (Z.shiftr (wrapping_mul 64 v 2654435769) 19)) 0x1fff.

(** The table of the last position of each hash, zero at first. *)
Abbreviation Htab := (gmap Z Z) (only parsing).
Definition htab_get (htab : Htab) (h : Z) : Z := default 0 (htab !! h).

Definition set_next_hash (htab : Htab) (input : list Z) (idx : Z) : option (Z * Htab) :=
  let? v := u24 input idx in
  Some (wrapping_add 32 idx 1, <[flz_hash v := idx]> htab).

Definition literals (r size : Z) : Z :=
  let size := wrapping_add 32 size (wrapping_mul 32 0x21 (r / 0x20)) in
  let r := r mod 0x20 in
  if negb (r =? 0) then wrapping_add 32 (wrapping_add 32 size r) 1 else size.

(** The loop of [cmp], which counts in [l] up to [r] or past the first
    difference. *)
Fixpoint cmp_loop (fuel : nat) (input : list Z) (p q l r : Z) : option Z :=
  if l <? r then
    match fuel with
    | O => None
    | S fuel =>
        let? a := byte_at input (wrapping_add 32 p l) in
        let? b := byte_at input (wrapping_add 32 q l) in
        cmp_loop fuel input p q (wrapping_add 32 l 1) (if negb (a =? b) then 0 else r)
    end
  else Some l.
Definition flz_cmp (input : list Z) (p q r : Z) : option Z :=
  cmp_loop (length input) input p q 0 (wrapping_sub 32 r q).

Definition flz_match (l size : Z) : Z :=
  let l := wrapping_sub 32 l 1 in
  let size := wrapping_add 32 size (wrapping_mul 32 3 (l / 262)) in
  if 6 <=? l mod 262 then wrapping_add 32 size 3 else wrapping_add 32 size 2.

(** The inner loop: the next position whose three bytes were seen before. *)
Fixpoint find_match (fuel : nat) (input : list Z) (idx_limit idx : Z) (htab : Htab)
    : option (Z * Z * Htab) :=
  match fuel with
  | O => None
  | S fuel =>
      let? seq := u24 input idx in
      let hash := flz_hash seq in
      let r := htab_get htab hash in
      let htab := <[hash := idx]> htab in
      let distance := wrapping_sub 32 idx r in
      if idx_limit <=? idx then Some (idx, r, htab)
      else
        let idx := wrapping_add 32 idx 1 in
        if distance <? 8192 then
          let? seq_r := u24 input r in
          if seq =? seq_r then Some (idx, r, htab) else find_match fuel input idx_limit idx htab
        else find_match fuel input idx_limit idx htab
  end.

(** The outer loop, with the start [anchor] of the bytes not yet counted. *)
Fixpoint compress_loop (fuel : nat) (input : list Z) (idx_limit idx anchor size : Z) (htab : Htab)
    : option (Z * Z) :=
  if idx <? idx_limit then
    match fuel with
    | O => None
    | S fuel =>
        let? (idx, r, htab) := find_match (S (length input)) input idx_limit idx htab in
        if idx_limit <=? idx then Some (anchor, size)
        else
          let idx := wrapping_sub 32 idx 1 in
          let size := if anchor <? idx then literals (wrapping_sub 32 idx anchor) size else size in
          let? len := flz_cmp input (wrapping_add 32 r 3) (wrapping_add 32 idx 3)
                        (wrapping_add 32 idx_limit 9) in
          let size := flz_match len size in
          let? (idx, htab) := set_next_hash htab input (wrapping_add 32 idx len) in
          let? (idx, htab) := set_next_hash htab input idx in
          compress_loop fuel input idx_limit idx idx size htab
    end
  else Some (anchor, size).

Definition flz_compress_len (input : list Z) : option Z :=
  let len := wrap 32 (Z.of_nat (length input)) in
  let idx_limit := if (length input <? 13)%nat then 0 else wrapping_sub 32 len 13 in
  let? (anchor, size) := compress_loop (length input) input idx_limit 2 0 0 ∅ in
  Some (literals (wrapping_sub 32 len anchor) size).

(** ** The estimate ([transaction.rs]) *)

Definition L1_COST_FASTLZ_COEF : Z := 836500.
Definition L1_COST_INTERCEPT : Z := 42585600.
Definition MIN_TX_SIZE_SCALED : Z := 100 * 1000000.

Definition estimate_tx_compressed_size (input : list Z) : option Z :=
  let? fastlz_size := flz_compress_len input in
  Some (Z.max (saturating_sub (saturating_mul 64 fastlz_size L1_COST_FASTLZ_COEF) L1_COST_INTERCEPT)
          MIN_TX_SIZE_SCALED).

(** ** Termination and the size of the result *)

(** Arithmetic on [u32]s that does not overflow. *)
Lemma u32_wrap (x : Z) : 0 <= x < 2 ^ 32 -> wrap 32 x = x.
Proof. intros. by apply wrap_small. Qed.
Lemma u32_add (x y : Z) : 0 <= x + y < 2 ^ 32 -> wrapping_add 32 x y = x + y.
Proof. apply u32_wrap. Qed.
Lemma u32_sub (x y : Z) : 0 <= x - y < 2 ^ 32 -> wrapping_sub 32 x y = x - y.
Proof. apply u32_wrap. Qed.

Lemma div32_add (x y : Z) : x / 32 + y / 32 <= (x + y) / 32.
Proof. Z.to_euclidean_division_equations. lia. Qed.

Section Bounds.
Context (input : list Z).
Let n : Z := Z.of_nat (length input).
Context (Hn : n + n / 32 + 1 < 2 ^ 32).

Lemma flz_len_range : 0 <= n < 2 ^ 32.
Proof using Hn. subst n. pose proof (Z.div_pos (Z.of_nat (length input)) 32). lia. Qed.

Lemma byte_at_Some (i : Z) : 0 <= i < n -> exists b, byte_at input i = Some b.
Proof.
  intros Hi. unfold byte_at. apply lookup_lt_is_Some_2. subst n. lia.
Qed.

Lemma u24_Some (i : Z) : 0 <= i -> i + 2 < n -> exists v, u24 input i = Some v.
Proof using Hn.
  intros H0 H2. pose proof flz_len_range. unfold u24.
  rewrite (u32_add i 1), (u32_add i 2) by lia.
  destruct (byte_at_Some i) as [a ->]; [lia|].
  destruct (byte_at_Some (i + 1)) as [b ->]; [lia|].
  destruct (byte_at_Some (i + 2)) as [c ->]; [lia|]. eauto.
Qed.

(** [cmp] stops after at least one and at most [r - q] comparisons. *)
Lemma cmp_loop_Some (p q : Z) : 0 <= p < q -> forall fuel l r,
  0 <= l < r -> q + r <= n -> r - l <= Z.of_nat fuel ->
  exists l', cmp_loop fuel input p q l r = Some l' /\ l < l' <= r.
Proof using Hn.
  intros Hp. pose proof flz_len_range. induction fuel as [|fuel IH]; intros l r Hl Hr Hf; [lia|].
  cbn [cmp_loop]. destruct (Z.ltb_spec l r); [|lia].
  rewrite !u32_add by lia.
  destruct (byte_at_Some (p + l)) as [a ->]; [lia|].
  destruct (byte_at_Some (q + l)) as [b ->]; [lia|]. cbn [negb].
  assert (Hstop : forall r', r' <= l + 1 -> cmp_loop fuel input p q (l + 1) r' = Some (l + 1)).
  { intros r' Hr'. destruct fuel; cbn [cmp_loop]; destruct (Z.ltb_spec (l + 1) r'); auto; lia. }
  destruct (a =? b); cbn [negb].
  - destruct (decide (l + 1 < r)) as [Hlt|Hge].
    + destruct (IH (l + 1) r) as (l' & -> & ?); [lia..|]. exists l'. split; [done|lia].
    + rewrite Hstop by lia. exists (l + 1). split; [done|lia].
  - rewrite Hstop by lia. exists (l + 1). split; [done|lia].
Qed.

(** Every position of the table is before [i]. *)
Definition htab_below (htab : Htab) (i : Z) : Prop := forall h, 0 <= htab_get htab h < i.

Lemma htab_below_insert (htab : Htab) (h i j : Z) :
  htab_below htab i -> i <= j -> htab_below (<[h := j]> htab) (j + 1).
Proof.
  intros Hb Hij k. unfold htab_get. destruct (decide (k = h)) as [->|].
  - rewrite lookup_insert_eq. cbn. specialize (Hb 0). lia.
  - rewrite lookup_insert_ne by done. specialize (Hb k). unfold htab_get in Hb. lia.
Qed.

Lemma find_match_Some (limit : Z) : limit + 2 < n -> forall fuel i htab,
  0 <= i <= limit -> htab_below htab i -> limit - i + 1 <= Z.of_nat fuel ->
  exists i' r htab', find_match fuel input limit i htab = Some (i', r, htab') /\
    i <= i' /\ (i' < limit -> i < i' /\ 0 <= r < i' - 1 /\ htab_below htab' i').
Proof using Hn.
  intros Hlim. pose proof flz_len_range.
  induction fuel as [|fuel IH]; intros i htab Hi Hb Hf; [lia|]. cbn [find_match].
  destruct (u24_Some i) as [v ->]; [lia..|].
  destruct (Z.leb_spec limit i).
  { eexists _, _, _. split; [reflexivity|]. split; lia. }
  rewrite u32_add by lia.
  pose proof (htab_below_insert htab (flz_hash v) i i Hb ltac:(lia)) as Hb'.
  assert (Hgo : exists i' r htab',
    find_match fuel input limit (i + 1) (<[flz_hash v := i]> htab) = Some (i', r, htab') /\
    i <= i' /\ (i' < limit -> i < i' /\ 0 <= r < i' - 1 /\ htab_below htab' i')).
  { destruct (IH (i + 1) (<[flz_hash v := i]> htab)) as (i' & r & htab' & -> & ? & Hr); [lia|done|lia|].
    eexists _, _, _. split; [reflexivity|]. split; [lia|]. intros Hlt.
    destruct (Hr Hlt) as (? & ? & ?). split; [lia|]. split; [lia|done]. }
  destruct (_ <? 8192); [|exact Hgo].
  pose proof (Hb (flz_hash v)) as Hr.
  destruct (u24_Some (htab_get htab (flz_hash v))) as [w ->]; [lia..|].
  destruct (v =? w); [|exact Hgo].
  eexists _, _, _. split; [reflexivity|]. split; [lia|]. intros _.
  split; [lia|]. split; [lia|done].
Qed.

Lemma literals_eq (r size : Z) : 0 <= r -> 0 <= size -> size + r + r / 32 + 1 < 2 ^ 32 ->
  size <= literals r size <= size + r + r / 32 + 1.
Proof.
  intros Hr Hs Hlt. unfold literals, wrapping_mul.
  pose proof (Z.div_mod r 32 ltac:(lia)). pose proof (Z.mod_pos_bound r 32 ltac:(lia)).
  rewrite (u32_wrap (0x21 * (r / 0x20))) by lia.
  rewrite (u32_add size) by lia.
  destruct (Z.eqb_spec (r mod 0x20) 0); cbn [negb]; [lia|].
  rewrite (u32_add (size + _)), u32_add by lia. lia.
Qed.

Lemma flz_match_eq (l size : Z) : 1 <= l -> 0 <= size -> size + l + 1 < 2 ^ 32 ->
  size < flz_match l size <= size + l + 1.
Proof.
  intros Hl Hs Hlt. unfold flz_match, wrapping_mul.
  rewrite u32_sub by lia.
  pose proof (Z.div_mod (l - 1) 262 ltac:(lia)). pose proof (Z.mod_pos_bound (l - 1) 262 ltac:(lia)).
  rewrite (u32_wrap (3 * ((l - 1) / 262))) by lia.
  rewrite (u32_add size) by lia.
  destruct (Z.leb_spec 6 ((l - 1) mod 262)); rewrite u32_add by lia; lia.
Qed.

Lemma set_next_hash_Some (htab : Htab) (i j : Z) :
  0 <= j -> j + 2 < n -> i <= j -> htab_below htab i ->
  exists htab', set_next_hash htab input j = Some (j + 1, htab') /\ htab_below htab' (j + 1).
Proof using Hn.
  intros H0 H2 Hij Hb. pose proof flz_len_range. unfold set_next_hash.
  destruct (u24_Some j) as [v ->]; [lia..|]. rewrite u32_add by lia.
  eexists. split; [reflexivity|]. by eapply htab_below_insert.
Qed.

Lemma compress_loop_Some : 13 <= n -> forall fuel i anchor size htab,
  2 <= i -> 0 <= anchor <= i -> anchor <= n ->
  htab_below htab i -> 0 <= size <= anchor + anchor / 32 -> n - i <= Z.of_nat fuel ->
  exists anchor' size', compress_loop fuel input (n - 13) i anchor size htab = Some (anchor', size') /\
    0 <= anchor' <= n /\ 0 <= size' <= anchor' + anchor' / 32.
Proof using Hn.
  intros H13. pose proof flz_len_range.
  induction fuel as [|fuel IH]; intros i anchor size htab Hi Ha Han Hb Hs Hf;
    cbn [compress_loop]; (destruct (Z.ltb_spec i (n - 13)); [|by exists anchor, size; auto with lia]); [lia|].
  destruct (find_match_Some (n - 13) ltac:(lia) (S (length input)) i htab)
    as (i' & r & htab' & -> & Hii & Hr); [lia|done|subst n; lia|].
  destruct (Z.leb_spec (n - 13) i'); [by exists anchor, size; auto with lia|].
  destruct (Hr ltac:(lia)) as (Hlt & Hr' & Hb').
  rewrite (u32_sub i' 1) by lia.
  set (sz := if anchor <? i' - 1 then _ else _).
  assert (Hsz : 0 <= sz <= i' - 1 + (i' - 1) / 32 + 1).
  { subst sz. destruct (Z.ltb_spec anchor (i' - 1)); [|pose proof (Z.div_le_mono anchor (i' - 1) 32); lia].
    rewrite u32_sub by lia.
    pose proof (div32_add (i' - 1 - anchor) anchor) as Hd. replace (i' - 1 - anchor + anchor) with (i' - 1) in Hd by lia.
    pose proof (Z.div_pos (i' - 1 - anchor) 32).
    pose proof (literals_eq (i' - 1 - anchor) size) as Hl.
    assert ((i' - 1) / 32 <= n / 32) by (apply Z.div_le_mono; lia). lia. }
  unfold flz_cmp. rewrite !u32_add, u32_sub by lia.
  destruct (cmp_loop_Some (r + 3) (i' - 1 + 3) ltac:(lia) (length input) 0 (n - 13 + 9 - (i' - 1 + 3)))
    as (len & -> & Hlen); [lia|lia|subst n; lia|].
  rewrite u32_add by lia.
  assert ((i' - 1) / 32 <= n / 32) by (apply Z.div_le_mono; lia).
  pose proof (flz_match_eq len sz ltac:(lia) ltac:(lia) ltac:(lia)) as Hm.
  destruct (set_next_hash_Some htab' i' (i' - 1 + len)) as (h1 & -> & Hb1); [lia..|done|].
  destruct (set_next_hash_Some h1 (i' - 1 + len + 1) (i' - 1 + len + 1)) as (h2 & -> & Hb2); [lia..|done|].
  apply IH; [lia..|done| |lia].
  pose proof (Z.div_le_mono (i' - 1) (i' - 1 + len + 1 + 1) 32). lia.
Qed.

Lemma flz_compress_len_bounded_aux :
  exists size, flz_compress_len input = Some size /\ 0 <= size <= n + n / 32 + 1.
Proof using Hn.
  pose proof flz_len_range as Hr. unfold flz_compress_len. fold n.
  rewrite (u32_wrap n) by lia.
  set (limit := if (length input <? 13)%nat then _ else _).
  assert (exists anchor size, compress_loop (length input) input limit 2 0 0 ∅ = Some (anchor, size) /\
            0 <= anchor <= n /\ 0 <= size <= anchor + anchor / 32) as (anchor & size & -> & Ha & Hs).
  { subst limit. destruct (Nat.ltb_spec (length input) 13) as [Hlt|Hge].
    - exists 0, 0. split; [by destruct (length input)|]. change (0 / 32) with 0. lia.
    - rewrite u32_sub by (subst n; lia).
      apply compress_loop_Some; try (subst n; change (0 / 32) with 0; lia).
      intros h. unfold htab_get. rewrite lookup_empty. cbn. lia. }
  eexists. split; [reflexivity|]. rewrite u32_sub by lia.
  pose proof (div32_add (n - anchor) anchor) as Hd. replace (n - anchor + anchor) with n in Hd by lia.
  pose proof (literals_eq (n - anchor) size). lia.
Qed.

End Bounds.

(** C26: The FastLZ estimate terminates and never indexes outside of its input:
    the length is at most the length of the input, plus one byte for every 32
    bytes of it, plus one, for every input for which that sum is below [2^32], the
    range of its counters. *)
Theorem flz_compress_len_bounded (input : list Z) :
  let n := Z.of_nat (length input) in
  n + n / 32 + 1 < 2 ^ 32 ->
  exists size, flz_compress_len input = Some size /\ 0 <= size <= n + n / 32 + 1.
Proof. exact (flz_compress_len_bounded_aux input). Qed.

Lemma flz_compress_len_bounded_witness :
  flz_compress_len (replicate 1000 0) = Some 21 /\
  exists size, flz_compress_len (replicate 1000 0) = Some size /\ 0 <= size <= 1000 + 1000 / 32 + 1.
Proof.
  split; [by vm_compute|].
  exact (flz_compress_len_bounded (replicate 1000 0) ltac:(vm_compute; reflexivity)).
Defined.
