(* ===== verification/TxBuilder.v ===== *)
(** The builder of a transaction, [TxEnvBuilder] of [context/src/tx.rs], and the
    transaction of a system call ([handler/src/system_call.rs]).

    [build] refuses fields that do not fit the type that was asked for,
    [build_fill] completes them; without a type both derive it from the fields
    that are set.  The dummy authorization of [build_fill], an authorization
    whose authority is invalid, belongs to the library behind [Auth]:
    [invalid_authorization] is its constructor. *)
From S2P Require Import Prelude Hardfork Env.
From stdpp Require Import base numbers list option tactics.
From Stdlib Require Import ZArith Lia.

Local Open Scope Z_scope.

(** [RecoveredAuthorization::new_unchecked(Authorization { chain_id, address,
    nonce }, RecoveredAuthority::Invalid)]. *)
Class InvalidAuthorization (Auth : Type) := invalid_authorization : Z -> Z -> Z -> Auth.

Record TxEnvBuilder (Auth : Type) := mkTxEnvBuilder {
  b_tx_type : option Z; b_caller : Z; b_gas_limit : Z; b_gas_price : Z; b_kind : TxKind; b_value : Z;
  b_data : list Z; b_nonce : Z; b_chain_id : option Z; b_access_list : list (Z * list Z);
  b_gas_priority_fee : option Z; b_blob_hashes : list Z; b_max_fee_per_blob_gas : Z;
  b_authorization_list : list Auth }.
Arguments mkTxEnvBuilder {Auth}.
Arguments b_tx_type {Auth}.
Arguments b_caller {Auth}.
Arguments b_gas_limit {Auth}.
Arguments b_gas_price {Auth}.
Arguments b_kind {Auth}.
Arguments b_value {Auth}.
Arguments b_data {Auth}.
Arguments b_nonce {Auth}.
Arguments b_chain_id {Auth}.
Arguments b_access_list {Auth}.
Arguments b_gas_priority_fee {Auth}.
Arguments b_blob_hashes {Auth}.
Arguments b_max_fee_per_blob_gas {Auth}.
Arguments b_authorization_list {Auth}.

Inductive TxEnvBuildError :=
| DeriveErr (e : DeriveTxTypeError) | MissingGasPriorityFeeForEip1559 | MissingBlobHashesForEip4844
| MissingAuthorizationListForEip7702 | Build_MissingTargetForEip4844.

Definition TxKind_is_call (kind : TxKind) : bool := match kind with TxCall _ => true | TxCreate => false end.

Section TxEnvBuilder.
Context {Auth : Type}.
Implicit Types self : TxEnvBuilder Auth.

Definition TxEnvBuilder_new : TxEnvBuilder Auth :=
  mkTxEnvBuilder None 0 TX_GAS_LIMIT_CAP 0 (TxCall 0) 0 [] 0 (Some 1) [] None [] 0 [].

(** The setters. *)
Definition TxEnvBuilder_tx_type (v : option Z) self : TxEnvBuilder Auth :=
  let 'mkTxEnvBuilder _ c gl gp k x d n ci al pf bh bf au := self in mkTxEnvBuilder v c gl gp k x d n ci al pf bh bf au.
Definition TxEnvBuilder_caller (v : Z) self : TxEnvBuilder Auth :=
  let 'mkTxEnvBuilder t _ gl gp k x d n ci al pf bh bf au := self in mkTxEnvBuilder t v gl gp k x d n ci al pf bh bf au.
Definition TxEnvBuilder_gas_limit (v : Z) self : TxEnvBuilder Auth :=
  let 'mkTxEnvBuilder t c _ gp k x d n ci al pf bh bf au := self in mkTxEnvBuilder t c v gp k x d n ci al pf bh bf au.
Definition TxEnvBuilder_gas_price (v : Z) self : TxEnvBuilder Auth :=
  let 'mkTxEnvBuilder t c gl _ k x d n ci al pf bh bf au := self in mkTxEnvBuilder t c gl v k x d n ci al pf bh bf au.
Definition TxEnvBuilder_max_fee_per_gas (v : Z) self : TxEnvBuilder Auth :=
  let 'mkTxEnvBuilder t c gl _ k x d n ci al pf bh bf au := self in mkTxEnvBuilder t c gl v k x d n ci al pf bh bf au.
Definition TxEnvBuilder_kind (v : TxKind) self : TxEnvBuilder Auth :=
  let 'mkTxEnvBuilder t c gl gp _ x d n ci al pf bh bf au := self in mkTxEnvBuilder t c gl gp v x d n ci al pf bh bf au.
Definition TxEnvBuilder_call (target : Z) self : TxEnvBuilder Auth :=
  let 'mkTxEnvBuilder t c gl gp _ x d n ci al pf bh bf au := self in
  mkTxEnvBuilder t c gl gp (TxCall target) x d n ci al pf bh bf au.
Definition TxEnvBuilder_create self : TxEnvBuilder Auth :=
  let 'mkTxEnvBuilder t c gl gp _ x d n ci al pf bh bf au := self in
  mkTxEnvBuilder t c gl gp TxCreate x d n ci al pf bh bf au.
Definition TxEnvBuilder_to (target : Z) self : TxEnvBuilder Auth := TxEnvBuilder_call target self.
Definition TxEnvBuilder_value (v : Z) self : TxEnvBuilder Auth :=
  let 'mkTxEnvBuilder t c gl gp k _ d n ci al pf bh bf au := self in mkTxEnvBuilder t c gl gp k v d n ci al pf bh bf au.
Definition TxEnvBuilder_data (v : list Z) self : TxEnvBuilder Auth :=
  let 'mkTxEnvBuilder t c gl gp k x _ n ci al pf bh bf au := self in mkTxEnvBuilder t c gl gp k x v n ci al pf bh bf au.
Definition TxEnvBuilder_nonce (v : Z) self : TxEnvBuilder Auth :=
  let 'mkTxEnvBuilder t c gl gp k x d _ ci al pf bh bf au := self in mkTxEnvBuilder t c gl gp k x d v ci al pf bh bf au.
Definition TxEnvBuilder_chain_id (v : option Z) self : TxEnvBuilder Auth :=
  let 'mkTxEnvBuilder t c gl gp k x d n _ al pf bh bf au := self in mkTxEnvBuilder t c gl gp k x d n v al pf bh bf au.
Definition TxEnvBuilder_access_list (v : list (Z * list Z)) self : TxEnvBuilder Auth :=
  let 'mkTxEnvBuilder t c gl gp k x d n ci _ pf bh bf au := self in mkTxEnvBuilder t c gl gp k x d n ci v pf bh bf au.
Definition TxEnvBuilder_gas_priority_fee (v : option Z) self : TxEnvBuilder Auth :=
  let 'mkTxEnvBuilder t c gl gp k x d n ci al _ bh bf au := self in mkTxEnvBuilder t c gl gp k x d n ci al v bh bf au.
Definition TxEnvBuilder_blob_hashes (v : list Z) self : TxEnvBuilder Auth :=
  let 'mkTxEnvBuilder t c gl gp k x d n ci al pf _ bf au := self in mkTxEnvBuilder t c gl gp k x d n ci al pf v bf au.
Definition TxEnvBuilder_max_fee_per_blob_gas (v : Z) self : TxEnvBuilder Auth :=
  let 'mkTxEnvBuilder t c gl gp k x d n ci al pf bh _ au := self in mkTxEnvBuilder t c gl gp k x d n ci al pf bh v au.
Definition TxEnvBuilder_authorization_list (v : list Auth) self : TxEnvBuilder Auth :=
  let 'mkTxEnvBuilder t c gl gp k x d n ci al pf bh bf _ := self in mkTxEnvBuilder t c gl gp k x d n ci al pf bh bf v.

(** The [TxEnv] with the fields of the builder, and type 0 when none is set. *)
Definition builder_fields self : TxEnv Auth :=
  mkTxEnv (default 0 (b_tx_type self)) (b_caller self) (b_gas_limit self) (b_gas_price self) (b_kind self)
    (b_value self) (b_data self) (b_nonce self) (b_chain_id self) (b_access_list self) (b_gas_priority_fee self)
    (b_blob_hashes self) (b_max_fee_per_blob_gas self) (b_authorization_list self).

(** The fields that the type asks for. *)
Definition check_fields (t : TransactionType) self : result unit TxEnvBuildError :=
  match t with
  | Legacy | Eip2930 | Custom => Ok tt
  | Eip1559 =>
      if bool_decide (b_gas_priority_fee self = None) then Err MissingGasPriorityFeeForEip1559 else Ok tt
  | Eip4844 =>
      if bool_decide (b_gas_priority_fee self = None) then Err MissingGasPriorityFeeForEip1559
      else if bool_decide (b_blob_hashes self = []) then Err MissingBlobHashesForEip4844
      else if negb (TxKind_is_call (b_kind self)) then Err Build_MissingTargetForEip4844 else Ok tt
  | Eip7702Tx =>
      if bool_decide (b_gas_priority_fee self = None) then Err MissingGasPriorityFeeForEip1559
      else match b_authorization_list self with
           | [] => Err MissingAuthorizationListForEip7702
           | _ => if negb (TxKind_is_call (b_kind self)) then Err (DeriveErr MissingTargetForEip7702) else Ok tt
           end
  end.

Definition TxEnvBuilder_build self : result (TxEnv Auth) TxEnvBuildError :=
  match b_tx_type self with
  | Some t =>
      match check_fields (TransactionType_from_u8 t) self with
      | Err e => Err e
      | Ok _ => Ok (builder_fields self)
      end
  | None =>
      match TxEnv_derive_tx_type (builder_fields self) with
      | (Ok _, tx) => Ok tx
      | (Err e, _) => Err (DeriveErr e)
      end
  end.

Context `{!InvalidAuthorization Auth}.

Definition fill_priority_fee self : TxEnvBuilder Auth :=
  if bool_decide (b_gas_priority_fee self = None) then TxEnvBuilder_gas_priority_fee (Some 0) self else self.
Definition fill_target self : TxEnvBuilder Auth :=
  if negb (TxKind_is_call (b_kind self)) then TxEnvBuilder_kind (TxCall 0) self else self.
Definition fill_blob_hashes self : TxEnvBuilder Auth :=
  if bool_decide (b_blob_hashes self = []) then TxEnvBuilder_blob_hashes [0] self else self.
Definition fill_authorization_list self : TxEnvBuilder Auth :=
  match b_authorization_list self with
  | [] => TxEnvBuilder_authorization_list
            [invalid_authorization (default 1 (b_chain_id self)) (b_caller self) (b_nonce self)] self
  | _ => self
  end.
Definition fill_fields (t : TransactionType) self : TxEnvBuilder Auth :=
  match t with
  | Legacy | Eip2930 | Custom => self
  | Eip1559 => fill_priority_fee self
  | Eip4844 => fill_target (fill_blob_hashes (fill_priority_fee self))
  | Eip7702Tx => fill_target (fill_authorization_list (fill_priority_fee self))
  end.

(** [tx.kind = TxKind::Call(Address::default())]. *)
Definition assign_default_target (tx : TxEnv Auth) : TxEnv Auth :=
  let 'mkTxEnv t c gl gp _ x d n ci al pf bh bf au := tx in mkTxEnv t c gl gp (TxCall 0) x d n ci al pf bh bf au.

Definition TxEnvBuilder_build_fill self : TxEnv Auth :=
  match b_tx_type self with
  | Some t => builder_fields (fill_fields (TransactionType_from_u8 t) self)
  | None =>
      match TxEnv_derive_tx_type (builder_fields self) with
      | (Ok _, tx) => tx
      | (Err _, tx) => assign_default_target tx
      end
  end.

Definition TxEnv_builder : TxEnvBuilder Auth := TxEnvBuilder_new.
Definition TxEnv_modify (tx : TxEnv Auth) : TxEnvBuilder Auth :=
  TxEnvBuilder_authorization_list (tx_authorization_list tx)
   (TxEnvBuilder_max_fee_per_blob_gas (tx_max_fee_per_blob_gas tx)
   (TxEnvBuilder_blob_hashes (tx_blob_hashes tx)
   (TxEnvBuilder_gas_priority_fee (tx_gas_priority_fee tx)
   (TxEnvBuilder_access_list (tx_access_list tx)
   (TxEnvBuilder_chain_id (tx_chain_id tx)
   (TxEnvBuilder_nonce (tx_nonce tx)
   (TxEnvBuilder_data (tx_data tx)
   (TxEnvBuilder_value (tx_value tx)
   (TxEnvBuilder_kind (tx_kind tx)
   (TxEnvBuilder_gas_price (tx_gas_price tx)
   (TxEnvBuilder_gas_limit (tx_gas_limit tx)
   (TxEnvBuilder_caller (tx_caller tx)
   (TxEnvBuilder_tx_type (Some (tx_type tx)) TxEnvBuilder_new))))))))))))).

(** [impl SystemCallTx for TxEnv]; [None] is the panic of [unwrap]. *)
Definition SYSTEM_ADDRESS : Z := 0xfffffffffffffffffffffffffffffffffffffffe.
Definition TxEnv_new_system_tx_with_caller (caller system_contract_address : Z) (data : list Z) : option (TxEnv Auth) :=
  match TxEnvBuilder_build
    (TxEnvBuilder_gas_limit 30000000
    (TxEnvBuilder_kind (TxCall system_contract_address)
    (TxEnvBuilder_data data
    (TxEnvBuilder_caller caller TxEnv_builder)))) with
  | Ok tx => Some tx
  | Err _ => None
  end.
Definition TxEnv_new_system_tx (system_contract_address : Z) (data : list Z) : option (TxEnv Auth) :=
  TxEnv_new_system_tx_with_caller SYSTEM_ADDRESS system_contract_address data.

(** * Laws *)

Lemma modify_fields (tx : TxEnv Auth) : builder_fields (TxEnv_modify tx) = tx.
Proof using. by destruct tx. Qed.
Lemma modify_type (tx : TxEnv Auth) : b_tx_type (TxEnv_modify tx) = Some (tx_type tx).
Proof using. by destruct tx. Qed.

Lemma check_fields_of_fields t (b b' : TxEnvBuilder Auth) :
  b_gas_priority_fee b = b_gas_priority_fee b' -> b_blob_hashes b = b_blob_hashes b' ->
  b_kind b = b_kind b' -> b_authorization_list b = b_authorization_list b' ->
  check_fields t b = check_fields t b'.
Proof. unfold check_fields. by intros -> -> -> ->. Qed.

(** Filling gives every field the type asks for. *)
Lemma fill_checked t (b : TxEnvBuilder Auth) : check_fields t (fill_fields t b) = Ok tt.
Proof using.
  destruct b as [ty c gl gp k x d n ci al pf bh bf au].
  destruct t, pf as [pf|], bh as [|h bh], k, au; reflexivity.
Qed.

(** Filling changes nothing when no field is missing. *)
Lemma fill_conservative t (b : TxEnvBuilder Auth) : check_fields t b = Ok tt -> fill_fields t b = b.
Proof using.
  destruct b as [ty c gl gp k x d n ci al pf bh bf au].
  destruct t, pf as [pf|], bh as [|h bh], k, au; done.
Qed.

Lemma fill_type t (b : TxEnvBuilder Auth) : b_tx_type (fill_fields t b) = b_tx_type b.
Proof using.
  destruct b as [ty c gl gp k x d n ci al pf bh bf au].
  destruct t, pf as [pf|], bh as [|h bh], k, au; reflexivity.
Qed.

(** C39: [build_fill] agrees with [build]: it gives the transaction of [build]
    whenever that succeeds, and when a type is asked for, what it gives passes
    the checks of [build] unchanged. *)
Theorem build_fill_correct (b : TxEnvBuilder Auth) :
  (forall tx, TxEnvBuilder_build b = Ok tx -> TxEnvBuilder_build_fill b = tx) /\
  (forall t, b_tx_type b = Some t ->
     tx_type (TxEnvBuilder_build_fill b) = t /\
     TxEnvBuilder_build (TxEnv_modify (TxEnvBuilder_build_fill b)) = Ok (TxEnvBuilder_build_fill b)).
Proof using.
  unfold TxEnvBuilder_build at 1, TxEnvBuilder_build_fill. split.
  - intros tx. destruct (b_tx_type b) as [t|] eqn:Ht.
    + destruct (check_fields _ b) as [[]|] eqn:Hc; [|done]. intros [= <-]. by rewrite fill_conservative.
    + destruct (TxEnv_derive_tx_type _) as [[[]|e] tx']; [|done]. by intros [= <-].
  - intros t Ht. rewrite Ht. cbn [tx_type builder_fields]. rewrite fill_type, Ht. split; [done|].
    set (f := fill_fields _ b). unfold TxEnvBuilder_build. rewrite modify_type, modify_fields.
    cbn [tx_type builder_fields]. subst f. rewrite fill_type, Ht. cbn [default].
    rewrite (check_fields_of_fields _ _ (fill_fields (TransactionType_from_u8 t) b)) by reflexivity.
    by rewrite fill_checked.
Qed.
End TxEnvBuilder.

Module BuilderExample.
(** Authorizations are triples; the invalid one is the triple itself. *)
#[local] Instance triple_authorization : InvalidAuthorization (Z * Z * Z) := fun c a n => (c, a, n).

(** A blob transaction without priority fee, blobs or target. *)
Definition bare_blob : TxEnvBuilder (Z * Z * Z) := TxEnvBuilder_create (TxEnvBuilder_tx_type (Some 3) TxEnvBuilder_new).

Lemma build_fill_correct_witness :
  TxEnvBuilder_build bare_blob = Err MissingGasPriorityFeeForEip1559 /\
  TxEnvBuilder_build (TxEnv_modify (TxEnvBuilder_build_fill bare_blob)) = Ok (TxEnvBuilder_build_fill bare_blob).
Proof.
  split; [reflexivity|].
  exact (proj2 (proj2 (build_fill_correct bare_blob) 3 eq_refl)).
Defined.

(** Blobs without a target: [build_fill] gives it a target and leaves the type
    at [Legacy], so that the blobs are ignored. *)
Definition create_with_blobs : TxEnvBuilder (Z * Z * Z) :=
  TxEnvBuilder_create (TxEnvBuilder_blob_hashes [7] TxEnvBuilder_new).

(** [build_fill] does not derive the type after it fixed a missing target. *)
Theorem build_fill_blobs_as_legacy :
  TxEnvBuilder_build create_with_blobs = Err (DeriveErr MissingTargetForEip4844) /\
  let tx := TxEnvBuilder_build_fill create_with_blobs in
  tx_kind tx = TxCall 0 /\ tx_blob_hashes tx = [7] /\ TransactionType_from_u8 (tx_type tx) = Legacy /\
  (TxEnv_derive_tx_type tx).1 = Ok tt /\ TransactionType_from_u8 (tx_type (TxEnv_derive_tx_type tx).2) = Eip4844.
Proof. vm_compute. done. Qed.
End BuilderExample.
