(* ===== verification/OpTypes.v ===== *)
(** The types of the Optimism variant, [crates/op-revm/src]: its hard forks
    ([spec.rs]), its transaction ([transaction/abstraction.rs] and
    [deposit.rs]), its errors and halt reasons ([transaction/error.rs],
    [result.rs]).

    The mainnet phases see an [OpTransaction] through the [Transaction] trait:
    [OpTransaction_view] is the [TxEnv] with the same answers. *)
From S2P Require Import Prelude Hardfork JournalInner InstructionResult State Interpreter Env TxBuilder Frame PostExecution.
From stdpp Require Import base numbers list option tactics strings.
From Stdlib Require Import ZArith Lia.

Local Open Scope Z_scope.

(** * Hard forks *)

Inductive OpSpecId : Type :=
| BEDROCK | REGOLITH | CANYON | ECOTONE | FJORD | GRANITE | HOLOCENE | ISTHMUS | JOVIAN | INTEROP | OP_OSAKA.

#[global] Instance OpSpecId_eq_dec : EqDecision OpSpecId.
Proof. solve_decision. Defined.

Definition OpSpecId_as_u8 (s : OpSpecId) : Z :=
  match s with
  | BEDROCK => 100 | REGOLITH => 101 | CANYON => 102 | ECOTONE => 103 | FJORD => 104 | GRANITE => 105
  | HOLOCENE => 106 | ISTHMUS => 107 | JOVIAN => 108 | INTEROP => 109 | OP_OSAKA => 110
  end.
Definition OpSpecId_default : OpSpecId := ISTHMUS.

Definition into_eth_spec (self : OpSpecId) : SpecId :=
  match self with
  | BEDROCK | REGOLITH => MERGE
  | CANYON => SHANGHAI
  | ECOTONE | FJORD | GRANITE | HOLOCENE => CANCUN
  | ISTHMUS | JOVIAN | INTEROP => PRAGUE
  | OP_OSAKA => OSAKA
  end.

Definition OpSpecId_is_enabled_in (self other : OpSpecId) : bool := OpSpecId_as_u8 other <=? OpSpecId_as_u8 self.

Definition op_name_BEDROCK : string := "Bedrock".
Definition op_name_REGOLITH : string := "Regolith".
Definition op_name_CANYON : string := "Canyon".
Definition op_name_ECOTONE : string := "Ecotone".
Definition op_name_FJORD : string := "Fjord".
Definition op_name_GRANITE : string := "Granite".
Definition op_name_HOLOCENE : string := "Holocene".
Definition op_name_ISTHMUS : string := "Isthmus".
Definition op_name_JOVIAN : string := "Jovian".
Definition op_name_INTEROP : string := "Interop".

Definition OpSpecId_from_str (s : string) : result OpSpecId UnknownHardfork :=
  if String.eqb s op_name_BEDROCK then Ok BEDROCK
  else if String.eqb s op_name_REGOLITH then Ok REGOLITH
  else if String.eqb s op_name_CANYON then Ok CANYON
  else if String.eqb s op_name_ECOTONE then Ok ECOTONE
  else if String.eqb s op_name_FJORD then Ok FJORD
  else if String.eqb s op_name_GRANITE then Ok GRANITE
  else if String.eqb s op_name_HOLOCENE then Ok HOLOCENE
  else if String.eqb s op_name_ISTHMUS then Ok ISTHMUS
  else if String.eqb s op_name_JOVIAN then Ok JOVIAN
  else if String.eqb s op_name_INTEROP then Ok INTEROP
  else if String.eqb s name_OSAKA then Ok OP_OSAKA
  else Err unknown_hardfork.

Definition OpSpecId_to_str (spec_id : OpSpecId) : string :=
  match spec_id with
  | BEDROCK => op_name_BEDROCK
  | REGOLITH => op_name_REGOLITH
  | CANYON => op_name_CANYON
  | ECOTONE => op_name_ECOTONE
  | FJORD => op_name_FJORD
  | GRANITE => op_name_GRANITE
  | HOLOCENE => op_name_HOLOCENE
  | ISTHMUS => op_name_ISTHMUS
  | JOVIAN => op_name_JOVIAN
  | INTEROP => op_name_INTEROP
  | OP_OSAKA => name_OSAKA
  end.

(** * Transactions *)

Definition DEPOSIT_TRANSACTION_TYPE : Z := 0x7E.

Record DepositTransactionParts := mkDepositTransactionParts {
  dp_source_hash : Z; dp_mint : option Z; dp_is_system_transaction : bool }.
Definition DepositTransactionParts_default : DepositTransactionParts := mkDepositTransactionParts 0 None false.

Record OpTransaction (Auth : Type) := mkOpTransaction {
  op_base : TxEnv Auth; op_enveloped_tx : option (list Z); op_deposit : DepositTransactionParts }.
Arguments mkOpTransaction {Auth}.
Arguments op_base {Auth}.
Arguments op_enveloped_tx {Auth}.
Arguments op_deposit {Auth}.

Section OpTransaction.
Context {Auth : Type}.
Implicit Types self : OpTransaction Auth.

Definition OpTransaction_new (base : TxEnv Auth) : OpTransaction Auth :=
  mkOpTransaction base None DepositTransactionParts_default.

Definition OpTransaction_new_system_tx_with_caller (caller system_contract_address : Z) (data : list Z)
    : option (OpTransaction Auth) :=
  let? base := TxEnv_new_system_tx_with_caller caller system_contract_address data in
  let tx := OpTransaction_new base in
  Some (mkOpTransaction (op_base tx) (Some []) (op_deposit tx)).

Definition OpTransaction_tx_type self : Z :=
  if negb (dp_source_hash (op_deposit self) =? 0) then DEPOSIT_TRANSACTION_TYPE else tx_type (op_base self).
Definition OpTransaction_is_deposit self : bool := OpTransaction_tx_type self =? DEPOSIT_TRANSACTION_TYPE.

Definition OpTransaction_effective_gas_price (base_fee : Z) self : Z :=
  if OpTransaction_tx_type self =? DEPOSIT_TRANSACTION_TYPE then tx_gas_price (op_base self)
  else Transaction_effective_gas_price base_fee (op_base self).

Definition OpTransaction_source_hash self : option Z :=
  if negb (OpTransaction_tx_type self =? DEPOSIT_TRANSACTION_TYPE) then None
  else Some (dp_source_hash (op_deposit self)).
Definition OpTransaction_mint self : option Z := dp_mint (op_deposit self).
Definition OpTransaction_is_system_transaction self : bool := dp_is_system_transaction (op_deposit self).

(** The answers of the [Transaction] trait.  The effective price of a deposit
    ignores its priority fee, which nothing else reads of a deposit. *)
Definition OpTransaction_view self : TxEnv Auth :=
  let b := op_base self in
  mkTxEnv (OpTransaction_tx_type self) (tx_caller b) (tx_gas_limit b) (tx_gas_price b) (tx_kind b) (tx_value b)
    (tx_data b) (tx_nonce b) (tx_chain_id b) (tx_access_list b)
    (if OpTransaction_is_deposit self then None else tx_gas_priority_fee b)
    (tx_blob_hashes b) (tx_max_fee_per_blob_gas b) (tx_authorization_list b).
End OpTransaction.

(** ** The builder *)

Record OpTransactionBuilder (Auth : Type) := mkOpTransactionBuilder {
  ob_base : TxEnvBuilder Auth; ob_enveloped_tx : option (list Z); ob_deposit : DepositTransactionParts }.
Arguments mkOpTransactionBuilder {Auth}.
Arguments ob_base {Auth}.
Arguments ob_enveloped_tx {Auth}.
Arguments ob_deposit {Auth}.

Inductive OpBuildError :=
| OpBuild_Base (e : TxEnvBuildError) | MissingEnvelopedTxBytes | MissingSourceHashForDeposit.

(** [B256::from([1u8; 32])]. *)
Definition DUMMY_SOURCE_HASH : Z := from_be_bytes (replicate 32 1).

Section OpTransactionBuilder.
Context {Auth : Type}.
Implicit Types self : OpTransactionBuilder Auth.

Definition OpTransactionBuilder_new : OpTransactionBuilder Auth :=
  mkOpTransactionBuilder TxEnvBuilder_new None DepositTransactionParts_default.
Definition OpTransactionBuilder_base (base : TxEnvBuilder Auth) self : OpTransactionBuilder Auth :=
  mkOpTransactionBuilder base (ob_enveloped_tx self) (ob_deposit self).
Definition OpTransactionBuilder_enveloped_tx (enveloped_tx : option (list Z)) self : OpTransactionBuilder Auth :=
  mkOpTransactionBuilder (ob_base self) enveloped_tx (ob_deposit self).
Definition assign_deposit (d : DepositTransactionParts) self : OpTransactionBuilder Auth :=
  mkOpTransactionBuilder (ob_base self) (ob_enveloped_tx self) d.
Definition OpTransactionBuilder_source_hash (source_hash : Z) self : OpTransactionBuilder Auth :=
  assign_deposit (mkDepositTransactionParts source_hash (dp_mint (ob_deposit self))
                    (dp_is_system_transaction (ob_deposit self))) self.
Definition OpTransactionBuilder_mint (mint : Z) self : OpTransactionBuilder Auth :=
  assign_deposit (mkDepositTransactionParts (dp_source_hash (ob_deposit self)) (Some mint)
                    (dp_is_system_transaction (ob_deposit self))) self.
Definition assign_system_transaction (b : bool) self : OpTransactionBuilder Auth :=
  assign_deposit (mkDepositTransactionParts (dp_source_hash (ob_deposit self)) (dp_mint (ob_deposit self)) b) self.
Definition OpTransactionBuilder_is_system_transaction self : OpTransactionBuilder Auth :=
  assign_system_transaction true self.
Definition OpTransactionBuilder_not_system_transaction self : OpTransactionBuilder Auth :=
  assign_system_transaction false self.
Definition OpTransactionBuilder_is_deposit_tx self : OpTransactionBuilder Auth :=
  OpTransactionBuilder_base (TxEnvBuilder_tx_type (Some DEPOSIT_TRANSACTION_TYPE) (ob_base self)) self.

Definition op_build_fields (base : TxEnv Auth) self : OpTransaction Auth :=
  mkOpTransaction base (ob_enveloped_tx self) (ob_deposit self).

Definition OpTransactionBuilder_build self : result (OpTransaction Auth) OpBuildError :=
  let finish self :=
    match TxEnvBuilder_build (ob_base self) with
    | Ok base => Ok (op_build_fields base self)
    | Err e => Err (OpBuild_Base e)
    end in
  match b_tx_type (ob_base self) with
  | Some t =>
      if t =? DEPOSIT_TRANSACTION_TYPE then
        if dp_source_hash (ob_deposit self) =? 0 then Err MissingSourceHashForDeposit else finish self
      else if bool_decide (ob_enveloped_tx self = None) then Err MissingEnvelopedTxBytes
      else finish self
  | None =>
      if negb (dp_source_hash (ob_deposit self) =? 0) then finish (OpTransactionBuilder_is_deposit_tx self)
      else if bool_decide (ob_enveloped_tx self = None) then Err MissingEnvelopedTxBytes
      else finish self
  end.

Context `{!InvalidAuthorization Auth}.

Definition OpTransactionBuilder_build_fill self : OpTransaction Auth :=
  let self :=
    match b_tx_type (ob_base self) with
    | Some t =>
        if t =? DEPOSIT_TRANSACTION_TYPE then
          let self := if dp_source_hash (ob_deposit self) =? 0
                      then OpTransactionBuilder_source_hash DUMMY_SOURCE_HASH self else self in
          OpTransactionBuilder_enveloped_tx None self
        else OpTransactionBuilder_enveloped_tx (Some [0]) self
    | None =>
        if negb (dp_source_hash (ob_deposit self) =? 0) then
          OpTransactionBuilder_enveloped_tx None (OpTransactionBuilder_is_deposit_tx self)
        else if bool_decide (ob_enveloped_tx self = None) then OpTransactionBuilder_enveloped_tx (Some [0]) self
        else self
    end in
  op_build_fields (TxEnvBuilder_build_fill (ob_base self)) self.
End OpTransactionBuilder.

(** * Errors and halts *)

Inductive OpTransactionError :=
| OpTx_Base (e : InvalidTransaction)
| DepositSystemTxPostRegolith
| HaltedDepositPostRegolith
| MissingEnvelopedTx.

(** [OpError], [EVMError<_, OpTransactionError>]. *)
Inductive OpError (DBError : Type) :=
| OpError_Transaction (e : OpTransactionError)
| OpError_Header (e : InvalidHeader)
| OpError_Database (e : DBError)
| OpError_Custom (message : string).
Arguments OpError_Transaction {DBError}.
Arguments OpError_Header {DBError}.
Arguments OpError_Database {DBError}.
Arguments OpError_Custom {DBError}.

(** The error of a mainnet phase, with [From<InvalidTransaction>]. *)
Definition OpError_from {E} (e : EVMError E) : OpError E :=
  match e with
  | EVMError_Transaction e => OpError_Transaction (OpTx_Base e)
  | EVMError_Header e => OpError_Header e
  | EVMError_Database e => OpError_Database e
  | EVMError_Custom m => OpError_Custom m
  end.

Definition is_tx_error {E} (e : OpError E) : bool :=
  match e with OpError_Transaction _ => true | _ => false end.

Inductive OpHaltReason := OpHalt_Base (reason : HaltReason) | FailedDeposit.
Definition HaltReason_try_from_op (value : OpHaltReason) : result HaltReason OpHaltReason :=
  match value with OpHalt_Base reason => Ok reason | FailedDeposit => Err value end.

(** [ExecutionResult<OpHaltReason>]. *)
Inductive OpExecutionResult :=
| Op_Success (reason : SuccessReason) (gas_used gas_refunded : Z) (logs : list Log) (output : Output)
| Op_Revert (gas_used : Z) (output : list Z)
| Op_Halt (reason : OpHaltReason) (gas_used : Z).

(** [map_haltreason(OpHaltReason::Base)]. *)
Definition map_haltreason_base (r : ExecutionResult) : OpExecutionResult :=
  match r with
  | Success reason gas_used gas_refunded logs output => Op_Success reason gas_used gas_refunded logs output
  | Execution_Revert gas_used output => Op_Revert gas_used output
  | Halt reason gas_used => Op_Halt (OpHalt_Base reason) gas_used
  end.
Definition OpExecutionResult_is_halt (r : OpExecutionResult) : bool :=
  match r with Op_Halt _ _ => true | _ => false end.

(** * Laws *)

Lemma OpSpecId_from_to_str s : OpSpecId_from_str (OpSpecId_to_str s) = Ok s.
Proof. by destruct s. Qed.

(** Enabling an Optimism fork enables the Ethereum fork below it. *)
Lemma into_eth_spec_mono s t :
  OpSpecId_is_enabled_in s t = true -> SpecId_is_enabled_in (into_eth_spec s) (into_eth_spec t) = true.
Proof. by destruct s, t. Qed.

(** Every Optimism fork is after the merge. *)
Lemma into_eth_spec_london s : SpecId_is_enabled_in (into_eth_spec s) LONDON = true.
Proof. by destruct s. Qed.

Lemma OpTransaction_view_price {Auth} (self : OpTransaction Auth) base_fee :
  Transaction_effective_gas_price base_fee (OpTransaction_view self) = OpTransaction_effective_gas_price base_fee self.
Proof.
  unfold Transaction_effective_gas_price, OpTransaction_effective_gas_price, OpTransaction_view,
    OpTransaction_is_deposit, is_type. cbn.
  destruct (OpTransaction_tx_type self =? DEPOSIT_TRANSACTION_TYPE) eqn:Hd.
  - apply Z.eqb_eq in Hd. by rewrite Hd.
  - revert Hd. unfold OpTransaction_tx_type. by destruct (negb _).
Qed.

(** The mainnet phases see the base of a transaction that is not a deposit. *)
Lemma OpTransaction_view_base {Auth} (self : OpTransaction Auth) :
  OpTransaction_is_deposit self = false -> OpTransaction_view self = op_base self.
Proof.
  intros Hd. unfold OpTransaction_view. rewrite Hd. revert Hd.
  unfold OpTransaction_is_deposit, OpTransaction_tx_type. destruct (negb _); [done|]. intros _.
  by destruct (op_base self).
Qed.

(** What the builder builds can be run: a transaction that is not a deposit has
    its envelope, so that [validate_env] does not refuse it for a missing one. *)
Lemma op_build_enveloped {Auth} (b : OpTransactionBuilder Auth) tx :
  OpTransactionBuilder_build b = Ok tx -> OpTransaction_is_deposit tx = false -> is_Some (op_enveloped_tx tx).
Proof.
  assert (Hfin : forall (b' : OpTransactionBuilder Auth) t, (match TxEnvBuilder_build (ob_base b') with
    | Ok base => Ok (op_build_fields base b') | Err e => Err (OpBuild_Base e) end) = Ok t ->
    op_enveloped_tx t = ob_enveloped_tx b' /\ op_deposit t = ob_deposit b').
  { intros b' t. destruct (TxEnvBuilder_build _); [|done]. by intros [= <-]. }
  unfold OpTransactionBuilder_build, OpTransaction_is_deposit, OpTransaction_tx_type.
  destruct (b_tx_type (ob_base b)) as [t|].
  - destruct (t =? _).
    + destruct (dp_source_hash (ob_deposit b) =? 0) eqn:Hs; [done|]. intros [_ ->]%Hfin. by rewrite Hs.
    + case_bool_decide as Hn; [done|]. intros [-> _]%Hfin _. by destruct (ob_enveloped_tx b); [eexists|].
  - destruct (dp_source_hash (ob_deposit b) =? 0) eqn:Hs; cbn [negb].
    + case_bool_decide as Hn; [done|]. intros [-> _]%Hfin _. by destruct (ob_enveloped_tx b); [eexists|].
    + intros [_ ->]%Hfin. cbn. by rewrite Hs.
Qed.

(** [build_fill] replaces the envelope that was given by a zero byte when a type
    is given too, and keeps it otherwise. *)
Theorem op_build_fill_drops_envelope :
  let enveloped := OpTransactionBuilder_enveloped_tx (Some [2; 0xF8; 0x6B]) (@OpTransactionBuilder_new (Z * Z * Z)) in
  let typed := OpTransactionBuilder_base (TxEnvBuilder_tx_type (Some 0) TxEnvBuilder_new) enveloped in
  forall ia : InvalidAuthorization (Z * Z * Z),
  op_enveloped_tx (OpTransactionBuilder_build_fill enveloped) = Some [2; 0xF8; 0x6B] /\
  op_enveloped_tx (OpTransactionBuilder_build_fill typed) = Some [0] /\
  (exists tx, OpTransactionBuilder_build typed = Ok tx /\ op_enveloped_tx tx = Some [2; 0xF8; 0x6B]).
Proof. intros enveloped typed ia. split; [done|]. split; [done|]. by eexists. Qed.
