(* ===== verification/L1Block.v ===== *)
(** What a transaction on Optimism pays beside its gas, [op-revm/src/l1block.rs]
    and [constants.rs]: the cost of its bytes on L1 and, from Isthmus on, the
    operator fee.  The parameters are read from the storage of the L1 block
    contract.

    [None] is a panic: an [expect] on a parameter that the fork does not have,
    or an index outside of the transaction ([FastLz]). *)
From S2P Require Import Prelude Hardfork State Database Gas Env FastLz OpTypes.
From stdpp Require Import base numbers list option tactics.
From Stdlib Require Import ZArith Lia.

Local Open Scope Z_scope.

(** * Constants *)

Definition NON_ZERO_BYTE_COST : Z := 16.
Definition BASE_FEE_SCALAR_OFFSET : nat := 16.
Definition BLOB_BASE_FEE_SCALAR_OFFSET : nat := 20.
Definition OPERATOR_FEE_SCALAR_OFFSET : nat := 20.
Definition OPERATOR_FEE_CONSTANT_OFFSET : nat := 24.
Definition DA_FOOTPRINT_GAS_SCALAR_OFFSET : nat := 18.
Definition OPERATOR_FEE_SCALAR_DECIMAL : Z := 1000000.
Definition OPERATOR_FEE_JOVIAN_MULTIPLIER : Z := 100.
Definition L1_BASE_FEE_SLOT : Z := 1.
Definition L1_OVERHEAD_SLOT : Z := 5.
Definition L1_SCALAR_SLOT : Z := 6.
Definition ECOTONE_L1_BLOB_BASE_FEE_SLOT : Z := 7.
Definition ECOTONE_L1_FEE_SCALARS_SLOT : Z := 3.
Definition OPERATOR_FEE_SCALARS_SLOT : Z := 8.
Definition DA_FOOTPRINT_GAS_SCALAR_SLOT : Z := 8.
Definition EMPTY_SCALARS : list Z := replicate 8 0.
Definition L1_FEE_RECIPIENT : Z := 0x420000000000000000000000000000000000001A.
Definition OPERATOR_FEE_RECIPIENT : Z := 0x420000000000000000000000000000000000001B.
Definition BASE_FEE_RECIPIENT : Z := 0x4200000000000000000000000000000000000019.
Definition L1_BLOCK_CONTRACT : Z := 0x4200000000000000000000000000000000000015.

(** * The parameters *)

Record L1BlockInfo := mkL1BlockInfo {
  l2_block : option Z;
  l1_base_fee : Z;
  l1_fee_overhead : option Z;
  l1_base_fee_scalar : Z;
  l1_blob_base_fee : option Z;
  l1_blob_base_fee_scalar : option Z;
  operator_fee_scalar : option Z;
  operator_fee_constant : option Z;
  da_footprint_gas_scalar : option Z;
  empty_ecotone_scalars : bool;
  tx_l1_cost : option Z }.

Definition L1BlockInfo_default : L1BlockInfo := mkL1BlockInfo None 0 None 0 None None None None None false None.

Definition set_tx_l1_cost (c : option Z) (self : L1BlockInfo) : L1BlockInfo :=
  let 'mkL1BlockInfo b f o s bf bs os oc d e _ := self in mkL1BlockInfo b f o s bf bs os oc d e c.
Definition L1BlockInfo_clear_tx_l1_cost (self : L1BlockInfo) : L1BlockInfo := set_tx_l1_cost None self.

(** [get! (x, db) := m in k] is [m?] of a read of the database. *)
Notation "'get!' '(' x ',' s ')' ':=' m 'in' k" :=
  (match m with (Ok x, s) => k | (Err e, s) => (Err e, s) end)
  (at level 10, x pattern, s name, m at level 100, k at level 200).

Section Fetch.
Context {DB E : Type} `{!Database DB E}.

(** A field of a packed slot: [n] bytes from the offset. *)
Definition packed (offset n : nat) (slot : Z) : list Z := take n (drop offset (be_bytes 32 slot)).

Definition fetch_da_footprint_gas_scalar (db : DB) : result Z E * DB :=
  get! (slot, db) := db_storage db L1_BLOCK_CONTRACT DA_FOOTPRINT_GAS_SCALAR_SLOT in
  (Ok (from_be_bytes (packed DA_FOOTPRINT_GAS_SCALAR_OFFSET 2 slot)), db).

Definition try_fetch_jovian (self : L1BlockInfo) (db : DB) : result L1BlockInfo E * DB :=
  get! (scalar, db) := fetch_da_footprint_gas_scalar db in
  let 'mkL1BlockInfo b f o s bf bs os oc _ e c := self in
  (Ok (mkL1BlockInfo b f o s bf bs os oc (Some scalar) e c), db).

Definition try_fetch_isthmus (self : L1BlockInfo) (db : DB) : result L1BlockInfo E * DB :=
  get! (scalars, db) := db_storage db L1_BLOCK_CONTRACT OPERATOR_FEE_SCALARS_SLOT in
  let 'mkL1BlockInfo b f o s bf bs _ _ d e c := self in
  (Ok (mkL1BlockInfo b f o s bf bs (Some (from_be_bytes (packed OPERATOR_FEE_SCALAR_OFFSET 4 scalars)))
         (Some (from_be_bytes (packed OPERATOR_FEE_CONSTANT_OFFSET 8 scalars))) d e c), db).

Definition try_fetch_ecotone (self : L1BlockInfo) (db : DB) : result L1BlockInfo E * DB :=
  get! (blob_base_fee, db) := db_storage db L1_BLOCK_CONTRACT ECOTONE_L1_BLOB_BASE_FEE_SLOT in
  get! (scalars, db) := db_storage db L1_BLOCK_CONTRACT ECOTONE_L1_FEE_SCALARS_SLOT in
  let base_fee_scalar := from_be_bytes (packed BASE_FEE_SCALAR_OFFSET 4 scalars) in
  let blob_base_fee_scalar := from_be_bytes (packed BLOB_BASE_FEE_SCALAR_OFFSET 4 scalars) in
  let empty := (blob_base_fee_scalar =? 0) && bool_decide (packed BASE_FEE_SCALAR_OFFSET 8 scalars = EMPTY_SCALARS) in
  get! (overhead, db) :=
    (if empty then
       get! (o, db) := db_storage db L1_BLOCK_CONTRACT L1_OVERHEAD_SLOT in (Ok (Some o), db)
     else (Ok None, db)) in
  let 'mkL1BlockInfo b f _ _ _ _ os oc d _ c := self in
  (Ok (mkL1BlockInfo b f overhead base_fee_scalar (Some blob_base_fee) (Some blob_base_fee_scalar) os oc d empty c), db).

Definition try_fetch (db : DB) (l2_block : Z) (spec_id : OpSpecId) : result L1BlockInfo E * DB :=
  get! (_, db) :=
    (if SpecId_is_enabled_in (into_eth_spec spec_id) CANCUN then
       get! (_, db) := db_basic db L1_BLOCK_CONTRACT in (Ok tt, db)
     else (Ok tt, db)) in
  get! (base_fee, db) := db_storage db L1_BLOCK_CONTRACT L1_BASE_FEE_SLOT in
  if negb (OpSpecId_is_enabled_in spec_id ECOTONE) then
    get! (scalar, db) := db_storage db L1_BLOCK_CONTRACT L1_SCALAR_SLOT in
    get! (overhead, db) := db_storage db L1_BLOCK_CONTRACT L1_OVERHEAD_SLOT in
    (Ok (mkL1BlockInfo (Some l2_block) base_fee (Some overhead) scalar None None None None None false None), db)
  else
    let out := mkL1BlockInfo (Some l2_block) base_fee None 0 None None None None None false None in
    get! (out, db) := try_fetch_ecotone out db in
    get! (out, db) := (if OpSpecId_is_enabled_in spec_id ISTHMUS then try_fetch_isthmus out db else (Ok out, db)) in
    get! (out, db) := (if OpSpecId_is_enabled_in spec_id JOVIAN then try_fetch_jovian out db else (Ok out, db)) in
    (Ok out, db).
End Fetch.

(** * The operator fee *)

Definition operator_fee_charge_inner (self : L1BlockInfo) (gas : Z) (spec_id : OpSpecId) : option Z :=
  let? scalar := operator_fee_scalar self in
  let? constant := operator_fee_constant self in
  let product :=
    if OpSpecId_is_enabled_in spec_id JOVIAN
    then saturating_mul 256 (saturating_mul 256 gas scalar) OPERATOR_FEE_JOVIAN_MULTIPLIER
    else saturating_mul 256 gas scalar / OPERATOR_FEE_SCALAR_DECIMAL in
  Some (saturating_add 256 product constant).

(** [input.is_empty() || input.first() == Some(&0x7E)]. *)
Definition is_free_input (input : list Z) : bool :=
  match input with [] => true | b :: _ => b =? 0x7E end.

Definition operator_fee_charge (self : L1BlockInfo) (input : list Z) (gas_limit : Z) (spec_id : OpSpecId) : option Z :=
  if is_free_input input then Some 0 else operator_fee_charge_inner self gas_limit spec_id.

Definition operator_fee_refund (self : L1BlockInfo) (gas : Gas) (spec_id : OpSpecId) : option Z :=
  if negb (OpSpecId_is_enabled_in spec_id ISTHMUS) then Some 0
  else
    let? cost_limit := operator_fee_charge_inner self (gas_limit gas) spec_id in
    let? cost_used := operator_fee_charge_inner self
      (wrapping_sub 64 (gas_limit gas) (wrapping_add 64 (gas_remaining gas) (wrap 64 (gas_refunded gas)))) spec_id in
    Some (saturating_sub cost_limit cost_used).

(** * The L1 cost *)

Definition tx_estimated_size_fjord (self : L1BlockInfo) (input : list Z) : option Z := estimate_tx_compressed_size input.

Definition data_gas (self : L1BlockInfo) (input : list Z) (spec_id : OpSpecId) : option Z :=
  if OpSpecId_is_enabled_in spec_id FJORD then
    let? estimated_size := tx_estimated_size_fjord self input in
    Some (saturating_mul 256 estimated_size NON_ZERO_BYTE_COST / 1000000)
  else
    let tokens := get_tokens_in_calldata input true in
    let tokens := if negb (OpSpecId_is_enabled_in spec_id REGOLITH)
                  then tokens + 68 * NON_ZERO_BYTE_MULTIPLIER_ISTANBUL else tokens in
    Some (saturating_mul 64 tokens STANDARD_TOKEN_COST).

Definition calculate_l1_fee_scaled_ecotone (self : L1BlockInfo) : Z :=
  let calldata_cost_per_byte :=
    saturating_mul 256 (saturating_mul 256 (l1_base_fee self) NON_ZERO_BYTE_COST) (l1_base_fee_scalar self) in
  let blob_cost_per_byte :=
    saturating_mul 256 (default 0 (l1_blob_base_fee self)) (default 0 (l1_blob_base_fee_scalar self)) in
  saturating_add 256 calldata_cost_per_byte blob_cost_per_byte.

Definition calculate_tx_l1_cost_bedrock (self : L1BlockInfo) (input : list Z) (spec_id : OpSpecId) : option Z :=
  let? rollup_data_gas_cost := data_gas self input spec_id in
  Some (saturating_mul 256
          (saturating_mul 256 (saturating_add 256 rollup_data_gas_cost (default 0 (l1_fee_overhead self)))
             (l1_base_fee self))
          (l1_base_fee_scalar self) / 1000000).

Definition calculate_tx_l1_cost_ecotone (self : L1BlockInfo) (input : list Z) (spec_id : OpSpecId) : option Z :=
  if empty_ecotone_scalars self then calculate_tx_l1_cost_bedrock self input spec_id
  else
    let? rollup_data_gas_cost := data_gas self input spec_id in
    Some (saturating_mul 256 (calculate_l1_fee_scaled_ecotone self) rollup_data_gas_cost
            / (1000000 * NON_ZERO_BYTE_COST)).

Definition calculate_tx_l1_cost_fjord (self : L1BlockInfo) (input : list Z) : option Z :=
  let? estimated_size := tx_estimated_size_fjord self input in
  Some (saturating_mul 256 estimated_size (calculate_l1_fee_scaled_ecotone self) / 1000000000000).

(** The cost is kept for the rest of the transaction, except that of a free input. *)
Definition calculate_tx_l1_cost (self : L1BlockInfo) (input : list Z) (spec_id : OpSpecId) : option (Z * L1BlockInfo) :=
  match tx_l1_cost self with
  | Some cost => Some (cost, self)
  | None =>
      if is_free_input input then Some (0, self)
      else
        let? cost :=
          if OpSpecId_is_enabled_in spec_id FJORD then calculate_tx_l1_cost_fjord self input
          else if OpSpecId_is_enabled_in spec_id ECOTONE then calculate_tx_l1_cost_ecotone self input spec_id
          else calculate_tx_l1_cost_bedrock self input spec_id in
        Some (cost, set_tx_l1_cost (Some cost) self)
  end.

(** * What a transaction pays *)

Definition tx_cost (self : L1BlockInfo) (enveloped_tx : list Z) (gas_limit : Z) (spec : OpSpecId)
    : option (Z * L1BlockInfo) :=
  let? (additional_cost, self) := calculate_tx_l1_cost self enveloped_tx spec in
  if OpSpecId_is_enabled_in spec ISTHMUS then
    let? charge := operator_fee_charge self enveloped_tx gas_limit spec in
    Some (saturating_add 256 additional_cost charge, self)
  else Some (additional_cost, self).

Definition tx_cost_with_tx {Auth} (self : L1BlockInfo) (tx : OpTransaction Auth) (spec : OpSpecId)
    : option (Z * L1BlockInfo) :=
  let? enveloped_tx := op_enveloped_tx tx in
  tx_cost self enveloped_tx (tx_gas_limit (op_base tx)) spec.
