(* ===== verification/OpHandler.v ===== *)
(** The Optimism handler: the precompiles of its forks ([precompiles.rs]), the
    EVM ([evm.rs]) and the phases of a transaction ([handler.rs]), composed as
    the [Handler] trait composes them ([crates/handler/src/handler.rs]).

    [OpEvm] is the mainnet [Evm] together with what the Optimism context has
    instead of the mainnet fields: the transaction, the fork, the fork of the
    precompiles and the L1 block info ([chain]).  The context inside holds the
    view of the transaction and the Ethereum fork of the Optimism fork, which is
    what the shared phases read. *)
From S2P Require Import Prelude Hardfork Bytecode State Database WarmAddresses Precompile JournalEntry JournalInner Gas InstructionResult Stack SharedMemory FrameStack Interpreter Env Host Context Validation Frame PreExecution PostExecution Macros Instructions HostInstructions InstructionTable Handler TxBuilder FastLz OpTypes L1Block.
From stdpp Require Import base numbers list option tactics gmap strings.
From Stdlib Require Import ZArith Lia.

Local Open Scope Z_scope.

(** * Precompiles *)

Definition GRANITE_MAX_INPUT_SIZE : Z := 112687.
Definition ISTHMUS_G1_MSM_MAX_INPUT_SIZE : Z := 513760.
Definition ISTHMUS_G2_MSM_MAX_INPUT_SIZE : Z := 488448.
Definition ISTHMUS_PAIRING_MAX_INPUT_SIZE : Z := 235008.

Section OpPrecompiles.
Context `{Crypto}.

Definition op_bn254_run_pair (input : list Z) (gas_limit : Z) : PrecompileResult :=
  if GRANITE_MAX_INPUT_SIZE <? Z.of_nat (length input) then Err Bn254PairLength
  else bn254_run_pair ISTANBUL_PAIR_PER_POINT ISTANBUL_PAIR_BASE input gas_limit.
Definition GRANITE_PAIR : Precompile := mkPrecompile Bn254Pairing (u64_to_address 8) op_bn254_run_pair.

Definition op_run_g1_msm (input : list Z) (gas_limit : Z) : PrecompileResult :=
  if ISTHMUS_G1_MSM_MAX_INPUT_SIZE <? Z.of_nat (length input)
  then Err (Other "G1MSM input length too long for OP Stack input size limitation")
  else g1_msm input gas_limit.
Definition op_run_g2_msm (input : list Z) (gas_limit : Z) : PrecompileResult :=
  if ISTHMUS_G2_MSM_MAX_INPUT_SIZE <? Z.of_nat (length input)
  then Err (Other "G2MSM input length too long for OP Stack input size limitation")
  else g2_msm input gas_limit.
Definition op_run_pair (input : list Z) (gas_limit : Z) : PrecompileResult :=
  if ISTHMUS_PAIRING_MAX_INPUT_SIZE <? Z.of_nat (length input)
  then Err (Other "Pairing input length too long for OP Stack input size limitation")
  else pairing input gas_limit.
Definition ISTHMUS_G1_MSM : Precompile := mkPrecompile Bls12G1Msm (u64_to_address 0x0c) op_run_g1_msm.
Definition ISTHMUS_G2_MSM : Precompile := mkPrecompile Bls12G2Msm (u64_to_address 0x0e) op_run_g2_msm.
Definition ISTHMUS_PAIRING : Precompile := mkPrecompile Bls12Pairing (u64_to_address 0x0f) op_run_pair.

Definition Precompiles_fjord : Precompiles := Precompiles_extend [P256VERIFY] Precompiles_cancun.
Definition Precompiles_granite : Precompiles := Precompiles_extend [GRANITE_PAIR] Precompiles_fjord.
Definition Precompiles_isthmus : Precompiles :=
  Precompiles_extend [ISTHMUS_G1_MSM; ISTHMUS_G2_MSM; ISTHMUS_PAIRING]
    (Precompiles_extend bls12_381_precompiles Precompiles_granite).

(** The precompiles of a fork; their inner [spec] is the default one. *)
Definition OpPrecompiles_new_with_spec (spec : OpSpecId) : EthPrecompiles :=
  let precompiles :=
    match spec with
    | BEDROCK | REGOLITH | CANYON | ECOTONE =>
        Precompiles_new (PrecompileSpecId_from_spec_id (into_eth_spec spec))
    | FJORD => Precompiles_fjord
    | GRANITE | HOLOCENE => Precompiles_granite
    | ISTHMUS | INTEROP | OP_OSAKA | JOVIAN => Precompiles_isthmus
    end in
  mkEthPrecompiles precompiles SpecId_default.

(** [set_spec] on the pair of the inner precompiles and their fork. *)
Definition OpPrecompiles_set_spec (spec : OpSpecId) (self : EthPrecompiles * OpSpecId)
    : bool * (EthPrecompiles * OpSpecId) :=
  if bool_decide (spec = self.2) then (false, self) else (true, (OpPrecompiles_new_with_spec spec, spec)).
End OpPrecompiles.

Section OpHandler.
Context `{BitVec, Keccak, Crypto, CreateAddress, VecGrow} {DB E Auth : Type}.
Context `{!Database DB E, !AuthorizationTr Auth, !InvalidAuthorization Auth}.
Abbreviation Ctx := (Context DB E Auth).
Abbreviation Evm := (@Evm DB E Auth).

(** * The EVM *)

Record OpEvm := mkOpEvm {
  op_evm : Evm; op_tx : OpTransaction Auth; op_spec : OpSpecId; op_precompiles_spec : OpSpecId;
  op_chain : L1BlockInfo }.
Implicit Types self : OpEvm.

Definition op_ctx self : Ctx := evm_ctx (op_evm self).
Definition with_op_evm (evm : Evm) self : OpEvm :=
  mkOpEvm evm (op_tx self) (op_spec self) (op_precompiles_spec self) (op_chain self).
Definition with_op_ctx (ctx : Ctx) self : OpEvm := with_op_evm (with_ctx ctx (op_evm self)) self.
Definition with_chain (chain : L1BlockInfo) self : OpEvm :=
  mkOpEvm (op_evm self) (op_tx self) (op_spec self) (op_precompiles_spec self) chain.

(** [ctx.set_tx(tx)]. *)
Definition Context_set_tx (tx : TxEnv Auth) (ctx : Ctx) : Ctx :=
  mkContext (ctx_block ctx) tx (ctx_cfg ctx) (ctx_journaled_state ctx) (ctx_local ctx) (ctx_error ctx)
    (ctx_par_7702 ctx).
Definition OpEvm_set_tx (tx : OpTransaction Auth) self : OpEvm :=
  mkOpEvm (with_ctx (Context_set_tx (OpTransaction_view tx) (op_ctx self)) (op_evm self)) tx (op_spec self)
    (op_precompiles_spec self) (op_chain self).

(** A phase on the context, or on the mainnet EVM. *)
Definition in_op_ctx {A} (m : option (result A (EVMError E) * Ctx)) self : option (result A (OpError E) * OpEvm) :=
  let? (r, ctx) := m in Some (map_err OpError_from r, with_op_ctx ctx self).
Definition in_op_evm {A} (m : option (result A (EVMError E) * Evm)) self : option (result A (OpError E) * OpEvm) :=
  let? (r, evm) := m in Some (map_err OpError_from r, with_op_evm evm self).

(** * Validation *)

Definition op_is_deposit self : bool := OpTransaction_is_deposit (op_tx self).
Definition op_is_regolith self : bool := OpSpecId_is_enabled_in (op_spec self) REGOLITH.

Definition op_validate_env self : result unit (OpError E) :=
  if op_is_deposit self then
    if OpTransaction_is_system_transaction (op_tx self) && op_is_regolith self
    then Err (OpError_Transaction DepositSystemTxPostRegolith) else Ok tt
  else if bool_decide (op_enveloped_tx (op_tx self) = None) then Err (OpError_Transaction MissingEnvelopedTx)
  else map_err OpError_from (validate_env (op_ctx self)).

(** [Handler::validate], with [validate_initial_tx_gas] of the trait. *)
Definition op_validate self : option (result InitialAndFloorGas (OpError E)) :=
  match op_validate_env self with
  | Err e => Some (Err e)
  | Ok _ =>
      let? r := validate_initial_tx_gas (ctx_tx (op_ctx self)) (cfg_spec (ctx_cfg (op_ctx self)))
                  (Cfg_is_eip7623_disabled (ctx_cfg (op_ctx self))) in
      Some (map_err (fun e => OpError_Transaction (OpTx_Base e)) r)
  end.

(** * The caller *)

Definition Cfg_is_fee_charge_disabled (cfg : CfgEnv) : bool := false.

(** The new balance of the caller of a deposit; [None] is the panic of [expect]. *)
Definition deposit_balance self (bal : Z) : option Z :=
  let ctx := op_ctx self in let tx := ctx_tx ctx in
  let basefee := block_basefee (ctx_block ctx) in
  let blob_price := default 0 (Block_blob_gasprice (ctx_block ctx)) in
  match Transaction_effective_balance_spending basefee blob_price tx with
  | Err _ => None
  | Ok spending =>
      let effective_balance_spending := wrapping_sub 256 spending (tx_value tx) in
      let new_balance := saturating_sub (saturating_add 256 bal (default 0 (OpTransaction_mint (op_tx self))))
                           effective_balance_spending in
      Some (if Cfg_is_balance_check_disabled (ctx_cfg ctx) then Z.max new_balance (tx_value tx) else new_balance)
  end.

(** Set the balance and bump the nonce of a call. *)
Definition pay_caller (new_balance : Z) (kind : TxKind) (caller : JournaledAccount) : JournaledAccount :=
  let caller := JournaledAccount_set_balance new_balance caller in
  match kind with TxCall _ => (JournaledAccount_bump_nonce caller).2 | TxCreate => caller end.

Definition op_load_caller self : option (result (StateLoad JournaledAccount) (OpError E) * OpEvm) :=
  in_op_ctx (try_db (Journal_load_account_with_code_mut (tx_caller (ctx_tx (op_ctx self)))
               (ctx_journaled_state (op_ctx self))) (op_ctx self)) self.

Definition op_deduct_deposit self : option (result unit (OpError E) * OpEvm) :=
  run! (load, self) := op_load_caller self in
  let caller := data load in
  let? new_balance := deposit_balance self (balance (info (ja_account caller))) in
  let caller := pay_caller new_balance (tx_kind (ctx_tx (op_ctx self))) caller in
  Some (Ok tt, with_op_ctx (store_account caller (op_ctx self)) self).

(** The L1 block info of this block, from the database when it is another's. *)
Definition op_refresh_chain self : option (result unit (OpError E) * OpEvm) :=
  let number := block_number (ctx_block (op_ctx self)) in
  if bool_decide (l2_block (op_chain self) = Some number) then Some (Ok tt, self)
  else
    let journal := ctx_journaled_state (op_ctx self) in
    let '(r, db) := try_fetch (journal_database journal) number (op_spec self) in
    let self := with_op_ctx (with_journal (mkJournal db (journal_inner journal)) (op_ctx self)) self in
    match r with
    | Err e => Some (Err (OpError_Database e), self)
    | Ok chain => Some (Ok tt, with_chain chain self)
    end.

(** The balance that is left for the gas; the cost stays in [chain]. *)
Definition op_charge_additional self (bal : Z) : option (result Z (OpError E) * OpEvm) :=
  if Cfg_is_fee_charge_disabled (ctx_cfg (op_ctx self)) then Some (Ok bal, self)
  else
    let? (additional_cost, chain) := tx_cost_with_tx (op_chain self) (op_tx self) (op_spec self) in
    let self := with_chain chain self in
    if bal <? additional_cost
    then Some (Err (OpError_Transaction (OpTx_Base (LackOfFundForMaxFee additional_cost bal))), self)
    else Some (Ok (bal - additional_cost), self).

Definition op_validate_against_state_and_deduct_caller self : option (result unit (OpError E) * OpEvm) :=
  if op_is_deposit self then op_deduct_deposit self
  else
    run! (_, self) := op_refresh_chain self in
    run! (load, self) := op_load_caller self in
    let caller := data load in
    let tx := ctx_tx (op_ctx self) in
    match validate_account_nonce_and_code_with_components (info (ja_account caller)) tx (ctx_cfg (op_ctx self)) with
    | Err e => Some (Err (OpError_Transaction (OpTx_Base e)), self)
    | Ok _ =>
        run! (bal, self) := op_charge_additional self (balance (info (ja_account caller))) in
        let? fee := calculate_caller_fee bal tx (ctx_block (op_ctx self)) (ctx_cfg (op_ctx self)) in
        match fee with
        | Err e => Some (Err (OpError_Transaction (OpTx_Base e)), self)
        | Ok new_balance =>
            Some (Ok tt, with_op_ctx (store_account (pay_caller new_balance (tx_kind tx) caller) (op_ctx self)) self)
        end
    end.

Definition op_load_accounts self : OpEvm :=
  let evm := op_evm self in
  let '(precompiles_changed, (precompiles, spec)) :=
    OpPrecompiles_set_spec (op_spec self) (evm_precompiles evm, op_precompiles_spec self) in
  let ctx := warm_accounts (evm_ctx evm) precompiles_changed (EthPrecompiles_warm_addresses precompiles) in
  mkOpEvm (mkEvm ctx precompiles (evm_frame_stack evm)) (op_tx self) (op_spec self) spec (op_chain self).

Definition op_pre_execution (arrival : list Auth -> list Auth) self : option (result Z (OpError E) * OpEvm) :=
  run! (_, self) := op_validate_against_state_and_deduct_caller self in
  let self := op_load_accounts self in
  in_op_ctx (apply_eip7702_auth_list arrival (op_ctx self)) self.

(** * Execution *)

Definition op_last_frame_gas self (r : InstructionResult) (gas : Gas) : Gas :=
  let tx_gas_limit := tx_gas_limit (ctx_tx (op_ctx self)) in
  let remaining := gas_remaining gas in
  let refunded := gas_refunded gas in
  let gas := Gas_new_spent tx_gas_limit in
  if InstructionResult_is_ok r then
    if negb (op_is_deposit self) || op_is_regolith self then Gas_record_refund refunded (Gas_erase_cost remaining gas)
    else if OpTransaction_is_system_transaction (op_tx self) then Gas_erase_cost tx_gas_limit gas else gas
  else if InstructionResult_is_revert r then
    if negb (op_is_deposit self) || op_is_regolith self then Gas_erase_cost remaining gas else gas
  else gas.

Definition op_last_frame_result self (frame_result : FrameResult) : FrameResult :=
  FrameResult_set_gas (op_last_frame_gas self (ir_result (FrameResult_interpreter_result frame_result))
    (FrameResult_gas frame_result)) frame_result.

Definition in_op_outcome {A X} (f : X -> OpError E) (m : outcome (result A X * Evm)) self
    : outcome (result A (OpError E) * OpEvm) :=
  match m with
  | Done (r, evm) => Done (map_err f r, with_op_evm evm self)
  | Out_of_fuel => Out_of_fuel
  | Panicked => Panicked
  end.

(** [From<ContextError>] of the error. *)
Definition OpError_from_context (e : ContextError E) : OpError E := OpError_from (EVMError_from_context e).

(** [Handler::execution]. *)
Definition op_execution (steps fuel : nat) self (init_and_floor_gas : InitialAndFloorGas)
    : outcome (result FrameResult (OpError E) * OpEvm) :=
  let gas_limit := wrapping_sub 64 (tx_gas_limit (ctx_tx (op_ctx self))) (initial_gas init_and_floor_gas) in
  go! (first_frame_input, self) := of_option (in_op_ctx (first_frame_input (op_ctx self) gas_limit) self) in
  go! (frame_result, self) :=
    in_op_outcome OpError_from_context (run_exec_loop steps fuel (op_evm self) first_frame_input) self in
  Done (Ok (op_last_frame_result self frame_result), self).

(** * After the last frame *)

Definition op_refund self (gas : Gas) (eip7702_refund : Z) : Gas :=
  let gas := Gas_record_refund eip7702_refund gas in
  let is_gas_refund_disabled := op_is_deposit self && negb (op_is_regolith self) in
  if negb is_gas_refund_disabled
  then Gas_set_final_refund (SpecId_is_enabled_in (into_eth_spec (op_spec self)) LONDON) gas
  else gas.

Definition op_reimburse_caller self (gas : Gas) : option (result unit (OpError E) * OpEvm) :=
  let? additional_refund :=
    if negb (op_is_deposit self) && negb (Cfg_is_fee_charge_disabled (ctx_cfg (op_ctx self)))
    then operator_fee_refund (op_chain self) gas (op_spec self) else Some 0 in
  in_op_ctx (run_map_err EVMError_Database (reimburse_caller (op_ctx self) gas additional_refund)) self.

(** [journal.balance_incr(recipient, amount)?]. *)
Definition op_balance_incr (recipient amount : Z) self : option (result unit (OpError E) * OpEvm) :=
  let journal := ctx_journaled_state (op_ctx self) in
  let? (r, j, db) := JournalInner_balance_incr recipient amount (journal_inner journal) (journal_database journal) in
  Some (map_err OpError_Database r, with_op_ctx (with_journal (mkJournal db j) (op_ctx self)) self).

Fixpoint op_pay_vaults (fees : list (Z * Z)) self : option (result unit (OpError E) * OpEvm) :=
  match fees with
  | [] => Some (Ok tt, self)
  | (recipient, amount) :: fees =>
      run! (_, self) := op_balance_incr recipient amount self in
      op_pay_vaults fees self
  end.

(** What the three vaults get, and the L1 block info with the cached cost. *)
Definition op_vault_fees self (enveloped_tx : list Z) (gas : Gas) : option (list (Z * Z) * L1BlockInfo) :=
  let? (l1_cost, chain) := calculate_tx_l1_cost (op_chain self) enveloped_tx (op_spec self) in
  let? operator_fee_cost :=
    if OpSpecId_is_enabled_in (op_spec self) ISTHMUS
    then operator_fee_charge chain enveloped_tx (Gas_used gas) (op_spec self) else Some 0 in
  let base_fee_amount := saturating_mul 128 (block_basefee (ctx_block (op_ctx self))) (Gas_used gas) in
  Some ([(L1_FEE_RECIPIENT, l1_cost); (BASE_FEE_RECIPIENT, base_fee_amount);
         (OPERATOR_FEE_RECIPIENT, operator_fee_cost)], chain).

Definition op_reward_beneficiary self (gas : Gas) : option (result unit (OpError E) * OpEvm) :=
  if op_is_deposit self then Some (Ok tt, self)
  else
    run! (_, self) := in_op_ctx (run_map_err EVMError_Database (reward_beneficiary (op_ctx self) gas)) self in
    match op_enveloped_tx (op_tx self) with
    | None => Some (Err (OpError_Custom "[OPTIMISM] Failed to load enveloped transaction."), self)
    | Some enveloped_tx =>
        let? (fees, chain) := op_vault_fees self enveloped_tx gas in
        op_pay_vaults fees (with_chain chain self)
    end.

(** [Handler::post_execution]. *)
Definition op_post_execution self (exec_result : FrameResult) (init_and_floor_gas : InitialAndFloorGas)
    (eip7702_gas_refund : Z) : option (result FrameResult (OpError E) * OpEvm) :=
  let gas := eip7623_check_gas_floor (op_refund self (FrameResult_gas exec_result) eip7702_gas_refund)
               init_and_floor_gas in
  run! (_, self) := op_reimburse_caller self gas in
  run! (_, self) := op_reward_beneficiary self gas in
  Some (Ok (FrameResult_set_gas gas exec_result), self).

(** [local_mut().clear()], [frame_stack().clear()] and the cached cost. *)
Definition op_cleanup self : OpEvm :=
  let self := with_chain (L1BlockInfo_clear_tx_l1_cost (op_chain self)) self in
  let ctx := with_local (LocalContext_clear (ctx_local (op_ctx self))) (op_ctx self) in
  with_op_evm (mkEvm ctx (evm_precompiles (op_evm self)) (FrameStack_clear (evm_frame_stack (op_evm self)))) self.

Definition op_execution_result self (frame_result : FrameResult) : option (result OpExecutionResult (OpError E) * OpEvm) :=
  let '(error, ctx) := take_error (op_ctx self) in
  let self := with_op_ctx ctx self in
  match error with
  | Err e => Some (Err (OpError_from_context e), self)
  | Ok _ =>
      let? (exec_result, ctx) := output ctx frame_result in
      let exec_result := map_haltreason_base exec_result in
      let self := with_op_ctx ctx self in
      if OpExecutionResult_is_halt exec_result && op_is_deposit self && op_is_regolith self
      then Some (Err (OpError_Transaction HaltedDepositPostRegolith), self)
      else
        let self := with_op_ctx (with_journal (Journal_commit_tx (ctx_journaled_state (op_ctx self))) (op_ctx self)) self in
        Some (Ok exec_result, op_cleanup self)
  end.

(** A deposit that failed: undo it, bump the nonce and mint. *)
Definition op_fail_deposit self : option (result OpExecutionResult (OpError E) * OpEvm) :=
  let tx := ctx_tx (op_ctx self) in
  let? journal := Journal_checkpoint_revert (mkJournalCheckpoint 0 0) (ctx_journaled_state (op_ctx self)) in
  let self := with_op_ctx (with_journal journal (op_ctx self)) self in
  run! (load, self) :=
    in_op_ctx (try_db (Journal_load_account_mut (tx_caller tx) journal) (op_ctx self)) self in
  let acc := (JournaledAccount_bump_nonce (data load)).2 in
  let acc := (JournaledAccount_incr_balance (default 0 (OpTransaction_mint (op_tx self))) acc).2 in
  let journal := Journal_commit_tx (Journal_write_back acc (ctx_journaled_state (op_ctx self))) in
  let self := with_op_ctx (with_journal journal (op_ctx self)) self in
  let gas_used := if op_is_regolith self || negb (OpTransaction_is_system_transaction (op_tx self))
                  then tx_gas_limit tx else 0 in
  Some (Ok (Op_Halt FailedDeposit gas_used), self).

(** An error of the database in [op_fail_deposit] is returned before the cleanup. *)
Definition op_catch_error self (error : OpError E) : option (result OpExecutionResult (OpError E) * OpEvm) :=
  if is_tx_error error && op_is_deposit self then
    run! (output, self) := op_fail_deposit self in
    Some (Ok output, op_cleanup self)
  else Some (Err error, op_cleanup self).

(** * The whole transaction *)

Definition op_run_without_catch_error (arrival : list Auth -> list Auth) (steps fuel : nat) self
    : outcome (result OpExecutionResult (OpError E) * OpEvm) :=
  match op_validate self with
  | None => Panicked
  | Some (Err e) => Done (Err e, self)
  | Some (Ok init_and_floor_gas) =>
      go! (eip7702_refund, self) := of_option (op_pre_execution arrival self) in
      go! (exec_result, self) := op_execution steps fuel self init_and_floor_gas in
      go! (exec_result, self) :=
        of_option (op_post_execution self exec_result init_and_floor_gas (signed 64 eip7702_refund)) in
      of_option (op_execution_result self exec_result)
  end.

Definition op_catching (m : outcome (result OpExecutionResult (OpError E) * OpEvm))
    : outcome (result OpExecutionResult (OpError E) * OpEvm) :=
  match m with
  | Done (Ok output, self) => Done (Ok output, self)
  | Done (Err e, self) => of_option (op_catch_error self e)
  | Out_of_fuel => Out_of_fuel
  | Panicked => Panicked
  end.

Definition op_run (arrival : list Auth -> list Auth) (steps fuel : nat) self
    : outcome (result OpExecutionResult (OpError E) * OpEvm) :=
  op_catching (op_run_without_catch_error arrival steps fuel self).

Definition op_run_system_call (steps fuel : nat) self : outcome (result OpExecutionResult (OpError E) * OpEvm) :=
  op_catching (
    go! (exec_result, self) := op_execution steps fuel self (mkInitialAndFloorGas 0 0) in
    of_option (op_execution_result self exec_result)).

(** * The interface ([api/exec.rs]) *)

Definition op_transact_one (arrival : list Auth -> list Auth) (steps fuel : nat) self (tx : OpTransaction Auth)
    : outcome (result OpExecutionResult (OpError E) * OpEvm) :=
  op_run arrival steps fuel (OpEvm_set_tx tx self).

Definition op_finalize self : EvmState * OpEvm :=
  let '(state, journal) := Journal_finalize (ctx_journaled_state (op_ctx self)) in
  (state, with_op_ctx (with_journal journal (op_ctx self)) self).

Definition op_replay (arrival : list Auth -> list Auth) (steps fuel : nat) self
    : outcome (result (OpExecutionResult * EvmState) (OpError E) * OpEvm) :=
  go! (result, self) := op_run arrival steps fuel self in
  let '(state, self) := op_finalize self in
  Done (Ok (result, state), self).

Definition op_system_call_one_with_caller (steps fuel : nat) self (caller system_contract_address : Z) (data : list Z)
    : outcome (result OpExecutionResult (OpError E) * OpEvm) :=
  match OpTransaction_new_system_tx_with_caller caller system_contract_address data with
  | None => Panicked
  | Some tx => op_run_system_call steps fuel (OpEvm_set_tx tx self)
  end.
End OpHandler.
