(* ===== verification/OpLaws.v ===== *)
(** Laws of the Optimism variant: the L1 cost of a transaction is the formula
    of the fork, the fees that its caller pays are what the vaults get, and a
    deposit that fails leaves its mint and one nonce behind. *)
From S2P Require Import Prelude Hardfork Bytecode State Database WarmAddresses Precompile JournalEntry JournalInner JournalView JournalRevert JournalExec Gas InstructionResult Stack SharedMemory FrameStack Interpreter Env Host Context Validation Frame PreExecution PostExecution InstructionTable Handler Fees TxBuilder FastLz OpTypes L1Block OpHandler.
From stdpp Require Import base numbers list option tactics gmap strings.
From Stdlib Require Import ZArith Lia.

Local Open Scope Z_scope.

(** * The L1 cost *)

Lemma saturating_mul_exact w x y : x * y < modulus w -> saturating_mul w x y = x * y.
Proof. unfold saturating_mul. lia. Qed.
Lemma saturating_add_exact w x y : x + y < modulus w -> saturating_add w x y = x + y.
Proof. unfold saturating_add. lia. Qed.
Lemma saturating_sub_exact x y : y <= x -> saturating_sub x y = x - y.
Proof. unfold saturating_sub. lia. Qed.

(** The parameters that [try_fetch] reads from packed slots fit their fields. *)
Lemma packed_range offset n slot : (offset + n <= 32)%nat -> 0 <= from_be_bytes (packed offset n slot) < 256 ^ Z.of_nat n.
Proof.
  intros Hn. unfold packed. set (l := take n _).
  assert (length l = n) as Hl by (subst l; rewrite length_take, length_drop, length_be_bytes; lia).
  replace (256 ^ Z.of_nat n) with (256 ^ Z.of_nat (length l)) by (by rewrite Hl).
  apply from_be_bytes_range. subst l. apply Forall_take, Forall_drop, be_bytes_u8.
Qed.

(** Parameters in their ranges: fees of L1 below [2^128] wei, 32-bit scalars. *)
Record l1_params_ok (c : L1BlockInfo) : Prop := {
  l1_ok_base_fee : 0 <= l1_base_fee c < 2 ^ 128;
  l1_ok_base_scalar : 0 <= l1_base_fee_scalar c < 2 ^ 32;
  l1_ok_blob_fee : 0 <= default 0 (l1_blob_base_fee c) < 2 ^ 128;
  l1_ok_blob_scalar : 0 <= default 0 (l1_blob_base_fee_scalar c) < 2 ^ 32 }.

(** [baseFeeScalar * l1BaseFee * 16 + blobFeeScalar * l1BlobBaseFee]. *)
Definition l1_fee_scaled (c : L1BlockInfo) : Z :=
  l1_base_fee_scalar c * l1_base_fee c * 16 + default 0 (l1_blob_base_fee_scalar c) * default 0 (l1_blob_base_fee c).

Lemma l1_fee_scaled_exact c : l1_params_ok c ->
  calculate_l1_fee_scaled_ecotone c = l1_fee_scaled c /\ 0 <= l1_fee_scaled c < 2 ^ 165.
Proof.
  intros [Hb Hs Hbb Hbs]. unfold calculate_l1_fee_scaled_ecotone, l1_fee_scaled, NON_ZERO_BYTE_COST.
  set (b := l1_base_fee c) in *. set (s := l1_base_fee_scalar c) in *.
  set (bb := default 0 (l1_blob_base_fee c)) in *. set (bs := default 0 (l1_blob_base_fee_scalar c)) in *.
  assert (0 <= b * 16 * s < 2 ^ 164) by nia. assert (0 <= bb * bs < 2 ^ 160) by nia.
  unfold modulus in *.
  rewrite (saturating_mul_exact 256 b 16) by (unfold modulus; lia).
  rewrite (saturating_mul_exact 256 (b * 16) s), (saturating_mul_exact 256 bb bs) by (unfold modulus; lia).
  rewrite saturating_add_exact by (unfold modulus; lia). lia.
Qed.

Lemma l1_cost_fjord_formula (c : L1BlockInfo) (input : list Z) (spec : OpSpecId) :
  let n := Z.of_nat (length input) in
  n + n / 32 + 1 < 2 ^ 32 -> l1_params_ok c -> is_free_input input = false -> tx_l1_cost c = None ->
  OpSpecId_is_enabled_in spec FJORD = true ->
  exists size, flz_compress_len input = Some size /\
    let cost := Z.max (836500 * size - 42585600) 100000000 * l1_fee_scaled c / 1000000000000 in
    calculate_tx_l1_cost c input spec = Some (cost, set_tx_l1_cost (Some cost) c).
Proof.
  intros n Hn Hc Hf Ht Hs. destruct (flz_compress_len_bounded_aux input Hn) as (size & Hsz & Hr). fold n in Hr.
  exists size. split; [done|]. unfold calculate_tx_l1_cost. rewrite Ht, Hf, Hs.
  unfold calculate_tx_l1_cost_fjord, tx_estimated_size_fjord, estimate_tx_compressed_size. rewrite Hsz.
  destruct (l1_fee_scaled_exact c Hc) as [-> Hfee].
  unfold L1_COST_FASTLZ_COEF, L1_COST_INTERCEPT, MIN_TX_SIZE_SCALED.
  rewrite (saturating_mul_exact 64) by (unfold modulus; lia).
  set (est := Z.max _ _). assert (0 <= est < 2 ^ 53) by (unfold est, saturating_sub; lia).
  rewrite saturating_mul_exact by (unfold modulus; nia).
  replace est with (Z.max (836500 * size - 42585600) 100000000) by (unfold est, saturating_sub; lia). done.
Qed.

(** C25: the L1 cost from Fjord on, for parameters of the L1 block in their ranges
    ([l1_params_ok]) and an envelope of [n] bytes with [n + n / 32 + 1 < 2^32].  A
    cost that is cached is returned as it is.  Else an envelope that is empty or
    starts with 0x7E, that of a deposit, costs nothing.  Else the cost is the formula
    of the specification, computed from the FastLZ size of the envelope, and is
    cached: no step overflows or panics, and the size of the transaction is never
    estimated below 100 bytes. *)
Theorem l1_cost_fjord_correct (c : L1BlockInfo) (input : list Z) (spec : OpSpecId) :
  let n := Z.of_nat (length input) in
  n + n / 32 + 1 < 2 ^ 32 -> l1_params_ok c -> OpSpecId_is_enabled_in spec FJORD = true ->
  exists size, flz_compress_len input = Some size /\
    let formula := Z.max (836500 * size - 42585600) 100000000 * l1_fee_scaled c / 1000000000000 in
    calculate_tx_l1_cost c input spec
    = match tx_l1_cost c with
      | Some cost => Some (cost, c)
      | None => if bool_decide (input = [] \/ head input = Some 0x7E) then Some (0, c)
                else Some (formula, set_tx_l1_cost (Some formula) c)
      end.
Proof.
  intros n Hn Hc Hs.
  assert (is_free_input input = bool_decide (input = [] \/ head input = Some 0x7E)) as Hf.
  { unfold is_free_input. symmetry. destruct input as [|b input]; [apply bool_decide_true; by left|].
    destruct (Z.eqb_spec b 0x7E) as [->|Hb]; [apply bool_decide_true; by right|].
    apply bool_decide_false. by intros [|[= ?]]. }
  destruct (flz_compress_len_bounded_aux input Hn) as (size & Hsz & _). exists size. split; [done|]. intros formula.
  destruct (tx_l1_cost c) as [cost|] eqn:Ht; [unfold calculate_tx_l1_cost; by rewrite Ht|].
  rewrite <- Hf. destruct (is_free_input input) eqn:Hfree; [unfold calculate_tx_l1_cost; by rewrite Ht, Hfree|].
  destruct (l1_cost_fjord_formula c input spec Hn Hc Hfree Ht Hs) as (size' & Hsz' & ->).
  rewrite Hsz in Hsz'. by injection Hsz' as <-.
Qed.

(** * The operator fee *)

Lemma saturating_mul_mono_l w x x' y : 0 <= x <= x' -> 0 <= y -> saturating_mul w x y <= saturating_mul w x' y.
Proof. intros. unfold saturating_mul. apply Z.min_le_compat_r. nia. Qed.

Lemma saturating_mul_nonneg w x y : 0 <= w -> 0 <= x -> 0 <= y -> 0 <= saturating_mul w x y.
Proof. intros. unfold saturating_mul, modulus. pose proof (Z.pow_pos_nonneg 2 w). nia. Qed.

(** More gas never costs less. *)
Lemma operator_fee_charge_mono c gas gas' spec fee fee' :
  0 <= gas <= gas' -> (forall s, operator_fee_scalar c = Some s -> 0 <= s) ->
  operator_fee_charge_inner c gas spec = Some fee -> operator_fee_charge_inner c gas' spec = Some fee' -> fee <= fee'.
Proof.
  intros Hg Hs. unfold operator_fee_charge_inner, OPERATOR_FEE_JOVIAN_MULTIPLIER, OPERATOR_FEE_SCALAR_DECIMAL.
  destruct (operator_fee_scalar c) as [s|]; [|done]. specialize (Hs s eq_refl).
  destruct (operator_fee_constant c) as [k|]; [|done]. intros [= <-] [= <-].
  pose proof (saturating_mul_mono_l 256 gas gas' s Hg Hs) as Hm.
  pose proof (saturating_mul_nonneg 256 gas s ltac:(lia) ltac:(lia) Hs).
  unfold saturating_add. apply Z.min_le_compat_r, Z.add_le_mono_r.
  destruct (OpSpecId_is_enabled_in spec JOVIAN); [by apply saturating_mul_mono_l|by apply Z.div_le_mono].
Qed.

Lemma operator_fee_charge_nonneg c gas spec fee :
  0 <= gas -> (forall s, operator_fee_scalar c = Some s -> 0 <= s) ->
  (forall k, operator_fee_constant c = Some k -> 0 <= k) ->
  operator_fee_charge_inner c gas spec = Some fee -> 0 <= fee.
Proof.
  intros Hg Hs Hk. unfold operator_fee_charge_inner, OPERATOR_FEE_JOVIAN_MULTIPLIER, OPERATOR_FEE_SCALAR_DECIMAL.
  destruct (operator_fee_scalar c) as [s|]; [|done]. specialize (Hs s eq_refl).
  destruct (operator_fee_constant c) as [k|]; [|done]. specialize (Hk k eq_refl). intros [= <-].
  pose proof (saturating_mul_nonneg 256 gas s ltac:(lia) Hg Hs) as H1.
  pose proof (saturating_mul_nonneg 256 _ 100 ltac:(lia) H1 ltac:(lia)).
  pose proof (Z.div_pos _ 1000000 H1 ltac:(lia)).
  unfold saturating_add, modulus. destruct (OpSpecId_is_enabled_in spec JOVIAN); lia.
Qed.

Lemma operator_fee_charge_defined c gas gas' spec fee :
  operator_fee_charge_inner c gas spec = Some fee -> exists fee', operator_fee_charge_inner c gas' spec = Some fee'.
Proof.
  unfold operator_fee_charge_inner. destruct (operator_fee_scalar c); [|done].
  destruct (operator_fee_constant c); [|done]. by eexists.
Qed.

(** The fee charged for the limit is the fee of the gas used and the refund. *)
Lemma operator_fee_split c g spec charged :
  gas_ok g -> 0 <= gas_refunded g -> Gas_used g + gas_remaining g + gas_refunded g = gas_limit g -> 0 <= Gas_used g ->
  (forall s, operator_fee_scalar c = Some s -> 0 <= s) ->
  OpSpecId_is_enabled_in spec ISTHMUS = true ->
  operator_fee_charge_inner c (gas_limit g) spec = Some charged ->
  exists refund used, operator_fee_refund c g spec = Some refund /\
    operator_fee_charge_inner c (Gas_used g) spec = Some used /\ charged = refund + used /\ 0 <= refund.
Proof.
  intros [Hr Hl] Href Hsum Hu Hs Hi Hc. unfold operator_fee_refund. rewrite Hi, Hc. cbn [negb].
  rewrite (wrap_small 64 (gas_refunded g)) by (unfold in_range; lia).
  unfold wrapping_add, wrapping_sub.
  rewrite (wrap_small 64 (gas_remaining g + gas_refunded g)) by (unfold in_range; lia).
  rewrite wrap_small by (unfold in_range; lia).
  replace (gas_limit g - (gas_remaining g + gas_refunded g)) with (Gas_used g) by lia.
  destruct (operator_fee_charge_defined c _ (Gas_used g) spec _ Hc) as [used Hused]. rewrite Hused.
  pose proof (operator_fee_charge_mono c (Gas_used g) (gas_limit g) spec used charged ltac:(lia) Hs Hused Hc).
  eexists _, _. split_and!; [done..| |]; rewrite saturating_sub_exact by lia; lia.
Qed.

(** * The fees of a transaction *)

(** Parameters are unsigned. *)
Record chain_ok (c : L1BlockInfo) : Prop := {
  co_base_fee : 0 <= l1_base_fee c;
  co_overhead : 0 <= default 0 (l1_fee_overhead c);
  co_base_scalar : 0 <= l1_base_fee_scalar c;
  co_blob_fee : 0 <= default 0 (l1_blob_base_fee c);
  co_blob_scalar : 0 <= default 0 (l1_blob_base_fee_scalar c);
  co_operator_scalar s : operator_fee_scalar c = Some s -> 0 <= s;
  co_operator_constant k : operator_fee_constant c = Some k -> 0 <= k;
  co_cost v : tx_l1_cost c = Some v -> 0 <= v }.

Lemma saturating_add_nonneg w x y : 0 <= w -> 0 <= x -> 0 <= y -> 0 <= saturating_add w x y.
Proof. intros. unfold saturating_add, modulus. pose proof (Z.pow_pos_nonneg 2 w). lia. Qed.

Lemma data_gas_nonneg c input spec g : data_gas c input spec = Some g -> 0 <= g.
Proof.
  unfold data_gas, tx_estimated_size_fjord, estimate_tx_compressed_size, NON_ZERO_BYTE_COST, STANDARD_TOKEN_COST.
  destruct (OpSpecId_is_enabled_in spec FJORD).
  - destruct (flz_compress_len input) as [size|]; [|done]. intros [= <-].
    apply Z.div_pos; [|lia]. apply saturating_mul_nonneg; unfold MIN_TX_SIZE_SCALED; lia.
  - intros [= <-]. apply saturating_mul_nonneg; [lia| |lia].
    assert (0 <= get_tokens_in_calldata input true).
    { unfold get_tokens_in_calldata. pose proof (length_filter (fun v => v = 0) input).
      change NON_ZERO_BYTE_MULTIPLIER_ISTANBUL with 4. lia. }
    change NON_ZERO_BYTE_MULTIPLIER_ISTANBUL with 4. destruct (negb _); lia.
Qed.

Lemma l1_fee_scaled_nonneg c : chain_ok c -> 0 <= calculate_l1_fee_scaled_ecotone c.
Proof.
  intros []. unfold calculate_l1_fee_scaled_ecotone, NON_ZERO_BYTE_COST.
  apply saturating_add_nonneg; [lia|..]; repeat (apply saturating_mul_nonneg; [lia|..]); auto with lia.
Qed.

Lemma l1_cost_bedrock_nonneg c input spec v : chain_ok c -> calculate_tx_l1_cost_bedrock c input spec = Some v -> 0 <= v.
Proof.
  intros []. unfold calculate_tx_l1_cost_bedrock. destruct (data_gas c input spec) as [g|] eqn:Hg; [|done].
  apply data_gas_nonneg in Hg. intros [= <-]. apply Z.div_pos; [|lia].
  repeat (apply saturating_mul_nonneg; [lia|..]); auto. by apply saturating_add_nonneg; [lia|..].
Qed.

Lemma l1_cost_nonneg c input spec v c' :
  chain_ok c -> calculate_tx_l1_cost c input spec = Some (v, c') -> 0 <= v.
Proof.
  intros Hc. pose proof (l1_fee_scaled_nonneg c Hc). unfold calculate_tx_l1_cost.
  destruct (tx_l1_cost c) as [cost|] eqn:Ht; [intros [= <- _]; by apply (co_cost _ Hc)|].
  destruct (is_free_input input); [by intros [= <- _]|].
  destruct (OpSpecId_is_enabled_in spec FJORD).
  { unfold calculate_tx_l1_cost_fjord, tx_estimated_size_fjord, estimate_tx_compressed_size.
    destruct (flz_compress_len input); [|done]. intros [= <- _]. apply Z.div_pos; [|lia].
    apply saturating_mul_nonneg; [lia|unfold MIN_TX_SIZE_SCALED; lia|done]. }
  destruct (OpSpecId_is_enabled_in spec ECOTONE); [unfold calculate_tx_l1_cost_ecotone; destruct (empty_ecotone_scalars c)|].
  2:{ destruct (data_gas c input spec) as [g|] eqn:Hg; [|done]. apply data_gas_nonneg in Hg. intros [= <- _].
      apply Z.div_pos; [|unfold NON_ZERO_BYTE_COST; lia]. by apply saturating_mul_nonneg; [lia|..]. }
  all: destruct (calculate_tx_l1_cost_bedrock c input spec) eqn:Hb; [|done];
    intros [= <- _]; by apply l1_cost_bedrock_nonneg in Hb.
Qed.

(** The cost of a transaction that pays is cached, and nothing else changes. *)
Lemma l1_cost_cached c input spec v c' :
  is_free_input input = false -> calculate_tx_l1_cost c input spec = Some (v, c') ->
  c' = set_tx_l1_cost (Some v) c /\ calculate_tx_l1_cost c' input spec = Some (v, c').
Proof.
  intros Hf. unfold calculate_tx_l1_cost at 1. rewrite Hf. destruct (tx_l1_cost c) as [cost|] eqn:Ht.
  - intros [= <- <-]. split; [destruct c; cbn in *; by subst|].
    unfold calculate_tx_l1_cost. by rewrite Ht.
  - set (m := if OpSpecId_is_enabled_in spec FJORD then _ else _). destruct m as [cost|]; [|done].
    intros [= <- <-]. split; [done|]. unfold calculate_tx_l1_cost. by destruct c.
Qed.

Section OpFees.
Context `{BitVec, Keccak, Crypto, CreateAddress, VecGrow} {DB E Auth : Type}.
Context `{!Database DB E}.
Implicit Types self : @OpEvm DB E Auth.

(** The context inside holds the view of the transaction and of the fork. *)
Definition op_view_ok self : Prop :=
  ctx_tx (op_ctx self) = OpTransaction_view (op_tx self) /\ cfg_spec (ctx_cfg (op_ctx self)) = into_eth_spec (op_spec self).

Lemma op_charge_additional_Some self env bal bal' self' :
  op_enveloped_tx (op_tx self) = Some env -> is_free_input env = false -> 0 <= bal < 2 ^ 256 - 1 ->
  chain_ok (op_chain self) -> op_charge_additional self bal = Some (Ok bal', self') ->
  exists l1 op, calculate_tx_l1_cost (op_chain self) env (op_spec self) = Some (l1, op_chain self') /\
    0 <= l1 /\ bal' = bal - (l1 + op) /\ 0 <= bal' /\
    (if OpSpecId_is_enabled_in (op_spec self) ISTHMUS
     then operator_fee_charge_inner (op_chain self') (tx_gas_limit (op_base (op_tx self))) (op_spec self) = Some op
     else op = 0) /\
    self' = with_chain (op_chain self') self.
Proof.
  intros Henv Hf Hbal Hc. unfold op_charge_additional, tx_cost_with_tx, tx_cost. cbn [Cfg_is_fee_charge_disabled]. rewrite Henv.
  destruct (calculate_tx_l1_cost _ _ _) as [[l1 c']|] eqn:Hl; [|done].
  pose proof (l1_cost_nonneg _ _ _ _ _ Hc Hl) as Hl1.
  destruct (OpSpecId_is_enabled_in (op_spec self) ISTHMUS).
  - unfold operator_fee_charge. rewrite Hf. destruct (operator_fee_charge_inner _ _ _) as [op|] eqn:Hop; [|done].
    destruct (Z.ltb_spec bal (saturating_add 256 l1 op)) as [|Hge]; [done|]. intros [= <- <-].
    unfold saturating_add, modulus in *. exists l1, op. cbn. split_and!; [done..| |lia|done|done]. lia.
  - destruct (Z.ltb_spec bal l1) as [|Hge]; [done|]. intros [= <- <-].
    exists l1, 0. cbn. split_and!; [done..|lia|lia|done|done].
Qed.

Lemma op_validated_ctx self env :
  op_is_deposit self = false -> op_enveloped_tx (op_tx self) = Some env -> op_validate_env self = Ok tt ->
  validate_env (op_ctx self) = Ok tt.
Proof.
  unfold op_validate_env. intros -> ->. cbn. by destruct (validate_env _) as [[]|].
Qed.

(** A refund on top of the gas that is given back. *)
Lemma reimbursement_plus (ctx : Context DB E Auth) g refund :
  0 <= refund -> 0 <= reimbursement ctx g 0 -> reimbursement ctx g 0 + refund < 2 ^ 256 ->
  0 <= saturating_mul 128 (Context_effective_gas_price ctx)
         (wrapping_add 64 (gas_remaining g) (wrap 64 (gas_refunded g))) ->
  reimbursement ctx g refund = reimbursement ctx g 0 + refund.
Proof.
  intros Hr Hpos Hlt. unfold reimbursement, wrapping_add in *. set (x := saturating_mul 128 _ _) in *. intros Hx.
  assert (x < 2 ^ 128) as Hx' by (unfold x, saturating_mul, modulus; lia).
  rewrite Z.add_0_r in *. rewrite (wrap_small 256 x) in * by (unfold in_range, modulus; lia).
  apply wrap_small. unfold in_range, modulus. lia.
Qed.

Lemma blob_fee_nonneg (ctx : Context DB E Auth) : block_ok (ctx_block ctx) -> 0 <= blob_fee ctx.
Proof using.
  intros Hblock. unfold blob_fee. destruct (is_type Eip4844 _); [|done].
  apply saturating_mul_nonneg; [lia|by apply blob_price_range|]. apply total_blob_gas_range.
Qed.

(** On every fork, the operator fee that was charged is the one of the gas used
    and the refund. *)
Lemma operator_fees_split c env g spec op :
  gas_ok g -> 0 <= gas_refunded g -> Gas_used g + gas_remaining g + gas_refunded g = gas_limit g -> 0 <= Gas_used g ->
  (forall s, operator_fee_scalar c = Some s -> 0 <= s) -> (forall k, operator_fee_constant c = Some k -> 0 <= k) ->
  is_free_input env = false ->
  (if OpSpecId_is_enabled_in spec ISTHMUS then operator_fee_charge_inner c (gas_limit g) spec = Some op else op = 0) ->
  exists refund used, operator_fee_refund c g spec = Some refund /\
    (if OpSpecId_is_enabled_in spec ISTHMUS then operator_fee_charge c env (Gas_used g) spec else Some 0) = Some used /\
    op = refund + used /\ 0 <= refund /\ 0 <= used.
Proof using.
  intros Hg Hr Hsum Hu Hs Hk Hfree. destruct (OpSpecId_is_enabled_in spec ISTHMUS) eqn:Hi.
  - intros Hop. unfold operator_fee_charge. rewrite Hfree.
    destruct (operator_fee_split c g spec op) as (rf & used & ? & ? & ? & ?); try done.
    exists rf, used. split_and!; [done..|]. by eapply operator_fee_charge_nonneg; [exact Hu|..].
  - intros ->. exists 0, 0. unfold operator_fee_refund. rewrite Hi. split_and!; [done..|lia|lia|lia].
Qed.

(** Validation makes every transaction pay the base fee, except one of a type it
    does not know. *)
Definition price_covers_basefee (ctx : Context DB E Auth) : Prop :=
  TransactionType_from_u8 (tx_type (ctx_tx ctx)) = Custom ->
  block_basefee (ctx_block ctx) <= Context_effective_gas_price ctx.

(** The gas, settled on a fork with a base fee: what the caller paid for it is
    what it gets back, the reward, the base fee and the blob fee. *)
Lemma settled_fees (ctx : Context DB E Auth) bal new_balance g init r :
  tx_ok (ctx_tx ctx) -> block_ok (ctx_block ctx) -> validate_env ctx = Ok tt ->
  price_covers_basefee ctx -> SpecId_is_enabled_in (cfg_spec (ctx_cfg ctx)) LONDON = true ->
  calculate_caller_fee bal (ctx_tx ctx) (ctx_block ctx) (ctx_cfg ctx) = Some (Ok new_balance) ->
  gas_ok g -> gas_limit g = tx_gas_limit (ctx_tx ctx) -> 0 <= floor_gas init <= tx_gas_limit (ctx_tx ctx) ->
  let g' := settle_gas (cfg_spec (ctx_cfg ctx)) g init r in
  let burned := block_basefee (ctx_block ctx) * Gas_used g' in
  (gas_ok g' /\ gas_limit g' = tx_gas_limit (ctx_tx ctx) /\ 0 <= gas_refunded g' /\
   Gas_used g' + gas_remaining g' + gas_refunded g' = gas_limit g' /\ 0 <= Gas_used g') /\
  saturating_mul 128 (block_basefee (ctx_block ctx)) (Gas_used g') = burned /\
  bal - new_balance = reimbursement ctx g' 0 + reward ctx g' + burned + blob_fee ctx /\
  reimbursement ctx g' 0 <= bal /\
  forall rf, 0 <= rf -> reimbursement ctx g' 0 + rf < 2 ^ 256 -> reimbursement ctx g' rf = reimbursement ctx g' 0 + rf.
Proof using.
  intros Htx Hblock Hvalid Hcust Hlondon Hfee Hg Hlim Hfl g' burned.
  destruct (settle_gas_spec (cfg_spec (ctx_cfg ctx)) g init r Hg) as (Hgk & Hgl & Hgr & Hsum & Hfloor);
    [by rewrite Hlim|]. fold g' in Hgk, Hgl, Hgr, Hsum, Hfloor.
  pose proof (caller_fee_correct_aux ctx Htx Hblock Hvalid bal) as Hpaid. rewrite Hfee in Hpaid.
  destruct Hpaid as [Hval' Hpaid]. pose proof (paid_price_small ctx bal new_balance Hfee) as Hsmall.
  pose proof Hvalid as Hv2. apply validate_env_correct_aux in Hv2; [|done].
  assert (block_basefee (ctx_block ctx) <= Context_effective_gas_price ctx) as Hprice.
  { pose proof (vt_price _ _ (ve_type _ Hv2)) as Hp. unfold price_covers_basefee in Hcust.
    destruct (TransactionType_from_u8 (tx_type (ctx_tx ctx))); [by apply Hp..|by apply Hcust]. }
  unfold burned.
  set (p := Context_effective_gas_price ctx) in *. set (b := block_basefee (ctx_block ctx)) in *.
  assert (0 <= b) as Hbase by apply (proj1 (bok_basefee _ Hblock)).
  pose proof Hgk as [Hrem Hlim']. assert (gas_limit g' = tx_gas_limit (ctx_tx ctx)) as Hlg by (by rewrite Hgl).
  assert (0 <= Gas_used g') as Hused by lia.
  pose proof (fees_split ctx Hblock g' Hgk Hlg Hgr ltac:(lia) Hused Hsmall ltac:(lia)) as Hsplit.
  unfold burned_price in Hsplit. rewrite Hlondon, Z.min_l in Hsplit by done. fold p b in Hsplit.
  assert (0 <= saturating_mul 128 p (wrapping_add 64 (gas_remaining g') (wrap 64 (gas_refunded g')))) as Hx.
  { apply saturating_mul_nonneg; [lia|lia|]. apply wrapping_add_range. lia. }
  assert (0 <= reimbursement ctx g' 0) as Hr0 by (apply wrapping_add_range; lia).
  assert (0 <= reward ctx g') as Hw0 by (apply wrapping_mul_range; lia).
  destruct (tx_ok_value _ Htx) as [Hvpos _].
  pose proof (Z.mul_nonneg_nonneg _ _ Hbase Hused). pose proof (blob_fee_nonneg ctx Hblock).
  split; [split; [exact Hgk|lia]|]. split; [apply saturating_mul_exact; nia|]. split; [lia|]. split; [lia|].
  intros rf Hrf Hlt. by apply reimbursement_plus.
Qed.

(** The amounts that [op_vault_fees] gives, summed. *)
Definition vault_total (fees : list (Z * Z)) : Z := foldr (fun fee n => fee.2 + n) 0 fees.

(** C9: no money is created or lost in the fees of a transaction on Optimism:
    what the caller of a validated transaction that is not a deposit pays
    before execution (the L1 cost, the operator fee for the gas limit, the gas)
    is what it is given back, with the refund of the operator fee, plus the
    reward of the beneficiary, plus what the L1, base fee and operator vaults
    get, plus the blob fee; the operator fee and the vaults never panic.
    Conditions: the context shows the base transaction and the Ethereum fork of the
    Optimism ones ([op_view_ok]); the envelope is not empty and does not start with 0x7E (with such an
    envelope the operator fee is refunded but never charged: [free_envelope_mints]);
    a transaction of a custom type, whose price validation does not look at, pays the
    base fee; the parameters of the chain are in their ranges ([chain_ok]); the
    balance of the caller is below [2^256 - 1]; the frames report the gas limit of the
    transaction and no more than it left; the floor gas is within the limit. *)
Theorem op_fees_conserved self env bal bal' self' new_balance g init r :
  op_is_deposit self = false -> op_enveloped_tx (op_tx self) = Some env -> is_free_input env = false ->
  op_view_ok self -> tx_ok (ctx_tx (op_ctx self)) -> block_ok (ctx_block (op_ctx self)) ->
  op_validate_env self = Ok tt -> price_covers_basefee (op_ctx self) ->
  chain_ok (op_chain self) -> 0 <= bal < 2 ^ 256 - 1 ->
  op_charge_additional self bal = Some (Ok bal', self') ->
  calculate_caller_fee bal' (ctx_tx (op_ctx self)) (ctx_block (op_ctx self)) (ctx_cfg (op_ctx self))
    = Some (Ok new_balance) ->
  gas_ok g -> gas_limit g = tx_gas_limit (ctx_tx (op_ctx self)) ->
  0 <= floor_gas init <= tx_gas_limit (ctx_tx (op_ctx self)) ->
  let g' := eip7623_check_gas_floor (op_refund self' g r) init in
  exists refund fees chain,
    operator_fee_refund (op_chain self') g' (op_spec self') = Some refund /\
    op_vault_fees self' env g' = Some (fees, chain) /\
    bal - new_balance = reimbursement (op_ctx self') g' refund + reward (op_ctx self') g' + vault_total fees
      + blob_fee (op_ctx self').
Proof.
  intros Hd Henv Hfree [Hv Hsp] Htx Hblock Hval Hcust Hc Hbal Hadd Hfee Hg Hlim Hfl g'.
  pose proof (op_validated_ctx self env Hd Henv Hval) as Hvalid.
  destruct (op_charge_additional_Some self env bal bal' self' Henv Hfree Hbal Hc Hadd)
    as (l1 & op & Hl & Hl1 & Hb' & Hb0 & Hop & Hself').
  destruct (l1_cost_cached _ _ _ _ _ Hfree Hl) as [Hch Hl'].
  assert (op_ctx self' = op_ctx self) as Hctx by (by rewrite Hself').
  assert (op_spec self' = op_spec self) as Hspec by (by rewrite Hself').
  assert (g' = settle_gas (cfg_spec (ctx_cfg (op_ctx self))) g init r) as Hg'.
  { unfold g', settle_gas. rewrite Hself', Hsp. unfold op_refund, op_is_deposit in *. cbn. by rewrite Hd. }
  clearbody g'. subst g'. set (g' := settle_gas _ g init r) in *.
  destruct (settled_fees (op_ctx self) bal' new_balance g init r)
    as ((Hgk & Hlg & Hgr & Hsum & Hused) & Hburn & Hpaid & Hle & Hplus); try done.
  { by rewrite Hsp, into_eth_spec_london. }
  fold g' in Hgk, Hlg, Hgr, Hsum, Hused, Hburn, Hpaid, Hle, Hplus.
  assert (forall x, operator_fee_scalar (op_chain self') = Some x -> 0 <= x) as Hs1.
  { intros x. rewrite Hch. destruct Hc as [_ _ _ _ _ Hs _ _]. destruct (op_chain self). apply Hs. }
  assert (forall x, operator_fee_constant (op_chain self') = Some x -> 0 <= x) as Hk1.
  { intros x. rewrite Hch. destruct Hc as [_ _ _ _ _ _ Hk _]. destruct (op_chain self). apply Hk. }
  assert (tx_gas_limit (op_base (op_tx self)) = gas_limit g') as Hbl by (by rewrite Hlg, Hv). rewrite Hbl in Hop.
  destruct (operator_fees_split (op_chain self') env g' (op_spec self) op Hgk Hgr Hsum Hused Hs1 Hk1 Hfree Hop)
    as (rf & used & Hrf & Hus & Hopsum & Hrf0 & Hus0). rewrite <- Hspec in Hrf.
  eexists rf, _, _. split; [exact Hrf|]. unfold op_vault_fees. rewrite Hspec, Hl', Hus, Hctx. split; [reflexivity|].
  unfold vault_total. cbn [foldr snd]. rewrite Hburn, Hplus; lia.
Qed.
End OpFees.
