(* ===== verification/OpDeposit.v ===== *)
(** A deposit that fails on Optimism ([catch_error] of [op-revm/src/handler.rs]):
    it is undone, except that its mint is kept and the nonce of its caller is
    bumped.  What a state means, whatever happens to be loaded, is given by
    [world_info] and [world_slot]. *)
From S2P Require Import Prelude Hardfork Bytecode State Database WarmAddresses Precompile JournalEntry JournalInner JournalView JournalRevert JournalExec Gas InstructionResult Stack SharedMemory FrameStack Interpreter Env Host Context Validation Frame PreExecution PostExecution InstructionTable Handler TxBuilder FastLz OpTypes L1Block OpHandler.
From stdpp Require Import base numbers list option tactics gmap strings.
From Stdlib Require Import ZArith Lia.

Local Open Scope Z_scope.

Section World.
Context `{BitVec, Keccak, JournalEnv, !JournalEnvLaws}.

(** * What a state means *)

(** Balance, nonce and code hash; [None] where the database fails. *)
Definition info_triple (i : AccountInfo) : Z * Z * Z := (balance i, nonce i, code_hash i).
Definition world_info (s : EvmState) (a : Z) : option (Z * Z * Z) :=
  match s !! a with
  | Some x => Some (info_triple (info x))
  | None => (fun x => info_triple (info x)) <$> db_account a
  end.
Definition world_slot (s : EvmState) (a k : Z) : option Z :=
  match s !! a with
  | Some x => (fun v => v.1.1) <$> slot_view a x k
  | None => te_storage a k
  end.

Lemma db_account_fresh a x :
  db_account a = Some x -> storage x = ∅ /\ status_contains (status x) Created = false.
Proof using.
  unfold db_account. destruct (te_basic a) as [[i|]|]; [| |done]; intros [= <-];
    destruct (WarmAddresses_is_cold te_warm a); unfold Account_from, Account_new_not_existing, Account_mark_cold; cbn;
    (split; [done|by status_simpl]).
Qed.

Lemma acc_le_info a x y : acc_le a x y -> info_triple (info x) = info_triple (info y).
Proof using.
  intros [V _]. unfold info_triple.
  pose proof (f_equal v_balance V). pose proof (f_equal v_nonce V). pose proof (f_equal v_code_hash V).
  cbn in *. congruence.
Qed.

(** States that mean the same for the revert mean the same here. *)
Lemma state_le_world s1 s2 a k :
  state_le s1 s2 -> world_info s1 a = world_info s2 a /\ world_slot s1 a k = world_slot s2 a k.
Proof using.
  intros Hle. specialize (Hle a). unfold world_info, world_slot. destruct (s2 !! a) as [y|].
  - destruct Hle as (x & -> & Hxy). rewrite (acc_le_info _ _ _ Hxy), (proj1 (proj2 Hxy k)). done.
  - destruct (s1 !! a) as [x|]; [|done]. destruct (Hle x eq_refl) as (y & Hy & Hxy).
    rewrite Hy, (acc_le_info _ _ _ Hxy), (proj1 (proj2 Hxy k)). split; [done|].
    destruct (db_account_fresh a y Hy) as [Hst Hc]. unfold slot_view. rewrite Hst, lookup_empty, Hc.
    by destruct (te_storage a k).
Qed.

(** An account that is put where one with the same storage was. *)
Lemma world_insert s a x b k :
  storage x = default ∅ (storage <$> s !! a) ->
  status_contains (status x) Created = default false ((fun y => status_contains (status y) Created) <$> s !! a) ->
  world_info (<[a := x]> s) b = (if decide (b = a) then Some (info_triple (info x)) else world_info s b) /\
  world_slot (<[a := x]> s) b k = world_slot s b k.
Proof using.
  intros Hs Hc. unfold world_info, world_slot. case_decide as Hb.
  - subst b. rewrite lookup_insert_eq. split; [done|]. unfold slot_view. rewrite Hs, Hc.
    destruct (s !! a) as [y|]; cbn; [done|]. rewrite lookup_empty. by destruct (te_storage a k).
  - by rewrite lookup_insert_ne by congruence.
Qed.

(** * The caller of a failed deposit *)

Definition minted (mint : Z) (i : Z * Z * Z) : Z * Z * Z :=
  let '(b, n, c) := i in (default b (checked_add 256 b mint), default n (checked_add 64 n 1), c).

Definition mint_account (mint : Z) (ja : JournaledAccount) : JournaledAccount :=
  (JournaledAccount_incr_balance mint (JournaledAccount_bump_nonce ja).2).2.

(** What [bump_nonce] and [incr_balance] keep of an account. *)
Definition same_shape (ja ja' : JournaledAccount) : Prop :=
  ja_address ja' = ja_address ja /\ storage (ja_account ja') = storage (ja_account ja) /\
  status_contains (status (ja_account ja')) Created = status_contains (status (ja_account ja)) Created.

Lemma touch_shape ja :
  same_shape ja (JournaledAccount_touch ja) /\
  info (ja_account (JournaledAccount_touch ja)) = info (ja_account ja).
Proof using.
  unfold JournaledAccount_touch, same_shape. destruct (negb _); [|done]. cbn.
  split; [split_and!; [done|done|by status_simpl]|done].
Qed.

Lemma mint_account_spec mint ja :
  same_shape ja (mint_account mint ja) /\
  info_triple (info (ja_account (mint_account mint ja))) = minted mint (info_triple (info (ja_account ja))).
Proof using.
  unfold mint_account, JournaledAccount_bump_nonce, JournaledAccount_incr_balance, JournaledAccount_set_balance.
  destruct (touch_shape ja) as [Hs Hi]. set (t := JournaledAccount_touch ja) in *. rewrite Hi.
  set (u := match checked_add 64 _ 1 with Some _ => _ | None => _ end.2).
  assert (same_shape ja u /\ info_triple (info (ja_account u)) =
    (balance (info (ja_account ja)), default (nonce (info (ja_account ja))) (checked_add 64 (nonce (info (ja_account ja))) 1),
     code_hash (info (ja_account ja)))) as [Hu Hui].
  { subst u. unfold info_triple. destruct (checked_add 64 _ 1); cbn; rewrite Hi; (split; [exact Hs|done]). }
  clearbody u. destruct (touch_shape u) as [Hv Hvi]. set (v := JournaledAccount_touch u) in *. rewrite Hvi.
  destruct (touch_shape v) as [Hw Hwi]. set (w := JournaledAccount_touch v) in *.
  assert (same_shape ja v) as Hjv by (destruct Hu as (? & ? & ?), Hv as (? & ? & ?); split_and!; congruence).
  assert (same_shape ja w) as Hjw by (destruct Hjv as (? & ? & ?), Hw as (? & ? & ?); split_and!; congruence).
  unfold info_triple, minted in *. injection Hui as Hb Hn Hc. rewrite Hb.
  destruct (checked_add 256 _ mint) as [m|]; cbn.
  - destruct (Z.eqb_spec (balance (info (ja_account w))) m) as [He|]; cbn; rewrite Hwi, Hvi, ?Hn, ?Hc in *;
      (split; [exact Hjw|]); congruence.
  - rewrite Hvi. split; [exact Hjv|]. congruence.
Qed.
End World.

Section FailedDeposit.
Context `{BitVec, Keccak, JournalEnv, !JournalEnvLaws, Crypto, CreateAddress, VecGrow} {DB E Auth : Type}.
Context `{!Database DB E, !DatabaseLaws DB E}.

(** * Loading the caller *)

Lemma warm_stale_same a x :
  acc_wf a x -> cold_acc x = true ->
  info (warm_stale_account 0 x) = info x /\ storage (warm_stale_account 0 x) = storage x /\
  status_contains (status (warm_stale_account 0 x)) Created = status_contains (status x) Created.
Proof using.
  intros [Hv _] Hc. destruct (wf_cold _ _ Hv Hc) as (_ & Hs & _). cbn in Hs.
  unfold warm_stale_account, Account_is_selfdestructed_locally, Account_mark_warm_with_transaction_id. cbn [fst status].
  rewrite status_contains_remove by auto with flags. rewrite Hs, andb_false_r.
  split_and!; [done|done|]. cbn. by status_simpl.
Qed.

Definition load_keeps (a : Z) (j : JournalInner) (load : StateLoad JournaledAccount) (j1 : JournalInner) : Prop :=
  let x := ja_account (data load) in
  ja_address (data load) = a /\ j_state j1 = <[a := x]> (j_state j) /\
  world_info (j_state j) a = Some (info_triple (info x)) /\
  storage x = default ∅ (storage <$> j_state j !! a) /\
  status_contains (status x) Created = default false ((fun y => status_contains (status y) Created) <$> j_state j !! a).

(** A load that succeeds changes nothing that a state means. *)
Lemma load_account_mut_keeps a j db :
  journal_wf j -> answers db ->
  match JournalInner_load_account_mut a j db with
  | None => False
  | Some (Err _, _, _) => te_basic a = None
  | Some (Ok load, j1, _) => load_keeps a j load j1
  end.
Proof.
  intros Hj Hdb. unfold JournalInner_load_account_mut, JournalInner_load_account_mut_optional_code.
  rewrite (jwf_tx _ Hj), andb_false_r. unfold load_keeps, world_info.
  assert (forall s (b : bool) e x, j_state (if b then push_entry e (put_account a x s) else put_account a x s)
    = <[a := x]> (j_state s)) as Hput by (by intros s [] e x).
  destruct (j_state j !! a) as [x|] eqn:Hx.
  - destruct (jwf_state _ Hj _ _ Hx) as [Hw [Htx _]].
    assert (Account_is_cold_transaction_id x 0 = cold_acc x) as ->
      by (unfold Account_is_cold_transaction_id; by rewrite Htx).
    destruct (cold_acc x) eqn:Hc; cbn [andb JournalLoadError_unwrap_db_error data load_is_cold ja_account ja_address].
    + destruct (warm_stale_same a x Hw Hc) as (Hi & Hs & Hcr).
      split_and!; [done|apply (Hput j (WarmAddresses_is_cold _ a))|by rewrite Hi|done|done].
    + split_and!; try done; apply (Hput j false (AccountWarmed a)).
  - pose proof (ans_basic _ Hdb a) as Ha. unfold db_account.
    destruct (db_basic db a) as [[[i|]|e] db1]; cbn in Ha |- *; rewrite <- Ha; cbn; [| |done];
      (split_and!; [done|by destruct (WarmAddresses_is_cold (j_warm_addresses j) a)
        |by destruct (WarmAddresses_is_cold te_warm a)|done|by status_simpl]).
Qed.

(** * Undoing everything *)

(** The default checkpoint gives back the state the transaction started in,
    whatever happened to the logs. *)
Lemma default_checkpoint_undo j db j2 db2 l :
  journal_wf j -> answers db -> j_journal j = [] -> exec j db j2 db2 ->
  exists j3, JournalInner_checkpoint_revert (mkJournalCheckpoint 0 0) (set_logs l j2) = Some j3 /\
    journal_wf j3 /\ state_le (j_state j3) (j_state j).
Proof.
  intros Hj Hdb Hnil He. destruct (exec_frame _ _ _ _ He Hj Hdb) as (Hw & (es & [J O (s & R & L) T G D]) & _).
  rewrite Hnil in J. cbn [app] in J. unfold JournalInner_checkpoint_revert.
  cbn [set_depth set_logs j_journal j_logs j_state j_transient_storage log_i journal_i].
  assert (state_wf s) as Hws.
  { eapply state_wf_le; [done| |apply Hj]. eapply revert_states_tx; [|done]. apply state_wf_tx, Hw. }
  rewrite J, drop_0. destruct (Nat.ltb_spec 0 (length es)).
  - replace (is_spurious_dragon_enabled _) with spurious
      by (unfold is_spurious_dragon_enabled; cbn; by rewrite (jwf_spec _ Hw)).
    rewrite revert_all_states, R. cbn [fmap option_fmap option_map]. eexists. split; [done|].
    split; [|done]. destruct Hw, Hj. split; cbn; try done. by rewrite T.
  - destruct es; [|cbn in *; lia]. cbn in R, T. injection R as <-. eexists. split; [done|].
    split; [|done]. destruct Hw, Hj. by split.
Qed.

(** * The theorem *)

Definition op_journal (self : @OpEvm DB E Auth) : JournalInner := journal_inner (ctx_journaled_state (op_ctx self)).
Definition op_database (self : @OpEvm DB E Auth) : DB := journal_database (ctx_journaled_state (op_ctx self)).

Lemma in_op_load a (self : @OpEvm DB E Auth) j db :
  in_op_ctx (try_db (Journal_load_account_mut a (mkJournal db j)) (op_ctx self)) self =
  let? (r, j1, db1) := JournalInner_load_account_mut a j db in
  Some (map_err OpError_Database r, with_op_ctx (with_journal (mkJournal db1 j1) (op_ctx self)) self).
Proof.
  unfold in_op_ctx, try_db, in_journal, run_map_err, Journal_load_account_mut, Journal_load_account_mut_optional_code,
    JournalInner_load_account_mut. cbn.
  destruct (JournalInner_load_account_mut_optional_code _ _ _ _ _) as [[r j1] db1].
  by destruct (JournalLoadError_unwrap_db_error r) as [[]|].
Qed.

End FailedDeposit.
