(* ===== verification/OpExample.v ===== *)
(** Transactions on a small rollup, run by evaluation: a transfer, its fees
    and where they go, a deposit that fails, and two cases in which the
    Optimism handler does not do what it means to. *)
From S2P Require Import Prelude Hardfork Bytecode State Database WarmAddresses Precompile PrecompileLaws JournalEntry JournalInner JournalView JournalRevert JournalExec Gas InstructionResult Stack SharedMemory FrameStack Interpreter Env Host Context Validation Frame PreExecution PostExecution InstructionTable Handler Fees TxBuilder FastLz OpTypes L1Block OpHandler OpLaws OpDeposit.
From stdpp Require Import base numbers list option tactics gmap strings.
From Stdlib Require Import ZArith Lia.

Local Open Scope Z_scope.

Module OpExample.
#[local] Existing Instance Lsb0BitVec.
#[local] Existing Instance Tables.null_crypto.
#[local] Instance op_keccak : Keccak := fun _ => 0.
#[local] Instance op_create : CreateAddress := {| address_create _ _ := 0; address_create2 _ _ _ := 0 |}.
#[local] Instance op_grow : VecGrow := fun n => n.
#[local] Instance op_auth : AuthorizationTr unit :=
  {| auth_authority _ := None; auth_chain_id _ := 0; auth_nonce _ := 0; auth_address _ := 0 |}.

(** * The rollup *)

Definition caller : Z := 0xAA.
Definition target : Z := 0xBB.
Definition funds : Z := 10 ^ 18.

(** The caller has funds; the slots of the L1 block contract hold a base fee of
    1000, scalars of 1000 and an operator fee of 5000 per million gas plus 7. *)
Definition rollup_basic (a : Z) : option AccountInfo :=
  if a =? caller then Some (mkAccountInfo funds 0 KECCAK_EMPTY None None) else None.
Definition rollup_storage (a k : Z) : Z :=
  if negb (a =? L1_BLOCK_CONTRACT) then 0
  else if k =? L1_BASE_FEE_SLOT then 1000
  else if k =? ECOTONE_L1_BLOB_BASE_FEE_SLOT then 1
  else if k =? ECOTONE_L1_FEE_SCALARS_SLOT then from_be_bytes (replicate 16 0 ++ be_bytes 4 1000 ++ be_bytes 4 1000 ++ replicate 8 0)
  else if k =? OPERATOR_FEE_SCALARS_SLOT then from_be_bytes (replicate 20 0 ++ be_bytes 4 5000 ++ be_bytes 8 7)
  else 0.
Inductive Rollup : Type := rollup.
#[local] Instance Rollup_Database : Database Rollup Empty_set := {|
  db_basic d a := (Ok (rollup_basic a), d);
  db_code_by_hash d _ := (Ok Bytecode_default, d);
  db_storage d a k := (Ok (rollup_storage a k), d);
  db_block_hash d _ := (Ok 0, d) |}.

Definition rollup_block : BlockEnv :=
  mkBlockEnv 100 0xC0 1000 30000000 7 0 (Some 5) (Some (mkBlobExcessGasAndPrice 0 1)).

(** A legacy transfer of 5 wei at a gas price of 10. *)
Definition transfer (nonce : Z) : TxEnv unit :=
  mkTxEnv 0 caller 30000 10 (TxCall target) 5 [] nonce (Some 1) [] None [] 0 [].
Definition paying (nonce : Z) : OpTransaction unit :=
  mkOpTransaction (transfer nonce) (Some [2; 0xF8; 0x6B]) DepositTransactionParts_default.

Definition mainnet_evm (tx : TxEnv unit) : @Evm Rollup Empty_set unit :=
  mkEvm (mkContext rollup_block tx (CfgEnv_new_with_spec PRAGUE) (mkJournal rollup JournalInner_new)
           LocalContext_default (Ok tt) false)
    EthPrecompiles_default FrameStack_new.
Definition rollup_evm (tx : OpTransaction unit) : @OpEvm Rollup Empty_set unit :=
  mkOpEvm (mainnet_evm (OpTransaction_view tx)) tx ISTHMUS OpSpecId_default L1BlockInfo_default.

Definition go (tx : OpTransaction unit) : outcome (result OpExecutionResult (OpError Empty_set) * @OpEvm Rollup Empty_set unit) :=
  op_run id 1000 10 (rollup_evm tx).

(** The balances after a transaction. *)
Definition state_of (m : outcome (result OpExecutionResult (OpError Empty_set) * @OpEvm Rollup Empty_set unit)) : EvmState :=
  match m with Done (_, self) => j_state (op_journal self) | _ => ∅ end.
Definition balance_in (s : EvmState) (a : Z) : Z :=
  match s !! a with Some x => balance (info x) | None => 0 end.

(** * A transfer

    The L1 cost of three bytes is that of 100 bytes, 1600; the operator fee of the
    gas used is 7 + 21000 * 5000 / 10^6 = 112. *)
Lemma transfer_runs :
  let s := state_of (go (paying 0)) in
  match go (paying 0) with
  | Done (Ok (Op_Success SR_Stop 21000 0 [] _), _) => True
  | _ => False
  end /\
  balance_in s caller = funds - 5 - 21000 * 10 - 1600 - 112 /\
  balance_in s target = 5 /\ balance_in s 0xC0 = 21000 * 3 /\
  balance_in s BASE_FEE_RECIPIENT = 21000 * 7 /\ balance_in s L1_FEE_RECIPIENT = 1600 /\
  balance_in s OPERATOR_FEE_RECIPIENT = 112.
Proof. vm_compute. done. Qed.

(** * A transaction that fails and is not a deposit *)

(** How the next load of the caller would be: whether it is cold. *)
Definition next_load_cold (j : JournalInner) : option bool :=
  match JournalInner_load_account caller j rollup with Some (Ok l, _, _) => Some (load_is_cold l) | _ => None end.

(** A transaction that is not a deposit and fails is not discarded on
    Optimism: with the same wrong nonce and the same database, the mainnet
    handler empties the journal and moves to the next transaction, in which the
    caller is cold again, while the Optimism handler leaves the entries of the
    failed transaction in the journal and its caller warm for the next one. *)
Theorem op_failed_tx_not_discarded :
  match op_run id 1000 10 (rollup_evm (paying 5)), run id 1000 10 (mainnet_evm (transfer 5)) with
  | Done (Err e, op), Done (Err e', main) =>
      e = OpError_Transaction (OpTx_Base (NonceTooHigh 5 0)) /\ e' = EVMError_Transaction (NonceTooHigh 5 0) /\
      let j := op_journal op in
      let j' := journal_inner (ctx_journaled_state (evm_ctx main)) in
      j_journal j = [AccountWarmed caller] /\ j_transaction_id j = 0%nat /\ next_load_cold j = Some false /\
      j_journal j' = [] /\ j_transaction_id j' = 1%nat /\ next_load_cold j' = Some true
  | _, _ => False
  end.
Proof. vm_compute. done. Qed.

(** * The operator fee of an empty envelope *)

Definition empty_envelope : OpTransaction unit :=
  mkOpTransaction (transfer 0) (Some []) DepositTransactionParts_default.

(** The operator fee is not charged for a transaction whose envelope is empty
    or starts with the deposit type, but it is refunded: such a transaction,
    which the handler accepts, ends with more money in the accounts than there
    was, by the fee of the gas that was not used. *)
Theorem free_envelope_mints :
  let s := state_of (go empty_envelope) in
  match go empty_envelope with Done (Ok (Op_Success SR_Stop 21000 0 [] _), _) => True | _ => False end /\
  balance_in s OPERATOR_FEE_RECIPIENT = 0 /\ balance_in s L1_FEE_RECIPIENT = 0 /\
  balance_in s caller + balance_in s target + balance_in s 0xC0 + balance_in s BASE_FEE_RECIPIENT = funds + 45.
Proof. vm_compute. done. Qed.

(** * Witnesses *)

Lemma rollup_block_ok : block_ok rollup_block.
Proof.
  split; cbn; try (unfold in_range, modulus; lia); intros ? [= <-]; cbn; unfold in_range, modulus; lia.
Defined.
Lemma transfer_ok : tx_ok (OpTransaction_view (paying 0)).
Proof. split; cbn; try (unfold in_range, modulus; lia); try done; apply Forall_nil_2. Defined.

(** The rollup with the L1 block info of its block. *)
Definition rollup_chain : L1BlockInfo := mkL1BlockInfo (Some 100) 1000 None 1000 (Some 1) (Some 1000) (Some 5000) (Some 7) None false None.
Definition funded : @OpEvm Rollup Empty_set unit := with_chain rollup_chain (rollup_evm (paying 0)).
Lemma rollup_fetched : try_fetch rollup 100 ISTHMUS = (Ok rollup_chain, rollup).
Proof. vm_compute. reflexivity. Qed.

Lemma rollup_chain_ok : chain_ok rollup_chain.
Proof. split; cbn; try lia; intros ? [= <-]; lia. Defined.

Lemma op_fees_conserved_witness :
  let self' := with_chain (set_tx_l1_cost (Some 1600) rollup_chain) funded in
  let g' := eip7623_check_gas_floor (op_refund self' (mkGas 30000 9000 0 MemoryGas_new) 0) (mkInitialAndFloorGas 21000 21000) in
  exists refund fees chain,
    operator_fee_refund (op_chain self') g' (op_spec self') = Some refund /\
    op_vault_fees self' [2; 0xF8; 0x6B] g' = Some (fees, chain) /\
    funds - (funds - 1757 - 300000) = reimbursement (op_ctx self') g' refund + reward (op_ctx self') g' + vault_total fees
      + blob_fee (op_ctx self').
Proof.
  apply (op_fees_conserved funded [2; 0xF8; 0x6B] funds (funds - 1757)
    (with_chain (set_tx_l1_cost (Some 1600) rollup_chain) funded) (funds - 1757 - 300000)
    (mkGas 30000 9000 0 MemoryGas_new) (mkInitialAndFloorGas 21000 21000) 0);
    [vm_compute; reflexivity|reflexivity|reflexivity|split; vm_compute; reflexivity|exact transfer_ok|exact rollup_block_ok
    |vm_compute; reflexivity|vm_compute; discriminate|exact rollup_chain_ok|vm_compute; split; [discriminate|reflexivity]|reflexivity|vm_compute; reflexivity
    |vm_compute; repeat split; discriminate|reflexivity|vm_compute; split; discriminate].
Defined.

Lemma l1_cost_fjord_correct_witness :
  exists size, flz_compress_len [2; 0xF8; 0x6B] = Some size /\
    let cost := Z.max (836500 * size - 42585600) 100000000 * l1_fee_scaled rollup_chain / 1000000000000 in
    calculate_tx_l1_cost rollup_chain [2; 0xF8; 0x6B] ISTHMUS = Some (cost, set_tx_l1_cost (Some cost) rollup_chain).
Proof.
  apply (l1_cost_fjord_correct rollup_chain [2; 0xF8; 0x6B] ISTHMUS);
    [vm_compute; reflexivity|split; cbn; lia|reflexivity].
Defined.

(** ** A deposit that fails *)

#[local] Instance Rollup_Laws : DatabaseLaws Rollup Empty_set.
Proof.
  refine {| same_db := eq |}; try (by intros; simplify_eq/=). intros d a i. cbn. unfold rollup_basic.
  destruct (a =? caller); [|done]. intros [= <-]. unfold info_ok, funds, in_range, modulus. cbn. lia.
Defined.
#[local] Instance rollup_env : JournalEnv :=
  {| te_basic a := Some (rollup_basic a); te_storage a k := Some (rollup_storage a k);
     te_warm := WarmAddresses_new; te_spec := SpecId_default |}.
#[local] Instance rollup_env_laws : JournalEnvLaws.
Proof.
  intros a i. cbn. unfold rollup_basic. destruct (a =? caller); [|done]. intros [= [= <-]].
  unfold info_ok, funds, in_range, modulus. cbn. lia.
Qed.

(** A system deposit after Regolith is refused; it mints 1000 all the same. *)
Definition system_deposit : OpTransaction unit :=
  mkOpTransaction (transfer 0) None (mkDepositTransactionParts 1 (Some 1000) true).

End OpExample.
