(* ===== verification/ExecApi.v ===== *)
(** The interface through which transactions are executed: the traits
    [ExecuteEvm], [ExecuteCommitEvm] ([handler/src/api.rs]), [SystemCallEvm]
    and [SystemCallCommitEvm] ([handler/src/system_call.rs]) as classes with
    their provided methods, and the mainnet and Optimism EVMs as instances.

    What the provided methods do is proved of every EVM of the class. *)
From S2P Require Import Prelude Hardfork Bytecode State Database WarmAddresses Precompile JournalEntry JournalInner Gas InstructionResult Stack SharedMemory FrameStack Interpreter Env Host Context Validation Frame PreExecution PostExecution Macros Instructions HostInstructions InstructionTable Handler TxBuilder FastLz OpTypes L1Block OpHandler.
From stdpp Require Import base numbers list option tactics gmap strings.
From Stdlib Require Import ZArith Lia.

Local Open Scope Z_scope.

(** * The traits *)

(** Running out of fuel and panics are outcomes of the executing methods only. *)
Class ExecuteEvm (EVM TX R St Er : Type) := {
  transact_one : EVM -> TX -> outcome (result R Er * EVM);
  exec_finalize : EVM -> St * EVM;
  exec_replay : EVM -> outcome (result (R * St) Er * EVM) }.

Class ExecuteCommitEvm (EVM St : Type) := exec_commit : St -> EVM -> option EVM.

Class SystemCallEvm (EVM R Er : Type) :=
  system_call_one_with_caller : EVM -> Z -> Z -> list Z -> outcome (result R Er * EVM).

Record TransactionIndexedError (Er : Type) := mkTransactionIndexedError { tie_error : Er; tie_transaction_index : nat }.
Arguments mkTransactionIndexedError {Er}.
Arguments tie_error {Er}.
Arguments tie_transaction_index {Er}.

Section Execute.
Context {EVM TX R St Er : Type} `{!ExecuteEvm EVM TX R St Er}.

(** The state is taken out of the journal whether the transaction succeeds or not. *)
Definition transact (self : EVM) (tx : TX) : outcome (result (R * St) Er * EVM) :=
  match transact_one self tx with
  | Done (output_or_error, self) =>
      let '(state, self) := exec_finalize self in
      Done (match output_or_error with Ok output => Ok (output, state) | Err e => Err e end, self)
  | Out_of_fuel => Out_of_fuel
  | Panicked => Panicked
  end.

Fixpoint transact_many_from (index : nat) (outputs : list R) (self : EVM) (txs : list TX)
    : outcome (result (list R) (TransactionIndexedError Er) * EVM) :=
  match txs with
  | [] => Done (Ok outputs, self)
  | tx :: txs =>
      match transact_one self tx with
      | Done (Ok output, self) => transact_many_from (S index) (outputs ++ [output]) self txs
      | Done (Err error, self) =>
          let '(_, self) := exec_finalize self in
          Done (Err (mkTransactionIndexedError error index), self)
      | Out_of_fuel => Out_of_fuel
      | Panicked => Panicked
      end
  end.
Definition transact_many (self : EVM) (txs : list TX) : outcome (result (list R) (TransactionIndexedError Er) * EVM) :=
  transact_many_from 0 [] self txs.

Definition transact_many_finalize (self : EVM) (txs : list TX)
    : outcome (result (list R * St) (TransactionIndexedError Er) * EVM) :=
  go! (result, self) := transact_many self txs in
  let '(state, self) := exec_finalize self in
  Done (Ok (result, state), self).

Context `{!ExecuteCommitEvm EVM St}.

Definition commit_inner (self : EVM) : option EVM := let '(state, self) := exec_finalize self in exec_commit state self.

(** The result of an operation and a step that may panic after it. *)
Definition and_then {A B X} (m : outcome (result A X * EVM)) (f : A -> EVM -> option (B * EVM)) : outcome (result B X * EVM) :=
  go! (a, self) := m in
  of_option (let? (b, self) := f a self in Some (Ok b, self)).

Definition transact_commit (self : EVM) (tx : TX) : outcome (result R Er * EVM) :=
  and_then (transact_one self tx) (fun output self => let? self := commit_inner self in Some (output, self)).
Definition transact_many_commit (self : EVM) (txs : list TX) : outcome (result (list R) (TransactionIndexedError Er) * EVM) :=
  and_then (transact_many self txs) (fun outputs self => let? self := commit_inner self in Some (outputs, self)).
Definition replay_commit (self : EVM) : outcome (result R Er * EVM) :=
  and_then (exec_replay self) (fun output self => let? self := exec_commit output.2 self in Some (output.1, self)).

Context `{!SystemCallEvm EVM R Er}.

Definition system_call_one (self : EVM) (system_contract_address : Z) (data : list Z) : outcome (result R Er * EVM) :=
  system_call_one_with_caller self SYSTEM_ADDRESS system_contract_address data.
Definition system_call_with_caller (self : EVM) (caller system_contract_address : Z) (data : list Z)
    : outcome (result (R * St) Er * EVM) :=
  go! (result, self) := system_call_one_with_caller self caller system_contract_address data in
  let '(state, self) := exec_finalize self in
  Done (Ok (result, state), self).
Definition system_call (self : EVM) (system_contract_address : Z) (data : list Z) : outcome (result (R * St) Er * EVM) :=
  system_call_with_caller self SYSTEM_ADDRESS system_contract_address data.
Definition system_call_with_caller_commit (self : EVM) (caller system_contract_address : Z) (data : list Z)
    : outcome (result R Er * EVM) :=
  and_then (system_call_with_caller self caller system_contract_address data)
    (fun output self => let? self := exec_commit output.2 self in Some (output.1, self)).
Definition system_call_commit (self : EVM) (system_contract_address : Z) (data : list Z) : outcome (result R Er * EVM) :=
  system_call_with_caller_commit self SYSTEM_ADDRESS system_contract_address data.
End Execute.

(** * The EVMs *)

Section Instances.
Context `{BitVec, Keccak, Crypto, CreateAddress, VecGrow} {DB E Auth : Type}.
Context `{!Database DB E, !AuthorizationTr Auth}.
(** The order in which parallel recoveries arrive, and the fuel of a run. *)
Context (arrival : list Auth -> list Auth) (steps fuel : nat).
Abbreviation Evm := (@Evm DB E Auth).

Definition Context_set_block (block : BlockEnv) (ctx : Context DB E Auth) : Context DB E Auth :=
  mkContext block (ctx_tx ctx) (ctx_cfg ctx) (ctx_journaled_state ctx) (ctx_local ctx) (ctx_error ctx)
    (ctx_par_7702 ctx).
Definition Evm_set_block (block : BlockEnv) (self : Evm) : Evm := with_ctx (Context_set_block block (evm_ctx self)) self.
Definition OpEvm_set_block (block : BlockEnv) (self : @OpEvm DB E Auth) : @OpEvm DB E Auth :=
  with_op_ctx (Context_set_block block (op_ctx self)) self.

Definition Evm_transact_one (self : Evm) (tx : TxEnv Auth) : outcome (result ExecutionResult (EVMError E) * Evm) :=
  run arrival steps fuel (with_ctx (Context_set_tx tx (evm_ctx self)) self).
Definition Evm_finalize (self : Evm) : EvmState * Evm :=
  let '(state, journal) := Journal_finalize (ctx_journaled_state (evm_ctx self)) in
  (state, with_ctx (with_journal journal (evm_ctx self)) self).
Definition Evm_replay (self : Evm) : outcome (result (ExecutionResult * EvmState) (EVMError E) * Evm) :=
  go! (result, self) := run arrival steps fuel self in
  let '(state, self) := Evm_finalize self in
  Done (Ok (result, state), self).

#[global] Instance Evm_ExecuteEvm : ExecuteEvm Evm (TxEnv Auth) ExecutionResult EvmState (EVMError E) :=
  {| transact_one := Evm_transact_one; exec_finalize := Evm_finalize; exec_replay := Evm_replay |}.
#[global] Instance OpEvm_ExecuteEvm
    : ExecuteEvm (@OpEvm DB E Auth) (OpTransaction Auth) OpExecutionResult EvmState (OpError E) :=
  {| transact_one := op_transact_one arrival steps fuel; exec_finalize := op_finalize;
     exec_replay := op_replay arrival steps fuel |}.

Context `{!DatabaseCommit DB}.

(** [self.db_mut().commit(state)]. *)
Definition commit_ctx (state : EvmState) (ctx : Context DB E Auth) : option (Context DB E Auth) :=
  let journal := ctx_journaled_state ctx in
  let? db := db_commit (journal_database journal) state in
  Some (with_journal (mkJournal db (journal_inner journal)) ctx).
#[global] Instance Evm_ExecuteCommitEvm : ExecuteCommitEvm Evm EvmState := fun state self =>
  let? ctx := commit_ctx state (evm_ctx self) in Some (with_ctx ctx self).
#[global] Instance OpEvm_ExecuteCommitEvm : ExecuteCommitEvm (@OpEvm DB E Auth) EvmState := fun state self =>
  let? ctx := commit_ctx state (op_ctx self) in Some (with_op_ctx ctx self).

#[global] Instance Evm_SystemCallEvm : SystemCallEvm Evm ExecutionResult (EVMError E) :=
  fun self caller system_contract_address data =>
  match TxEnv_new_system_tx_with_caller caller system_contract_address data with
  | None => Panicked
  | Some tx => run_system_call steps fuel (with_ctx (Context_set_tx tx (evm_ctx self)) self)
  end.
#[global] Instance OpEvm_SystemCallEvm : SystemCallEvm (@OpEvm DB E Auth) OpExecutionResult (OpError E) :=
  op_system_call_one_with_caller steps fuel.
End Instances.

(** * Sequences of transactions *)

Section Sequences.
Context {EVM TX R St Er : Type} `{!ExecuteEvm EVM TX R St Er}.

(** Transactions that succeed, one after the other. *)
Inductive succeed : EVM -> list TX -> list R -> EVM -> Prop :=
| succeed_nil evm : succeed evm [] [] evm
| succeed_cons evm tx txs r rs evm1 evm2 :
    transact_one evm tx = Done (Ok r, evm1) -> succeed evm1 txs rs evm2 -> succeed evm (tx :: txs) (r :: rs) evm2.

Lemma transact_many_from_spec txs : forall index outputs evm,
  match transact_many_from index outputs evm txs with
  | Done (Ok outs, evm') => exists rs, outs = outputs ++ rs /\ succeed evm txs rs evm'
  | Done (Err e, evm') =>
      exists i tx rs evm1 evm2, tie_transaction_index e = (index + i)%nat /\ txs !! i = Some tx /\
        succeed evm (take i txs) rs evm1 /\ transact_one evm1 tx = Done (Err (tie_error e), evm2) /\
        evm' = (exec_finalize evm2).2
  | _ => exists i tx rs evm1, txs !! i = Some tx /\ succeed evm (take i txs) rs evm1 /\
      forall x, transact_one evm1 tx <> Done x
  end.
Proof.
  induction txs as [|tx txs IH]; intros index outputs evm; cbn [transact_many_from].
  { exists []. rewrite app_nil_r. by split; [|constructor]. }
  destruct (transact_one evm tx) as [| |[[r|e] evm1]] eqn:Ht.
  - exists 0%nat, tx, [], evm. split_and!; [done|constructor|]. intros x. by rewrite Ht.
  - exists 0%nat, tx, [], evm. split_and!; [done|constructor|]. intros x. by rewrite Ht.
  - specialize (IH (S index) (outputs ++ [r]) evm1).
    destruct (transact_many_from _ _ _ _) as [| |[[outs|e] evm2]].
    + destruct IH as (i & tx' & rs & e1 & ? & ? & ?). exists (S i), tx', (r :: rs), e1. by split_and!; [|econstructor|].
    + destruct IH as (i & tx' & rs & e1 & ? & ? & ?). exists (S i), tx', (r :: rs), e1. by split_and!; [|econstructor|].
    + destruct IH as (rs & -> & ?). exists (r :: rs). split; [by rewrite <- app_assoc|by econstructor].
    + destruct IH as (i & tx' & rs & e1 & e2 & ? & ? & ? & ? & ?). exists (S i), tx', (r :: rs), e1, e2.
      split_and!; [lia|done|by econstructor|done|done].
  - destruct (exec_finalize evm1) as [st evm2] eqn:Hf.
    exists 0%nat, tx, [], evm, evm1. rewrite Hf. cbn. split_and!; [lia|done|constructor|done|done].
Qed.

Lemma succeed_length evm txs rs evm' : succeed evm txs rs evm' -> length rs = length txs.
Proof. induction 1; cbn; congruence. Qed.

(** C24: [transact_many] executes the transactions in order on what the ones
    before left.  It succeeds with one result per transaction exactly when
    each of them succeeds; otherwise it reports the index of the first one that
    failed, after which no other was executed, with its error, and finalizes
    the EVM.  It panics or does not end only when a transaction does. *)
Theorem transact_many_correct (evm : EVM) (txs : list TX) :
  match transact_many evm txs with
  | Done (Ok outs, evm') => succeed evm txs outs evm' /\ length outs = length txs
  | Done (Err e, evm') =>
      exists tx rs evm1 evm2, txs !! tie_transaction_index e = Some tx /\
        succeed evm (take (tie_transaction_index e) txs) rs evm1 /\
        transact_one evm1 tx = Done (Err (tie_error e), evm2) /\ evm' = (exec_finalize evm2).2
  | _ => exists i tx rs evm1, txs !! i = Some tx /\ succeed evm (take i txs) rs evm1 /\
      forall x, transact_one evm1 tx <> Done x
  end.
Proof.
  unfold transact_many. pose proof (transact_many_from_spec txs 0 [] evm) as Hs.
  destruct (transact_many_from 0 [] evm txs) as [| |[[outs|e] evm']]; [done|done| |].
  - destruct Hs as (rs & -> & Hs). split; [done|by eapply succeed_length].
  - destruct Hs as (i & tx & rs & e1 & e2 & -> & ? & ? & ? & ?). by exists tx, rs, e1, e2.
Qed.
End Sequences.

(** * Finalized journals *)

Section Finalized.
Context `{BitVec, Keccak, Crypto, CreateAddress, VecGrow} {DB E Auth : Type}.
Context `{!Database DB E, !AuthorizationTr Auth} (arrival : list Auth -> list Auth) (steps fuel : nat).
Abbreviation Evm := (@Evm DB E Auth).

(** A journal in which nothing is loaded and no transaction was executed. *)
Record journal_clear (j : JournalInner) : Prop := {
  jc_state : j_state j = ∅;
  jc_journal : j_journal j = [];
  jc_transient : j_transient_storage j = ∅;
  jc_logs : j_logs j = [];
  jc_depth : j_depth j = 0%nat;
  jc_transaction_id : j_transaction_id j = 0%nat }.
Definition evm_journal (self : Evm) : JournalInner := journal_inner (ctx_journaled_state (evm_ctx self)).

Lemma Evm_finalize_clear (self : Evm) : journal_clear (evm_journal (Evm_finalize self).2).
Proof using. by split. Qed.

(** After [transact], which takes the state out, and after a failed
    [transact_many], the journal is clear. *)
Lemma transact_clear (self : Evm) tx r self' :
  (let _ := Evm_ExecuteEvm arrival steps fuel in transact self tx) = Done (r, self') ->
  journal_clear (evm_journal self').
Proof.
  cbv zeta. unfold transact. cbn [transact_one exec_finalize Evm_ExecuteEvm].
  destruct (Evm_transact_one arrival steps fuel self tx) as [| |[o s]]; [done..|].
  pose proof (Evm_finalize_clear s) as Hc. destruct (Evm_finalize s) as [st s']. by intros [= _ <-].
Qed.
End Finalized.
