(* ===== verification/Inspector.v ===== *)
(** Inspection: the hooks of [crates/inspector/src/inspector.rs] with the
    inspectors of [noop.rs], [either.rs], [count_inspector.rs] and [gas.rs], the
    instrumented loops of [handler.rs] and [traits.rs], and the interface of
    [inspect.rs] and [mainnet_inspect.rs].

    A hook gets the inspector and what it may change, and gives them back; a
    hook that panics is [None].  While an interpreter runs it holds the shared
    memory buffer, so a hook that gets an interpreter sees the buffer there.
    [steps] and [fuel] bound the loops as they do in [Handler]. *)
From S2P Require Import Prelude Hardfork Bytecode State Database WarmAddresses Precompile JournalEntry JournalInner Gas InstructionResult Stack SharedMemory FrameStack Interpreter Env Host Context Validation Frame PreExecution PostExecution Macros Instructions HostInstructions Opcode InstructionTable Handler TxBuilder OpTypes L1Block OpHandler ExecApi.
From stdpp Require Import base numbers list option tactics gmap strings.
From Stdlib Require Import ZArith Lia.

Local Open Scope Z_scope.

(** * Hooks *)

Class Inspector (INSP CTX : Type) := {
  insp_initialize_interp : INSP -> Interpreter -> CTX -> option (INSP * Interpreter * CTX);
  insp_step : INSP -> Interpreter -> CTX -> option (INSP * Interpreter * CTX);
  insp_step_end : INSP -> Interpreter -> CTX -> option (INSP * Interpreter * CTX);
  insp_log : INSP -> Interpreter -> CTX -> Log -> option (INSP * Interpreter * CTX);
  insp_call : INSP -> CTX -> CallInputs -> option (option CallOutcome * INSP * CTX * CallInputs);
  insp_call_end : INSP -> CTX -> CallInputs -> CallOutcome -> option (INSP * CTX * CallOutcome);
  insp_create : INSP -> CTX -> CreateInputs -> option (option CreateOutcome * INSP * CTX * CreateInputs);
  insp_create_end : INSP -> CTX -> CreateInputs -> CreateOutcome -> option (INSP * CTX * CreateOutcome);
  insp_selfdestruct : INSP -> Z -> Z -> Z -> option INSP }.

(** [NoOpInspector] has only the default methods of the trait. *)
Inductive NoOpInspector := mkNoOpInspector.
#[global] Instance NoOpInspector_Inspector {CTX} : Inspector NoOpInspector CTX := {|
  insp_initialize_interp s i c := Some (s, i, c);
  insp_step s i c := Some (s, i, c);
  insp_step_end s i c := Some (s, i, c);
  insp_log s i c _ := Some (s, i, c);
  insp_call s c inputs := Some (None, s, c, inputs);
  insp_call_end s c _ outcome := Some (s, c, outcome);
  insp_create s c inputs := Some (None, s, c, inputs);
  insp_create_end s c _ outcome := Some (s, c, outcome);
  insp_selfdestruct s _ _ _ := Some s |}.

(** [(L, R)]: the first one is called first, and the second one is only asked
    for an outcome when the first one gives none. *)
#[global] Instance pair_Inspector {L R CTX} `{!Inspector L CTX, !Inspector R CTX} : Inspector (L * R) CTX := {|
  insp_initialize_interp '(l, r) i c :=
    let? (l, i, c) := insp_initialize_interp l i c in
    let? (r, i, c) := insp_initialize_interp r i c in Some ((l, r), i, c);
  insp_step '(l, r) i c :=
    let? (l, i, c) := insp_step l i c in
    let? (r, i, c) := insp_step r i c in Some ((l, r), i, c);
  insp_step_end '(l, r) i c :=
    let? (l, i, c) := insp_step_end l i c in
    let? (r, i, c) := insp_step_end r i c in Some ((l, r), i, c);
  insp_log '(l, r) i c log :=
    let? (l, i, c) := insp_log l i c log in
    let? (r, i, c) := insp_log r i c log in Some ((l, r), i, c);
  insp_call '(l, r) c inputs :=
    let? (outcome, l, c, inputs) := insp_call l c inputs in
    match outcome with
    | Some outcome => Some (Some outcome, (l, r), c, inputs)
    | None => let? (outcome, r, c, inputs) := insp_call r c inputs in Some (outcome, (l, r), c, inputs)
    end;
  insp_call_end '(l, r) c inputs outcome :=
    let? (l, c, outcome) := insp_call_end l c inputs outcome in
    let? (r, c, outcome) := insp_call_end r c inputs outcome in Some ((l, r), c, outcome);
  insp_create '(l, r) c inputs :=
    let? (outcome, l, c, inputs) := insp_create l c inputs in
    match outcome with
    | Some outcome => Some (Some outcome, (l, r), c, inputs)
    | None => let? (outcome, r, c, inputs) := insp_create r c inputs in Some (outcome, (l, r), c, inputs)
    end;
  insp_create_end '(l, r) c inputs outcome :=
    let? (l, c, outcome) := insp_create_end l c inputs outcome in
    let? (r, c, outcome) := insp_create_end r c inputs outcome in Some ((l, r), c, outcome);
  insp_selfdestruct '(l, r) contract target value :=
    let? l := insp_selfdestruct l contract target value in
    let? r := insp_selfdestruct r contract target value in Some (l, r) |}.

(** [Either<L, R>]: each hook goes to the side there is. *)
#[global] Instance Either_Inspector {L R CTX} `{!Inspector L CTX, !Inspector R CTX} : Inspector (L + R) CTX := {|
  insp_initialize_interp s i c :=
    match s with
    | inl l => let? (l, i, c) := insp_initialize_interp l i c in Some (inl l, i, c)
    | inr r => let? (r, i, c) := insp_initialize_interp r i c in Some (inr r, i, c)
    end;
  insp_step s i c :=
    match s with
    | inl l => let? (l, i, c) := insp_step l i c in Some (inl l, i, c)
    | inr r => let? (r, i, c) := insp_step r i c in Some (inr r, i, c)
    end;
  insp_step_end s i c :=
    match s with
    | inl l => let? (l, i, c) := insp_step_end l i c in Some (inl l, i, c)
    | inr r => let? (r, i, c) := insp_step_end r i c in Some (inr r, i, c)
    end;
  insp_log s i c log :=
    match s with
    | inl l => let? (l, i, c) := insp_log l i c log in Some (inl l, i, c)
    | inr r => let? (r, i, c) := insp_log r i c log in Some (inr r, i, c)
    end;
  insp_call s c inputs :=
    match s with
    | inl l => let? (o, l, c, inputs) := insp_call l c inputs in Some (o, inl l, c, inputs)
    | inr r => let? (o, r, c, inputs) := insp_call r c inputs in Some (o, inr r, c, inputs)
    end;
  insp_call_end s c inputs outcome :=
    match s with
    | inl l => let? (l, c, outcome) := insp_call_end l c inputs outcome in Some (inl l, c, outcome)
    | inr r => let? (r, c, outcome) := insp_call_end r c inputs outcome in Some (inr r, c, outcome)
    end;
  insp_create s c inputs :=
    match s with
    | inl l => let? (o, l, c, inputs) := insp_create l c inputs in Some (o, inl l, c, inputs)
    | inr r => let? (o, r, c, inputs) := insp_create r c inputs in Some (o, inr r, c, inputs)
    end;
  insp_create_end s c inputs outcome :=
    match s with
    | inl l => let? (l, c, outcome) := insp_create_end l c inputs outcome in Some (inl l, c, outcome)
    | inr r => let? (r, c, outcome) := insp_create_end r c inputs outcome in Some (inr r, c, outcome)
    end;
  insp_selfdestruct s contract target value :=
    match s with
    | inl l => let? l := insp_selfdestruct l contract target value in Some (inl l)
    | inr r => let? r := insp_selfdestruct r contract target value in Some (inr r)
    end |}.

(** * Counting *)

Record CountInspector := mkCountInspector {
  opcode_counts : gmap Z Z; initialize_interp_count : Z;
  step_count : Z;
  step_end_count : Z;
  log_count : Z;
  call_count : Z;
  call_end_count : Z;
  create_count : Z;
  create_end_count : Z;
  selfdestruct_count : Z }.

Definition CountInspector_new : CountInspector := mkCountInspector ∅ 0 0 0 0 0 0 0 0 0.
Definition get_count (self : CountInspector) (opcode : Z) : Z := default 0 (opcode_counts self !! opcode).
Definition total_opcodes (self : CountInspector) : Z :=
  foldr (wrapping_add 64) 0 (map snd (map_to_list (opcode_counts self))).
Definition unique_opcodes (self : CountInspector) : nat := size (opcode_counts self).
Definition CountInspector_clear (self : CountInspector) : CountInspector :=
  mkCountInspector ∅ 0 0 0 0 0 0 0 0 0.

Definition count_initialize_interp (self : CountInspector) : CountInspector :=
  mkCountInspector (opcode_counts self) (wrapping_add 64 (initialize_interp_count self) 1) (step_count self) (step_end_count self) (log_count self) (call_count self) (call_end_count self) (create_count self) (create_end_count self) (selfdestruct_count self).
Definition count_step_end (self : CountInspector) : CountInspector :=
  mkCountInspector (opcode_counts self) (initialize_interp_count self) (step_count self) (wrapping_add 64 (step_end_count self) 1) (log_count self) (call_count self) (call_end_count self) (create_count self) (create_end_count self) (selfdestruct_count self).
Definition count_log (self : CountInspector) : CountInspector :=
  mkCountInspector (opcode_counts self) (initialize_interp_count self) (step_count self) (step_end_count self) (wrapping_add 64 (log_count self) 1) (call_count self) (call_end_count self) (create_count self) (create_end_count self) (selfdestruct_count self).
Definition count_call (self : CountInspector) : CountInspector :=
  mkCountInspector (opcode_counts self) (initialize_interp_count self) (step_count self) (step_end_count self) (log_count self) (wrapping_add 64 (call_count self) 1) (call_end_count self) (create_count self) (create_end_count self) (selfdestruct_count self).
Definition count_call_end (self : CountInspector) : CountInspector :=
  mkCountInspector (opcode_counts self) (initialize_interp_count self) (step_count self) (step_end_count self) (log_count self) (call_count self) (wrapping_add 64 (call_end_count self) 1) (create_count self) (create_end_count self) (selfdestruct_count self).
Definition count_create (self : CountInspector) : CountInspector :=
  mkCountInspector (opcode_counts self) (initialize_interp_count self) (step_count self) (step_end_count self) (log_count self) (call_count self) (call_end_count self) (wrapping_add 64 (create_count self) 1) (create_end_count self) (selfdestruct_count self).
Definition count_create_end (self : CountInspector) : CountInspector :=
  mkCountInspector (opcode_counts self) (initialize_interp_count self) (step_count self) (step_end_count self) (log_count self) (call_count self) (call_end_count self) (create_count self) (wrapping_add 64 (create_end_count self) 1) (selfdestruct_count self).
Definition count_selfdestruct (self : CountInspector) : CountInspector :=
  mkCountInspector (opcode_counts self) (initialize_interp_count self) (step_count self) (step_end_count self) (log_count self) (call_count self) (call_end_count self) (create_count self) (create_end_count self) (wrapping_add 64 (selfdestruct_count self) 1).
Definition count_step (self : CountInspector) (i : Interpreter) : option CountInspector :=
  let self := mkCountInspector (opcode_counts self) (initialize_interp_count self) (wrapping_add 64 (step_count self) 1) (step_end_count self) (log_count self) (call_count self) (call_end_count self) (create_count self) (create_end_count self) (selfdestruct_count self) in
  let? opcode := ExtBytecode_opcode (i_bytecode i) in
  Some (mkCountInspector (<[opcode := wrapping_add 64 (get_count self opcode) 1]> (opcode_counts self)) (initialize_interp_count self) (step_count self) (step_end_count self) (log_count self) (call_count self) (call_end_count self) (create_count self) (create_end_count self) (selfdestruct_count self)).

#[global] Instance CountInspector_Inspector {CTX} : Inspector CountInspector CTX := {|
  insp_initialize_interp s i c := Some (count_initialize_interp s, i, c);
  insp_step s i c := let? s := count_step s i in Some (s, i, c);
  insp_step_end s i c := Some (count_step_end s, i, c);
  insp_log s i c _ := Some (count_log s, i, c);
  insp_call s c inputs := Some (None, count_call s, c, inputs);
  insp_call_end s c _ outcome := Some (count_call_end s, c, outcome);
  insp_create s c inputs := Some (None, count_create s, c, inputs);
  insp_create_end s c _ outcome := Some (count_create_end s, c, outcome);
  insp_selfdestruct s _ _ _ := Some (count_selfdestruct s) |}.

(** * Gas *)

(** [GasInspector], which other inspectors call from their hooks. *)
Record GasInspector := mkGasInspector { gi_gas_remaining : Z; gi_last_gas_cost : Z }.
Definition GasInspector_new : GasInspector := mkGasInspector 0 0.
Definition GasInspector_initialize_interp (gas : Gas) (self : GasInspector) : GasInspector :=
  mkGasInspector (gas_limit gas) (gi_last_gas_cost self).
Definition GasInspector_step (gas : Gas) (self : GasInspector) : GasInspector :=
  mkGasInspector (gas_remaining gas) (gi_last_gas_cost self).
Definition GasInspector_step_end (gas : Gas) (self : GasInspector) : GasInspector :=
  let remaining := gas_remaining gas in
  mkGasInspector remaining (saturating_sub (gi_gas_remaining self) remaining).
(** Spend all the gas of a failed result. *)
Definition spend_failed (r : InterpreterResult) : InterpreterResult :=
  mkInterpreterResult (ir_result r) (ir_output r) (Gas_spend_all (ir_gas r)).
Definition GasInspector_call_end (outcome : CallOutcome) (self : GasInspector) : GasInspector * CallOutcome :=
  if InstructionResult_is_error (ir_result (co_result outcome))
  then (mkGasInspector 0 (gi_last_gas_cost self),
        mkCallOutcome (spend_failed (co_result outcome)) (co_memory_offset outcome))
  else (self, outcome).
Definition GasInspector_create_end (outcome : CreateOutcome) (self : GasInspector) : GasInspector * CreateOutcome :=
  if InstructionResult_is_error (ir_result (cro_result outcome))
  then (mkGasInspector 0 (gi_last_gas_cost self),
        mkCreateOutcome (spend_failed (cro_result outcome)) (cro_address outcome))
  else (self, outcome).

(** The inspector of the unit test of [GasInspector]: the counter and the gas
    left after each step. *)
Record StackInspector := mkStackInspector {
  si_pc : Z; si_opcode : Z; si_gas_inspector : GasInspector; si_gas_remaining_steps : list (Z * Z) }.
Definition with_gas_inspector (g : GasInspector) (self : StackInspector) : StackInspector :=
  mkStackInspector (si_pc self) (si_opcode self) g (si_gas_remaining_steps self).
#[global] Instance StackInspector_Inspector {CTX} : Inspector StackInspector CTX := {|
  insp_initialize_interp s i c :=
    Some (with_gas_inspector (GasInspector_initialize_interp (i_gas i) (si_gas_inspector s)) s, i, c);
  insp_step s i c :=
    let? opcode := ExtBytecode_opcode (i_bytecode i) in
    Some (mkStackInspector (ExtBytecode_pc (i_bytecode i)) opcode (GasInspector_step (i_gas i) (si_gas_inspector s))
            (si_gas_remaining_steps s), i, c);
  insp_step_end s i c :=
    let g := GasInspector_step_end (i_gas i) (si_gas_inspector s) in
    Some (mkStackInspector (si_pc s) (si_opcode s) g (si_gas_remaining_steps s ++ [(si_pc s, gi_gas_remaining g)]), i, c);
  insp_log s i c _ := Some (s, i, c);
  insp_call s c inputs := Some (None, s, c, inputs);
  insp_call_end s c _ outcome :=
    let '(g, outcome) := GasInspector_call_end outcome (si_gas_inspector s) in Some (with_gas_inspector g s, c, outcome);
  insp_create s c inputs := Some (None, s, c, inputs);
  insp_create_end s c _ outcome :=
    let '(g, outcome) := GasInspector_create_end outcome (si_gas_inspector s) in Some (with_gas_inspector g s, c, outcome);
  insp_selfdestruct s _ _ _ := Some s |}.

(** * Instrumented execution *)

Section Inspect.
Context `{BitVec, Keccak, Crypto, CreateAddress, VecGrow} {DB E Auth : Type}.
Context `{!Database DB E, !AuthorizationTr Auth}.
Abbreviation Ctx := (Context DB E Auth).
Abbreviation Evm := (@Evm DB E Auth).
Context {INSP : Type} `{!Inspector INSP Ctx}.

(** [JournalExt] of the journal of a context. *)
Definition ctx_logs (ctx : Ctx) : list Log := j_logs (journal_inner (ctx_journaled_state ctx)).
Definition ctx_journal_entries (ctx : Ctx) : list JournalEntry := j_journal (journal_inner (ctx_journaled_state ctx)).

Definition frame_start (context : Ctx) (inspector : INSP) (frame_input : FrameInput)
    : option (option FrameResult * Ctx * INSP * FrameInput) :=
  match frame_input with
  | FI_Call i =>
      let? (output, inspector, context, i) := insp_call inspector context i in
      Some (FR_Call <$> output, context, inspector, FI_Call i)
  | FI_Create i =>
      let? (output, inspector, context, i) := insp_create inspector context i in
      Some (FR_Create <$> output, context, inspector, FI_Create i)
  | FI_Empty => None
  end.

Definition frame_end (context : Ctx) (inspector : INSP) (frame_input : FrameInput) (frame_output : FrameResult)
    : option (Ctx * INSP * FrameResult) :=
  match frame_output with
  | FR_Call outcome =>
      match frame_input with
      | FI_Call i =>
          let? (inspector, context, outcome) := insp_call_end inspector context i outcome in
          Some (context, inspector, FR_Call outcome)
      | _ => None
      end
  | FR_Create outcome =>
      match frame_input with
      | FI_Create i =>
          let? (inspector, context, outcome) := insp_create_end inspector context i outcome in
          Some (context, inspector, FR_Create outcome)
      | _ => None
      end
  end.

Definition InterpreterAction_is_return (self : InterpreterAction) : bool :=
  match self with Return _ => true | NewFrame _ => false end.

(** The log is only reported when the instruction did not halt. *)
Definition inspect_log (i : Interpreter) (context : Ctx) (inspector : INSP) : option (INSP * Interpreter * Ctx) :=
  if match eb_action (i_bytecode i) with Some x => InterpreterAction_is_return x | None => false end
  then Some (inspector, i, context)
  else
    let? log := last (ctx_logs context) in
    insp_log inspector i context log.

Definition inspect_selfdestruct (context : Ctx) (inspector : INSP) : option INSP :=
  match last (ctx_journal_entries context) with
  | Some (AccountDestroyed had_balance address target _) => insp_selfdestruct inspector address target had_balance
  | Some (BalanceTransfer transferred from to) => insp_selfdestruct inspector from to transferred
  | _ => Some inspector
  end.

Definition is_log_opcode (opcode : Z) : bool := (OP_LOG0 <=? opcode) && (opcode <=? OP_LOG4).

(** The body of the loop between [step] and the test of its end. *)
Definition inspect_instruction (table : list (Instruction Ctx)) (i : Interpreter) (context : Ctx) (inspector : INSP)
    : option (INSP * Interpreter * Ctx) :=
  let? opcode := ExtBytecode_opcode (i_bytecode i) in
  let? (_, i, context) := Interpreter_step table i context in
  let? (inspector, i, context) :=
    if is_log_opcode opcode then inspect_log i context inspector else Some (inspector, i, context) in
  insp_step_end inspector i context.

Inductive inspect_result :=
| Inspect_panic
| Inspect_out_of_fuel
| Inspect_done (inspector : INSP) (i : Interpreter) (context : Ctx).

(** One iteration per unit of fuel. *)
Fixpoint inspect_loop (fuel : nat) (table : list (Instruction Ctx)) (i : Interpreter) (context : Ctx) (inspector : INSP)
    : inspect_result :=
  match fuel with
  | O => Inspect_out_of_fuel
  | S fuel =>
      match insp_step inspector i context with
      | None => Inspect_panic
      | Some (inspector, i, context) =>
          if ExtBytecode_is_not_end (i_bytecode i) then
            match inspect_instruction table i context inspector with
            | None => Inspect_panic
            | Some (inspector, i, context) =>
                if ExtBytecode_is_not_end (i_bytecode i) then inspect_loop fuel table i context inspector
                else Inspect_done inspector i context
            end
          else Inspect_done inspector i context
      end
  end.

(** The action, with the self-destruction it reports. *)
Definition inspect_action (i : Interpreter) (context : Ctx) (inspector : INSP)
    : option (InterpreterAction * Interpreter * INSP) :=
  let? (next_action, i) := Interpreter_take_next_action i in
  let? inspector :=
    match next_action with
    | Return result =>
        if bool_decide (ir_result result = IR_SelfDestruct) then inspect_selfdestruct context inspector
        else Some inspector
    | NewFrame _ => Some inspector
    end in
  Some (next_action, i, inspector).

Definition inspect_instructions (fuel : nat) (table : list (Instruction Ctx)) (i : Interpreter) (context : Ctx)
    (inspector : INSP) : outcome (InterpreterAction * Interpreter * Ctx * INSP) :=
  match inspect_loop fuel table i context inspector with
  | Inspect_panic => Panicked
  | Inspect_out_of_fuel => Out_of_fuel
  | Inspect_done inspector i context =>
      of_option (let? (action, i, inspector) := inspect_action i context inspector in
                 Some (action, i, context, inspector))
  end.

(** * The EVM with its inspector *)

Record InspectedEvm := mkInspectedEvm { ie_evm : Evm; ie_inspector : INSP }.
Implicit Types self : InspectedEvm.

(** Building an EVM with an inspector. *)
Definition EthFrame_default : EthFrame :=
  mkEthFrame (FD_Call (0, 0)) FI_Empty 0 (mkJournalCheckpoint 0 0)
    (Interpreter_new SharedMemory_new [] (ExtBytecode_new Bytecode_default) (mkInputsImpl 0 None 0 CallInput_default 0)
       false SpecId_default u64_max) false.
Definition Evm_new_with_inspector (ctx : Ctx) (inspector : INSP) (precompiles : EthPrecompiles) : InspectedEvm :=
  mkInspectedEvm (mkEvm ctx precompiles (FrameStack_new_prealloc EthFrame_default 8)) inspector.
Definition build_mainnet_with_inspector (ctx : Ctx) (inspector : INSP) : InspectedEvm :=
  Evm_new_with_inspector ctx inspector EthPrecompiles_default.

Definition inspect_frame_init self (frame_init_ : FrameInit)
    : option (result (ItemOrResult EthFrame FrameResult) (ContextError E) * InspectedEvm) :=
  let evm := ie_evm self in
  let? (output, ctx, inspector, frame_input) := frame_start (evm_ctx evm) (ie_inspector self) (fi_frame_input frame_init_) in
  let evm := with_ctx ctx evm in
  match output with
  | Some output =>
      let? (ctx, inspector, output) := frame_end ctx inspector frame_input output in
      Some (Ok (Result output), mkInspectedEvm (with_ctx ctx evm) inspector)
  | None =>
      let? (res, evm) := frame_init evm (mkFrameInit (fi_depth frame_init_) (fi_memory frame_init_) frame_input) in
      match res with
      | Err e => Some (Err e, mkInspectedEvm evm inspector)
      | Ok (Result output) =>
          let? (ctx, inspector, output) := frame_end (evm_ctx evm) inspector frame_input output in
          Some (Ok (Result output), mkInspectedEvm (with_ctx ctx evm) inspector)
      | Ok (Item frame) =>
          let? (inspector, i, ctx) :=
            insp_initialize_interp inspector (borrow_buffer (evm_ctx evm) (ef_interpreter frame)) (evm_ctx evm) in
          let ctx := return_buffer i ctx in
          let frame := set_frame_interpreter (with_buffer [] i) frame in
          let? fs := FrameStack_set frame (evm_frame_stack evm) in
          Some (Ok (Item frame), mkInspectedEvm (with_frame_stack fs (with_ctx ctx evm)) inspector)
      end
  end.

Definition inspect_frame_run (steps : nat) self : outcome (ItemOrResult FrameInit FrameResult * InspectedEvm) :=
  let evm := ie_evm self in
  match FrameStack_get (evm_frame_stack evm) with
  | None => Panicked
  | Some frame =>
      match inspect_instructions steps instruction_table (borrow_buffer (evm_ctx evm) (ef_interpreter frame))
              (evm_ctx evm) (ie_inspector self) with
      | Panicked => Panicked
      | Out_of_fuel => Out_of_fuel
      | Done (next_action, i, ctx, inspector) =>
          let ctx := return_buffer i ctx in
          let frame := set_frame_interpreter (with_buffer [] i) frame in
          of_option (
            let? (r, frame, ctx) := process_next_action frame ctx next_action in
            match r with
            | Item init =>
                let? fs := FrameStack_set frame (evm_frame_stack evm) in
                Some (Item init, mkInspectedEvm (with_frame_stack fs (with_ctx ctx evm)) inspector)
            | Result frame_result =>
                let? (ctx, inspector, frame_result) := frame_end ctx inspector (ef_input frame) frame_result in
                let? fs := FrameStack_set (EthFrame_set_finished true frame) (evm_frame_stack evm) in
                Some (Result frame_result, mkInspectedEvm (with_frame_stack fs (with_ctx ctx evm)) inspector)
            end)
      end
  end.

(** A phase of the handler, which does not call the inspector. *)
Definition uninspected {A X} (m : option (result A X * Evm)) (inspector : INSP)
    : outcome (result A X * InspectedEvm) :=
  match m with Some (r, evm) => Done (r, mkInspectedEvm evm inspector) | None => Panicked end.

Definition inspect_exec_step (steps : nat) self
    : outcome (result (option FrameResult) (ContextError E) * InspectedEvm) :=
  match inspect_frame_run steps self with
  | Panicked => Panicked
  | Out_of_fuel => Out_of_fuel
  | Done (Item init, self) =>
      go! (res, self) := of_option (inspect_frame_init self init) in
      match res with
      | Item _ => Done (Ok None, self)
      | Result result => uninspected (frame_return_result (ie_evm self) result) (ie_inspector self)
      end
  | Done (Result result, self) => uninspected (frame_return_result (ie_evm self) result) (ie_inspector self)
  end.

Fixpoint inspect_exec_loop (steps fuel : nat) self {struct fuel}
    : outcome (result FrameResult (ContextError E) * InspectedEvm) :=
  match fuel with
  | O => Out_of_fuel
  | S fuel =>
      go! (r, self) := inspect_exec_step steps self in
      match r with
      | Some result => Done (Ok result, self)
      | None => inspect_exec_loop steps fuel self
      end
  end.

Definition inspect_run_exec_loop (steps fuel : nat) self (first_frame_input : FrameInit)
    : outcome (result FrameResult (ContextError E) * InspectedEvm) :=
  go! (res, self) := of_option (inspect_frame_init self first_frame_input) in
  match res with
  | Result frame_result => Done (Ok frame_result, self)
  | Item _ => inspect_exec_loop steps fuel self
  end.

Definition inspect_execution (steps fuel : nat) self (init_and_floor_gas : InitialAndFloorGas)
    : outcome (result FrameResult (EVMError E) * InspectedEvm) :=
  let evm := ie_evm self in
  let gas_limit := wrapping_sub 64 (tx_gas_limit (ctx_tx (evm_ctx evm))) (initial_gas init_and_floor_gas) in
  match first_frame_input (evm_ctx evm) gas_limit with
  | None => Panicked
  | Some (Err e, ctx) => Done (Err e, mkInspectedEvm (with_ctx ctx evm) (ie_inspector self))
  | Some (Ok first_frame_input, ctx) =>
      go! (frame_result, self) :=
        outcome_map_err EVMError_from_context
          (inspect_run_exec_loop steps fuel (mkInspectedEvm (with_ctx ctx evm) (ie_inspector self)) first_frame_input) in
      Done (Ok (last_frame_result (evm_ctx (ie_evm self)) frame_result), self)
  end.

Definition inspect_run_without_catch_error (arrival : list Auth -> list Auth) (steps fuel : nat) self
    : outcome (result ExecutionResult (EVMError E) * InspectedEvm) :=
  match validate (evm_ctx (ie_evm self)) with
  | None => Panicked
  | Some (Err e) => Done (Err e, self)
  | Some (Ok init_and_floor_gas) =>
      go! (eip7702_refund, self) := uninspected (pre_execution arrival (ie_evm self)) (ie_inspector self) in
      go! (frame_result, self) := inspect_execution steps fuel self init_and_floor_gas in
      go! (frame_result, self) :=
        uninspected (post_execution (ie_evm self) frame_result init_and_floor_gas (signed 64 eip7702_refund))
          (ie_inspector self) in
      uninspected (execution_result (ie_evm self) frame_result) (ie_inspector self)
  end.

(** [Err(e) => self.catch_error(evm, e)]. *)
Definition inspect_catching (m : outcome (result ExecutionResult (EVMError E) * InspectedEvm))
    : outcome (result ExecutionResult (EVMError E) * InspectedEvm) :=
  match m with
  | Done (Ok output, self) => Done (Ok output, self)
  | Done (Err e, self) => uninspected (catch_error (ie_evm self) e) (ie_inspector self)
  | Out_of_fuel => Out_of_fuel
  | Panicked => Panicked
  end.

Definition inspect_run (arrival : list Auth -> list Auth) (steps fuel : nat) self
    : outcome (result ExecutionResult (EVMError E) * InspectedEvm) :=
  inspect_catching (inspect_run_without_catch_error arrival steps fuel self).

Definition inspect_run_system_call (steps fuel : nat) self
    : outcome (result ExecutionResult (EVMError E) * InspectedEvm) :=
  inspect_catching (
    go! (exec_result, self) := inspect_execution steps fuel self (mkInitialAndFloorGas 0 0) in
    uninspected (execution_result (ie_evm self) exec_result) (ie_inspector self)).
End Inspect.

(** * The interface *)

Class InspectEvm (EVM TX R Er INSP : Type) := {
  set_inspector : INSP -> EVM -> EVM;
  inspect_one_tx : EVM -> TX -> outcome (result R Er * EVM) }.

Class InspectSystemCallEvm (EVM R Er : Type) :=
  inspect_one_system_call_with_caller : EVM -> Z -> Z -> list Z -> outcome (result R Er * EVM).

Section InspectApi.
Context {EVM TX R St Er INSP : Type} `{!ExecuteEvm EVM TX R St Er, !InspectEvm EVM TX R Er INSP}.

(** [let output = m?; let state = self.finalize();]. *)
Definition and_finalize (m : outcome (result R Er * EVM)) : outcome (result (R * St) Er * EVM) :=
  go! (output, self) := m in
  let '(state, self) := exec_finalize self in
  Done (Ok (output, state), self).

Definition inspect_tx (self : EVM) (tx : TX) : outcome (result (R * St) Er * EVM) := and_finalize (inspect_one_tx self tx).
Definition inspect_one (self : EVM) (tx : TX) (inspector : INSP) : outcome (result R Er * EVM) :=
  inspect_one_tx (set_inspector inspector self) tx.
Definition inspect (self : EVM) (tx : TX) (inspector : INSP) : outcome (result (R * St) Er * EVM) :=
  and_finalize (inspect_one self tx inspector).

Context `{!ExecuteCommitEvm EVM St}.

Definition inspect_tx_commit (self : EVM) (tx : TX) : outcome (result R Er * EVM) :=
  and_then (inspect_one_tx self tx) (fun output self => let? self := commit_inner self in Some (output, self)).
Definition inspect_commit (self : EVM) (tx : TX) (inspector : INSP) : outcome (result R Er * EVM) :=
  and_then (inspect_one self tx inspector) (fun output self => let? self := commit_inner self in Some (output, self)).

Context `{!InspectSystemCallEvm EVM R Er}.

Definition inspect_one_system_call (self : EVM) (system_contract_address : Z) (data : list Z)
    : outcome (result R Er * EVM) :=
  inspect_one_system_call_with_caller self SYSTEM_ADDRESS system_contract_address data.
Definition inspect_system_call (self : EVM) (system_contract_address : Z) (data : list Z)
    : outcome (result (R * St) Er * EVM) :=
  and_finalize (inspect_one_system_call self system_contract_address data).
Definition inspect_system_call_with_caller (self : EVM) (caller system_contract_address : Z) (data : list Z)
    : outcome (result (R * St) Er * EVM) :=
  and_finalize (inspect_one_system_call_with_caller self caller system_contract_address data).
Definition inspect_one_system_call_with_inspector (self : EVM) (system_contract_address : Z) (data : list Z)
    (inspector : INSP) : outcome (result R Er * EVM) :=
  inspect_one_system_call (set_inspector inspector self) system_contract_address data.
Definition inspect_system_call_with_inspector (self : EVM) (system_contract_address : Z) (data : list Z)
    (inspector : INSP) : outcome (result (R * St) Er * EVM) :=
  and_finalize (inspect_one_system_call_with_inspector self system_contract_address data inspector).
Definition inspect_one_system_call_with_inspector_and_caller (self : EVM) (caller system_contract_address : Z)
    (data : list Z) (inspector : INSP) : outcome (result R Er * EVM) :=
  inspect_one_system_call_with_caller (set_inspector inspector self) caller system_contract_address data.
Definition inspect_system_call_with_inspector_and_caller (self : EVM) (caller system_contract_address : Z)
    (data : list Z) (inspector : INSP) : outcome (result (R * St) Er * EVM) :=
  and_finalize (inspect_one_system_call_with_inspector_and_caller self caller system_contract_address data inspector).
End InspectApi.

Section InspectInstances.
Context `{BitVec, Keccak, Crypto, CreateAddress, VecGrow} {DB E Auth : Type}.
Context `{!Database DB E, !AuthorizationTr Auth}.
Context {INSP : Type} `{!Inspector INSP (Context DB E Auth)}.
Context (arrival : list Auth -> list Auth) (steps fuel : nat).
Abbreviation IEvm := (InspectedEvm (DB := DB) (E := E) (Auth := Auth) (INSP := INSP)).

Definition with_evm (evm : @Evm DB E Auth) (self : IEvm) : IEvm := mkInspectedEvm evm (ie_inspector self).
(** A method of the EVM that ignores the inspector. *)
Definition in_evm {A} (m : outcome (A * @Evm DB E Auth)) (self : IEvm) : outcome (A * IEvm) :=
  match m with
  | Done (a, evm) => Done (a, with_evm evm self)
  | Out_of_fuel => Out_of_fuel
  | Panicked => Panicked
  end.

#[global] Instance InspectedEvm_ExecuteEvm : ExecuteEvm IEvm (TxEnv Auth) ExecutionResult EvmState (EVMError E) :=
  {| transact_one self tx := in_evm (Evm_transact_one arrival steps fuel (ie_evm self) tx) self;
     exec_finalize self := let '(state, evm) := Evm_finalize (ie_evm self) in (state, with_evm evm self);
     exec_replay self := in_evm (Evm_replay arrival steps fuel (ie_evm self)) self |}.

Definition Evm_inspect_one_tx (self : IEvm) (tx : TxEnv Auth) : outcome (result ExecutionResult (EVMError E) * IEvm) :=
  inspect_run arrival steps fuel
    (with_evm (with_ctx (Context_set_tx tx (evm_ctx (ie_evm self))) (ie_evm self)) self).

#[global] Instance Evm_InspectEvm : InspectEvm IEvm (TxEnv Auth) ExecutionResult (EVMError E) INSP :=
  {| set_inspector inspector self := mkInspectedEvm (ie_evm self) inspector;
     inspect_one_tx := Evm_inspect_one_tx |}.

#[global] Instance Evm_InspectSystemCallEvm : InspectSystemCallEvm IEvm ExecutionResult (EVMError E) :=
  fun self caller system_contract_address data =>
  match TxEnv_new_system_tx_with_caller caller system_contract_address data with
  | None => Panicked
  | Some tx =>
      inspect_run_system_call steps fuel
        (with_evm (with_ctx (Context_set_tx tx (evm_ctx (ie_evm self))) (ie_evm self)) self)
  end.

#[global] Instance InspectedEvm_ExecuteCommitEvm `{!DatabaseCommit DB} : ExecuteCommitEvm IEvm EvmState :=
  fun state self => let? evm := exec_commit state (ie_evm self) in Some (with_evm evm self).
End InspectInstances.
