(* ===== verification/InspectorLaws.v ===== *)
(** Inspection does not disturb execution.  An inspector that only watches
    ([Observer]: its hooks give back the interpreter and the context as they got
    them, no outcome of its own, and at most another gas of a failed outcome)
    sees a run of the handler that panics, runs out of fuel, fails and succeeds
    exactly as the run without an inspector does, and whose calls and creations
    are reported in a well-bracketed order. *)
From S2P Require Import Prelude Hardfork Bytecode State Database WarmAddresses Precompile JournalEntry JournalInner Gas InstructionResult Stack SharedMemory FrameStack Interpreter Env Host Context Validation Frame PreExecution PostExecution Macros Instructions HostInstructions Opcode InstructionTable Handler TxBuilder OpTypes L1Block OpHandler ExecApi Inspector.
From stdpp Require Import base numbers list option tactics gmap strings.
From Stdlib Require Import ZArith Lia.

Local Open Scope Z_scope.

(** * Logs are reported *)

Section Logs.
Context `{BitVec, Keccak} {DB E Auth : Type} `{!Database DB E}.
Abbreviation Ctx := (Context DB E Auth).

Definition has_returned (i : Interpreter) : Prop :=
  exists r, eb_action (i_bytecode i) = Some (Return r).

(** An instruction that returns early has set a [Return] action; otherwise
    it establishes [P]. *)
Definition ends {A} (P : Ctx -> Prop) (m : Instr Ctx A) : Prop :=
  forall i h r i' h', m i h = Some (r, i', h') ->
    match r with None => has_returned i' | Some _ => P h' end.

Lemma ends_bind {A B} P Q (m : Instr Ctx A) (k : A -> Instr Ctx B) :
  ends Q m -> (forall a, ends P (k a)) -> ends P (m ≫= k).
Proof.
  intros Hm Hk i h r i' h'. unfold mbind, instr_bind.
  destruct (m i h) as [[[[a|] i1] h1]|] eqn:Hr; [apply Hk| |done].
  intros [= <- <- <-]. exact (Hm _ _ _ _ _ Hr).
Qed.
Lemma ends_halt {A} P f (Hf0 : forall i i', f i = Some i' -> has_returned i') : ends P (halt_with (A := A) f).
Proof.
  intros i h r i' h'. unfold halt_with, update, early, mbind, instr_bind.
  destruct (f i) as [j|] eqn:Hf; [|done]. intros [= <- <- <-]. by eapply Hf0.
Qed.
Lemma has_returned_halt r i i' : Interpreter_halt r i = Some i' -> has_returned i'.
Proof.
  unfold Interpreter_halt, Interpreter_set_action, ExtBytecode_set_action.
  destruct (eb_continue_execution _); [|done]. intros [= <-]. by eexists.
Qed.
Lemma ends_ret {A} (a : A) : ends (fun _ => True) (mret a).
Proof. by intros i h r i' h' [= <- <- <-]. Qed.
Lemma ends_read {A} (f : Interpreter -> option A) : ends (fun _ => True) (read f).
Proof. intros i h r i' h'. unfold read. destruct (f i); [|done]. by intros [= <- <- <-]. Qed.
Lemma ends_update f : ends (fun _ => True) (update f).
Proof. intros i h r i' h'. unfold update. destruct (f i); [|done]. by intros [= <- <- <-]. Qed.
Lemma ends_panic {A} P : ends P (panic (A := A)).
Proof. done. Qed.
Lemma ends_popn n : ends (fun _ => True) (popn n).
Proof.
  intros i h r i' h'. unfold popn. destruct (Stack_popn n _) as [[xs s]|]; [by intros [= <- <- <-]|].
  exact (ends_halt (fun _ => True) Interpreter_halt_underflow (has_returned_halt _) i h r i' h').
Qed.
Lemma ends_record_cost c : ends (fun _ => True) (record_cost c).
Proof. intros i h r i' h'. unfold record_cost. destruct (Gas_record_cost _ _). by intros [= <- <- <-]. Qed.
Lemma ends_record_cost_unsafe c : ends (fun _ => True) (record_cost_unsafe c).
Proof. intros i h r i' h'. unfold record_cost_unsafe. destruct (Gas_record_cost_unsafe _ _). by intros [= <- <- <-]. Qed.
Lemma ends_resize o l : ends (fun _ => True) (resize_memory_with_gas o l).
Proof.
  intros i h r i' h'. unfold resize_memory_with_gas. destruct (resize_memory _ _ _ _ _) as [[[ok g] buf]|]; [|done].
  by intros [= <- <- <-].
Qed.

Create HintDb ends.
#[local] Hint Resolve ends_ret ends_read ends_update ends_panic ends_popn ends_record_cost ends_record_cost_unsafe ends_resize : ends.
#[local] Hint Extern 1 (ends _ (halt_with _)) => apply ends_halt; intros ? ?; apply has_returned_halt : ends.
Ltac ends_tac := repeat first
  [ progress auto with ends
  | match goal with
    | |- ends _ (_ ≫= _) => eapply ends_bind; [|intros ?]
    | |- ends _ (if ?b then _ else _) => destruct b
    | |- ends _ (match ?x with _ => _ end) => destruct x
    end ].

Lemma log_instruction_logs n : ends (fun h => ctx_logs h <> []) (host_instr_log n).
Proof.
  unfold host_instr_log, require_non_staticcall, popn2, as_usize_or_fail, as_usize_or_fail_with, gas_or_fail, gas,
    resize_memory_or_halt, memory_slice_len, target_address, is_static.
  ends_tac.
  all: intros i h r i' h'; unfold host_call; intros [= <- <- <-]; unfold ctx_logs; cbn.
  all: by destruct (j_logs _).
Qed.

Lemma log_instruction opcode :
  is_log_opcode opcode = true ->
  exists n, (instruction_table (H := Ctx)) !! Z.to_nat opcode = Some (mkInstruction (host_instr_log n) 0).
Proof.
  unfold is_log_opcode, OP_LOG0, OP_LOG4. intros Ho.
  assert (opcode = 0xA0 \/ opcode = 0xA1 \/ opcode = 0xA2 \/ opcode = 0xA3 \/ opcode = 0xA4)
    as [-> | [-> | [-> | [-> | ->]]]] by lia;
    [exists 0%nat|exists 1%nat|exists 2%nat|exists 3%nat|exists 4%nat]; reflexivity.
Qed.

Lemma log_step opcode i h r i' h' :
  ExtBytecode_opcode (i_bytecode i) = Some opcode -> is_log_opcode opcode = true ->
  Interpreter_step (instruction_table (H := Ctx)) i h = Some (r, i', h') -> has_returned i' \/ ctx_logs h' <> [].
Proof.
  intros Hop Hl Hs. destruct (log_instruction opcode Hl) as [n Hn].
  assert (ends (fun h => ctx_logs h <> []) (
    update (fun i => let? b := ExtBytecode_relative_jump 1 (i_bytecode i) in Some (with_bytecode b i)) ;;
    oog ← record_cost_unsafe 0;
    if (oog : bool) then halt_with Interpreter_halt_oog else host_instr_log n)) as He
    by (ends_tac; apply log_instruction_logs).
  specialize (He i h r i' h'). unfold Interpreter_step, read, get_instruction, mbind, instr_bind in *.
  rewrite Hop, Hn in Hs. cbn [fn_ static_gas mret instr_ret] in Hs. destruct r; [right|left]; apply He, Hs.
Qed.
End Logs.

(** * Outcomes that execution does not tell apart *)

(** The gas of a failed result is never returned to anyone. *)
Definition same_result (r' r : InterpreterResult) : Prop :=
  ir_result r' = ir_result r /\ ir_output r' = ir_output r /\
  (InstructionResult_is_error (ir_result r) = true \/ ir_gas r' = ir_gas r).
Definition same_frame_result (r' r : FrameResult) : Prop :=
  match r', r with
  | FR_Call o', FR_Call o => same_result (co_result o') (co_result o) /\ co_memory_offset o' = co_memory_offset o
  | FR_Create o', FR_Create o => same_result (cro_result o') (cro_result o) /\ cro_address o' = cro_address o
  | _, _ => False
  end.

Lemma same_result_refl r : same_result r r.
Proof. repeat split. by right. Qed.
Lemma same_frame_result_refl r : same_frame_result r r.
Proof. destruct r; split; [apply same_result_refl|done|apply same_result_refl|done]. Qed.
Lemma same_result_trans r1 r2 r3 : same_result r1 r2 -> same_result r2 r3 -> same_result r1 r3.
Proof.
  intros (H1 & H2 & H3) (H4 & H5 & H6). split_and!; [congruence..|].
  destruct H6 as [|H6]; [by left|]. destruct H3 as [H3|H3]; [left|right]; congruence.
Qed.

(** * Inspectors that only watch *)

(** [R s ks]: the inspector [s] has seen the calls ([true]) and creations
    ([false]) of [ks] start and not end, the innermost first. *)
Class Observer (INSP CTX : Type) `{!Inspector INSP CTX} (R : INSP -> list bool -> Prop) : Prop := {
  obs_initialize_interp s ks i c : R s ks -> exists s', insp_initialize_interp s i c = Some (s', i, c) /\ R s' ks;
  obs_step s ks i c : R s ks ->
    (exists s', insp_step s i c = Some (s', i, c) /\ R s' ks) \/
    (insp_step s i c = None /\ ExtBytecode_opcode (i_bytecode i) = None);
  obs_step_end s ks i c : R s ks -> exists s', insp_step_end s i c = Some (s', i, c) /\ R s' ks;
  obs_log s ks i c log : R s ks -> exists s', insp_log s i c log = Some (s', i, c) /\ R s' ks;
  obs_call s ks c inputs : R s ks -> exists s', insp_call s c inputs = Some (None, s', c, inputs) /\ R s' (true :: ks);
  obs_call_end s ks c inputs o : R s (true :: ks) ->
    exists s' o', insp_call_end s c inputs o = Some (s', c, o') /\ same_frame_result (FR_Call o') (FR_Call o) /\ R s' ks;
  obs_create s ks c inputs : R s ks ->
    exists s', insp_create s c inputs = Some (None, s', c, inputs) /\ R s' (false :: ks);
  obs_create_end s ks c inputs o : R s (false :: ks) ->
    exists s' o', insp_create_end s c inputs o = Some (s', c, o') /\ same_frame_result (FR_Create o') (FR_Create o) /\ R s' ks;
  obs_selfdestruct s ks a t v : R s ks -> exists s', insp_selfdestruct s a t v = Some s' /\ R s' ks }.

Section Transparent.
Context `{BitVec, Keccak, Crypto, CreateAddress, VecGrow, !VecGrowLaws} {DB E Auth : Type}.
Context `{!Database DB E, !AuthorizationTr Auth}.
Abbreviation Ctx := (Context DB E Auth).
Abbreviation Evm := (@Evm DB E Auth).
Context {INSP : Type} `{!Inspector INSP Ctx} (R : INSP -> list bool -> Prop) `{!Observer INSP Ctx R}.

(** * One frame *)

Lemma inspect_instruction_sim i c s ks :
  R s ks ->
  match inspect_instruction instruction_table i c s with
  | None => Interpreter_step instruction_table i c = None
  | Some (s', i', c') => exists r, Interpreter_step instruction_table i c = Some (r, i', c') /\ R s' ks
  end.
Proof.
  intros Hs. unfold inspect_instruction.
  destruct (ExtBytecode_opcode (i_bytecode i)) as [opcode|] eqn:Hop.
  2: { unfold Interpreter_step, read, mbind, instr_bind. by rewrite Hop. }
  destruct (Interpreter_step _ i c) as [[[r i'] c']|] eqn:Hst; [|done].
  assert (exists s1, (if is_log_opcode opcode then inspect_log i' c' s else Some (s, i', c')) = Some (s1, i', c') /\ R s1 ks)
    as (s1 & -> & Hs1).
  { destruct (is_log_opcode opcode) eqn:Hl; [|by exists s]. unfold inspect_log.
    destruct (log_step opcode i c r i' c' Hop Hl Hst) as [[res ->]|Hne]; [by exists s|].
    destruct (match eb_action (i_bytecode i') with Some _ => _ | None => _ end); [by exists s|].
    destruct (last (ctx_logs c')) as [log|] eqn:Hlast; [by apply obs_log|]. by apply last_None in Hlast. }
  destruct (obs_step_end s1 ks i' c' Hs1) as (s2 & -> & Hs2). by exists r.
Qed.

Lemma inspect_loop_sim fuel : forall i c s ks,
  R s ks -> eb_continue_execution (i_bytecode i) = true ->
  match inspect_loop fuel instruction_table i c s with
  | Inspect_panic => Interpreter_run_plain fuel instruction_table i c = Run_panic
  | Inspect_out_of_fuel => Interpreter_run_plain fuel instruction_table i c = Run_out_of_fuel
  | Inspect_done s' i' c' => R s' ks /\
      Interpreter_run_plain fuel instruction_table i c =
        match Interpreter_take_next_action i' with Some (a, i) => Run_done a i c' | None => Run_panic end
  end.
Proof.
  assert (forall n i c, eb_continue_execution (i_bytecode i) = false ->
    Interpreter_run_plain n instruction_table i c =
      match Interpreter_take_next_action i with Some (a, i) => Run_done (H := Ctx) a i c | None => Run_panic end) as Hend.
  { intros [|n] i c Hc; cbn [Interpreter_run_plain]; unfold ExtBytecode_is_not_end; by rewrite Hc. }
  induction fuel as [|fuel IH]; intros i c s ks Hs Hc; cbn [inspect_loop Interpreter_run_plain];
    unfold ExtBytecode_is_not_end; [by rewrite Hc|].
  destruct (obs_step s ks i c Hs) as [(s1 & -> & Hs1)|[-> Hop]]; rewrite Hc.
  2: { unfold Interpreter_step, read, mbind, instr_bind. by rewrite Hop. }
  pose proof (inspect_instruction_sim i c s1 ks Hs1) as Hi.
  destruct (inspect_instruction instruction_table i c s1) as [[[s2 i2] c2]|]; [|by rewrite Hi].
  destruct Hi as (r & -> & Hs2). destruct (eb_continue_execution (i_bytecode i2)) eqn:Hc2; [by apply IH|].
  split; [done|]. by apply Hend.
Qed.

Lemma take_next_action_continues i a i' :
  Interpreter_take_next_action i = Some (a, i') -> eb_continue_execution (i_bytecode i') = true.
Proof.
  unfold Interpreter_take_next_action. destruct (eb_action _); [|done]. by intros [= <- <-].
Qed.

(** [inspect_instructions] is [run_plain]. *)
Lemma inspect_instructions_sim fuel i c s ks :
  R s ks -> eb_continue_execution (i_bytecode i) = true ->
  match inspect_instructions fuel instruction_table i c s with
  | Panicked => Interpreter_run_plain fuel instruction_table i c = Run_panic
  | Out_of_fuel => Interpreter_run_plain fuel instruction_table i c = Run_out_of_fuel
  | Done (a, i', c', s') =>
      Interpreter_run_plain fuel instruction_table i c = Run_done a i' c' /\ R s' ks /\
      eb_continue_execution (i_bytecode i') = true
  end.
Proof.
  intros Hs Hc. unfold inspect_instructions. pose proof (inspect_loop_sim fuel i c s ks Hs Hc) as Hl.
  destruct (inspect_loop fuel instruction_table i c s) as [| |s1 i1 c1]; [done..|]. destruct Hl as [Hs1 ->].
  unfold inspect_action. destruct (Interpreter_take_next_action i1) as [[a i2]|] eqn:Ha; [|done].
  apply take_next_action_continues in Ha.
  assert (exists s2, match a with
    | Return result => if bool_decide (ir_result result = IR_SelfDestruct) then inspect_selfdestruct c1 s1 else Some s1
    | NewFrame _ => Some s1 end = Some s2 /\ R s2 ks) as (s2 & -> & Hs2); [|by cbn].
  destruct a as [|result]; [by exists s1|]. destruct (bool_decide _); [|by exists s1]. unfold inspect_selfdestruct.
  destruct (last _) as [[]|]; first [by exists s1|by apply obs_selfdestruct].
Qed.

(** * The frames *)

Definition input_kind (input : FrameInput) : option bool :=
  match input with FI_Call _ => Some true | FI_Create _ => Some false | FI_Empty => None end.
Definition result_kind (r : FrameResult) : bool := match r with FR_Call _ => true | FR_Create _ => false end.
Definition frame_kind (f : EthFrame) : bool := FrameData_is_call (ef_data f).
(** The kinds of the frames in use, the innermost first. *)
Definition kinds (fs : list EthFrame) : list bool := rev (map frame_kind fs).

(** A frame in use that waits to run. *)
Record frame_ok (f : EthFrame) : Prop := {
  fr_kind : input_kind (ef_input f) = Some (frame_kind f);
  fr_continues : eb_continue_execution (i_bytecode (ef_interpreter f)) = true;
  fr_unfinished : ef_is_finished f = false }.

Record stack_is (evm : Evm) (fs : list EthFrame) : Prop := {
  st_ok : frame_stack_ok (evm_frame_stack evm);
  st_frames : frames (evm_frame_stack evm) = fs;
  st_frames_ok : Forall frame_ok fs }.

Lemma kinds_snoc fs f : kinds (fs ++ [f]) = frame_kind f :: kinds fs.
Proof. unfold kinds. by rewrite map_app, rev_app_distr. Qed.

(** The hook of a frame that starts, and the one of a frame that ends. *)
Lemma frame_start_sim c s input ks :
  R s ks ->
  match input_kind input with
  | None => frame_start c s input = None
  | Some k => exists s', frame_start c s input = Some (None, c, s', input) /\ R s' (k :: ks)
  end.
Proof.
  intros Hs. destruct input as [|i|i]; cbn; [done| |].
  - destruct (obs_call s ks c i Hs) as (s' & -> & ?). by exists s'.
  - destruct (obs_create s ks c i Hs) as (s' & -> & ?). by exists s'.
Qed.

Lemma frame_end_sim c s input r ks :
  input_kind input = Some (result_kind r) -> R s (result_kind r :: ks) ->
  exists s' r', frame_end c s input r = Some (c, s', r') /\ same_frame_result r' r /\ R s' ks.
Proof.
  intros Hk Hs. destruct r as [o|o], input as [|i|i]; try done; cbn in *.
  - destruct (obs_call_end s ks c i o Hs) as (s' & o' & -> & ? & ?). by exists s', (FR_Call o').
  - destruct (obs_create_end s ks c i o Hs) as (s' & o' & -> & ? & ?). by exists s', (FR_Create o').
Qed.

Lemma return_borrow_buffer (c : Ctx) i : return_buffer (borrow_buffer c i) c = c.
Proof. by destruct c as [? ? ? ? [] ? ?]. Qed.

Lemma process_next_action_frame f (c : Ctx) a r f' c' :
  process_next_action f c a = Some (r, f', c') ->
  ef_input f' = ef_input f /\ ef_data f' = ef_data f /\ ef_is_finished f' = ef_is_finished f /\
  i_bytecode (ef_interpreter f') = i_bytecode (ef_interpreter f) /\
  match r with Item _ => True | Result r => result_kind r = frame_kind f end.
Proof.
  unfold process_next_action, frame_kind. destruct a as [input|res].
  - destruct (SharedMemory_new_child_context _ _) as [[child memory]|]; [|done]. by intros [= <- <- <-].
  - destruct (ef_data f) as [range|created] eqn:Hd.
    + destruct (close_journal _ _ _); [|done]. intros [= <- <- <-]. by rewrite Hd.
    + destruct (in_journal _ _) as [[? ?]|]; [|done]. intros [= <- <- <-]. by rewrite Hd.
Qed.

(** Running the top frame. *)
Lemma inspect_frame_run_sim steps evm s fs f :
  stack_is evm (fs ++ [f]) -> R s (kinds (fs ++ [f])) ->
  match inspect_frame_run steps (mkInspectedEvm evm s) with
  | Panicked => frame_run steps evm = Panicked
  | Out_of_fuel => frame_run steps evm = Out_of_fuel
  | Done (Item init, self) =>
      frame_run steps evm = Done (Item init, ie_evm self) /\
      exists f', stack_is (ie_evm self) (fs ++ [f']) /\ R (ie_inspector self) (kinds (fs ++ [f']))
  | Done (Result r', self) => exists r f',
      frame_run steps evm = Done (Result r, ie_evm self) /\ same_frame_result r' r /\
      frame_stack_ok (evm_frame_stack (ie_evm self)) /\ frames (evm_frame_stack (ie_evm self)) = fs ++ [f'] /\
      ef_is_finished f' = true /\ R (ie_inspector self) (kinds fs)
  end.
Proof.
  intros [Hok Hf Hfok] Hs. unfold inspect_frame_run, frame_run. cbn [ie_evm ie_inspector].
  destruct (FrameStack_top _ _ _ Hok Hf) as [-> Hset].
  apply Forall_app in Hfok as [Hfs [[Hk Hc Hu] _]%Forall_cons].
  pose proof (inspect_instructions_sim steps (borrow_buffer (evm_ctx evm) (ef_interpreter f)) (evm_ctx evm) s _ Hs Hc) as Hi.
  destruct (inspect_instructions _ _ _ _ _) as [| |[[[a i] c] s1]]; [by rewrite Hi..|]. destruct Hi as (-> & Hs1 & Hc1).
  destruct (process_next_action _ _ a) as [[[r f1] c1]|] eqn:Hp; [|done].
  apply process_next_action_frame in Hp as (Hin & Hd & Hfin & Hb & Hr). cbn in Hin, Hd, Hfin, Hb, Hr.
  rewrite kinds_snoc in Hs1.
  assert (frame_kind f1 = frame_kind f) as Hk1 by (unfold frame_kind; by rewrite Hd).
  destruct r as [init|r]; cbn [ItemOrResult_is_result].
  - destruct (Hset f1) as (fs1 & -> & Hok1 & Hf1). cbn [of_option ie_evm ie_inspector]. split; [done|].
    exists f1. rewrite kinds_snoc, Hk1. split; [|done]. split; [done|done|]. apply Forall_app. split; [done|].
    apply Forall_singleton. split; [by rewrite Hin, Hk1|by rewrite Hb|congruence].
  - destruct (frame_end_sim c1 s1 (ef_input f1) r (kinds fs)) as (s2 & r' & -> & Hsame & Hs2).
    { by rewrite Hin, Hk, Hr. } { unfold frame_kind in *. cbn in Hr. by rewrite Hr. }
    destruct (Hset (EthFrame_set_finished true f1)) as (fs1 & -> & Hok1 & Hf1). cbn [of_option ie_evm ie_inspector].
    exists r, (EthFrame_set_finished true f1). by split_and!.
Qed.

(** What a frame is made of, or the kind of the outcome it has at once. *)
Definition made (o : OutFrame) (pool : FrameStack EthFrame) (input : FrameInput) (res : FrameOrResult) : Prop :=
  match res with
  | Result r => input_kind input = Some (result_kind r)
  | Item (token, pool') => exists upd, init_slot EthFrame_invalid upd o pool = Some (token, pool') /\
      forall x, frame_ok (upd x) /\ input_kind input = Some (frame_kind (upd x)) /\
        i_buffer (ef_interpreter (upd x)) = []
  end.

Ltac case_bind H :=
  repeat (cbn beta iota in H;
  lazymatch type of H with
  | Some (Err _, _) = Some (Ok _, _) => discriminate H
  | Some _ = Some _ => injection H as <- <-
  | None = Some _ => discriminate H
  | (if ?b then _ else _) = _ => destruct b
  | (let '(_, _) := ?m in _) = _ => destruct m
  | match ?m with _ => _ end = Some _ =>
      lazymatch m with
      | init_slot _ _ _ _ => destruct m as [[? ?]|] eqn:?
      | _ => destruct m
      end
  end).

Lemma init_with_context_made o pool (ctx : Ctx) precompiles init res ctx' :
  init_with_context o pool ctx precompiles init = Some (Ok res, ctx') -> made o pool (fi_frame_input init) res.
Proof.
  unfold init_with_context. destruct (fi_frame_input init) as [|inputs|inputs]; [done| |].
  - unfold make_call_frame. intros Hm. case_bind Hm; try done.
    eexists. split; [done|]. intros x. by split_and!.
  - unfold make_create_frame. intros Hm. case_bind Hm; try done.
    eexists. split; [done|]. intros x. by split_and!.
Qed.

(** The pool a frame is put into: the frames in use are those there were. *)
Definition next_slot (fs : FrameStack EthFrame) : option (OutFrame * FrameStack EthFrame) :=
  if bool_decide (fs_index fs = None) then Some (FrameStack_start_init fs) else FrameStack_get_next fs.

Lemma frames_reserve (fs : FrameStack EthFrame) : frame_stack_ok fs -> frames (reserve 8 fs) = frames fs.
Proof.
  intros Hok. destruct (reserve_spec fs Hok) as (_ & Hx & _ & Hs). unfold frames. rewrite Hx.
  destruct (fs_index fs) as [i|] eqn:Hi; [|done]. f_equal. apply frames_take_eq. intros j Hj. apply Hs.
  pose proof (fok_index _ Hok i Hi). lia.
Qed.

Lemma next_slot_frames fs o fs1 :
  frame_stack_ok fs -> next_slot fs = Some (o, fs1) -> frame_stack_ok fs1 /\ frames fs1 = frames fs.
Proof.
  intros Hok. unfold next_slot. case_bool_decide as Hx.
  - unfold FrameStack_start_init. intros [= _ <-].
    assert (frame_stack_ok (mkFrameStack (fs_slots fs) (fs_len fs) None)) as Ho by (destruct Hok; by split).
    cbn [fs_len]. destruct (fs_len fs =? 0)%nat; [split; [by apply reserve_ok|rewrite frames_reserve by done]|split; [done|]];
      unfold frames; by rewrite Hx.
  - unfold FrameStack_get_next. destruct (fs_index fs); [|done]. intros [= _ <-].
    destruct (_ =? _)%nat; [|done]. split; [by apply reserve_ok|by apply frames_reserve].
Qed.

(** A new frame is put on top of the ones in use. *)
Lemma pushed_frames fs o fs1 upd token fs2 fs3 :
  frame_stack_ok fs -> next_slot fs = Some (o, fs1) -> init_slot EthFrame_invalid upd o fs1 = Some (token, fs2) ->
  (if bool_decide (fs_index fs = None) then FrameStack_end_init token fs2 else FrameStack_push token fs2) = Some fs3 ->
  frame_stack_ok fs3 /\ exists x, frames fs3 = frames fs ++ [upd x].
Proof.
  intros Hok. unfold next_slot. case_bool_decide as Hx.
  - pose proof (FrameStack_start EthFrame_invalid upd fs Hok) as Hs. intros Hn. apply (inj Some) in Hn. rewrite Hn in Hs.
    destruct Hs as (x & s2 & s3 & Hi & He & Hok3 & Hf). intros Hi' He'. rewrite Hi in Hi'. injection Hi' as <- <-.
    rewrite He in He'. injection He' as <-. split; [done|]. exists x. rewrite Hf.
    by rewrite (proj1 (frames_nil fs Hok) Hx).
  - destruct (fs_index fs) as [i|] eqn:Hi0; [|done]. intros Hn Hi' He'.
    destruct (FrameStack_nested EthFrame_invalid upd fs i Hok Hi0) as (o' & s1 & x & s2 & s3 & Hn' & Hi & He & Hok3 & Hf).
    rewrite Hn' in Hn. injection Hn as <- <-. rewrite Hi in Hi'. injection Hi' as <- <-. rewrite He in He'.
    injection He' as <-. split; [done|by exists x].
Qed.

Lemma frame_init_frames (evm : Evm) fs init res evm' :
  stack_is evm fs -> frame_init evm init = Some (res, evm') ->
  match res with
  | Err _ => frame_stack_ok (evm_frame_stack evm')
  | Ok (Result r) => stack_is evm' fs /\ input_kind (fi_frame_input init) = Some (result_kind r)
  | Ok (Item f) => stack_is evm' (fs ++ [f]) /\ input_kind (fi_frame_input init) = Some (frame_kind f) /\
      i_buffer (ef_interpreter f) = []
  end.
Proof.
  intros [Hok Hf Hfok]. unfold frame_init. fold (next_slot (evm_frame_stack evm)).
  destruct (next_slot (evm_frame_stack evm)) as [[o fs1]|] eqn:Hn; [|done].
  destruct (init_with_context o fs1 _ _ init) as [[[res1|e] ctx]|] eqn:Hi; [| |done].
  2: { intros [= <- <-]. by destruct (next_slot_frames _ _ _ Hok Hn). }
  apply init_with_context_made in Hi. destruct res1 as [[token fs2]|r]; cbn in Hi.
  - destruct Hi as (upd & Hi & Hupd).
    destruct (if bool_decide _ then _ else _) as [fs3|] eqn:He; [|done].
    destruct (pushed_frames _ _ _ _ _ _ _ Hok Hn Hi He) as (Hok3 & x & Hf3). rewrite Hf in Hf3.
    destruct (FrameStack_top fs3 fs (upd x) Hok3 Hf3) as [-> _]. intros [= <- <-].
    destruct (Hupd x) as (Hx & Hk & Hb). split_and!; [|done|done]. split; [done|done|].
    apply Forall_app. split; [done|by apply Forall_singleton].
  - intros [= <- <-]. destruct (next_slot_frames _ _ _ Hok Hn) as [Hok1 Hf1]. split; [|done].
    split; [done|by rewrite <- Hf|done].
Qed.

Lemma with_ctx_same (evm : Evm) : with_ctx (evm_ctx evm) evm = evm.
Proof. by destruct evm. Qed.
Lemma with_frame_stack_same (evm : Evm) : with_frame_stack (evm_frame_stack evm) evm = evm.
Proof. by destruct evm. Qed.
Lemma FrameStack_set_same (fs : FrameStack EthFrame) f : FrameStack_get fs = Some f -> FrameStack_set f fs = Some fs.
Proof.
  unfold FrameStack_get, FrameStack_set. destruct fs as [slots len [i|]]; [cbn|done].
  destruct (slots !! i) as [slot|] eqn:Hs; [|done]. intros ->. by rewrite list_insert_id.
Qed.
Lemma frame_unchanged (c : Ctx) f :
  i_buffer (ef_interpreter f) = [] ->
  set_frame_interpreter (with_buffer [] (borrow_buffer c (ef_interpreter f))) f = f.
Proof. destruct f as [? ? ? ? [] ?]. cbn. by intros ->. Qed.

(** Making a frame. *)
Lemma inspect_frame_init_sim evm s fs init :
  stack_is evm fs -> R s (kinds fs) ->
  match inspect_frame_init (mkInspectedEvm evm s) init with
  | None => frame_init evm init = None
  | Some (Err e, self) => frame_init evm init = Some (Err e, ie_evm self) /\ frame_stack_ok (evm_frame_stack (ie_evm self))
  | Some (Ok (Item _), self) => exists f, frame_init evm init = Some (Ok (Item f), ie_evm self) /\
      stack_is (ie_evm self) (fs ++ [f]) /\ R (ie_inspector self) (kinds (fs ++ [f]))
  | Some (Ok (Result r'), self) => exists r, frame_init evm init = Some (Ok (Result r), ie_evm self) /\
      same_frame_result r' r /\ stack_is (ie_evm self) fs /\ R (ie_inspector self) (kinds fs)
  end.
Proof.
  intros Hst Hs. unfold inspect_frame_init. cbn [ie_evm ie_inspector].
  pose proof (frame_start_sim (evm_ctx evm) s (fi_frame_input init) _ Hs) as Hstart.
  destruct (input_kind (fi_frame_input init)) as [k|] eqn:Hk.
  2: { rewrite Hstart. unfold frame_init, init_with_context. destruct init as [d m []]; cbn in *; try done.
       by destruct (if bool_decide _ then _ else _) as [[? ?]|]. }
  destruct Hstart as (s1 & -> & Hs1). rewrite with_ctx_same.
  replace (mkFrameInit _ _ _) with init by (by destruct init).
  destruct (frame_init evm init) as [[[[f|r]|e] evm1]|] eqn:Hi; [| | |done].
  - destruct (frame_init_frames _ _ _ _ _ Hst Hi) as (Hst1 & Hk1 & Hb).
    destruct (obs_initialize_interp s1 (k :: kinds fs) (borrow_buffer (evm_ctx evm1) (ef_interpreter f)) (evm_ctx evm1) Hs1)
      as (s2 & -> & Hs2).
    rewrite return_borrow_buffer, with_ctx_same, (frame_unchanged _ _ Hb).
    destruct (FrameStack_top _ _ _ (st_ok _ _ Hst1) (st_frames _ _ Hst1)) as [Hget _].
    rewrite (FrameStack_set_same _ _ Hget), with_frame_stack_same. cbn [ie_evm ie_inspector].
    exists f. split_and!; [done|done|]. rewrite kinds_snoc. congruence.
  - destruct (frame_init_frames _ _ _ _ _ Hst Hi) as (Hst1 & Hk1). rewrite Hk in Hk1. injection Hk1 as ->.
    destruct (frame_end_sim (evm_ctx evm1) s1 (fi_frame_input init) r (kinds fs) Hk Hs1) as (s2 & r' & -> & Hr & Hs2).
    rewrite with_ctx_same. by exists r.
  - split; [done|]. exact (frame_init_frames _ _ _ _ _ Hst Hi).
Qed.

(** * Returning to the caller *)

Lemma insert_call_outcome_same o' o i buf :
  same_frame_result (FR_Call o') (FR_Call o) -> insert_call_outcome o' i buf = insert_call_outcome o i buf.
Proof.
  destruct o' as [[res' out' g'] m'], o as [[res out g] m]. intros [(Hr & Ho & Hg) Hm]. cbn in *. subst.
  destruct Hg as [He| ->]; [|done]. unfold insert_call_outcome. cbn [co_result ir_result ir_gas ir_output].
  destruct (InstructionResult_partition res) as [(? & ? & ? & ?)|[(? & ? & ? & ?)|(-> & ? & ? & ->)]]; [congruence..|done].
Qed.
Lemma insert_create_outcome_same o' o i :
  same_frame_result (FR_Create o') (FR_Create o) -> insert_create_outcome o' i = insert_create_outcome o i.
Proof.
  destruct o' as [[res' out' g'] m'], o as [[res out g] m]. intros [(Hr & Ho & Hg) Hm]. cbn in *. subst.
  destruct Hg as [He| ->]; [|done]. unfold insert_create_outcome. cbn [cro_result ir_result ir_gas ir_output].
  destruct (InstructionResult_partition res) as [(? & ? & ? & ?)|[(? & ? & ? & ?)|(-> & ? & ? & ->)]]; [congruence..|done].
Qed.

Lemma EthFrame_return_result_same f (c : Ctx) r' r :
  same_frame_result r' r -> EthFrame_return_result f c r' = EthFrame_return_result f c r.
Proof.
  intros Hr. unfold EthFrame_return_result. destruct (SharedMemory_free_child_context _ _). destruct (take_error _) as [[?|?] ?]; [|done].
  destruct r', r; try done; [by rewrite (insert_call_outcome_same _ _ _ _ Hr)|by rewrite (insert_create_outcome_same _ _ _ Hr)].
Qed.

Lemma insert_call_outcome_bytecode o i buf i' buf' :
  insert_call_outcome o i buf = Some (i', buf') -> i_bytecode i' = i_bytecode i.
Proof.
  unfold insert_call_outcome. destruct (bool_decide _); [done|]. destruct (InstructionResult_is_ok_or_revert _).
  - destruct (SharedMemory_set _ _ _ _); [|done]. by destruct (InstructionResult_is_ok _); intros [= <- <-].
  - by destruct (InstructionResult_is_ok _); intros [= <- <-].
Qed.
Lemma insert_create_outcome_bytecode o i i' :
  insert_create_outcome o i = Some i' -> i_bytecode i' = i_bytecode i.
Proof.
  unfold insert_create_outcome. destruct (bool_decide (_ = IR_FatalExternalError)); [done|].
  by destruct (InstructionResult_is_ok _); intros [= <-].
Qed.

Lemma EthFrame_return_result_ok f (c : Ctx) r x f' c' :
  frame_ok f -> EthFrame_return_result f c r = Some (x, (f', c')) -> frame_ok f' /\ frame_kind f' = frame_kind f.
Proof.
  intros [Hk Hc Hu]. unfold EthFrame_return_result. destruct (SharedMemory_free_child_context _ _) as [m buf].
  assert (forall i, i_bytecode i = i_bytecode (ef_interpreter f) ->
    frame_ok (set_frame_interpreter i f) /\ frame_kind (set_frame_interpreter i f) = frame_kind f) as Hset.
  { intros i Hi. split; [|done]. split; cbn; [done|by rewrite Hi|done]. }
  destruct (take_error _) as [[?|?] ?]; [|intros [= <- <- <-]; by apply Hset].
  destruct r as [o|o].
  - destruct (insert_call_outcome _ _ _) as [[i b]|] eqn:Hi; [|done]. intros [= <- <- <-]. apply Hset.
    by apply insert_call_outcome_bytecode in Hi.
  - destruct (insert_create_outcome _ _) as [i|] eqn:Hi; [|done]. intros [= <- <- <-]. apply Hset.
    by apply insert_create_outcome_bytecode in Hi.
Qed.

(** * The loop over the frames *)

Abbreviation IEvm := (InspectedEvm (DB := DB) (E := E) (Auth := Auth) (INSP := INSP)).

(** The inspected run [m'] does what the run [m] does, with values related by
    [eqv], and ends in a state for which [Q] holds. *)
Definition agree {A X} (eqv : A -> A -> Prop) (Q : A -> IEvm -> Prop)
    (m' : outcome (result A X * IEvm)) (m : outcome (result A X * Evm)) : Prop :=
  match m', m with
  | Panicked, Panicked | Out_of_fuel, Out_of_fuel => True
  | Done (Ok a', self), Done (Ok a, evm) => ie_evm self = evm /\ eqv a' a /\ Q a' self
  | Done (Err e', self), Done (Err e, evm) => ie_evm self = evm /\ e' = e /\ frame_stack_ok (evm_frame_stack evm)
  | _, _ => False
  end.

Lemma agree_go {A B X} (eqv : A -> A -> Prop) Q (eqv2 : B -> B -> Prop) Q2
    (m' : outcome (result A X * IEvm)) m (k' : A -> IEvm -> outcome (result B X * IEvm)) (k : A -> Evm -> outcome (result B X * Evm)) :
  agree eqv Q m' m ->
  (forall a' a self, eqv a' a -> Q a' self -> agree eqv2 Q2 (k' a' self) (k a (ie_evm self))) ->
  agree eqv2 Q2 (go! (a, self) := m' in k' a self) (go! (a, evm) := m in k a evm).
Proof.
  destruct m' as [| |[[a'|e'] self]], m as [| |[[a|e] evm]]; cbn; try done.
  intros (<- & ? & ?) Hk. by apply Hk.
Qed.

Definition same_option (r' r : option FrameResult) : Prop :=
  match r', r with Some a', Some a => same_frame_result a' a | None, None => True | _, _ => False end.
Definition loop_inv (r : option FrameResult) (self : IEvm) : Prop :=
  match r with
  | Some _ => frame_stack_ok (evm_frame_stack (ie_evm self)) /\ R (ie_inspector self) []
  | None => exists fs f, stack_is (ie_evm self) (fs ++ [f]) /\ R (ie_inspector self) (kinds (fs ++ [f]))
  end.

(** The result, put into the frame on top of [pool]. *)
Definition return_into (evm : Evm) (pool : FrameStack EthFrame) (r : FrameResult)
    : option (result (option FrameResult) (ContextError E) * Evm) :=
  let? frame := FrameStack_get pool in
  let? (x, (frame, ctx)) := EthFrame_return_result frame (evm_ctx evm) r in
  let? fs := FrameStack_set frame pool in
  Some (map_ok (fun _ => None) x, with_frame_stack fs (with_ctx ctx evm)).

Lemma return_into_sim evm pool fs f s r' r :
  frame_stack_ok pool -> frames pool = fs ++ [f] -> Forall frame_ok (fs ++ [f]) -> R s (kinds (fs ++ [f])) ->
  same_frame_result r' r ->
  agree same_option loop_inv (uninspected (return_into evm pool r') s) (of_option (return_into evm pool r)).
Proof.
  intros Hok Hf Hfok Hs Hr. unfold return_into. destruct (FrameStack_top pool fs f Hok Hf) as [-> Hset].
  rewrite (EthFrame_return_result_same f (evm_ctx evm) r' r Hr).
  destruct (EthFrame_return_result f (evm_ctx evm) r) as [[x [f1 c1]]|] eqn:He; [|done].
  apply Forall_app in Hfok as [Hfs [Hfo _]%Forall_cons]. destruct (EthFrame_return_result_ok _ _ _ _ _ _ Hfo He) as [Hf1 Hk1].
  destruct (Hset f1) as (fs1 & -> & Hok1 & Hfr1). destruct x as [u|e]; [|done]. split_and!; [done|done|].
  exists fs, f1. cbn [ie_evm ie_inspector]. rewrite kinds_snoc, Hk1, <- kinds_snoc. split; [|done].
  split; [done|done|]. apply Forall_app. split; [done|by apply Forall_singleton].
Qed.

Lemma frame_return_sim evm fs f s r' r :
  frame_stack_ok (evm_frame_stack evm) -> frames (evm_frame_stack evm) = fs ++ [f] -> Forall frame_ok fs ->
  same_frame_result r' r ->
  (if ef_is_finished f then R s (kinds fs) else frame_ok f /\ R s (kinds (fs ++ [f]))) ->
  agree same_option loop_inv (uninspected (frame_return_result evm r') s) (of_option (frame_return_result evm r)).
Proof.
  intros Hok Hf Hfok Hr Hs. destruct (FrameStack_top _ _ _ Hok Hf) as [Hget _].
  unfold frame_return_result. rewrite Hget. destruct (ef_is_finished f).
  - destruct (FrameStack_pop_frames _ _ _ Hok Hf) as [Hok1 Hf1]. case_bool_decide as Hx.
    + apply (frames_nil _ Hok1) in Hx. rewrite Hx in Hf1. subst fs. by split_and!.
    + destruct fs as [|g fs _] using rev_ind; [by apply (frames_nil _ Hok1) in Hf1|].
      by apply (return_into_sim evm _ fs g).
  - destruct Hs as [Hfo Hs]. case_bool_decide as Hx.
    + apply (frames_nil _ Hok) in Hx. rewrite Hx in Hf. by destruct fs.
    + apply (return_into_sim evm _ fs f); try done. apply Forall_app. split; [done|by apply Forall_singleton].
Qed.

Lemma inspect_exec_step_sim steps self :
  loop_inv None self -> agree same_option loop_inv (inspect_exec_step steps self) (exec_step steps (ie_evm self)).
Proof.
  destruct self as [evm s]. intros (fs & f & Hst & Hs). cbn [ie_evm ie_inspector] in *.
  unfold inspect_exec_step, exec_step. pose proof (inspect_frame_run_sim steps evm s fs f Hst Hs) as Hr.
  assert (Forall frame_ok fs) as Hfs by (by destruct Hst as [_ _ [? _]%Forall_app]).
  destruct (inspect_frame_run steps _) as [| |[[init|r'] self1]]; [by rewrite Hr..| |].
  - destruct Hr as (-> & f1 & Hst1 & Hs1). destruct self1 as [evm1 s1]. cbn [ie_evm ie_inspector] in *.
    pose proof (inspect_frame_init_sim evm1 s1 _ init Hst1 Hs1) as Hi.
    destruct (inspect_frame_init _ init) as [[[[f2|r']|e] self2]|].
    + destruct Hi as (g & -> & Hst2 & Hs2). split_and!; [done|done|]. by exists (fs ++ [f1]), g.
    + destruct Hi as (r & -> & Hsame & Hst2 & Hs2). cbn [of_option]. destruct Hst2 as [Hok2 Hf2 Hfok2].
      apply Forall_app in Hfok2 as [? [Hf1 _]%Forall_cons].
      apply (frame_return_sim _ fs f1); try done. by rewrite (fr_unfinished _ Hf1).
    + destruct Hi as [-> Hok2]. by split_and!.
    + by rewrite Hi.
  - destruct Hr as (r & f1 & -> & Hsame & Hok1 & Hf1 & Hfin & Hs1).
    apply (frame_return_sim _ fs f1); try done. by rewrite Hfin.
Qed.

Definition done_inv (_ : FrameResult) (self : IEvm) : Prop :=
  frame_stack_ok (evm_frame_stack (ie_evm self)) /\ R (ie_inspector self) [].

Lemma inspect_exec_loop_sim steps fuel : forall self,
  loop_inv None self -> agree same_frame_result done_inv (inspect_exec_loop steps fuel self) (exec_loop steps fuel (ie_evm self)).
Proof.
  induction fuel as [|fuel IH]; intros self Hinv; cbn [inspect_exec_loop exec_loop]; [done|].
  eapply agree_go; [by apply inspect_exec_step_sim|]. intros [a'|] [a|] self1 Ha Hq; try done. by apply IH.
Qed.

Lemma inspect_run_exec_loop_sim steps fuel self init :
  stack_is (ie_evm self) [] -> R (ie_inspector self) [] ->
  agree same_frame_result done_inv (inspect_run_exec_loop steps fuel self init) (run_exec_loop steps fuel (ie_evm self) init).
Proof.
  destruct self as [evm s]. cbn [ie_evm ie_inspector]. intros Hst Hs. unfold inspect_run_exec_loop, run_exec_loop.
  pose proof (inspect_frame_init_sim evm s [] init Hst Hs) as Hi.
  destruct (inspect_frame_init _ init) as [[[[f|r']|e] self1]|].
  - destruct Hi as (g & -> & Hst1 & Hs1). apply inspect_exec_loop_sim. by exists [], g.
  - destruct Hi as (r & -> & Hsame & [Hok _ _] & Hs1). by split_and!.
  - destruct Hi as [-> Hok]. by split_and!.
  - by rewrite Hi.
Qed.

(** * The whole transaction *)

Lemma last_frame_result_same (c : Ctx) r' r :
  same_frame_result r' r -> last_frame_result c r' = last_frame_result c r.
Proof.
  assert (forall res' res : InterpreterResult, same_result res' res ->
    InstructionResult_is_ok_or_revert (ir_result res) = true -> ir_gas res' = ir_gas res) as Hg.
  { intros res' res (_ & _ & [He|He]) Ho; [|done].
    destruct (InstructionResult_partition (ir_result res)) as [(? & ? & ? & ?)|[(? & ? & ? & ?)|(? & ? & ? & ?)]]; congruence. }
  assert (forall res, InstructionResult_is_ok res = true -> InstructionResult_is_ok_or_revert res = true) as Hor
    by (by intros []).
  destruct r' as [o'|o'], r as [o|o]; try done; intros [Hs Hm]; unfold last_frame_result;
    cbn [FrameResult_interpreter_result FrameResult_set_gas FrameResult_gas];
    unfold FrameResult_gas; cbn [FrameResult_interpreter_result];
    pose proof Hs as (Hr & Ho & _); specialize (Hg _ _ Hs); rewrite Hr, Ho, Hm;
    (destruct (InstructionResult_is_ok_or_revert _) eqn:Hor1; [by rewrite Hg|]);
    (destruct (InstructionResult_is_ok _) eqn:Hok1; [by rewrite Hor in Hor1|done]).
Qed.

Lemma agree_uninspected {A X} (Q : A -> IEvm -> Prop) (m : option (result A X * Evm)) s :
  (forall r evm, m = Some (r, evm) -> frame_stack_ok (evm_frame_stack evm)) ->
  (forall a evm, m = Some (Ok a, evm) -> Q a (mkInspectedEvm evm s)) ->
  agree eq Q (uninspected m s) (of_option m).
Proof. intros Hok Hq. destruct m as [[[a|e] evm]|]; cbn; [| |done]; split_and!; eauto. Qed.

Lemma agree_map_err {A X Y} (eqv : A -> A -> Prop) Q (g : X -> Y) m' m :
  agree eqv Q m' m -> agree eqv Q (outcome_map_err g m') (outcome_map_err g m).
Proof. destruct m' as [| |[[a'|e'] self]], m as [| |[[a|e] evm]]; cbn; try done. by intros (-> & -> & ?). Qed.

(** No frame is in use, which is how a transaction starts and ends. *)
Definition ready (evm : Evm) : Prop := frame_stack_ok (evm_frame_stack evm) /\ fs_index (evm_frame_stack evm) = None.

Lemma ready_stack evm : ready evm -> stack_is evm [].
Proof. intros [Hok Hx]. split; [done|by apply frames_nil|done]. Qed.
Lemma ready_clear (fs : FrameStack EthFrame) ctx p : frame_stack_ok fs -> ready (mkEvm ctx p (FrameStack_clear fs)).
Proof. intros [Hl Hi _]. by split; [split|]. Qed.

Lemma in_ctx_stack {A} (m : option (A * Ctx)) (evm : Evm) a evm' :
  in_ctx m evm = Some (a, evm') -> evm_frame_stack evm' = evm_frame_stack evm.
Proof. unfold in_ctx. destruct m as [[a1 c]|]; [|done]. by intros [= _ <-]. Qed.
Lemma pre_execution_stack arrival (evm : Evm) r evm' :
  pre_execution arrival evm = Some (r, evm') -> evm_frame_stack evm' = evm_frame_stack evm.
Proof.
  unfold pre_execution. destruct (in_ctx _ evm) as [[[u|e] evm1]|] eqn:Ha; [|intros [= _ <-]; by apply in_ctx_stack in Ha|done].
  destruct (load_accounts _ _) as [c1 p1]. intros Hb. apply in_ctx_stack in Ha, Hb. cbn in Hb. congruence.
Qed.
Lemma post_execution_stack (evm : Evm) x init rf r evm' :
  post_execution evm x init rf = Some (r, evm') -> evm_frame_stack evm' = evm_frame_stack evm.
Proof.
  unfold post_execution. destruct (in_ctx _ evm) as [[[u|e] evm1]|] eqn:Ha; [|intros [= _ <-]; by apply in_ctx_stack in Ha|done].
  apply in_ctx_stack in Ha. destruct (in_ctx _ evm1) as [[[u1|e] evm2]|] eqn:Hb; [| |done]; apply in_ctx_stack in Hb;
    intros [= _ <-]; congruence.
Qed.
Lemma execution_result_stack (evm : Evm) x r evm' :
  frame_stack_ok (evm_frame_stack evm) -> execution_result evm x = Some (r, evm') ->
  frame_stack_ok (evm_frame_stack evm') /\ match r with Ok _ => ready evm' | Err _ => True end.
Proof.
  intros Hok. unfold execution_result. destruct (take_error _) as [[?|?] c]; [|by intros [= <- <-]].
  destruct (output _ _) as [[res c1]|]; [|done]. intros [= <- <-]. split; [|by apply ready_clear].
  by destruct (ready_clear _ c1 (evm_precompiles evm) Hok).
Qed.

(** What an inspected phase ends in: the pool is well-formed and every call
    and creation that was reported has ended. *)
Definition ended {A} (_ : A) (self : IEvm) : Prop :=
  frame_stack_ok (evm_frame_stack (ie_evm self)) /\ R (ie_inspector self) [].
Definition ready_ended {A} (_ : A) (self : IEvm) : Prop := ready (ie_evm self) /\ R (ie_inspector self) [].

Lemma inspect_execution_sim steps fuel self init :
  ready (ie_evm self) -> R (ie_inspector self) [] ->
  agree eq ended (inspect_execution steps fuel self init) (execution steps fuel (ie_evm self) init).
Proof.
  intros Hst%ready_stack Hs. unfold inspect_execution, execution.
  destruct (first_frame_input _ _) as [[[input|e] ctx]|]; [| |done].
  2: { split_and!; [done|done|]. by destruct Hst. }
  eapply agree_go.
  - apply agree_map_err. apply (inspect_run_exec_loop_sim steps fuel (mkInspectedEvm (with_ctx ctx (ie_evm self)) _)); [|done].
    by destruct Hst.
  - intros a' a self1 Ha [Hok1 Hs1]. cbn. by split_and!; [|apply last_frame_result_same|].
Qed.

Lemma execution_result_sim self x :
  ended tt self ->
  agree eq ready_ended (uninspected (execution_result (ie_evm self) x) (ie_inspector self)) (of_option (execution_result (ie_evm self) x)).
Proof.
  intros [Hok Hs]. apply agree_uninspected.
  - intros r evm Hr. by destruct (execution_result_stack _ _ _ _ Hok Hr).
  - intros r evm Hr. by destruct (execution_result_stack _ _ _ _ Hok Hr).
Qed.

Lemma inspect_run_without_catch_error_sim arrival steps fuel self :
  ready (ie_evm self) -> R (ie_inspector self) [] ->
  agree eq ready_ended (inspect_run_without_catch_error arrival steps fuel self)
    (run_without_catch_error arrival steps fuel (ie_evm self)).
Proof.
  intros Hst Hs. unfold inspect_run_without_catch_error, run_without_catch_error.
  destruct (validate _) as [[init|e]|]; [| |done].
  2: { split_and!; [done|done|]. by destruct Hst. }
  eapply agree_go.
  { apply (agree_uninspected ready_ended).
    - intros r evm1 Hp%pre_execution_stack. rewrite Hp. apply Hst.
    - intros r evm1 Hp%pre_execution_stack. split; [|done]. unfold ready. cbn. by rewrite Hp. }
  intros a' a self1 -> [Hst1 Hs1]. eapply agree_go; [by apply inspect_execution_sim|].
  intros r' r self2 -> [Hok2 Hs2]. eapply agree_go.
  { apply (agree_uninspected ended).
    - intros r1 evm1 Hp%post_execution_stack. by rewrite Hp.
    - intros r1 evm1 Hp%post_execution_stack. split; [|done]. cbn. by rewrite Hp. }
  intros r1' r1 self3 -> Hs3. by apply execution_result_sim.
Qed.

(** What catching the errors makes of it. *)
Lemma inspect_catching_sim (m' : outcome (result ExecutionResult (EVMError E) * IEvm)) m :
  agree eq ready_ended m' m ->
  match inspect_catching m' with
  | Panicked => catching m = Panicked
  | Out_of_fuel => catching m = Out_of_fuel
  | Done (r, self) => catching m = Done (r, ie_evm self) /\ ready (ie_evm self) /\
      match r with Ok _ => R (ie_inspector self) [] | Err _ => True end
  end.
Proof.
  destruct m' as [| |[[a'|e'] self]], m as [| |[[a|e] evm]]; cbn; try done.
  - intros (<- & -> & ? & ?). by split_and!.
  - intros (<- & -> & Hok). unfold catch_error. destruct (Journal_discard_tx _); [|done]. cbn.
    split_and!; [done|by apply ready_clear|done].
Qed.

(** A new EVM is ready. *)
Lemma new_with_inspector_ready (ctx : Ctx) (inspector : INSP) precompiles :
  ready (ie_evm (Evm_new_with_inspector ctx inspector precompiles)).
Proof. split; [apply frame_stack_ok_prealloc|done]. Qed.

Lemma inspect_run_transparent_aux arrival steps fuel (self : IEvm) :
  ready (ie_evm self) -> R (ie_inspector self) [] ->
  match inspect_run arrival steps fuel self with
  | Panicked => run arrival steps fuel (ie_evm self) = Panicked
  | Out_of_fuel => run arrival steps fuel (ie_evm self) = Out_of_fuel
  | Done (r, self') => run arrival steps fuel (ie_evm self) = Done (r, ie_evm self') /\ ready (ie_evm self') /\
      match r with Ok _ => R (ie_inspector self') [] | Err _ => True end
  end.
Proof. intros Hst Hs. by apply inspect_catching_sim, inspect_run_without_catch_error_sim. Qed.

(** C7: an inspector that only watches does not change what a transaction
    does: on an EVM with no frame in use [inspect_run] panics, runs out of fuel,
    fails and succeeds exactly when [run] does, with the same result or error and
    the same context, precompiles and frame pool, although the loop over the
    instructions, the creation and the end of a frame are separate code.  It
    never panics on its own: a log that is reported has been made, and the input
    of a frame has the kind of its outcome.  When it succeeds every call and
    creation whose start was reported has been reported to end. *)
Theorem inspect_run_transparent arrival steps fuel (self : IEvm) :
  ready (ie_evm self) -> R (ie_inspector self) [] ->
  match inspect_run arrival steps fuel self with
  | Panicked => run arrival steps fuel (ie_evm self) = Panicked
  | Out_of_fuel => run arrival steps fuel (ie_evm self) = Out_of_fuel
  | Done (r, self') => run arrival steps fuel (ie_evm self) = Done (r, ie_evm self') /\ ready (ie_evm self') /\
      match r with Ok _ => R (ie_inspector self') [] | Err _ => True end
  end.
Proof. apply inspect_run_transparent_aux. Qed.

Lemma inspect_run_system_call_transparent steps fuel (self : IEvm) :
  ready (ie_evm self) -> R (ie_inspector self) [] ->
  match inspect_run_system_call steps fuel self with
  | Panicked => run_system_call steps fuel (ie_evm self) = Panicked
  | Out_of_fuel => run_system_call steps fuel (ie_evm self) = Out_of_fuel
  | Done (r, self') => run_system_call steps fuel (ie_evm self) = Done (r, ie_evm self') /\ ready (ie_evm self') /\
      match r with Ok _ => R (ie_inspector self') [] | Err _ => True end
  end.
Proof.
  intros Hst Hs. apply inspect_catching_sim. eapply agree_go; [by apply inspect_execution_sim|].
  intros r' r self2 -> Hs2. by apply execution_result_sim.
Qed.
End Transparent.

(** * The inspectors that only watch *)

Definition sees_all {INSP} (_ : INSP) (_ : list bool) : Prop := True.

#[global] Instance NoOpInspector_Observer {CTX} : Observer NoOpInspector CTX sees_all.
Proof.
  split; intros; try (left; by eexists); try (by eexists);
    (eexists _, _; split; [done|split; [apply same_frame_result_refl|done]]).
Qed.

(** [GasInspector] only spends the gas of failed outcomes. *)
Lemma spend_failed_same r : InstructionResult_is_error (ir_result r) = true -> same_result (spend_failed r) r.
Proof. intros He. repeat split. by left. Qed.

#[global] Instance StackInspector_Observer {CTX} : Observer StackInspector CTX sees_all.
Proof.
  split; intros s ks *; intros _; cbn; try (by eexists).
  - destruct (ExtBytecode_opcode _); [left; by eexists|by right].
  - unfold GasInspector_call_end. destruct (InstructionResult_is_error _) eqn:He; eexists _, _; (split; [done|]);
      split; [by split; [apply spend_failed_same|]|done|apply (same_frame_result_refl (FR_Call o))|done].
  - unfold GasInspector_create_end. destruct (InstructionResult_is_error _) eqn:He; eexists _, _; (split; [done|]);
      split; [by split; [apply spend_failed_same|]|done|apply (same_frame_result_refl (FR_Create o))|done].
Qed.

Definition pair_sees {L R} (P : L -> list bool -> Prop) (Q : R -> list bool -> Prop) (s : L * R) (ks : list bool) : Prop :=
  P s.1 ks /\ Q s.2 ks.
Definition either_sees {L R} (P : L -> list bool -> Prop) (Q : R -> list bool -> Prop) (s : L + R) (ks : list bool) : Prop :=
  match s with inl l => P l ks | inr r => Q r ks end.

Lemma same_frame_result_trans r1 r2 r3 : same_frame_result r1 r2 -> same_frame_result r2 r3 -> same_frame_result r1 r3.
Proof.
  destruct r1, r2, r3; try done; intros [Ha Hb] [Hc Hd]; (split; [by eapply same_result_trans|congruence]).
Qed.

#[global] Instance pair_Observer {L R CTX} `{!Inspector L CTX, !Inspector R CTX} P Q
    `{!Observer L CTX P, !Observer R CTX Q} : Observer (L * R) CTX (pair_sees P Q).
Proof.
  split; intros [l r] ks *; intros [Hl Hr]; cbn in *.
  - destruct (obs_initialize_interp l ks i c Hl) as (l' & -> & ?), (obs_initialize_interp r ks i c Hr) as (r' & -> & ?).
    by exists (l', r').
  - destruct (obs_step l ks i c Hl) as [(l' & -> & ?)|[-> ?]]; [|by right].
    destruct (obs_step r ks i c Hr) as [(r' & -> & ?)|[-> ?]]; [|by right]. left. by exists (l', r').
  - destruct (obs_step_end l ks i c Hl) as (l' & -> & ?), (obs_step_end r ks i c Hr) as (r' & -> & ?).
    by exists (l', r').
  - destruct (obs_log l ks i c log Hl) as (l' & -> & ?), (obs_log r ks i c log Hr) as (r' & -> & ?). by exists (l', r').
  - destruct (obs_call l ks c inputs Hl) as (l' & -> & ?), (obs_call r ks c inputs Hr) as (r' & -> & ?). by exists (l', r').
  - destruct (obs_call_end l ks c inputs o Hl) as (l' & o1 & -> & Hs1 & ?), (obs_call_end r ks c inputs o1 Hr) as (r' & o2 & -> & Hs2 & ?).
    exists (l', r'), o2. split; [done|]. split; [|done]. exact (same_frame_result_trans (FR_Call o2) (FR_Call o1) (FR_Call o) Hs2 Hs1).
  - destruct (obs_create l ks c inputs Hl) as (l' & -> & ?), (obs_create r ks c inputs Hr) as (r' & -> & ?). by exists (l', r').
  - destruct (obs_create_end l ks c inputs o Hl) as (l' & o1 & -> & Hs1 & ?), (obs_create_end r ks c inputs o1 Hr) as (r' & o2 & -> & Hs2 & ?).
    exists (l', r'), o2. split; [done|]. split; [|done]. exact (same_frame_result_trans (FR_Create o2) (FR_Create o1) (FR_Create o) Hs2 Hs1).
  - destruct (obs_selfdestruct l ks a t v Hl) as (l' & -> & ?), (obs_selfdestruct r ks a t v Hr) as (r' & -> & ?).
    by exists (l', r').
Qed.

#[global] Instance Either_Observer {L R CTX} `{!Inspector L CTX, !Inspector R CTX} P Q
    `{!Observer L CTX P, !Observer R CTX Q} : Observer (L + R) CTX (either_sees P Q).
Proof.
  split; intros [s|s] ks *; intros Hs; cbn in *.
  1-2: destruct (obs_initialize_interp s ks i c Hs) as (s' & -> & ?); by eexists.
  1-2: destruct (obs_step s ks i c Hs) as [(s' & -> & ?)|[-> ?]]; [left; by eexists|by right].
  1-2: destruct (obs_step_end s ks i c Hs) as (s' & -> & ?); by eexists.
  1-2: destruct (obs_log s ks i c log Hs) as (s' & -> & ?); by eexists.
  1-2: destruct (obs_call s ks c inputs Hs) as (s' & -> & ?); by eexists.
  1-2: destruct (obs_call_end s ks c inputs o Hs) as (s' & o' & -> & ? & ?); by eexists _, _.
  1-2: destruct (obs_create s ks c inputs Hs) as (s' & -> & ?); by eexists.
  1-2: destruct (obs_create_end s ks c inputs o Hs) as (s' & o' & -> & ? & ?); by eexists _, _.
  all: destruct (obs_selfdestruct s ks a t v Hs) as (s' & -> & ?); by eexists.
Qed.

(** * Counting *)

(** The sum of the values of a map. *)
Definition map_sum (m : gmap Z Z) : Z := foldr Z.add 0 (map snd (map_to_list m)).

Lemma map_sum_insert_new m k v : m !! k = None -> map_sum (<[k := v]> m) = v + map_sum m.
Proof.
  intros Hk. unfold map_sum. change (v + foldr Z.add 0 (map snd (map_to_list m)))
    with (foldr Z.add 0 (map snd ((k, v) :: map_to_list m))).
  assert (forall a b c : Z, a + (b + c) = b + (a + c)) as Hc by (intros; lia).
  apply (foldr_permutation_proper eq Z.add 0 Hc). apply Permutation_map, map_to_list_insert, Hk.
Qed.
Lemma map_sum_insert m k v : map_sum (<[k := v]> m) = v - default 0 (m !! k) + map_sum m.
Proof.
  destruct (m !! k) as [w|] eqn:Hk; [|rewrite map_sum_insert_new by done; cbn; lia].
  assert (map_sum m = w + map_sum (delete k m)) as ->.
  { rewrite <- (map_sum_insert_new _ k) by apply lookup_delete_eq. by rewrite insert_delete_id. }
  rewrite <- insert_delete_eq, map_sum_insert_new by apply lookup_delete_eq. cbn. lia.
Qed.

Definition count_of (k : bool) (ks : list bool) : Z := Z.of_nat (length (filter (fun x => x = k) ks)).

(** The ends of calls and creations lag behind their starts by those that
    have not ended, and every step is counted under its opcode. *)
Record counts_ok (c : CountInspector) (ks : list bool) : Prop := {
  cn_calls : call_count c = wrap 64 (call_end_count c + count_of true ks);
  cn_creates : create_count c = wrap 64 (create_end_count c + count_of false ks);
  cn_call_end : in_range 64 (call_end_count c);
  cn_create_end : in_range 64 (create_end_count c);
  cn_steps : step_count c = wrap 64 (map_sum (opcode_counts c)) }.

Lemma total_opcodes_sum c : total_opcodes c = wrap 64 (map_sum (opcode_counts c)).
Proof.
  unfold total_opcodes, map_sum, wrapping_add, wrap. induction (map snd _) as [|x l IH]; [done|].
  cbn [foldr]. rewrite IH, Zplus_mod_idemp_r. done.
Qed.
Lemma wrap_plus_l x y : wrap 64 (wrap 64 x + y) = wrap 64 (x + y).
Proof. apply Zplus_mod_idemp_l. Qed.

(** Moving an end from the stack to the counter. *)
Lemma lag_start n e k ks : n = wrap 64 (e + count_of k ks) -> wrapping_add 64 n 1 = wrap 64 (e + count_of k (k :: ks)).
Proof.
  intros ->. unfold wrapping_add, count_of. rewrite wrap_plus_l, filter_cons_True by done. cbn [length]. f_equal. lia.
Qed.
Lemma lag_end n e k ks : n = wrap 64 (e + count_of k (k :: ks)) -> n = wrap 64 (wrapping_add 64 e 1 + count_of k ks).
Proof.
  intros ->. unfold wrapping_add, count_of. rewrite wrap_plus_l, filter_cons_True by done. cbn [length]. f_equal. lia.
Qed.
Lemma count_of_other k k' ks : k' <> k -> count_of k (k' :: ks) = count_of k ks.
Proof. intros Hk. unfold count_of. by rewrite filter_cons_False. Qed.

Lemma count_step_ok c i ks op :
  counts_ok c ks -> ExtBytecode_opcode (i_bytecode i) = Some op ->
  exists c', count_step c i = Some c' /\ counts_ok c' ks.
Proof.
  intros [Hc Hr He1 He2 Hs] Hop. unfold count_step. rewrite Hop. eexists. split; [done|]. split; cbn; try done.
  rewrite map_sum_insert, Hs. unfold wrapping_add, get_count. cbn.
  rewrite wrap_plus_l. set (v := default 0 _). set (m := map_sum _).
  replace (wrap 64 (v + 1) - v + m) with (wrap 64 (v + 1) + (m - v)) by lia.
  rewrite wrap_plus_l. f_equal. lia.
Qed.

#[global] Instance CountInspector_Observer {CTX} : Observer CountInspector CTX counts_ok.
Proof.
  split; intros c ks *; intros Hc; pose proof Hc as [Hca Hcr He1 He2 Hs]; cbn.
  - eexists. split; [done|]. by split.
  - destruct (ExtBytecode_opcode _) as [op|] eqn:Hop.
    + left. destruct (count_step_ok c i ks op Hc Hop) as (c' & -> & ?). by exists c'.
    + right. unfold count_step. by rewrite Hop.
  - eexists. split; [done|]. by split.
  - eexists. split; [done|]. by split.
  - eexists. split; [done|]. split; cbn; try done; by apply lag_start.
  - eexists _, _. split; [done|]. split; [apply (same_frame_result_refl (FR_Call o))|].
    rewrite count_of_other in Hcr by done. split; cbn; try done; [by apply lag_end|by apply wrap_range].
  - eexists. split; [done|]. split; cbn; try done; by apply lag_start.
  - eexists _, _. split; [done|]. split; [apply (same_frame_result_refl (FR_Create o))|].
    rewrite count_of_other in Hca by done. split; cbn; try done; [by apply lag_end|by apply wrap_range].
  - eexists. split; [done|]. by split.
Qed.

Lemma counts_ok_new : counts_ok CountInspector_new [].
Proof. by split. Qed.

(** When nothing is open the counters agree. *)
Lemma counts_ok_closed c :
  counts_ok c [] ->
  call_count c = call_end_count c /\ create_count c = create_end_count c /\ step_count c = total_opcodes c.
Proof.
  intros [Hca Hcr [? ?] [? ?] Hs]. rewrite total_opcodes_sum, Hs, Hca, Hcr. unfold count_of, wrap. cbn [length filter list_filter].
  rewrite !Z.add_0_r, !Z.mod_small by done. done.
Qed.

(** A transaction that succeeds leaves balanced counters. *)
Lemma count_inspector_balanced `{BitVec, Keccak, Crypto, CreateAddress, VecGrow, !VecGrowLaws} {DB E Auth : Type}
    `{!Database DB E, !AuthorizationTr Auth} arrival steps fuel
    (self self' : InspectedEvm (DB := DB) (E := E) (Auth := Auth) (INSP := CountInspector)) r :
  ready (ie_evm self) -> counts_ok (ie_inspector self) [] -> inspect_run arrival steps fuel self = Done (Ok r, self') ->
  let c := ie_inspector self' in
  call_count c = call_end_count c /\ create_count c = create_end_count c /\ step_count c = total_opcodes c.
Proof.
  intros Hst Hs Hr. pose proof (inspect_run_transparent_aux counts_ok arrival steps fuel self Hst Hs) as Ht.
  rewrite Hr in Ht. destruct Ht as (_ & _ & Ht). exact (counts_ok_closed _ Ht).
Qed.
