(* ===== verification/OpInspect.v ===== *)
(** Inspection of Optimism transactions: [InspectorHandler] for [OpHandler]
    ([op-revm/src/handler.rs]) and the interface of [op-revm/src/api/exec.rs].
    The loops over instructions and frames are those of [Inspector]; the phases
    around them are those of [OpHandler].  An inspector that only watches does
    not change what the Optimism handler does either. *)
From S2P Require Import Prelude Hardfork Bytecode State Database WarmAddresses Precompile JournalEntry JournalInner Gas InstructionResult Stack SharedMemory FrameStack Interpreter Env Host Context Validation Frame PreExecution PostExecution InstructionTable Handler TxBuilder FastLz OpTypes L1Block OpHandler ExecApi Inspector InspectorLaws.
From stdpp Require Import base numbers list option tactics gmap strings.
From Stdlib Require Import ZArith Lia.

Local Open Scope Z_scope.

Section OpInspect.
Context `{BitVec, Keccak, Crypto, CreateAddress, VecGrow} {DB E Auth : Type}.
Context `{!Database DB E, !AuthorizationTr Auth, !InvalidAuthorization Auth}.
Abbreviation Ctx := (Context DB E Auth).
Abbreviation OpEvm := (@OpEvm DB E Auth).
Context {INSP : Type} `{!Inspector INSP Ctx}.

Record InspectedOpEvm := mkInspectedOpEvm { oe_evm : OpEvm; oe_inspector : INSP }.
Implicit Types self : InspectedOpEvm.

(** A phase of the handler, which does not call the inspector. *)
Definition op_uninspected {A X} (m : option (result A X * OpEvm)) (inspector : INSP)
    : outcome (result A X * InspectedOpEvm) :=
  match m with Some (r, evm) => Done (r, mkInspectedOpEvm evm inspector) | None => Panicked end.

(** The loop over the frames runs on the EVM inside. *)
Definition in_op_inspected {A X} (f : X -> OpError E) (m : outcome (result A X * InspectedEvm)) (evm : OpEvm)
    : outcome (result A (OpError E) * InspectedOpEvm) :=
  match m with
  | Done (r, ie) => Done (map_err f r, mkInspectedOpEvm (with_op_evm (ie_evm ie) evm) (ie_inspector ie))
  | Out_of_fuel => Out_of_fuel
  | Panicked => Panicked
  end.

Definition op_inspect_execution (steps fuel : nat) self (init_and_floor_gas : InitialAndFloorGas)
    : outcome (result FrameResult (OpError E) * InspectedOpEvm) :=
  let evm := oe_evm self in
  let gas_limit := wrapping_sub 64 (tx_gas_limit (ctx_tx (op_ctx evm))) (initial_gas init_and_floor_gas) in
  go! (first_frame_input, self) :=
    op_uninspected (in_op_ctx (first_frame_input (op_ctx evm) gas_limit) evm) (oe_inspector self) in
  go! (frame_result, self) :=
    in_op_inspected OpError_from_context
      (inspect_run_exec_loop steps fuel (mkInspectedEvm (op_evm (oe_evm self)) (oe_inspector self)) first_frame_input)
      (oe_evm self) in
  Done (Ok (op_last_frame_result (oe_evm self) frame_result), self).

Definition op_inspect_run_without_catch_error (arrival : list Auth -> list Auth) (steps fuel : nat) self
    : outcome (result OpExecutionResult (OpError E) * InspectedOpEvm) :=
  match op_validate (oe_evm self) with
  | None => Panicked
  | Some (Err e) => Done (Err e, self)
  | Some (Ok init_and_floor_gas) =>
      go! (eip7702_refund, self) := op_uninspected (op_pre_execution arrival (oe_evm self)) (oe_inspector self) in
      go! (exec_result, self) := op_inspect_execution steps fuel self init_and_floor_gas in
      go! (exec_result, self) :=
        op_uninspected (op_post_execution (oe_evm self) exec_result init_and_floor_gas (signed 64 eip7702_refund))
          (oe_inspector self) in
      op_uninspected (op_execution_result (oe_evm self) exec_result) (oe_inspector self)
  end.

Definition op_inspect_catching (m : outcome (result OpExecutionResult (OpError E) * InspectedOpEvm))
    : outcome (result OpExecutionResult (OpError E) * InspectedOpEvm) :=
  match m with
  | Done (Ok output, self) => Done (Ok output, self)
  | Done (Err e, self) => op_uninspected (op_catch_error (oe_evm self) e) (oe_inspector self)
  | Out_of_fuel => Out_of_fuel
  | Panicked => Panicked
  end.

Definition op_inspect_run (arrival : list Auth -> list Auth) (steps fuel : nat) self
    : outcome (result OpExecutionResult (OpError E) * InspectedOpEvm) :=
  op_inspect_catching (op_inspect_run_without_catch_error arrival steps fuel self).

Definition op_inspect_run_system_call (steps fuel : nat) self
    : outcome (result OpExecutionResult (OpError E) * InspectedOpEvm) :=
  op_inspect_catching (
    go! (exec_result, self) := op_inspect_execution steps fuel self (mkInitialAndFloorGas 0 0) in
    op_uninspected (op_execution_result (oe_evm self) exec_result) (oe_inspector self)).

(** * The interface *)

#[global] Instance OpEvm_InspectEvm (arrival : list Auth -> list Auth) (steps fuel : nat)
    : InspectEvm InspectedOpEvm (OpTransaction Auth) OpExecutionResult (OpError E) INSP :=
  {| set_inspector inspector self := mkInspectedOpEvm (oe_evm self) inspector;
     inspect_one_tx self tx :=
       op_inspect_run arrival steps fuel (mkInspectedOpEvm (OpEvm_set_tx tx (oe_evm self)) (oe_inspector self)) |}.

#[global] Instance OpEvm_InspectSystemCallEvm (steps fuel : nat)
    : InspectSystemCallEvm InspectedOpEvm OpExecutionResult (OpError E) :=
  fun self caller system_contract_address data =>
  match OpTransaction_new_system_tx_with_caller caller system_contract_address data with
  | None => Panicked
  | Some tx =>
      op_inspect_run_system_call steps fuel (mkInspectedOpEvm (OpEvm_set_tx tx (oe_evm self)) (oe_inspector self))
  end.
End OpInspect.

Section OpTransparent.
Context `{BitVec, Keccak, Crypto, CreateAddress, VecGrow, !VecGrowLaws} {DB E Auth : Type}.
Context `{!Database DB E, !AuthorizationTr Auth, !InvalidAuthorization Auth}.
Abbreviation Ctx := (Context DB E Auth).
Abbreviation OpEvm := (@OpEvm DB E Auth).
Context {INSP : Type} `{!Inspector INSP Ctx} (R : INSP -> list bool -> Prop) `{!Observer INSP Ctx R}.
Abbreviation IOpEvm := (InspectedOpEvm (DB := DB) (E := E) (Auth := Auth) (INSP := INSP)).
Implicit Types evm : OpEvm.

(** The inspected run [m'] does what the run [m] does, and if it succeeds
    everything that was reported to start has ended. *)
Definition op_agree {A X} (eqv : A -> A -> Prop) (m' : outcome (result A X * IOpEvm)) (m : outcome (result A X * OpEvm)) : Prop :=
  match m', m with
  | Panicked, Panicked | Out_of_fuel, Out_of_fuel => True
  | Done (Ok a', self), Done (Ok a, evm) => oe_evm self = evm /\ eqv a' a /\ R (oe_inspector self) []
  | Done (Err e', self), Done (Err e, evm) => oe_evm self = evm /\ e' = e
  | _, _ => False
  end.

Lemma op_agree_go {A B X} (eqv : A -> A -> Prop) (eqv2 : B -> B -> Prop)
    (m' : outcome (result A X * IOpEvm)) m (k' : A -> IOpEvm -> outcome (result B X * IOpEvm)) (k : A -> OpEvm -> outcome (result B X * OpEvm)) :
  op_agree eqv m' m ->
  (forall a' a self, m = Done (Ok a, oe_evm self) -> eqv a' a -> R (oe_inspector self) [] ->
     op_agree eqv2 (k' a' self) (k a (oe_evm self))) ->
  op_agree eqv2 (go! (a, self) := m' in k' a self) (go! (a, evm) := m in k a evm).
Proof.
  destruct m' as [| |[[a'|e'] self]], m as [| |[[a|e] evm]]; cbn; try done.
  intros (<- & ? & ?) Hk. by apply Hk.
Qed.

Lemma op_agree_uninspected {A X} (m : option (result A X * OpEvm)) s :
  R s [] -> op_agree eq (op_uninspected m s) (of_option m).
Proof. intros Hs. by destruct m as [[[a|e] evm]|]. Qed.

(** * The phases before execution leave the frames alone *)

Lemma in_op_ctx_pool {A} (m : option (result A (EVMError E) * Ctx)) evm r evm' :
  in_op_ctx m evm = Some (r, evm') -> evm_frame_stack (op_evm evm') = evm_frame_stack (op_evm evm).
Proof. unfold in_op_ctx. destruct m as [[a c]|]; [|done]. by intros [= _ <-]. Qed.

Lemma op_refresh_chain_pool evm r evm' :
  op_refresh_chain evm = Some (r, evm') -> evm_frame_stack (op_evm evm') = evm_frame_stack (op_evm evm).
Proof.
  unfold op_refresh_chain. destruct (bool_decide _); [by intros [= _ <-]|].
  destruct (try_fetch _ _ _) as [[c|e] db]; by intros [= _ <-].
Qed.

Lemma op_charge_additional_pool evm bal r evm' :
  op_charge_additional evm bal = Some (r, evm') -> evm_frame_stack (op_evm evm') = evm_frame_stack (op_evm evm).
Proof.
  unfold op_charge_additional, Cfg_is_fee_charge_disabled. destruct (tx_cost_with_tx _ _ _) as [[c chain]|]; [|done].
  destruct (bal <? c); by intros [= _ <-].
Qed.

Lemma op_validate_against_state_pool evm r evm' :
  op_validate_against_state_and_deduct_caller evm = Some (r, evm') ->
  evm_frame_stack (op_evm evm') = evm_frame_stack (op_evm evm).
Proof.
  unfold op_validate_against_state_and_deduct_caller. destruct (op_is_deposit evm).
  - unfold op_deduct_deposit, op_load_caller.
    destruct (in_op_ctx _ evm) as [[[l|e] evm1]|] eqn:Hl; [| |done]; apply in_op_ctx_pool in Hl; [|by intros [= _ <-]].
    destruct (deposit_balance _ _); [|done]. by intros [= _ <-].
  - destruct (op_refresh_chain evm) as [[[u|e] evm1]|] eqn:Hr; [| |done]; apply op_refresh_chain_pool in Hr;
      [|by intros [= _ <-]].
    unfold op_load_caller. destruct (in_op_ctx _ evm1) as [[[l|e] evm2]|] eqn:Hl; [| |done]; apply in_op_ctx_pool in Hl;
      [|intros [= _ <-]; congruence].
    destruct (validate_account_nonce_and_code_with_components _ _ _); [|intros [= _ <-]; congruence].
    destruct (op_charge_additional _ _) as [[[b|e] evm3]|] eqn:Hc; [| |done]; apply op_charge_additional_pool in Hc;
      [|intros [= _ <-]; congruence].
    destruct (calculate_caller_fee _ _ _ _) as [[nb|e]|]; [| |done]; intros [= _ <-]; cbn; congruence.
Qed.

Lemma op_pre_execution_pool arrival evm r evm' :
  op_pre_execution arrival evm = Some (r, evm') -> evm_frame_stack (op_evm evm') = evm_frame_stack (op_evm evm).
Proof.
  unfold op_pre_execution. destruct (op_validate_against_state_and_deduct_caller evm) as [[[u|e] evm1]|] eqn:Hv;
    [| |done]; apply op_validate_against_state_pool in Hv; [|by intros [= _ <-]].
  intros Hl%in_op_ctx_pool. rewrite Hl, <- Hv. unfold op_load_accounts.
  by destruct (OpPrecompiles_set_spec _ _) as [? [? ?]].
Qed.

(** * The transaction *)

Lemma op_last_frame_result_same evm r' r :
  same_frame_result r' r -> op_last_frame_result evm r' = op_last_frame_result evm r.
Proof.
  assert (forall res' res : InterpreterResult, same_result res' res ->
    op_last_frame_gas evm (ir_result res') (ir_gas res') = op_last_frame_gas evm (ir_result res) (ir_gas res)) as Hg.
  { intros res' res (-> & _ & [He| ->]); [|done]. unfold op_last_frame_gas.
    destruct (InstructionResult_partition (ir_result res)) as [(? & ? & ? & ?)|[(? & ? & ? & ?)|(-> & -> & ? & ?)]];
      congruence. }
  unfold op_last_frame_result, FrameResult_gas.
  destruct r' as [o'|o'], r as [o|o]; try done; intros [Hs Hm]; cbn [FrameResult_interpreter_result FrameResult_set_gas];
    rewrite (Hg _ _ Hs), Hm; destruct Hs as (-> & -> & _); done.
Qed.

Lemma op_inspect_execution_sim steps fuel self init :
  ready (op_evm (oe_evm self)) -> R (oe_inspector self) [] ->
  op_agree eq (op_inspect_execution steps fuel self init) (op_execution steps fuel (oe_evm self) init).
Proof.
  intros Hst Hs. unfold op_inspect_execution, op_execution. eapply op_agree_go; [by apply op_agree_uninspected|].
  intros input' input self1 Hin -> Hs1.
  assert (ready (op_evm (oe_evm self1))) as Hst1.
  { destruct (in_op_ctx _ _) as [[r evm1]|] eqn:Hl; [|done]. cbn in Hin. injection Hin as -> ->.
    apply in_op_ctx_pool in Hl. unfold ready. by rewrite Hl. }
  pose proof (inspect_run_exec_loop_sim R steps fuel (mkInspectedEvm (op_evm (oe_evm self1)) (oe_inspector self1)) input
    (ready_stack _ Hst1) Hs1) as Hl.
  eapply (op_agree_go same_frame_result).
  - cbn [ie_evm] in Hl. destruct (inspect_run_exec_loop steps fuel _ input) as [| |[[a'|e'] ie]], (run_exec_loop _ _ _ _) as [| |[[a|e] evm]];
      cbn in *; try done.
    + destruct Hl as (<- & ? & _ & ?). by split_and!.
    + by destruct Hl as (<- & -> & _).
  - intros r' r self2 _ Hr Hs2. cbn. split_and!; [done|by apply op_last_frame_result_same|done].
Qed.

Lemma op_inspect_catching_sim (m' : outcome (result OpExecutionResult (OpError E) * IOpEvm)) m :
  op_agree eq m' m ->
  match op_inspect_catching m' with
  | Panicked => op_catching m = Panicked
  | Out_of_fuel => op_catching m = Out_of_fuel
  | Done (r, self) => op_catching m = Done (r, oe_evm self)
  end.
Proof.
  destruct m' as [| |[[a'|e'] self]], m as [| |[[a|e] evm]]; cbn; try done.
  - by intros (<- & -> & ?).
  - intros (<- & ->). by destruct (op_catch_error _ _) as [[r evm]|].
Qed.

(** An inspector that only watches does not change what an Optimism
    transaction does. *)
Theorem op_inspect_run_transparent arrival steps fuel (self : IOpEvm) :
  ready (op_evm (oe_evm self)) -> R (oe_inspector self) [] ->
  match op_inspect_run arrival steps fuel self with
  | Panicked => op_run arrival steps fuel (oe_evm self) = Panicked
  | Out_of_fuel => op_run arrival steps fuel (oe_evm self) = Out_of_fuel
  | Done (r, self') => op_run arrival steps fuel (oe_evm self) = Done (r, oe_evm self')
  end.
Proof.
  intros Hst Hs. apply op_inspect_catching_sim. unfold op_inspect_run_without_catch_error, op_run_without_catch_error.
  destruct (op_validate _) as [[init|e]|]; [|done..].
  eapply op_agree_go; [by apply op_agree_uninspected|]. intros a' a self1 Hp -> Hs1.
  assert (ready (op_evm (oe_evm self1))) as Hst1.
  { destruct (op_pre_execution _ _) as [[r evm1]|] eqn:Hl; [|done]. cbn in Hp. injection Hp as -> ->.
    apply op_pre_execution_pool in Hl. unfold ready. by rewrite Hl. }
  eapply op_agree_go; [by apply op_inspect_execution_sim|]. intros r' r self2 _ -> Hs2.
  eapply op_agree_go; [by apply op_agree_uninspected|]. intros x' x self3 _ -> Hs3. by apply op_agree_uninspected.
Qed.

Theorem op_inspect_run_system_call_transparent steps fuel (self : IOpEvm) :
  ready (op_evm (oe_evm self)) -> R (oe_inspector self) [] ->
  match op_inspect_run_system_call steps fuel self with
  | Panicked => op_run_system_call steps fuel (oe_evm self) = Panicked
  | Out_of_fuel => op_run_system_call steps fuel (oe_evm self) = Out_of_fuel
  | Done (r, self') => op_run_system_call steps fuel (oe_evm self) = Done (r, oe_evm self')
  end.
Proof.
  intros Hst Hs. apply op_inspect_catching_sim. eapply op_agree_go; [by apply op_inspect_execution_sim|].
  intros x' x self2 _ -> Hs2. by apply op_agree_uninspected.
Qed.
End OpTransparent.
