(* ===== verification/InspectorExample.v ===== *)
(** Inspected transactions, run by evaluation: a contract that logs and
    destroys itself under [CountInspector], and what is reported of a
    self-destruction that moves no funds. *)
From S2P Require Import Prelude Hardfork Bytecode State Database WarmAddresses Precompile PrecompileLaws JournalEntry JournalInner Gas InstructionResult Stack SharedMemory FrameStack Interpreter Env Host Context Validation Frame PreExecution PostExecution InstructionTable Handler Inspector InspectorLaws.
From stdpp Require Import base numbers list option tactics gmap strings.
From Stdlib Require Import ZArith Lia.

Local Open Scope Z_scope.

Module InspectExample.
#[local] Existing Instance Lsb0BitVec.
#[local] Existing Instance Tables.null_crypto.
#[local] Instance insp_keccak : Keccak := fun _ => 0.
#[local] Instance insp_create_address : CreateAddress := {| address_create _ _ := 0; address_create2 _ _ _ := 0 |}.
#[local] Instance insp_grow : VecGrow := fun n => n.
#[local] Instance insp_grow_laws : VecGrowLaws.
Proof. intros n. unfold grow, insp_grow. lia. Qed.
#[local] Instance insp_auth : AuthorizationTr unit :=
  {| auth_authority _ := None; auth_chain_id _ := 0; auth_nonce _ := 0; auth_address _ := 0 |}.

Definition payer : Z := 0xAA.
Definition contract : Z := 0xBB.
(** [PUSH1 0 PUSH1 0 LOG0 ADDRESS SELFDESTRUCT]. *)
Definition log_and_destroy : Bytecode :=
  default Bytecode_default (Bytecode_new_legacy [0x60; 0; 0x60; 0; 0xA0; 0x30; 0xFF]).
Inductive World : Type := world.
#[local] Instance World_Database : Database World Empty_set := {|
  db_basic d a :=
    (Ok (if a =? payer then Some (mkAccountInfo (10 ^ 18) 0 KECCAK_EMPTY None None)
         else if a =? contract then Some (mkAccountInfo 0 1 7 None (Some log_and_destroy)) else None), d);
  db_code_by_hash d _ := (Ok Bytecode_default, d);
  db_storage d _ _ := (Ok 0, d);
  db_block_hash d _ := (Ok 0, d) |}.

(** A call of the contract with 5 wei, on a block of the fork [spec]. *)
Definition pay_contract (spec : SpecId) : @Evm World Empty_set unit :=
  mkEvm (mkContext (mkBlockEnv 100 0xC0 1000 30000000 7 0 (Some 5) (Some (mkBlobExcessGasAndPrice 0 1)))
           (mkTxEnv 0 payer 60000 10 (TxCall contract) 5 [] 0 (Some 1) [] None [] 0 [])
           (CfgEnv_new_with_spec spec) (mkJournal world JournalInner_new) LocalContext_default (Ok tt) false)
    EthPrecompiles_default FrameStack_new.
Definition counted (spec : SpecId) : InspectedEvm (DB := World) (E := Empty_set) (Auth := unit) (INSP := CountInspector) :=
  mkInspectedEvm (pay_contract spec) CountInspector_new.

(** What [CountInspector] counts: steps, their ends, logs, calls, their ends,
    self-destructions, and the opcodes. *)
Lemma count_inspector_counts :
  match inspect_run id 100 10 (counted PRAGUE) with
  | Done (Ok (Success _ _ _ [_] _), self) =>
      let c := ie_inspector self in
      [step_count c; step_end_count c; log_count c; call_count c; call_end_count c; selfdestruct_count c]
        = [5; 5; 1; 1; 1; 1] /\
      map (get_count c) [0x60; 0xA0; 0x30; 0xFF] = [2; 1; 1; 1] /\ total_opcodes c = 5
  | _ => False
  end.
Proof. vm_compute. done. Qed.

Lemma pay_contract_ready spec : ready (pay_contract spec).
Proof. split; [apply frame_stack_ok_new|done]. Defined.

Lemma inspect_run_transparent_witness :
  exists r self', inspect_run id 100 10 (counted PRAGUE) = Done (Ok r, self') /\
    run id 100 10 (ie_evm (counted PRAGUE)) = Done (Ok r, ie_evm self') /\ counts_ok (ie_inspector self') [].
Proof.
  assert (ready (ie_evm (counted PRAGUE))) as Hready by exact (pay_contract_ready PRAGUE).
  pose proof (inspect_run_transparent counts_ok id 100 10 (counted PRAGUE) Hready counts_ok_new) as Ht.
  pose proof count_inspector_counts as Hc.
  destruct (inspect_run id 100 10 (counted PRAGUE)) as [| |[[r|e] self]]; [by destruct Hc..| |by destruct Hc].
  exists r, self. destruct Ht as (Hrun & _ & Hok). split; [reflexivity|]. split; [exact Hrun|exact Hok].
Defined.

(** * What is reported of a self-destruction *)

(** An inspector that only keeps the self-destructions it is told about. *)
Definition Reports : Type := list (Z * Z * Z).
#[local] Instance Reports_Inspector {CTX} : Inspector Reports CTX := {|
  insp_initialize_interp s i c := Some (s, i, c);
  insp_step s i c := Some (s, i, c);
  insp_step_end s i c := Some (s, i, c);
  insp_log s i c _ := Some (s, i, c);
  insp_call s c inputs := Some (None, s, c, inputs);
  insp_call_end s c _ outcome := Some (s, c, outcome);
  insp_create s c inputs := Some (None, s, c, inputs);
  insp_create_end s c _ outcome := Some (s, c, outcome);
  insp_selfdestruct s a t v := Some (s ++ [(a, t, v)]) |}.
Definition reports (spec : SpecId) : option Reports :=
  match inspect_run id 100 10 (mkInspectedEvm (pay_contract spec) ([] : Reports)) with
  | Done (Ok _, self) => Some (ie_inspector self)
  | _ => None
  end.

(** [inspect_selfdestruct] reports the last entry of the journal, whether
    the self-destruction made it or not.  A contract that destroys itself in
    favour of itself makes none since Cancun: when it was called with a value, the
    inspector is told that the caller destroyed itself and sent the value of the
    call to the contract.  Before Cancun the report is right. *)
Theorem selfdestruct_report_wrong :
  reports SHANGHAI = Some [(contract, contract, 5)] /\ reports CANCUN = Some [(payer, contract, 5)].
Proof. vm_compute. done. Qed.
End InspectExample.
