(* ===== verification/PreBlock.v ===== *)
(** The state before a block and the caches that serve it:
    [PreBlockState] ([crates/context/src/block_states.rs]), the cache shared by
    the threads of a batch, [MTCache] ([crates/flatdb/src/mtcache.rs]), and the
    prefetched state [PreBlockStateCache]
    ([crates/flatdb/src/preblock_db_provider.rs]).

    A [DashMap] is a map whose operations on an entry are atomic.  A read of
    [MTCache] looks into the memory, then into the shared cache, then queries the
    database, then stores the answer through an [entry].  Each is a definition of
    its own; the sequential read composes them, and a pool of threads interleaves
    them by a schedule, waiting for the locks of the shared cache.
    [block_hash_ref] is [todo!()] in every provider here. *)
From S2P Require Import Prelude Hardfork Bytecode State Database BundleAccount CacheState StateDb CacheDB Bal.
From stdpp Require Import base numbers list option tactics gmap strings.
From Stdlib Require Import ZArith Lia.

Local Open Scope Z_scope.

(** * Errors

    [MyError] is a formatted message, kept as what is formatted.  The providers
    also panic, where a trait method can only return an error. *)

Inductive MyError : Type :=
| CodeNotFound (code_hash : Z)
| StorageNotFound (address index : Z)
| RocksDbMessage (message : string).
Inductive ReadError : Type :=
| Failed (e : MyError)
| Panicked.
#[export] Instance MyError_eq_dec : EqDecision MyError.
Proof. solve_decision. Defined.
#[export] Instance ReadError_eq_dec : EqDecision ReadError.
Proof. solve_decision. Defined.

(** * The state before a block ([block_states.rs]) *)

Record MyPlainAccount := mkMyPlainAccount { mp_info : option AccountInfo; mp_storage : PlainStorage }.
Record PreBlockState := mkPreBlockState { pb_accounts : gmap Z MyPlainAccount }.

Definition PreBlockState_default : PreBlockState := mkPreBlockState ∅.

Definition PreBlockState_update_accountinfo (self : PreBlockState) (addr : Z) (info : AccountInfo)
    : PreBlockState :=
  match pb_accounts self !! addr with
  | None => mkPreBlockState (<[addr := mkMyPlainAccount (Some info) ∅]> (pb_accounts self))
  | Some e => mkPreBlockState (<[addr := mkMyPlainAccount (Some info) (mp_storage e)]> (pb_accounts self))
  end.

(** The loop over the slots of [other], [entry] of the key with [or_insert] of the value. *)
Definition or_insert_all (other s : PlainStorage) : PlainStorage :=
  fold_left (fun s kv => match s !! kv.1 with Some _ => s | None => <[kv.1 := kv.2]> s end)
    (map_to_list other) s.
Definition PreBlockState_insert_account (self : PreBlockState) (addr : Z) (other : MyPlainAccount)
    : PreBlockState :=
  match pb_accounts self !! addr with
  | None => mkPreBlockState (<[addr := other]> (pb_accounts self))
  | Some e =>
      mkPreBlockState
        (<[addr := mkMyPlainAccount (mp_info e) (or_insert_all (mp_storage other) (mp_storage e))]>
           (pb_accounts self))
  end.

Record AccountRLP := mkAccountRLP { rlp_balance : Z; rlp_nonce : Z; rlp_code_hash : Z }.
Definition AccountRLP_from (acct : AccountInfo) : AccountRLP :=
  mkAccountRLP (balance acct) (nonce acct) (code_hash acct).
Record AccountStates := mkAccountStates {
  as_storage : list (Z * Z); as_addr : option Z; as_info : option AccountRLP }.

Definition into_encodable_account (bal : Bal) (account : Z * MyPlainAccount) : AccountStates :=
  let '(address, acct) := account in
  mkAccountStates (map_to_list (mp_storage acct))
    (match index_map_get (bal_accounts bal) address with Some _ => None | None => Some address end)
    (AccountRLP_from <$> mp_info acct).
Definition PreBlockState_into_encodable_state (self : PreBlockState) (bal : Bal) : list AccountStates :=
  into_encodable_account bal <$> map_to_list (pb_accounts self).

Section CacheDbs.
Context `{BitVec}.

Definition prestate_account (cache : CacheState) (account : Z * MyPlainAccount) : CacheState :=
  let '(addr, acct) := account in
  let '(code, plain_account) :=
    match mp_info acct with
    | Some acct_info => (code acct_info, mkPlainAccount acct_info (mp_storage acct))
    | None => (None, mkPlainAccount AccountInfo_default (mp_storage acct))
    end in
  let contracts :=
    match code with
    | Some code => <[code_hash (pa_info plain_account) := code]> (cs_codes cache)
    | None => cs_codes cache
    end in
  mkCacheState (<[addr := mkCacheAccount (Some plain_account) LoadedNotExisting]> (cs_cached cache))
    contracts (has_state_clear cache).
Definition prestate_to_cachedb (prestate : PreBlockState) : CacheState :=
  fold_left prestate_account (map_to_list (pb_accounts prestate)) CacheState_default.
Definition prestates_to_cachedbs (p : list PreBlockState) : list CacheState := prestate_to_cachedb <$> p.
End CacheDbs.

(** * The cache of a batch ([mtcache.rs]) *)

Record SharedCache := mkSharedCache {
  sc_accounts : gmap Z (option AccountInfo);
  sc_storage : gmap Z (gmap Z Z);
  sc_contracts : gmap Z Bytecode }.
Definition SharedCache_new : SharedCache := mkSharedCache ∅ ∅ ∅.

(** [shared] is behind an [Arc]: it is not a field but the state the reads of
    every cache of the batch pass on.  The states in memory are in the order of
    the iterator, the latest in front. *)
Record MTCache (DB : Type) := mkMTCache { mt_db : DB; mt_in_memory : option (list PreBlockState) }.
Arguments mkMTCache {DB}.
Arguments mt_db {DB}.
Arguments mt_in_memory {DB}.

Fixpoint memory_basic (mem : list PreBlockState) (address : Z) : option (option AccountInfo) :=
  match mem with
  | [] => None
  | state :: mem =>
      match pb_accounts state !! address with
      | Some acct => Some (mp_info acct)
      | None => memory_basic mem address
      end
  end.
Fixpoint memory_storage (mem : list PreBlockState) (address index : Z) : option Z :=
  match mem with
  | [] => None
  | state :: mem =>
      match (acct ← pb_accounts state !! address; mp_storage acct !! index) with
      | Some val => Some val
      | None => memory_storage mem address index
      end
  end.

(** The short critical sections: an occupied entry wins. *)
Definition shared_accounts_entry (shared : SharedCache) (address : Z) (acct : option AccountInfo)
    : option AccountInfo * SharedCache :=
  match sc_accounts shared !! address with
  | Some e => (e, shared)
  | None =>
      (acct, mkSharedCache (<[address := acct]> (sc_accounts shared)) (sc_storage shared)
               (sc_contracts shared))
  end.
Definition shared_contracts_entry (shared : SharedCache) (code_hash : Z) (code : Bytecode)
    : Bytecode * SharedCache :=
  match sc_contracts shared !! code_hash with
  | Some e => (e, shared)
  | None =>
      (code, mkSharedCache (sc_accounts shared) (sc_storage shared)
               (<[code_hash := code]> (sc_contracts shared)))
  end.
Definition shared_storage_entry (shared : SharedCache) (address index val : Z) : Z * SharedCache :=
  let inner := default ∅ (sc_storage shared !! address) in
  let store inner :=
    mkSharedCache (sc_accounts shared) (<[address := inner]> (sc_storage shared)) (sc_contracts shared) in
  match inner !! index with
  | Some e => (e, store inner)
  | None => (val, store (<[index := val]> inner))
  end.

Section MTCache.
Context {DB : Type} `{DatabaseRef DB ReadError}.
Implicit Types (self : MTCache DB) (shared : SharedCache).

(** The lookups of the states in memory, and of the shared cache. *)
Definition basic_memory self (address : Z) : option (option AccountInfo) :=
  mem ← mt_in_memory self; memory_basic mem address.
Definition basic_shared shared (address : Z) : option (option AccountInfo) := sc_accounts shared !! address.
Definition code_shared shared (code_hash : Z) : option Bytecode := sc_contracts shared !! code_hash.
Definition storage_memory self (address index : Z) : option Z :=
  mem ← mt_in_memory self; memory_storage mem address index.
Definition storage_shared shared (address index : Z) : option Z :=
  inner ← sc_storage shared !! address; inner !! index.

Definition MTCache_basic_ref self shared (address : Z)
    : result (option AccountInfo) ReadError * SharedCache :=
  match basic_memory self address with
  | Some info => (Ok info, shared)
  | None =>
      match basic_shared shared address with
      | Some v => (Ok v, shared)
      | None =>
          match basic_ref (mt_db self) address with
          | Err e => (Err e, shared)
          | Ok acct =>
              let '(acct, shared) := shared_accounts_entry shared address acct in (Ok acct, shared)
          end
      end
  end.
Definition MTCache_code_by_hash_ref self shared (code_hash : Z)
    : result Bytecode ReadError * SharedCache :=
  match code_shared shared code_hash with
  | Some code => (Ok code, shared)
  | None =>
      match code_by_hash_ref (mt_db self) code_hash with
      | Err e => (Err e, shared)
      | Ok code =>
          let '(code, shared) := shared_contracts_entry shared code_hash code in (Ok code, shared)
      end
  end.
Definition MTCache_storage_ref self shared (address index : Z) : result Z ReadError * SharedCache :=
  match storage_memory self address index with
  | Some val => (Ok val, shared)
  | None =>
      match storage_shared shared address index with
      | Some val => (Ok val, shared)
      | None =>
          match storage_ref (mt_db self) address index with
          | Err e => (Err e, shared)
          | Ok val =>
              let '(val, shared) := shared_storage_entry shared address index val in (Ok val, shared)
          end
      end
  end.

(** ** Reads of several threads *)

Inductive Query : Type :=
| QBasic (address : Z)
| QCode (code_hash : Z)
| QStorage (address index : Z).
Inductive Answer : Type :=
| ABasic (info : option AccountInfo)
| ACode (code : Bytecode)
| AStorage (val : Z).

Definition memory_path self (q : Query) : option Answer :=
  match q with
  | QBasic a => ABasic <$> basic_memory self a
  | QCode _ => None
  | QStorage a k => AStorage <$> storage_memory self a k
  end.
Definition shared_path shared (q : Query) : option Answer :=
  match q with
  | QBasic a => ABasic <$> basic_shared shared a
  | QCode h => ACode <$> code_shared shared h
  | QStorage a k => AStorage <$> storage_shared shared a k
  end.
Definition query_db (db : DB) (q : Query) : result Answer ReadError :=
  match q with
  | QBasic a => map_ok ABasic (basic_ref db a)
  | QCode h => map_ok ACode (code_by_hash_ref db h)
  | QStorage a k => map_ok AStorage (storage_ref db a k)
  end.
(** The answer has the type of the query. *)
Definition shared_entry shared (q : Query) (v : Answer) : Answer * SharedCache :=
  match q, v with
  | QBasic a, ABasic i => let '(i, shared) := shared_accounts_entry shared a i in (ABasic i, shared)
  | QCode h, ACode c => let '(c, shared) := shared_contracts_entry shared h c in (ACode c, shared)
  | QStorage a k, AStorage v =>
      let '(v, shared) := shared_storage_entry shared a k v in (AStorage v, shared)
  | _, v => (v, shared)
  end.

(** ** Locks

    A [DashMap] guards each of its shards by a lock that any number of readers or
    one writer may hold; which lock guards the entry of a query is up to the hash
    ([shard]).  [get] holds the lock for reading until its guard is dropped, and
    [entry] holds it for writing.  The lock of an inner map of [sc_storage] is
    taken only under the lock of the outer map, for reading by readers and for
    writing by the one writer, so nobody waits for it.  The query of the database
    holds no lock. *)
Context {L : Type} `{EqDecision L} (shard : Query -> L).

(** Where a read stands: before its lookup, with the lock for its [get], at the
    query of the database, with the answer of the database, with the lock for its
    [entry], or done. *)
Inductive Progress : Type :=
| Started
| Reading
| Missed
| Fetched (v : Answer)
| Writing (v : Answer)
| Returned (r : result Answer ReadError).
Record Thread := mkThread { th_cache : MTCache DB; th_query : Query; th_progress : Progress }.
Record Pool := mkPool { po_shared : SharedCache; po_threads : list Thread }.

Definition at_progress (t : Thread) (p : Progress) : Thread := mkThread (th_cache t) (th_query t) p.
Definition holds_read (l : L) (t : Thread) : bool :=
  match th_progress t with Reading => bool_decide (shard (th_query t) = l) | _ => false end.
Definition holds_write (l : L) (t : Thread) : bool :=
  match th_progress t with Writing _ => bool_decide (shard (th_query t) = l) | _ => false end.

(** A thread that cannot get its lock waits: its turn changes nothing. *)
Definition thread_step (threads : list Thread) shared (t : Thread) : Thread * SharedCache :=
  let l := shard (th_query t) in
  match th_progress t with
  | Started =>
      match memory_path (th_cache t) (th_query t) with
      | Some v => (at_progress t (Returned (Ok v)), shared)
      | None => if existsb (holds_write l) threads then (t, shared) else (at_progress t Reading, shared)
      end
  | Reading =>
      match shared_path shared (th_query t) with
      | Some v => (at_progress t (Returned (Ok v)), shared)
      | None => (at_progress t Missed, shared)
      end
  | Missed =>
      match query_db (mt_db (th_cache t)) (th_query t) with
      | Err e => (at_progress t (Returned (Err e)), shared)
      | Ok v => (at_progress t (Fetched v), shared)
      end
  | Fetched v =>
      if existsb (holds_read l) threads || existsb (holds_write l) threads then (t, shared)
      else (at_progress t (Writing v), shared)
  | Writing v =>
      let '(v, shared) := shared_entry shared (th_query t) v in
      (at_progress t (Returned (Ok v)), shared)
  | Returned _ => (t, shared)
  end.
(** The scheduler gives the thread [i] a turn. *)
Definition pool_step (p : Pool) (i : nat) : Pool :=
  match po_threads p !! i with
  | None => p
  | Some t =>
      let '(t, shared) := thread_step (po_threads p) (po_shared p) t in
      mkPool shared (<[i := t]> (po_threads p))
  end.
Definition run_schedule (schedule : list nat) (p : Pool) : Pool := fold_left pool_step schedule p.
End MTCache.
Arguments Thread : clear implicits.
Arguments Pool : clear implicits.

(** * The prefetched state ([preblock_db_provider.rs])

    The items of a parallel iterator are computed in any order and collected in a
    map; every provider that [lastest_provider_ro] gives reads the same state, so
    [db] is one value.  [unwrap] of an error of the database panics.  The times
    measured and the thread pools have no part in the result. *)

Abbreviation BalReadsTy := (gmap Z (gset Z)) (only parsing).

Record PrefetchedAccount := mkPrefetchedAccount { pf_info : option AccountInfo; pf_storage : gmap Z Z }.

Section Prefetch.
Context {DB : Type} `{DatabaseRef DB ReadError} (db : DB).
Implicit Types (bal_read : BalReadsTy) (accounts : gmap Z PrefetchedAccount).

Definition unwrap_ok {A E : Type} (r : result A E) : option A :=
  match r with Ok a => Some a | Err _ => None end.

Definition read_account (address : Z) : option (Z * PrefetchedAccount) :=
  info ← unwrap_ok (basic_ref db address); Some (address, mkPrefetchedAccount info ∅).
Definition read_accounts bal_read : option (gmap Z PrefetchedAccount) :=
  list_to_map <$> mapM (fun r => read_account r.1) (map_to_list bal_read).
Definition read_slots (address : Z) (slots : gset Z) : option (gmap Z Z) :=
  list_to_map <$>
    mapM (fun k => v ← unwrap_ok (storage_ref db address k); Some (k, v)) (elements slots).

(** [for (addr, plain_acct) in &mut accounts]. *)
Fixpoint take_storage (accts : list (Z * PrefetchedAccount)) (storage : gmap Z (gmap Z Z))
    : option (list (Z * PrefetchedAccount)) :=
  match accts with
  | [] => Some []
  | (addr, acct) :: accts =>
      s ← storage !! addr;
      rest ← take_storage accts (delete addr storage);
      Some ((addr, mkPrefetchedAccount (pf_info acct) s) :: rest)
  end.
Definition batch_preblock_state bal_read : option (gmap Z PrefetchedAccount) :=
  accounts ← read_accounts bal_read;
  storage ← mapM (fun r => s ← read_slots r.1 r.2; Some (r.1, s)) (map_to_list bal_read);
  list_to_map <$> take_storage (map_to_list accounts) (list_to_map storage).

Definition batch_preblock_state_nested bal_read : option (gmap Z PrefetchedAccount) :=
  list_to_map <$>
    mapM (fun r =>
      info ← unwrap_ok (basic_ref db r.1);
      storage ← read_slots r.1 r.2;
      Some (r.1, mkPrefetchedAccount info storage)) (map_to_list bal_read).

(** ** The two channels

    Each worker takes a task, reads the slot and sends the result; the collector
    merges one result at a time. *)
Record Channels := mkChannels {
  ch_tasks : list (Z * Z);
  ch_workers : list (option (Z * Z));
  ch_results : list (Z * Z * Z);
  ch_collected : gmap Z PrefetchedAccount }.
Inductive Turn : Type := WorkerTurn (i : nat) | CollectorTurn.

Definition collect accounts (r : Z * Z * Z) : gmap Z PrefetchedAccount :=
  let '(addr, key, value) := r in
  match accounts !! addr with
  | Some acct => <[addr := mkPrefetchedAccount (pf_info acct) (<[key := value]> (pf_storage acct))]> accounts
  | None => accounts
  end.
(** The outer [option] is a panic of a worker; a turn of a worker or a collector
    that waits changes nothing. *)
Definition channel_step (s : Channels) (t : Turn) : option Channels :=
  match t with
  | CollectorTurn =>
      match ch_results s with
      | [] => Some s
      | r :: results =>
          Some (mkChannels (ch_tasks s) (ch_workers s) results (collect (ch_collected s) r))
      end
  | WorkerTurn i =>
      match ch_workers s !! i with
      | None => Some s
      | Some None =>
          match ch_tasks s with
          | [] => Some s
          | task :: tasks =>
              Some (mkChannels tasks (<[i := Some task]> (ch_workers s)) (ch_results s) (ch_collected s))
          end
      | Some (Some (addr, key)) =>
          value ← unwrap_ok (storage_ref db addr key);
          Some (mkChannels (ch_tasks s) (<[i := None]> (ch_workers s))
                  (ch_results s ++ [(addr, key, value)]) (ch_collected s))
      end
  end.
Definition channel_run (turns : list Turn) (s : Channels) : option Channels :=
  fold_left (fun s t => s ← s; channel_step s t) turns (Some s).

(** The producer has sent every task before the workers start. *)
Definition bal_tasks bal_read : list (Z * Z) :=
  r ← map_to_list bal_read; pair r.1 <$> elements r.2.
Definition channel_start (workers : nat) bal_read accounts : Channels :=
  mkChannels (bal_tasks bal_read) (replicate workers None) [] accounts.
(** [batch_preblock_state_channel] after the turns of its threads. *)
Definition batch_preblock_state_channel (workers : nat) (turns : list Turn) bal_read : option Channels :=
  accounts ← read_accounts bal_read; channel_run turns (channel_start workers bal_read accounts).
(** Both channels are closed when they are drained, and the collector joined. *)
Definition channel_done (s : Channels) : bool :=
  match ch_tasks s, ch_results s with
  | [], [] => forallb (fun w => match w with None => true | Some _ => false end) (ch_workers s)
  | _, _ => false
  end.

(** ** Reads *)

Definition PreBlockStateCache_basic_ref accounts (address : Z) : result (option AccountInfo) ReadError :=
  match accounts !! address with
  | Some acct => Ok (pf_info acct)
  | None => Ok None
  end.
Definition PreBlockStateCache_storage_ref accounts (address index : Z) : result Z ReadError :=
  match (s ← accounts !! address; pf_storage s !! index) with
  | Some val => Ok val
  | None => Ok 0
  end.
Definition PreBlockStateCache_DatabaseRef : DatabaseRef (gmap Z PrefetchedAccount) ReadError := {|
  basic_ref := PreBlockStateCache_basic_ref;
  code_by_hash_ref _ _ := Err Panicked;
  storage_ref := PreBlockStateCache_storage_ref;
  block_hash_ref _ _ := Err Panicked |}.
End Prefetch.
