(* ===== verification/PreBlockLaws.v ===== *)
(** The caches of the state before a block: whatever the interleaving of its
    threads and the locks they wait for, all the reads of [MTCache] return, with
    what the memory or the database holds; the three ways to prefetch a state
    agree, whatever the order of the workers; a state turned into a cache answers
    without panicking. *)
From S2P Require Import Prelude Hardfork Bytecode State Database BundleAccount CacheState StateDb CacheDB Bal PreBlock.
From stdpp Require Import base numbers list option tactics gmap fin_maps.
From Stdlib Require Import ZArith Lia.

Local Open Scope Z_scope.

(** * The shared cache *)

(** The latest state in memory that has an answer: the states before it in the
    list, which are newer, have none. *)
Definition latest {X : Type} (has : PreBlockState -> option X) (mem : list PreBlockState) (x : X) : Prop :=
  exists newer state older, mem = newer ++ state :: older /\
    Forall (fun s => has s = None) newer /\ has state = Some x.
(** What a state has of an account and of a slot. *)
Definition has_info (a : Z) (s : PreBlockState) : option (option AccountInfo) := mp_info <$> pb_accounts s !! a.
Definition has_slot (a k : Z) (s : PreBlockState) : option Z :=
  pb_accounts s !! a ≫= fun acct => mp_storage acct !! k.

Lemma latest_cons {X : Type} (has : PreBlockState -> option X) s mem x :
  latest has (s :: mem) x <-> has s = Some x \/ has s = None /\ latest has mem x.
Proof.
  split.
  - intros (newer & st & older & He & Hn & Hs). destruct newer as [|s' newer]; cbn in He; injection He as -> ->.
    + by left.
    + apply Forall_cons in Hn as [Hs' Hn]. right. split; [done|]. by exists newer, st, older.
  - intros [Hs|[Hs (newer & st & older & -> & Hn & Hst)]]; [by exists [], s, mem|].
    exists (s :: newer), st, older. split; [done|]. split; [|done]. by constructor.
Qed.

Lemma memory_basic_latest mem a :
  match memory_basic mem a with
  | Some i => latest (has_info a) mem i
  | None => Forall (fun s => has_info a s = None) mem
  end.
Proof.
  induction mem as [|s mem IH]; cbn; [constructor|].
  destruct (pb_accounts s !! a) as [acct|] eqn:E; cbn.
  - apply latest_cons. left. unfold has_info. by rewrite E.
  - assert (Hs : has_info a s = None) by (unfold has_info; by rewrite E).
    destruct (memory_basic mem a); [apply latest_cons; by right|by constructor].
Qed.
Lemma memory_storage_latest mem a k :
  match memory_storage mem a k with
  | Some v => latest (has_slot a k) mem v
  | None => Forall (fun s => has_slot a k s = None) mem
  end.
Proof.
  induction mem as [|s mem IH]; cbn -[mbind]; [constructor|]. fold (has_slot a k s).
  destruct (has_slot a k s) as [v|] eqn:E; [apply latest_cons; by left|].
  destruct (memory_storage mem a k); [apply latest_cons; by right|by constructor].
Qed.

Lemma memory_basic_of_latest mem a i : latest (has_info a) mem i -> memory_basic mem a = Some i.
Proof.
  induction mem as [|s mem IH]; [intros (newer & ? & ? & He & _); by destruct newer|].
  rewrite latest_cons. unfold has_info at 1 2. cbn. destruct (pb_accounts s !! a) as [acct|]; cbn.
  - intros [[= ->]|[? _]]; done.
  - intros [?|[_ Hl]]; [done|by apply IH].
Qed.
Lemma memory_storage_of_latest mem a k v : latest (has_slot a k) mem v -> memory_storage mem a k = Some v.
Proof.
  induction mem as [|s mem IH]; [intros (newer & ? & ? & He & _); by destruct newer|].
  rewrite latest_cons. cbn -[mbind]. fold (has_slot a k s). destruct (has_slot a k s) as [w|].
  - intros [[= ->]|[? _]]; done.
  - intros [?|[_ Hl]]; [done|by apply IH].
Qed.

Section Shared.
Context {DB : Type} `{DatabaseRef DB ReadError} {L : Type} `{EqDecision L} (shard : Query -> L).
Context (R : Query -> Answer).
Implicit Types (self : MTCache DB) (shared : SharedCache) (t : Thread DB) (p : Pool DB).

(** An answer that the states in memory give to a query, or that they give
    none; codes are not looked up in them. *)
Definition memory_has self (q : Query) (v : Answer) : Prop :=
  exists mem, mt_in_memory self = Some mem /\
    match q, v with
    | QBasic a, ABasic i => latest (has_info a) mem i
    | QStorage a k, AStorage x => latest (has_slot a k) mem x
    | _, _ => False
    end.
Definition memory_lacks self (q : Query) : Prop :=
  forall mem, mt_in_memory self = Some mem ->
    match q with
    | QBasic a => Forall (fun s => has_info a s = None) mem
    | QCode _ => True
    | QStorage a k => Forall (fun s => has_slot a k s = None) mem
    end.
(** The answer to a query: that of the latest state in memory that has one, or
    else the state [R] of the database. *)
Definition right_answer self (q : Query) (v : Answer) : Prop :=
  memory_has self q v \/ memory_lacks self q /\ v = R q.

Lemma memory_path_spec self q :
  match memory_path self q with Some v => memory_has self q v | None => memory_lacks self q end.
Proof.
  unfold memory_path, basic_memory, storage_memory, memory_has, memory_lacks.
  destruct q as [a|h|a k], (mt_in_memory self) as [mem|]; cbn; try done.
  - pose proof (memory_basic_latest mem a) as Hm. destruct (memory_basic mem a); cbn; [by exists mem|].
    by intros ? [= <-].
  - pose proof (memory_storage_latest mem a k) as Hm. destruct (memory_storage mem a k); cbn; [by exists mem|].
    by intros ? [= <-].
Qed.

Definition shared_ok shared : Prop := forall q v, shared_path shared q = Some v -> v = R q.
(** A database of the batch reads [R], or fails. *)
Definition reads_from (db : DB) : Prop := forall q v, query_db db q = Ok v -> v = R q.

Lemma shared_ok_new : shared_ok SharedCache_new.
Proof. by intros [] v; cbn; unfold basic_shared, code_shared, storage_shared; cbn; rewrite ?lookup_empty. Qed.

Lemma shared_storage_entry_lookup shared a k v a' k' :
  (inner ← sc_storage (shared_storage_entry shared a k v).2 !! a'; inner !! k')
  = if decide (a' = a /\ k' = k) then Some (shared_storage_entry shared a k v).1
    else inner ← sc_storage shared !! a'; inner !! k'.
Proof.
  unfold shared_storage_entry.
  destruct (decide (a' = a)) as [->|Hne].
  2: { rewrite decide_False by naive_solver.
       destruct (_ !! k); cbn; by rewrite lookup_insert_ne. }
  assert (Hd : (inner ← sc_storage shared !! a; inner !! k') = default ∅ (sc_storage shared !! a) !! k').
  { destruct (sc_storage shared !! a); cbn; [done|]. by rewrite lookup_empty. }
  rewrite Hd. destruct (default ∅ (sc_storage shared !! a) !! k) as [w|] eqn:E; cbn; rewrite lookup_insert_eq; cbn.
  - destruct (decide (k' = k)) as [->|]; [by rewrite decide_True|]. by rewrite decide_False by naive_solver.
  - destruct (decide (k' = k)) as [->|Hk]; [by rewrite decide_True, lookup_insert_eq|].
    rewrite decide_False by naive_solver. by rewrite lookup_insert_ne.
Qed.

(** An entry answers what the shared cache has, or stores what it is given. *)
Lemma shared_storage_entry_value shared a k v :
  (shared_storage_entry shared a k v).1 = default v (inner ← sc_storage shared !! a; inner !! k).
Proof.
  unfold shared_storage_entry. destruct (sc_storage shared !! a) as [inner|]; cbn.
  - by destruct (inner !! k).
  - by rewrite lookup_empty.
Qed.

Lemma shared_entry_ok shared q v :
  shared_ok shared -> v = R q ->
  (shared_entry shared q v).1 = R q /\ shared_ok (shared_entry shared q v).2.
Proof.
  intros Hs Hv. destruct q as [a|h|a k], v as [i|c|w]; try done; cbn [shared_entry].
  - pose proof (Hs (QBasic a)) as Ha. cbn in Ha. unfold shared_accounts_entry, basic_shared in *.
    destruct (sc_accounts shared !! a) as [e|] eqn:E; cbn; [split; [by apply Ha|done]|].
    split; [done|]. intros [a'|h'|a' k'] v'; cbn; [|apply (Hs (QCode h'))|apply (Hs (QStorage a' k'))].
    unfold basic_shared. cbn.
    destruct (decide (a' = a)) as [->|]; [rewrite lookup_insert_eq; by intros [= <-]|].
    rewrite lookup_insert_ne by done. apply (Hs (QBasic a')).
  - pose proof (Hs (QCode h)) as Ha. cbn in Ha. unfold shared_contracts_entry, code_shared in *.
    destruct (sc_contracts shared !! h) as [e|] eqn:E; cbn; [split; [by apply Ha|done]|].
    split; [done|]. intros [a'|h'|a' k'] v'; cbn; [apply (Hs (QBasic a'))| |apply (Hs (QStorage a' k'))].
    unfold code_shared. cbn.
    destruct (decide (h' = h)) as [->|]; [rewrite lookup_insert_eq; by intros [= <-]|].
    rewrite lookup_insert_ne by done. apply (Hs (QCode h')).
  - pose proof (Hs (QStorage a k)) as Ha. cbn in Ha. unfold storage_shared in Ha.
    pose proof (shared_storage_entry_lookup shared a k w) as Hl.
    pose proof (shared_storage_entry_value shared a k w) as Hw.
    assert (Hfields : sc_accounts (shared_storage_entry shared a k w).2 = sc_accounts shared
              /\ sc_contracts (shared_storage_entry shared a k w).2 = sc_contracts shared).
    { unfold shared_storage_entry. by destruct (_ !! k). }
    destruct Hfields as [Hacc Hcon].
    destruct (shared_storage_entry shared a k w) as [w' shared']. cbn in *.
    assert (Hr : AStorage w' = R (QStorage a k)).
    { rewrite Hw. destruct (_ ≫= _) as [x|]; [by apply Ha|done]. }
    split; [done|]. intros [a'|h'|a' k'] v'; cbn; unfold basic_shared, code_shared, storage_shared;
      rewrite ?Hacc, ?Hcon; [apply (Hs (QBasic a'))|apply (Hs (QCode h'))|].
    rewrite Hl. case_decide as Hd; [destruct Hd as [-> ->]; by intros [= <-]|]. apply (Hs (QStorage a' k')).
Qed.

(** * Threads *)

(** The points a thread still has to pass. *)
Definition remaining t : nat :=
  match th_progress t with
  | Started => 5 | Reading => 4 | Missed => 3 | Fetched _ => 2 | Writing _ => 1 | Returned _ => 0
  end.

Definition answer_ok t (r : result Answer ReadError) : Prop :=
  match r with
  | Ok v => right_answer (th_cache t) (th_query t) v
  | Err e => memory_lacks (th_cache t) (th_query t)
             /\ query_db (mt_db (th_cache t)) (th_query t) = Err e
  end.
Definition thread_ok t : Prop :=
  reads_from (mt_db (th_cache t)) /\
  match th_progress t with
  | Started => True
  | Reading | Missed => memory_lacks (th_cache t) (th_query t)
  | Fetched v | Writing v => memory_lacks (th_cache t) (th_query t) /\ v = R (th_query t)
  | Returned r => answer_ok t r
  end.

Lemma thread_step_ok threads shared t :
  shared_ok shared -> thread_ok t ->
  thread_ok (thread_step shard threads shared t).1 /\ shared_ok (thread_step shard threads shared t).2.
Proof.
  destruct t as [c q [| | |v|v|r]]; unfold thread_ok, thread_step, at_progress, answer_ok, right_answer;
    cbn -[query_db shared_entry memory_path shared_path]; intros Hs [Hdb Hp].
  - pose proof (memory_path_spec c q) as Hm. destruct (memory_path c q) as [v|]; [by split; [split; [|left]|]|].
    by destruct (existsb _ threads).
  - destruct (shared_path shared q) as [v|] eqn:Es; [|done]. split; [|done]. split; [done|]. right.
    by rewrite (Hs _ _ Es).
  - destruct (query_db (mt_db c) q) as [v|e] eqn:E; cbn -[query_db]; [|done]. by apply Hdb in E.
  - by destruct (existsb _ threads || existsb _ threads).
  - destruct Hp as [Hm Hv]. destruct (shared_entry_ok shared q v Hs Hv) as [Hr Hs'].
    destruct (shared_entry shared q v) as [v' shared']. cbn in *. split; [|done]. split; [done|]. by right.
  - done.
Qed.

Lemma thread_step_same threads shared t :
  th_cache (thread_step shard threads shared t).1 = th_cache t
  /\ th_query (thread_step shard threads shared t).1 = th_query t.
Proof.
  unfold thread_step. destruct (th_progress t);
    repeat first [done | match goal with |- context [match ?x with _ => _ end] => destruct x end].
Qed.

(** A turn lets the thread pass a point, or changes nothing. *)
Lemma thread_step_remaining threads shared t :
  (remaining (thread_step shard threads shared t).1 < remaining t)%nat
  \/ thread_step shard threads shared t = (t, shared).
Proof.
  unfold thread_step, remaining. destruct t as [c q []]; cbn -[query_db shared_entry memory_path shared_path].
  - destruct (memory_path c q); [left; cbn; lia|]. destruct (existsb _ threads); [by right|left; cbn; lia].
  - destruct (shared_path shared q); left; cbn; lia.
  - destruct (query_db (mt_db c) q); left; cbn; lia.
  - destruct (existsb _ threads || existsb _ threads); [by right|left; cbn; lia].
  - destruct (shared_entry shared q v). left. cbn. lia.
  - by right.
Qed.

(** Only a thread that waits for a lock does not pass a point. *)
Lemma thread_step_blocked threads shared t :
  thread_step shard threads shared t = (t, shared) -> remaining t <> 0%nat ->
  existsb (fun u => match th_progress u with Reading | Writing _ => true | _ => false end) threads = true
  /\ match th_progress t with Started | Fetched _ => True | _ => False end.
Proof.
  assert (Hl : forall l, existsb (holds_read shard l) threads || existsb (holds_write shard l) threads = true ->
    existsb (fun u => match th_progress u with Reading | Writing _ => true | _ => false end) threads = true).
  { intros l Hh. apply orb_true_iff in Hh as [Hh|Hh]; apply existsb_exists in Hh as (u & Hu & Hh);
      apply existsb_exists; exists u; (split; [done|]); unfold holds_read, holds_write in Hh; by destruct (th_progress u). }
  destruct t as [c q [| | |v|v|r]]; unfold thread_step, remaining, at_progress;
    cbn -[query_db shared_entry memory_path shared_path]; intros He Hr; [..|done].
  - destruct (memory_path c q); [done|]. destruct (existsb (holds_write shard (shard q)) threads) eqn:E; [|done].
    split; [|done]. apply (Hl (shard q)). by rewrite E, orb_true_r.
  - by destruct (shared_path shared q).
  - by destruct (query_db (mt_db c) q).
  - destruct (existsb (holds_read shard (shard q)) threads || existsb (holds_write shard (shard q)) threads) eqn:E; [|done].
    split; [|done]. by apply (Hl (shard q)).
  - by destruct (shared_entry shared q v).
Qed.

(** * Pools of threads *)

Definition pool_ok p : Prop := shared_ok (po_shared p) /\ Forall thread_ok (po_threads p).

Lemma pool_step_ok p i : pool_ok p -> pool_ok (pool_step shard p i).
Proof.
  intros [Hs Ht]. unfold pool_step. destruct (po_threads p !! i) as [t|] eqn:E; [|done].
  destruct (thread_step_ok (po_threads p) (po_shared p) t Hs) as [Ht' Hs']; [by eapply Forall_lookup_1|].
  destruct (thread_step shard (po_threads p) (po_shared p) t) as [t' shared']. split; cbn in *; [done|].
  by apply Forall_insert.
Qed.
Lemma run_schedule_ok schedule : forall p, pool_ok p -> pool_ok (run_schedule shard schedule p).
Proof. induction schedule as [|i schedule IH]; intros p Hp; [done|]. by apply IH, pool_step_ok. Qed.

(** A thread keeps its cache and its query. *)
Lemma pool_step_thread p i j t :
  po_threads p !! j = Some t ->
  exists t', po_threads (pool_step shard p i) !! j = Some t'
    /\ th_cache t' = th_cache t /\ th_query t' = th_query t.
Proof.
  intros Hj. unfold pool_step. destruct (po_threads p !! i) as [u|] eqn:Hi; [|by exists t].
  pose proof (thread_step_same (po_threads p) (po_shared p) u) as [? ?].
  destruct (thread_step shard (po_threads p) (po_shared p) u) as [u' shared']. cbn in *.
  destruct (decide (i = j)) as [->|Hne].
  - simplify_eq. exists u'. by rewrite list_lookup_insert_eq by (by eapply lookup_lt_Some).
  - exists t. by rewrite list_lookup_insert_ne.
Qed.
Lemma run_schedule_thread schedule : forall p j t,
  po_threads p !! j = Some t ->
  exists t', po_threads (run_schedule shard schedule p) !! j = Some t'
    /\ th_cache t' = th_cache t /\ th_query t' = th_query t.
Proof.
  induction schedule as [|i schedule IH]; intros p j t Hj; [by exists t|].
  destruct (pool_step_thread p i j t Hj) as (t1 & Ht1 & Hc & Hq).
  destruct (IH (pool_step shard p i) j t1 Ht1) as (t2 & Ht2 & Hc2 & Hq2).
  exists t2. split; [done|]. split; congruence.
Qed.

(** ** Progress *)

Definition total p : nat := sum_list_with remaining (po_threads p).

Lemma total_insert (threads : list (Thread DB)) i t t' :
  threads !! i = Some t ->
  (sum_list_with remaining (<[i := t']> threads) + remaining t
   = sum_list_with remaining threads + remaining t')%nat.
Proof.
  revert i. induction threads as [|u threads IH]; intros [|i] Hi; try done; cbn -[remaining] in Hi |- *.
  - simplify_eq. lia.
  - specialize (IH i Hi). rewrite <- !Nat.add_assoc. f_equal. exact IH.
Qed.

Lemma pool_step_total p i : pool_step shard p i = p \/ (total (pool_step shard p i) < total p)%nat.
Proof.
  unfold pool_step, total. destruct (po_threads p !! i) as [t|] eqn:Hi; [|by left].
  destruct (thread_step_remaining (po_threads p) (po_shared p) t) as [Hr|He].
  - right. destruct (thread_step shard (po_threads p) (po_shared p) t) as [t' shared']. cbn in *.
    pose proof (total_insert (po_threads p) i t t' Hi). lia.
  - left. rewrite He. rewrite list_insert_id by done. by destruct p.
Qed.
Lemma run_schedule_total schedule : forall p,
  run_schedule shard schedule p = p \/ (total (run_schedule shard schedule p) < total p)%nat.
Proof.
  induction schedule as [|i schedule IH]; intros p; [by left|]. cbn [run_schedule fold_left].
  fold (run_schedule shard schedule (pool_step shard p i)).
  destruct (pool_step_total p i) as [->|Hi]; [apply IH|].
  right. destruct (IH (pool_step shard p i)) as [He|Hlt]; [by rewrite He|]. lia.
Qed.

(** While a thread has not returned some thread can pass a point: one that holds
    a lock if there is one, and else nobody waits. *)
Lemma pool_progress p :
  (0 < total p)%nat ->
  exists i, (i < length (po_threads p))%nat /\ (total (pool_step shard p i) < total p)%nat.
Proof.
  intros Hp.
  assert (Hmove : forall i t, po_threads p !! i = Some t -> remaining t <> 0%nat ->
    (thread_step shard (po_threads p) (po_shared p) t <> (t, po_shared p)) ->
    exists i, (i < length (po_threads p))%nat /\ (total (pool_step shard p i) < total p)%nat).
  { intros i t Hi Hr Hne. exists i. split; [by eapply lookup_lt_Some|].
    destruct (thread_step_remaining (po_threads p) (po_shared p) t) as [Hlt|He]; [|done].
    unfold pool_step, total. rewrite Hi. pose proof (total_insert (po_threads p) i t) as Ht.
    destruct (thread_step shard (po_threads p) (po_shared p) t) as [t' shared']. cbn in *.
    specialize (Ht t' Hi). lia. }
  destruct (existsb (fun u : Thread DB => match th_progress u with Reading | Writing _ => true | _ => false end)
              (po_threads p)) eqn:Eh.
  - apply existsb_exists in Eh as (u & Hin & Hu). apply list_elem_of_In, list_elem_of_lookup in Hin as [i Hi].
    assert (Hr : remaining u <> 0%nat) by (unfold remaining; by destruct (th_progress u)).
    apply (Hmove i u Hi Hr). intros He.
    destruct (thread_step_blocked _ _ _ He Hr) as [_ Hb]. by destruct (th_progress u).
  - assert (Hex : exists i t, po_threads p !! i = Some t /\ remaining t <> 0%nat).
    { clear Hmove Eh. unfold total in Hp. induction (po_threads p) as [|u threads IH]; cbn in Hp; [lia|].
      destruct (decide (remaining u = 0%nat)) as [Hz|Hz]; [|by exists 0%nat, u].
      destruct IH as (i & t & Hi & Ht); [lia|]. by exists (S i), t. }
    destruct Hex as (i & t & Hi & Hr). apply (Hmove i t Hi Hr). intros He.
    destruct (thread_step_blocked _ _ _ He Hr) as [Hb _]. congruence.
Qed.

(** A round gives every thread a turn, in any order and any number of times. *)
Definition round_of (n : nat) (round : list nat) : Prop := forall i, (i < n)%nat -> i ∈ round.

Lemma run_schedule_app s1 s2 p :
  run_schedule shard (s1 ++ s2) p = run_schedule shard s2 (run_schedule shard s1 p).
Proof. apply fold_left_app. Qed.
Lemma run_schedule_length schedule : forall p,
  length (po_threads (run_schedule shard schedule p)) = length (po_threads p).
Proof.
  induction schedule as [|i schedule IH]; intros p; [done|]. cbn [run_schedule fold_left].
  fold (run_schedule shard schedule (pool_step shard p i)). rewrite IH. unfold pool_step.
  destruct (po_threads p !! i); [|done]. destruct (thread_step _ _ _ _). cbn. apply length_insert.
Qed.

Lemma round_progress p round :
  round_of (length (po_threads p)) round -> (0 < total p)%nat ->
  (total (run_schedule shard round p) < total p)%nat.
Proof.
  intros Hr Hp. destruct (pool_progress p Hp) as (i & Hi & Hlt).
  apply Hr, list_elem_of_split in Hi as (s1 & s2 & ->). rewrite run_schedule_app. cbn [run_schedule fold_left].
  fold (run_schedule shard s2 (pool_step shard (run_schedule shard s1 p) i)).
  destruct (run_schedule_total s1 p) as [->|Hs1].
  - destruct (run_schedule_total s2 (pool_step shard p i)) as [->|?]; lia.
  - destruct (pool_step_total (run_schedule shard s1 p) i) as [->|?];
      destruct (run_schedule_total s2 (run_schedule shard s1 p)) as [He|?];
      try destruct (run_schedule_total s2 (pool_step shard (run_schedule shard s1 p) i)) as [->|?];
      rewrite ?He; lia.
Qed.
Lemma rounds_finish rounds : forall p,
  Forall (round_of (length (po_threads p))) rounds -> (total p <= length rounds)%nat ->
  total (run_schedule shard (concat rounds) p) = 0%nat.
Proof.
  induction rounds as [|round rounds IH]; intros p Hr Hl; cbn [length] in Hl.
  { change (total p = 0%nat). lia. }
  cbn [concat]. apply Forall_cons in Hr as [Hround Hr]. rewrite run_schedule_app.
  apply IH; [by rewrite run_schedule_length|].
  destruct (decide (total p = 0%nat)) as [Hz|Hz].
  - destruct (run_schedule_total round p) as [->|?]; lia.
  - pose proof (round_progress p round Hround ltac:(lia)). lia.
Qed.
Lemma total_started threads :
  Forall (fun t => th_progress t = Started) threads -> sum_list_with remaining threads = (5 * length threads)%nat.
Proof. induction 1 as [|t threads Ht _ IH]; [done|]. cbn. unfold remaining at 1. rewrite Ht, IH. lia. Qed.
Lemma total_zero (threads : list (Thread DB)) i t :
  sum_list_with remaining threads = 0%nat -> threads !! i = Some t -> exists r, th_progress t = Returned r.
Proof.
  revert i. induction threads as [|u threads IH]; intros [|i] Hz Hi; try done; cbn in Hz, Hi.
  - simplify_eq. unfold remaining in Hz. destruct (th_progress t); try lia. by eexists.
  - apply (IH i); [lia|done].
Qed.

(** C10: the threads of a batch that share an [MTCache] all return, with the right
    answers, whatever the interleaving and whichever locks their entries share.
    Let every thread start a read over a database that reads [R] or fails, with a
    shared cache that holds nothing but entries of [R], and let the schedule give
    every thread a turn in each of [5 * n] rounds, [n] being the number of threads
    (a turn in which a thread waits for a lock is lost).  Then no thread is left
    waiting, each has returned the answer of the latest state in memory that has
    one, or else of the database, or else the error of its own query of the
    database, and the shared cache still holds nothing but entries of [R]. *)
Theorem mtcache_reads_return shared threads rounds i t :
  shared_ok shared ->
  Forall (fun t => th_progress t = Started /\ reads_from (mt_db (th_cache t))) threads ->
  Forall (round_of (length threads)) rounds -> (5 * length threads <= length rounds)%nat ->
  threads !! i = Some t ->
  let p := run_schedule shard (concat rounds) (mkPool shared threads) in
  (exists r, po_threads p !! i = Some (at_progress t (Returned r)) /\ answer_ok t r)
  /\ shared_ok (po_shared p).
Proof.
  intros Hs Hts Hr Hn Hi p. subst p.
  assert (Hp : pool_ok (mkPool shared threads)).
  { split; [done|]. apply (Forall_impl _ _ _ Hts). intros u [Hu Hdb]. split; [done|]. by rewrite Hu. }
  apply (run_schedule_ok (concat rounds)) in Hp as [Hs' Ht']. split; [|done].
  assert (Hz : total (run_schedule shard (concat rounds) (mkPool shared threads)) = 0%nat).
  { apply rounds_finish; [done|]. unfold total. cbn [po_threads]. rewrite total_started; [done|].
    apply (Forall_impl _ _ _ Hts). by intros u [? _]. }
  destruct (run_schedule_thread (concat rounds) (mkPool shared threads) i t Hi) as (t' & Hi' & Hc & Hq).
  destruct (total_zero _ _ _ Hz Hi') as [r Hret].
  destruct (Forall_lookup_1 _ _ _ _ Ht' Hi') as [_ Hok]. rewrite Hret in Hok.
  exists r. destruct t' as [c q pr]. cbn in *. subst. split; [done|]. exact Hok.
Qed.

(** A read of the sequential methods. *)
Definition MTCache_read self shared (q : Query) : result Answer ReadError * SharedCache :=
  match q with
  | QBasic a => let '(r, shared) := MTCache_basic_ref self shared a in (map_ok ABasic r, shared)
  | QCode h => let '(r, shared) := MTCache_code_by_hash_ref self shared h in (map_ok ACode r, shared)
  | QStorage a k => let '(r, shared) := MTCache_storage_ref self shared a k in (map_ok AStorage r, shared)
  end.

(** The three methods as one. *)
Lemma MTCache_read_paths self shared q :
  MTCache_read self shared q
  = match memory_path self q with
    | Some v => (Ok v, shared)
    | None =>
        match shared_path shared q with
        | Some v => (Ok v, shared)
        | None =>
            match query_db (mt_db self) q with
            | Err e => (Err e, shared)
            | Ok v => let '(v, shared) := shared_entry shared q v in (Ok v, shared)
            end
        end
    end.
Proof.
  destruct q as [a|h|a k]; cbn -[shared_storage_entry].
  - unfold MTCache_basic_ref. destruct (basic_memory self a); [done|]. destruct (basic_shared shared a); [done|].
    cbn. destruct (basic_ref (mt_db self) a) as [i|e]; cbn; [|done]. by destruct (shared_accounts_entry shared a i).
  - unfold MTCache_code_by_hash_ref. destruct (code_shared shared h); [done|]. cbn.
    destruct (code_by_hash_ref (mt_db self) h) as [i|e]; cbn; [|done]. by destruct (shared_contracts_entry shared h i).
  - unfold MTCache_storage_ref. destruct (storage_memory self a k); [done|]. destruct (storage_shared shared a k); [done|].
    cbn -[shared_storage_entry]. destruct (storage_ref (mt_db self) a k) as [i|e]; cbn -[shared_storage_entry]; [|done].
    by destruct (shared_storage_entry shared a k i).
Qed.

(** A method that nobody interrupts is the five turns of its thread. *)
Lemma alone_step n shared t t' shared' :
  thread_step shard [t] shared t = (t', shared') ->
  run_schedule shard (replicate (S n) 0%nat) (mkPool shared [t])
  = run_schedule shard (replicate n 0%nat) (mkPool shared' [t']).
Proof. intros Ht. cbn [run_schedule replicate fold_left]. unfold pool_step. cbn. by rewrite Ht. Qed.
Lemma alone_returned n shared self q r :
  run_schedule shard (replicate n 0%nat) (mkPool shared [mkThread self q (Returned r)])
  = mkPool shared [mkThread self q (Returned r)].
Proof. induction n as [|n IH]; [done|]. by erewrite alone_step. Qed.
Lemma MTCache_read_schedule self shared q :
  run_schedule shard (replicate 5 0%nat) (mkPool shared [mkThread self q Started])
  = mkPool (MTCache_read self shared q).2
      [mkThread self q (Returned (MTCache_read self shared q).1)].
Proof.
  rewrite MTCache_read_paths.
  destruct (memory_path self q) as [v|] eqn:Em.
  { erewrite alone_step; [apply alone_returned|]. unfold thread_step. cbn -[memory_path]. by rewrite Em. }
  erewrite alone_step. 2: { unfold thread_step. cbn -[memory_path]. by rewrite Em. }
  destruct (shared_path shared q) as [v|] eqn:Es.
  { erewrite alone_step; [apply alone_returned|]. unfold thread_step. cbn -[shared_path]. by rewrite Es. }
  erewrite alone_step. 2: { unfold thread_step. cbn -[shared_path]. by rewrite Es. }
  destruct (query_db (mt_db self) q) as [v|e] eqn:Ed.
  2: { erewrite alone_step; [apply alone_returned|]. unfold thread_step. cbn -[query_db]. by rewrite Ed. }
  erewrite alone_step. 2: { unfold thread_step. cbn -[query_db]. by rewrite Ed. }
  erewrite alone_step. 2: { unfold thread_step. by cbn. }
  destruct (shared_entry shared q v) as [v' shared'] eqn:Ee.
  erewrite alone_step. 2: { unfold thread_step. cbn -[shared_entry]. by rewrite Ee. }
  done.
Qed.
End Shared.

(** * Prefetching *)

Lemma mapM_total {A B : Type} (f : A -> option B) (g : A -> B) (l : list A) :
  (forall x, x ∈ l -> f x = Some (g x)) -> mapM f l = Some (g <$> l).
Proof.
  induction l as [|x l IH]; intros Hf; [done|]. cbn. rewrite (Hf x) by (by left). cbn.
  rewrite IH by (intros y Hy; apply Hf; by right). done.
Qed.

(** A map rebuilt from its entries. *)
Lemma lookup_rebuilt {A B : Type} (f : Z -> A -> B) (m : gmap Z A) a :
  (list_to_map ((fun r => (r.1, f r.1 r.2)) <$> map_to_list m) : gmap Z B) !! a = f a <$> m !! a.
Proof.
  destruct (m !! a) as [x|] eqn:E; cbn.
  - apply elem_of_list_to_map_1.
    + rewrite <- list_fmap_compose. cbn. apply NoDup_fst_map_to_list.
    + apply list_elem_of_fmap. exists (a, x). split; [done|]. by apply elem_of_map_to_list.
  - apply not_elem_of_list_to_map_1. rewrite <- list_fmap_compose. intros Hin.
    apply list_elem_of_fmap in Hin as ([a' x] & -> & Hin). apply elem_of_map_to_list in Hin. by cbn in *; simplify_eq.
Qed.

Section PrefetchLaws.
Context {DB : Type} `{DatabaseRef DB ReadError} (db : DB).
Implicit Types (bal_read : gmap Z (gset Z)) (s : Channels).

Definition info_at (a : Z) : option AccountInfo :=
  match basic_ref db a with Ok i => i | Err _ => None end.
Definition slot_at (a k : Z) : Z := match storage_ref db a k with Ok v => v | Err _ => 0 end.
Definition requested bal_read (a k : Z) : Prop := exists slots, bal_read !! a = Some slots /\ k ∈ slots.
(** The database answers every read of the list. *)
Record reads_ok bal_read : Prop := {
  ro_basic a slots : bal_read !! a = Some slots -> basic_ref db a = Ok (info_at a);
  ro_slot a k : requested bal_read a k -> storage_ref db a k = Ok (slot_at a k) }.

(** The state to prefetch. *)
Definition slots_map (a : Z) (slots : gset Z) : gmap Z Z :=
  list_to_map ((fun k => (k, slot_at a k)) <$> elements slots).
Definition prefetch_map bal_read : gmap Z PrefetchedAccount :=
  list_to_map ((fun r => (r.1, mkPrefetchedAccount (info_at r.1) (slots_map r.1 r.2)))
                 <$> map_to_list bal_read).

Lemma lookup_prefetch_map bal_read a :
  prefetch_map bal_read !! a
  = (fun slots => mkPrefetchedAccount (info_at a) (slots_map a slots)) <$> bal_read !! a.
Proof. apply (lookup_rebuilt (fun a slots => mkPrefetchedAccount (info_at a) (slots_map a slots))). Qed.
Lemma lookup_slots_map a slots k :
  slots_map a slots !! k = if decide (k ∈ slots) then Some (slot_at a k) else None.
Proof.
  unfold slots_map. case_decide as Hk.
  - apply elem_of_list_to_map_1.
    + rewrite <- list_fmap_compose. cbn. rewrite list_fmap_id. apply NoDup_elements.
    + apply list_elem_of_fmap. exists k. split; [done|]. by apply elem_of_elements.
  - apply not_elem_of_list_to_map_1. rewrite <- list_fmap_compose. cbn. rewrite list_fmap_id.
    by rewrite elem_of_elements.
Qed.

Section Ok.
Context bal_read (Hok : reads_ok bal_read).

Lemma read_slots_ok a slots :
  bal_read !! a = Some slots -> read_slots db a slots = Some (slots_map a slots).
Proof.
  intros Ha. unfold read_slots, slots_map. erewrite mapM_total; [done|]. intros k Hk. cbn.
  apply elem_of_elements in Hk. rewrite (ro_slot _ Hok a k); [done|]. by exists slots.
Qed.
Lemma read_accounts_ok :
  read_accounts db bal_read
  = Some (list_to_map ((fun r => (r.1, mkPrefetchedAccount (info_at r.1) ∅)) <$> map_to_list bal_read)).
Proof.
  unfold read_accounts. erewrite mapM_total; [done|]. intros [a slots] Hr. cbn. unfold read_account.
  apply elem_of_map_to_list in Hr. by rewrite (ro_basic _ Hok a slots).
Qed.
Lemma nested_ok : batch_preblock_state_nested db bal_read = Some (prefetch_map bal_read).
Proof.
  unfold batch_preblock_state_nested, prefetch_map. erewrite mapM_total; [done|]. intros [a slots] Hr. cbn.
  apply elem_of_map_to_list in Hr. rewrite (ro_basic _ Hok a slots) by done. cbn.
  by rewrite read_slots_ok.
Qed.

Lemma take_storage_ok (f : Z -> gmap Z Z) accts : forall storage,
  NoDup accts.*1 -> (forall a, a ∈ accts.*1 -> storage !! a = Some (f a)) ->
  take_storage accts storage
  = Some ((fun r => (r.1, mkPrefetchedAccount (pf_info r.2) (f r.1))) <$> accts).
Proof.
  induction accts as [|[a acct] accts IH]; intros storage Hnd Hf; [done|].
  apply NoDup_cons in Hnd as [Hni Hnd]. cbn. rewrite (Hf a) by (by left). cbn. rewrite IH; [done|done|].
  intros b Hb. rewrite lookup_delete_ne by (intros ->; contradiction). apply Hf. by right.
Qed.
Lemma batch_ok : batch_preblock_state db bal_read = Some (prefetch_map bal_read).
Proof.
  unfold batch_preblock_state. rewrite read_accounts_ok. cbn.
  erewrite (mapM_total _ (fun r => (r.1, slots_map r.1 r.2))).
  2: { intros [a slots] Hr. apply elem_of_map_to_list in Hr. cbn. by rewrite read_slots_ok. }
  cbn. rewrite (take_storage_ok (fun a => slots_map a (default ∅ (bal_read !! a)))).
  - cbn. f_equal. apply map_eq. intros a.
    rewrite (lookup_rebuilt (fun a acct => mkPrefetchedAccount (pf_info acct) (slots_map a (default ∅ (bal_read !! a))))).
    rewrite (lookup_rebuilt (fun a (_ : gset Z) => mkPrefetchedAccount (info_at a) ∅)), lookup_prefetch_map.
    by destruct (bal_read !! a).
  - apply NoDup_fst_map_to_list.
  - intros a Ha. apply list_elem_of_fmap in Ha as ([a' acct] & -> & Ha). apply elem_of_map_to_list in Ha. cbn in *.
    rewrite (lookup_rebuilt (fun a (_ : gset Z) => mkPrefetchedAccount (info_at a) ∅)) in Ha.
    rewrite (lookup_rebuilt slots_map). by destruct (bal_read !! a').
Qed.

(** ** The channels *)

Record channel_inv s : Prop := {
  ci_infos a : pf_info <$> ch_collected s !! a = (fun _ => info_at a) <$> bal_read !! a;
  ci_slots a acct k v : ch_collected s !! a = Some acct -> pf_storage acct !! k = Some v ->
    requested bal_read a k /\ v = slot_at a k;
  ci_tasks a k : (a, k) ∈ ch_tasks s -> requested bal_read a k;
  ci_held a k : Some (a, k) ∈ ch_workers s -> requested bal_read a k;
  ci_results a k v : (a, k, v) ∈ ch_results s -> requested bal_read a k /\ v = slot_at a k;
  ci_all a k : requested bal_read a k ->
    (a, k) ∈ ch_tasks s \/ Some (a, k) ∈ ch_workers s \/ (a, k, slot_at a k) ∈ ch_results s
    \/ exists acct, ch_collected s !! a = Some acct /\ pf_storage acct !! k = Some (slot_at a k) }.

Lemma bal_tasks_requested a k : (a, k) ∈ bal_tasks bal_read <-> requested bal_read a k.
Proof.
  unfold bal_tasks, requested. rewrite list_elem_of_bind. split.
  - intros ([a' slots] & Hk & Hr). apply list_elem_of_fmap in Hk as (k' & [= -> ->] & Hk).
    exists slots. by rewrite <- elem_of_map_to_list, <- elem_of_elements.
  - intros (slots & Ha & Hk). exists (a, slots). split; [|by apply elem_of_map_to_list].
    apply list_elem_of_fmap. exists k. split; [done|]. by apply elem_of_elements.
Qed.

Lemma channel_start_inv workers accounts :
  read_accounts db bal_read = Some accounts -> channel_inv (channel_start workers bal_read accounts).
Proof.
  rewrite read_accounts_ok. intros [= <-].
  assert (Hl : forall a, (list_to_map ((fun r => (r.1, mkPrefetchedAccount (info_at r.1) ∅)) <$> map_to_list bal_read)
      : gmap Z PrefetchedAccount) !! a = (fun _ => mkPrefetchedAccount (info_at a) ∅) <$> bal_read !! a)
    by (apply (lookup_rebuilt (fun a (_ : gset Z) => mkPrefetchedAccount (info_at a) ∅))).
  split; cbn.
  - intros a. rewrite Hl. by destruct (bal_read !! a).
  - intros a acct k v. rewrite Hl. destruct (bal_read !! a); [|done]. intros [= <-]. cbn. by rewrite lookup_empty.
  - intros a k. apply bal_tasks_requested.
  - intros a k Hin. apply elem_of_replicate in Hin as [? _]. done.
  - intros a k v Hin. by apply elem_of_nil in Hin.
  - intros a k Hk. left. by apply bal_tasks_requested.
Qed.

(** The collector: a result goes from the channel to its account. *)
Lemma collector_inv tasks workers a k v results accounts :
  channel_inv (mkChannels tasks workers ((a, k, v) :: results) accounts) ->
  channel_inv (mkChannels tasks workers results (collect accounts (a, k, v))).
Proof.
  intros [Hi Hs Ht Hh Hr Ha]. cbn in *. destruct (Hr a k v) as [Hq ->]; [by left|].
  assert (He : exists acct, accounts !! a = Some acct).
  { destruct Hq as (slots & Hb & _). specialize (Hi a). rewrite Hb in Hi. by destruct (accounts !! a); [eauto|]. }
  destruct He as [acct Hacct]. rewrite Hacct. split; cbn.
  - intros b. destruct (decide (b = a)) as [->|]; [|by rewrite lookup_insert_ne].
    rewrite lookup_insert_eq. specialize (Hi a). by rewrite Hacct in Hi.
  - intros b acct' k' v' Hb. destruct (decide (b = a)) as [->|];
      [|rewrite lookup_insert_ne in Hb by done; by apply (Hs b acct')].
    rewrite lookup_insert_eq in Hb. injection Hb as <-. cbn.
    destruct (decide (k' = k)) as [->|]; [rewrite lookup_insert_eq; by intros [= <-]|].
    rewrite lookup_insert_ne by done. by apply (Hs a acct).
  - done.
  - done.
  - intros b k' v' Hin. apply Hr. by right.
  - intros b k' Hb. destruct (Ha b k' Hb) as [?|[?|[Hin|(acct' & Hb' & Hk')]]]; [by left|by right; left| |].
    + apply elem_of_cons in Hin as [[= <- <-]|Hin]; [|by right; right; left].
      right; right; right. eexists. rewrite lookup_insert_eq. split; [done|]. cbn. by rewrite lookup_insert_eq.
    + right; right; right. destruct (decide (b = a)) as [->|].
      * eexists. rewrite lookup_insert_eq. split; [done|]. cbn. simplify_eq.
        destruct (decide (k' = k)) as [->|]; [by rewrite lookup_insert_eq|]. by rewrite lookup_insert_ne.
      * exists acct'. by rewrite lookup_insert_ne.
Qed.

(** A worker takes a task. *)
Lemma worker_takes_inv i task tasks workers results accounts :
  workers !! i = Some None ->
  channel_inv (mkChannels (task :: tasks) workers results accounts) ->
  channel_inv (mkChannels tasks (<[i := Some task]> workers) results accounts).
Proof.
  intros Hi [Hinf Hs Ht Hh Hr Ha]. cbn in *. split; cbn; try done.
  - intros a k Hin. apply Ht. by right.
  - intros a k Hin. apply list_elem_of_lookup in Hin as [j Hj].
    destruct (decide (j = i)) as [->|].
    + rewrite list_lookup_insert_eq in Hj by (by eapply lookup_lt_Some). simplify_eq. apply Ht. by left.
    + rewrite list_lookup_insert_ne in Hj by done. apply Hh. by eapply list_elem_of_lookup_2.
  - intros a k Hq. destruct (Ha a k Hq) as [Hin|[Hin|Hin]]; [| |by right; right].
    + apply elem_of_cons in Hin as [<-|Hin]; [|by left]. right; left.
      apply list_elem_of_lookup. exists i. by rewrite list_lookup_insert_eq by (by eapply lookup_lt_Some).
    + right; left. apply list_elem_of_lookup in Hin as [j Hj]. apply list_elem_of_lookup. exists j.
      rewrite list_lookup_insert_ne; [done|]. intros ->. simplify_eq.
Qed.

(** A worker sends a result. *)
Lemma worker_sends_inv i a k tasks workers results accounts :
  workers !! i = Some (Some (a, k)) ->
  channel_inv (mkChannels tasks workers results accounts) ->
  channel_inv (mkChannels tasks (<[i := None]> workers) (results ++ [(a, k, slot_at a k)]) accounts).
Proof.
  intros Hi [Hinf Hs Ht Hh Hr Ha]. cbn in *. split; cbn; try done.
  - intros b k' Hin. apply list_elem_of_lookup in Hin as [j Hj].
    destruct (decide (j = i)) as [->|].
    + by rewrite list_lookup_insert_eq in Hj by (by eapply lookup_lt_Some).
    + rewrite list_lookup_insert_ne in Hj by done. apply Hh. by eapply list_elem_of_lookup_2.
  - intros b k' v Hin. apply elem_of_app in Hin as [Hin|Hin]; [by apply Hr|].
    apply list_elem_of_singleton in Hin as [= -> -> ->]. split; [|done]. apply Hh. by eapply list_elem_of_lookup_2.
  - intros b k' Hq. destruct (Ha b k' Hq) as [Hin|[Hin|[Hin|Hin]]]; [by left| | |by right; right; right].
    + apply list_elem_of_lookup in Hin as [j Hj]. destruct (decide (j = i)) as [->|].
      * simplify_eq. right; right; left. apply elem_of_app. right. by left.
      * right; left. apply list_elem_of_lookup. exists j. by rewrite list_lookup_insert_ne.
    + right; right; left. apply elem_of_app. by left.
Qed.

(** What is still to do: every task has to be taken, read and collected. *)
Definition held (workers : list (option (Z * Z))) : nat := length (filter (fun w => w <> None) workers).
Definition to_do s : nat := 3 * length (ch_tasks s) + 2 * held (ch_workers s) + length (ch_results s).

Lemma held_take i x workers :
  workers !! i = Some None -> held (<[i := Some x]> workers) = S (held workers).
Proof.
  unfold held. revert i. induction workers as [|w workers IH]; intros [|i] Hi; try done; cbn in Hi; cbn [insert list_insert].
  - simplify_eq. rewrite filter_cons_True, filter_cons_False by naive_solver. done.
  - rewrite !filter_cons. case_decide; cbn; by rewrite IH.
Qed.
Lemma held_send i x workers :
  workers !! i = Some (Some x) -> held workers = S (held (<[i := None]> workers)).
Proof.
  unfold held. revert i. induction workers as [|w workers IH]; intros [|i] Hi; try done; cbn in Hi; cbn [insert list_insert].
  - simplify_eq. rewrite filter_cons_True, filter_cons_False by naive_solver. done.
  - rewrite !filter_cons. case_decide; cbn; by rewrite (IH i).
Qed.

Lemma channel_step_ok s t :
  channel_inv s ->
  exists s', channel_step db s t = Some s' /\ channel_inv s'
    /\ length (ch_workers s') = length (ch_workers s).
Proof.
  intros Hs. destruct s as [tasks workers results accounts], t as [i|]; cbn.
  - destruct (workers !! i) as [[[a k]|]|] eqn:Hi; [| |by eauto].
    + rewrite (ro_slot _ Hok a k); [|apply (ci_held _ Hs); cbn; by eapply list_elem_of_lookup_2]. cbn.
      eexists. split; [done|]. split; [by apply worker_sends_inv|]. cbn. apply length_insert.
    + destruct tasks as [|task tasks]; [by eauto|].
      eexists. split; [done|]. split; [by apply worker_takes_inv|]. cbn. apply length_insert.
  - destruct results as [|[[a k] v] results]; [by eauto|].
    eexists. split; [done|]. split; [by apply collector_inv|done].
Qed.

Lemma channel_run_cons t turns s s' :
  channel_step db s t = Some s' -> channel_run db (t :: turns) s = channel_run db turns s'.
Proof. unfold channel_run. cbn. by intros ->. Qed.

Lemma channel_run_ok turns : forall s,
  channel_inv s ->
  exists s', channel_run db turns s = Some s' /\ channel_inv s'
    /\ length (ch_workers s') = length (ch_workers s).
Proof.
  induction turns as [|t turns IH]; intros s Hs; [by eauto|].
  destruct (channel_step_ok s t Hs) as (s1 & H1 & Hs1 & Hl1).
  destruct (IH s1 Hs1) as (s2 & H2 & Hs2 & Hl2). exists s2. rewrite (channel_run_cons t turns s s1 H1).
  split; [done|]. split; [done|congruence].
Qed.

(** While there is something to do, some thread has a turn that does it. *)
Lemma channel_progress s :
  channel_inv s -> (0 < length (ch_workers s))%nat -> channel_done s = false ->
  exists t s', channel_step db s t = Some s' /\ (to_do s' < to_do s)%nat.
Proof.
  intros Hs Hw Hd. destruct s as [tasks workers results accounts]. unfold to_do. cbn in Hw, Hd. cbn [ch_tasks ch_workers ch_results].
  destruct results as [|[[a k] v] results].
  2: { exists CollectorTurn. eexists. split; [done|]. cbn [ch_tasks ch_workers ch_results length]. lia. }
  destruct (list_find (fun w => w <> None) workers) as [[i w]|] eqn:Ef.
  - apply list_find_Some in Ef as (Hi & Hne & _). destruct w as [[a k]|]; [|done].
    exists (WorkerTurn i). cbn. rewrite Hi.
    rewrite (ro_slot _ Hok a k); [|apply (ci_held _ Hs); cbn; by eapply list_elem_of_lookup_2]. cbn.
    eexists. split; [done|]. cbn [ch_tasks ch_workers ch_results].
    rewrite (held_send i (a, k) workers Hi). cbn [length]. lia.
  - apply list_find_None in Ef. destruct tasks as [|task tasks].
    + exfalso. cut (forallb (fun w : option (Z * Z) => match w with None => true | Some _ => false end) workers = true);
        [intros Hall; cbn in Hd; rewrite Hall in Hd; done|].
      apply forallb_forall. intros w Hin. apply list_elem_of_In in Hin. rewrite Forall_forall in Ef.
      specialize (Ef w Hin). destruct w; [exfalso; by apply Ef|done].
    + destruct workers as [|w workers]; [cbn in Hw; lia|]. apply Forall_cons in Ef as [Hn _].
      destruct w; [exfalso; by apply Hn|]. exists (WorkerTurn 0). eexists. split; [done|].
      cbn [ch_tasks ch_workers ch_results]. rewrite held_take by done. cbn [length]. lia.
Qed.

Lemma channel_finishes s :
  channel_inv s -> (0 < length (ch_workers s))%nat ->
  exists turns s', channel_run db turns s = Some s' /\ channel_done s' = true.
Proof.
  remember (to_do s) as n eqn:En. revert s En. induction n as [n IH] using lt_wf_ind. intros s -> Hs Hw.
  destruct (channel_done s) eqn:Ed; [by exists [], s|].
  destruct (channel_progress s Hs Hw Ed) as (t & s1 & H1 & Hlt).
  destruct (channel_step_ok s t Hs) as (s1' & H1' & Hs1 & Hl). simplify_eq.
  destruct (IH (to_do s1) Hlt s1 eq_refl Hs1) as (turns & s2 & H2 & Hd2); [by rewrite Hl|].
  exists (t :: turns), s2. by rewrite (channel_run_cons t turns s s1).
Qed.

(** Everything collected is the state to prefetch. *)
Lemma channel_done_map s :
  channel_inv s -> channel_done s = true -> ch_collected s = prefetch_map bal_read.
Proof.
  intros [Hi Hs _ _ _ Ha] Hd. destruct s as [[|] workers [|] accounts]; try done. cbn in *.
  rewrite forallb_forall in Hd.
  apply map_eq. intros a. rewrite lookup_prefetch_map. specialize (Hi a).
  destruct (accounts !! a) as [acct|] eqn:Hacct, (bal_read !! a) as [slots|] eqn:Hb; try done.
  cbn in Hi |- *. injection Hi as Hinf. f_equal. destruct acct as [inf sto]. cbn in *. subst inf. f_equal.
  apply map_eq. intros k. rewrite lookup_slots_map. case_decide as Hk.
  - destruct (Ha a k) as [Hin|[Hin|[Hin|(acct & Hin & Hv)]]]; [by exists slots|..].
    + by apply elem_of_nil in Hin.
    + apply list_elem_of_In, Hd in Hin. done.
    + by apply elem_of_nil in Hin.
    + by simplify_eq.
  - destruct (sto !! k) as [v|] eqn:Ev; [|done]. exfalso.
    destruct (Hs a _ k v Hacct Ev) as [(slots' & Hb' & Hk') _]. by simplify_eq.
Qed.

Lemma prefetch_map_reads a slots :
  bal_read !! a = Some slots ->
  PreBlockStateCache_basic_ref (prefetch_map bal_read) a = basic_ref db a
  /\ forall k, k ∈ slots -> PreBlockStateCache_storage_ref (prefetch_map bal_read) a k = storage_ref db a k.
Proof.
  intros Hb. unfold PreBlockStateCache_basic_ref, PreBlockStateCache_storage_ref.
  rewrite lookup_prefetch_map, Hb. cbn. split; [by rewrite (ro_basic _ Hok a slots)|].
  intros k Hk. rewrite lookup_slots_map, decide_True by done. rewrite (ro_slot _ Hok a k); [done|]. by exists slots.
Qed.
End Ok.

(** C23: The three ways to prefetch the state of a batch agree: when the database
    answers the reads of the list, reading accounts and then slots, reading both
    nested, and reading through the channels of one or more workers give the
    same cache, which answers every listed read as the database does.  Whatever
    the turns of the workers and the collector have been, the channels can be
    drained, no worker panics, and drained they have collected that cache. *)
Theorem batch_preblock_state_correct bal_read workers turns :
  reads_ok bal_read -> (0 < workers)%nat ->
  exists m, batch_preblock_state db bal_read = Some m
    /\ batch_preblock_state_nested db bal_read = Some m
    /\ (exists s, batch_preblock_state_channel db workers turns bal_read = Some s
          /\ (channel_done s = true -> ch_collected s = m)
          /\ exists turns' s', channel_run db turns' s = Some s' /\ channel_done s' = true
                /\ ch_collected s' = m)
    /\ forall a slots, bal_read !! a = Some slots ->
         PreBlockStateCache_basic_ref m a = basic_ref db a
         /\ forall k, k ∈ slots -> PreBlockStateCache_storage_ref m a k = storage_ref db a k.
Proof.
  intros Hok Hw. exists (prefetch_map bal_read). split; [by apply batch_ok|]. split; [by apply nested_ok|].
  split; [|by apply prefetch_map_reads].
  unfold batch_preblock_state_channel. pose proof (read_accounts_ok bal_read Hok) as Hr. rewrite Hr. cbn.
  destruct (channel_run_ok bal_read Hok turns _ (channel_start_inv bal_read Hok workers _ Hr)) as (s & Hs & Hi & Hl).
  exists s. split; [done|]. split; [by apply channel_done_map|].
  destruct (channel_finishes bal_read Hok s Hi) as (turns' & s' & H' & Hd).
  { rewrite Hl. cbn. by rewrite length_replicate. }
  destruct (channel_run_ok bal_read Hok turns' s Hi) as (s2 & H2 & Hi2 & _). simplify_eq.
  exists turns', s'. split; [done|]. split; [done|]. by apply channel_done_map.
Qed.
End PrefetchLaws.

(** * The state before a block *)

Lemma or_insert_all_lookup other s k :
  or_insert_all other s !! k = match s !! k with Some v => Some v | None => other !! k end.
Proof.
  assert (Hl : forall l s, NoDup l.*1 ->
    fold_left (fun (s : gmap Z Z) (kv : Z * Z) => match s !! kv.1 with Some _ => s | None => <[kv.1 := kv.2]> s end) l s !! k
    = match s !! k with Some v => Some v | None => (list_to_map l : gmap Z Z) !! k end).
  { clear. induction l as [|[k' v'] l IH]; intros s Hnd; cbn [fold_left].
    { by destruct (s !! k). }
    apply NoDup_cons in Hnd as [Hni Hnd]. rewrite IH by done. cbn [fst snd]. rewrite list_to_map_cons.
    destruct (decide (k = k')) as [->|Hne].
    - rewrite lookup_insert_eq. destruct (s !! k') as [v|] eqn:E; [by rewrite E|by rewrite lookup_insert_eq].
    - rewrite (lookup_insert_ne _ k' k) by done. destruct (s !! k'); [done|]. by rewrite lookup_insert_ne. }
  unfold or_insert_all. rewrite Hl by apply NoDup_fst_map_to_list. by rewrite list_to_map_to_list.
Qed.

(** Merging keeps what is there: an account inserted again changes neither its
    info nor a slot it has, and adds the slots it does not have. *)
Lemma insert_account_keeps self addr other a k :
  let acct := pb_accounts (PreBlockState_insert_account self addr other) !! a in
  (mp_info <$> acct) = (match pb_accounts self !! a with
                        | Some e => Some (mp_info e)
                        | None => if decide (a = addr) then Some (mp_info other) else None
                        end)
  /\ (acct ≫= fun e => mp_storage e !! k)
     = match pb_accounts self !! a ≫= fun e => mp_storage e !! k with
       | Some v => Some v
       | None => if decide (a = addr) then mp_storage other !! k else None
       end.
Proof.
  unfold PreBlockState_insert_account. cbn. destruct (decide (a = addr)) as [->|Hne].
  - destruct (pb_accounts self !! addr) as [e|]; cbn; rewrite lookup_insert_eq; cbn; [|done].
    by rewrite or_insert_all_lookup.
  - destruct (pb_accounts self !! addr); cbn; rewrite lookup_insert_ne by done;
      destruct (pb_accounts self !! a) as [e'|]; cbn; try done; by destruct (mp_storage e' !! k).
Qed.

Section CacheDbLaws.
Context `{BitVec}.

Lemma prestate_account_cached cache r :
  cs_cached (prestate_account cache r)
  = <[r.1 := mkCacheAccount
        (Some (mkPlainAccount (default AccountInfo_default (mp_info r.2)) (mp_storage r.2)))
        LoadedNotExisting]> (cs_cached cache).
Proof. destruct r as [a [[i|] sto]]; done. Qed.

Lemma prestate_to_cachedb_cached p a :
  cs_cached (prestate_to_cachedb p) !! a
  = (fun acct => mkCacheAccount
       (Some (mkPlainAccount (default AccountInfo_default (mp_info acct)) (mp_storage acct)))
       LoadedNotExisting) <$> pb_accounts p !! a.
Proof.
  assert (Hl : forall l cache, NoDup l.*1 ->
    cs_cached (fold_left prestate_account l cache) !! a
    = match (list_to_map l : gmap Z MyPlainAccount) !! a with
      | Some acct => Some (mkCacheAccount
          (Some (mkPlainAccount (default AccountInfo_default (mp_info acct)) (mp_storage acct))) LoadedNotExisting)
      | None => cs_cached cache !! a
      end).
  { clear p. induction l as [|r l IH]; intros cache Hnd; [done|]. apply NoDup_cons in Hnd as [Hni Hnd].
    cbn [fold_left]. rewrite IH, prestate_account_cached by done. destruct r as [a' acct]. cbn [fst snd].
    rewrite list_to_map_cons. destruct (decide (a = a')) as [->|Hne].
    - rewrite lookup_insert_eq, not_elem_of_list_to_map_1 by done. by rewrite lookup_insert_eq.
    - by rewrite !lookup_insert_ne. }
  unfold prestate_to_cachedb. rewrite Hl by apply NoDup_fst_map_to_list. rewrite list_to_map_to_list.
  by destruct (pb_accounts p !! a).
Qed.

(** A state turned into a cache answers the reads of its accounts without a
    panic: an account that is empty or has no info does not exist, and a slot that
    is not in the state is zero. *)
Theorem prestate_to_cachedb_reads p a acct k :
  pb_accounts p !! a = Some acct ->
  CacheState_basic_ref (prestate_to_cachedb p) a
    = Some (match mp_info acct with
            | Some i => if AccountInfo_is_empty i then None else Some i
            | None => None
            end)
  /\ CacheState_storage_ref (prestate_to_cachedb p) a k = Some (default 0 (mp_storage acct !! k)).
Proof.
  intros Ha. unfold CacheState_basic_ref, CacheState_storage_ref. rewrite prestate_to_cachedb_cached, Ha. cbn. split.
  - destruct (mp_info acct) as [i|]; cbn; [by destruct (AccountInfo_is_empty i)|done].
  - by destruct (mp_storage acct !! k).
Qed.
End CacheDbLaws.

(** * Examples *)

Module CacheExample.
(** A database whose slots hold the sum of their address and their key, whose
    accounts do not exist and whose codes cannot be found. *)
#[local] Instance SumDb_DatabaseRef : DatabaseRef unit ReadError := {|
  basic_ref _ _ := Ok None;
  code_by_hash_ref _ h := Err (Failed (CodeNotFound h));
  storage_ref _ a k := Ok (a + k);
  block_hash_ref _ _ := Err Panicked |}.
Definition sum_reads (q : Query) : Answer :=
  match q with QBasic _ => ABasic None | QCode _ => AStorage 0 | QStorage a k => AStorage (a + k) end.

(** Two blocks in memory: the latest has written the slot 2 of the account 1,
    which the one before had written too. *)
Definition last_block : PreBlockState :=
  mkPreBlockState {[1 := mkMyPlainAccount None {[2 := 50]}]}.
Definition block_before : PreBlockState :=
  mkPreBlockState {[1 := mkMyPlainAccount None {[2 := 40]}]}.
Definition in_mem : list PreBlockState := [last_block; block_before].
Definition reader (mem : option (list PreBlockState)) (q : Query) : Thread unit :=
  mkThread (mkMTCache tt mem) q Started.
Definition readers : list (Thread unit) :=
  [reader (Some in_mem) (QStorage 1 3); reader (Some in_mem) (QStorage 1 3);
   reader (Some in_mem) (QStorage 1 2); reader None (QCode 9)].
(** The slots of an account are behind one lock. *)
Definition one_lock (q : Query) : Z := match q with QStorage a _ => a | _ => 0 end.
Definition rounds : list (list nat) := concat (replicate 10 [[0; 1; 2; 3]; [3; 1; 1; 0; 2]]%nat).

Lemma rounds_ok : Forall (round_of (length readers)) rounds.
Proof.
  assert (Hr : round_of 4 [0; 1; 2; 3]%nat /\ round_of 4 [3; 1; 1; 0; 2]%nat).
  { split; intros i Hi; do 4 (destruct i as [|i]; [set_solver|]); lia. }
  destruct Hr as [Hr1 Hr2]. change (length readers) with 4%nat.
  unfold rounds. cbn [replicate concat app]. repeat (apply Forall_cons_2; [assumption|]). apply Forall_nil_2.
Qed.

(** Two threads read the same slot at once and wait for each other's lock; the
    second of them is answered. *)
Lemma mtcache_reads_return_witness :
  let p := run_schedule one_lock (concat rounds) (mkPool SharedCache_new readers) in
  (exists r, po_threads p !! 1%nat = Some (at_progress (reader (Some in_mem) (QStorage 1 3)) (Returned r))
             /\ answer_ok sum_reads (reader (Some in_mem) (QStorage 1 3)) r)
  /\ shared_ok sum_reads (po_shared p).
Proof.
  apply (mtcache_reads_return one_lock sum_reads SharedCache_new readers rounds 1).
  - apply shared_ok_new.
  - assert (Hdb : reads_from sum_reads (tt : unit)) by (intros [] v; cbn; congruence).
    repeat constructor; exact Hdb.
  - exact rounds_ok.
  - vm_compute. lia.
  - reflexivity.
Defined.

(** After four turns each the first thread holds the lock for writing, which the
    second one wants. *)
Lemma second_thread_waits :
  th_progress <$> po_threads (run_schedule one_lock [0; 1; 0; 1; 0; 1; 0; 1]%nat (mkPool SharedCache_new readers))
  = [Writing (AStorage 4); Fetched (AStorage 4); Started; Started].
Proof. vm_compute. reflexivity. Qed.

(** The answers of the four threads: twice the database, once the latest block in
    memory, once the error of the database. *)
Lemma interleaving_answers :
  th_progress <$> po_threads (run_schedule one_lock (concat rounds) (mkPool SharedCache_new readers))
  = [Returned (Ok (AStorage 4)); Returned (Ok (AStorage 4)); Returned (Ok (AStorage 50));
     Returned (Err (Failed (CodeNotFound 9)))].
Proof. vm_compute. reflexivity. Qed.

Definition bal_reads : gmap Z (gset Z) := <[1 := {[2; 3]}]> {[5 := ∅]}.
Definition some_turns : list Turn := [WorkerTurn 1; WorkerTurn 0; WorkerTurn 0; CollectorTurn].

Lemma batch_preblock_state_correct_witness :
  exists m, batch_preblock_state tt bal_reads = Some m
    /\ batch_preblock_state_nested tt bal_reads = Some m
    /\ (exists s, batch_preblock_state_channel tt 2 some_turns bal_reads = Some s
          /\ (channel_done s = true -> ch_collected s = m)
          /\ exists turns' s', channel_run tt turns' s = Some s' /\ channel_done s' = true
                /\ ch_collected s' = m)
    /\ forall a slots, bal_reads !! a = Some slots ->
         PreBlockStateCache_basic_ref m a = basic_ref tt a
         /\ forall k, k ∈ slots -> PreBlockStateCache_storage_ref m a k = storage_ref tt a k.
Proof. apply (batch_preblock_state_correct tt bal_reads 2 some_turns); [by split|lia]. Defined.
End CacheExample.
