(* ===== verification/RocksStore.v ===== *)
(** The flat store of accounts, codes and slots over a key-value database:
    the backend interface and its RocksDB implementation
    ([crates/librocksdb/src/ethrex_storage]), the keys of the storage table
    ([table.rs]), and [Store] with its providers and its commits of block access
    lists ([store.rs]).

    Parameters are the [rocksdb] crate ([RocksDB]: column families, reads, atomic
    writes of a batch), the codecs of [reth_db] ([KeyCodec], [Compress]) and the
    account of [reth_primitives_traits] ([RethAccount]).  [reth]'s [Bytecode] and
    [CompactU256] are newtypes over the bytecode and the integer.  A [WriteBatch]
    is the list of its operations.  A backend is shared behind an [Arc]: the
    operations that write return the backend they leave. *)
From S2P Require Import Prelude Hardfork Bytecode State Database BundleAccount CacheState StateDb CacheDB Bal PreBlock.
From stdpp Require Import base numbers list option tactics gmap strings pretty.
From Stdlib Require Import ZArith Lia.

Local Open Scope Z_scope.

(** * Errors ([error.rs], [store.rs]) *)

(** An error of another crate is the text it is displayed as. *)
Inductive StoreError : Type :=
| DecodeError
| Custom (message : string)
| MissingStore
| StoreReadError
| CursorError (table : string)
| MissingLatestBlockNumber
| MissingEarliestBlockNumber
| MempoolWriteLock (message : string)
| MempoolReadLock (message : string)
| LockError
| IncompatibleChainConfig
| TryInto (e : string)
| UpdateBatchNoBlocks
| PivotChanged
| IoError (e : string)
| DbMetadataError (e : string)
| NotFoundDBVersion (expected : N)
| IncompatibleDBVersion (found expected : N).

Definition StoreError_to_string (self : StoreError) : string :=
  match self with
  | DecodeError => "DecodeError"
  | Custom message => message
  | MissingStore => "missing store: is an execution DB being used instead?"
  | StoreReadError => "Could not open DB for reading"
  | CursorError table => "Could not instantiate cursor for table " +:+ table
  | MissingLatestBlockNumber => "Missing latest block number"
  | MissingEarliestBlockNumber => "Missing earliest block number"
  | MempoolWriteLock _ => "Failed to lock mempool for writing"
  | MempoolReadLock _ => "Failed to lock mempool for reading"
  | LockError => "Failed to lock database for writing"
  | IncompatibleChainConfig => "Incompatible chain configuration"
  | TryInto e => "Failed to convert index: " +:+ e
  | UpdateBatchNoBlocks => "Update batch contains no blocks"
  | PivotChanged => "Pivot changed"
  | IoError e => "Error reading from disk: " +:+ e
  | DbMetadataError e => "Error serializing metadata: " +:+ e
  | NotFoundDBVersion expected => "Incompatible DB Version: not found, expected v" +:+ pretty expected
  | IncompatibleDBVersion found expected =>
      "Incompatible DB Version: found v" +:+ pretty found +:+ ", expected v" +:+ pretty expected
  end.

Inductive RocksDBError : Type :=
| RocksReadError (e : StoreError)
| RocksDecodeError (e : string)
| RocksOther (message : string).
Definition RocksDBError_to_string (self : RocksDBError) : string :=
  match self with
  | RocksReadError e => "[rocksdb] failed to read the database: " +:+ StoreError_to_string e
  | RocksDecodeError e => "[rocksdb] failed to decode value:" +:+ e
  | RocksOther message => "[rocksdb] " +:+ message
  end.
Definition MyError_from (value : RocksDBError) : MyError := RocksDbMessage (RocksDBError_to_string value).

(** * Tables ([tables.rs]) *)

Definition CANONICAL_BLOCK_HASHES : string := "canonical_block_hashes".
Definition BLOCK_NUMBERS : string := "block_numbers".
Definition HEADERS : string := "headers".
Definition BODIES : string := "bodies".
Definition ACCOUNT_CODES : string := "account_codes".
Definition RECEIPTS : string := "receipts".
Definition TRANSACTION_LOCATIONS : string := "transaction_locations".
Definition CHAIN_DATA : string := "chain_data".
Definition SNAP_STATE : string := "snap_state".
Definition ACCOUNT_TRIE_NODES : string := "account_trie_nodes".
Definition STORAGE_TRIE_NODES : string := "storage_trie_nodes".
Definition PENDING_BLOCKS : string := "pending_blocks".
Definition INVALID_CHAINS : string := "invalid_ancestors".
Definition FULLSYNC_HEADERS : string := "fullsync_headers".
Definition ACCOUNT_FLATKEYVALUE : string := "account_flatkeyvalue".
Definition STORAGE_FLATKEYVALUE : string := "storage_flatkeyvalue".
Definition MISC_VALUES : string := "misc_values".
Definition TABLES : list string :=
  [CHAIN_DATA; ACCOUNT_CODES; BODIES; BLOCK_NUMBERS; CANONICAL_BLOCK_HASHES; HEADERS; PENDING_BLOCKS;
   TRANSACTION_LOCATIONS; RECEIPTS; SNAP_STATE; INVALID_CHAINS; ACCOUNT_TRIE_NODES; STORAGE_TRIE_NODES;
   FULLSYNC_HEADERS; ACCOUNT_FLATKEYVALUE; STORAGE_FLATKEYVALUE; MISC_VALUES].

(** * The backend ([api/mod.rs]) *)

(** [B] is the backend and [W] its write batch.  A read view reads the backend as
    it is at each read. *)
Class StorageBackend (B W : Type) := {
  clear_table : B -> string -> result () StoreError * B;
  begin_read : B -> result () StoreError;
  begin_write : B -> result W StoreError;
  view_get : B -> string -> list Z -> result (option (list Z)) StoreError;
  batch_put_batch : B -> W -> string -> list (list Z * list Z) -> result () StoreError * W;
  batch_delete : B -> W -> string -> list Z -> result () StoreError * W;
  batch_commit : B -> W -> result () StoreError * B }.

(** The default method of the trait. *)
Definition batch_put {B W} `{StorageBackend B W} (b : B) (w : W) (table : string) (key value : list Z)
    : result () StoreError * W := batch_put_batch b w table [(key, value)].

(** ** RocksDB ([backend/rocksdb.rs]) *)

Inductive WriteOp : Type :=
| PutCf (cf : string) (key value : list Z)
| DeleteCf (cf : string) (key : list Z).
Class RocksDB (D : Type) := {
  cf_handle : D -> string -> bool;
  get_cf : D -> string -> list Z -> result (option (list Z)) string;
  iterator_cf : D -> string -> list (result (list Z * list Z) string);
  db_write : D -> list WriteOp -> result () string * D }.

Section RocksDBBackend.
Context {D : Type} `{RocksDB D}.
Implicit Types (self : D) (tx : list WriteOp).

(** [while let Some(Ok((key, _))) = iter.next()]: an error ends the loop. *)
Fixpoint delete_entries (table : string) (iter : list (result (list Z * list Z) string)) (batch : list WriteOp)
    : list WriteOp :=
  match iter with
  | Ok (key, _) :: iter => delete_entries table iter (batch ++ [DeleteCf table key])
  | _ => batch
  end.
Definition RocksDBBackend_clear_table self (table : string) : result () StoreError * D :=
  if cf_handle self table then
    let '(r, self) := db_write self (delete_entries table (iterator_cf self table) []) in
    (map_err (fun e => Custom ("RocksDB batch write error: " +:+ e)) r, self)
  else (Err (Custom "Column family not found"), self).
Definition RocksDBBackend_begin_read self : result () StoreError := Ok ().
Definition RocksDBBackend_begin_write self : result (list WriteOp) StoreError := Ok [].
Definition table_not_found (table : string) : StoreError := Custom ("Table " +:+ table +:+ " not found").
Definition RocksDBReadTx_get self (table : string) (key : list Z) : result (option (list Z)) StoreError :=
  if cf_handle self table then
    map_err (fun e => Custom ("Failed to get from " +:+ table +:+ ": " +:+ e)) (get_cf self table key)
  else Err (table_not_found table).
(** The [{table:?}] of the two puts quotes the name. *)
Definition quoted_table_not_found (table : string) : StoreError :=
  Custom ("Table " +:+ String (Ascii.ascii_of_nat 34) table +:+ String (Ascii.ascii_of_nat 34) " not found").
Definition RocksDBWriteTx_put self tx (table : string) (key value : list Z)
    : result () StoreError * list WriteOp :=
  if cf_handle self table then (Ok (), tx ++ [PutCf table key value])
  else (Err (quoted_table_not_found table), tx).
Definition RocksDBWriteTx_put_batch self tx (table : string) (batch : list (list Z * list Z))
    : result () StoreError * list WriteOp :=
  if cf_handle self table then
    (Ok (), fold_left (fun tx kv => tx ++ [PutCf table kv.1 kv.2]) batch tx)
  else (Err (quoted_table_not_found table), tx).
Definition RocksDBWriteTx_delete self tx (table : string) (key : list Z)
    : result () StoreError * list WriteOp :=
  if cf_handle self table then (Ok (), tx ++ [DeleteCf table key])
  else (Err (table_not_found table), tx).
(** The batch is taken, an empty one is left: a transaction is not used again. *)
Definition RocksDBWriteTx_commit self tx : result () StoreError * D :=
  let '(r, self) := db_write self tx in
  (map_err (fun e => Custom ("Failed to commit batch: " +:+ e)) r, self).

#[export] Instance RocksDBBackend_StorageBackend : StorageBackend D (list WriteOp) := {|
  clear_table := RocksDBBackend_clear_table;
  begin_read := RocksDBBackend_begin_read;
  begin_write := RocksDBBackend_begin_write;
  view_get := RocksDBReadTx_get;
  batch_put_batch := RocksDBWriteTx_put_batch;
  batch_delete := RocksDBWriteTx_delete;
  batch_commit := RocksDBWriteTx_commit |}.
End RocksDBBackend.

(** * Codecs *)

(** Keys: addresses and 256-bit words. *)
Class KeyCodec := {
  encode_address : Z -> list Z;
  encode_b256 : Z -> list Z;
  decode_address : list Z -> result Z string;
  decode_b256 : list Z -> result Z string }.
(** Values. *)
Class Compress (V : Type) := {
  uncompressable_ref : V -> option (list Z);
  compress : V -> list Z;
  decompress : list Z -> result V string }.
(** [compress_to_buf_or_ref!] ([rlp.rs]): the buffer afterwards.  A value that is
    its own encoding is returned by the macro and not written. *)
Definition compress_to_buf_or_ref {V} `{Compress V} (buf : list Z) (value : V) : list Z :=
  match uncompressable_ref value with Some _ => buf | None => buf ++ compress value end.
(** The account of the database. *)
Class RethAccount (A : Type) := {
  Account_from : AccountInfo -> A;
  get_bytecode_hash : A -> Z;
  Account_into : A -> AccountInfo }.

Definition ADDR_SLOT_SPERATOR : Z := 17.
Definition addr_slot_key (encoded_addr encoded_slot : list Z) : list Z :=
  encoded_addr ++ [ADDR_SLOT_SPERATOR] ++ encoded_slot.

(** ** Keys of the storage table ([table.rs]) *)

Record StorageTableKey := mkStorageTableKey { stk_addr : Z; stk_key : Z }.
Definition StorageTableKey_compress_to_buf `{KeyCodec} (self : StorageTableKey) (buf : list Z) : list Z :=
  buf ++ addr_slot_key (encode_address (stk_addr self)) (encode_b256 (stk_key self)).
(** [None] is the panic of a slice out of range. *)
Definition StorageTableKey_decompress `{KeyCodec} (value : list Z) : option (result StorageTableKey string) :=
  if (20 <=? length value)%nat then
    match decode_address (take 20 value) with
    | Err e => Some (Err e)
    | Ok addr =>
        if (21 <=? length value)%nat then
          Some (try! key := decode_b256 (drop 21 value) in Ok (mkStorageTableKey addr key))
        else None
    end
  else None.

(** * The store ([store.rs])

    [Store] is its backend.  An operation that writes returns its result and the
    backend it leaves. *)

Section Store.
Context {B W A : Type} `{StorageBackend B W, KeyCodec, RethAccount A, Compress A, Compress Bytecode, Compress Z, BitVec}.
Implicit Types self : B.

(** [Decompress::decompress(&v)?] of a value that may be absent. *)
Definition decompress_opt {V} `{Compress V} (v : option (list Z)) : result (option V) RocksDBError :=
  match v with
  | Some v => map_ok Some (map_err RocksDecodeError (decompress v))
  | None => Ok None
  end.
(** [begin_read().unwrap()] and a read. *)
Definition read_table self (table : string) (key : list Z) : option (result (option (list Z)) RocksDBError) :=
  let? () := unwrap_ok (begin_read self) in Some (map_err RocksReadError (view_get self table key)).

Definition Store_basic_account self (address : Z) : option (result (option A) RocksDBError) :=
  let? v := read_table self ACCOUNT_FLATKEYVALUE (encode_address address) in
  Some (try! v := v in decompress_opt v).
Definition Store_bytecode_by_hash self (code_hash : Z) : option (result (option Bytecode) RocksDBError) :=
  let? v := read_table self ACCOUNT_CODES (encode_b256 code_hash) in
  Some (try! v := v in decompress_opt v).
Definition Store_storage self (address key : Z) : option (result (option Z) RocksDBError) :=
  let? v := read_table self STORAGE_FLATKEYVALUE
              (addr_slot_key (encode_address address) (encode_b256 key)) in
  Some (try! v := v in decompress_opt v).

(** [begin_write()?], [put_batch(..)?], [commit()?]. *)
Definition write_batch self (table : string) (batched_items : list (list Z * list Z))
    : result () RocksDBError * B :=
  match begin_write self with
  | Err e => (Err (RocksReadError e), self)
  | Ok txn =>
      match batch_put_batch self txn table batched_items with
      | (Err e, _) => (Err (RocksReadError e), self)
      | (Ok _, txn) =>
          let '(r, self) := batch_commit self txn in (map_err RocksReadError r, self)
      end
  end.
Definition set_kvs {V} `{Compress V} (enc : Z -> list Z) self (table : string) (items : gmap Z V)
    : result () RocksDBError * B :=
  write_batch self table
    ((fun kv => (enc kv.1, compress_to_buf_or_ref [] kv.2)) <$> map_to_list items).
Definition set_accounts self (accounts : gmap Z A) : result () RocksDBError * B :=
  set_kvs encode_address self ACCOUNT_FLATKEYVALUE accounts.
Definition set_codes self (codes : gmap Z Bytecode) : result () RocksDBError * B :=
  set_kvs encode_b256 self ACCOUNT_CODES codes.
Definition set_dup_kvs self (table : string) (items : list (Z * Z * Z)) : result () RocksDBError * B :=
  write_batch self table
    ((fun '(key, slot, val) =>
        (addr_slot_key (encode_address key) (encode_b256 slot), compress_to_buf_or_ref [] val)) <$> items).
Definition set_storages self (storages : list (Z * Z * Z)) : result () RocksDBError * B :=
  set_dup_kvs self STORAGE_FLATKEYVALUE storages.

Fixpoint delete_keys self (table : string) (keys : list (list Z)) (txn : W) : result W StoreError :=
  match keys with
  | [] => Ok txn
  | key :: keys =>
      match batch_delete self txn table key with
      | (Err e, _) => Err e
      | (Ok _, txn) => delete_keys self table keys txn
      end
  end.
Definition delete_kvs (enc : Z -> list Z) self (table : string) (keys : gset Z)
    : result () RocksDBError * B :=
  match begin_write self with
  | Err e => (Err (RocksReadError e), self)
  | Ok txn =>
      match delete_keys self table (enc <$> elements keys) txn with
      | Err e => (Err (RocksReadError e), self)
      | Ok txn => let '(r, self) := batch_commit self txn in (map_err RocksReadError r, self)
      end
  end.
Definition delete_accounts self (keys : gset Z) : result () RocksDBError * B :=
  delete_kvs encode_address self ACCOUNT_FLATKEYVALUE keys.

(** ** [DatabaseRef for RocksDbProvider] *)

Definition rocks_err {T : Type} (r : result T RocksDBError) : result T ReadError :=
  map_err (fun e => Failed (MyError_from e)) r.
Definition RocksDbProvider_code_by_hash_ref self (code_hash : Z) : result Bytecode ReadError :=
  try! v := rocks_err (map_err RocksReadError (view_get self ACCOUNT_CODES (encode_b256 code_hash))) in
  match v with
  | Some v => rocks_err (map_err RocksDecodeError (decompress v))
  | None => Err (Failed (CodeNotFound code_hash))
  end.
Definition RocksDbProvider_basic_ref self (address : Z) : result (option AccountInfo) ReadError :=
  try! v := rocks_err (map_err RocksReadError (view_get self ACCOUNT_FLATKEYVALUE (encode_address address))) in
  match v with
  | Some v =>
      try! acct := rocks_err (map_err RocksDecodeError (decompress v : result A string)) in
      let code_hash := get_bytecode_hash acct in
      if code_hash =? KECCAK_EMPTY then Ok (Some (assign_code None (Account_into acct)))
      else
        match RocksDbProvider_code_by_hash_ref self code_hash with
        | Ok code => Ok (Some (assign_code (Some code) (Account_into acct)))
        | Err _ => Err Panicked
        end
  | None => Ok None
  end.
Definition RocksDbProvider_storage_ref self (address index : Z) : result Z ReadError :=
  let encoded_key := addr_slot_key (encode_address address) (encode_b256 index) in
  try! v := rocks_err (map_err RocksReadError (view_get self STORAGE_FLATKEYVALUE encoded_key)) in
  match v with
  | Some v => rocks_err (map_err RocksDecodeError (decompress v))
  | None => Ok 0
  end.
Definition RocksDbProvider_DatabaseRef : DatabaseRef B ReadError := {|
  basic_ref := RocksDbProvider_basic_ref;
  code_by_hash_ref := RocksDbProvider_code_by_hash_ref;
  storage_ref := RocksDbProvider_storage_ref;
  block_hash_ref _ _ := Err Panicked |}.

(** ** [ProviderRW for Store] *)

(** What the two loops below gather before they write. *)
Record Changes := mkChanges {
  cg_accounts : gmap Z A;
  cg_codes : gmap Z Bytecode;
  cg_storages : list (Z * Z * Z);
  cg_to_delete : gset Z;
  cg_latest : PreBlockState }.
Definition Changes_new : Changes := mkChanges ∅ ∅ [] ∅ PreBlockState_default.

(** [expect] of a write. *)
Definition expect_written (r : result () RocksDBError * B) : option B :=
  match r with (Ok _, self) => Some self | (Err _, _) => None end.

Definition prestate_changes (c : Changes) (entry : Z * MyPlainAccount) : Changes :=
  let '(addr, plain_account) := entry in
  let info := default AccountInfo_default (mp_info plain_account) in
  mkChanges (<[addr := Account_from info]> (cg_accounts c))
    (match code info with Some code => <[code_hash info := code]> (cg_codes c) | None => cg_codes c end)
    (cg_storages c ++ ((fun kv => (addr, kv.1, kv.2)) <$> map_to_list (mp_storage plain_account)))
    (cg_to_delete c) (cg_latest c).
Definition Store_set_preblock_state self (prestate : PreBlockState) : option B :=
  let c := fold_left prestate_changes (map_to_list (pb_accounts prestate)) Changes_new in
  let? store := expect_written (set_accounts self (cg_accounts c)) in
  let? store := expect_written (set_codes store (cg_codes c)) in
  expect_written (set_storages store (cg_storages c)).

(** [writes.last().map_or(0, |(v, _)| *v + 1)]. *)
Definition next_index {T : Type} (writes : BalWrites T) : Z :=
  match last writes with Some w => wrapping_add 64 w.1 1 | None => 0 end.
Definition max_bal_index (info_bal : AccountInfoBal) : Z :=
  Z.max (Z.max (next_index (aib_balance info_bal)) (next_index (aib_nonce info_bal)))
    (next_index (aib_code info_bal)).
(** The last value of every slot that was written. *)
Definition last_writes (storage : gmap Z (BalWrites Z)) : PlainStorage := omap (fun w => snd <$> last w) storage.

Definition commit_bal_account self (c : Changes) (entry : Z * AccountBal) : option Changes :=
  let '(addr, acct_bal) := entry in
  let info_bal := ab_account_info acct_bal in
  let? prev := unwrap_ok (RocksDbProvider_basic_ref self addr) in
  let prev_info := default AccountInfo_default prev in
  let codes :=
    match last (aib_code info_bal) with
    | Some (_, (code_hash, code)) => <[code_hash := code]> (cg_codes c)
    | None => cg_codes c
    end in
  let bal_index := max_bal_index info_bal in
  let info :=
    if 0 <? bal_index then (AccountBal_populate_account_info acct_bal bal_index prev_info).2
    else prev_info in
  let '(to_delete, accounts, latest_info) :=
    if AccountInfo_is_empty info then ({[addr]} ∪ cg_to_delete c, cg_accounts c, None)
    else (cg_to_delete c, <[addr := Account_from info]> (cg_accounts c), Some info) in
  let latest_storage := last_writes (ab_storage acct_bal) in
  Some (mkChanges accounts codes
    (cg_storages c ++ ((fun kv => (addr, kv.1, kv.2)) <$> map_to_list latest_storage)) to_delete
    (mkPreBlockState (<[addr := mkMyPlainAccount latest_info latest_storage]> (pb_accounts (cg_latest c))))).
Fixpoint commit_bal_accounts self (c : Changes) (accounts : list (Z * AccountBal)) : option Changes :=
  match accounts with
  | [] => Some c
  | entry :: accounts => let? c := commit_bal_account self c entry in commit_bal_accounts self c accounts
  end.
(** [begin_read().unwrap()] of [lastest_provider_ro] comes first. *)
Definition Store_commit_bal_changes self (bal : Bal) : option (PreBlockState * B) :=
  let? () := unwrap_ok (begin_read self) in
  let? c := commit_bal_accounts self Changes_new (bal_accounts bal) in
  let? store := expect_written (delete_accounts self (cg_to_delete c)) in
  let? store := expect_written (set_accounts store (cg_accounts c)) in
  let? store := expect_written (set_codes store (cg_codes c)) in
  let? store := expect_written (set_storages store (cg_storages c)) in
  Some (cg_latest c, store).
End Store.
Arguments Changes : clear implicits.

(** ** The states in memory ([bins/revme/src/cmd/bal_test.rs])

    After a commit [execute_blocks_par] puts the latest state in front of the
    states in memory and keeps two of them. *)
Definition push_in_mem (in_mem : list PreBlockState) (latest_state : PreBlockState) : list PreBlockState :=
  let in_mem := if (2 <=? length in_mem)%nat then take (length in_mem - 1) in_mem else in_mem in
  latest_state :: in_mem.
