(* ===== verification/RocksStoreLaws.v ===== *)
(** The flat store: what a backend and the codecs promise, that RocksDB keeps the
    promise of a backend, that keys of the storage table do not collide and can be
    read back, and that committing a block access list makes the store read as the
    list says, with the states kept in memory in agreement with it. *)
From S2P Require Import Prelude Hardfork Bytecode State Database BundleAccount CacheState StateDb CacheDB Bal BalLaws PreBlock PreBlockLaws RocksStore.
From stdpp Require Import base numbers list option tactics gmap strings fin_maps.
From Stdlib Require Import ZArith Lia.

Local Open Scope Z_scope.

(** * What a backend promises *)

Definition apply_op (f : string -> list Z -> option (list Z)) (op : WriteOp) : string -> list Z -> option (list Z) :=
  match op with
  | PutCf t k v => fun t' k' => if decide (t' = t /\ k' = k) then Some v else f t' k'
  | DeleteCf t k => fun t' k' => if decide (t' = t /\ k' = k) then None else f t' k'
  end.
Definition apply_ops (ops : list WriteOp) (f : string -> list Z -> option (list Z))
    : string -> list Z -> option (list Z) := fold_left apply_op ops f.
Definition puts (table : string) (kvs : list (list Z * list Z)) : list WriteOp :=
  (fun kv => PutCf table kv.1 kv.2) <$> kvs.

(** A healthy backend reads what it stores, and a commit applies the operations
    of the batch in their order. *)
Class StorageBackendLaws (B W : Type) `{StorageBackend B W} := {
  stored : B -> string -> list Z -> option (list Z);
  pending : W -> list WriteOp;
  healthy : B -> Prop;
  healthy_read b : healthy b -> begin_read b = Ok ();
  healthy_get b t k : healthy b -> t ∈ TABLES -> view_get b t k = Ok (stored b t k);
  healthy_begin b : healthy b -> exists w, begin_write b = Ok w /\ pending w = [];
  healthy_put b w t kvs : healthy b -> t ∈ TABLES ->
    exists w', batch_put_batch b w t kvs = (Ok (), w') /\ pending w' = pending w ++ puts t kvs;
  healthy_delete b w t k : healthy b -> t ∈ TABLES ->
    exists w', batch_delete b w t k = (Ok (), w') /\ pending w' = pending w ++ [DeleteCf t k];
  healthy_commit b w : healthy b ->
    exists b', batch_commit b w = (Ok (), b') /\ healthy b'
      /\ forall t k, stored b' t k = apply_ops (pending w) (stored b) t k }.

(** What RocksDB documents: a write of a batch is applied as a whole and in
    order; the column families are those that [open] was given. *)
Class RocksDBLaws (D : Type) `{RocksDB D} := {
  rocks_stored : D -> string -> list Z -> option (list Z);
  rocks_healthy : D -> Prop;
  rocks_tables d t : rocks_healthy d -> t ∈ TABLES -> cf_handle d t = true;
  rocks_get d t k : rocks_healthy d -> get_cf d t k = Ok (rocks_stored d t k);
  rocks_write d ops : rocks_healthy d ->
    exists d', db_write d ops = (Ok (), d') /\ rocks_healthy d'
      /\ forall t k, rocks_stored d' t k = apply_ops ops (rocks_stored d) t k }.

Lemma put_batch_puts table kvs : forall tx,
  fold_left (fun tx (kv : list Z * list Z) => tx ++ [PutCf table kv.1 kv.2]) kvs tx = tx ++ puts table kvs.
Proof.
  induction kvs as [|kv kvs IH]; intros tx; cbn; [by rewrite app_nil_r|]. rewrite IH, <- app_assoc. done.
Qed.

#[export] Program Instance RocksDBBackend_laws {D} `{RocksDBLaws D} : StorageBackendLaws D (list WriteOp) := {|
  stored := rocks_stored; pending := id; healthy := rocks_healthy |}.
Next Obligation. done. Qed.
Next Obligation.
  intros D ? ? d t k Hd Ht. cbn. unfold RocksDBReadTx_get. by rewrite rocks_tables, rocks_get.
Qed.
Next Obligation. intros. by eexists. Qed.
Next Obligation.
  intros D ? ? d w t kvs Hd Ht. cbn. unfold RocksDBWriteTx_put_batch. rewrite rocks_tables by done.
  eexists. split; [done|]. apply put_batch_puts.
Qed.
Next Obligation.
  intros D ? ? d w t k Hd Ht. cbn. unfold RocksDBWriteTx_delete. rewrite rocks_tables by done. by eexists.
Qed.
Next Obligation.
  intros D ? ? d w Hd. cbn. unfold RocksDBWriteTx_commit.
  destruct (rocks_write d w Hd) as (d' & -> & Hd' & Hs). by exists d'.
Qed.

(** * What the codecs promise *)

Class KeyCodecLaws `{KeyCodec} : Prop := {
  length_encode_address a : length (encode_address a) = 20%nat;
  length_encode_b256 h : length (encode_b256 h) = 32%nat;
  decode_encode_address a : in_range 160 a -> decode_address (encode_address a) = Ok a;
  decode_encode_b256 h : in_range 256 h -> decode_b256 (encode_b256 h) = Ok h }.
Class CompressLaws (V : Type) `{Compress V} := {
  encodable : V -> Prop;
  never_uncompressable v : uncompressable_ref v = None;
  decompress_compress v : encodable v -> decompress (compress v) = Ok v }.

Definition info_in_range (i : AccountInfo) : Prop :=
  in_range 256 (balance i) /\ in_range 64 (nonce i) /\ in_range 256 (code_hash i).
Class RethAccountLaws (A : Type) `{RethAccount A, CompressLaws A} : Prop := {
  account_encodable i : info_in_range i -> encodable (Account_from i);
  account_hash i : get_bytecode_hash (Account_from i) = code_hash i;
  account_into_hash (x : A) : code_hash (Account_into x) = get_bytecode_hash x;
  account_fields i : balance (Account_into (Account_from i)) = balance i
                     /\ nonce (Account_into (Account_from i)) = nonce i }.

(** ** Keys *)

Section Keys.
Context `{KeyCodecLaws}.

Lemma encode_address_inj a b :
  in_range 160 a -> in_range 160 b -> encode_address a = encode_address b -> a = b.
Proof. intros Ha Hb He. apply (f_equal decode_address) in He. rewrite !decode_encode_address in He by done. congruence. Qed.
Lemma encode_b256_inj a b : in_range 256 a -> in_range 256 b -> encode_b256 a = encode_b256 b -> a = b.
Proof. intros Ha Hb He. apply (f_equal decode_b256) in He. rewrite !decode_encode_b256 in He by done. congruence. Qed.

(** An address and a slot, in range. *)
Definition slot_key (k : Z * Z) : list Z := addr_slot_key (encode_address k.1) (encode_b256 k.2).
Definition slot_in_range (k : Z * Z) : Prop := in_range 160 k.1 /\ in_range 256 k.2.
Lemma slot_key_inj k l : slot_in_range k -> slot_in_range l -> slot_key k = slot_key l -> k = l.
Proof.
  destruct k as [a k], l as [b l]. unfold slot_key, addr_slot_key. cbn. intros [Ha Hk] [Hb Hl] He.
  apply app_inj_1 in He as [He1 He2]; [|by rewrite !length_encode_address].
  injection He2 as He2. f_equal; [by apply encode_address_inj|by apply encode_b256_inj].
Qed.

(** A key of the storage table decodes to what it encodes, and fits no other. *)
Lemma StorageTableKey_roundtrip self :
  in_range 160 (stk_addr self) -> in_range 256 (stk_key self) ->
  StorageTableKey_decompress (StorageTableKey_compress_to_buf self []) = Some (Ok self).
Proof.
  intros Ha Hk. destruct self as [a k]. cbn in *.
  unfold StorageTableKey_decompress, StorageTableKey_compress_to_buf, addr_slot_key. cbn [app stk_addr stk_key].
  rewrite length_app, length_encode_address. cbn [length]. rewrite length_encode_b256. cbn [Nat.leb Nat.add].
  rewrite take_app_length' by (by rewrite length_encode_address). rewrite decode_encode_address by done.
  change (encode_address a ++ ADDR_SLOT_SPERATOR :: encode_b256 k)
    with (encode_address a ++ [ADDR_SLOT_SPERATOR] ++ encode_b256 k).
  rewrite app_assoc, drop_app_length' by (rewrite length_app, length_encode_address; done).
  by rewrite decode_encode_b256.
Qed.
End Keys.

(** ** Writes *)

Lemma apply_ops_app l1 l2 f : apply_ops (l1 ++ l2) f = apply_ops l2 (apply_ops l1 f).
Proof. apply fold_left_app. Qed.

Lemma apply_puts table kvs : forall f t k,
  NoDup kvs.*1 ->
  apply_ops (puts table kvs) f t k
  = if decide (t = table) then
      match (list_to_map kvs : gmap (list Z) (list Z)) !! k with Some v => Some v | None => f t k end
    else f t k.
Proof.
  induction kvs as [|[k' v'] kvs IH]; intros f t k Hnd; [by case_decide|].
  apply NoDup_cons in Hnd as [Hni Hnd]. unfold apply_ops in *. cbn [puts fmap list_fmap fold_left].
  fold (puts table kvs). rewrite IH by done. cbn [apply_op fst snd]. rewrite list_to_map_cons.
  case_decide as Ht; [|by rewrite decide_False by naive_solver]. destruct (decide (k = k')) as [->|Hk].
  - rewrite lookup_insert_eq, not_elem_of_list_to_map_1 by done. by rewrite decide_True.
  - rewrite lookup_insert_ne by done. by rewrite decide_False by naive_solver.
Qed.
Lemma apply_deletes table keys : forall f t k,
  apply_ops (DeleteCf table <$> keys) f t k
  = if decide (t = table /\ k ∈ keys) then None else f t k.
Proof.
  induction keys as [|k' keys IH]; intros f t k.
  { rewrite decide_False; [done|]. intros [_ Hin]. by apply elem_of_nil in Hin. }
  unfold apply_ops in *. cbn [fmap list_fmap fold_left]. rewrite IH. cbn [apply_op].
  destruct (decide (t = table /\ k ∈ keys)) as [[-> Hk]|Hn].
  - rewrite decide_True; [done|]. split; [done|]. by right.
  - destruct (decide (t = table /\ k = k')) as [[-> ->]|Hn'].
    + rewrite decide_True; [done|]. split; [done|]. by left.
    + rewrite decide_False; [done|]. intros [-> Hin]. apply elem_of_cons in Hin as [->|?]; naive_solver.
Qed.

(** A table of encoded keys, read at an encoded key. *)
Section Encoded.
Context {K V : Type} `{Countable K} (P : K -> Prop) (enc : K -> list Z) (g : V -> list Z).
Context (Hinj : forall k l, P k -> P l -> enc k = enc l -> k = l).

Definition encoded (l : list (K * V)) : list (list Z * list Z) := (fun kv => (enc kv.1, g kv.2)) <$> l.
Lemma encoded_fst l : (encoded l).*1 = enc <$> l.*1.
Proof. unfold encoded. by rewrite <- !list_fmap_compose. Qed.
Lemma encoded_elem l k : Forall P l.*1 -> P k -> enc k ∈ (encoded l).*1 -> k ∈ l.*1.
Proof.
  rewrite encoded_fst. intros Hl Hk Hin. apply list_elem_of_fmap in Hin as (k' & He & Hin).
  rewrite Forall_forall in Hl. by rewrite (Hinj k k' Hk (Hl k' Hin) He).
Qed.
Lemma encoded_nodup l : Forall P l.*1 -> NoDup l.*1 -> NoDup (encoded l).*1.
Proof.
  intros Hl Hnd. induction l as [|[k v] l IH]; [constructor|].
  apply Forall_cons in Hl as [Hk Hl]. apply NoDup_cons in Hnd as [Hni Hnd].
  change (encoded ((k, v) :: l)).*1 with (enc k :: (encoded l).*1). apply NoDup_cons. split; [|by apply IH].
  intros Hin. by apply encoded_elem in Hin.
Qed.
Lemma encoded_lookup l k :
  Forall P l.*1 -> P k ->
  (list_to_map (encoded l) : gmap (list Z) (list Z)) !! enc k = g <$> (list_to_map l : gmap K V) !! k.
Proof.
  intros Hl Hk. induction l as [|[k' v] l IH]; [done|].
  apply Forall_cons in Hl as [Hk' Hl]. cbn [encoded fmap list_fmap fst snd] in *. rewrite !list_to_map_cons.
  destruct (decide (k = k')) as [->|Hne]; [by rewrite !lookup_insert_eq|].
  rewrite !lookup_insert_ne by naive_solver. by apply IH.
Qed.
End Encoded.

(** * The store *)

Section StoreLaws.
Context {B W A : Type} `{StorageBackendLaws B W, KeyCodecLaws, BitVec}.
Context `{!RethAccount A, !Compress A, !CompressLaws A, !RethAccountLaws A}.
Context `{!Compress Bytecode, !CompressLaws Bytecode, !Compress Z, !CompressLaws Z}.
(** The code of every hash. *)
Context (code_of : Z -> Bytecode).
Implicit Types (store : B) (ab : AccountBal) (bal : Bal) (c : Changes A).

Abbreviation basic := (RocksDbProvider_basic_ref (B := B) (W := W) (A := A)).
Abbreviation code_ref := (RocksDbProvider_code_by_hash_ref (B := B) (W := W)).
Abbreviation slot := (RocksDbProvider_storage_ref (B := B) (W := W)).

Lemma accounts_table : ACCOUNT_FLATKEYVALUE ∈ TABLES.
Proof. by apply (bool_decide_unpack _). Qed.
Lemma codes_table : ACCOUNT_CODES ∈ TABLES.
Proof. by apply (bool_decide_unpack _). Qed.
Lemma slots_table : STORAGE_FLATKEYVALUE ∈ TABLES.
Proof. by apply (bool_decide_unpack _). Qed.

(** ** Writes of the store *)

(** The backend after a successful write: healthy, with the changes [f]. *)
Definition written (r : option B) (f : string -> list Z -> option (list Z)) : Prop :=
  exists store', r = Some store' /\ healthy store' /\ forall t k, stored store' t k = f t k.

Lemma write_batch_written store table kvs :
  healthy store -> table ∈ TABLES ->
  written (expect_written (write_batch store table kvs)) (apply_ops (puts table kvs) (stored store)).
Proof.
  intros Hh Ht. unfold write_batch. destruct (healthy_begin store Hh) as (w & -> & Hw).
  destruct (healthy_put store w table kvs Hh Ht) as (w' & -> & Hw').
  destruct (healthy_commit store w' Hh) as (store' & -> & Hh' & Hs). exists store'. cbn.
  split; [done|]. split; [done|]. intros t k. by rewrite Hs, Hw', Hw.
Qed.

Lemma delete_keys_pending store table keys : forall w,
  healthy store -> table ∈ TABLES ->
  exists w', delete_keys store table keys w = Ok w' /\ pending w' = pending w ++ (DeleteCf table <$> keys).
Proof.
  induction keys as [|k keys IH]; intros w Hh Ht; cbn; [exists w; by rewrite app_nil_r|].
  destruct (healthy_delete store w table k Hh Ht) as (w1 & -> & Hw1).
  destruct (IH w1 Hh Ht) as (w2 & -> & Hw2). exists w2. split; [done|]. by rewrite Hw2, Hw1, <- app_assoc.
Qed.
Lemma delete_accounts_written store keys :
  healthy store ->
  written (expect_written (delete_accounts store keys))
    (apply_ops (DeleteCf ACCOUNT_FLATKEYVALUE <$> (encode_address <$> elements keys)) (stored store)).
Proof.
  intros Hh. unfold delete_accounts, delete_kvs. destruct (healthy_begin store Hh) as (w & -> & Hw).
  destruct (delete_keys_pending store ACCOUNT_FLATKEYVALUE (encode_address <$> elements keys) w Hh accounts_table)
    as (w' & -> & Hw').
  destruct (healthy_commit store w' Hh) as (store' & -> & Hh' & Hs). exists store'. cbn.
  split; [done|]. split; [done|]. intros t k. by rewrite Hs, Hw', Hw.
Qed.

Lemma compress_written {V} `{CompressLaws V} (v : V) : compress_to_buf_or_ref [] v = compress v.
Proof. unfold compress_to_buf_or_ref. by rewrite never_uncompressable. Qed.

(** What a table of a map or of slots holds after a write. *)
Lemma set_kvs_written {V} `{CompressLaws V} (P : Z -> Prop) (enc : Z -> list Z) store table (items : gmap Z V) :
  (forall k l, P k -> P l -> enc k = enc l -> k = l) -> (forall k v, items !! k = Some v -> P k) ->
  healthy store -> table ∈ TABLES ->
  exists store', expect_written (set_kvs enc store table items) = Some store' /\ healthy store'
    /\ (forall t k, t <> table -> stored store' t k = stored store t k)
    /\ forall k, P k -> stored store' table (enc k)
         = match items !! k with Some v => Some (compress v) | None => stored store table (enc k) end.
Proof.
  intros Hinj HP Hh Ht. unfold set_kvs.
  assert (Hl : Forall P (map_to_list items).*1).
  { apply Forall_forall. intros k Hin. apply list_elem_of_fmap in Hin as ([k' v] & -> & Hin).
    apply elem_of_map_to_list in Hin. by eapply HP. }
  destruct (write_batch_written store table (encoded enc (compress_to_buf_or_ref []) (map_to_list items)) Hh Ht)
    as (store' & Hw & Hh' & Hs).
  assert (Hnd : NoDup (encoded enc (compress_to_buf_or_ref []) (map_to_list items)).*1)
    by (apply (encoded_nodup P enc _ Hinj); [done|apply NoDup_fst_map_to_list]).
  exists store'. split; [exact Hw|]. split; [done|]. split.
  - intros t k Hne. rewrite Hs, apply_puts by done. by rewrite decide_False.
  - intros k Hk. rewrite Hs, apply_puts, decide_True by done.
    rewrite (encoded_lookup P enc _ Hinj _ k Hl Hk), list_to_map_to_list.
    destruct (items !! k); cbn; [by rewrite compress_written|done].
Qed.

Lemma set_storages_written store (items : list (Z * Z * Z)) :
  NoDup items.*1 -> Forall slot_in_range items.*1 -> healthy store ->
  exists store', expect_written (set_storages store items) = Some store' /\ healthy store'
    /\ (forall t k, t <> STORAGE_FLATKEYVALUE -> stored store' t k = stored store t k)
    /\ forall k, slot_in_range k -> stored store' STORAGE_FLATKEYVALUE (slot_key k)
         = match (list_to_map items : gmap (Z * Z) Z) !! k with
           | Some v => Some (compress v)
           | None => stored store STORAGE_FLATKEYVALUE (slot_key k)
           end.
Proof.
  intros Hnd0 Hl Hh. unfold set_storages, set_dup_kvs.
  assert (He : ((fun '(key, slot, val) =>
        (addr_slot_key (encode_address key) (encode_b256 slot), compress_to_buf_or_ref [] val)) <$> items)
      = encoded slot_key (compress_to_buf_or_ref []) items)
    by (apply list_fmap_ext; by intros i [[a k] v]).
  rewrite He.
  destruct (write_batch_written store STORAGE_FLATKEYVALUE _ Hh slots_table
              : written (expect_written (write_batch store STORAGE_FLATKEYVALUE
                  (encoded slot_key (compress_to_buf_or_ref []) items))) _) as (store' & Hw & Hh' & Hs).
  assert (Hnd : NoDup (encoded slot_key (compress_to_buf_or_ref []) items).*1)
    by (by apply (encoded_nodup slot_in_range slot_key _ slot_key_inj)).
  exists store'. split; [exact Hw|]. split; [done|]. split.
  - intros t k Hne. rewrite Hs, apply_puts by done. by rewrite decide_False.
  - intros k Hk. rewrite Hs, apply_puts, decide_True by done.
    rewrite (encoded_lookup slot_in_range slot_key _ slot_key_inj _ k Hl Hk).
    destruct (_ !! k); cbn; [by rewrite compress_written|done].
Qed.

(** ** What a list says of the state after it *)

Definition last_of {T : Type} (w : BalWrites T) : option T := snd <$> last w.
Definition info_after ab (i : AccountInfo) : AccountInfo :=
  let b := ab_account_info ab in
  mkAccountInfo (default (balance i) (last_of (aib_balance b))) (default (nonce i) (last_of (aib_nonce b)))
    (default (code_hash i) (fst <$> last_of (aib_code b))) (storage_id i)
    (match last_of (aib_code b) with Some x => Some x.2 | None => code i end).
(** An account that is empty after the list does not exist. *)
Definition account_after ab (prev : option AccountInfo) : option AccountInfo :=
  let i := info_after ab (default AccountInfo_default prev) in
  if AccountInfo_is_empty i then None else Some i.
Definition slot_after ab (k : Z) : option Z := last_writes (ab_storage ab) !! k.

(** Writes in the order of their indices, which are [u64] below the largest. *)
Definition indexed {T : Type} (P : T -> Prop) (w : BalWrites T) : Prop :=
  ascending w /\ Forall (fun x => 0 <= x.1 < modulus 64 - 1 /\ P x.2) w.
Record account_bal_ok ab : Prop := {
  abo_balance : indexed (in_range 256) (aib_balance (ab_account_info ab));
  abo_nonce : indexed (in_range 64) (aib_nonce (ab_account_info ab));
  abo_code : indexed (fun x => in_range 256 x.1 /\ x.2 = code_of x.1 /\ encodable x.2)
               (aib_code (ab_account_info ab));
  abo_slot k v : slot_after ab k = Some v -> in_range 256 k /\ encodable v }.
Record bal_ok bal : Prop := {
  bo_keys : NoDup (bal_accounts bal).*1;
  bo_account a ab : (a, ab) ∈ bal_accounts bal -> in_range 160 a /\ account_bal_ok ab }.

Lemma filter_every {T : Type} (P : T -> Prop) `{forall x, Decision (P x)} (l : list T) : Forall P l -> filter P l = l.
Proof. induction 1 as [|x l Hx Hl IH]; [done|]. by rewrite filter_cons_True, IH. Qed.
Lemma last_value_before {T : Type} (P : T -> Prop) (w : BalWrites T) j :
  indexed P w -> next_index w <= j -> BalWrites_get w j = last_of w.
Proof.
  intros [Ha Hf] Hj. rewrite BalWrites_get_aux by done. unfold value_before, last_of.
  rewrite (filter_every (fun x : Z * T => x.1 < j) w); [done|].
  apply Forall_forall. intros x Hx. apply list_elem_of_lookup in Hx as [n Hn].
  unfold next_index in Hj. rewrite last_lookup in Hj.
  destruct (lookup_lt_is_Some_2 w (pred (length w))) as [y Hy]; [apply lookup_lt_Some in Hn; lia|].
  rewrite Hy in Hj. pose proof (Forall_lookup_1 _ _ _ _ Hf Hy) as [Hy1 _].
  unfold wrapping_add, wrap in Hj. rewrite Z.mod_small in Hj by (cbn in Hy1; lia).
  destruct (decide (n = pred (length w))) as [->|Hne]; [simplify_eq; lia|].
  pose proof (lookup_lt_Some _ _ _ Hn). pose proof (ascending_lookup w n (pred (length w)) x y Ha Hn Hy). lia.
Qed.
Lemma next_index_zero {T : Type} (P : T -> Prop) (w : BalWrites T) :
  indexed P w -> next_index w <= 0 -> last_of w = None.
Proof.
  intros [_ Hf] Hj. unfold next_index, last_of in *. destruct (last w) as [y|] eqn:E; [|done].
  apply last_Some_elem_of in E. rewrite Forall_forall in Hf. destruct (Hf y E) as [Hy _].
  unfold wrapping_add, wrap in Hj. rewrite Z.mod_small in Hj by (cbn in Hy; lia). lia.
Qed.

(** Reading at the index after the last one gives the last values. *)
Lemma populate_after ab prev :
  account_bal_ok ab ->
  (if 0 <? max_bal_index (ab_account_info ab)
   then (AccountBal_populate_account_info ab (max_bal_index (ab_account_info ab)) prev).2 else prev)
  = info_after ab prev.
Proof.
  intros [Hb Hn Hc _]. unfold info_after. set (ib := ab_account_info ab) in *.
  assert (Hle : next_index (aib_balance ib) <= max_bal_index ib /\ next_index (aib_nonce ib) <= max_bal_index ib
    /\ next_index (aib_code ib) <= max_bal_index ib) by (unfold max_bal_index; lia).
  destruct Hle as (Hlb & Hln & Hlc). destruct (Z.ltb_spec 0 (max_bal_index ib)).
  - unfold AccountBal_populate_account_info, AccountInfoBal_populate_account_info. fold ib.
    rewrite (last_value_before _ _ _ Hb Hlb), (last_value_before _ _ _ Hn Hln), (last_value_before _ _ _ Hc Hlc).
    destruct (last_of (aib_balance ib)), (last_of (aib_nonce ib)), (last_of (aib_code ib)) as [[]|], prev; done.
  - rewrite (next_index_zero _ _ Hb), (next_index_zero _ _ Hn), (next_index_zero _ _ Hc) by lia. by destruct prev.
Qed.

Lemma last_of_ok {T : Type} (P : T -> Prop) (w : BalWrites T) x : indexed P w -> last_of w = Some x -> P x.
Proof.
  intros [_ Hf]. unfold last_of. destruct (last w) as [y|] eqn:E; [|done]. intros [= <-].
  apply last_Some_elem_of in E. rewrite Forall_forall in Hf. by apply (Hf y E).
Qed.
Lemma info_after_range ab i : account_bal_ok ab -> info_in_range i -> info_in_range (info_after ab i).
Proof.
  intros [Hb Hn Hc _] (Hib & Hin & Hih). unfold info_in_range, info_after. cbn. split; [|split].
  - destruct (last_of (aib_balance _)) as [x|] eqn:E; cbn; [exact (last_of_ok _ _ x Hb E)|done].
  - destruct (last_of (aib_nonce _)) as [x|] eqn:E; cbn; [exact (last_of_ok _ _ x Hn E)|done].
  - destruct (last_of (aib_code _)) as [x|] eqn:E; cbn; [|done]. apply (last_of_ok _ _ x Hc E).
Qed.

(** ** Stores *)

(** A store that answers every read: its accounts are in range, the code of an
    account is there, and a code is that of its hash. *)
Record store_ok store : Prop := {
  so_healthy : healthy store;
  so_basic a : in_range 160 a -> exists r, basic store a = Ok r /\ forall i, r = Some i -> info_in_range i;
  so_code h x : in_range 256 h -> code_ref store h = Ok x -> x = code_of h;
  so_slot a k : in_range 160 a -> in_range 256 k -> exists v, slot store a k = Ok v }.

(** The state of an account as the store has it. *)
Definition prev_of store (a : Z) : option AccountInfo :=
  match basic store a with Ok r => r | Err _ => None end.
Lemma basic_prev store a : store_ok store -> in_range 160 a -> basic store a = Ok (prev_of store a).
Proof. intros Hs Ha. unfold prev_of. by destruct (so_basic _ Hs a Ha) as (r & -> & _). Qed.
Lemma prev_range store a :
  store_ok store -> in_range 160 a -> info_in_range (default AccountInfo_default (prev_of store a)).
Proof.
  intros Hs Ha. unfold prev_of. destruct (so_basic _ Hs a Ha) as (r & -> & Hr).
  destruct r as [i|]; cbn; [by apply Hr|]. unfold info_in_range, in_range. cbn. unfold KECCAK_EMPTY, modulus. lia.
Qed.

(** ** Gathering the changes *)

(** The changes gathered from the accounts [m] of a list. *)
Record gathered store (m : gmap Z AccountBal) c : Prop := {
  ga_accounts a : cg_accounts c !! a = (ab ← m !! a; Account_from <$> account_after ab (prev_of store a));
  ga_delete a : a ∈ cg_to_delete c <-> exists ab, m !! a = Some ab /\ account_after ab (prev_of store a) = None;
  ga_codes h x : cg_codes c !! h = Some x -> in_range 256 h /\ x = code_of h /\ encodable x;
  ga_code a ab x : m !! a = Some ab -> last_of (aib_code (ab_account_info ab)) = Some x ->
    is_Some (cg_codes c !! x.1);
  ga_slots a k : (list_to_map (cg_storages c) : gmap (Z * Z) Z) !! (a, k) = (ab ← m !! a; slot_after ab k);
  ga_nodup : NoDup (cg_storages c).*1;
  ga_keys a k : (a, k) ∈ (cg_storages c).*1 -> is_Some (m !! a) /\ slot_in_range (a, k);
  ga_latest a : pb_accounts (cg_latest c) !! a
    = (fun ab => mkMyPlainAccount (account_after ab (prev_of store a)) (last_writes (ab_storage ab))) <$> m !! a }.

Lemma gathered_new store : gathered store ∅ Changes_new.
Proof.
  split; cbn; try done.
  - intros a. rewrite lookup_empty. split; [set_solver|]. by intros (ab & ? & _).
  - constructor.
  - intros a k Hin. by apply elem_of_nil in Hin.
Qed.

Definition slot_entries (a : Z) ab : list (Z * Z * Z) :=
  (fun kv => (a, kv.1, kv.2)) <$> map_to_list (last_writes (ab_storage ab)).
Lemma slot_entries_elem a ab b k v : (b, k, v) ∈ slot_entries a ab <-> b = a /\ slot_after ab k = Some v.
Proof.
  unfold slot_entries, slot_after. rewrite list_elem_of_fmap. split.
  - intros ([k' v'] & [= -> -> ->] & Hin). split; [done|]. by apply elem_of_map_to_list in Hin.
  - intros [-> Hk]. exists (k, v). split; [done|]. by apply elem_of_map_to_list.
Qed.
Lemma slot_entries_fst a ab b k : (b, k) ∈ (slot_entries a ab).*1 -> b = a /\ is_Some (slot_after ab k).
Proof.
  intros Hin. apply list_elem_of_fmap in Hin as ([[b' k'] v] & [= -> ->] & Hin).
  apply slot_entries_elem in Hin as [-> Hk]. by eauto.
Qed.
Lemma slot_entries_nodup a ab : NoDup (slot_entries a ab).*1.
Proof.
  unfold slot_entries. rewrite <- list_fmap_compose.
  replace (fst ∘ (fun kv : Z * Z => (a, kv.1, kv.2))) with (pair a ∘ (fst : Z * Z -> Z)) by done.
  rewrite list_fmap_compose. apply NoDup_fmap_2; [by intros x y [= ->]|]. apply NoDup_fst_map_to_list.
Qed.

(** The slots after the entries of a new account are appended. *)
Lemma append_slots (l : list (Z * Z * Z)) a ab b k :
  NoDup l.*1 -> (forall k, (a, k) ∉ l.*1) ->
  (list_to_map (l ++ slot_entries a ab) : gmap (Z * Z) Z) !! (b, k)
  = if decide (b = a) then slot_after ab k else (list_to_map l : gmap (Z * Z) Z) !! (b, k).
Proof.
  intros Hnd Hni. rewrite list_to_map_app, lookup_union.
  case_decide as Hb; [subst b|].
  - rewrite (not_elem_of_list_to_map_1 l) by done. rewrite left_id_L by apply _.
    destruct (slot_after ab k) as [v|] eqn:E.
    + apply elem_of_list_to_map_1; [apply slot_entries_nodup|]. by apply slot_entries_elem.
    + apply not_elem_of_list_to_map_1. intros Hin. apply slot_entries_fst in Hin as [_ [v Hv]]. congruence.
  - rewrite (not_elem_of_list_to_map_1 (slot_entries a ab)); [by rewrite right_id_L by apply _|].
    intros Hin. by apply slot_entries_fst in Hin as [? _].
Qed.

Lemma commit_bal_account_changes store c a ab :
  store_ok store -> account_bal_ok ab -> in_range 160 a ->
  let o := account_after ab (prev_of store a) in
  commit_bal_account store c (a, ab)
  = Some (mkChanges
      (match o with Some i => <[a := Account_from i]> (cg_accounts c) | None => cg_accounts c end)
      (match last_of (aib_code (ab_account_info ab)) with
       | Some x => <[x.1 := x.2]> (cg_codes c)
       | None => cg_codes c
       end)
      (cg_storages c ++ slot_entries a ab)
      (match o with Some _ => cg_to_delete c | None => {[a]} ∪ cg_to_delete c end)
      (mkPreBlockState (<[a := mkMyPlainAccount o (last_writes (ab_storage ab))]> (pb_accounts (cg_latest c))))).
Proof.
  intros Hs Hab Ha o. subst o. unfold commit_bal_account. rewrite (basic_prev store a Hs Ha). cbn [unwrap_ok].
  rewrite (populate_after ab _ Hab). unfold account_after, last_of, slot_entries.
  destruct (last (aib_code (ab_account_info ab))) as [[? []]|];
    by destruct (AccountInfo_is_empty (info_after ab (default AccountInfo_default (prev_of store a)))).
Qed.

Lemma commit_bal_account_gathered store m c a ab :
  store_ok store -> account_bal_ok ab -> in_range 160 a -> m !! a = None -> gathered store m c ->
  exists c', commit_bal_account store c (a, ab) = Some c' /\ gathered store (<[a := ab]> m) c'.
Proof.
  intros Hs Hab Ha Hm [Gacc Gdel Gcodes Gcode Gslots Gnd Gkeys Glat].
  rewrite (commit_bal_account_changes store c a ab Hs Hab Ha). eexists. split; [done|].
  assert (Hni : forall k, (a, k) ∉ (cg_storages c).*1).
  { intros k Hin. apply Gkeys in Hin as [[? Hc] _]. congruence. }
  split; cbn [cg_accounts cg_codes cg_storages cg_to_delete cg_latest pb_accounts].
  - intros b. destruct (decide (b = a)) as [->|Hb].
    + rewrite lookup_insert_eq. cbn. destruct (account_after ab (prev_of store a)); [by rewrite lookup_insert_eq|].
      by rewrite Gacc, Hm.
    + rewrite lookup_insert_ne, <- Gacc by done. destruct (account_after ab (prev_of store a)); [|done].
      by rewrite lookup_insert_ne.
  - intros b. destruct (decide (b = a)) as [->|Hb].
    + rewrite lookup_insert_eq. destruct (account_after ab (prev_of store a)) as [i|] eqn:Eo.
      * rewrite Gdel, Hm. split; [by intros (? & ? & _)|]. intros (? & [= <-] & ?). congruence.
      * split; [by eauto|set_solver].
    + rewrite lookup_insert_ne, <- Gdel by done. destruct (account_after ab (prev_of store a)); set_solver.
  - intros h x. destruct (last_of (aib_code (ab_account_info ab))) as [y|] eqn:El; [|apply Gcodes].
    destruct (decide (h = y.1)) as [->|]; [|rewrite lookup_insert_ne by done; apply Gcodes].
    rewrite lookup_insert_eq. intros [= <-]. by apply (last_of_ok _ _ y (abo_code _ Hab)).
  - intros b ab' x Hb Hx. destruct (decide (b = a)) as [->|Hne].
    + rewrite lookup_insert_eq in Hb. simplify_eq. rewrite Hx, lookup_insert_eq. by eauto.
    + rewrite lookup_insert_ne in Hb by done. specialize (Gcode b ab' x Hb Hx).
      destruct (last_of (aib_code (ab_account_info ab))) as [y|]; [|done].
      destruct (decide (x.1 = y.1)) as [->|]; [rewrite lookup_insert_eq; by eauto|by rewrite lookup_insert_ne].
  - intros b k. rewrite append_slots by done. case_decide as Hb; [subst b; by rewrite lookup_insert_eq|].
    by rewrite lookup_insert_ne.
  - rewrite fmap_app. apply NoDup_app. split; [done|]. split; [|apply slot_entries_nodup].
    intros [b k] Hin Hin'. apply slot_entries_fst in Hin' as [-> _]. by apply (Hni k).
  - intros b k. rewrite fmap_app, elem_of_app. intros [Hin|Hin].
    + destruct (Gkeys b k Hin) as [? ?]. split; [|done]. destruct (decide (b = a)) as [->|];
        [rewrite lookup_insert_eq; by eauto|by rewrite lookup_insert_ne].
    + apply slot_entries_fst in Hin as [-> [v Hv]]. rewrite lookup_insert_eq. split; [by eauto|].
      split; [done|]. by apply (abo_slot _ Hab k v).
  - intros b. destruct (decide (b = a)) as [->|]; [by rewrite !lookup_insert_eq|by rewrite !lookup_insert_ne].
Qed.

Lemma commit_bal_accounts_gathered store l : forall m c,
  store_ok store -> NoDup l.*1 -> (forall a ab, (a, ab) ∈ l -> in_range 160 a /\ account_bal_ok ab) ->
  (forall a, a ∈ l.*1 -> m !! a = None) -> gathered store m c ->
  exists c', commit_bal_accounts store c l = Some c' /\ gathered store (list_to_map l ∪ m) c'.
Proof.
  induction l as [|[a ab] l IH]; intros m c Hs Hnd Hl Hm Hg.
  { exists c. split; [done|]. rewrite list_to_map_nil. by rewrite (left_id_L ∅ (∪) m). }
  apply NoDup_cons in Hnd as [Hni Hnd]. destruct (Hl a ab) as [Ha Hab]; [by left|].
  destruct (commit_bal_account_gathered store m c a ab Hs Hab Ha) as (c1 & Hc1 & Hg1); [apply Hm; by left|done|].
  destruct (IH (<[a := ab]> m) c1) as (c2 & Hc2 & Hg2); [done|done| | |done|].
  - intros b ab' Hin. apply Hl. by right.
  - intros b Hin. rewrite lookup_insert_ne by (intros ->; contradiction). apply Hm. by right.
  - exists c2. cbn [commit_bal_accounts]. rewrite Hc1. split; [done|].
    rewrite list_to_map_cons. rewrite <- insert_union_l.
    rewrite <- insert_union_r in Hg2; [done|]. by apply not_elem_of_list_to_map_1.
Qed.

(** ** Writing the changes *)

Definition write_changes store c : option B :=
  let? s1 := expect_written (delete_accounts store (cg_to_delete c)) in
  let? s2 := expect_written (set_accounts s1 (cg_accounts c)) in
  let? s3 := expect_written (set_codes s2 (cg_codes c)) in
  expect_written (set_storages s3 (cg_storages c)).

(** The three tables after the changes of [m]. *)
Record tables_after store (m : gmap Z AccountBal) c store' : Prop := {
  ta_healthy : healthy store';
  ta_accounts a : in_range 160 a ->
    stored store' ACCOUNT_FLATKEYVALUE (encode_address a)
    = match m !! a with
      | Some ab => (fun i => compress (Account_from i)) <$> account_after ab (prev_of store a)
      | None => stored store ACCOUNT_FLATKEYVALUE (encode_address a)
      end;
  ta_codes h : in_range 256 h ->
    stored store' ACCOUNT_CODES (encode_b256 h)
    = match cg_codes c !! h with
      | Some x => Some (compress x)
      | None => stored store ACCOUNT_CODES (encode_b256 h)
      end;
  ta_slots a k : slot_in_range (a, k) ->
    stored store' STORAGE_FLATKEYVALUE (slot_key (a, k))
    = match (ab ← m !! a; slot_after ab k) with
      | Some v => Some (compress v)
      | None => stored store STORAGE_FLATKEYVALUE (slot_key (a, k))
      end }.

Lemma deleted_account (keys : gset Z) a :
  (forall b, b ∈ keys -> in_range 160 b) -> in_range 160 a ->
  encode_address a ∈ encode_address <$> elements keys <-> a ∈ keys.
Proof.
  intros Hk Ha. split.
  - intros Hin. apply list_elem_of_fmap in Hin as (b & He & Hin). apply elem_of_elements in Hin.
    by rewrite (encode_address_inj a b Ha (Hk b Hin) He).
  - intros Hin. apply list_elem_of_fmap. exists a. split; [done|]. by apply elem_of_elements.
Qed.

Lemma write_changes_tables store m c :
  healthy store -> gathered store m c -> (forall a ab, m !! a = Some ab -> in_range 160 a) ->
  exists store', write_changes store c = Some store' /\ tables_after store m c store'.
Proof.
  intros Hh [Gacc Gdel Gcodes _ Gslots Gnd Gkeys _] Hm. unfold write_changes.
  destruct (delete_accounts_written store (cg_to_delete c) Hh) as (s1 & -> & Hh1 & Hs1).
  destruct (set_kvs_written (in_range 160) encode_address s1 ACCOUNT_FLATKEYVALUE (cg_accounts c))
    as (s2 & E2 & Hh2 & Ho2 & Hs2); [apply encode_address_inj| |done|apply accounts_table|].
  { intros a v. rewrite Gacc. destruct (m !! a) as [ab|] eqn:E; [|done]. intros _. by apply (Hm a ab). }
  unfold set_accounts. rewrite E2.
  destruct (set_kvs_written (in_range 256) encode_b256 s2 ACCOUNT_CODES (cg_codes c))
    as (s3 & E3 & Hh3 & Ho3 & Hs3); [apply encode_b256_inj| |done|apply codes_table|].
  { intros h x Hx. by apply Gcodes in Hx as [? _]. }
  unfold set_codes. rewrite E3.
  destruct (set_storages_written s3 (cg_storages c)) as (s4 & E4 & Hh4 & Ho4 & Hs4); [done| |done|].
  { apply Forall_forall. intros [a k] Hin. by apply Gkeys in Hin as [_ ?]. }
  exists s4. split; [done|].
  assert (Ho1 : forall t k, t <> ACCOUNT_FLATKEYVALUE -> stored s1 t k = stored store t k).
  { intros t k Ht. rewrite Hs1, apply_deletes. by rewrite decide_False by naive_solver. }
  split; [done|..].
  - intros a Ha. rewrite Ho4, Ho3, Hs2, Gacc by done. destruct (m !! a) as [ab|] eqn:Em; cbn.
    + destruct (account_after ab (prev_of store a)) as [i|] eqn:Eo; cbn; [done|].
      rewrite Hs1, apply_deletes, decide_True; [done|]. split; [done|].
      apply deleted_account; [|done|apply Gdel; by eauto].
      intros b Hb. apply Gdel in Hb as (ab' & Hb & _). by eapply Hm.
    + rewrite Hs1, apply_deletes, decide_False; [done|]. intros [_ Hin].
      apply deleted_account in Hin; [|intros b Hb; apply Gdel in Hb as (ab' & Hb & _); by eapply Hm|done].
      apply Gdel in Hin as (ab' & Hb & _). congruence.
  - intros h Hr. rewrite Ho4, Hs3 by done. by rewrite Ho2, Ho1.
  - intros a k Hr. rewrite Hs4, Gslots by done. by rewrite Ho3, Ho2, Ho1.
Qed.

(** ** Reading the tables *)

Definition decoded {V} `{Compress V} (v : list Z) : result V ReadError :=
  rocks_err (map_err RocksDecodeError (decompress v)).
Lemma code_ref_stored store h :
  healthy store ->
  code_ref store h = match stored store ACCOUNT_CODES (encode_b256 h) with
                     | Some v => decoded v
                     | None => Err (Failed (CodeNotFound h))
                     end.
Proof. intros Hh. unfold RocksDbProvider_code_by_hash_ref. by rewrite healthy_get by (done || apply codes_table). Qed.
Lemma slot_stored store a k :
  healthy store ->
  slot store a k = match stored store STORAGE_FLATKEYVALUE (slot_key (a, k)) with
                   | Some v => decoded v
                   | None => Ok 0
                   end.
Proof. intros Hh. unfold RocksDbProvider_storage_ref. by rewrite healthy_get by (done || apply slots_table). Qed.

(** An account with the code of its hash. *)
Definition read_code store (x : A) : result (option AccountInfo) ReadError :=
  if get_bytecode_hash x =? KECCAK_EMPTY then Ok (Some (assign_code None (Account_into x)))
  else match code_ref store (get_bytecode_hash x) with
       | Ok code => Ok (Some (assign_code (Some code) (Account_into x)))
       | Err _ => Err Panicked
       end.
Lemma basic_stored store a :
  healthy store ->
  basic store a = match stored store ACCOUNT_FLATKEYVALUE (encode_address a) with
                  | Some v => try! x := (decoded v : result A ReadError) in read_code store x
                  | None => Ok None
                  end.
Proof. intros Hh. unfold RocksDbProvider_basic_ref. by rewrite healthy_get by (done || apply accounts_table). Qed.

Lemma decoded_compress {V} `{CompressLaws V} (v : V) : encodable v -> decoded (compress v) = Ok v.
Proof. intros Hv. unfold decoded. by rewrite decompress_compress. Qed.

(** An account that was read has its code in the store. *)
Lemma basic_code store a i :
  store_ok store -> in_range 160 a -> basic store a = Ok (Some i) -> code_hash i <> KECCAK_EMPTY ->
  code_ref store (code_hash i) = Ok (code_of (code_hash i)) /\ code i = Some (code_of (code_hash i)).
Proof.
  intros Hs Ha Hb Hne. destruct (so_basic _ Hs a Ha) as (r & Hr & Hi). rewrite Hb in Hr. injection Hr as <-.
  specialize (Hi i eq_refl) as (_ & _ & Hh). rewrite basic_stored in Hb by apply Hs.
  destruct (stored store ACCOUNT_FLATKEYVALUE (encode_address a)) as [v|]; [|done].
  destruct (decoded v) as [x|]; [|done]. unfold read_code in Hb.
  destruct (Z.eqb_spec (get_bytecode_hash x) KECCAK_EMPTY) as [He|He].
  - injection Hb as <-. cbn in Hne. by rewrite account_into_hash in Hne.
  - destruct (code_ref store (get_bytecode_hash x)) as [y|] eqn:Ec; [|done]. injection Hb as <-.
    cbn in *. rewrite account_into_hash in *. apply (so_code _ Hs) in Ec as Ey; [|done]. subst y. done.
Qed.

(** ** The reads after the changes *)

Section After.
Context store m c store' (Hs : store_ok store) (Hg : gathered store m c) (Ht : tables_after store m c store').
Context (Hm : forall a ab, m !! a = Some ab -> in_range 160 a /\ account_bal_ok ab).

Lemma code_after h :
  in_range 256 h ->
  code_ref store' h = match cg_codes c !! h with Some _ => Ok (code_of h) | None => code_ref store h end.
Proof.
  intros Hh. rewrite code_ref_stored, (ta_codes _ _ _ _ Ht h Hh) by apply Ht.
  destruct (cg_codes c !! h) as [x|] eqn:E; [|by rewrite code_ref_stored by apply Hs].
  destruct (ga_codes _ _ _ Hg h x E) as (_ & -> & He). by rewrite decoded_compress.
Qed.
Lemma code_kept h :
  in_range 256 h -> code_ref store h = Ok (code_of h) -> code_ref store' h = Ok (code_of h).
Proof. intros Hh Hc. rewrite code_after by done. by destruct (cg_codes c !! h). Qed.

(** The code of an account of the list is there, and is the one the list says. *)
Lemma info_after_code a ab :
  m !! a = Some ab ->
  let i := info_after ab (default AccountInfo_default (prev_of store a)) in
  code_hash i <> KECCAK_EMPTY ->
  code_ref store' (code_hash i) = Ok (code_of (code_hash i)) /\ code i = Some (code_of (code_hash i)).
Proof.
  intros Ha i Hne. destruct (Hm a ab Ha) as [Hr Hab]. unfold i, info_after in *. cbn in *.
  destruct (last_of (aib_code (ab_account_info ab))) as [x|] eqn:El; cbn in *.
  - destruct (last_of_ok _ _ x (abo_code _ Hab) El) as (Hx & Ex & _). rewrite <- Ex. split; [|done].
    rewrite code_after, Ex by done. by destruct (ga_code _ _ _ Hg a ab x Ha El) as [y ->].
  - pose proof (basic_prev store a Hs Hr) as Hb. pose proof (prev_range store a Hs Hr) as (_ & _ & Hh).
    destruct (prev_of store a) as [p|]; cbn in *; [|done].
    destruct (basic_code store a p Hs Hr Hb Hne) as [Hc ->]. split; [|done]. by apply code_kept.
Qed.

Lemma basic_kept a : in_range 160 a -> m !! a = None -> basic store' a = basic store a.
Proof.
  intros Hr Hn. pose proof (basic_prev store a Hs Hr) as Hb. pose proof (basic_code store a) as Hcode.
  rewrite !basic_stored in * by (apply Hs || apply Ht). rewrite (ta_accounts _ _ _ _ Ht a Hr), Hn.
  destruct (so_basic _ Hs a Hr) as (r & Hr' & Hi). rewrite basic_stored in Hr' by apply Hs.
  destruct (stored store ACCOUNT_FLATKEYVALUE (encode_address a)) as [v|]; [|done].
  destruct (decoded v) as [x|]; [|done]. unfold read_code in *.
  destruct (Z.eqb_spec (get_bytecode_hash x) KECCAK_EMPTY) as [He|He]; [done|].
  destruct (code_ref store (get_bytecode_hash x)) as [y|] eqn:Ec; [|done]. injection Hr' as <-.
  destruct (Hi _ eq_refl) as (_ & _ & Hh). cbn in Hh. rewrite account_into_hash in Hh.
  apply (so_code _ Hs) in Ec as ->; [|done]. rewrite code_after by done.
  destruct (cg_codes c !! get_bytecode_hash x); [done|].
  specialize (Hcode _ Hs Hr eq_refl). cbn in Hcode. rewrite account_into_hash in Hcode.
  destruct (Hcode He) as [-> _]. done.
Qed.

(** An account of the list reads as the list says. *)
Lemma basic_changed a ab :
  m !! a = Some ab ->
  basic store' a = Ok ((fun i =>
    assign_code (if code_hash i =? KECCAK_EMPTY then None else Some (code_of (code_hash i)))
      (Account_into (Account_from i : A))) <$> account_after ab (prev_of store a)).
Proof.
  intros Ha. destruct (Hm a ab Ha) as [Hr Hab]. rewrite basic_stored by apply Ht.
  rewrite (ta_accounts _ _ _ _ Ht a Hr), Ha. pose proof (info_after_code a ab Ha) as Hc.
  unfold account_after. destruct (AccountInfo_is_empty _); cbn [fmap option_fmap option_map]; [done|].
  rewrite decoded_compress.
  2: { apply account_encodable, info_after_range; [done|]. by apply prev_range. }
  unfold read_code. rewrite account_hash. cbn zeta in Hc.
  destruct (Z.eqb_spec (code_hash (info_after ab (default AccountInfo_default (prev_of store a)))) KECCAK_EMPTY); [done|].
  destruct Hc as [-> _]; done.
Qed.

Lemma slot_changed a k :
  slot_in_range (a, k) ->
  slot store' a k = match (ab ← m !! a; slot_after ab k) with Some v => Ok v | None => slot store a k end.
Proof.
  intros Hr. rewrite slot_stored, (ta_slots _ _ _ _ Ht a k Hr) by apply Ht.
  destruct (m !! a) as [ab|] eqn:Em; cbn; [|by rewrite slot_stored by apply Hs].
  destruct (slot_after ab k) as [v|] eqn:Ev; [|by rewrite slot_stored by apply Hs].
  rewrite decoded_compress; [done|]. destruct (Hm a ab Em) as [_ Hab]. by apply (abo_slot _ Hab k v).
Qed.

Lemma after_info_range a ab i :
  m !! a = Some ab -> account_after ab (prev_of store a) = Some i ->
  info_in_range (assign_code (if code_hash i =? KECCAK_EMPTY then None else Some (code_of (code_hash i)))
                   (Account_into (Account_from i : A))).
Proof.
  intros Ha Hi. destruct (Hm a ab Ha) as [Hr Hab].
  assert (Hir : info_in_range i).
  { unfold account_after in Hi. destruct (AccountInfo_is_empty _); [done|]. injection Hi as <-.
    apply info_after_range; [done|]. by apply prev_range. }
  destruct (account_fields (A := A) i) as [Hb Hn]. unfold info_in_range. cbn.
  by rewrite Hb, Hn, account_into_hash, account_hash.
Qed.

Lemma store_ok_after : store_ok store'.
Proof.
  split; [apply Ht|..].
  - intros a Hr. destruct (m !! a) as [ab|] eqn:Em.
    + eexists. split; [by apply basic_changed|]. intros j.
      destruct (account_after ab (prev_of store a)) as [i|] eqn:Eo; [|done]. intros [= <-].
      by apply (after_info_range a ab i).
    + destruct (so_basic _ Hs a Hr) as (r & Hb & Hi). exists r. split; [|done]. by rewrite basic_kept.
  - intros h x Hh. rewrite code_after by done. destruct (cg_codes c !! h); [by intros [= <-]|by apply Hs].
  - intros a k Ha Hk. rewrite slot_changed by done. destruct (_ ≫= _); [by eauto|by apply Hs].
Qed.
End After.

(** ** Commits *)

(** The same account: its code is compared when it has one. *)
Definition same_info (i j : option AccountInfo) : Prop :=
  match i, j with
  | Some i, Some j =>
      balance i = balance j /\ nonce i = nonce j /\ code_hash i = code_hash j
      /\ (code_hash i <> KECCAK_EMPTY -> code i = code j)
  | None, None => True
  | _, _ => False
  end.
Lemma same_info_refl i : same_info i i.
Proof. by destruct i. Qed.

(** What the states in memory say is what the store reads. *)
Definition memory_agrees (mem : list PreBlockState) store : Prop :=
  (forall a i, in_range 160 a -> memory_basic mem a = Some i ->
     exists r, basic store a = Ok r /\ same_info r i)
  /\ forall a k v, slot_in_range (a, k) -> memory_storage mem a k = Some v -> slot store a k = Ok v.

(** The states that are kept answer as all of them did. *)
Lemma memory_take n mem store : memory_agrees mem store -> memory_agrees (take n mem) store.
Proof.
  assert (Hb : forall a i, memory_basic (take n mem) a = Some i -> memory_basic mem a = Some i).
  { intros a i. revert n. induction mem as [|s mem IH]; intros [|n]; cbn; try done.
    destruct (pb_accounts s !! a); [done|apply IH]. }
  assert (Hk : forall a k v, memory_storage (take n mem) a k = Some v -> memory_storage mem a k = Some v).
  { clear Hb. intros a k v. revert n. induction mem as [|s mem IH]; intros [|n]; cbn -[mbind]; try done.
    destruct (pb_accounts s !! a ≫= _); [done|apply IH]. }
  intros [Hi Hv]. split; eauto.
Qed.

Definition bal_account bal (a : Z) : option AccountBal :=
  (list_to_map (bal_accounts bal) : gmap Z AccountBal) !! a.

Section Committed.
Context store bal c store' (Hs : store_ok store) (Hb : bal_ok bal).
Context (Hg : gathered store (list_to_map (bal_accounts bal)) c).
Context (Ht : tables_after store (list_to_map (bal_accounts bal)) c store').

Lemma bal_account_ok a ab : bal_account bal a = Some ab -> in_range 160 a /\ account_bal_ok ab.
Proof. intros Ha. apply (bo_account _ Hb). by apply elem_of_list_to_map_2. Qed.

Lemma changed_same_info a ab :
  bal_account bal a = Some ab ->
  exists r, basic store' a = Ok r /\ same_info r (account_after ab (prev_of store a)).
Proof.
  intros Ha. eexists. split; [by apply (basic_changed store _ c store' Hs Hg Ht bal_account_ok a ab)|].
  pose proof (info_after_code store _ c store' Hs Hg Ht bal_account_ok a ab Ha) as Hc. cbn zeta in Hc.
  unfold account_after. destruct (AccountInfo_is_empty _);
    cbn [fmap option_fmap option_map same_info assign_code balance nonce code_hash code]; [done|].
  destruct (account_fields (A := A) (info_after ab (default AccountInfo_default (prev_of store a)))) as [Hbal Hnon].
  rewrite Hbal, Hnon, account_into_hash, account_hash.
  split; [done|]. split; [done|]. split; [done|]. intros Hne. destruct (Hc Hne) as [_ ->].
  by rewrite (proj2 (Z.eqb_neq _ _) Hne).
Qed.

Lemma memory_committed mem :
  memory_agrees mem store -> memory_agrees (push_in_mem mem (cg_latest c)) store'.
Proof.
  intros Hmem. unfold push_in_mem. set (mem' := if (2 <=? length mem)%nat then take (length mem - 1) mem else mem).
  assert (Hm' : memory_agrees mem' store) by (unfold mem'; destruct (2 <=? length mem)%nat; [by apply memory_take|done]).
  destruct Hm' as [Hi Hv]. split.
  - intros a i Hr. cbn. rewrite (ga_latest _ _ _ Hg a).
    destruct (list_to_map (bal_accounts bal) !! a) as [ab|] eqn:Ea; cbn.
    + intros [= <-]. by apply changed_same_info.
    + intros Ha. rewrite (basic_kept store _ c store' Hs Hg Ht a Hr Ea). by apply Hi.
  - intros a k v Hr. cbn -[mbind]. rewrite (ga_latest _ _ _ Hg a).
    rewrite (slot_changed store _ c store' Hs Ht bal_account_ok a k Hr).
    destruct (list_to_map (bal_accounts bal) !! a) as [ab|] eqn:Ea; cbn; [|by apply Hv].
    fold (slot_after ab k). destruct (slot_after ab k) as [w|]; [by intros [= <-]|by apply Hv].
Qed.
End Committed.

(** C8: Committing a block access list makes the store read as the list says: on
    a store whose backend is healthy the commit returns, the account of every
    address is the one before with the last balance, nonce and code of the list
    (and does not exist when that is empty), every slot has the last value of the
    list or keeps its own, the code of every account can be read, so the next
    commit finds such a store again, and the states kept in memory, with the
    latest in front, still say what the store reads.  The list has each account once,
    ascending indices, and addresses, keys and values in their ranges with the code of
    its hash ([bal_ok]); the store answers every read, with accounts in range and
    each code that of its hash ([store_ok]). *)
Theorem commit_bal_changes_correct store bal mem :
  store_ok store -> bal_ok bal -> memory_agrees mem store ->
  exists latest store', Store_commit_bal_changes (A := A) store bal = Some (latest, store')
    /\ store_ok store'
    /\ (forall a, in_range 160 a -> exists prev now,
          basic store a = Ok prev /\ basic store' a = Ok now
          /\ same_info now (match bal_account bal a with
                            | Some ab => account_after ab prev
                            | None => prev
                            end))
    /\ (forall a k, in_range 160 a -> in_range 256 k ->
          slot store' a k = match (ab ← bal_account bal a; slot_after ab k) with
                            | Some v => Ok v
                            | None => slot store a k
                            end)
    /\ memory_agrees (push_in_mem mem latest) store'.
Proof.
  intros Hs Hb Hmem. unfold Store_commit_bal_changes. rewrite (healthy_read store) by apply Hs. cbn [unwrap_ok].
  destruct (commit_bal_accounts_gathered store (bal_accounts bal) ∅ Changes_new) as (c & Hc & Hg);
    [done|apply Hb|apply Hb|intros; apply lookup_empty|apply gathered_new|].
  rewrite Hc. rewrite (right_id_L ∅ (∪)) in Hg.
  destruct (write_changes_tables store _ c (so_healthy _ Hs) Hg) as (store' & Hw & Ht).
  { intros a ab Ha. by apply (bal_account_ok bal Hb a ab). }
  exists (cg_latest c), store'. unfold write_changes in Hw. split.
  { repeat match type of Hw with context [expect_written ?e] => destruct (expect_written e); [|done] end. by injection Hw as ->. }
  pose proof (bal_account_ok bal Hb) as Hm. split; [exact (store_ok_after store _ c store' Hs Hg Ht Hm)|]. split; [|split].
  - intros a Ha. exists (prev_of store a). destruct (bal_account bal a) as [ab|] eqn:Ea.
    + destruct (changed_same_info store bal c store' Hs Hb Hg Ht a ab Ea) as (r & Hr & Hsame).
      exists r. split; [by apply basic_prev|done].
    + exists (prev_of store a). rewrite (basic_kept store _ c store' Hs Hg Ht a Ha Ea).
      split; [by apply basic_prev|]. split; [by apply basic_prev|apply same_info_refl].
  - intros a k Ha Hk. by apply (slot_changed store _ c store' Hs Ht Hm).
  - by apply (memory_committed store bal c store' Hs Hb Hg Ht).
Qed.

(** With the memory in agreement the right answer of a cache over the store is
    the store's, whether or not the memory has one. *)
Theorem mtcache_over_store (R : Query -> Answer) store mem a k i v x y :
  memory_agrees mem store -> slot_in_range (a, k) ->
  basic store a = Ok i -> R (QBasic a) = ABasic i ->
  slot store a k = Ok v -> R (QStorage a k) = AStorage v ->
  let self := mkMTCache store (Some mem) in
  right_answer R self (QBasic a) x -> right_answer R self (QStorage a k) y ->
  (exists j, x = ABasic j /\ same_info i j) /\ y = AStorage v.
Proof.
  intros [Hi Hv] [Ha Hk] Hb HRb Hs HRs self Hx Hy. split.
  - destruct Hx as [(m & [= <-] & Hx)|[_ ->]]; [|rewrite HRb; exists i; split; [done|apply same_info_refl]].
    destruct x as [j|c|w]; try done. apply memory_basic_of_latest in Hx.
    destruct (Hi a j Ha Hx) as (r & Hr & Hsame). rewrite Hb in Hr. injection Hr as <-. by exists j.
  - destruct Hy as [(m & [= <-] & Hy)|[_ ->]]; [|done].
    destruct y as [j|c|w]; try done. apply memory_storage_of_latest in Hy.
    pose proof (Hv a k w (conj Ha Hk) Hy). congruence.
Qed.
End StoreLaws.

(** * Example *)

Module StoreExample.
#[local] Instance ExampleBitVec : BitVec := fun bits => (fun b : bool => if b then 1 else 0) <$> bits.

(** A database in memory. *)
Abbreviation MemDb := (gmap (string * list Z) (list Z)).
Definition mem_write (d : MemDb) (op : WriteOp) : MemDb :=
  match op with PutCf t k v => <[(t, k) := v]> d | DeleteCf t k => delete (t, k) d end.
#[local] Instance MemDb_RocksDB : RocksDB MemDb := {|
  cf_handle _ t := bool_decide (t ∈ TABLES);
  get_cf d t k := Ok (d !! (t, k));
  iterator_cf d t := omap (fun kv => if decide (kv.1.1 = t) then Some (Ok (kv.1.2, kv.2)) else None) (map_to_list d);
  db_write d ops := (Ok (), fold_left mem_write ops d) |}.

Lemma mem_write_stored ops : forall (d : MemDb) f t k,
  (forall t k, d !! (t, k) = f t k) -> fold_left mem_write ops d !! (t, k) = apply_ops ops f t k.
Proof.
  unfold apply_ops. induction ops as [|op ops IH]; intros d f t k Hf; cbn [fold_left]; [apply Hf|].
  apply IH. intros t' k'. destruct op as [t0 k0 v|t0 k0]; unfold mem_write, apply_op; case_decide as Hd.
  - destruct Hd as [-> ->]. by rewrite lookup_insert_eq.
  - rewrite lookup_insert_ne; [apply Hf|]. intros [= -> ->]. by apply Hd.
  - destruct Hd as [-> ->]. by rewrite lookup_delete_eq.
  - rewrite lookup_delete_ne; [apply Hf|]. intros [= -> ->]. by apply Hd.
Qed.
#[local] Program Instance MemDb_laws : RocksDBLaws MemDb := {|
  rocks_stored d t k := d !! (t, k); rocks_healthy _ := True |}.
Next Obligation. intros d t _ Ht. cbn. by rewrite bool_decide_eq_true_2. Qed.
Next Obligation. done. Qed.
Next Obligation.
  intros d ops _. exists (fold_left mem_write ops d). split; [done|]. split; [done|].
  intros t k. by apply mem_write_stored.
Qed.

(** Keys are the big-endian bytes of their integers. *)
Definition decode_bytes (n : nat) (l : list Z) : result Z string :=
  if (length l =? n)%nat then Ok (from_be_bytes l) else Err "Decode".
#[local] Instance BytesCodec : KeyCodec := {|
  encode_address := be_bytes 20; encode_b256 := be_bytes 32;
  decode_address := decode_bytes 20; decode_b256 := decode_bytes 32 |}.
Lemma decode_be_bytes n w x :
  w = 8 * Z.of_nat n -> in_range w x -> decode_bytes n (be_bytes n x) = Ok x.
Proof.
  intros -> Hx. unfold decode_bytes. rewrite length_be_bytes, Nat.eqb_refl, from_be_bytes_be_bytes. f_equal.
  apply Z.mod_small. unfold in_range, modulus in Hx. change 256 with (2 ^ 8). rewrite <- Z.pow_mul_r by lia. exact Hx.
Qed.
#[local] Instance BytesCodec_laws : KeyCodecLaws.
Proof.
  split.
  - intros a. exact (length_be_bytes 20 a).
  - intros h. exact (length_be_bytes 32 h).
  - intros a Ha. by apply (decode_be_bytes 20 160).
  - intros a Ha. by apply (decode_be_bytes 32 256).
Qed.

(** Values are lists of their fields. *)
#[local] Instance WordCompress : Compress Z := {|
  uncompressable_ref _ := None; compress v := [v];
  decompress l := match l with [v] => Ok v | _ => Err "Decode" end |}.
#[local] Program Instance WordCompress_laws : CompressLaws Z := {| encodable _ := True |}.
Solve All Obligations with done.
#[local] Instance AccountCompress : Compress (Z * Z * Z) := {|
  uncompressable_ref _ := None; compress '(b, n, h) := [b; n; h];
  decompress l := match l with [b; n; h] => Ok (b, n, h) | _ => Err "Decode" end |}.
#[local] Program Instance AccountCompress_laws : CompressLaws (Z * Z * Z) := {| encodable _ := True |}.
Next Obligation. done. Qed.
Next Obligation. by intros [[b n] h]. Qed.
#[local] Instance TripleAccount : RethAccount (Z * Z * Z) := {|
  Account_from i := (balance i, nonce i, code_hash i);
  get_bytecode_hash x := x.2;
  Account_into x := mkAccountInfo x.1.1 x.1.2 x.2 None None |}.
#[local] Instance TripleAccount_laws : RethAccountLaws (Z * Z * Z).
Proof. by split. Qed.
#[local] Instance CodeCompress : Compress Bytecode := {|
  uncompressable_ref _ := None;
  compress c := match c with
    | Eip7702 c => 0 :: delegated_address c :: eip7702_version c :: eip7702_raw c
    | LegacyAnalyzed c =>
        1 :: Z.of_nat (lab_original_len c) :: Z.of_nat (jt_len (lab_jump_table c))
          :: Z.of_nat (length (lab_bytecode c)) :: lab_bytecode c ++ jt_table (lab_jump_table c)
    end;
  decompress l := match l with
    | 0 :: a :: v :: raw => Ok (Eip7702 (mkEip7702Bytecode a v raw))
    | 1 :: n :: j :: b :: l =>
        Ok (LegacyAnalyzed (mkLegacyAnalyzedBytecode (take (Z.to_nat b) l) (Z.to_nat n)
              (mkJumpTable (Z.to_nat j) (drop (Z.to_nat b) l))))
    | _ => Err "Decode"
    end |}.
#[local] Program Instance CodeCompress_laws : CompressLaws Bytecode := {| encodable _ := True |}.
Next Obligation. done. Qed.
Next Obligation.
  intros [[a v raw]|[b n [j t]]] _; [done|]. cbn. rewrite !Nat2Z.id.
  by rewrite take_app_length, drop_app_length.
Qed.

(** One account gets a balance, a code and a slot; another is emptied. *)
Definition the_code : Bytecode := Bytecode_default.
Definition example_bal : Bal :=
  mkBal [(1, mkAccountBal (mkAccountInfoBal [] [(0, 5); (2, 6)] [(2, (77, the_code))])
               {[7 := [(1, 9); (2, 11)]; 8 := []]});
         (2, mkAccountBal (mkAccountInfoBal [] [(1, 0)] []) ∅)].

Lemma example_store_ok : store_ok (W := list WriteOp) (A := Z * Z * Z) (fun _ => the_code) (∅ : MemDb).
Proof.
  assert (Hget : forall t k, t ∈ TABLES -> view_get (∅ : MemDb) t k = Ok None).
  { intros t k Ht. cbn. unfold RocksDBReadTx_get. cbn. by rewrite bool_decide_eq_true_2. }
  split.
  - done.
  - intros a _. exists None. split; [|done]. unfold RocksDbProvider_basic_ref.
    by rewrite Hget by apply accounts_table.
  - intros h x _. unfold RocksDbProvider_code_by_hash_ref. by rewrite Hget by apply codes_table.
  - intros a k _ _. exists 0. unfold RocksDbProvider_storage_ref. by rewrite Hget by apply slots_table.
Qed.

Lemma example_bal_ok : bal_ok (fun _ => the_code) example_bal.
Proof.
  split.
  - apply NoDup_cons. split; [|apply NoDup_singleton]. by rewrite list_elem_of_singleton.
  - intros a ab Hin. unfold example_bal in Hin. cbn in Hin.
    assert (Hs : forall k v, slot_after (mkAccountBal AccountInfoBal_default {[7 := [(1, 9); (2, 11)]; 8 := []]}) k = Some v ->
      in_range 256 k /\ encodable v).
    { intros k v. unfold slot_after, last_writes. cbn. rewrite lookup_omap.
      destruct (decide (k = 7)) as [->|H7]; [intros _; split; [vm_compute; split; congruence|done]|].
      destruct (decide (k = 8)) as [->|H8]; [done|]. rewrite lookup_insert_ne by done. by rewrite lookup_singleton_ne. }
    apply elem_of_cons in Hin as [[= -> ->]|Hin]; [|apply list_elem_of_singleton in Hin as [= -> ->]];
      (split; [vm_compute; split; congruence|]); split;
      try (split; cbn; repeat constructor; cbn; unfold in_range, modulus; lia);
      try (intros k v; apply Hs); try done.
Qed.

Lemma commit_bal_changes_correct_witness :
  exists latest store',
    Store_commit_bal_changes (A := Z * Z * Z) (∅ : MemDb) example_bal = Some (latest, store')
    /\ store_ok (A := Z * Z * Z) (fun _ => the_code) store'.
Proof.
  destruct (commit_bal_changes_correct (fun _ => the_code) (∅ : MemDb) example_bal [] example_store_ok example_bal_ok)
    as (latest & store' & Hc & Hs & _); [by split|]. by exists latest, store'.
Defined.

(** The reads after the commit. *)
Lemma example_reads :
  (let? (_, store) := Store_commit_bal_changes (A := Z * Z * Z) (∅ : MemDb) example_bal in
   Some (RocksDbProvider_basic_ref (A := Z * Z * Z) store 1, RocksDbProvider_basic_ref (A := Z * Z * Z) store 2,
         RocksDbProvider_storage_ref store 1 7, RocksDbProvider_storage_ref store 1 8))
  = Some (Ok (Some (mkAccountInfo 6 0 77 None (Some the_code))), Ok None, Ok 11, Ok 0).
Proof. vm_compute. reflexivity. Qed.
End StoreExample.
